(* ===== verification/_CoqProject ===== *)
-Q . S2P
Prelude.v
SafeMath.v
LibError.v
Text.v
Utils.v
Abr.v
AbrFormat.v
AbrSpec.v
AbrProps.v
Crc.v
Block.v
BlockAlgo.v
BlockSpec.v
BlockRead.v
BlockWrite.v
Disk.v
Slots.v
FuchsiaSlots.v
FuchsiaProps.v
AndroidSlots.v
AndroidProps.v
GptData.v
Gpt.v
GptBuild.v
GptCodec.v
GptCheck.v
GptProps.v
GptSync.v
GptSyncProps.v
Fastboot.v
FastbootSpec.v
FastbootProps.v
FastbootRun.v
Sparse.v
SparseProps.v
BootParams.v
BootParamsProps.v
Partition.v
PartitionProps.v
GblOps.v
GblOpsProps.v
FastbootTasks.v
GblFastboot.v
GblVars.v
GblFastbootProps.v
DtTable.v
Fdt.v
Avb.v
ImageBuffer.v
AvbProps.v
FuchsiaBoot.v
DeviceTree.v
DeviceTreeProps.v
Misc.v
AndroidLoad.v
AndroidLoadProps.v
AndroidBoot.v
AndroidBootProps.v
Libc.v
LibcProps.v
AbrC.v
Async.v
GblRun.v
Efi.v
EfiMem.v
EfiMemProps.v
EfiAlloc.v
EfiProtocols.v
EfiTimer.v
EfiOps.v
EfiOpsProps.v
EfiBlocks.v
EfiBlocksProps.v
EfiFastboot.v
EfiFastbootProps.v
LibBoot.v
EfiAb.v
EfiNet.v
EfiNetProps.v
EfiApp.v
