(* ===== verification/Prelude.v ===== *)
(** * Generic Bootloader Library: verification development

    The Generic Bootloader Library (GBL, under src/gbl) is the part of an
    Android or Fuchsia bootloader that is common to all devices: it decides
    which slot to boot, finds and reads partitions, verifies, loads and arranges
    images, flashes them over fastboot and hands parameters to the kernel. An EFI
    application runs it on the services of a UEFI firmware. This development
    models its libraries and the application in Rocq, from the Rust sources, and
    proves what makes them correct.

    ** The program and the files

    Each file says at its top which source it models; the comment in front of a
    definition gives the source lines and the Rust name. A file X models code, and
    may end with its properties; otherwise they are in XProps.

    - Foundations. Prelude: outcomes, state monad, machine integers, byte
      slices, tactics. SafeMath: libsafemath, the checked integer [SafeNum].
      LibError: liberror, the error enumerations and their conversions. Text:
      what the sources use of the standard library on characters, strings,
      number formatting and parsing. Utils: libutils, alignment and the bounded
      formatter. Crc: the interface of the CRC-32 hasher. Async: libasync,
      futures as functions that are polled, and the cyclic executor. Libc,
      LibcProps: the C functions that the C parts link to.
    - Slots. Abr, AbrFormat, AbrSpec, AbrProps: libabr, the A/B/R metadata of
      Fuchsia in bytes, every API call on any storage, and an abstract slot
      machine that the API refines. AbrC: its C interface. Slots: libgbl/slots,
      the manager interface and the cached slot block. FuchsiaSlots, FuchsiaProps,
      AndroidSlots, AndroidProps: the two slot managers.
    - Storage. Block, BlockAlgo: libstorage, the block device interface, the RAM
      disk and the algorithms that read and write arbitrary ranges with
      arbitrary buffers on a device that only transfers aligned blocks.
      BlockSpec: the contract of a device. BlockRead, BlockWrite: the algorithms
      against the contract. Disk: [Disk] with read, write and fill.
      GptData, GptCodec, GptCheck: the GPT structures, their bytes and their
      validation. Gpt, GptBuild: loading, repairing, updating, erasing and
      building a partition table. GptProps, GptSync, GptSyncProps: their
      properties. Partition, PartitionProps: libgbl/partition.rs, partitions of
      several devices.
    - Fastboot. Fastboot, FastbootSpec, FastbootProps, FastbootRun: libfastboot,
      transports, TCP framing, responder, command handlers, dispatch and
      sessions, and what the engine puts on the wire. Sparse, SparseProps: the
      sparse image writer. FastbootTasks: the pool of buffers and the container of
      background tasks. GblFastboot, GblVars, GblFastbootProps: the backend of
      libgbl with its variables. GblRun: the loop over the transports, and the
      boot of a staged image.
    - Boot. GblOps, GblOpsProps: the platform interface and the decisions on top
      of it. BootParams, BootParamsProps: libbootparams. Misc: libmisc, boot modes
      and decompression. ImageBuffer: image buffers. DtTable, Fdt, DeviceTree,
      DeviceTreeProps: device trees. Avb, AvbProps: verified boot of Android.
      AndroidLoad, AndroidLoadProps, AndroidBoot, AndroidBootProps: loading and
      arranging Android images. FuchsiaBoot: loading and verifying Zircon.
      LibBoot: libboot, memory for an x86 kernel and the jumps to kernels.
    - EFI. Efi, EfiProtocols, EfiTimer: libefi, tables of functions of the
      firmware, protocols, events and timers. EfiMem, EfiMemProps: memory maps
      and the items made of them for Zircon and Linux. EfiAlloc: the global
      allocator and the exit from the boot services. EfiOps, EfiOpsProps: the
      platform interface on top of the firmware. EfiBlocks, EfiBlocksProps:
      block devices. EfiFastboot, EfiFastbootProps: USB and the local session.
      EfiAb: the slots of the firmware. EfiNet, EfiNetProps: the network device
      and the TCP socket. EfiApp: the choice of the system, and its load and start.

    The components meet through classes. A client is proved for every instance, an
    implementation discharges the class, and examples instantiate the rest:
    [Ops] (storage of libabr; partitions and C callbacks are instances),
    [BlockIo] with its contract [BlockIoSpec] (devices; the RAM disk and the EFI
    block devices are instances), [Manager] (slots), [Transport], [TcpStream],
    [GblUsbTransport] and [GblTcpStream] (fastboot channels; USB and TCP of EFI
    are instances), [FastbootImplementation] (backends; that of libgbl is an instance),
    [SparseRawWriter] (storage of sparse images), [GblOps], [AvbPlatform],
    [AndroidPlatform] and [FuchsiaPlatform] (the platform; EfiOps and the boot from
    memory are instances), [Future]. Code that is not in the repository is a class, too:
    [Hasher], [UnstableSort], [LibAvb], [LibFdt], [BootImgLib], [ZbiLib], [Decoders],
    [Smoltcp], and the layouts of generated structures; what is relied on is stated as
    laws ([RollbackStore], [BootParamLaws], [TcpContract] and the like), and the
    firmware of a theorem keeps what the UEFI specification says ([BlockFirmware],
    [NetFirmware], [SlotFirmware], [UsbQueue]).

    ** How Rust is modelled

    - A call ends in [Ok], [Err] or [Panic] ([outcome]). A failed assertion, an
      index out of range, [unwrap] of nothing and, as in a build with overflow
      checks, overflow of unchecked arithmetic are panics, so that "does not
      panic" is something to prove. Code that works through [&mut] is in the
      state monad [ST]; the state survives an error.
    - Integers are [Z] with their width where it matters; [usize] has 64 bits.
      Bytes are integers below 256, byte slices lists of them. A buffer whose
      alignment matters is an address and its contents; a subslice passed on is a
      range of the buffer it borrows, so that what the callee leaves in it is
      kept. Strings are UTF-8 bytes or characters, as the file says.
    - Packed structures that the code reinterprets in place are records; their
      bytes are given by codecs proved to be inverse to each other.
    - An [async] function runs to completion where it is awaited, except in Async,
      FastbootTasks and GblRun, where polls are steps. Logging is left out. A
      callback or trait object is a function or a class; a fastboot backend is the
      tree of the calls it makes on its responder, and smoltcp the tree of what
      it does with a network device.
    - A function of the firmware works on a state that the theorems do not look
      into, may be absent, and returns a status, what it stores through pointers, and
      the new state. A destructor is run where Rust runs it.
    - Loops that are not structural take fuel and return a distinguished value
      when it runs out. The theorems give an amount that is enough: one unit per
      byte for [Disk::fill], the sparse writer and USB, one per packet for a
      download, one per entry for the command line parser; for the network, the
      polls until the timer expires, times the bytes that can still move. Where a
      loop does not terminate, that is a theorem for every amount of fuel.

    ** What is proved

    - Slots: libabr and its C interface refine an abstract machine for every
      sequence of calls, on any storage and on a partition of a disk; the boot
      decision ends in recovery after a bounded number of attempts; both managers
      give out the boot token once, follow the boot policy, and persist exactly
      what they hold; the slots of the firmware are activated as asked.
    - Storage: reads, writes and fills of any range are exact, also for the
      caller's buffer and when the device fails; GPT validation accepts exactly
      the valid tables; a write to a partition changes no other; names are found
      again; a sync repairs the damaged copy of a GPT and keeps the rest of the
      disk. EFI block devices keep the contract of a device.
    - Fastboot: one final answer per command with uploads of exactly the
      announced size, no panic for backends with short texts, exact downloads; a
      flash writes exactly its window, in the background as in the foreground, a
      fetch reads exactly its range; a well-formed sparse image is written exactly
      as its chunks say; a session ends only when no background task is left.
      USB loses no packet, and the TCP socket no byte, with a bounded number of
      polls; frames that the network card holds are not touched.
    - Boot: an unverified system boots only as the policy allows, for Android and
      Zircon, and rollback indexes move only for a verified system that has
      booted; images, device trees, command line and bootconfig are arranged
      exactly and do not overlap; a bzImage gets memory as the boot protocol asks.
    - EFI: the allocator gives back exactly what it took, image buffers are not
      handed out twice, memory attribute items cover the runtime regions, and what a
      failing firmware makes of the lock state is stated exactly.
    - Defects of the code are theorems too, named by the manifest's findings:
      overlapping GPT partitions that are accepted, a fill that does not end,
      answers that make the fastboot engine panic, sparse images that escape their
      partition, a lock state that fails open, frames larger than a buffer.

    ** Not modelled

    - libavb, libfdt, libufdt, the boot image, ZBI, decompression and TCP/IP
      libraries and the generated bindings (libefi_types, libbootimg) are not in the
      repository; they are parameters.
    - The assembly that changes the state of the processor before a jump, and
      printing. The sysdeps functions of libavb, which call the C library, and the
      entry object of libgbl (libgbl/src/lib.rs), which passes calls on.
    - The devices and the fastboot channels of the EFI application hold the part
      of the firmware that they use; that one firmware serves them all, in turn, is
      left out, and so is the function that opens the channels together. What
      remains in the load buffer after an error of the Android flow is a parameter.
    - Mocks and tests (libefi/mocks and the test modules). *)

From stdpp Require Export base list numbers strings.
#[global] Open Scope Z_scope.

(** ** Outcomes of Rust code

    A Rust call returns a value, returns an error ([Result::Err]), or panics
    ([unwrap] of nothing, a failed assertion, a slice index out of range, an
    overflow of unchecked integer arithmetic in a build with overflow checks).
    The three cases are kept apart, so that "does not panic" is a theorem. *)
Inductive outcome (E A : Type) : Type :=
| Ok (a : A)
| Err (e : E)
| Panic.
Arguments Ok {E A} a.
Arguments Err {E A} e.
Arguments Panic {E A}.

#[global] Instance outcome_ret E : MRet (outcome E) := λ A a, Ok a.
#[global] Instance outcome_bind E : MBind (outcome E) := λ A B f m,
  match m with Ok a => f a | Err e => Err e | Panic => Panic end.
#[global] Instance outcome_eq_dec E A `{EqDecision E, EqDecision A} :
  EqDecision (outcome E A).
Proof. solve_decision. Defined.

(** [Option::ok_or]. *)
Definition ok_or {E A} (o : option A) (e : E) : outcome E A :=
  match o with Some a => Ok a | None => Err e end.

(** [Option::unwrap] and [Result::unwrap]. *)
Definition unwrap {E A} (o : option A) : outcome E A :=
  match o with Some a => Ok a | None => Panic end.
Definition unwrap_res {E E' A} (r : outcome E' A) : outcome E A :=
  match r with Ok a => Ok a | _ => Panic end.

(** [Result::ok]; a panic is not an error and stays a panic. *)
Definition res_ok {E E' A} (r : outcome E' A) : outcome E (option A) :=
  match r with Ok a => Ok (Some a) | Err _ => Ok None | Panic => Panic end.

(** [Result::map_err]. *)
Definition map_err {E E' A} (f : E' → E) (r : outcome E' A) : outcome E A :=
  match r with Ok a => Ok a | Err e => Err (f e) | Panic => Panic end.

(** [assert!] and, in a build with debug assertions, [debug_assert!]. *)
Definition assert_that {E} (b : bool) : outcome E unit :=
  if b then Ok tt else Panic.

Definition is_ok {E A} (r : outcome E A) : bool :=
  match r with Ok _ => true | _ => false end.
Definition no_panic {E A} (r : outcome E A) : Prop := r ≠ Panic.

(** ** State and errors

    Code that works on a device or a buffer through [&mut]: the state is
    threaded through, and survives an error return. *)
Definition ST (S E A : Type) : Type := S → outcome E A * S.
#[global] Instance ST_ret S E : MRet (ST S E) := λ A a s, (Ok a, s).
#[global] Instance ST_bind S E : MBind (ST S E) := λ A B f m s,
  match m s with
  | (Ok a, s') => f a s'
  | (Err e, s') => (Err e, s')
  | (Panic, s') => (Panic, s')
  end.
#[global] Instance ST_fmap S E : FMap (ST S E) := λ A B f m s,
  match m s with
  | (Ok a, s') => (Ok (f a), s')
  | (Err e, s') => (Err e, s')
  | (Panic, s') => (Panic, s')
  end.
(** A computation that does not touch the state. *)
Definition lift {S E A} (r : outcome E A) : ST S E A := λ s, (r, s).
Definition raise {S E A} (e : E) : ST S E A := λ s, (Err e, s).
Definition gets {S E A} (f : S → A) : ST S E A := λ s, (Ok (f s), s).
Definition modify {S E} (f : S → S) : ST S E unit := λ s, (Ok tt, f s).
(** The [match] on a [Result]: an error becomes a value, a panic does not. *)
Definition attempt {S E A} (m : ST S E A) : ST S E (A + E) := λ s,
  match m s with
  | (Ok a, s') => (Ok (inl a), s')
  | (Err e, s') => (Ok (inr e), s')
  | (Panic, s') => (Panic, s')
  end.

(** A computation on a part of the state. *)
Definition zoom {S T E A} (get : S → T) (put : T → S → S) (m : ST T E A) : ST S E A := λ s,
  let '(r, t) := m (get s) in (r, put t s).

(** What a run of [m] from [s] guarantees: [Q] of a value and the final state,
    [X] of an error and the final state, and no panic. *)
Definition wp {S E A} (m : ST S E A) (s : S) (Q : A → S → Prop) (X : E → S → Prop) : Prop :=
  match m s with
  | (Ok a, s') => Q a s'
  | (Err e, s') => X e s'
  | (Panic, _) => False
  end.

(** ** Machine integers

    An unsigned [w]-bit integer is a [Z] in [0, 2^w). *)
Definition fits (w z : Z) : bool := (0 <=? z) && (z <? 2 ^ w).
Definition checked (w z : Z) : option Z := if fits w z then Some z else None.
(** Unchecked [+], [-], [*] in a build with overflow checks. *)
Definition arith {E} (w z : Z) : outcome E Z := unwrap (checked w z).
Definition wrap (w z : Z) : Z := z mod 2 ^ w.
Definition u8_ok (z : Z) : Prop := 0 ≤ z < 256.
Definition u32_ok (z : Z) : Prop := 0 ≤ z < 2 ^ 32.
Definition u64_ok (z : Z) : Prop := 0 ≤ z < 2 ^ 64.
#[global] Instance u8_ok_dec z : Decision (u8_ok z).
Proof. unfold u8_ok. apply _. Defined.
#[global] Instance u32_ok_dec z : Decision (u32_ok z).
Proof. unfold u32_ok. apply _. Defined.
#[global] Instance u64_ok_dec z : Decision (u64_ok z).
Proof. unfold u64_ok. apply _. Defined.
(** Bitwise complement of a [w]-bit integer ([!x]). *)
Definition bit_not (w x : Z) : Z := Z.lxor x (Z.ones w).

(** ** Byte strings and slices

    A byte is a [Z] in [0, 256); a slice [&[u8]] is a [list Z]. Lengths and
    offsets are [Z] because the code computes with them as 64-bit integers. *)
Abbreviation byte := Z (only parsing).
Abbreviation bytes := (list Z) (only parsing).
Abbreviation zlen l := (Z.of_nat (length l)).

Definition bytes_ok (l : bytes) : Prop := Forall u8_ok l.

#[global] Instance bytes_ok_dec l : Decision (bytes_ok l).
Proof. unfold bytes_ok. apply _. Defined.

(** The [n] elements of [l] from [off]. *)
Definition slice {A} (l : list A) (off n : Z) : list A :=
  take (Z.to_nat n) (drop (Z.to_nat off) l).
(** [l] with the elements from [off] overwritten by [d]. *)
Definition splice {A} (l : list A) (off : Z) (d : list A) : list A :=
  take (Z.to_nat off) l ++ d ++ drop (Z.to_nat off + length d) l.
(** [l.get(a..b)]: [None] unless [a <= b <= len]. *)
Definition get_range {A} (l : list A) (a b : Z) : option (list A) :=
  if (0 <=? a) && (a <=? b) && (b <=? zlen l) then Some (slice l a (b - a)) else None.
(** [&l[a..b]]: panics where [get] returns [None]. *)
Definition index_range {E A} (l : list A) (a b : Z) : outcome E (list A) :=
  unwrap (get_range l a b).
(** [&l[a..]]. *)
Definition index_from {E A} (l : list A) (a : Z) : outcome E (list A) :=
  index_range l a (zlen l).

(** Little- and big-endian encodings of an integer on [n] bytes. *)
Fixpoint le_bytes (n : nat) (z : Z) : bytes :=
  match n with
  | O => []
  | S n => z mod 256 :: le_bytes n (z / 256)
  end.
Fixpoint le_val (l : bytes) : Z :=
  match l with
  | [] => 0
  | b :: l => b + 256 * le_val l
  end.
Definition be_bytes (n : nat) (z : Z) : bytes := reverse (le_bytes n z).
Definition be_val (l : bytes) : Z := le_val (reverse l).

(** ASCII literals as byte strings. *)
Definition str (s : string) : bytes :=
  (λ a, Z.of_N (Ascii.N_of_ascii a)) <$> String.list_ascii_of_string s.

(** ** Tactics and hint databases *)

(** [slices]: lookups in slices, splices and encodings;
    [outcomes]: equations of the outcome monad. *)
Create HintDb slices.
Create HintDb outcomes.

(** Turns the boolean comparisons of the code in hypotheses and goal into
    arithmetic facts. *)
Ltac bools :=
  repeat match goal with
  | H : andb _ _ = true |- _ => apply andb_true_iff in H as [? ?]
  | H : andb _ _ = false |- _ => apply andb_false_iff in H
  | H : orb _ _ = true |- _ => apply orb_true_iff in H
  | H : orb _ _ = false |- _ => apply orb_false_iff in H as [? ?]
  | H : negb _ = true |- _ => apply negb_true_iff in H
  | H : negb _ = false |- _ => apply negb_false_iff in H
  | H : (_ <=? _) = true |- _ => apply Z.leb_le in H
  | H : (_ <=? _) = false |- _ => apply Z.leb_gt in H
  | H : (_ <? _) = true |- _ => apply Z.ltb_lt in H
  | H : (_ <? _) = false |- _ => apply Z.ltb_ge in H
  | H : (_ =? _) = true |- _ => apply Z.eqb_eq in H
  | H : (_ =? _) = false |- _ => apply Z.eqb_neq in H
  | H : bool_decide _ = true |- _ => apply bool_decide_eq_true in H
  | H : bool_decide _ = false |- _ => apply bool_decide_eq_false in H
  end.

(** Writes a list of known length as its elements. *)
Ltac known_length l :=
  repeat (destruct l as [|? l]; cbn [length] in *; try discriminate).

(** Closed decidable goals by evaluation. *)
Ltac by_compute := refine (bool_decide_unpack _ _); vm_compute; exact I.

(** Case analysis on the condition of the first [if] of the goal. *)
Ltac case_if :=
  match goal with
  | |- context [if ?b then _ else _] => let E := fresh "E" in destruct b eqn:E
  end.

(** Evaluates the integer comparisons of the goal that [lia] can decide. *)
Ltac lia_bools :=
  repeat match goal with
  | |- context [?a <? ?b] =>
      first [ replace (a <? b) with true by (symmetry; apply Z.ltb_lt; lia)
            | replace (a <? b) with false by (symmetry; apply Z.ltb_ge; lia) ]
  | |- context [?a <=? ?b] =>
      first [ replace (a <=? b) with true by (symmetry; apply Z.leb_le; lia)
            | replace (a <=? b) with false by (symmetry; apply Z.leb_gt; lia) ]
  | |- context [?a =? ?b] =>
      first [ replace (a =? b) with true by (symmetry; apply Z.eqb_eq; lia)
            | replace (a =? b) with false by (symmetry; apply Z.eqb_neq; lia) ]
  end.

(** Case analysis on an [if] or [match] of a hypothesis, innermost first. *)
Ltac split_hyp H :=
  repeat (match type of H with
  | context [match ?x with _ => _ end] =>
      lazymatch x with
      | context [match _ with _ => _ end] => fail
      | _ => let E := fresh "E" in destruct x eqn:E
      end
  end; simpl in H; try discriminate H).

(** List equalities by extensionality: lookups are computed, the remaining
    index arithmetic is left to [lia]. *)
Lemma lookup_slice {A} (l : list A) off n i :
  slice l off n !! i =
    if decide (i < Z.to_nat n)%nat then l !! (Z.to_nat off + i)%nat else None.
Proof.
  unfold slice. case_decide.
  - by rewrite lookup_take_lt, lookup_drop.
  - apply lookup_take_ge. lia.
Qed.

Lemma lookup_app_decide {A} (l k : list A) i :
  (l ++ k) !! i =
    if decide (i < length l)%nat then l !! i else k !! (i - length l)%nat.
Proof.
  case_decide; [by apply lookup_app_l | apply lookup_app_r; lia].
Qed.

Lemma lookup_take_decide {A} (l : list A) n i :
  take n l !! i = if decide (i < n)%nat then l !! i else None.
Proof.
  case_decide; [by apply lookup_take_lt | apply lookup_take_ge; lia].
Qed.

Lemma lookup_splice {A} (l : list A) off d i :
  (Z.to_nat off ≤ length l)%nat →
  splice l off d !! i =
    if decide (i < Z.to_nat off)%nat then l !! i
    else if decide (i < Z.to_nat off + length d)%nat then d !! (i - Z.to_nat off)%nat
    else l !! i.
Proof.
  intros Hoff. unfold splice.
  rewrite !lookup_app_decide, lookup_take_decide, lookup_drop, length_take.
  repeat case_decide; try lia; f_equal; lia.
Qed.

Lemma length_slice {A} (l : list A) off n :
  length (slice l off n) = Nat.min (Z.to_nat n) (length l - Z.to_nat off).
Proof. unfold slice. by rewrite length_take, length_drop. Qed.

Lemma zlen_slice {A} (l : list A) off n :
  0 ≤ off → 0 ≤ n → off + n ≤ zlen l → zlen (slice l off n) = n.
Proof. rewrite length_slice. lia. Qed.

Lemma length_splice {A} (l : list A) off d :
  0 ≤ off → off + zlen d ≤ zlen l → length (splice l off d) = length l.
Proof.
  intros. unfold splice. rewrite !length_app, length_take, length_drop. lia.
Qed.

(** Length goals over slices, splices and concatenations. *)
Ltac lens :=
  repeat first
    [ rewrite length_slice | rewrite length_app | rewrite length_take | rewrite length_drop
    | rewrite length_replicate | rewrite length_insert | rewrite length_reverse
    | rewrite length_splice by (lens; simpl; lia) ];
  simpl; lia.

Ltac list_ext :=
  apply list_eq; let i := fresh "i" in intros i;
  repeat first
    [ rewrite lookup_slice | rewrite lookup_app_decide | rewrite lookup_take_decide
    | rewrite lookup_drop | rewrite lookup_splice by lens
    | rewrite length_slice | rewrite length_app | rewrite length_take | rewrite length_drop
    | rewrite length_splice by lens ];
  repeat case_decide; try lia;
  try (f_equal; lia);
  try (apply lookup_ge_None; lens);
  try (symmetry; apply lookup_ge_None; lens).

Lemma slice_all {A} (l : list A) n : n = zlen l → slice l 0 n = l.
Proof. intros ->. unfold slice. by rewrite drop_0, Nat2Z.id, firstn_all. Qed.

Lemma slice_empty {A} (l : list A) off n : n ≤ 0 → slice l off n = [].
Proof. intros. unfold slice. by rewrite (Z2Nat.nonpos n). Qed.

Lemma slice_slice {A} (l : list A) a n b m :
  0 ≤ a → 0 ≤ b → b + m ≤ n → slice (slice l a n) b m = slice l (a + b) m.
Proof. intros. list_ext. Qed.

Lemma slice_app_split {A} (l : list A) off n m :
  0 ≤ off → 0 ≤ n → 0 ≤ m → off + n ≤ zlen l →
  slice l off n ++ slice l (off + n) m = slice l off (n + m).
Proof. intros. list_ext. Qed.

Lemma slice_app_l {A} (l k : list A) n :
  n = zlen l → slice (l ++ k) 0 n = l.
Proof. intros ->. list_ext. Qed.

Lemma slice_app_r {A} (l k : list A) off n :
  off = zlen l → slice (l ++ k) off n = slice k 0 n.
Proof. intros ->. list_ext. Qed.

Lemma slice_splice_eq {A} (l d : list A) off :
  0 ≤ off → off + zlen d ≤ zlen l → slice (splice l off d) off (zlen d) = d.
Proof. intros. list_ext. Qed.

Lemma slice_splice_same {A} (l d : list A) off n :
  n = zlen d → 0 ≤ off → off + zlen d ≤ zlen l → slice (splice l off d) off n = d.
Proof. intros ->. apply slice_splice_eq. Qed.

Lemma slice_splice_in {A} (l d : list A) off a n :
  0 ≤ off → off ≤ a → a + n ≤ off + zlen d → off + zlen d ≤ zlen l →
  slice (splice l off d) a n = slice d (a - off) n.
Proof. intros. list_ext. Qed.

Lemma splice_full {A} (l d : list A) : zlen d = zlen l → splice l 0 d = d.
Proof. intros. unfold splice. simpl. rewrite drop_ge by lia. apply app_nil_r. Qed.

(** A buffer whose end is in place, completed at its start. *)
Lemma splice_head {A} (l c : list A) off r n :
  zlen l = n → 0 ≤ off → 0 ≤ r ≤ n → off + n ≤ zlen c →
  slice l r (n - r) = slice c (off + r) (n - r) →
  splice l 0 (slice c off r) = slice c off n.
Proof.
  intros Hl ? ? ? H. unfold splice. rewrite length_slice. simpl.
  replace (drop _ l) with (slice l r (n - r)).
  - rewrite H. rewrite slice_app_split by lia. f_equal. lia.
  - unfold slice. rewrite take_ge by (rewrite length_drop; lia). f_equal. lia.
Qed.

Lemma slice_splice_disj {A} (l d : list A) off a n :
  0 ≤ off → off + zlen d ≤ zlen l → 0 ≤ a →
  a + n ≤ off ∨ off + zlen d ≤ a →
  slice (splice l off d) a n = slice l a n.
Proof. intros. list_ext. Qed.

Lemma splice_splice_adj {A} (l d1 d2 : list A) off :
  0 ≤ off → off + zlen d1 + zlen d2 ≤ zlen l →
  splice (splice l off d1) (off + zlen d1) d2 = splice l off (d1 ++ d2).
Proof. intros. list_ext. Qed.

Lemma splice_splice_adj_rev {A} (l d1 d2 : list A) off :
  0 ≤ off → off + zlen d1 + zlen d2 ≤ zlen l →
  splice (splice l (off + zlen d1) d2) off d1 = splice l off (d1 ++ d2).
Proof. intros. list_ext. Qed.

Lemma splice_nil {A} (l : list A) off : splice l off [] = l.
Proof. unfold splice. simpl. by rewrite Nat.add_0_r, take_drop. Qed.

Lemma splice_slice {A} (l : list A) off n :
  0 ≤ off → 0 ≤ n → off + n ≤ zlen l → splice l off (slice l off n) = l.
Proof. intros. list_ext. Qed.

Lemma join_fmap_cons {A B} (f : A → list B) x l :
  mjoin (f <$> x :: l) = f x ++ mjoin (f <$> l).
Proof. done. Qed.

Lemma alter_insert {A} (f : A → A) i (l : list A) x :
  l !! i = Some x → alter f i l = <[i := f x]> l.
Proof.
  intros Hi. apply list_eq. intros k. destruct (decide (i = k)) as [->|].
  - rewrite list_lookup_alter_eq, Hi, list_lookup_insert_eq; [done|]. by eapply lookup_lt_Some.
  - by rewrite list_lookup_alter_ne, list_lookup_insert_ne.
Qed.

(** ** Integer encodings *)

Lemma length_le_bytes n z : length (le_bytes n z) = n.
Proof. revert z. induction n; intros; simpl; auto. Qed.

Lemma le_bytes_ok n z : bytes_ok (le_bytes n z).
Proof.
  revert z. induction n as [|n IH]; intros z; simpl; constructor; [|apply IH].
  unfold u8_ok. apply Z.mod_pos_bound. lia.
Qed.

Lemma le_val_bytes n z : 0 ≤ z < 256 ^ Z.of_nat n → le_val (le_bytes n z) = z.
Proof.
  revert z. induction n as [|n IH]; intros z Hz; simpl.
  - simpl in Hz. lia.
  - rewrite Nat2Z.inj_succ, Z.pow_succ_r in Hz by lia.
    rewrite IH.
    + pose proof (Z.div_mod z 256). lia.
    + split; [apply Z.div_pos; lia | apply Z.div_lt_upper_bound; lia].
Qed.

Lemma le_val_bound l : bytes_ok l → 0 ≤ le_val l < 256 ^ zlen l.
Proof.
  induction 1 as [|b l Hb _ IH]; [simpl; lia|].
  cbn [le_val length]. unfold u8_ok in Hb.
  rewrite Nat2Z.inj_succ, Z.pow_succ_r by lia. lia.
Qed.

Lemma le_bytes_val l : bytes_ok l → le_bytes (length l) (le_val l) = l.
Proof.
  induction 1 as [|b l Hb _ IH]; [done|].
  cbn [le_val length le_bytes]. unfold u8_ok in Hb.
  rewrite Z.mul_comm, Z_mod_plus_full, Z.mod_small by lia.
  rewrite Z.div_add, Z.div_small by lia. by rewrite Z.add_0_l, IH.
Qed.

Lemma length_be_bytes n z : length (be_bytes n z) = n.
Proof. unfold be_bytes. by rewrite length_reverse, length_le_bytes. Qed.

Lemma be_val_bytes n z : 0 ≤ z < 256 ^ Z.of_nat n → be_val (be_bytes n z) = z.
Proof. intros. unfold be_val, be_bytes. rewrite reverse_involutive. by apply le_val_bytes. Qed.

Lemma be_bytes_val l n : bytes_ok l → n = length l → be_bytes n (be_val l) = l.
Proof.
  intros Hl ->. unfold be_val, be_bytes.
  rewrite <-(length_reverse l), le_bytes_val, reverse_involutive; [done|].
  unfold bytes_ok. by rewrite Forall_reverse.
Qed.

Lemma be_bytes_ok n z : bytes_ok (be_bytes n z).
Proof. unfold bytes_ok, be_bytes. rewrite Forall_reverse. apply le_bytes_ok. Qed.

Lemma be_val_bound l : bytes_ok l → 0 ≤ be_val l < 256 ^ zlen l.
Proof.
  intros Hl. unfold be_val. rewrite <-(length_reverse l).
  apply le_val_bound. unfold bytes_ok. by rewrite Forall_reverse.
Qed.

Lemma bytes_ok_slice l off n : bytes_ok l → bytes_ok (slice l off n).
Proof. intros. unfold slice. by apply Forall_take, Forall_drop. Qed.

Lemma bytes_ok_app l k : bytes_ok (l ++ k) ↔ bytes_ok l ∧ bytes_ok k.
Proof. apply Forall_app. Qed.

Lemma bytes_ok_replicate n b : u8_ok b → bytes_ok (replicate n b).
Proof. apply Forall_replicate. Qed.

#[export] Hint Resolve le_bytes_ok be_bytes_ok bytes_ok_slice bytes_ok_replicate : slices.

(** ** Checked arithmetic *)

Lemma fits_spec w z : fits w z = true ↔ 0 ≤ z < 2 ^ w.
Proof. unfold fits. rewrite andb_true_iff, Z.leb_le, Z.ltb_lt. done. Qed.

Lemma fits_false w z : fits w z = false ↔ ¬ (0 ≤ z < 2 ^ w).
Proof. rewrite <-fits_spec. by destruct (fits w z). Qed.

Lemma checked_Some w z : 0 ≤ z < 2 ^ w → checked w z = Some z.
Proof. intros H%fits_spec. unfold checked. by rewrite H. Qed.

Lemma checked_None w z : ¬ (0 ≤ z < 2 ^ w) → checked w z = None.
Proof. intros H%fits_false. unfold checked. by rewrite H. Qed.

Lemma arith_ok {E} w z : 0 ≤ z < 2 ^ w → arith (E:=E) w z = Ok z.
Proof. intros. unfold arith. by rewrite checked_Some. Qed.

Lemma arith_panic {E} w z : ¬ (0 ≤ z < 2 ^ w) → arith (E:=E) w z = Panic.
Proof. intros. unfold arith. by rewrite checked_None. Qed.

Lemma land_bound w a b : 0 ≤ w → 0 ≤ a < 2 ^ w → 0 ≤ b → 0 ≤ Z.land a b < 2 ^ w.
Proof.
  intros Hw Ha Hb. assert (Z.land a b = Z.land a b mod 2 ^ w) as ->.
  { rewrite <-Z.land_ones by done. rewrite <-Z.land_assoc, (Z.land_comm b), Z.land_assoc.
    by rewrite Z.land_ones, Z.mod_small by done. }
  apply Z.mod_pos_bound. lia.
Qed.

Lemma lor_bound w a b : 0 ≤ w → 0 ≤ a < 2 ^ w → 0 ≤ b < 2 ^ w → 0 ≤ Z.lor a b < 2 ^ w.
Proof.
  intros Hw Ha Hb. assert (Z.lor a b = Z.lor a b mod 2 ^ w) as ->.
  { rewrite <-Z.land_ones by done. rewrite Z.land_lor_distr_l, !Z.land_ones by done.
    by rewrite !Z.mod_small by done. }
  apply Z.mod_pos_bound. lia.
Qed.

Lemma get_range_Some {A} (l : list A) a b :
  0 ≤ a → a ≤ b → b ≤ zlen l → get_range l a b = Some (slice l a (b - a)).
Proof.
  intros. unfold get_range.
  by rewrite (proj2 (Z.leb_le 0 a)), (proj2 (Z.leb_le a b)), (proj2 (Z.leb_le b _)).
Qed.

Lemma get_range_None {A} (l : list A) a b :
  a < 0 ∨ b < a ∨ zlen l < b → get_range l a b = None.
Proof. intros. unfold get_range. case_if; [bools; lia | done]. Qed.

Lemma get_range_inv {A} (l : list A) a b s :
  get_range l a b = Some s → 0 ≤ a ≤ b ∧ b ≤ zlen l ∧ s = slice l a (b - a).
Proof. unfold get_range. case_if; intros; simplify_eq. bools. split_and!; auto. Qed.

Lemma index_range_ok {E A} (l : list A) a b :
  0 ≤ a → a ≤ b → b ≤ zlen l → index_range (E:=E) l a b = Ok (slice l a (b - a)).
Proof. intros. unfold index_range. by rewrite get_range_Some. Qed.

(** ** Outcomes *)

Lemma ok_bind {E A B} (a : A) (f : A → outcome E B) : Ok a ≫= f = f a.
Proof. done. Qed.

Lemma bind_Ok {E A B} (m : outcome E A) (f : A → outcome E B) b :
  m ≫= f = Ok b ↔ ∃ a, m = Ok a ∧ f a = Ok b.
Proof. destruct m; naive_solver. Qed.

Lemma ok_or_inv {E A} (o : option A) (e : E) a : ok_or o e = Ok a → o = Some a.
Proof. by destruct o; intros [= ->]. Qed.

Lemma bind_no_panic {E A B} (m : outcome E A) (f : A → outcome E B) :
  no_panic m → (∀ a, m = Ok a → no_panic (f a)) → no_panic (m ≫= f).
Proof. unfold no_panic. destruct m; naive_solver. Qed.

(** ** Running state computations *)

Lemma bind_run {S E A B} (m : ST S E A) (f : A → ST S E B) s :
  (m ≫= f) s = match m s with
               | (Ok a, s') => f a s'
               | (Err e, s') => (Err e, s')
               | (Panic, s') => (Panic, s')
               end.
Proof. done. Qed.

Lemma bind_run_ok {S E A B} (m : ST S E A) (f : A → ST S E B) s a s' :
  m s = (Ok a, s') → (m ≫= f) s = f a s'.
Proof. intros H. by rewrite bind_run, H. Qed.

Lemma bind_run_err {S E A B} (m : ST S E A) (f : A → ST S E B) s e s' :
  m s = (Err e, s') → (m ≫= f) s = (Err e, s').
Proof. intros H. by rewrite bind_run, H. Qed.

Lemma attempt_run {S E A} (m : ST S E A) s :
  attempt m s = match m s with
                | (Ok a, s') => (Ok (inl a), s')
                | (Err e, s') => (Ok (inr e), s')
                | (Panic, s') => (Panic, s')
                end.
Proof. done. Qed.

Lemma lift_run {S E A} (r : outcome E A) (s : S) : lift r s = (r, s).
Proof. done. Qed.
Lemma mret_run {S E A} (a : A) (s : S) : (mret a : ST S E A) s = (Ok a, s).
Proof. done. Qed.
Lemma raise_run {S E A} (e : E) (s : S) : (raise e : ST S E A) s = (Err e, s).
Proof. done. Qed.

Lemma lift_ok_bind {S E A B} (a : A) (f : A → ST S E B) s : (lift (Ok a) ≫= f) s = f a s.
Proof. done. Qed.

(** ** Reasoning about runs *)

Section Wp.
Context {S E : Type}.
Implicit Types s : S.

Lemma wp_bind {A B} (m : ST S E A) (f : A → ST S E B) s Q X :
  wp m s (λ a s', wp (f a) s' Q X) X → wp (m ≫= f) s Q X.
Proof. unfold wp. rewrite bind_run. by destruct (m s) as [[] ?]. Qed.

Lemma wp_mono {A} (m : ST S E A) s (Q Q' : A → S → Prop) (X X' : E → S → Prop) :
  wp m s Q X → (∀ a s', Q a s' → Q' a s') → (∀ e s', X e s' → X' e s') → wp m s Q' X'.
Proof. unfold wp. destruct (m s) as [[] ?]; auto. Qed.

Lemma wp_ret {A} (a : A) s (Q : A → S → Prop) (X : E → S → Prop) :
  Q a s → wp (mret a) s Q X.
Proof. done. Qed.

Lemma wp_lift {A} (r : outcome E A) s Q X :
  match r with Ok a => Q a s | Err e => X e s | Panic => False end → wp (lift r) s Q X.
Proof. unfold wp, lift. by destruct r. Qed.

Lemma wp_lift_ok {A} (r : outcome E A) a s Q X : r = Ok a → Q a s → wp (lift r) s Q X.
Proof. by intros ->. Qed.

Lemma wp_raise {A} (e : E) s (Q : A → S → Prop) X : X e s → wp (raise e) s Q X.
Proof. done. Qed.

Lemma wp_gets {A} (f : S → A) s (Q : A → S → Prop) (X : E → S → Prop) :
  Q (f s) s → wp (gets f) s Q X.
Proof. done. Qed.

Lemma wp_modify (f : S → S) s (Q : unit → S → Prop) (X : E → S → Prop) :
  Q tt (f s) → wp (modify f) s Q X.
Proof. done. Qed.

Lemma wp_attempt {A} (m : ST S E A) s (Q : A + E → S → Prop) X :
  wp m s (λ a, Q (inl a)) (λ e, Q (inr e)) → wp (attempt m) s Q X.
Proof. unfold wp. rewrite attempt_run. by destruct (m s) as [[] ?]. Qed.

Lemma wp_zoom {T A} (get : S → T) (put : T → S → S) (m : ST T E A) s Q X :
  wp m (get s) (λ a t, Q a (put t s)) (λ e t, X e (put t s)) → wp (zoom get put m) s Q X.
Proof. unfold wp, zoom. by destruct (m (get s)) as [[] ?]. Qed.

Lemma wp_run_ok {A} (m : ST S E A) s Q :
  wp m s Q (λ _ _, False) → ∃ a s', m s = (Ok a, s') ∧ Q a s'.
Proof. unfold wp. destruct (m s) as [[a|e|] s']; try done. eauto. Qed.

Lemma wp_of_run {A} (m : ST S E A) s a s' (Q : A → S → Prop) X :
  m s = (Ok a, s') → Q a s' → wp m s Q X.
Proof. unfold wp. by intros ->. Qed.
End Wp.

(** One step of a state computation whose head is a pure computation. *)
Ltac st_pure :=
  repeat first
    [ rewrite bind_run | rewrite attempt_run | rewrite lift_run
    | rewrite mret_run | rewrite raise_run ];
  cbv beta iota.

#[global] Arguments be_val : simpl never.
#[global] Arguments be_bytes : simpl never.
