(* ===== verification/SafeMath.v ===== *)
(** * libsafemath: unsigned arithmetic that is checked by default

    Models src/gbl/libsafemath/src/lib.rs: [SafeNum], its conversions from and
    to every integer type, the five arithmetic operators and the two rounding
    helpers. The [#[track_caller]] location that an operation records is an
    explicit argument. *)

From S2P Require Import Prelude.

(** [core::panic::Location]. *)
Record Location := mkLocation { loc_file : string; loc_line : Z; loc_column : Z }.
#[global] Instance Location_eq_dec : EqDecision Location.
Proof. solve_decision. Defined.

Module SafeNum.

(** gbl/libsafemath/src/lib.rs:149-170, [Error]: points to the location of the
    original failed operation. *)
Record SafeError := mkSafeError { err_loc : Location }.
#[global] Instance SafeError_eq_dec : EqDecision SafeError.
Proof. solve_decision. Defined.

(** gbl/libsafemath/src/lib.rs:172-174, [SafeNum]: a [Result<u64, Error>]. *)
Inductive SafeNum :=
| Val (v : Z)
| Bad (e : SafeError).
#[global] Instance SafeNum_eq_dec : EqDecision SafeNum.
Proof. solve_decision. Defined.

(** The integer types a [SafeNum] converts from and to ([usize] and [isize]
    are 64 bits wide). *)
Inductive IntType :=
| TU8 | TU16 | TU32 | TU64 | TUsize | TU128
| TI8 | TI16 | TI32 | TI64 | TI128 | TIsize.

Definition int_min (t : IntType) : Z :=
  match t with
  | TU8 | TU16 | TU32 | TU64 | TUsize | TU128 => 0
  | TI8 => - 2 ^ 7 | TI16 => - 2 ^ 15 | TI32 => - 2 ^ 31
  | TI64 | TIsize => - 2 ^ 63 | TI128 => - 2 ^ 127
  end.
Definition int_max (t : IntType) : Z :=
  match t with
  | TU8 => 2 ^ 8 - 1 | TU16 => 2 ^ 16 - 1 | TU32 => 2 ^ 32 - 1
  | TU64 | TUsize => 2 ^ 64 - 1 | TU128 => 2 ^ 128 - 1
  | TI8 => 2 ^ 7 - 1 | TI16 => 2 ^ 15 - 1 | TI32 => 2 ^ 31 - 1
  | TI64 | TIsize => 2 ^ 63 - 1 | TI128 => 2 ^ 127 - 1
  end.
Definition in_type (t : IntType) (v : Z) : bool :=
  (int_min t <=? v) && (v <=? int_max t).

(** gbl/libsafemath/src/lib.rs:192-193, [SafeNum::MAX]. *)
Definition MAX : SafeNum := Val (2 ^ 64 - 1).
(** gbl/libsafemath/src/lib.rs:194-195, [SafeNum::MIN]. *)
Definition MIN : SafeNum := Val 0.
(** gbl/libsafemath/src/lib.rs:196-197, [SafeNum::ZERO]. *)
Definition ZERO : SafeNum := Val 0.

Definition ok_or_at (loc : Location) (o : option Z) : SafeNum :=
  match o with Some v => Val v | None => Bad (mkSafeError loc) end.

(** gbl/libsafemath/src/lib.rs:242-252, [conversion_func]: [From<T>] of a type
    every value of which is a [u64]. *)
Definition from_small (v : Z) : SafeNum := Val v.

(** gbl/libsafemath/src/lib.rs:254-265, [conversion_func_maybe_error]: [From<T>]
    of a type with values outside [u64]. *)
Definition from_wide (loc : Location) (v : Z) : SafeNum :=
  ok_or_at loc (checked 64 v).

(** gbl/libsafemath/src/lib.rs:295-306, [From<T> for SafeNum]: the instances of
    the two conversion macros. *)
Definition from_int (loc : Location) (t : IntType) (v : Z) : SafeNum :=
  match t with
  | TU8 | TU16 | TU32 | TU64 => from_small v
  | _ => from_wide loc v
  end.

(** gbl/libsafemath/src/lib.rs:229-240, [try_conversion_func]: [TryFrom<SafeNum>
    for T]. *)
Definition try_into (loc : Location) (t : IntType) (s : SafeNum) : outcome SafeError Z :=
  match s with
  | Bad e => Err e
  | Val v => if in_type t v then Ok v else Err (mkSafeError loc)
  end.

(** gbl/libsafemath/src/lib.rs:267-293, [arithmetic_impl]: the left operand's
    error wins, then the right operand's, then the operation's own. *)
Definition arith_op (func : Z → Z → option Z) (loc : Location) (a b : SafeNum) : SafeNum :=
  match a, b with
  | Bad _, _ => a
  | _, Bad _ => b
  | Val l, Val r => ok_or_at loc (func l r)
  end.

Definition checked_add (a b : Z) : option Z := checked 64 (a + b).
Definition checked_sub (a b : Z) : option Z := checked 64 (a - b).
Definition checked_mul (a b : Z) : option Z := checked 64 (a * b).
Definition checked_div (a b : Z) : option Z := if b =? 0 then None else Some (a / b).
Definition checked_rem (a b : Z) : option Z := if b =? 0 then None else Some (a mod b).

(** gbl/libsafemath/src/lib.rs:307-307, [Add for SafeNum]. *)
Definition add := arith_op checked_add.
(** gbl/libsafemath/src/lib.rs:308-308, [Sub for SafeNum]. *)
Definition sub := arith_op checked_sub.
(** gbl/libsafemath/src/lib.rs:309-309, [Mul for SafeNum]. *)
Definition mul := arith_op checked_mul.
(** gbl/libsafemath/src/lib.rs:310-310, [Div for SafeNum]. *)
Definition div := arith_op checked_div.
(** gbl/libsafemath/src/lib.rs:311-311, [Rem for SafeNum]. *)
Definition rem := arith_op checked_rem.

(** gbl/libsafemath/src/lib.rs:199-206, [SafeNum::round_down]. *)
Definition round_down (loc : Location) (a r : SafeNum) : SafeNum :=
  sub loc a (rem loc a r).

(** gbl/libsafemath/src/lib.rs:208-216, [SafeNum::round_up]. *)
Definition round_up (loc : Location) (a r : SafeNum) : SafeNum :=
  round_down loc (sub loc (add loc a r) (Val 1)) r.

(** gbl/libsafemath/src/lib.rs:218-221, [SafeNum::has_error]. *)
Definition has_error (a : SafeNum) : bool :=
  match a with Bad _ => true | Val _ => false end.

(** gbl/libsafemath/src/lib.rs:223-226, [SafeNum::is_valid]. *)
Definition is_valid (a : SafeNum) : bool :=
  match a with Val _ => true | Bad _ => false end.

(** ** Expressions

    The chains of operations that client code writes, with the location of
    each operation, evaluated with [SafeNum] and over the exact integers. *)
Inductive op := OAdd | OSub | OMul | ODiv | ORem.
Inductive expr :=
| EConst (t : IntType) (v : Z) (loc : Location)
| EOp (o : op) (loc : Location) (a b : expr).

Definition run_op (o : op) : Location → SafeNum → SafeNum → SafeNum :=
  match o with
  | OAdd => add | OSub => sub | OMul => mul | ODiv => div | ORem => rem
  end.
Fixpoint eval (e : expr) : SafeNum :=
  match e with
  | EConst t v loc => from_int loc t v
  | EOp o loc a b => run_op o loc (eval a) (eval b)
  end.

Definition exact_op (o : op) (a b : Z) : Z :=
  match o with
  | OAdd => a + b | OSub => a - b | OMul => a * b | ODiv => a / b | ORem => a mod b
  end.
Fixpoint exact (e : expr) : Z :=
  match e with
  | EConst _ v _ => v
  | EOp o _ a b => exact_op o (exact a) (exact b)
  end.

(** The location of the first step, in evaluation order, whose exact value is
    not a [u64] or that divides by zero. *)
Fixpoint first_fault (e : expr) : option Location :=
  match e with
  | EConst _ v loc => if fits 64 v then None else Some loc
  | EOp o loc a b =>
      match first_fault a, first_fault b with
      | Some l, _ => Some l
      | None, Some l => Some l
      | None, None =>
          let divides := match o with ODiv | ORem => true | _ => false end in
          if divides && (exact b =? 0) then Some loc
          else if fits 64 (exact_op o (exact a) (exact b)) then None else Some loc
      end
  end.

(** Every constant of the expression is a value of its type. *)
Fixpoint typed (e : expr) : Prop :=
  match e with
  | EConst t v _ => in_type t v = true
  | EOp _ _ a b => typed a ∧ typed b
  end.

(** ** Lemmas *)

Lemma from_int_typed loc t v :
  in_type t v = true →
  from_int loc t v = if fits 64 v then Val v else Bad (mkSafeError loc).
Proof.
  intros H. unfold in_type in H. bools.
  assert (Hw : from_wide loc v = if fits 64 v then Val v else Bad (mkSafeError loc)).
  { unfold from_wide, checked. by destruct (fits 64 v). }
  destruct t; simpl in *; try exact Hw;
    unfold from_small; by rewrite (proj2 (fits_spec 64 v)) by lia.
Qed.

Lemma from_int_u64 loc t v : u64_ok v → from_int loc t v = Val v.
Proof.
  intros. destruct t; try done; simpl; unfold from_wide; by rewrite checked_Some.
Qed.

Lemma div_fits a b : u64_ok a → 0 < b → fits 64 (a / b) = true.
Proof.
  intros. apply fits_spec. unfold u64_ok in *. split; [apply Z.div_pos; lia|].
  apply Z.div_lt_upper_bound; nia.
Qed.

Lemma rem_fits a b : u64_ok b → 0 < b → fits 64 (a mod b) = true.
Proof.
  intros. apply fits_spec. unfold u64_ok in *. pose proof (Z.mod_pos_bound a b). lia.
Qed.

Lemma run_op_val o loc a b :
  u64_ok a → u64_ok b →
  run_op o loc (Val a) (Val b) =
    (let divides := match o with ODiv | ORem => true | _ => false end in
     if divides && (b =? 0) then Bad (mkSafeError loc)
     else if fits 64 (exact_op o a b) then Val (exact_op o a b)
     else Bad (mkSafeError loc)).
Proof.
  intros Ha Hb.
  assert (Hpos : b ≠ 0 → 0 < b) by (unfold u64_ok in *; lia).
  destruct o; simpl; unfold checked_add, checked_sub, checked_mul, checked_div,
    checked_rem, checked;
    try (by destruct (fits 64 _)); destruct (b =? 0) eqn:E; bools; simpl; try done.
  - by rewrite div_fits by auto.
  - by rewrite rem_fits by auto.
Qed.

Lemma round_down_val loc v r :
  u64_ok v → 0 < r < 2 ^ 64 → round_down loc (Val v) (Val r) = Val (v - v mod r).
Proof.
  intros Hv Hr. unfold round_down, rem, sub. cbn [arith_op].
  unfold checked_rem, checked_sub. rewrite (proj2 (Z.eqb_neq r 0)) by lia. cbn.
  unfold u64_ok in *. pose proof (Z.mod_pos_bound v r). pose proof (Z.mod_le v r).
  by rewrite checked_Some by lia.
Qed.

Lemma round_up_val loc v r :
  u64_ok v → 0 < r → v + r < 2 ^ 64 →
  round_up loc (Val v) (Val r) = Val (v + (- v) mod r).
Proof.
  intros Hv Hr Hs. unfold round_up, add, sub. cbn [arith_op].
  unfold u64_ok, checked_add, checked_sub in *.
  rewrite checked_Some by lia. cbn [arith_op ok_or_at].
  rewrite checked_Some by lia. cbn [ok_or_at].
  rewrite round_down_val by (unfold u64_ok; lia). f_equal.
  replace ((v + r - 1) mod r) with (r - 1 - (- v) mod r); [lia|].
  apply (Z.mod_unique _ _ ((v + r - 1 - (r - 1 - (- v) mod r)) / r)).
  - pose proof (Z.mod_pos_bound (- v) r). lia.
  - pose proof (Z.div_mod (- v) r ltac:(lia)) as Hdm.
    replace (v + r - 1 - (r - 1 - (- v) mod r)) with ((- ((- v) / r)) * r) by lia.
    rewrite Z.div_mul by lia. lia.
Qed.

Lemma round_up_overflow loc v r :
  u64_ok v → u64_ok r → 2 ^ 64 ≤ v + r →
  round_up loc (Val v) (Val r) = Bad (mkSafeError loc).
Proof.
  intros. unfold round_up, add, sub. cbn [arith_op].
  unfold checked_add. by rewrite checked_None by lia.
Qed.

Lemma eval_fault e :
  typed e →
  eval e = match first_fault e with
           | Some l => Bad (mkSafeError l) | None => Val (exact e) end ∧
  (first_fault e = None → u64_ok (exact e)).
Proof.
  induction e as [t v loc | o loc a IHa b IHb]; simpl.
  - intros H. rewrite from_int_typed by done.
    destruct (fits 64 v) eqn:E; split; intros; simplify_eq; auto.
    by apply fits_spec.
  - intros [Ha Hb]. destruct (IHa Ha) as [-> Ua], (IHb Hb) as [-> Ub].
    destruct (first_fault a) as [la|].
    { split; [|done]. by destruct o. }
    destruct (first_fault b) as [lb|].
    { split; [|done]. by destruct o. }
    rewrite run_op_val by auto. simpl.
    destruct (_ && _) eqn:E1; [done|].
    destruct (fits 64 _) eqn:E2; [|done].
    split; [done|]. intros _. by apply fits_spec.
Qed.

(** ** Properties *)

(** C39. Evaluating any chain of [SafeNum] operations gives the exact integer
    result if no step of the chain leaves the range of [u64] or divides by
    zero, and otherwise the error of the first step that does, at that step's
    location; the two cases are exclusive and exhaustive. *)
Theorem safenum_chain_exact (e : expr) :
  typed e →
  eval e = match first_fault e with
           | Some l => Bad (mkSafeError l) | None => Val (exact e) end.
Proof. intros H. by apply eval_fault. Qed.

Lemma safenum_chain_exact_witness :
  let L n := mkLocation "f.rs" n 0 in
  let e := EOp ODiv (L 3) (EOp OMul (L 2) (EConst TU64 (2 ^ 63) (L 1)) (EConst TI32 2 (L 1)))
                          (EConst TU8 0 (L 1)) in
  eval e = Bad (mkSafeError (L 2)).
Proof.
  cbv zeta. rewrite safenum_chain_exact by (vm_compute; auto). reflexivity.
Defined.

(** [round_up] returns the least multiple of a non-zero [r] that is at
    least [v] whenever [v + r] is a [u64], and an error whenever [v + r] is
    not, also when [v] is itself a multiple of [r]. *)
Theorem safenum_round_up_spec loc v r :
  u64_ok v → 0 < r < 2 ^ 64 →
  (v + r < 2 ^ 64 →
     ∃ m, round_up loc (Val v) (Val r) = Val m ∧ v ≤ m ∧ m mod r = 0 ∧
          (∀ k, v ≤ k → k mod r = 0 → m ≤ k)) ∧
  (2 ^ 64 ≤ v + r → has_error (round_up loc (Val v) (Val r)) = true).
Proof.
  intros Hv Hr. split; intros Hs.
  - rewrite round_up_val by (done || lia). eexists. split; [done|].
    pose proof (Z.mod_pos_bound (- v) r ltac:(lia)) as Hm.
    pose proof (Z.div_mod (- v) r ltac:(lia)) as Hd.
    split_and!.
    + lia.
    + replace (v + (- v) mod r) with ((- ((- v) / r)) * r) by lia.
      apply Z.mod_mul. lia.
    + intros k Hk Hkr. apply Z.div_exact in Hkr; [|lia].
      assert (0 ≤ k / r + (- v) / r) by nia. nia.
  - by rewrite round_up_overflow by (unfold u64_ok in *; lia).
Qed.

Lemma safenum_round_up_spec_witness :
  has_error (round_up (mkLocation "f.rs" 1 1) MAX (Val 1)) = true.
Proof.
  apply (safenum_round_up_spec (mkLocation "f.rs" 1 1) (2 ^ 64 - 1) 1);
    unfold u64_ok; lia.
Defined.

#[global] Arguments add : simpl never.
#[global] Arguments sub : simpl never.
#[global] Arguments mul : simpl never.
#[global] Arguments div : simpl never.
#[global] Arguments rem : simpl never.
#[global] Arguments round_down : simpl never.
#[global] Arguments round_up : simpl never.
#[global] Arguments from_int : simpl never.
End SafeNum.
