(* ===== verification/LibError.v ===== *)
(** * liberror: the error type shared by every GBL library

    Models src/gbl/liberror/src/lib.rs: the two error enumerations with their
    payloads and the [From] conversions the [?] operator applies. The code that
    uses [SafeNum] through [?] gets its conversions here. *)

From S2P Require Import Prelude SafeMath.
Import SafeNum.

(** gbl/liberror/src/lib.rs:44-129, [GptError]. *)
Inductive GptErrorKind :=
| DifferentFromPrimary
| DiskTooSmall
| EntriesTruncated
| IncorrectHeaderCrc
| IncorrectMagic (v : Z)
| IncorrectEntriesCrc
| InvalidFirstLastUsableBlock (first last : Z) (range : Z * Z)
| InvalidPartitionRange (idx : Z) (part_range usable_range : Z * Z)
| InvalidPrimaryEntriesStart (value : Z) (expect_range : Z * Z)
| InvalidSecondaryEntriesStart (value : Z) (expect_range : Z * Z)
| NumberOfEntriesOverflow (entries max_allowed : Z)
| PartitionRangeOverlap (prev next : Z * Z * Z)
| UnexpectedEntrySize (actual expect : Z)
| UnexpectedHeaderSize (actual expect : Z)
| ZeroPartitionTypeGUID (idx : Z)
| ZeroPartitionUniqueGUID (idx : Z).
#[global] Instance GptErrorKind_eq_dec : EqDecision GptErrorKind.
Proof. solve_decision. Defined.

(** gbl/liberror/src/lib.rs:131-256, [Error]. *)
Inductive Error :=
| Aborted
| AccessDenied
| AlreadyStarted
| ArithmeticOverflow (e : SafeError)
| BadBufferSize
| BadChecksum
| BadIndex (n : Z)
| BadMagic
| BlockIoError
| BootFailed
| BufferOverlap
| BufferTooSmall (n : option Z)
| CompromisedData
| ConnectionReset
| DeviceError
| Disconnected
| EndOfFile
| EndOfMedia
| Finished
| GptError (e : GptErrorKind)
| HttpError
| IcmpError
| InvalidAlignment
| InvalidHandshake
| InvalidInput
| InvalidLanguage
| InvalidState
| IpAddressConflict
| LoadError
| MediaChanged
| MemoryMapCallbackError (n : Z)
| MissingImage
| NoFdt
| NoGpt
| NoMapping
| NoMedia
| NoResponse
| NotFound
| NotImplemented
| NotReady
| NotStarted
| NotUnique
| OperationProhibited
| Other (s : option string)
| OutOfRange
| OutOfResources
| ProtocolError
| SecurityViolation
| TftpError
| Timeout
| TooManyPartitions (n : Z)
| Unaddressable
| UnexpectedEfiError (n : Z)
| UnexpectedReturn
| Unsupported
| UnsupportedVersion
| VolumeCorrupted
| VolumeFull
| WriteProtected.
#[global] Instance Error_eq_dec : EqDecision Error.
Proof. solve_decision. Defined.

(** [Result<T>] of the crate. *)
Abbreviation result := (outcome Error).

(** gbl/liberror/src/lib.rs:258-268, [From<&str> for Error]. *)
Definition error_of_str (s : string) : Error := Other (Some s).

(** gbl/liberror/src/lib.rs:270-281, [From<safemath::Error> for Error]. *)
Definition error_of_safe (e : SafeError) : Error := ArithmeticOverflow e.

(** The call sites that record a location are not told apart outside
    libsafemath. *)
Definition here : Location := mkLocation EmptyString 0 0.
Definition overflow_error : Error := ArithmeticOverflow (mkSafeError here).

(** [SafeNum] arithmetic at such a call site. *)
Notation "a +! b" := (SafeNum.add here a b) (at level 50, left associativity).
Notation "a -! b" := (SafeNum.sub here a b) (at level 50, left associativity).
Notation "a *! b" := (SafeNum.mul here a b) (at level 40, left associativity).
Notation "a /! b" := (SafeNum.div here a b) (at level 40, left associativity).
Notation "a %! b" := (SafeNum.rem here a b) (at level 40, left associativity).

(** [s.try_into()?] into a 64-bit integer ([u64] or [usize]). *)
Definition into_u64 (s : SafeNum) : result Z :=
  map_err error_of_safe (SafeNum.try_into here TU64 s).
(** [x.try_into()?] between primitive integers. *)
Definition try_int (w z : Z) : result Z := ok_or (checked w z) overflow_error.

(** ** Lemmas *)

Lemma into_u64_val v : u64_ok v → into_u64 (Val v) = Ok v.
Proof.
  intros [? ?]. unfold into_u64. cbn [SafeNum.try_into].
  assert (in_type TU64 v = true) as ->.
  { unfold in_type. cbn [int_min int_max].
    rewrite (proj2 (Z.leb_le 0 v)), (proj2 (Z.leb_le v _)) by lia. done. }
  done.
Qed.

Lemma into_u64_bad e : into_u64 (Bad e) = Err (ArithmeticOverflow e).
Proof. done. Qed.

Lemma sn_add a b : u64_ok (a + b) → Val a +! Val b = Val (a + b).
Proof. intros. unfold add. cbn [arith_op]. unfold checked_add. by rewrite checked_Some. Qed.
Lemma sn_sub a b : u64_ok (a - b) → Val a -! Val b = Val (a - b).
Proof. intros. unfold sub. cbn [arith_op]. unfold checked_sub. by rewrite checked_Some. Qed.
Lemma sn_mul a b : u64_ok (a * b) → Val a *! Val b = Val (a * b).
Proof. intros. unfold mul. cbn [arith_op]. unfold checked_mul. by rewrite checked_Some. Qed.
Lemma sn_div a b : b ≠ 0 → Val a /! Val b = Val (a / b).
Proof.
  intros. unfold div. cbn [arith_op]. unfold checked_div.
  by rewrite (proj2 (Z.eqb_neq b 0)).
Qed.
Lemma sn_rem a b : b ≠ 0 → Val a %! Val b = Val (a mod b).
Proof.
  intros. unfold rem. cbn [arith_op]. unfold checked_rem.
  by rewrite (proj2 (Z.eqb_neq b 0)).
Qed.
Lemma sn_add_over a b :
  ¬ u64_ok (a + b) → Val a +! Val b = Bad (mkSafeError here).
Proof. intros. unfold add. cbn [arith_op]. unfold checked_add. by rewrite checked_None. Qed.
Lemma sn_sub_over a b :
  ¬ u64_ok (a - b) → Val a -! Val b = Bad (mkSafeError here).
Proof. intros. unfold sub. cbn [arith_op]. unfold checked_sub. by rewrite checked_None. Qed.
Lemma sn_bad_l_add e b : Bad e +! b = Bad e.
Proof. done. Qed.

Lemma try_int_ok w z : 0 ≤ z < 2 ^ w → try_int w z = Ok z.
Proof. intros. unfold try_int. by rewrite checked_Some. Qed.
