(* ===== verification/Text.v ===== *)
(** * Characters: UTF-8 and UTF-16 as the Rust standard library handles them

    A [char] is its code point. [decode_utf8] models [core::str::from_utf8]:
    it accepts exactly the well-formed sequences (no overlong form, no
    surrogate, no truncated character). [decode_utf16] models
    [char::decode_utf16]. *)

From S2P Require Import Prelude.

(** A Unicode scalar value. *)
Definition is_char (c : Z) : bool :=
  (0 <=? c) && (c <? 0xD800) || (0xE000 <=? c) && (c <=? 0x10FFFF).
Definition chars_ok (l : list Z) : Prop := Forall (λ c, is_char c = true) l.

Definition REPLACEMENT_CHARACTER : Z := 0xFFFD.

(** [char::len_utf8]. *)
Definition len_utf8 (c : Z) : Z :=
  if c <? 0x80 then 1 else if c <? 0x800 then 2 else if c <? 0x10000 then 3 else 4.

(** [char::encode_utf8]. *)
Definition encode_utf8 (c : Z) : bytes :=
  if c <? 0x80 then [c]
  else if c <? 0x800 then [0xC0 + c / 64; 0x80 + c mod 64]
  else if c <? 0x10000 then
    [0xE0 + c / 4096; 0x80 + (c / 64) mod 64; 0x80 + c mod 64]
  else
    [0xF0 + c / 262144; 0x80 + (c / 4096) mod 64; 0x80 + (c / 64) mod 64; 0x80 + c mod 64].
(** The bytes of a string of characters ([str::as_bytes]). *)
Definition utf8_bytes (s : list Z) : bytes := mjoin (encode_utf8 <$> s).

Definition is_cont (b : Z) : bool := (0x80 <=? b) && (b <? 0xC0).

(** [core::str::from_utf8]: the characters, or [None] for [Utf8Error]. *)
Fixpoint decode_utf8 (l : bytes) : option (list Z) :=
  match l with
  | [] => Some []
  | b0 :: l1 =>
      if b0 <? 0x80 then cons b0 <$> decode_utf8 l1
      else match l1 with
      | [] => None
      | b1 :: l2 =>
          if (0xC0 <=? b0) && (b0 <? 0xE0) then
            let c := (b0 - 0xC0) * 64 + (b1 - 0x80) in
            if is_cont b1 && (0x80 <=? c) then cons c <$> decode_utf8 l2 else None
          else match l2 with
          | [] => None
          | b2 :: l3 =>
              if (0xE0 <=? b0) && (b0 <? 0xF0) then
                let c := (b0 - 0xE0) * 4096 + (b1 - 0x80) * 64 + (b2 - 0x80) in
                if is_cont b1 && is_cont b2 && (0x800 <=? c) && is_char c
                then cons c <$> decode_utf8 l3 else None
              else match l3 with
              | [] => None
              | b3 :: l4 =>
                  let c := (b0 - 0xF0) * 262144 + (b1 - 0x80) * 4096
                           + (b2 - 0x80) * 64 + (b3 - 0x80) in
                  if (0xF0 <=? b0) && is_cont b1 && is_cont b2 && is_cont b3
                     && (0x10000 <=? c) && is_char c
                  then cons c <$> decode_utf8 l4 else None
              end
          end
      end
  end.

(** [char::decode_utf16]: a unit that is not part of a well-formed pair gives
    an error ([None]); the unit after an unpaired high surrogate is decoded
    again. *)
Fixpoint decode_utf16 (l : list Z) : list (option Z) :=
  match l with
  | [] => []
  | u :: l1 =>
      if negb ((0xD800 <=? u) && (u <? 0xE000)) then Some u :: decode_utf16 l1
      else if 0xDC00 <=? u then None :: decode_utf16 l1
      else match l1 with
      | [] => [None]
      | u2 :: l2 =>
          if (u2 <? 0xDC00) || (0xDFFF <? u2) then None :: decode_utf16 l1
          else Some ((u - 0xD800) * 1024 + (u2 - 0xDC00) + 0x10000) :: decode_utf16 l2
      end
  end.

(** [char::encode_utf16]. *)
Definition encode_utf16_char (c : Z) : list Z :=
  if c <? 0x10000 then [c]
  else [0xD800 + (c - 0x10000) / 1024; 0xDC00 + (c - 0x10000) mod 1024].
(** [str::encode_utf16]. *)
Definition encode_utf16 (s : list Z) : list Z := mjoin (encode_utf16_char <$> s).

(** [char::is_whitespace] (the Unicode property White_Space). *)
Definition is_whitespace (c : Z) : bool :=
  (0x9 <=? c) && (c <=? 0xD) || (c =? 0x20) || (c =? 0x85) || (c =? 0xA0)
  || (c =? 0x1680) || (0x2000 <=? c) && (c <=? 0x200A) || (c =? 0x2028)
  || (c =? 0x2029) || (c =? 0x202F) || (c =? 0x205F) || (c =? 0x3000).

(** ** Lemmas *)

Ltac char_cases :=
  repeat match goal with
  | |- context [if ?b then _ else _] => let E := fresh "E" in destruct b eqn:E
  end.
Ltac divmod := Z.div_mod_to_equations; lia.

Lemma is_char_spec c :
  is_char c = true ↔ (0 ≤ c < 0xD800 ∨ 0xE000 ≤ c ≤ 0x10FFFF).
Proof.
  unfold is_char. rewrite orb_true_iff, !andb_true_iff, !Z.leb_le, !Z.ltb_lt. lia.
Qed.

Lemma zlen_encode_utf8 c : zlen (encode_utf8 c) = len_utf8 c.
Proof. unfold encode_utf8, len_utf8. by char_cases. Qed.

Lemma len_utf8_bounds c : 1 ≤ len_utf8 c ≤ 4.
Proof. unfold len_utf8. char_cases; lia. Qed.

Lemma encode_utf8_ok c : is_char c = true → bytes_ok (encode_utf8 c).
Proof.
  intros H%is_char_spec. unfold encode_utf8, bytes_ok.
  char_cases; bools; repeat constructor; unfold u8_ok; try lia; divmod.
Qed.

Lemma utf8_bytes_cons c s : utf8_bytes (c :: s) = encode_utf8 c ++ utf8_bytes s.
Proof. done. Qed.

Lemma utf8_bytes_app s t : utf8_bytes (s ++ t) = utf8_bytes s ++ utf8_bytes t.
Proof. unfold utf8_bytes. by rewrite fmap_app, join_app. Qed.

Lemma utf8_bytes_ok s : chars_ok s → bytes_ok (utf8_bytes s).
Proof.
  induction 1; [constructor|]. rewrite utf8_bytes_cons.
  apply bytes_ok_app. split; auto using encode_utf8_ok.
Qed.

Lemma decode_encode_char c l :
  is_char c = true → decode_utf8 (encode_utf8 c ++ l) = cons c <$> decode_utf8 l.
Proof.
  intros Hc. pose proof Hc as Hr. apply is_char_spec in Hr.
  unfold encode_utf8, is_cont.
  destruct (c <? 0x80) eqn:E1; [cbn; by rewrite E1|].
  destruct (c <? 0x800) eqn:E2; [|destruct (c <? 0x10000) eqn:E3]; bools;
    cbn [app decode_utf8].
  - replace ((0xC0 + c / 64 - 0xC0) * 64 + (0x80 + c mod 64 - 0x80)) with c by divmod.
    destruct (_ <? 0x80) eqn:F1 at 1; bools; [divmod|].
    destruct (_ && _) eqn:F2 at 1; [|bools; divmod].
    destruct (_ && _) eqn:F3 at 1; [done|unfold is_cont in F3; bools; divmod].
  - replace ((0xE0 + c / 4096 - 0xE0) * 4096 + (0x80 + (c / 64) mod 64 - 0x80) * 64
      + (0x80 + c mod 64 - 0x80)) with c by divmod.
    destruct (_ <? 0x80) eqn:F1 at 1; bools; [divmod|].
    destruct (_ && _) eqn:F2 at 1; [bools; divmod|].
    destruct (_ && _) eqn:F3 at 1; [|bools; divmod].
    rewrite Hc, andb_true_r.
    destruct (_ && _) eqn:F4 at 1; [done|unfold is_cont in F4; bools; divmod].
  - replace ((0xF0 + c / 262144 - 0xF0) * 262144 + (0x80 + (c / 4096) mod 64 - 0x80) * 4096
      + (0x80 + (c / 64) mod 64 - 0x80) * 64 + (0x80 + c mod 64 - 0x80)) with c by divmod.
    destruct (_ <? 0x80) eqn:F1 at 1; bools; [divmod|].
    destruct (_ && _) eqn:F2 at 1; [bools; divmod|].
    destruct (_ && _) eqn:F3 at 1; [bools; divmod|].
    rewrite Hc, andb_true_r.
    destruct (_ && _) eqn:F4 at 1; [done|unfold is_cont in F4; bools; divmod].
Qed.

Lemma decode_utf8_bytes s : chars_ok s → decode_utf8 (utf8_bytes s) = Some s.
Proof.
  induction 1 as [|c s Hc _ IH]; [done|].
  rewrite utf8_bytes_cons, decode_encode_char, IH by done. done.
Qed.

(** * Text: strings, formatting and number parsing of the Rust standard library

    A [&str] is the list of its UTF-8 bytes, because the code indexes strings by
    byte offsets and mixes them with byte buffers. Splitting and stripping at an
    ASCII pattern work on bytes; a slice of a string panics unless it starts and
    ends at a character boundary. The formatters are those of [{}], [{:x}],
    [{:#x}] and [{:08x}]; the parser is [u64::from_str_radix]. *)

(** ** Splitting *)

(** [str::split] at an ASCII character (also [slice::split]): never empty. *)
Fixpoint split_on (c : Z) (l : bytes) : list bytes :=
  match l with
  | [] => [[]]
  | b :: l =>
      if b =? c then [] :: split_on c l
      else match split_on c l with
           | [] => [[b]]
           | p :: ps => (b :: p) :: ps
           end
  end.

(** [slice::split_inclusive]: the separator ends its piece; no empty piece at
    the end. *)
Fixpoint split_inclusive (c : Z) (l : bytes) : list bytes :=
  match l with
  | [] => []
  | b :: l =>
      if b =? c then [b] :: split_inclusive c l
      else match split_inclusive c l with
           | [] => [[b]]
           | p :: ps => (b :: p) :: ps
           end
  end.

(** [str::strip_prefix] and [str::starts_with]. *)
Definition strip_prefix (p s : bytes) : option bytes :=
  if bool_decide (take (length p) s = p) then Some (drop (length p) s) else None.
Definition starts_with (p s : bytes) : bool := bool_decide (take (length p) s = p).

(** The pieces joined by a separator. *)
Fixpoint join (sep : bytes) (l : list bytes) : bytes :=
  match l with
  | [] => []
  | [p] => p
  | p :: l => p ++ sep ++ join sep l
  end.

(** [slice.iter().position(|v| *v == c)]. *)
Fixpoint position (c : Z) (l : bytes) : option Z :=
  match l with
  | [] => None
  | b :: l => if b =? c then Some 0 else Z.succ <$> position c l
  end.

(** [CStr::from_bytes_until_nul]: the bytes before the first nul. *)
Definition cstr_until_nul (l : bytes) : option bytes :=
  n ← position 0 l; Some (slice l 0 n).

(** ** Slices of a string *)

(** [str::is_char_boundary]. *)
Definition is_char_boundary (s : bytes) (n : Z) : bool :=
  (n =? 0) || (n =? zlen s) ||
  match s !! Z.to_nat n with
  | Some b => (0 <? n) && (n <? zlen s) && negb (is_cont b)
  | None => false
  end.
(** [&s[..n]] and [&s[n..]]. *)
Definition str_to {E} (s : bytes) (n : Z) : outcome E bytes :=
  if is_char_boundary s n then index_range s 0 n else Panic.
Definition str_from {E} (s : bytes) (n : Z) : outcome E bytes :=
  if is_char_boundary s n then index_range s n (zlen s) else Panic.

(** [core::str::from_utf8(l).is_ok()]. *)
Definition is_utf8 (l : bytes) : bool :=
  match decode_utf8 l with Some _ => true | None => false end.

(** ** Formatting *)

(** The digits of [z], most significant first; [fuel] bounds their number. *)
Fixpoint digits (fuel : nat) (base z : Z) : list Z :=
  match fuel with
  | O => []
  | S fuel => if z <? base then [z] else digits fuel base (z / base) ++ [z mod base]
  end.
Definition digit_char (d : Z) : Z := if d <? 10 then 48 + d else 87 + d.
(** [{}] and [{:x}] of an unsigned integer; 64 digits are enough for every
    integer type. *)
Definition fmt_dec (z : Z) : bytes := digit_char <$> digits 64 10 z.
Definition fmt_hex (z : Z) : bytes := digit_char <$> digits 64 16 z.
(** [{:#x}]. *)
Definition fmt_hex0x (z : Z) : bytes := str "0x" ++ fmt_hex z.
(** [{:08x}]. *)
Definition fmt_hex08 (z : Z) : bytes :=
  replicate (8 - length (fmt_hex z)) 48 ++ fmt_hex z.

(** ** Number parsing *)

(** [core::num::IntErrorKind], as far as unsigned parsing returns it. *)
Inductive IntError := IntEmpty | InvalidDigit | PosOverflow.
#[global] Instance IntError_eq_dec : EqDecision IntError.
Proof. solve_decision. Defined.

(** [Display] of [ParseIntError]. *)
Definition show_int_error (e : IntError) : bytes :=
  match e with
  | IntEmpty => str "cannot parse integer from empty string"
  | InvalidDigit => str "invalid digit found in string"
  | PosOverflow => str "number too large to fit in target type"
  end.

(** [char::to_digit]. *)
Definition to_digit (radix c : Z) : option Z :=
  let d := if (48 <=? c) && (c <=? 57) then c - 48
           else if (97 <=? c) && (c <=? 122) then c - 87
           else if (65 <=? c) && (c <=? 90) then c - 55
           else radix in
  if d <? radix then Some d else None.

Fixpoint radix_loop (w radix acc : Z) (s : bytes) : outcome IntError Z :=
  match s with
  | [] => Ok acc
  | c :: s =>
      match to_digit radix c with
      | None => Err InvalidDigit
      | Some x =>
          acc ← ok_or (checked w (acc * radix)) PosOverflow;
          acc ← ok_or (checked w (acc + x)) PosOverflow;
          radix_loop w radix acc s
      end
  end.

(** [from_str_radix] of a [w]-bit unsigned integer: one leading [+] is skipped,
    a lone sign is an invalid digit. *)
Definition from_str_radix (w radix : Z) (s : bytes) : outcome IntError Z :=
  match s with
  | [] => Err IntEmpty
  | [c] => if (c =? 43) || (c =? 45) then Err InvalidDigit else radix_loop w radix 0 s
  | c :: s' => if c =? 43 then radix_loop w radix 0 s' else radix_loop w radix 0 s
  end.

(** ** Errors of [from_utf8] *)

(** [Utf8Error]: [valid_up_to] and [error_len]; [None] when the string is
    well formed. *)
Fixpoint utf8_error (pos : Z) (l : bytes) : option (Z * option Z) :=
  match l with
  | [] => None
  | b0 :: l1 =>
      if b0 <? 0x80 then utf8_error (pos + 1) l1
      else if (0xC2 <=? b0) && (b0 <=? 0xDF) then
        match l1 with
        | [] => Some (pos, None)
        | b1 :: l2 => if is_cont b1 then utf8_error (pos + 2) l2 else Some (pos, Some 1)
        end
      else if (0xE0 <=? b0) && (b0 <=? 0xEF) then
        match l1 with
        | [] => Some (pos, None)
        | b1 :: l2 =>
            if negb (is_cont b1) || (b0 =? 0xE0) && (b1 <? 0xA0) || (b0 =? 0xED) && (0xA0 <=? b1)
            then Some (pos, Some 1)
            else match l2 with
            | [] => Some (pos, None)
            | b2 :: l3 => if is_cont b2 then utf8_error (pos + 3) l3 else Some (pos, Some 2)
            end
        end
      else if (0xF0 <=? b0) && (b0 <=? 0xF4) then
        match l1 with
        | [] => Some (pos, None)
        | b1 :: l2 =>
            if negb (is_cont b1) || (b0 =? 0xF0) && (b1 <? 0x90) || (b0 =? 0xF4) && (0x90 <=? b1)
            then Some (pos, Some 1)
            else match l2 with
            | [] => Some (pos, None)
            | b2 :: l3 =>
                if negb (is_cont b2) then Some (pos, Some 2)
                else match l3 with
                | [] => Some (pos, None)
                | b3 :: l4 => if is_cont b3 then utf8_error (pos + 4) l4 else Some (pos, Some 3)
                end
            end
        end
      else Some (pos, Some 1)
  end.

(** [Display] of the error of [from_utf8(l)]. *)
Definition show_utf8_error (l : bytes) : bytes :=
  match utf8_error 0 l with
  | None => []
  | Some (up_to, Some n) =>
      str "invalid utf-8 sequence of " ++ fmt_dec n ++ str " bytes from index " ++ fmt_dec up_to
  | Some (up_to, None) => str "incomplete utf-8 byte sequence from index " ++ fmt_dec up_to
  end.

(** ** Lemmas *)

Lemma split_on_nonnil c l : split_on c l ≠ [].
Proof. destruct l as [|b l]; simpl; [done|]. case_match; [done|]. by case_match. Qed.

Lemma split_on_no_sep c p : c ∉ p → split_on c p = [p].
Proof.
  induction p as [|b p IH]; intros H; [done|].
  rewrite not_elem_of_cons in H. destruct H as [H1 H2]. simpl.
  rewrite (proj2 (Z.eqb_neq b c)) by done. by rewrite IH.
Qed.

Lemma split_on_app c p l : c ∉ p → split_on c (p ++ c :: l) = p :: split_on c l.
Proof.
  induction p as [|b p IH]; intros H; simpl.
  - by rewrite Z.eqb_refl.
  - rewrite not_elem_of_cons in H. destruct H as [H1 H2].
    rewrite (proj2 (Z.eqb_neq b c)) by done. by rewrite IH.
Qed.

(** A string ends in its last piece, whatever stands in front of it. *)
Lemma split_on_snoc c l p : c ∉ p → split_on c (l ++ c :: p) = split_on c l ++ [p].
Proof.
  intros Hp. induction l as [|b l IH]; simpl.
  - rewrite Z.eqb_refl. by rewrite split_on_no_sep.
  - rewrite IH. destruct (b =? c); [done|].
    destruct (split_on c l) eqn:E; [by destruct (split_on_nonnil c l)|done].
Qed.

Lemma join_split c l : join [c] (split_on c l) = l.
Proof.
  induction l as [|b l IH]; [done|]. simpl.
  destruct (split_on c l) as [|p ps] eqn:E; [by destruct (split_on_nonnil c l)|].
  destruct (b =? c) eqn:Eb; bools.
  - subst b. change (c :: join [c] (p :: ps) = c :: l). by rewrite IH.
  - cbn [join] in *. destruct ps; simpl in *; by rewrite IH.
Qed.

Lemma split_on_pieces c l p : p ∈ split_on c l → c ∉ p.
Proof.
  revert p. induction l as [|b l IH]; simpl; intros p.
  - rewrite list_elem_of_singleton. intros ->. apply not_elem_of_nil.
  - destruct (split_on c l) as [|q qs] eqn:E; [by destruct (split_on_nonnil c l)|].
    destruct (b =? c) eqn:Eb; bools; rewrite elem_of_cons.
    + intros [->|H]; [apply not_elem_of_nil|auto].
    + intros [->|H]; [|apply IH; by right].
      rewrite not_elem_of_cons. split; [done|]. apply IH. left.
Qed.

(** The first piece, and the string after it. *)
Lemma split_on_head c l p ps :
  split_on c l = p :: ps → (ps = [] ∧ l = p) ∨ ∃ rest, l = p ++ c :: rest ∧ ps = split_on c rest.
Proof.
  revert p ps. induction l as [|b l IH]; intros p ps; simpl; [intros [= <- <-]; by left|].
  destruct (b =? c) eqn:E; bools.
  - intros [= <- <-]. right. exists l. by subst.
  - destruct (split_on c l) as [|q qs] eqn:Es; [by destruct (split_on_nonnil c l)|].
    intros [= <- <-]. destruct (IH q qs eq_refl) as [[-> ->]|(rest & -> & ->)]; [by left|right].
    by exists rest.
Qed.

Lemma join_snoc sep ps x : ps ≠ [] → join sep (ps ++ [x]) = join sep ps ++ sep ++ x.
Proof.
  induction ps as [|p ps IH]; intros Hn; [done|]. destruct ps as [|q ps]; [done|].
  change (join sep ((p :: q :: ps) ++ [x])) with (p ++ sep ++ join sep ((q :: ps) ++ [x])).
  rewrite IH by done. change (join sep (p :: q :: ps)) with (p ++ sep ++ join sep (q :: ps)).
  by rewrite <- !app_assoc.
Qed.

(** Every piece of a string that ends in the separator does. *)
Lemma split_inclusive_nul c l : Forall (λ p, c ∈ p) (split_inclusive c (l ++ [c])).
Proof.
  induction l as [|b l IH]; simpl.
  - rewrite Z.eqb_refl. repeat constructor.
  - destruct (b =? c) eqn:E; bools.
    + subst. constructor; [left|done].
    + destruct (split_inclusive c (l ++ [c])) as [|p ps] eqn:Es.
      { destruct l; simpl in Es; repeat case_match; done. }
      inversion_clear IH. constructor; [by right|done].
Qed.

Lemma position_Some c l : c ∈ l → ∃ n, position c l = Some n ∧ 0 ≤ n < zlen l ∧ l !! Z.to_nat n = Some c.
Proof.
  induction l as [|b l IH]; intros H; [by apply not_elem_of_nil in H|]. simpl.
  destruct (b =? c) eqn:E; bools.
  - exists 0. subst. split_and!; try done; lia.
  - apply elem_of_cons in H as [->|H]; [done|]. destruct (IH H) as (n & -> & Hn & Hl).
    exists (Z.succ n). simpl. split_and!; [done|lia|lia|].
    by rewrite Z2Nat.inj_succ by lia.
Qed.

Lemma cstr_pieces ps : Forall (λ p, 0 ∈ p) ps → ∃ args, mapM cstr_until_nul ps = Some args.
Proof.
  intros H. apply mapM_is_Some. eapply Forall_impl; [exact H|]. intros p Hp.
  destruct (position_Some 0 p Hp) as (n & E & _). exists (slice p 0 n).
  unfold cstr_until_nul. by rewrite E.
Qed.

Lemma strip_prefix_app p s : strip_prefix p (p ++ s) = Some s.
Proof.
  unfold strip_prefix. rewrite take_app_length, drop_app_length.
  by rewrite bool_decide_true.
Qed.

Lemma strip_prefix_Some p s t : strip_prefix p s = Some t → s = p ++ t.
Proof.
  unfold strip_prefix. case_bool_decide as H; [|done]. intros [= <-].
  rewrite <- H at 1. by rewrite take_drop.
Qed.

(** *** UTF-8 *)

(** A well-formed string is the encoding of its characters. *)
Lemma decode_utf8_inv l s : decode_utf8 l = Some s → utf8_bytes s = l.
Proof.
  revert s. induction (Nat.lt_wf_0_projected (@length Z) l) as [l _ IH]. intros s.
  destruct l as [|b0 l1]; cbn [decode_utf8]; [by intros [= <-]|].
  assert (Hk : ∀ k c t, (length k < length (b0 :: l1))%nat →
    cons c <$> decode_utf8 k = Some t → ∃ t', t = c :: t' ∧ utf8_bytes t' = k).
  { intros k c t Hlt Ht. apply fmap_Some in Ht as (t' & Ht' & ->). eauto. }
  simpl in Hk. unfold is_cont.
  destruct (b0 <? 0x80) eqn:E0.
  { intros (t & -> & Ht)%Hk; [|lia]. rewrite utf8_bytes_cons, Ht. unfold encode_utf8.
    by rewrite E0. }
  repeat (match goal with |- context [match ?x with _ => _ end] => destruct x eqn:? end; try done);
    intros (t & -> & Ht)%Hk; try (simpl; lia);
    rewrite utf8_bytes_cons, Ht; bools;
    repeat match goal with H : is_char _ = true |- _ => apply is_char_spec in H end;
    unfold encode_utf8; lia_bools; cbn [app]; repeat (f_equal; try divmod).
Qed.

Lemma is_utf8_spec l : is_utf8 l = true ↔ ∃ s, decode_utf8 l = Some s.
Proof. unfold is_utf8. destruct (decode_utf8 l); naive_solver. Qed.

(** What follows an ASCII character starts at a character boundary. *)
Lemma is_utf8_cons b l : b < 0x80 → is_utf8 (b :: l) = is_utf8 l.
Proof.
  intros Hb. unfold is_utf8. cbn [decode_utf8]. lia_bools. by destruct (decode_utf8 l).
Qed.
Lemma is_utf8_not_cont b l : is_utf8 (b :: l) = true → is_cont b = false.
Proof.
  unfold is_utf8, is_cont. cbn [decode_utf8]. intros H. apply not_true_is_false. intros Hb. bools.
  revert H. lia_bools. cbn [andb]. by repeat case_match.
Qed.

Lemma decode_ascii l : Forall (λ b, b < 0x80) l → decode_utf8 l = Some l.
Proof. induction 1 as [|b l Hb _ IH]; [done|]. cbn [decode_utf8]. lia_bools. by rewrite IH. Qed.

Lemma str_from_app {E} p l :
  is_utf8 l = true → str_from (E:=E) (p ++ l) (zlen p) = Ok l.
Proof.
  intros Hl. unfold str_from. replace (is_char_boundary _ _) with true.
  - rewrite index_range_ok by lens. f_equal. list_ext.
  - symmetry. unfold is_char_boundary. destruct l as [|b l].
    + rewrite app_nil_r, Z.eqb_refl. by rewrite orb_true_r.
    + rewrite Nat2Z.id, list_lookup_middle by done.
      rewrite (is_utf8_not_cont _ _ Hl). destruct p; [done|]. simpl length. rewrite length_app.
      simpl length. lia_bools. done.
Qed.

Lemma str_to_app {E} p c l :
  0 ≤ c < 0x80 → str_to (E:=E) (p ++ c :: l) (zlen p) = Ok p.
Proof.
  intros Hc. unfold str_to. replace (is_char_boundary _ _) with true.
  - rewrite index_range_ok by lens. f_equal. list_ext.
  - symmetry. unfold is_char_boundary.
    rewrite Nat2Z.id, list_lookup_middle by done.
    destruct p as [|a p]; [done|]. simpl length. rewrite length_app. simpl length. unfold is_cont.
    lia_bools. done.
Qed.

Lemma from_str_radix_no_panic w radix s : from_str_radix w radix s ≠ Panic.
Proof.
  assert (Hl : ∀ s acc, radix_loop w radix acc s ≠ Panic).
  { clear s. induction s as [|c s IH]; intros acc; [done|]. cbn [radix_loop].
    destruct (to_digit radix c); [|done].
    destruct (checked w (acc * radix)); [|done]. cbn.
    destruct (checked w _); [|done]. cbn. apply IH. }
  unfold from_str_radix. repeat case_match; try done; apply Hl.
Qed.

(** *** Digits *)

Definition digits_val (base : Z) (l : list Z) : Z := foldl (λ a d, a * base + d) 0 l.

Lemma digits_val_snoc base l d : digits_val base (l ++ [d]) = digits_val base l * base + d.
Proof. unfold digits_val. by rewrite foldl_app. Qed.

Lemma digits_val_digits fuel base z :
  2 ≤ base → 0 ≤ z < base ^ Z.of_nat fuel → digits_val base (digits fuel base z) = z.
Proof.
  intros Hb. revert z. induction fuel as [|fuel IH]; intros z Hz.
  - simpl in *. unfold digits_val. simpl. lia.
  - cbn [digits]. destruct (z <? base) eqn:E; bools; [unfold digits_val; simpl; lia|].
    rewrite digits_val_snoc, IH.
    + pose proof (Z.div_mod z base). lia.
    + replace (Z.of_nat (S fuel)) with (Z.of_nat fuel + 1) in Hz by lia.
      rewrite Z.pow_add_r, Z.pow_1_r in Hz by lia.
      split; [apply Z.div_pos; lia|apply Z.div_lt_upper_bound; lia].
Qed.

Lemma digits_bound fuel base z : 2 ≤ base → 0 ≤ z → Forall (λ d, 0 ≤ d < base) (digits fuel base z).
Proof.
  intros Hb. revert z. induction fuel as [|fuel IH]; intros z Hz; [constructor|].
  cbn [digits]. destruct (z <? base) eqn:E; bools; [repeat constructor; lia|].
  apply Forall_app. split; [apply IH, Z.div_pos; lia|].
  repeat constructor; apply Z.mod_pos_bound; lia.
Qed.

Lemma digits_nonnil fuel base z : fuel ≠ O → digits fuel base z ≠ [].
Proof.
  destruct fuel; [done|]. intros _. cbn [digits]. case_match; [done|].
  by destruct (digits _ _ _).
Qed.

Lemma to_digit_char radix d : radix ≤ 36 → 0 ≤ d < radix → to_digit radix (digit_char d) = Some d.
Proof.
  intros Hr Hd. unfold digit_char, to_digit.
  destruct (d <? 10) eqn:E; bools; lia_bools; simpl; lia_bools; f_equal; lia.
Qed.

Lemma radix_loop_digits w radix acc ds :
  radix ≤ 36 → 0 < radix → 0 ≤ acc → Forall (λ d, 0 ≤ d < radix) ds →
  foldl (λ a d, a * radix + d) acc ds < 2 ^ w →
  radix_loop w radix acc (digit_char <$> ds) = Ok (foldl (λ a d, a * radix + d) acc ds).
Proof.
  intros Hr Hr0. revert acc. induction ds as [|d ds IH]; intros acc Ha Hds Hv; [done|].
  inversion_clear Hds as [|? ? Hd Hds']. cbn [fmap list_fmap radix_loop foldl] in *.
  rewrite to_digit_char by lia.
  assert (Hm : ∀ (l : list Z) a, 0 ≤ a → Forall (λ d, 0 ≤ d < radix) l →
    a ≤ foldl (λ a d, a * radix + d) a l).
  { induction l as [|x l IHl]; intros a Ha' Hl; simpl; [lia|].
    inversion_clear Hl. etrans; [|apply IHl; [nia|done]]. nia. }
  pose proof (Hm ds (acc * radix + d) ltac:(nia) Hds').
  rewrite checked_Some by nia. cbn. rewrite checked_Some by nia. cbn.
  apply IH; [nia|done|done].
Qed.

Lemma digit_char_range d : 0 ≤ d < 16 → 48 ≤ digit_char d ≤ 57 ∨ 97 ≤ digit_char d ≤ 102.
Proof. intros. unfold digit_char. destruct (d <? 10) eqn:E; bools; lia. Qed.

(** [u64::from_str_radix(_, 16)] reads back what [{:x}] prints. *)
Lemma from_str_radix_hex z : u64_ok z → from_str_radix 64 16 (fmt_hex z) = Ok z.
Proof.
  intros Hz. unfold u64_ok in Hz. unfold fmt_hex.
  pose proof (digits_bound 64 16 z ltac:(lia) ltac:(lia)) as Hb.
  assert (Hv : digits_val 16 (digits 64 16 z) = z).
  { apply digits_val_digits; [lia|]. split; [lia|].
    etrans; [apply Hz|]. by vm_compute. }
  assert (Hl : radix_loop 64 16 0 (digit_char <$> digits 64 16 z) = Ok z).
  { rewrite radix_loop_digits; try lia; try done; unfold digits_val in Hv; rewrite Hv; [done|lia]. }
  pose proof (digits_nonnil 64 16 z ltac:(done)).
  destruct (digits 64 16 z) as [|d ds]; [done|].
  inversion_clear Hb as [|? ? Hd _]. apply digit_char_range in Hd.
  cbn [fmap list_fmap] in *. unfold from_str_radix.
  destruct ds; simpl fmap in *; lia_bools; done.
Qed.

Lemma fmt_hex_chars z b : 0 ≤ z → b ∈ fmt_hex z → 48 ≤ b ≤ 57 ∨ 97 ≤ b ≤ 102.
Proof.
  intros Hz Hb. unfold fmt_hex in Hb. apply list_elem_of_fmap in Hb as (d & -> & Hd).
  apply digit_char_range. revert d Hd. apply Forall_forall, digits_bound; lia.
Qed.

Lemma fmt_hex0x_ascii z : 0 ≤ z → Forall (λ b, b < 0x80) (fmt_hex0x z).
Proof.
  intros Hz. unfold fmt_hex0x. apply Forall_app. split; [by_compute|].
  apply Forall_forall. intros b Hb. apply fmt_hex_chars in Hb; lia.
Qed.
