(* ===== verification/Utils.v ===== *)
(** * libutils: alignment helpers and the bounded formatter

    Models src/gbl/libutils/src/lib.rs. A byte slice is its address and its
    contents; a subslice is given by its offset in the slice it borrows. *)

From S2P Require Import Prelude SafeMath LibError Text.
Import SafeNum.

(** gbl/libutils/src/lib.rs:50-65, [aligned_offset]. *)
Definition aligned_offset (addr : Z) (alignment : SafeNum) : result Z :=
  let addr := from_int here TUsize addr in
  into_u64 (round_up here addr alignment -! addr).

(** gbl/libutils/src/lib.rs:23-48, [aligned_subslice]: the offset of the
    aligned subslice and its contents. *)
Definition aligned_subslice (addr : Z) (b : bytes) (alignment : SafeNum) : result (Z * bytes) :=
  aligned_offset ← into_u64 (round_up here (from_int here TUsize addr) alignment
                             -! from_int here TUsize addr);
  s ← ok_or (get_range b aligned_offset (zlen b)) (BufferTooSmall (Some aligned_offset));
  Ok (aligned_offset, s).

Module FormattedBytes.

(** gbl/libutils/src/lib.rs:67-69, [FormattedBytes]: the buffer and the size of
    its contents. *)
Record FormattedBytes := mk { buf : bytes; size : Z }.

(** gbl/libutils/src/lib.rs:72-75, [FormattedBytes::new]. *)
Definition new (b : bytes) : FormattedBytes := mk b 0.

(** gbl/libutils/src/lib.rs:82-95, [FormattedBytes::append]. *)
Definition append (f : FormattedBytes) (b : bytes) : outcome Error FormattedBytes :=
  tail ← index_from (buf f) (size f);
  let to_write := Z.min (zlen tail) (zlen b) in
  Ok (mk (splice (buf f) (size f) (slice b 0 to_write)) (size f + to_write)).

(** The contents written so far, as [append] returns them. *)
Definition contents (f : FormattedBytes) : bytes := slice (buf f) 0 (size f).

(** gbl/libutils/src/lib.rs:97-100, [FormattedBytes::to_str]: the empty string
    when the contents are not UTF-8. *)
Definition to_str (f : FormattedBytes) : list Z :=
  default [] (decode_utf8 (contents f)).

(** gbl/libutils/src/lib.rs:104-107, [Write::write_str]. *)
Definition write_str (f : FormattedBytes) (s : bytes) : outcome Error FormattedBytes :=
  append f s.

(** A sequence of [write!] calls. *)
Fixpoint write_all (f : FormattedBytes) (l : list bytes) : outcome Error FormattedBytes :=
  match l with
  | [] => Ok f
  | s :: l => f ← write_str f s; write_all f l
  end.

(** gbl/libutils/src/lib.rs:110-123, [snprintf!]: writes the pieces into [arr]
    and returns the contents as a string, panicking if they are not UTF-8. *)
Definition snprintf (arr : bytes) (pieces : list bytes) : outcome Error (bytes * list Z) :=
  f ← write_all (new arr) pieces;
  s ← unwrap (decode_utf8 (contents f));
  Ok (buf f, s).

Definition wf (f : FormattedBytes) : Prop := 0 ≤ size f ≤ zlen (buf f).

(** ** Lemmas *)

Lemma new_wf b : wf (new b).
Proof. unfold wf. simpl. lia. Qed.

Lemma append_spec f b :
  wf f → ∃ f', append f b = Ok f' ∧ wf f' ∧ length (buf f') = length (buf f) ∧
    contents f' = take (length (buf f)) (contents f ++ b).
Proof.
  intros [H1 H2]. unfold append, index_from.
  rewrite index_range_ok by lia. simpl.
  set (n := Z.min _ _).
  assert (Hn : n = Z.min (zlen (buf f) - size f) (zlen b)) by (unfold n; f_equal; lens).
  assert (Hs : zlen (slice b 0 n) = n) by lens.
  eexists. split; [done|]. unfold wf, contents. simpl.
  rewrite length_splice by lia. split_and!; try lia.
  list_ext.
Qed.

Lemma write_all_spec l f :
  wf f → ∃ f', write_all f l = Ok f' ∧ wf f' ∧ length (buf f') = length (buf f) ∧
    contents f' = take (length (buf f)) (contents f ++ mjoin l).
Proof.
  revert f. induction l as [|s l IH]; intros f Hf; cbn [write_all mjoin list_join].
  - exists f. split_and!; try done. rewrite app_nil_r. symmetry. apply take_ge.
    unfold contents, wf in *. lens.
  - destruct (append_spec f s Hf) as (f1 & E & W & L & C).
    unfold write_str. rewrite E. cbn.
    destruct (IH f1 W) as (f2 & E2 & W2 & L2 & C2).
    exists f2. split_and!; try done; [lia|].
    rewrite C2, C, L. apply list_eq. intros i.
    rewrite !lookup_take_decide, !lookup_app_decide, !lookup_take_decide, !length_take, !length_app.
    repeat case_decide; try lia; rewrite ?lookup_app_decide; repeat case_decide; try lia; f_equal; lia.
Qed.

(** ** Properties *)

(** However the formatter is fed, its contents are the concatenation of
    everything written, cut to the capacity of the buffer; writing never
    panics and never changes the buffer's length. *)
Theorem formatted_bytes_truncates (b : bytes) (l : list bytes) :
  ∃ f, write_all (new b) l = Ok f ∧ length (buf f) = length b ∧
       contents f = take (length b) (mjoin l).
Proof.
  destruct (write_all_spec l (new b) (new_wf b)) as (f & E & _ & L & C).
  exists f. by rewrite C.
Qed.

End FormattedBytes.

(** ** Alignment *)

Lemma aligned_offset_val addr al :
  u64_ok addr → 0 < al → addr + al < 2 ^ 64 →
  aligned_offset addr (Val al) = Ok ((- addr) mod al).
Proof.
  intros Ha Hal Hs. unfold aligned_offset.
  rewrite from_int_u64 by done.
  rewrite round_up_val by done.
  pose proof (Z.mod_pos_bound (- addr) al Hal).
  rewrite sn_sub by (unfold u64_ok in *; lia).
  rewrite into_u64_val by (unfold u64_ok in *; lia). f_equal. lia.
Qed.
