(* ===== verification/Abr.v ===== *)
(** * libabr: the Fuchsia A/B/R slot library

    Models src/gbl/libabr/src/lib.rs: the wire
    format of the A/B/R metadata with its checksum, the normalization of slot
    states and every API function, over an abstract persistent store
    ([Ops]). Console logging is left out. *)

From S2P Require Import Prelude SafeMath LibError.

(** gbl/libabr/src/lib.rs:22-22, [ABR_MAGIC]. *)
Definition ABR_MAGIC : bytes := [0; 65; 66; 48].
(** gbl/libabr/src/lib.rs:23-23, [ABR_MAJOR_VERSION]. *)
Definition ABR_MAJOR_VERSION : Z := 2.
(** gbl/libabr/src/lib.rs:24-24, [ABR_MINOR_VERSION]. *)
Definition ABR_MINOR_VERSION : Z := 2.
(** gbl/libabr/src/lib.rs:29-30, [ONE_SHOT_RECOVERY]. *)
Definition ONE_SHOT_RECOVERY : Z := Z.shiftl 1 0.
(** gbl/libabr/src/lib.rs:31-32, [ONE_SHOT_BOOTLOADER]. *)
Definition ONE_SHOT_BOOTLOADER : Z := Z.shiftl 1 1.
(** gbl/libabr/src/lib.rs:34-34, [ABR_MAX_PRIORITY]. *)
Definition ABR_MAX_PRIORITY : Z := 15.
(** gbl/libabr/src/lib.rs:35-36, [ABR_MAX_TRIES_REMAINING]. *)
Definition ABR_MAX_TRIES_REMAINING : Z := 7.
(** gbl/libabr/src/lib.rs:276-277, [ABR_DATA_SIZE]. *)
Definition ABR_DATA_SIZE : Z := 32.

(** gbl/libabr/src/lib.rs:38-50, [Ops]: the backend of the A/B/R APIs. A read
    returns the bytes it put into the buffer of the given length. *)
Class Ops (D : Type) := {
  read_abr_metadata : Z → ST D Error bytes;
  write_abr_metadata : bytes → ST D Error unit;
}.

(** gbl/libabr/src/lib.rs:53-56, [Ops for u8 array]: a 32-byte array as
    storage. *)
Definition array_read (n : Z) : ST bytes Error bytes := λ st,
  (ok_or (get_range st 0 n) (BufferTooSmall (Some n)), st).
(** gbl/libabr/src/lib.rs:58-63, [Ops::write_abr_metadata for u8 array]. *)
Definition array_write (data : bytes) : ST bytes Error unit := λ st,
  match get_range st 0 (zlen data) with
  | Some _ => (Ok tt, splice st 0 data)
  | None => (Err (BufferTooSmall (Some (zlen data))), st)
  end.
#[global] Instance ArrayOps : Ops bytes :=
  {| read_abr_metadata := array_read; write_abr_metadata := array_write |}.

(** gbl/libabr/src/lib.rs:80-90, [SlotIndex]. *)
Inductive SlotIndex := SlotA | SlotB | SlotR.
#[global] Instance SlotIndex_eq_dec : EqDecision SlotIndex.
Proof. solve_decision. Defined.

(** gbl/libabr/src/lib.rs:93-100, [SlotIndex::other]. *)
Definition other (s : SlotIndex) : outcome Error SlotIndex :=
  match s with SlotA => Ok SlotB | SlotB => Ok SlotA | SlotR => Panic end.

(** gbl/libabr/src/lib.rs:103-112, [From<SlotIndex> for c_uint]. *)
Definition slot_to_uint (s : SlotIndex) : Z :=
  match s with SlotA => 0 | SlotB => 1 | SlotR => 2 end.

(** gbl/libabr/src/lib.rs:114-123, [From<SlotIndex> for char]. *)
Definition slot_to_char (s : SlotIndex) : Z :=
  match s with SlotA => 97 | SlotB => 98 | SlotR => 114 end.

(** gbl/libabr/src/lib.rs:125-134, [From<SlotIndex> for CStr]. *)
Definition slot_to_cstr (s : SlotIndex) : bytes :=
  match s with SlotA => [95; 97; 0] | SlotB => [95; 98; 0] | SlotR => [95; 114; 0] end.

(** gbl/libabr/src/lib.rs:136-148, [TryFrom<char> for SlotIndex]. *)
Definition slot_of_char (c : Z) : result SlotIndex :=
  if c =? 97 then Ok SlotA else if c =? 98 then Ok SlotB else if c =? 114 then Ok SlotR
  else Err InvalidInput.

(** gbl/libabr/src/lib.rs:150-162, [TryFrom<c_uint> for SlotIndex]. *)
Definition slot_of_uint (v : Z) : result SlotIndex :=
  if v =? slot_to_uint SlotA then Ok SlotA
  else if v =? slot_to_uint SlotB then Ok SlotB
  else if v =? slot_to_uint SlotR then Ok SlotR
  else Err InvalidInput.

(** gbl/libabr/src/lib.rs:164-173, [SlotState]. *)
Inductive SlotState := Successful | Bootable (tries : Z) | Unbootable.

(** gbl/libabr/src/lib.rs:175-181, [SlotInfo]. *)
Record SlotInfo := mkSlotInfo { state : SlotState; is_active : bool }.

(** gbl/libabr/src/lib.rs:183-195, [AbrSlotData]. *)
Record AbrSlotData := mkSlot {
  priority : Z;
  tries_remaining : Z;
  successful_boot : Z;
  slot_reserved : Z;
}.
#[global] Instance AbrSlotData_eq_dec : EqDecision AbrSlotData.
Proof. solve_decision. Defined.

(** gbl/libabr/src/lib.rs:200-208, [AbrSlotData::deserialize]. *)
Definition slot_deserialize (b : bytes) : outcome Error AbrSlotData :=
  b0 ← unwrap (b !! 0%nat);
  b1 ← unwrap (b !! 1%nat);
  b2 ← unwrap (b !! 2%nat);
  b3 ← unwrap (b !! 3%nat);
  Ok (mkSlot b0 b1 b2 b3).

(** gbl/libabr/src/lib.rs:210-213, [AbrSlotData::serialize]. *)
Definition slot_serialize (s : AbrSlotData) : bytes :=
  [priority s; tries_remaining s; successful_boot s; slot_reserved s].

(** gbl/libabr/src/lib.rs:215-218, [AbrSlotData::is_slot_bootable]. *)
Definition is_slot_bootable (s : AbrSlotData) : bool :=
  (priority s >? 0) && ((successful_boot s =? 1) || (tries_remaining s >? 0)).

Definition set_priority (v : Z) (s : AbrSlotData) : AbrSlotData :=
  mkSlot v (tries_remaining s) (successful_boot s) (slot_reserved s).
Definition set_tries (v : Z) (s : AbrSlotData) : AbrSlotData :=
  mkSlot (priority s) v (successful_boot s) (slot_reserved s).
Definition set_successful (v : Z) (s : AbrSlotData) : AbrSlotData :=
  mkSlot (priority s) (tries_remaining s) v (slot_reserved s).

(** gbl/libabr/src/lib.rs:220-223, [AbrSlotData::set_slot_unbootable]. *)
Definition set_slot_unbootable (s : AbrSlotData) : AbrSlotData :=
  set_successful 0 (set_tries 0 s).

(** gbl/libabr/src/lib.rs:225-231, [AbrSlotData::get_normalized_priority]. *)
Definition get_normalized_priority (s : AbrSlotData) : Z :=
  if is_slot_bootable s then priority s else 0.

(** gbl/libabr/src/lib.rs:233-251, [AbrSlotData::slot_normalize]. *)
Definition slot_normalize (s : AbrSlotData) : AbrSlotData :=
  if priority s >? 0 then
    let s := if (tries_remaining s =? 0) && (successful_boot s =? 0)
             then set_slot_unbootable s else s in
    let s := if (tries_remaining s >? 0) && (successful_boot s =? 1)
             then set_successful 0 (set_tries ABR_MAX_TRIES_REMAINING s) else s in
    let s := set_priority (Z.min (priority s) ABR_MAX_PRIORITY) s in
    set_tries (Z.min (tries_remaining s) ABR_MAX_TRIES_REMAINING) s
  else set_slot_unbootable s.

(** gbl/libabr/src/lib.rs:254-274, [AbrData]. *)
Record AbrData := mkData {
  magic : bytes;
  version_major : Z;
  version_minor : Z;
  reserved : bytes;
  slot_a : AbrSlotData;
  slot_b : AbrSlotData;
  one_shot_flags : Z;
  reserved2 : bytes;
  crc32_field : Z;
}.
#[global] Instance AbrData_eq_dec : EqDecision AbrData.
Proof. solve_decision. Defined.

Definition set_flags (v : Z) (d : AbrData) : AbrData :=
  mkData (magic d) (version_major d) (version_minor d) (reserved d)
    (slot_a d) (slot_b d) v (reserved2 d) (crc32_field d).
Definition set_crc (v : Z) (d : AbrData) : AbrData :=
  mkData (magic d) (version_major d) (version_minor d) (reserved d)
    (slot_a d) (slot_b d) (one_shot_flags d) (reserved2 d) v.

(** gbl/libabr/src/lib.rs:280-293, [AbrData::slot_data]: a reference to the
    data of slot A or B; panics on R ([slot_num_index]). *)
Definition slot_data (d : AbrData) (i : SlotIndex) : outcome Error AbrSlotData :=
  match i with SlotA => Ok (slot_a d) | SlotB => Ok (slot_b d) | SlotR => Panic end.

(** gbl/libabr/src/lib.rs:295-298, [AbrData::slot_data_mut]: an update through
    the mutable reference. *)
Definition slot_data_mut (i : SlotIndex) (f : AbrSlotData → AbrSlotData) (d : AbrData) :
    outcome Error AbrData :=
  match i with
  | SlotA => Ok (mkData (magic d) (version_major d) (version_minor d) (reserved d)
               (f (slot_a d)) (slot_b d) (one_shot_flags d) (reserved2 d) (crc32_field d))
  | SlotB => Ok (mkData (magic d) (version_major d) (version_minor d) (reserved d)
               (slot_a d) (f (slot_b d)) (one_shot_flags d) (reserved2 d) (crc32_field d))
  | SlotR => Panic
  end.

(** gbl/libabr/src/lib.rs:697-703, [reverse_byte]. *)
Definition LOOKUP_TABLE_4BIT_REVERSE : bytes :=
  [0x0; 0x8; 0x4; 0xC; 0x2; 0xA; 0x6; 0xE; 0x1; 0x9; 0x5; 0xD; 0x3; 0xB; 0x7; 0xF].
(** gbl/libabr/src/lib.rs:697-703, [reverse_byte]: both indices are below 16. *)
Definition reverse_byte (b : Z) : Z :=
  let table i := default 0 (LOOKUP_TABLE_4BIT_REVERSE !! Z.to_nat i) in
  Z.lor (table (Z.shiftr b 4)) (wrap 8 (Z.shiftl (table (Z.land b 0xf)) 4)).

(** gbl/libabr/src/lib.rs:705-710, [reverse_u32]. *)
Definition reverse_u32 (v : Z) : Z :=
  be_val (reverse_byte <$> le_bytes 4 v).

(** gbl/libabr/src/lib.rs:712-726, [crc32]: the loop body for one bit. *)
Definition crc32_bit (res : Z) : Z :=
  if negb (Z.land res 0x80000000 =? 0)
  then Z.lxor (wrap 32 (Z.shiftl res 1)) 0x04C11DB7
  else wrap 32 (Z.shiftl res 1).
(** gbl/libabr/src/lib.rs:712-726, [crc32]: the loop body for one byte. *)
Definition crc32_byte (res b : Z) : Z :=
  Nat.iter 8 crc32_bit (Z.lxor res (Z.shiftl (reverse_byte b) 24)).
(** gbl/libabr/src/lib.rs:712-726, [crc32]. *)
Definition crc32 (data : bytes) : Z :=
  reverse_u32 (bit_not 32 (foldl crc32_byte 0xffffffff data)).

(** gbl/libabr/src/lib.rs:300-337, [AbrData::deserialize]: the parsing of the
    32 bytes read. *)
Definition parse (b : bytes) : outcome Error AbrData :=
  magic ← index_range b 0 4;
  version_major ← unwrap (b !! 4%nat);
  version_minor ← unwrap (b !! 5%nat);
  reserved ← index_range b 6 8;
  a ← index_range b 8 12; slot_a ← slot_deserialize a;
  a ← index_range b 12 16; slot_b ← slot_deserialize a;
  one_shot_flags ← unwrap (b !! 16%nat);
  reserved2 ← index_range b 17 28;
  crc ← index_range b 28 ABR_DATA_SIZE;
  Ok (mkData magic version_major version_minor reserved slot_a slot_b
        one_shot_flags reserved2 (be_val crc)).

Section Api.
Context {D : Type} `{!Ops D}.
Abbreviation M := (ST D Error).

(** gbl/libabr/src/lib.rs:300-337, [AbrData::deserialize]: reads, parses and checks
    the metadata. *)
Definition deserialize : M AbrData :=
  b ← read_abr_metadata ABR_DATA_SIZE;
  res ← lift (parse b);
  crc ← lift (index_range b 0 28);
  if negb (bool_decide (magic res = ABR_MAGIC)) then raise BadMagic
  else if negb (crc32_field res =? crc32 crc) then raise BadChecksum
  else if version_major res >? ABR_MAJOR_VERSION then raise UnsupportedVersion
  else mret res.

(** gbl/libabr/src/lib.rs:339-353, [AbrData::serialize]: the bytes and the data
    with its updated checksum. *)
Definition serialize (d : AbrData) : bytes * AbrData :=
  let res := magic d ++ [version_major d] ++ [version_minor d] ++ reserved d
    ++ slot_serialize (slot_a d) ++ slot_serialize (slot_b d)
    ++ [one_shot_flags d] ++ reserved2 d in
  let crc := crc32 (slice res 0 28) in
  (res ++ be_bytes 4 crc, set_crc crc d).

(** gbl/libabr/src/lib.rs:399-425, [Default for AbrData]. *)
Definition abr_default : AbrData :=
  mkData ABR_MAGIC ABR_MAJOR_VERSION ABR_MINOR_VERSION [0; 0]
    (mkSlot ABR_MAX_PRIORITY ABR_MAX_TRIES_REMAINING 0 0)
    (mkSlot (ABR_MAX_PRIORITY - 1) ABR_MAX_TRIES_REMAINING 0 0)
    0 (replicate 11 0) 0.

(** gbl/libabr/src/lib.rs:355-358, [AbrData::null]. *)
Definition abr_null : AbrData :=
  let d := abr_default in
  mkData [0; 0; 0; 0] (version_major d) (version_minor d) (reserved d)
    (slot_a d) (slot_b d) (one_shot_flags d) (reserved2 d) (crc32_field d).

(** gbl/libabr/src/lib.rs:360-370, [AbrData::get_active_slot]. *)
Definition get_active_slot (d : AbrData) : SlotIndex :=
  let priority_a := get_normalized_priority (slot_a d) in
  let priority_b := get_normalized_priority (slot_b d) in
  if priority_b >? priority_a then SlotB
  else if priority_a >? 0 then SlotA
  else SlotR.

(** gbl/libabr/src/lib.rs:372-375, [AbrData::is_slot_active]. *)
Definition is_slot_active (d : AbrData) (i : SlotIndex) : bool :=
  bool_decide (get_active_slot d = i).

(** gbl/libabr/src/lib.rs:377-380, [AbrData::is_one_shot_recovery]. *)
Definition is_one_shot_recovery (d : AbrData) : bool :=
  negb (Z.land (one_shot_flags d) ONE_SHOT_RECOVERY =? 0).

(** gbl/libabr/src/lib.rs:382-388, [AbrData::set_one_shot_recovery]. *)
Definition data_set_one_shot_recovery (enable : bool) (d : AbrData) : AbrData :=
  if enable then set_flags (Z.lor (one_shot_flags d) ONE_SHOT_RECOVERY) d
  else set_flags (Z.land (one_shot_flags d) (bit_not 8 ONE_SHOT_RECOVERY)) d.

(** gbl/libabr/src/lib.rs:390-396, [AbrData::set_one_shot_bootloader]. *)
Definition data_set_one_shot_bootloader (enable : bool) (d : AbrData) : AbrData :=
  if enable then set_flags (Z.lor (one_shot_flags d) ONE_SHOT_BOOTLOADER) d
  else set_flags (Z.land (one_shot_flags d) (bit_not 8 ONE_SHOT_BOOTLOADER)) d.

(** gbl/libabr/src/lib.rs:427-455, [load_metadata]. *)
Definition load_metadata : M (AbrData * AbrData) :=
  r ← attempt deserialize;
  '(abr_data, abr_data_orig) ←
    (match r with
     | inl v => mret (v, v)
     | inr (Other e) => raise (Other e)
     | inr UnsupportedVersion => raise UnsupportedVersion
     | inr _ => mret (abr_default, abr_null)
     end : M (AbrData * AbrData));
  abr_data ← lift (slot_data_mut SlotA slot_normalize abr_data);
  abr_data ← lift (slot_data_mut SlotB slot_normalize abr_data);
  mret (abr_data, abr_data_orig).

(** gbl/libabr/src/lib.rs:457-462, [save_metadata]. *)
Definition save_metadata (d : AbrData) : M unit :=
  write_abr_metadata (fst (serialize d)).

(** gbl/libabr/src/lib.rs:464-474, [save_metadata_if_changed]. *)
Definition save_metadata_if_changed (d orig : AbrData) : M unit :=
  if bool_decide (d = orig) then mret tt else save_metadata d.

(** gbl/libabr/src/lib.rs:476-544, [get_boot_slot]: the body of the loop that
    clears the successful mark of the slots that are not booted. *)
Definition clear_other_successful (slot_to_boot slot : SlotIndex) (d : AbrData) :
    outcome Error AbrData :=
  s ← slot_data d slot;
  if negb (bool_decide (slot = slot_to_boot)) && (successful_boot s =? 1)
  then d ← slot_data_mut slot (set_tries ABR_MAX_TRIES_REMAINING) d;
       slot_data_mut slot (set_successful 0) d
  else Ok d.

(** gbl/libabr/src/lib.rs:476-544, [get_boot_slot]: choosing the slot and, if
    asked to, updating the metadata. *)
Definition choose_boot_slot (update_metadata : bool) (abr_data abr_data_orig : AbrData) :
    M (SlotIndex * bool) :=
  let slot_to_boot := get_active_slot abr_data in
  is_slot_marked_successful ←
    (match slot_to_boot with
     | SlotR => mret false
     | v => s ← lift (slot_data abr_data v); mret (successful_boot s =? 1)
     end : M bool);
  (if update_metadata then
     abr_data ← lift
       (if negb (bool_decide (slot_to_boot = SlotR)) && negb is_slot_marked_successful then
          s ← slot_data abr_data slot_to_boot;
          t ← unwrap (checked 8 (tries_remaining s - 1));
          slot_data_mut slot_to_boot (set_tries t) abr_data
        else Ok abr_data);
     abr_data ← lift (clear_other_successful slot_to_boot SlotA abr_data);
     abr_data ← lift (clear_other_successful slot_to_boot SlotB abr_data);
     _ ← attempt (save_metadata_if_changed abr_data abr_data_orig);
     mret tt
   else mret tt);;
  mret (slot_to_boot, is_slot_marked_successful).

(** gbl/libabr/src/lib.rs:476-544, [get_boot_slot]. *)
Definition get_boot_slot (update_metadata : bool) : M (SlotIndex * bool) :=
  r ← attempt load_metadata;
  match r with
  | inr _ => mret (SlotR, false)
  | inl (abr_data, abr_data_orig) =>
      if is_one_shot_recovery abr_data && update_metadata then
        let cleared := data_set_one_shot_recovery false abr_data in
        r ← attempt (save_metadata cleared);
        match r with
        | inl _ => mret (SlotR, false)
        | inr _ =>
            choose_boot_slot update_metadata
              (data_set_one_shot_recovery true (snd (serialize cleared))) abr_data_orig
        end
      else choose_boot_slot update_metadata abr_data abr_data_orig
  end.

(** gbl/libabr/src/lib.rs:546-567, [mark_slot_active]. *)
Definition mark_slot_active (slot_index : SlotIndex) : M unit :=
  if bool_decide (slot_index = SlotR) then raise InvalidInput else
  '(abr_data, abr_data_orig) ← load_metadata;
  abr_data ← lift (slot_data_mut slot_index (set_priority ABR_MAX_PRIORITY) abr_data);
  abr_data ← lift (slot_data_mut slot_index (set_tries ABR_MAX_TRIES_REMAINING) abr_data);
  abr_data ← lift (slot_data_mut slot_index (set_successful 0) abr_data);
  other_slot ← lift (other slot_index);
  o ← lift (slot_data abr_data other_slot);
  abr_data ← lift (slot_data_mut other_slot
    (set_priority (Z.min (priority o) (ABR_MAX_PRIORITY - 1))) abr_data);
  save_metadata_if_changed abr_data abr_data_orig.

(** gbl/libabr/src/lib.rs:569-582, [get_slot_last_marked_active]. *)
Definition get_slot_last_marked_active : M SlotIndex :=
  '(abr_data, _) ← load_metadata;
  b ← lift (slot_data abr_data SlotB);
  a ← lift (slot_data abr_data SlotA);
  mret (if priority b >? priority a then SlotB else SlotA).

(** gbl/libabr/src/lib.rs:584-596, [mark_slot_unbootable]. *)
Definition mark_slot_unbootable (slot_index : SlotIndex) : M unit :=
  if bool_decide (slot_index = SlotR) then raise InvalidInput else
  '(abr_data, abr_data_orig) ← load_metadata;
  abr_data ← lift (slot_data_mut slot_index set_slot_unbootable abr_data);
  save_metadata_if_changed abr_data abr_data_orig.

(** gbl/libabr/src/lib.rs:598-630, [mark_slot_successful]. *)
Definition mark_slot_successful (slot_index : SlotIndex) : M unit :=
  if bool_decide (slot_index = SlotR) then raise InvalidInput else
  '(abr_data, abr_data_orig) ← load_metadata;
  s ← lift (slot_data abr_data slot_index);
  if negb (is_slot_bootable s) then raise InvalidInput else
  abr_data ← lift (slot_data_mut slot_index (set_tries 0) abr_data);
  abr_data ← lift (slot_data_mut slot_index (set_successful 1) abr_data);
  other_slot ← lift (other slot_index);
  o ← lift (slot_data abr_data other_slot);
  abr_data ← lift
    (if is_slot_bootable o then
       d ← slot_data_mut other_slot (set_tries ABR_MAX_TRIES_REMAINING) abr_data;
       slot_data_mut other_slot (set_successful 0) d
     else Ok abr_data);
  save_metadata_if_changed abr_data abr_data_orig.

(** gbl/libabr/src/lib.rs:632-654, [get_slot_info]. *)
Definition get_slot_info (slot_index : SlotIndex) : M SlotInfo :=
  '(abr_data, _) ← load_metadata;
  match slot_index with
  | SlotR => mret (mkSlotInfo Successful (is_slot_active abr_data SlotR))
  | _ =>
      s ← lift (slot_data abr_data slot_index);
      let state :=
        if successful_boot s =? 1 then Successful
        else if is_slot_bootable s then Bootable (tries_remaining s)
        else Unbootable in
      mret (mkSlotInfo state (is_slot_active abr_data slot_index))
  end.

(** gbl/libabr/src/lib.rs:656-664, [set_one_shot_recovery]. *)
Definition set_one_shot_recovery (enable : bool) : M unit :=
  '(abr_data, abr_data_orig) ← load_metadata;
  save_metadata_if_changed (data_set_one_shot_recovery enable abr_data) abr_data_orig.

(** gbl/libabr/src/lib.rs:666-674, [set_one_shot_bootloader]. *)
Definition set_one_shot_bootloader (enable : bool) : M unit :=
  '(abr_data, abr_data_orig) ← load_metadata;
  save_metadata_if_changed (data_set_one_shot_bootloader enable abr_data) abr_data_orig.

(** gbl/libabr/src/lib.rs:676-686, [get_and_clear_one_shot_flag]. *)
Definition get_and_clear_one_shot_flag : M Z :=
  '(abr_data, abr_data_orig) ← load_metadata;
  let res := one_shot_flags abr_data in
  save_metadata_if_changed (set_flags 0 abr_data) abr_data_orig;;
  mret res.

(** gbl/libabr/src/lib.rs:688-695, [get_and_clear_one_shot_bootloader]. *)
Definition get_and_clear_one_shot_bootloader : M bool :=
  '(abr_data, abr_data_orig) ← load_metadata;
  let res := one_shot_flags abr_data in
  save_metadata_if_changed
    (set_flags (Z.land res (bit_not 8 ONE_SHOT_BOOTLOADER)) abr_data) abr_data_orig;;
  mret (negb (Z.land res ONE_SHOT_BOOTLOADER =? 0)).

End Api.
