(* ===== verification/AbrFormat.v ===== *)
(** * libabr: the metadata format

    The checksum of libabr is the standard CRC-32, and the wire format round
    trips. *)

From S2P Require Import Prelude SafeMath LibError Abr.

(** ** Bytes by enumeration *)

Lemma forall_byte (P : Z → bool) :
  forallb (λ n, P (Z.of_nat n)) (seq 0 256) = true → ∀ b, u8_ok b → P b = true.
Proof.
  intros H b Hb. rewrite forallb_forall in H.
  rewrite <-(Z2Nat.id b) by (unfold u8_ok in Hb; lia).
  apply H, in_seq. unfold u8_ok in Hb. lia.
Qed.

Lemma reverse_byte_ok b : u8_ok b → u8_ok (reverse_byte b).
Proof.
  intros Hb. pose proof (forall_byte (λ b, fits 8 (reverse_byte b)) eq_refl b Hb) as H.
  by apply fits_spec in H.
Qed.

Lemma reverse_u32_ok v : u32_ok (reverse_u32 v).
Proof.
  unfold reverse_u32, u32_ok.
  assert (bytes_ok (reverse_byte <$> le_bytes 4 v)) as H.
  { apply Forall_fmap, (Forall_impl u8_ok); [apply le_bytes_ok|]. apply reverse_byte_ok. }
  apply be_val_bound in H. rewrite length_fmap, length_le_bytes in H. exact H.
Qed.

Lemma crc32_ok l : u32_ok (crc32 l).
Proof. apply reverse_u32_ok. Qed.

(** ** The reference CRC-32

    The usual bit-reflected formulation: the register shifts right and the
    polynomial is 0xEDB88320. *)
Definition crc32_ref_bit (r : Z) : Z :=
  if Z.testbit r 0 then Z.lxor (Z.shiftr r 1) 0xEDB88320 else Z.shiftr r 1.
Definition crc32_ref (data : bytes) : Z :=
  Z.lxor 0xffffffff
    (foldl (λ r b, Nat.iter 8 crc32_ref_bit (Z.lxor r b)) 0xffffffff data).

(** [x] and [y] are 32-bit mirror images. *)
Definition mirror (x y : Z) : Prop :=
  u32_ok x ∧ u32_ok y ∧
  ∀ i, 0 ≤ i < 32 → Z.testbit y i = Z.testbit x (31 - i).

Lemma testbit_high x i : u32_ok x → 32 ≤ i → Z.testbit x i = false.
Proof.
  intros [H1 H2] Hi. destruct (Z.eq_dec x 0) as [->|Hx]; [by rewrite Z.bits_0|].
  apply Z.bits_above_log2; [lia|].
  apply Z.log2_lt_pow2; [lia|]. assert (2 ^ 32 ≤ 2 ^ i) by (apply Z.pow_le_mono_r; lia). lia.
Qed.

Lemma u32_of_bits x : 0 ≤ x → (∀ i, 32 ≤ i → Z.testbit x i = false) → u32_ok x.
Proof.
  intros H0 H. split; [done|]. apply Z.nle_gt. intros Hc.
  assert (Hl : 32 ≤ Z.log2 x) by (apply Z.log2_le_pow2; lia).
  specialize (H _ Hl). rewrite Z.bit_log2 in H by lia. done.
Qed.

Lemma mirror_unique x y z : mirror x y → mirror x z → y = z.
Proof.
  intros (_ & Uy & Hy) (_ & Uz & Hz). apply Z.bits_inj'. intros i Hi.
  destruct (decide (i < 32)).
  - rewrite Hy, Hz by lia. done.
  - rewrite !testbit_high by (done || lia). done.
Qed.

Lemma mirror_lxor a b c d : mirror a b → mirror c d → mirror (Z.lxor a c) (Z.lxor b d).
Proof.
  intros (Ua & Ub & H1) (Uc & Ud & H2). split_and!.
  - apply u32_of_bits; [apply Z.lxor_nonneg; unfold u32_ok in *; lia|].
    intros. by rewrite Z.lxor_spec, !testbit_high by done.
  - apply u32_of_bits; [apply Z.lxor_nonneg; unfold u32_ok in *; lia|].
    intros. by rewrite Z.lxor_spec, !testbit_high by done.
  - intros i Hi. by rewrite !Z.lxor_spec, H1, H2.
Qed.

Lemma mirror_shift x y :
  mirror x y → mirror (wrap 32 (Z.shiftl x 1)) (Z.shiftr y 1).
Proof.
  intros (Ux & Uy & H). unfold wrap. split_and!.
  - unfold u32_ok. apply Z.mod_pos_bound. lia.
  - unfold u32_ok in *. rewrite Z.shiftr_div_pow2 by lia.
    split; [apply Z.div_pos; lia | apply Z.div_lt_upper_bound; lia].
  - intros i Hi. rewrite Z.shiftr_spec by lia.
    rewrite Z.mod_pow2_bits_low by lia.
    destruct (decide (i = 31)) as [->|].
    + rewrite Z.shiftl_spec_low by lia. by rewrite testbit_high by (done || lia).
    + rewrite H by lia. rewrite Z.shiftl_spec by lia. f_equal. lia.
Qed.

Lemma mirror_bit x y : mirror x y → mirror (crc32_bit x) (crc32_ref_bit y).
Proof.
  intros H. pose proof H as (Ux & Uy & Hb).
  assert (Hc : negb (Z.land x 0x80000000 =? 0) = Z.testbit y 0).
  { rewrite Hb by lia. replace (31 - 0) with 31 by lia.
    change 0x80000000 with (2 ^ 31). destruct (Z.testbit x 31) eqn:E.
    - apply negb_true_iff, Z.eqb_neq. intros Hz.
      apply (f_equal (λ z, Z.testbit z 31)) in Hz.
      rewrite Z.land_spec, Z.pow2_bits_true, E, Z.bits_0 in Hz by lia. done.
    - apply negb_false_iff, Z.eqb_eq, Z.bits_inj'. intros i Hi.
      rewrite Z.land_spec, Z.bits_0, Z.pow2_bits_eqb by lia.
      destruct (Z.eqb_spec 31 i); subst; rewrite ?E; auto using andb_false_r. }
  unfold crc32_bit, crc32_ref_bit. rewrite Hc. destruct (Z.testbit y 0).
  - apply mirror_lxor; [by apply mirror_shift|].
    split_and!; [unfold u32_ok; lia..|]. intros i Hi.
    assert (forallb (λ n, Bool.eqb (Z.testbit 0xEDB88320 (Z.of_nat n))
      (Z.testbit 0x04C11DB7 (31 - Z.of_nat n))) (seq 0 32) = true) as Hall by reflexivity.
    rewrite forallb_forall in Hall. specialize (Hall (Z.to_nat i)).
    rewrite Z2Nat.id in Hall by lia. apply eqb_prop, Hall, in_seq. lia.
  - by apply mirror_shift.
Qed.

Lemma mirror_iter n x y :
  mirror x y → mirror (Nat.iter n crc32_bit x) (Nat.iter n crc32_ref_bit y).
Proof. intros H. induction n; simpl; auto using mirror_bit. Qed.

Lemma testbit_byte b i : u8_ok b → 8 ≤ i → Z.testbit b i = false.
Proof.
  intros [H1 H2] Hi. rewrite <-(Z.mod_small b (2 ^ 8)) by lia.
  apply Z.mod_pow2_bits_high. lia.
Qed.

Lemma reverse_byte_bits b i :
  u8_ok b → 0 ≤ i < 8 → Z.testbit (reverse_byte b) i = Z.testbit b (7 - i).
Proof.
  intros Hb Hi.
  pose proof (forall_byte (λ b, forallb (λ n, Bool.eqb
    (Z.testbit (reverse_byte b) (Z.of_nat n)) (Z.testbit b (7 - Z.of_nat n))) (seq 0 8))
    eq_refl b Hb) as H.
  cbv beta in H. rewrite forallb_forall in H. specialize (H (Z.to_nat i)).
  rewrite Z2Nat.id in H by lia. apply eqb_prop, H, in_seq. lia.
Qed.

Lemma mirror_byte b : u8_ok b → mirror (Z.shiftl (reverse_byte b) 24) b.
Proof.
  intros Hb. pose proof (reverse_byte_ok b Hb) as Hr. split_and!.
  - unfold u32_ok, u8_ok in *. rewrite Z.shiftl_mul_pow2 by lia. lia.
  - unfold u32_ok, u8_ok in *. lia.
  - intros i Hi. rewrite Z.shiftl_spec by lia.
    destruct (decide (i < 8)).
    + rewrite reverse_byte_bits by (done || lia). f_equal. lia.
    + rewrite testbit_byte by (done || lia). symmetry. apply Z.testbit_neg_r. lia.
Qed.

Lemma testbit_le_val_low b l i :
  u8_ok b → 0 ≤ i < 8 → Z.testbit (le_val (b :: l)) i = Z.testbit b i.
Proof.
  intros Hb Hi. rewrite <-(Z.mod_pow2_bits_low (le_val (b :: l)) 8 i) by lia.
  cbn [le_val]. f_equal. change (2 ^ 8) with 256.
  rewrite Z.mul_comm, Z_mod_plus_full. apply Z.mod_small, Hb.
Qed.

Lemma testbit_le_val_high b l i :
  u8_ok b → 8 ≤ i → Z.testbit (le_val (b :: l)) i = Z.testbit (le_val l) (i - 8).
Proof.
  intros Hb Hi. replace i with ((i - 8) + 8) at 1 by lia.
  rewrite <-Z.div_pow2_bits by lia. cbn [le_val]. f_equal. change (2 ^ 8) with 256.
  rewrite Z.mul_comm, Z.div_add by lia. rewrite Z.div_small by apply Hb. lia.
Qed.

(** Bit [i] of a little-endian number is bit [i mod 8] of its byte [i / 8]. *)
Lemma testbit_le_val l i :
  bytes_ok l → 0 ≤ i →
  Z.testbit (le_val l) i = Z.testbit (default 0 (l !! Z.to_nat (i / 8))) (i mod 8).
Proof.
  intros Hl. revert i. induction Hl as [|b l Hb _ IH]; intros i Hi.
  - simpl. by rewrite !Z.bits_0.
  - destruct (decide (i < 8)).
    + rewrite testbit_le_val_low by (done || lia).
      by rewrite Z.div_small, Z.mod_small by lia.
    + rewrite testbit_le_val_high by (done || lia). rewrite IH by lia.
      replace ((i - 8) mod 8) with (i mod 8) by (Z.div_mod_to_equations; lia).
      replace (Z.to_nat (i / 8)) with (S (Z.to_nat ((i - 8) / 8)))
        by (Z.div_mod_to_equations; lia). done.
Qed.

Lemma mirror_reverse_u32 v : u32_ok v → mirror v (reverse_u32 v).
Proof.
  intros Hv. split_and!; [done | apply reverse_u32_ok |]. intros i Hi.
  assert (Hb : bytes_ok (le_bytes 4 v)) by apply le_bytes_ok.
  assert (Hval : le_val (le_bytes 4 v) = v) by (apply le_val_bytes; unfold u32_ok in Hv; simpl; lia).
  rewrite <-Hval at 2. rewrite testbit_le_val by (done || lia).
  unfold reverse_u32, be_val.
  assert (Hr : bytes_ok (reverse (reverse_byte <$> le_bytes 4 v))).
  { apply Forall_reverse, Forall_fmap, (Forall_impl u8_ok); [done|apply reverse_byte_ok]. }
  rewrite testbit_le_val by (done || lia).
  rewrite reverse_lookup by (rewrite length_fmap, length_le_bytes; Z.div_mod_to_equations; lia).
  rewrite list_lookup_fmap, length_fmap, length_le_bytes.
  replace (4 - S (Z.to_nat (i / 8)))%nat with (Z.to_nat ((31 - i) / 8))
    by (Z.div_mod_to_equations; lia).
  destruct (le_bytes 4 v !! Z.to_nat ((31 - i) / 8)) as [b|] eqn:E.
  - simpl. pose proof (Forall_lookup_1 _ _ _ _ Hb E) as Hb'.
    rewrite reverse_byte_bits by (done || (Z.div_mod_to_equations; lia)).
    f_equal. Z.div_mod_to_equations. lia.
  - apply lookup_ge_None in E. rewrite length_le_bytes in E.
    Z.div_mod_to_equations. lia.
Qed.

Lemma mirror_sym x y : mirror x y → mirror y x.
Proof.
  intros (Ux & Uy & H). split_and!; [done..|]. intros i Hi.
  rewrite H by lia. f_equal. lia.
Qed.

Lemma mirror_fold l x y :
  bytes_ok l → mirror x y →
  mirror (foldl crc32_byte x l)
         (foldl (λ r b, Nat.iter 8 crc32_ref_bit (Z.lxor r b)) y l).
Proof.
  intros Hl. revert x y. induction Hl as [|b l Hb _ IH]; intros x y H; [done|].
  cbn [foldl]. apply IH. unfold crc32_byte. apply mirror_iter, mirror_lxor; [done|].
  by apply mirror_byte.
Qed.

Lemma mirror_ones : mirror 0xffffffff 0xffffffff.
Proof.
  split_and!; [unfold u32_ok; lia..|]. intros i Hi.
  change 0xffffffff with (Z.ones 32). by rewrite !Z.ones_spec_low by lia.
Qed.

(** The checksum of libabr, computed with a left-shifting register over
    bit-reversed bytes, is the standard (reflected) CRC-32. *)
Theorem abr_crc32_standard (l : bytes) : bytes_ok l → crc32 l = crc32_ref l.
Proof.
  intros Hl. unfold crc32, crc32_ref, bit_not.
  pose proof (mirror_fold l _ _ Hl mirror_ones) as H.
  eapply mirror_unique.
  - apply mirror_reverse_u32. apply (mirror_lxor _ _ _ _ H mirror_ones).
  - rewrite (Z.lxor_comm 0xffffffff). apply (mirror_lxor _ _ _ _ H mirror_ones).
Qed.

Lemma abr_crc32_standard_witness : crc32 (str "123456789") = 0xCBF43926.
Proof.
  rewrite abr_crc32_standard; [vm_compute; reflexivity|].
  repeat constructor; unfold u8_ok; vm_compute; intuition discriminate.
Defined.

(** ** Round trip *)

Definition slot_wf (s : AbrSlotData) : Prop := bytes_ok (slot_serialize s).
(** The widths that the types of the fields guarantee. *)
Record data_wf (d : AbrData) : Prop := {
  wf_magic : length (magic d) = 4%nat ∧ bytes_ok (magic d);
  wf_major : u8_ok (version_major d);
  wf_minor : u8_ok (version_minor d);
  wf_reserved : length (reserved d) = 2%nat ∧ bytes_ok (reserved d);
  wf_a : slot_wf (slot_a d);
  wf_b : slot_wf (slot_b d);
  wf_flags : u8_ok (one_shot_flags d);
  wf_reserved2 : length (reserved2 d) = 11%nat ∧ bytes_ok (reserved2 d);
  wf_crc : u32_ok (crc32_field d);
}.

Lemma length_serialize d : data_wf d → length (fst (serialize d)) = 32%nat.
Proof.
  intros [[L1 _] _ _ [L2 _] _ _ _ [L3 _] _]. unfold serialize. cbn [fst].
  rewrite !length_app, length_be_bytes, L1, L2, L3. done.
Qed.

Lemma parse_serialize d :
  data_wf d →
  parse (fst (serialize d)) = Ok (snd (serialize d)) ∧
  slice (fst (serialize d)) 0 28 =
    magic d ++ [version_major d] ++ [version_minor d] ++ reserved d
    ++ slot_serialize (slot_a d) ++ slot_serialize (slot_b d)
    ++ [one_shot_flags d] ++ reserved2 d ∧
  crc32_field (snd (serialize d)) = crc32 (slice (fst (serialize d)) 0 28).
Proof.
  intros [[L1 _] _ _ [L2 _] _ _ _ [L3 _] _].
  destruct d as [m vj vi r [pa ta sa ra] [pb tb sb rb] f r2 c]. simpl in *.
  unfold serialize. cbn [magic version_major version_minor reserved slot_a slot_b
    one_shot_flags reserved2 slot_serialize priority tries_remaining successful_boot
    slot_reserved fst snd].
  set (res := m ++ _).
  assert (Hlen : length res = 28%nat) by (unfold res; repeat (rewrite length_app; simpl); lia).
  rewrite (slice_all res) by lia.
  assert (Hs : slice (res ++ be_bytes 4 (crc32 res)) 0 28 = res) by (apply slice_app_l; lia).
  rewrite Hs. split_and!; [|done..].
  assert (Hc : be_val (be_bytes 4 (crc32 res)) = crc32 res).
  { apply be_val_bytes. pose proof (crc32_ok res) as Hc. unfold u32_ok in Hc. simpl. lia. }
  unfold set_crc. simpl. revert Hc. generalize (crc32 res). intros crc Hc.
  pose proof (length_be_bytes 4 crc) as L4. revert Hc L4.
  generalize (be_bytes 4 crc). intros cb Hc L4. subst res. clear Hs Hlen.
  known_length m. known_length r. known_length r2. known_length cb.
  rewrite <-Hc. reflexivity.
Qed.

Ltac all_bytes :=
  unfold bytes_ok; repeat (apply Forall_cons; split; [assumption|]); apply Forall_nil_2.

Lemma parse_inv b :
  length b = 32%nat → bytes_ok b →
  ∃ d, parse b = Ok d ∧ data_wf d ∧
    (crc32_field d = crc32 (slice b 0 28) → serialize d = (b, d)).
Proof.
  intros Hl Hb. known_length b. clear Hl.
  exists (mkData [z; z0; z1; z2] z3 z4 [z5; z6] (mkSlot z7 z8 z9 z10)
    (mkSlot z11 z12 z13 z14) z15 [z16; z17; z18; z19; z20; z21; z22; z23; z24; z25; z26]
    (be_val [z27; z28; z29; z30])).
  unfold bytes_ok in Hb. rewrite !Forall_cons in Hb. destruct_and!.
  assert (Hcb : bytes_ok [z27; z28; z29; z30]) by all_bytes.
  split; [reflexivity|]. split.
  - split; unfold slot_wf, slot_serialize, bytes_ok; simpl; auto;
      try (split; [reflexivity|]); try all_bytes.
    apply (be_val_bound _ Hcb).
  - intros Hc. cbn [crc32_field] in Hc.
    set (res := [z; z0; z1; z2; z3; z4; z5; z6; z7; z8; z9; z10; z11; z12; z13; z14;
      z15; z16; z17; z18; z19; z20; z21; z22; z23; z24; z25; z26]).
    assert (Hs : crc32 (slice res 0 28) = be_val [z27; z28; z29; z30]) by (symmetry; exact Hc).
    unfold serialize. cbn. fold res. rewrite Hs.
    rewrite be_bytes_val by done. reflexivity.
Qed.

(** [deserialize] on a 32-byte array. *)
Lemma deserialize_array st :
  length st = 32%nat →
  deserialize st =
    (match parse st with
     | Ok res =>
         if negb (bool_decide (magic res = ABR_MAGIC)) then Err BadMagic
         else if negb (crc32_field res =? crc32 (slice st 0 28)) then Err BadChecksum
         else if version_major res >? ABR_MAJOR_VERSION then Err UnsupportedVersion
         else Ok res
     | Err e => Err e
     | Panic => Panic
     end, st).
Proof.
  intros Hl. unfold deserialize.
  erewrite bind_run_ok.
  2: { cbn [read_abr_metadata ArrayOps]. unfold array_read, ABR_DATA_SIZE.
       rewrite get_range_Some by lia. cbn [ok_or].
       rewrite slice_all by (rewrite Hl; done). done. }
  st_pure. destruct (parse st); [|done..].
  rewrite index_range_ok by lia. st_pure. replace (28 - 0) with 28 by lia.
  by repeat case_if.
Qed.

(** Metadata that libabr serializes is read back unchanged (with its
    updated checksum) if its magic and major version are acceptable. *)
Theorem abr_serialize_roundtrip (d : AbrData) :
  data_wf d → magic d = ABR_MAGIC → version_major d ≤ ABR_MAJOR_VERSION →
  deserialize (fst (serialize d)) = (Ok (snd (serialize d)), fst (serialize d)).
Proof.
  intros Hd Hm Hv. destruct (parse_serialize d Hd) as (Hp & Hs & Hc).
  pose proof (length_serialize d Hd) as Hl.
  rewrite deserialize_array by (by rewrite Hl). rewrite Hp.
  rewrite bool_decide_true by done. rewrite <-Hc, Z.eqb_refl.
  cbn [negb version_major snd serialize set_crc].
  by rewrite Z.gtb_ltb, (proj2 (Z.ltb_ge _ _)).
Qed.

Lemma abr_serialize_roundtrip_witness :
  deserialize (fst (serialize abr_default))
  = (Ok (snd (serialize abr_default)), fst (serialize abr_default)).
Proof.
  apply abr_serialize_roundtrip; [|reflexivity|by vm_compute].
  split; [split|..|split| | | |split| ]; try reflexivity; unfold slot_wf; by_compute.
Defined.
