(* ===== verification/AbrSpec.v ===== *)
(** * libabr: an abstract slot machine and the refinement to it

    The abstract state of the device's slots forgets the bytes: each of the
    slots A and B has a priority and is unbootable, has some tries left, or is
    known good; two one-shot flags complete it. The API of libabr, run on any
    storage that keeps what is written to it ([AbrStore]), implements the
    operations of this machine; a 32-byte array is such a storage. *)

From S2P Require Import Prelude SafeMath LibError Abr AbrFormat.

(** ** The abstract machine *)

Inductive SlotSt := Unboot | Try (n : Z) | Good.
Record SpecSlot := mkSpecSlot { sp_prio : Z; sp_state : SlotSt }.
Record Spec := mkSpec { sp_a : SpecSlot; sp_b : SpecSlot; sp_flags : Z }.
#[global] Instance SlotSt_eq_dec : EqDecision SlotSt.
Proof. solve_decision. Defined.
#[global] Instance SpecSlot_eq_dec : EqDecision SpecSlot.
Proof. solve_decision. Defined.
#[global] Instance Spec_eq_dec : EqDecision Spec.
Proof. solve_decision. Defined.

Definition sp_bootable (s : SpecSlot) : bool :=
  match sp_state s with Unboot => false | _ => true end.
Definition sp_good (s : SpecSlot) : bool :=
  match sp_state s with Good => true | _ => false end.

(** The bootable slot of the highest priority, A if they are equal; R if
    neither can be booted. *)
Definition sp_pick (v : Spec) : SlotIndex :=
  if sp_bootable (sp_b v) && (negb (sp_bootable (sp_a v)) || (sp_prio (sp_a v) <? sp_prio (sp_b v)))
  then SlotB else if sp_bootable (sp_a v) then SlotA else SlotR.

(** A boot of the slot consumes a try, unless it is known good. *)
Definition sp_use (s : SpecSlot) : SpecSlot :=
  match sp_state s with
  | Try n => mkSpecSlot (sp_prio s) (if n =? 1 then Unboot else Try (n - 1))
  | _ => s
  end.
(** A slot that is not booted is no longer known good. *)
Definition sp_doubt (s : SpecSlot) : SpecSlot :=
  match sp_state s with
  | Good => mkSpecSlot (sp_prio s) (Try ABR_MAX_TRIES_REMAINING)
  | _ => s
  end.
Definition sp_boot (v : Spec) : SlotIndex * bool * Spec :=
  match sp_pick v with
  | SlotA => (SlotA, sp_good (sp_a v), mkSpec (sp_use (sp_a v)) (sp_doubt (sp_b v)) (sp_flags v))
  | SlotB => (SlotB, sp_good (sp_b v), mkSpec (sp_doubt (sp_a v)) (sp_use (sp_b v)) (sp_flags v))
  | SlotR => (SlotR, false, mkSpec (sp_doubt (sp_a v)) (sp_doubt (sp_b v)) (sp_flags v))
  end.

Definition sp_get (v : Spec) (i : SlotIndex) : SpecSlot :=
  match i with SlotA => sp_a v | _ => sp_b v end.
(** Both slots, the one named first. *)
Definition sp_set (i : SlotIndex) (this that : SpecSlot) (v : Spec) : Spec :=
  match i with
  | SlotA => mkSpec this that (sp_flags v)
  | _ => mkSpec that this (sp_flags v)
  end.
Definition sp_other (i : SlotIndex) : SlotIndex :=
  match i with SlotA => SlotB | _ => SlotA end.
Definition sp_with_flags (f : Z) (v : Spec) : Spec := mkSpec (sp_a v) (sp_b v) f.

(** The API calls that can change the metadata, and what they return. *)
Inductive api :=
| GetBootSlot (update : bool)
| MarkActive (i : SlotIndex)
| MarkUnbootable (i : SlotIndex)
| MarkSuccessful (i : SlotIndex)
| SetRecovery (enable : bool)
| SetBootloader (enable : bool)
| ClearFlags
| ClearBootloader.
Inductive ret := RSlot (i : SlotIndex) (good : bool) | RUnit | RFlags (f : Z) | RBool (b : bool).

Definition spec_api (op : api) (v : Spec) : outcome Error ret * Spec :=
  match op with
  | GetBootSlot upd =>
      if upd && negb (Z.land (sp_flags v) ONE_SHOT_RECOVERY =? 0) then
        (Ok (RSlot SlotR false),
         sp_with_flags (Z.land (sp_flags v) (bit_not 8 ONE_SHOT_RECOVERY)) v)
      else
        let '(i, good, v') := sp_boot v in
        (Ok (RSlot i good), if upd then v' else v)
  | MarkActive i =>
      if bool_decide (i = SlotR) then (Err InvalidInput, v) else
      let that := sp_get v (sp_other i) in
      (Ok RUnit,
       sp_set i (mkSpecSlot ABR_MAX_PRIORITY (Try ABR_MAX_TRIES_REMAINING))
         (mkSpecSlot (Z.min (sp_prio that) (ABR_MAX_PRIORITY - 1)) (sp_state that)) v)
  | MarkUnbootable i =>
      if bool_decide (i = SlotR) then (Err InvalidInput, v) else
      (Ok RUnit,
       sp_set i (mkSpecSlot (sp_prio (sp_get v i)) Unboot) (sp_get v (sp_other i)) v)
  | MarkSuccessful i =>
      if bool_decide (i = SlotR) then (Err InvalidInput, v) else
      if negb (sp_bootable (sp_get v i)) then (Err InvalidInput, v) else
      let that := sp_get v (sp_other i) in
      (Ok RUnit,
       sp_set i (mkSpecSlot (sp_prio (sp_get v i)) Good)
         (if sp_bootable that
          then mkSpecSlot (sp_prio that) (Try ABR_MAX_TRIES_REMAINING) else that) v)
  | SetRecovery enable =>
      (Ok RUnit, sp_with_flags
         (if enable then Z.lor (sp_flags v) ONE_SHOT_RECOVERY
          else Z.land (sp_flags v) (bit_not 8 ONE_SHOT_RECOVERY)) v)
  | SetBootloader enable =>
      (Ok RUnit, sp_with_flags
         (if enable then Z.lor (sp_flags v) ONE_SHOT_BOOTLOADER
          else Z.land (sp_flags v) (bit_not 8 ONE_SHOT_BOOTLOADER)) v)
  | ClearFlags => (Ok (RFlags (sp_flags v)), sp_with_flags 0 v)
  | ClearBootloader =>
      (Ok (RBool (negb (Z.land (sp_flags v) ONE_SHOT_BOOTLOADER =? 0))),
       sp_with_flags (Z.land (sp_flags v) (bit_not 8 ONE_SHOT_BOOTLOADER)) v)
  end.

(** The same calls on the code's side. *)
Definition run_api {D} `{!Ops D} (op : api) : ST D Error ret :=
  match op with
  | GetBootSlot upd => '(i, g) ← get_boot_slot upd; mret (RSlot i g)
  | MarkActive i => mark_slot_active i;; mret RUnit
  | MarkUnbootable i => mark_slot_unbootable i;; mret RUnit
  | MarkSuccessful i => mark_slot_successful i;; mret RUnit
  | SetRecovery e => set_one_shot_recovery e;; mret RUnit
  | SetBootloader e => set_one_shot_bootloader e;; mret RUnit
  | ClearFlags => f ← get_and_clear_one_shot_flag; mret (RFlags f)
  | ClearBootloader => b ← get_and_clear_one_shot_bootloader; mret (RBool b)
  end.

(** ** The abstraction *)

Definition abs_slot (s : AbrSlotData) : SpecSlot :=
  mkSpecSlot (priority s)
    (if is_slot_bootable s
     then if successful_boot s =? 1 then Good else Try (tries_remaining s)
     else Unboot).
Definition abs (d : AbrData) : Spec :=
  mkSpec (abs_slot (slot_a d)) (abs_slot (slot_b d)) (one_shot_flags d).
(** What the API sees of a storage: [None] for an unsupported version. *)
Definition view {D} `{!Ops D} (st : D) : option Spec :=
  match load_metadata st with
  | (Ok (d, _), _) => Some (abs d)
  | _ => None
  end.
Definition storage_ok (st : bytes) : Prop := length st = 32%nat ∧ bytes_ok st.

(** ** Normal form of a slot *)

Record norm_slot (s : AbrSlotData) : Prop := {
  ns_wf : slot_wf s;
  ns_prio : priority s ≤ ABR_MAX_PRIORITY;
  ns_tries : tries_remaining s ≤ ABR_MAX_TRIES_REMAINING;
  ns_zero : priority s = 0 → tries_remaining s = 0 ∧ successful_boot s = 0;
  ns_succ : successful_boot s = 1 → tries_remaining s = 0;
}.

Lemma slot_wf_fields s :
  slot_wf s ↔ u8_ok (priority s) ∧ u8_ok (tries_remaining s) ∧
              u8_ok (successful_boot s) ∧ u8_ok (slot_reserved s).
Proof.
  unfold slot_wf, bytes_ok, slot_serialize. rewrite !Forall_cons. naive_solver.
Qed.

Ltac slot_tac :=
  repeat match goal with
  | H : norm_slot _ |- _ => destruct H as [? ? ? ? ?]
  | H : slot_wf _ |- _ => rewrite slot_wf_fields in H
  end;
  try (split; [rewrite slot_wf_fields|..]);
  unfold u8_ok, ABR_MAX_PRIORITY, ABR_MAX_TRIES_REMAINING in *; simpl in *;
  try lia.

Ltac slot_cases p t c :=
  rewrite ?Z.gtb_ltb;
  destruct (Z.ltb_spec 0 p), (Z.eqb_spec t 0), (Z.eqb_spec c 0); simpl;
  rewrite ?Z.gtb_ltb;
  try (destruct (Z.ltb_spec 0 t), (Z.eqb_spec c 1)); simpl.

Lemma slot_normalize_norm s : slot_wf s → norm_slot (slot_normalize s).
Proof.
  intros Hw. destruct s as [p t c r]. unfold slot_normalize. simpl.
  slot_cases p t c; slot_tac.
Qed.

Lemma slot_normalize_id s : norm_slot s → slot_normalize s = s.
Proof.
  intros Hn. destruct s as [p t c r]. unfold slot_normalize. simpl.
  slot_cases p t c; slot_tac;
    unfold set_slot_unbootable, set_successful, set_tries, set_priority; simpl; f_equal; lia.
Qed.

(** What every operation of the API maintains of the metadata it holds. *)
Record data_inv (d : AbrData) : Prop := {
  di_wf : data_wf d;
  di_magic : magic d = ABR_MAGIC;
  di_major : version_major d ≤ ABR_MAJOR_VERSION;
  di_a : norm_slot (slot_a d);
  di_b : norm_slot (slot_b d);
}.

Definition with_slots (d : AbrData) (a b : AbrSlotData) (f : Z) : AbrData :=
  mkData (magic d) (version_major d) (version_minor d) (reserved d) a b f
    (reserved2 d) (crc32_field d).

Lemma with_slots_inv d a b f :
  data_inv d → norm_slot a → norm_slot b → u8_ok f → data_inv (with_slots d a b f).
Proof.
  intros [[] ? ? ? ?] Ha Hb Hf. split; simpl; try done.
  split; simpl; try done; [apply Ha | apply Hb].
Qed.

Lemma set_crc_inv d c : data_inv d → u32_ok c → data_inv (set_crc c d).
Proof. intros [[] ? ? ? ?] Hc. by split. Qed.

Lemma default_inv : data_inv abr_default.
Proof.
  assert (H : ∀ p, u8_ok p → slot_wf (mkSlot p 7 0 0)).
  { intros. rewrite slot_wf_fields. simpl. unfold u8_ok in *. lia. }
  split; [split; [split|..|split| | | |split| ]|..]; try reflexivity; try by_compute;
    try (apply H; by_compute); try (by vm_compute);
    (split; [apply H; by_compute|..]; simpl; unfold ABR_MAX_PRIORITY,
      ABR_MAX_TRIES_REMAINING; lia).
Qed.

(** ** What the API relies on of its storage

    On a storage that is [store_ok], metadata loads or has an unsupported
    version; slots and flags that are saved are the ones that are loaded next;
    and not saving metadata that is as it was loaded changes nothing. *)
Class AbrStore (D : Type) `{!Ops D} := {
  store_ok : D → Prop;
  store_load st : store_ok st →
    load_metadata st = (Err UnsupportedVersion, st) ∨
    ∃ d orig, load_metadata st = (Ok (d, orig), st) ∧ data_inv d;
  store_save st d orig a b f :
    store_ok st → load_metadata st = (Ok (d, orig), st) → data_inv (with_slots d a b f) →
    ∃ st', save_metadata (with_slots d a b f) st = (Ok tt, st') ∧ store_ok st' ∧
           view st' = Some (abs (with_slots d a b f));
  store_same st d orig :
    store_ok st → load_metadata st = (Ok (d, orig), st) → data_inv orig → view st = Some (abs orig);
}.

(** ** Loading and saving on an array *)

Definition normalize_data (d : AbrData) : AbrData :=
  with_slots d (slot_normalize (slot_a d)) (slot_normalize (slot_b d)) (one_shot_flags d).

Lemma normalize_data_id d :
  norm_slot (slot_a d) → norm_slot (slot_b d) → normalize_data d = d.
Proof. intros. unfold normalize_data, with_slots. rewrite !slot_normalize_id by done. by destruct d. Qed.

(** The metadata [d] was loaded from [st]; [orig] is the copy that
    [save_metadata_if_changed] compares with. *)
Definition loaded (st : bytes) (d orig : AbrData) : Prop :=
  load_metadata st = (Ok (d, orig), st) ∧ data_inv d ∧
  (orig = abr_null ∨ (fst (serialize orig) = st ∧ d = normalize_data orig)).

Lemma load_metadata_from st r :
  deserialize st = (r, st) →
  load_metadata st =
    (match r with
     | Ok v => Ok (normalize_data v, v)
     | Err (Other e) => Err (Other e)
     | Err UnsupportedVersion => Err UnsupportedVersion
     | Err _ => Ok (normalize_data abr_default, abr_null)
     | Panic => Panic
     end, st).
Proof.
  intros H. unfold load_metadata. rewrite bind_run, attempt_run, H.
  destruct r as [v|e|]; [done| |done]. by destruct e.
Qed.

Lemma load_metadata_array st :
  storage_ok st →
  load_metadata st = (Err UnsupportedVersion, st) ∨ ∃ d orig, loaded st d orig.
Proof.
  intros [Hl Hb]. pose proof (deserialize_array st Hl) as Hd.
  destruct (parse_inv st Hl Hb) as (d & Hp & Hw & Hs). rewrite Hp in Hd.
  pose proof (load_metadata_from _ _ Hd) as HL.
  assert (Hdef : load_metadata st = (Ok (normalize_data abr_default, abr_null), st) →
                 ∃ d orig, loaded st d orig).
  { intros E. exists (normalize_data abr_default), abr_null.
    split_and!; [done|apply default_inv|by left]. }
  destruct (bool_decide (magic d = ABR_MAGIC)) eqn:E1; [|by right; apply Hdef].
  destruct (crc32_field d =? _) eqn:E2; [|by right; apply Hdef].
  cbn [negb] in HL. rewrite Z.gtb_ltb in HL.
  destruct (ABR_MAJOR_VERSION <? version_major d) eqn:E3; [by left|].
  bools. right. exists (normalize_data d), d. split_and!; [done| |].
  - split; simpl; try done; try (apply slot_normalize_norm; apply Hw).
    destruct Hw. split; simpl; try done; by apply ns_wf, slot_normalize_norm.
  - right. by rewrite Hs.
Qed.

Lemma view_load {D} `{!Ops D} (st st' : D) d orig :
  load_metadata st = (Ok (d, orig), st') → view st = Some (abs d).
Proof. intros H. unfold view. by rewrite H. Qed.

Lemma serialize_ok d : data_wf d → storage_ok (fst (serialize d)).
Proof.
  intros Hd. split; [by apply length_serialize|]. destruct Hd as [[] ? ? [] ? ? ? [] ?].
  unfold serialize. cbn [fst].
  repeat (apply bytes_ok_app; split); try done;
    try (by apply be_bytes_ok); by apply Forall_singleton.
Qed.

(** After a save of [d], the storage holds [d]. *)
Lemma save_metadata_array d st :
  data_inv d → storage_ok st →
  save_metadata d st = (Ok tt, fst (serialize d)) ∧
  storage_ok (fst (serialize d)) ∧ view (fst (serialize d)) = Some (abs d).
Proof.
  intros Hd [Hl Hb]. pose proof (length_serialize d (di_wf _ Hd)) as Hls.
  split_and!.
  - unfold save_metadata. cbn [write_abr_metadata ArrayOps]. unfold array_write.
    rewrite get_range_Some by lia. f_equal.
    unfold splice. rewrite Hls. simpl. rewrite drop_ge by lia. by rewrite app_nil_r.
  - apply serialize_ok, Hd.
  - unfold view.
    assert (Hds : deserialize (fst (serialize d)) = (Ok (snd (serialize d)), fst (serialize d))).
    { pose proof (parse_serialize d (di_wf _ Hd)) as (Hp & _ & Hc).
      rewrite deserialize_array by done. rewrite Hp.
      rewrite bool_decide_true by (apply Hd). rewrite <-Hc, Z.eqb_refl.
      cbn [negb version_major snd serialize set_crc].
      rewrite Z.gtb_ltb, (proj2 (Z.ltb_ge _ _)) by apply Hd. done. }
    rewrite (load_metadata_from _ _ Hds).
    rewrite normalize_data_id by (apply Hd). done.
Qed.

(** An array of 32 bytes is a storage of the API. *)
#[global] Program Instance ArrayStore : AbrStore bytes := {| store_ok := storage_ok |}.
Next Obligation.
  intros st H. destruct (load_metadata_array st H) as [|(d & o & ? & ? & _)]; eauto.
Qed.
Next Obligation.
  intros st d orig a b f Hst _ Hd. destruct (save_metadata_array _ st Hd Hst) as (? & ? & ?). eauto.
Qed.
Next Obligation.
  intros st d orig Hst HL Ho. rewrite (view_load _ _ _ _ HL).
  destruct (load_metadata_array st Hst) as [H|(d' & o' & H & _ & Hc)]; [congruence|].
  rewrite HL in H. injection H as <- <-. destruct Hc as [->|[_ ->]].
  - destruct Ho as [_ Hm _ _ _]. done.
  - by rewrite normalize_data_id by apply Ho.
Qed.

(** ** Refinement, operation by operation *)

Section Refine.
Context {D : Type} `{!Ops D, !AbrStore D} (st : D) (d orig : AbrData).
Hypothesis Hst : store_ok st.
Hypothesis HL : load_metadata st = (Ok (d, orig), st).

(** What a call must do on this storage. *)
Definition implements (op : api) : Prop :=
  ∃ st', run_api op st = (fst (spec_api op (abs d)), st') ∧
         store_ok st' ∧ view st' = Some (snd (spec_api op (abs d))).

Lemma load_ok : load_metadata st = (Ok (d, orig), st).
Proof. apply HL. Qed.
Lemma inv_d : data_inv d.
Proof. destruct (store_load st Hst) as [H|(? & ? & H & Hd)]; rewrite HL in H; by simplify_eq. Qed.

(** The common ending of the calls: new slots and flags are saved if they differ. *)
Lemma finish a b f :
  norm_slot a → norm_slot b → u8_ok f → ∃ st',
  save_metadata_if_changed (with_slots d a b f) orig st = (Ok tt, st') ∧
  store_ok st' ∧ view st' = Some (abs (with_slots d a b f)).
Proof.
  intros Ha Hb Hf. assert (Hd : data_inv (with_slots d a b f)) by auto using with_slots_inv, inv_d.
  unfold save_metadata_if_changed. case_bool_decide as E; [|by apply store_save with orig].
  exists st. rewrite E in *. split_and!; [done..|]. by apply store_same with d.
Qed.

Lemma wf_flags_d : u8_ok (one_shot_flags d).
Proof. apply inv_d. Qed.

Lemma unchanged op r :
  run_api op st = (r, st) → spec_api op (abs d) = (r, abs d) → implements op.
Proof.
  intros H1 H2. exists st. rewrite H1, H2. split_and!; try done.
  exact (view_load _ _ _ _ HL).
Qed.

Lemma flags_ok_lor f m : u8_ok f → u8_ok m → u8_ok (Z.lor f m).
Proof. apply (lor_bound 8). lia. Qed.

Lemma flags_ok_land f m : u8_ok f → 0 ≤ m → u8_ok (Z.land f m).
Proof. apply (land_bound 8). lia. Qed.

Lemma refine_flags_only op f r :
  u8_ok f →
  run_api op st = (let '(x, s) := save_metadata_if_changed (set_flags f d) orig st in
                   match x with Ok _ => (Ok r, s) | Err e => (Err e, s) | Panic => (Panic, s) end) →
  spec_api op (abs d) = (Ok r, sp_with_flags f (abs d)) → implements op.
Proof.
  intros Hf H1 H2. unfold implements.
  destruct (finish (slot_a d) (slot_b d) f) as (st' & E & O & V); [apply inv_d..|done|].
  change (with_slots _ _ _ _) with (set_flags f d) in *. rewrite E in H1. exists st'. rewrite H1, H2. done.
Qed.

Lemma refine_set_recovery e : implements (SetRecovery e).
Proof.
  apply refine_flags_only with
    (if e then Z.lor (one_shot_flags d) ONE_SHOT_RECOVERY
     else Z.land (one_shot_flags d) (bit_not 8 ONE_SHOT_RECOVERY)) RUnit; [..|done].
  - pose proof wf_flags_d. destruct e;
      [apply flags_ok_lor | apply flags_ok_land]; try done; by_compute.
  - cbn [run_api]. unfold set_one_shot_recovery.
    rewrite !bind_run, load_ok. unfold data_set_one_shot_recovery.
    destruct e; by destruct (save_metadata_if_changed _ _ _) as [[] ?].
Qed.

Lemma refine_set_bootloader e : implements (SetBootloader e).
Proof.
  apply refine_flags_only with
    (if e then Z.lor (one_shot_flags d) ONE_SHOT_BOOTLOADER
     else Z.land (one_shot_flags d) (bit_not 8 ONE_SHOT_BOOTLOADER)) RUnit; [..|done].
  - pose proof wf_flags_d. destruct e;
      [apply flags_ok_lor | apply flags_ok_land]; try done; by_compute.
  - cbn [run_api]. unfold set_one_shot_bootloader.
    rewrite !bind_run, load_ok. unfold data_set_one_shot_bootloader.
    destruct e; by destruct (save_metadata_if_changed _ _ _) as [[] ?].
Qed.

Lemma refine_clear_flags : implements ClearFlags.
Proof.
  apply refine_flags_only with 0 (RFlags (one_shot_flags d)); [by_compute| |done].
  cbn [run_api]. unfold get_and_clear_one_shot_flag.
  rewrite !bind_run, load_ok. cbv beta iota. rewrite bind_run.
  by destruct (save_metadata_if_changed _ _ _) as [[] ?].
Qed.

Lemma refine_clear_bootloader : implements ClearBootloader.
Proof.
  apply refine_flags_only with (Z.land (one_shot_flags d) (bit_not 8 ONE_SHOT_BOOTLOADER))
    (RBool (negb (Z.land (one_shot_flags d) ONE_SHOT_BOOTLOADER =? 0))); [| |done].
  - apply flags_ok_land; [apply wf_flags_d|by_compute].
  - cbn [run_api]. unfold get_and_clear_one_shot_bootloader.
    rewrite !bind_run, load_ok. cbv beta iota. rewrite bind_run.
    by destruct (save_metadata_if_changed _ _ _) as [[] ?].
Qed.

(** The calls that rewrite both slots. *)
Lemma refine_slots op a b f r :
  norm_slot a → norm_slot b → u8_ok f →
  run_api op st = (let '(x, s) := save_metadata_if_changed (with_slots d a b f) orig st in
                   match x with Ok _ => (Ok r, s) | Err e => (Err e, s) | Panic => (Panic, s) end) →
  spec_api op (abs d) = (Ok r, mkSpec (abs_slot a) (abs_slot b) f) → implements op.
Proof.
  intros Ha Hb Hf H1 H2. unfold implements.
  destruct (finish a b f) as (st' & E & O & V); [done..|]. rewrite E in H1. exists st'. rewrite H1, H2. done.
Qed.

Lemma norm_a : norm_slot (slot_a d).
Proof. apply inv_d. Qed.
Lemma norm_b : norm_slot (slot_b d).
Proof. apply inv_d. Qed.

Ltac run_slots := rewrite !bind_run, load_ok; reflexivity.

Lemma norm_active p : norm_slot (mkSlot ABR_MAX_PRIORITY ABR_MAX_TRIES_REMAINING 0 p) ↔ u8_ok p.
Proof.
  split; intros H.
  - destruct H as [Hw _ _ _ _]. rewrite slot_wf_fields in Hw. apply Hw.
  - split; [rewrite slot_wf_fields|..]; unfold u8_ok, ABR_MAX_PRIORITY,
      ABR_MAX_TRIES_REMAINING in *; simpl; lia.
Qed.

Lemma norm_lower s p :
  norm_slot s → 0 < p ≤ ABR_MAX_PRIORITY → norm_slot (set_priority (Z.min (priority s) p) s).
Proof.
  intros H Hp. destruct s as [q t c r]. destruct H as [Hw ? ? ? ?].
  rewrite slot_wf_fields in Hw. unfold u8_ok, ABR_MAX_PRIORITY, ABR_MAX_TRIES_REMAINING in *.
  simpl in *. split; [rewrite slot_wf_fields; unfold u8_ok|..];
    unfold ABR_MAX_PRIORITY, ABR_MAX_TRIES_REMAINING; simpl; try lia.
Qed.

Lemma abs_lower s p :
  0 < p → abs_slot (set_priority (Z.min (priority s) p) s) =
          mkSpecSlot (Z.min (priority s) p) (sp_state (abs_slot s)).
Proof.
  intros Hp. unfold abs_slot, is_slot_bootable. simpl. do 2 f_equal.
  rewrite !Z.gtb_ltb. destruct (Z.ltb_spec 0 (priority s)), (Z.ltb_spec 0 (Z.min (priority s) p));
    simpl; try lia; done.
Qed.

Lemma reserved_ok s : norm_slot s → u8_ok (slot_reserved s).
Proof. intros [Hw _ _ _ _]. rewrite slot_wf_fields in Hw. apply Hw. Qed.

Lemma refine_mark_active i : implements (MarkActive i).
Proof.
  pose proof norm_a as Na. pose proof norm_b as Nb.
  destruct i; [..|by apply unchanged with (Err InvalidInput)].
  - apply refine_slots with
      (mkSlot ABR_MAX_PRIORITY ABR_MAX_TRIES_REMAINING 0 (slot_reserved (slot_a d)))
      (set_priority (Z.min (priority (slot_b d)) (ABR_MAX_PRIORITY - 1)) (slot_b d))
      (one_shot_flags d) RUnit.
    + apply norm_active, reserved_ok, Na.
    + apply norm_lower; [done|unfold ABR_MAX_PRIORITY; lia].
    + apply wf_flags_d.
    + cbn [run_api]. unfold mark_slot_active. simpl. run_slots.
    + cbn [spec_api]. rewrite abs_lower by (unfold ABR_MAX_PRIORITY; lia). done.
  - apply refine_slots with
      (set_priority (Z.min (priority (slot_a d)) (ABR_MAX_PRIORITY - 1)) (slot_a d))
      (mkSlot ABR_MAX_PRIORITY ABR_MAX_TRIES_REMAINING 0 (slot_reserved (slot_b d)))
      (one_shot_flags d) RUnit.
    + apply norm_lower; [done|unfold ABR_MAX_PRIORITY; lia].
    + apply norm_active, reserved_ok, Nb.
    + apply wf_flags_d.
    + cbn [run_api]. unfold mark_slot_active. simpl. run_slots.
    + cbn [spec_api]. rewrite abs_lower by (unfold ABR_MAX_PRIORITY; lia). done.
Qed.

Lemma norm_unbootable s : norm_slot s → norm_slot (set_slot_unbootable s).
Proof. intros H. destruct s. slot_tac. Qed.

Lemma abs_unbootable s :
  abs_slot (set_slot_unbootable s) = mkSpecSlot (priority s) Unboot.
Proof. unfold abs_slot, is_slot_bootable. simpl. by rewrite andb_false_r. Qed.

Lemma refine_mark_unbootable i : implements (MarkUnbootable i).
Proof.
  pose proof norm_a as Na. pose proof norm_b as Nb.
  destruct i; [..|by apply unchanged with (Err InvalidInput)].
  - apply refine_slots with (set_slot_unbootable (slot_a d)) (slot_b d) (one_shot_flags d) RUnit;
      auto using norm_unbootable, wf_flags_d.
    + cbn [run_api]. unfold mark_slot_unbootable. simpl. run_slots.
    + cbn [spec_api]. by rewrite abs_unbootable.
  - apply refine_slots with (slot_a d) (set_slot_unbootable (slot_b d)) (one_shot_flags d) RUnit;
      auto using norm_unbootable, wf_flags_d.
    + cbn [run_api]. unfold mark_slot_unbootable. simpl. run_slots.
    + cbn [spec_api]. by rewrite abs_unbootable.
Qed.

(** Marking a slot as good: the slot itself and, if bootable, the other. *)
Definition good_slot (s : AbrSlotData) : AbrSlotData := set_successful 1 (set_tries 0 s).
Definition retry_slot (s : AbrSlotData) : AbrSlotData :=
  set_successful 0 (set_tries ABR_MAX_TRIES_REMAINING s).
Definition retry_if_bootable (s : AbrSlotData) : AbrSlotData :=
  if is_slot_bootable s then retry_slot s else s.

Lemma bootable_prio s : is_slot_bootable s = true → 0 < priority s.
Proof. unfold is_slot_bootable. rewrite Z.gtb_ltb. intros. by bools. Qed.

Lemma norm_good s : norm_slot s → is_slot_bootable s = true → norm_slot (good_slot s).
Proof. intros H Hb%bootable_prio. destruct s. slot_tac. Qed.

Lemma abs_good s :
  is_slot_bootable s = true → abs_slot (good_slot s) = mkSpecSlot (priority s) Good.
Proof.
  intros H%bootable_prio. unfold abs_slot, is_slot_bootable. simpl.
  by rewrite Z.gtb_ltb, (proj2 (Z.ltb_lt _ _)).
Qed.

Lemma norm_retry s : norm_slot s → 0 < priority s → norm_slot (retry_slot s).
Proof. intros H Hb. destruct s. unfold retry_slot. slot_tac. Qed.

Lemma abs_retry s :
  0 < priority s → abs_slot (retry_slot s) = mkSpecSlot (priority s) (Try ABR_MAX_TRIES_REMAINING).
Proof.
  intros H. unfold abs_slot, is_slot_bootable. simpl.
  by rewrite Z.gtb_ltb, (proj2 (Z.ltb_lt _ _)).
Qed.

Lemma norm_retry_if s : norm_slot s → norm_slot (retry_if_bootable s).
Proof.
  intros H. unfold retry_if_bootable. destruct (is_slot_bootable s) eqn:E; [|done].
  by apply norm_retry, bootable_prio.
Qed.

Lemma sp_bootable_abs s : sp_bootable (abs_slot s) = is_slot_bootable s.
Proof. unfold sp_bootable, abs_slot. simpl. destruct (is_slot_bootable s), (successful_boot s =? 1); done. Qed.

Lemma sp_good_abs s : norm_slot s → sp_good (abs_slot s) = (successful_boot s =? 1).
Proof.
  intros H. unfold sp_good, abs_slot, is_slot_bootable. simpl. rewrite !Z.gtb_ltb.
  destruct s as [p t c r]. simpl. slot_tac.
  destruct (Z.ltb_spec 0 p), (Z.eqb_spec c 1); simpl; try done; try lia.
  by destruct (0 <? t).
Qed.

Lemma abs_retry_if s :
  abs_slot (retry_if_bootable s) =
    if sp_bootable (abs_slot s)
    then mkSpecSlot (priority s) (Try ABR_MAX_TRIES_REMAINING) else abs_slot s.
Proof.
  rewrite sp_bootable_abs. unfold retry_if_bootable.
  destruct (is_slot_bootable s) eqn:E; [|done]. by apply abs_retry, bootable_prio.
Qed.

Lemma refine_mark_successful i : implements (MarkSuccessful i).
Proof.
  pose proof norm_a as Na. pose proof norm_b as Nb.
  destruct i; [..|by apply unchanged with (Err InvalidInput)].
  - destruct (is_slot_bootable (slot_a d)) eqn:E.
    + apply refine_slots with (good_slot (slot_a d)) (retry_if_bootable (slot_b d))
        (one_shot_flags d) RUnit; auto using norm_good, norm_retry_if, wf_flags_d.
      * cbn [run_api]. unfold mark_slot_successful, retry_if_bootable.
        simpl. rewrite !bind_run, load_ok, lift_ok_bind, E.
        cbn [negb]. rewrite !lift_ok_bind. cbn [slot_data slot_a slot_b]. rewrite lift_ok_bind.
        by destruct (is_slot_bootable (slot_b d)).
      * cbn -[abs_slot]. rewrite sp_bootable_abs, E, abs_good, abs_retry_if by done. done.
    + apply unchanged with (Err InvalidInput).
      * cbn [run_api]. unfold mark_slot_successful. simpl. by rewrite !bind_run, load_ok, lift_ok_bind, E.
      * cbn -[abs_slot]. by rewrite sp_bootable_abs, E.
  - destruct (is_slot_bootable (slot_b d)) eqn:E.
    + apply refine_slots with (retry_if_bootable (slot_a d)) (good_slot (slot_b d))
        (one_shot_flags d) RUnit; auto using norm_good, norm_retry_if, wf_flags_d.
      * cbn [run_api]. unfold mark_slot_successful, retry_if_bootable.
        simpl. rewrite !bind_run, load_ok, lift_ok_bind, E.
        cbn [negb]. rewrite !lift_ok_bind. cbn [slot_data slot_a slot_b]. rewrite lift_ok_bind.
        by destruct (is_slot_bootable (slot_a d)).
      * cbn -[abs_slot]. rewrite sp_bootable_abs, E, abs_good, abs_retry_if by done. done.
    + apply unchanged with (Err InvalidInput).
      * cbn [run_api]. unfold mark_slot_successful. simpl. by rewrite !bind_run, load_ok, lift_ok_bind, E.
      * cbn -[abs_slot]. by rewrite sp_bootable_abs, E.
Qed.

(** A boot: the slot booted and the one that is not. *)
Definition use_slot (s : AbrSlotData) : AbrSlotData :=
  if successful_boot s =? 1 then s else set_tries (tries_remaining s - 1) s.
Definition doubt_slot (s : AbrSlotData) : AbrSlotData :=
  if successful_boot s =? 1 then retry_slot s else s.

Lemma bootable_norm s :
  norm_slot s → is_slot_bootable s = (0 <? priority s) && ((successful_boot s =? 1) || (0 <? tries_remaining s)).
Proof. intros. unfold is_slot_bootable. by rewrite !Z.gtb_ltb. Qed.

Lemma good_prio s : norm_slot s → successful_boot s = 1 → 0 < priority s.
Proof. intros H Hs. destruct s. slot_tac. Qed.

Lemma norm_use s : norm_slot s → is_slot_bootable s = true → norm_slot (use_slot s).
Proof.
  intros H Hb. rewrite bootable_norm in Hb by done. unfold use_slot.
  destruct s as [p t c r]. simpl in *. destruct (Z.eqb_spec c 1); [done|].
  simpl in *. bools. slot_tac.
Qed.

Lemma abs_use s :
  norm_slot s → is_slot_bootable s = true → abs_slot (use_slot s) = sp_use (abs_slot s).
Proof.
  intros H Hb. unfold abs_slot at 2. rewrite Hb. rewrite bootable_norm in Hb by done.
  unfold use_slot. destruct s as [p t c r]. simpl in *.
  destruct (Z.eqb_spec c 1) as [->|Hc]; simpl in *; bools.
  - unfold abs_slot, is_slot_bootable. simpl.
    by rewrite Z.gtb_ltb, (proj2 (Z.ltb_lt _ _)) by done.
  - unfold abs_slot, is_slot_bootable, sp_use. simpl.
    rewrite !Z.gtb_ltb, (proj2 (Z.ltb_lt _ _)), (proj2 (Z.eqb_neq _ _)) by done. simpl.
    destruct (Z.ltb_spec 0 (t - 1)), (Z.eqb_spec t 1); done || lia.
Qed.

Lemma norm_doubt s : norm_slot s → norm_slot (doubt_slot s).
Proof.
  intros H. unfold doubt_slot. case_if; [|done]. bools. by apply norm_retry, good_prio.
Qed.

Lemma abs_doubt s : norm_slot s → abs_slot (doubt_slot s) = sp_doubt (abs_slot s).
Proof.
  intros H. pose proof (sp_good_abs s H) as Hg. unfold doubt_slot. rewrite <-Hg.
  unfold sp_good, sp_doubt in *. destruct (sp_state (abs_slot s)) eqn:E; try done.
  symmetry in Hg. bools. rewrite abs_retry by by apply good_prio. done.
Qed.

Lemma get_active_slot_pick d0 :
  norm_slot (slot_a d0) → norm_slot (slot_b d0) → get_active_slot d0 = sp_pick (abs d0).
Proof.
  intros Ha Hb. unfold get_active_slot, sp_pick, get_normalized_priority. simpl.
  rewrite !sp_bootable_abs, !Z.gtb_ltb.
  destruct (is_slot_bootable (slot_a d0)) eqn:Ea, (is_slot_bootable (slot_b d0)) eqn:Eb;
    simpl; try apply bootable_prio in Ea; try apply bootable_prio in Eb;
    repeat (case_if; bools; try lia); done.
Qed.

(** The slot picked is bootable. *)
Lemma pick_bootable d0 i :
  sp_pick (abs d0) = i →
  match i with
  | SlotA => is_slot_bootable (slot_a d0) = true
  | SlotB => is_slot_bootable (slot_b d0) = true
  | SlotR => is_slot_bootable (slot_a d0) = false ∧ is_slot_bootable (slot_b d0) = false
  end.
Proof.
  unfold sp_pick. simpl. rewrite !sp_bootable_abs.
  destruct (is_slot_bootable (slot_a d0)), (is_slot_bootable (slot_b d0)); simpl;
    try case_if; intros <-; done.
Qed.

(** What a boot writes back. *)
Definition booted (d0 : AbrData) : AbrData :=
  match sp_pick (abs d0) with
  | SlotA => with_slots d0 (use_slot (slot_a d0)) (doubt_slot (slot_b d0)) (one_shot_flags d0)
  | SlotB => with_slots d0 (doubt_slot (slot_a d0)) (use_slot (slot_b d0)) (one_shot_flags d0)
  | SlotR => with_slots d0 (doubt_slot (slot_a d0)) (doubt_slot (slot_b d0)) (one_shot_flags d0)
  end.

Lemma booted_inv d0 : data_inv d0 → data_inv (booted d0).
Proof.
  intros Hd. unfold booted. pose proof (pick_bootable d0 _ eq_refl) as Hp.
  destruct (sp_pick (abs d0)); apply with_slots_inv; auto;
    solve [apply norm_use; [apply Hd|done] | apply norm_doubt, Hd | apply Hd].
Qed.

Lemma booted_abs d0 : data_inv d0 → abs (booted d0) = snd (sp_boot (abs d0)).
Proof.
  intros Hd. unfold booted, sp_boot. pose proof (pick_bootable d0 _ eq_refl) as Hp.
  destruct (sp_pick (abs d0)); unfold abs; simpl;
    rewrite ?abs_use, ?abs_doubt; try done; apply Hd.
Qed.

End Refine.

Lemma tries_dec s :
  norm_slot s → is_slot_bootable s = true → (successful_boot s =? 1) = false →
  checked 8 (tries_remaining s - 1) = Some (tries_remaining s - 1).
Proof.
  intros H Hb Hs. rewrite bootable_norm, Hs in Hb by done. bools. simpl in *. bools.
  apply checked_Some. slot_tac.
Qed.

Lemma clear_a i d :
  clear_other_successful i SlotA d =
    Ok (with_slots d (if decide (i = SlotA) then slot_a d else doubt_slot (slot_a d))
          (slot_b d) (one_shot_flags d)).
Proof.
  unfold clear_other_successful, doubt_slot. destruct d as [? ? ? ? sa ? ? ? ?], i; simpl;
    by destruct (successful_boot sa =? 1).
Qed.

Lemma clear_b i d :
  clear_other_successful i SlotB d =
    Ok (with_slots d (slot_a d)
          (if decide (i = SlotB) then slot_b d else doubt_slot (slot_b d)) (one_shot_flags d)).
Proof.
  unfold clear_other_successful, doubt_slot. destruct d as [? ? ? ? ? sb ? ? ?], i; simpl;
    by destruct (successful_boot sb =? 1).
Qed.

#[local] Arguments clear_other_successful : simpl never.
(** The update of the metadata in [choose_boot_slot]. *)
Lemma boot_update d :
  data_inv d →
  let i := sp_pick (abs d) in
  (d1 ← (if negb (bool_decide (i = SlotR)) && negb (snd (fst (sp_boot (abs d)))) then
           s ← slot_data d i;
           t ← unwrap (checked 8 (tries_remaining s - 1));
           slot_data_mut i (set_tries t) d
         else Ok d);
   d2 ← clear_other_successful i SlotA d1;
   clear_other_successful i SlotB d2) = Ok (E:=Error) (booted d).
Proof.
  intros Hd. pose proof (di_a _ Hd) as Ha. pose proof (di_b _ Hd) as Hb.
  pose proof (pick_bootable d _ eq_refl) as Hp.
  pose proof (tries_dec (slot_a d) Ha) as Ta. pose proof (tries_dec (slot_b d) Hb) as Tb.
  unfold sp_boot, booted, use_slot.
  destruct (sp_pick (abs d)); simpl; rewrite ?sp_good_abs by done.
  - destruct (successful_boot (slot_a d) =? 1); cbn [negb andb]; [|rewrite Ta by done];
      cbn [unwrap slot_data slot_data_mut]; rewrite !ok_bind, ?clear_a, ?ok_bind, clear_b; done.
  - destruct (successful_boot (slot_b d) =? 1); cbn [negb andb]; [|rewrite Tb by done];
      cbn [unwrap slot_data slot_data_mut]; rewrite !ok_bind, ?clear_a, ?ok_bind, clear_b; done.
  - rewrite ?ok_bind, ?clear_a, ?ok_bind, clear_b. done.
Qed.

Lemma lift_three {S E A B} (m : outcome E A) (f g : A → outcome E A) (k : A → ST S E B) s :
  (a ← lift m; b ← lift (f a); c ← lift (g b); k c) s =
  (c ← lift (a ← m; b ← f a; g b); k c) s.
Proof. cbv [mbind ST_bind lift outcome_bind]. destruct m as [a| |]; try done. by destruct (f a). Qed.

(** [choose_boot_slot] on any storage: it writes back [booted d], ignores a
    failure of the write and returns what the abstract machine says. *)
Lemma choose_boot_slot_run {D} `{!Ops D} upd d orig (s : D) :
  data_inv d →
  choose_boot_slot upd d orig s =
    let r := Ok (fst (sp_boot (abs d))) in
    if upd then match save_metadata_if_changed (booted d) orig s with
                | (Panic, s') => (Panic, s')
                | (_, s') => (r, s')
                end
    else (r, s).
Proof.
  intros Hd. pose proof (di_a _ Hd) as Ha. pose proof (di_b _ Hd) as Hb.
  pose proof (boot_update d Hd) as HU. cbv zeta in HU.
  unfold choose_boot_slot. rewrite get_active_slot_pick by done.
  rewrite (bind_run_ok _ _ s (snd (fst (sp_boot (abs d)))) s).
  2: { unfold sp_boot. destruct (sp_pick (abs d)); simpl; rewrite ?sp_good_abs by done; done. }
  assert (HB : fst (sp_boot (abs d)) = (sp_pick (abs d), snd (fst (sp_boot (abs d))))).
  { unfold sp_boot. by destruct (sp_pick (abs d)). }
  remember (snd (fst (sp_boot (abs d)))) as good. rewrite HB.
  destruct upd; [|done]. rewrite bind_run, lift_three, HU, lift_ok_bind, !bind_run, attempt_run.
  by destruct (save_metadata_if_changed _ _ _) as [[] ?].
Qed.

Lemma booted_slots d0 :
  ∃ a b, booted d0 = with_slots d0 a b (one_shot_flags d0).
Proof. unfold booted. destruct (sp_pick (abs d0)); eauto. Qed.

Section RefineAll.
Context {D : Type} `{!Ops D, !AbrStore D}.

Lemma refine_get_boot_slot (st : D) d orig upd :
  store_ok st → load_metadata st = (Ok (d, orig), st) → implements st d (GetBootSlot upd).
Proof.
  intros Hst HL. pose proof (inv_d _ _ _ Hst HL) as Hd. unfold implements.
  cbn [run_api spec_api]. unfold get_boot_slot.
  rewrite !bind_run, attempt_run, HL. cbv iota.
  change (sp_flags (abs d)) with (one_shot_flags d).
  fold (is_one_shot_recovery d). rewrite (andb_comm upd).
  destruct (is_one_shot_recovery d && upd) eqn:E.
  - bools. subst upd. rewrite bind_run, attempt_run.
    destruct (store_save st d orig (slot_a d) (slot_b d) (Z.land (one_shot_flags d) (bit_not 8 ONE_SHOT_RECOVERY)))
      as (st' & E1 & ? & ?); [done..| |].
    { apply with_slots_inv; [done|apply Hd..|]. apply flags_ok_land; [apply Hd|by_compute]. }
    unfold data_set_one_shot_recovery. change (set_flags ?f d) with (with_slots d (slot_a d) (slot_b d) f).
    rewrite E1. eexists; split_and!; done.
  - rewrite choose_boot_slot_run by done. rewrite (surjective_pairing (sp_boot (abs d))).
    rewrite (surjective_pairing (fst (sp_boot (abs d)))). destruct upd.
    + destruct (booted_slots d) as (a & b & Hb). pose proof (booted_inv d Hd) as Hi. rewrite Hb in Hi.
      destruct (finish st d orig Hst HL a b (one_shot_flags d)) as (st' & E1 & ? & Hv);
        [apply Hi..|apply Hd|]. rewrite <- Hb in E1, Hv. rewrite E1. exists st'. split_and!; try done.
      by rewrite <-booted_abs.
    + exists st. split_and!; try done. exact (view_load _ _ _ _ HL).
Qed.

(** Every call of the API, on a storage whose metadata can be loaded. *)
Lemma api_implements (st : D) d orig op :
  store_ok st → load_metadata st = (Ok (d, orig), st) → implements st d op.
Proof.
  intros. destruct op; eauto using refine_get_boot_slot, refine_mark_active,
    refine_mark_unbootable, refine_mark_successful, refine_set_recovery,
    refine_set_bootloader, refine_clear_flags, refine_clear_bootloader.
Qed.

End RefineAll.
