(* ===== verification/AbrProps.v ===== *)
(** * libabr: the properties of the slot library

    The refinement of sequences of API calls to the abstract slot machine of
    [AbrSpec], what loading does on every kind of storage content, the bound on
    unsuccessful boots, totality of the boot decision on any backend, and the
    handling of a backend that fails to read. *)

From S2P Require Import Prelude SafeMath LibError Abr AbrFormat AbrSpec.

(** ** Sequences of calls *)

(** The results of the calls, in order; the storage is threaded through. *)
Fixpoint run_trace {D} `{!Ops D} (ops : list api) (st : D) : list (outcome Error ret) * D :=
  match ops with
  | [] => ([], st)
  | op :: ops =>
      let '(r, st) := run_api op st in
      let '(rs, st) := run_trace ops st in (r :: rs, st)
  end.
Fixpoint spec_trace (ops : list api) (v : Spec) : list (outcome Error ret) * Spec :=
  match ops with
  | [] => ([], v)
  | op :: ops =>
      let '(r, v) := spec_api op v in
      let '(rs, v) := spec_trace ops v in (r :: rs, v)
  end.

Section Sequences.
Context {D : Type} `{!Ops D, !AbrStore D}.

Lemma view_cases (st : D) :
  store_ok st →
  (view st = None ∧ load_metadata st = (Err UnsupportedVersion, st)) ∨
  ∃ d orig, load_metadata st = (Ok (d, orig), st) ∧ data_inv d ∧ view st = Some (abs d).
Proof.
  intros Hst. destruct (store_load st Hst) as [H|(d & o & H & Hd)].
  - left. unfold view. by rewrite H.
  - right. exists d, o. eauto using view_load.
Qed.

Lemma step_refines (st : D) v op :
  store_ok st → view st = Some v →
  ∃ st', run_api op st = (fst (spec_api op v), st') ∧
         store_ok st' ∧ view st' = Some (snd (spec_api op v)).
Proof.
  intros Hst Hv. destruct (view_cases st Hst) as [[H _]|(d & o & HL & _ & H)]; [congruence|].
  rewrite H in Hv. simplify_eq. by apply (api_implements st d o op).
Qed.

Lemma trace_refines ops (st : D) v :
  store_ok st → view st = Some v →
  ∃ st', run_trace ops st = (fst (spec_trace ops v), st') ∧
         store_ok st' ∧ view st' = Some (snd (spec_trace ops v)).
Proof.
  revert st v. induction ops as [|op ops IH]; intros st v Hst Hv; simpl; [by exists st|].
  destruct (step_refines st v op Hst Hv) as (st1 & -> & Hst1 & Hv1).
  destruct (spec_api op v) as [r v1]. simpl in *.
  destruct (IH st1 v1 Hst1 Hv1) as (st2 & -> & ? & ?).
  destruct (spec_trace ops v1) as [rs v2]. eauto.
Qed.

End Sequences.

(** C1. Any sequence of API calls on a storage that keeps what is written to it,
    whose metadata has a supported version (valid, blank or corrupted), gives
    the results of the abstract slot machine and leaves a storage that
    represents its final state: which slot boots, which tries are consumed,
    when a slot stops being bootable, what the one-shot flags do, and every
    error of the calls. *)
Theorem abr_trace_refinement {D} `{!Ops D, !AbrStore D} ops (st : D) v :
  store_ok st → view st = Some v →
  ∃ st', run_trace ops st = (fst (spec_trace ops v), st') ∧
         store_ok st' ∧ view st' = Some (snd (spec_trace ops v)).
Proof. apply trace_refines. Qed.

Lemma abr_trace_refinement_witness :
  let st := replicate 32 0 in
  let ops := [GetBootSlot true; MarkSuccessful SlotA; GetBootSlot true; MarkActive SlotB;
              GetBootSlot true; MarkUnbootable SlotB; SetRecovery true; GetBootSlot true;
              GetBootSlot true; MarkSuccessful SlotB] in
  fst (run_trace ops st) =
    [Ok (RSlot SlotA false); Ok RUnit; Ok (RSlot SlotA true); Ok RUnit;
     Ok (RSlot SlotB false); Ok RUnit; Ok RUnit; Ok (RSlot SlotR false);
     Ok (RSlot SlotA false); Err InvalidInput].
Proof.
  cbv zeta.
  match goal with |- fst (run_trace ?ops ?st) = _ =>
    destruct (abr_trace_refinement ops st (abs abr_default)) as (st' & -> & _)
  end.
  - split; [done|by_compute].
  - vm_compute. reflexivity.
  - vm_compute. reflexivity.
Defined.

(** ** Unsupported metadata is never touched *)

Definition unsupported_result (op : api) : outcome Error ret :=
  match op with
  | GetBootSlot _ => Ok (RSlot SlotR false)
  | MarkActive SlotR | MarkUnbootable SlotR | MarkSuccessful SlotR => Err InvalidInput
  | _ => Err UnsupportedVersion
  end.

Lemma unsupported_step {D} `{!Ops D} (st : D) op :
  load_metadata st = (Err UnsupportedVersion, st) → run_api op st = (unsupported_result op, st).
Proof.
  intros H. destruct op as [u|i|i|i|e|e| |]; simpl; try (destruct i; simpl; try reflexivity);
    unfold get_boot_slot, mark_slot_active, mark_slot_unbootable, mark_slot_successful,
      set_one_shot_recovery, set_one_shot_bootloader, get_and_clear_one_shot_flag,
      get_and_clear_one_shot_bootloader; simpl;
    rewrite ?bind_run, ?attempt_run, ?bind_run, H; reflexivity.
Qed.

(** Metadata of a newer major version is not clobbered: every call leaves
    the storage as it is, the boot decision falls back to recovery and the
    other calls report the version, or the invalid slot. *)
Theorem abr_unsupported_version_preserved {D} `{!Ops D, !AbrStore D} (st : D) op :
  store_ok st → view st = None →
  run_api op st = (unsupported_result op, st).
Proof.
  intros Hst Hv. destruct (view_cases st Hst) as [[_ H]|(d & o & _ & _ & H)]; [|congruence].
  by apply unsupported_step.
Qed.

Lemma abr_unsupported_version_preserved_witness :
  let d := mkData ABR_MAGIC 3 0 [0; 0] (mkSlot 15 7 0 0) (mkSlot 14 7 0 0) 1 (replicate 11 0) 0 in
  let st := fst (serialize d) in
  run_api (MarkActive SlotB) st = (Err UnsupportedVersion, st) ∧
  run_api (GetBootSlot true) st = (Ok (RSlot SlotR false), st).
Proof.
  intros d st. assert (Hs : storage_ok st) by (split; [by vm_compute|by_compute]).
  assert (Hv : view st = None) by (by vm_compute).
  split; [exact (abr_unsupported_version_preserved st (MarkActive SlotB) Hs Hv)
         |exact (abr_unsupported_version_preserved st (GetBootSlot true) Hs Hv)].
Defined.

(** ** What loading sees *)

(** A stored slot, cleaned up. *)
Definition clean_slot (s : AbrSlotData) : SpecSlot :=
  if 0 <? priority s then
    mkSpecSlot (Z.min (priority s) 15)
      (if 0 <? tries_remaining s then
         Try (if successful_boot s =? 1 then 7 else Z.min (tries_remaining s) 7)
       else if successful_boot s =? 1 then Good else Unboot)
  else mkSpecSlot 0 Unboot.

Lemma abs_normalize s : slot_wf s → abs_slot (slot_normalize s) = clean_slot s.
Proof.
  intros Hw. rewrite slot_wf_fields in Hw. destruct s as [p t c r].
  unfold abs_slot, is_slot_bootable, clean_slot, slot_normalize, u8_ok in *. simpl in *.
  rewrite !Z.gtb_ltb. unfold set_slot_unbootable, set_successful, set_tries, set_priority,
    ABR_MAX_PRIORITY, ABR_MAX_TRIES_REMAINING.
  destruct (Z.ltb_spec 0 p), (Z.ltb_spec 0 t), (Z.eqb_spec t 0), (Z.eqb_spec c 0),
    (Z.eqb_spec c 1); try lia; simpl; subst; rewrite ?Z.gtb_ltb; lia_bools; simpl;
    lia_bools; simpl; f_equal; lia.
Qed.

(** What [load_metadata] makes of any 32 bytes: damaged metadata (magic or
    checksum) is replaced by the default one, in which both slots may be tried
    seven times and A comes first; metadata of a newer major version is refused;
    otherwise the slots are the stored ones, a slot without priority being
    unbootable, a slot that is both successful and has tries left being
    demoted to bootable, and priority and tries cut to their maxima. *)
Theorem abr_load_cases st d :
  storage_ok st → parse st = Ok d →
  let valid := bool_decide (magic d = ABR_MAGIC) && (crc32_field d =? crc32 (take 28 st)) in
  view st =
    if negb valid then Some (mkSpec (mkSpecSlot 15 (Try 7)) (mkSpecSlot 14 (Try 7)) 0)
    else if 2 <? version_major d then None
    else Some (mkSpec (clean_slot (slot_a d)) (clean_slot (slot_b d)) (one_shot_flags d)).
Proof.
  intros [Hl Hb] Hp. cbv zeta. pose proof (deserialize_array st Hl) as Hd.
  destruct (parse_inv st Hl Hb) as (d' & Hp' & Hw & _). rewrite Hp in Hp', Hd. simplify_eq.
  apply load_metadata_from in Hd. unfold view. rewrite Hd. change (take 28 st) with (slice st 0 28).
  destruct (bool_decide _); [|done]. destruct (_ =? crc32 _); [|done].
  cbn [negb andb]. rewrite Z.gtb_ltb. unfold ABR_MAJOR_VERSION.
  destruct (2 <? version_major d'); [done|]. unfold abs. simpl.
  by rewrite !abs_normalize by apply Hw.
Qed.

Lemma abr_load_cases_witness :
  let d := mkData ABR_MAGIC 2 2 [0; 0] (mkSlot 20 9 1 0) (mkSlot 0 3 1 0) 2 (replicate 11 0) 0 in
  view (fst (serialize d)) = Some (mkSpec (mkSpecSlot 15 (Try 7)) (mkSpecSlot 0 Unboot) 2).
Proof.
  intros d. rewrite (abr_load_cases (fst (serialize d)) (snd (serialize d))).
  - by vm_compute.
  - split; [by vm_compute|by_compute].
  - by vm_compute.
Defined.

(** ** Boot attempts are bounded *)

(** The boots a slot can still take without being known good. *)
Definition sp_tries (s : SpecSlot) : Z :=
  match sp_state s with Unboot => 0 | Try n => n | Good => ABR_MAX_TRIES_REMAINING end.
Definition sp_measure (v : Spec) : Z := sp_tries (sp_a v) + sp_tries (sp_b v).
Definition sp_slot_wf (s : SpecSlot) : Prop :=
  match sp_state s with Try n => 1 ≤ n ≤ ABR_MAX_TRIES_REMAINING | _ => True end.
Definition spec_wf (v : Spec) : Prop := sp_slot_wf (sp_a v) ∧ sp_slot_wf (sp_b v).

Lemma abs_slot_wf s : norm_slot s → sp_slot_wf (abs_slot s).
Proof.
  intros H. pose proof (bootable_norm s H) as Hb. unfold sp_slot_wf, abs_slot. simpl.
  destruct (is_slot_bootable s); [|done]. destruct (Z.eqb_spec (successful_boot s) 1); [done|].
  symmetry in Hb. bools. simpl in *. bools. slot_tac.
Qed.

Lemma loaded_wf d : data_inv d → spec_wf (abs d).
Proof. intros Hd. split; apply abs_slot_wf; apply Hd. Qed.

(** A boot that is not of a good slot and not of recovery uses up one try. *)
Lemma sp_boot_measure v i v' :
  spec_wf v → sp_boot v = (i, false, v') → i ≠ SlotR → sp_measure v' = sp_measure v - 1.
Proof.
  unfold spec_wf, sp_slot_wf, sp_boot, sp_pick, sp_measure, sp_tries, sp_good, sp_bootable.
  destruct v as [[pa [|na|]] [pb [|nb|]] f]; simpl; intros [Ha Hb] H Hi;
    split_hyp H; simplify_eq/=; repeat (case_if; simpl); bools; lia.
Qed.

Lemma sp_measure_bound v : spec_wf v → 0 ≤ sp_measure v ≤ 14.
Proof.
  unfold spec_wf, sp_slot_wf, sp_measure, sp_tries, ABR_MAX_TRIES_REMAINING.
  intros [? ?]. destruct (sp_state (sp_a v)), (sp_state (sp_b v)); lia.
Qed.

(** A boot of recovery, or of a slot known to be good. *)
Definition settled (r : outcome Error ret) : Prop :=
  match r with Ok (RSlot i good) => i = SlotR ∨ good = true | _ => False end.

Lemma boot_settles {D} `{!Ops D, !AbrStore D} (st : D) n :
  store_ok st → (∀ v, view st = Some v → sp_measure v < Z.of_nat n) → (0 < n)%nat →
  Exists settled (fst (run_trace (replicate n (GetBootSlot true)) st)).
Proof.
  revert st. induction n as [|n IH]; intros st Hst Hm Hn; [lia|].
  assert (Hgo : ∀ r st1, run_api (GetBootSlot true) st = (r, st1) →
    settled r ∨ Exists settled (fst (run_trace (replicate n (GetBootSlot true)) st1)) →
    Exists settled (fst (run_trace (replicate (S n) (GetBootSlot true)) st))).
  { intros r st1 Hr H. cbn [replicate run_trace]. rewrite Hr.
    destruct (run_trace _ st1). apply Exists_cons. done. }
  destruct (view_cases st Hst) as [[_ H]|(d & o & _ & Hd & H)].
  { eapply Hgo; [by apply unsupported_step|]. left. by left. }
  destruct (step_refines st _ (GetBootSlot true) Hst H) as (st1 & Hr & Hst1 & Hv1).
  apply (Hgo _ _ Hr). clear Hgo Hr. cbn [spec_api] in *.
  destruct (negb (Z.land (sp_flags (abs d)) ONE_SHOT_RECOVERY =? 0)); [left; by left|].
  cbn [andb] in *. destruct (sp_boot (abs d)) as [[i good] v'] eqn:Eb. simpl in *.
  destruct good; [left; by right|]. destruct (decide (i = SlotR)); [left; by left|].
  right. pose proof (sp_boot_measure _ _ _ (loaded_wf _ Hd) Eb n0) as Hdec.
  pose proof (sp_measure_bound _ (loaded_wf _ Hd)). specialize (Hm _ H).
  assert (Hv' : 0 ≤ sp_measure v').
  { destruct (view_cases st1 Hst1) as [[H1 _]|(d1 & o1 & _ & Hd1 & H1)]; [congruence|].
    rewrite H1 in Hv1. simplify_eq. apply sp_measure_bound. by apply loaded_wf. }
  apply IH; [done| |lia]. intros v Hv. rewrite Hv1 in Hv. simplify_eq. lia.
Qed.

(** C31. Whatever a storage of the API holds, a device that is rebooted fifteen times
    without anything else being recorded boots recovery, or a slot that is
    marked successful, at one of them: tries are consumed and never refilled
    by boots alone. *)
Theorem abr_boot_attempts_bounded {D} `{!Ops D, !AbrStore D} (st : D) :
  store_ok st → Exists settled (fst (run_trace (replicate 15 (GetBootSlot true)) st)).
Proof.
  intros Hst. apply boot_settles; [done| |lia]. intros v Hv.
  destruct (view_cases st Hst) as [[H1 _]|(d1 & o1 & _ & Hd1 & H1)]; [congruence|].
  rewrite H1 in Hv. simplify_eq. pose proof (sp_measure_bound _ (loaded_wf _ Hd1)). lia.
Qed.

Lemma abr_boot_attempts_bounded_witness :
  storage_ok (replicate 32 255) ∧
  Exists settled (fst (run_trace (replicate 15 (GetBootSlot true)) (replicate 32 255))).
Proof.
  assert (H : storage_ok (replicate 32 255)) by (split; [by vm_compute|by_compute]).
  split; [exact H|]. exact (abr_boot_attempts_bounded _ H).
Defined.

(** ** Any backend *)

(** What the code relies on from a backend: a read that succeeds fills the
    buffer it was given with bytes, and neither call panics. *)
Class OpsOk (D : Type) `{!Ops D} : Prop := {
  read_fills : ∀ n s b s', read_abr_metadata n s = (Ok b, s') → zlen b = n ∧ bytes_ok b;
  read_no_panic : ∀ n s, no_panic (fst (read_abr_metadata n s));
  write_no_panic : ∀ b s, no_panic (fst (write_abr_metadata b s));
}.

(** A device that may refuse reads or writes. *)
Record FlakyDisk := mkFlaky { fd_bytes : bytes; fd_read : option Error; fd_write : option Error }.
#[global] Instance FlakyOps : Ops FlakyDisk := {|
  read_abr_metadata n s :=
    (match fd_read s with
     | Some e => Err e
     | None => if (zlen (fd_bytes s) =? n) && bool_decide (bytes_ok (fd_bytes s))
               then Ok (fd_bytes s) else Err BadBufferSize
     end, s);
  write_abr_metadata b s :=
    match fd_write s with
    | Some e => (Err e, s)
    | None => (Ok tt, mkFlaky b (fd_read s) None)
    end
|}.
#[global] Instance FlakyOpsOk : OpsOk FlakyDisk.
Proof.
  split.
  - intros n s b s' H. simpl in H. destruct (fd_read s); simplify_eq.
    destruct (_ && _) eqn:E in H; simplify_eq. by bools.
  - intros n s. simpl. unfold no_panic. destruct (fd_read s); [done|]. by case_if.
  - intros b s. simpl. unfold no_panic. by destruct (fd_write s).
Qed.

Section AnyBackend.
Context {D : Type} `{!Ops D, !OpsOk D}.

(** Loading does not panic, and what it loads satisfies the invariant. *)
Lemma load_metadata_any (s : D) :
  match load_metadata s with
  | (Ok (d, _), _) => data_inv d
  | (Err _, _) => True
  | (Panic, _) => False
  end.
Proof.
  unfold load_metadata. rewrite bind_run, attempt_run. unfold deserialize. rewrite bind_run.
  pose proof (read_no_panic ABR_DATA_SIZE s) as Hnp.
  destruct (read_abr_metadata ABR_DATA_SIZE s) as [[b|e|] s'] eqn:E; [| |done].
  2: { destruct e; try done; apply default_inv. }
  destruct (read_fills _ _ _ _ E) as [Hl Hb]. unfold ABR_DATA_SIZE in Hl.
  assert (Hl' : length b = 32%nat) by lia.
  destruct (parse_inv b Hl' Hb) as (d & Hp & Hw & _).
  rewrite Hp, lift_ok_bind, index_range_ok, lift_ok_bind by lia.
  destruct (bool_decide (magic d = ABR_MAGIC)) eqn:E1; [|apply default_inv]. cbn [negb].
  destruct (_ =? crc32 _); [|apply default_inv]. cbn [negb]. rewrite Z.gtb_ltb.
  destruct (ABR_MAJOR_VERSION <? version_major d) eqn:E3; [done|]. bools.
  split; simpl; try done; try (apply slot_normalize_norm; apply Hw).
  destruct Hw. split; simpl; try done; by apply ns_wf, slot_normalize_norm.
Qed.

Lemma save_no_panic d orig (s : D) : ∃ r s', save_metadata_if_changed d orig s = (r, s') ∧ r ≠ Panic.
Proof.
  unfold save_metadata_if_changed. case_bool_decide; [by eexists _, _|].
  unfold save_metadata. pose proof (write_no_panic (fst (serialize d)) s).
  destruct (write_abr_metadata _ s) as [r s']. by exists r, s'.
Qed.

Lemma choose_total upd d orig (s : D) :
  data_inv d → ∃ s', choose_boot_slot upd d orig s = (Ok (fst (sp_boot (abs d))), s').
Proof.
  intros Hd. rewrite choose_boot_slot_run by done. destruct upd; [|by eexists].
  destruct (save_no_panic (booted d) orig s) as (r & s' & -> & Hr).
  exists s'. by destruct r.
Qed.

Lemma set_recovery_inv d e : data_inv d → data_inv (data_set_one_shot_recovery e d).
Proof.
  intros Hd. assert (u8_ok (one_shot_flags d)) by apply Hd.
  destruct e; apply (with_slots_inv d (slot_a d) (slot_b d)); try done; try apply Hd.
  - apply flags_ok_lor; [done|by_compute].
  - apply flags_ok_land; [done|by_compute].
Qed.

Lemma crc_inv d : data_inv d → data_inv (snd (serialize d)).
Proof. intros Hd. apply set_crc_inv; [done|apply crc32_ok]. Qed.
End AnyBackend.

(** The boot decision is total: on any backend, whatever it holds and
    whichever of its reads and writes fail, [get_boot_slot] returns a slot. It
    neither reports an error nor panics, and a slot it calls successful is A
    or B. *)
Theorem abr_get_boot_slot_total {D} `{!Ops D, !OpsOk D} (upd : bool) (s : D) :
  ∃ i good s', get_boot_slot upd s = (Ok (i, good), s') ∧ (good = true → i ≠ SlotR).
Proof.
  unfold get_boot_slot. rewrite bind_run, attempt_run.
  pose proof (load_metadata_any s) as HL.
  destruct (load_metadata s) as [[[d orig]|e|] s1]; [|by eexists SlotR, false, _|done].
  assert (HC : ∀ d' s2, data_inv d' → ∃ i good s',
    choose_boot_slot upd d' orig s2 = (Ok (i, good), s') ∧ (good = true → i ≠ SlotR)).
  { intros d' s2 Hd'. destruct (choose_total upd d' orig s2 Hd') as (s' & ->).
    unfold sp_boot. destruct (sp_pick (abs d')); eexists _, _, _; done. }
  destruct (is_one_shot_recovery d && upd); [|by apply HC].
  rewrite bind_run, attempt_run. unfold save_metadata at 1.
  pose proof (write_no_panic (fst (serialize (data_set_one_shot_recovery false d))) s1) as Hw.
  destruct (write_abr_metadata _ s1) as [[[]|e|] s2]; [by eexists SlotR, false, _| |done].
  apply HC. auto using set_recovery_inv, crc_inv.
Qed.

Lemma abr_get_boot_slot_total_witness :
  let s := mkFlaky (replicate 32 7) (Some DeviceError) (Some DeviceError) in
  ∃ i good s', get_boot_slot true s = (Ok (i, good), s') ∧ (good = true → i ≠ SlotR).
Proof. intros s. exact (abr_get_boot_slot_total true s). Defined.

(** ** A backend that cannot be read *)

Definition reported (e : Error) : bool :=
  match e with Other _ | UnsupportedVersion => true | _ => false end.

(** A read that fails with an error other than [Other] and
    [UnsupportedVersion] is not reported by [load_metadata]: it goes on with
    default metadata, and a call that changes a flag then writes the defaults
    over the storage it could not read. *)
Theorem abr_read_error_overwrites {D} `{!Ops D, !OpsOk D} (s s1 : D) (e : Error) :
  read_abr_metadata ABR_DATA_SIZE s = (Err e, s1) → reported e = false →
  set_one_shot_bootloader true s =
    write_abr_metadata (fst (serialize (set_flags ONE_SHOT_BOOTLOADER abr_default))) s1.
Proof.
  intros Hr He. unfold set_one_shot_bootloader, load_metadata. 
  rewrite !bind_run, attempt_run. unfold deserialize. rewrite bind_run, Hr.
  destruct e; try discriminate He; reflexivity.
Qed.

Lemma abr_read_error_overwrites_witness :
  let st := fst (serialize (mkData ABR_MAGIC 2 2 [0; 0] (mkSlot 15 0 1 0) (mkSlot 14 7 0 0) 0
              (replicate 11 0) 0)) in
  let defaults := fst (serialize (set_flags ONE_SHOT_BOOTLOADER abr_default)) in
  set_one_shot_bootloader true (mkFlaky st (Some DeviceError) None) =
    (Ok tt, mkFlaky defaults (Some DeviceError) None).
Proof.
  intros st defaults.
  rewrite (abr_read_error_overwrites _ (mkFlaky st (Some DeviceError) None) DeviceError);
    reflexivity.
Defined.
