(* ===== verification/Crc.v ===== *)
(** * The CRC-32 hasher

    The checksums of the slot metadata and of the GPT are computed with the
    [Hasher] of the crate crc32fast, whose code is not in the repository: it is
    a parameter of the models that use it. All they rely on is that the result
    of [finalize] is a 32-bit integer that depends only on the bytes hashed.
    libabr's own [crc32], which is the standard CRC-32, is an instance. *)

From S2P Require Import Prelude SafeMath LibError Abr AbrFormat.

(** [crc32fast::hash(bytes)], or [Hasher::new], [update] and [finalize]. *)
Class Hasher := {
  hash : bytes → Z;
  hash_u32 : ∀ l, u32_ok (hash l);
}.

Definition StandardHasher : Hasher := {| hash := Abr.crc32; hash_u32 := crc32_ok |}.
