(* ===== verification/Block.v ===== *)
(** * libstorage: block devices

    Models src/gbl/libstorage/src/lib.rs (block device interface, range check,
    scratch buffer size), src/gbl/libstorage/src/ram_block.rs and
    src/gbl/libstorage/src/algorithm.rs: reads and writes of arbitrary ranges
    from and to buffers at arbitrary addresses, on a device that only transfers
    whole blocks from and to aligned buffers. A buffer is its address and its
    contents; the address is an argument of the definitions, the contents are
    part of the state. Futures run to completion where they are awaited: the
    device is borrowed exclusively. *)

From S2P Require Import Prelude SafeMath LibError Utils.
Import SafeNum.

(** gbl/libstorage/src/lib.rs:46-57, [BlockInfo]. *)
Record BlockInfo := mkInfo { block_size : Z; num_blocks : Z; alignment : Z }.

(** gbl/libstorage/src/lib.rs:60-63, [BlockInfo::total_size]. *)
Definition total_size (i : BlockInfo) : result Z :=
  into_u64 (Val (block_size i) *! Val (num_blocks i)).

(** gbl/libstorage/src/lib.rs:66-108, [BlockIo]: the calls on a device in
    state [D]; the buffer at address [addr] is the second half of the state. *)
Class BlockIo (D : Type) := {
  info : D → BlockInfo;
  read_blocks : Z → Z → ST (D * bytes) Error unit;
  write_blocks : Z → Z → ST (D * bytes) Error unit;
}.

(** gbl/libstorage/src/lib.rs:134-135, [BlockIoNull]: every call is
    unimplemented and panics. *)
Inductive BlockIoNull := Null.
(** gbl/libstorage/src/lib.rs:137-155, [BlockIo for BlockIoNull]: reads and
    writes. *)
Definition null_io : ST (BlockIoNull * bytes) Error unit := lift Panic.

(** gbl/libstorage/src/lib.rs:157-161, [is_aligned]. *)
Definition is_aligned (value alignment : SafeNum) : result bool :=
  r ← into_u64 (value %! alignment); Ok (r =? 0).

(** gbl/libstorage/src/lib.rs:163-167, [is_buffer_aligned]. *)
Definition is_buffer_aligned (addr alignment : Z) : result bool :=
  is_aligned (from_int here TUsize addr) (Val alignment).

(** [debug_assert!(cond?)]. *)
Definition debug_assert (c : result bool) : result unit := b ← c; assert_that b.

(** gbl/libstorage/src/lib.rs:169-183, [check_range]: for a buffer of [len] bytes
    at [addr]. *)
Definition check_range (i : BlockInfo) (offset addr len : Z) : result SafeNum :=
  let offset := Val offset in
  let block_size := Val (block_size i) in
  debug_assert (is_aligned offset block_size);;
  debug_assert (is_aligned (from_int here TUsize len) block_size);;
  debug_assert (is_buffer_aligned addr (alignment i));;
  let blk_offset := offset /! block_size in
  let blk_count := from_int here TUsize len /! block_size in
  end_ ← into_u64 (blk_offset +! blk_count);
  if end_ <=? num_blocks i then Ok blk_offset else Err (BadIndex end_).

(** gbl/libstorage/src/lib.rs:185-193, [scratch_size]. *)
Definition scratch_size (i : BlockInfo) : result Z :=
  let block_alignment := if block_size i =? 1 then 0 else block_size i in
  into_u64 ((Val (alignment i) -! Val 1) *! Val 2 +! Val block_alignment).

(** ** The RAM block device *)

Module RamBlock.
(** gbl/libstorage/src/ram_block.rs:23-37, [RamBlockIo]. *)
Record RamBlockIo := mk {
  rb_block_size : Z;
  rb_alignment : Z;
  storage : bytes;
  num_writes : Z;
  num_reads : Z;
  error : option Error;
}.

(** gbl/libstorage/src/ram_block.rs:40-50, [RamBlockIo::new]. *)
Definition new (bs align : Z) (st : bytes) : outcome Error RamBlockIo :=
  assert_that (negb (bs =? 0) && (zlen st mod bs =? 0));;
  Ok (mk bs align st 0 0 None).

Definition clear_error (d : RamBlockIo) : RamBlockIo :=
  mk (rb_block_size d) (rb_alignment d) (storage d) (num_writes d) (num_reads d) None.
Definition set_storage (st : bytes) (d : RamBlockIo) : RamBlockIo :=
  mk (rb_block_size d) (rb_alignment d) st (num_writes d) (num_reads d) (error d).

(** gbl/libstorage/src/ram_block.rs:57-69, [RamBlockIo::checks]: on a buffer of
    [len] bytes at [addr]; takes the injected error. *)
Definition checks (blk_offset addr len : Z) : ST RamBlockIo Error Z := λ d,
  let aligned r := match r with Ok b => b | _ => false end in
  if negb (aligned (is_buffer_aligned addr (rb_alignment d))) then (Panic, d)
  else if negb (aligned (is_aligned (from_int here TUsize len) (Val (rb_block_size d))))
  then (Panic, d)
  else match error d with
       | Some e => (Err e, clear_error d)
       | None => (unwrap_res (into_u64 (Val blk_offset *! Val (rb_block_size d))), d)
       end.

(** gbl/libstorage/src/ram_block.rs:75-81, [RamBlockIo::info]. *)
Definition ram_info (d : RamBlockIo) : BlockInfo :=
  mkInfo (rb_block_size d) (zlen (storage d) / rb_block_size d) (rb_alignment d).

(** gbl/libstorage/src/ram_block.rs:83-91, [RamBlockIo::read_blocks]. *)
Definition ram_read (blk_offset addr : Z) : ST (RamBlockIo * bytes) Error unit := λ s,
  let '(d, out) := s in
  match checks blk_offset addr (zlen out) d with
  | (Ok offset, d) =>
      match get_range (storage d) offset (zlen (storage d)) ≫= λ t, get_range t 0 (zlen out) with
      | Some b => (Ok tt, (d, b))
      | None => (Panic, (d, out))
      end
  | (Err e, d) => (Err e, (d, out))
  | (Panic, d) => (Panic, (d, out))
  end.

(** gbl/libstorage/src/ram_block.rs:93-96, [RamBlockIo::write_blocks]. *)
Definition ram_write (blk_offset addr : Z) : ST (RamBlockIo * bytes) Error unit := λ s,
  let '(d, data) := s in
  match checks blk_offset addr (zlen data) d with
  | (Ok offset, d) =>
      match get_range (storage d) offset (zlen (storage d)) ≫= λ t, get_range t 0 (zlen data) with
      | Some _ => (Ok tt, (set_storage (splice (storage d) offset data) d, data))
      | None => (Panic, (d, data))
      end
  | (Err e, d) => (Err e, (d, data))
  | (Panic, d) => (Panic, (d, data))
  end.
#[global] Instance RamIo : BlockIo RamBlockIo :=
  {| info := ram_info; read_blocks := ram_read; write_blocks := ram_write |}.
End RamBlock.
