(* ===== verification/BlockAlgo.v ===== *)
(** * libstorage: reads and writes of arbitrary ranges

    Models src/gbl/libstorage/src/algorithm.rs. The state of a call is the
    device, the caller's buffer ([out] of a read, [data] of a write) and the
    scratch buffer; a subslice that is passed on is a range of one of them. *)

From S2P Require Import Prelude SafeMath LibError Utils Block.
Import SafeNum.

Record Io (D : Type) := mkIo { dev : D; tgt : bytes; scr : bytes }.
Arguments mkIo {D}.
Arguments dev {D}.
Arguments tgt {D}.
Arguments scr {D}.

Section Algorithm.
Context {D : Type} `{!BlockIo D}.
Abbreviation M := (ST (Io D) Error).

(** ** Subslices *)

(** What an index out of range does: [get_mut(..)?] reports an error, [&mut
    s[..]] panics. *)
Definition too_small : result unit := Err (BufferTooSmall None).
Definition out_of_range : result unit := Panic.

(** [m] on the range [a..b] of the caller's buffer. *)
Definition in_tgt (bad : result unit) (a b : Z) (m : M unit) : M unit := λ s,
  match get_range (tgt s) a b with
  | None => (bad, s)
  | Some sub =>
      let '(r, s') := m (mkIo (dev s) sub (scr s)) in
      (r, mkIo (dev s') (splice (tgt s) a (tgt s')) (scr s'))
  end.
(** A device call on the caller's buffer. *)
Definition on_tgt (m : ST (D * bytes) Error unit) : M unit := λ s,
  let '(r, (d, b)) := m (dev s, tgt s) in (r, mkIo d b (scr s)).
(** A device call on the range [..n] of the scratch buffer. *)
Definition on_scr (n : Z) (m : ST (D * bytes) Error unit) : M unit := λ s,
  match get_range (scr s) 0 n with
  | None => (Panic, s)
  | Some sub =>
      let '(r, (d, b)) := m (dev s, sub) in (r, mkIo d (tgt s) (splice (scr s) 0 b))
  end.
(** [&mut scratch[..n]] is in range. *)
Definition index_scr (n : Z) : M unit := λ s, (_ ← index_range (scr s) 0 n; Ok tt, s).
(** [out.get_mut(..n)?] is in range. *)
Definition get_tgt (n : Z) : M unit := λ s,
  (_ ← ok_or (get_range (tgt s) 0 n) (BufferTooSmall None); Ok tt, s).
Definition dev_info : M BlockInfo := gets (λ s, info (dev s)).
Definition tgt_len : M Z := gets (λ s, zlen (tgt s)).
(** [dst[a..b].clone_from_slice(&src[c..d])], both ranges of one length. *)
Definition copy_scr_to_tgt (bad : result unit) (a b c d : Z) : M unit := λ s,
  match get_range (tgt s) a b with
  | None => (bad, s)
  | Some t =>
      match get_range (scr s) c d with
      | None => (Panic, s)
      | Some u => if zlen t =? zlen u then (Ok tt, mkIo (dev s) (splice (tgt s) a u) (scr s))
                  else (Panic, s)
      end
  end.
Definition copy_tgt_to_scr (c d a b : Z) : M unit := λ s,
  match get_range (scr s) c d, get_range (tgt s) a b with
  | Some u, Some t => if zlen t =? zlen u then (Ok tt, mkIo (dev s) (tgt s) (splice (scr s) c t))
                      else (Panic, s)
  | _, _ => (Panic, s)
  end.
(** [s.copy_within(a..b, dest)]. *)
Definition copy_within (l : bytes) (a b dest : Z) : outcome Error bytes :=
  sub ← index_range l a b;
  if (0 <=? dest) && (dest <=? zlen l - (b - a)) then Ok (splice l dest sub) else Panic.
Definition tgt_copy_within (a b dest : Z) : M unit := λ s,
  match copy_within (tgt s) a b dest with
  | Ok l => (Ok tt, mkIo (dev s) l (scr s))
  | Err e => (Err e, s)
  | Panic => (Panic, s)
  end.

(** ** Reading *)

(** gbl/libstorage/src/algorithm.rs:23-31, [read_aligned_all]. *)
Definition read_aligned_all (addr offset : Z) : ST (D * bytes) Error unit :=
  '(d, out) ← gets id;
  blk ← lift (check_range (info d) offset addr (zlen out));
  blk_offset ← lift (into_u64 blk);
  read_blocks blk_offset addr.

(** gbl/libstorage/src/algorithm.rs:33-61, [read_aligned_offset_and_buffer]: [addr]
    and [saddr] are the addresses of the buffer and of the scratch buffer. *)
Definition read_aligned_offset_and_buffer (addr saddr offset : Z) : M unit :=
  i ← dev_info;
  let block_size := Val (block_size i) in
  lift (debug_assert (is_aligned (Val offset) block_size));;
  lift (debug_assert (is_buffer_aligned addr (alignment i)));;
  len ← tgt_len;
  aligned_read ← lift (into_u64 (round_down here (from_int here TUsize len) block_size));
  (if aligned_read >? 0
   then in_tgt too_small 0 aligned_read (on_tgt (read_aligned_all addr offset))
   else mret tt);;
  unaligned ← gets (λ s, get_range (tgt s) aligned_read len);
  unaligned ← lift (ok_or unaligned (BufferTooSmall None));
  if zlen unaligned =? 0 then mret tt else
  bs ← lift (into_u64 block_size);
  index_scr bs;;
  aligned_offset ← lift (into_u64 (Val offset +! from_int here TUsize aligned_read));
  on_scr bs (read_aligned_all saddr aligned_offset);;
  copy_scr_to_tgt too_small aligned_read len 0 (zlen unaligned).

(** gbl/libstorage/src/algorithm.rs:63-118, [read_aligned_buffer]: the part of the
    buffer past the first block boundary, [rel] bytes in. *)
Definition read_past_boundary (i : BlockInfo) (addr saddr aligned_start rel len : Z) : M unit :=
  new_aligned ← lift (is_buffer_aligned (addr + rel) (alignment i));
  if (new_aligned : bool) then
    in_tgt too_small rel len
      (read_aligned_offset_and_buffer (addr + rel) saddr aligned_start)
  else
    read_len ← lift (into_u64 (from_int here TUsize len -! from_int here TUsize rel));
    in_tgt too_small 0 read_len (read_aligned_offset_and_buffer addr saddr aligned_start);;
    tgt_copy_within 0 read_len rel.

(** gbl/libstorage/src/algorithm.rs:63-118, [read_aligned_buffer]. *)
Definition read_aligned_buffer (addr saddr offset : Z) : M unit :=
  i ← dev_info;
  lift (debug_assert (is_buffer_aligned addr (alignment i)));;
  aligned ← lift (is_aligned (Val offset) (Val (block_size i)));
  if (aligned : bool) then read_aligned_offset_and_buffer addr saddr offset else
  len ← tgt_len;
  up ← lift (into_u64 (round_up here (Val offset) (Val (block_size i))));
  end_ ← lift (into_u64 (Val offset +! from_int here TUsize len));
  let aligned_start := Z.min up end_ in
  aligned_relative_offset ← lift (into_u64 (Val aligned_start -! Val offset));
  (if aligned_relative_offset <? len then
     read_past_boundary i addr saddr aligned_start aligned_relative_offset len
   else mret tt);;
  bs ← lift (into_u64 (Val (block_size i)));
  index_scr bs;;
  let round_down_offset := round_down here (Val offset) (Val (block_size i)) in
  rd ← lift (into_u64 round_down_offset);
  on_scr bs (read_aligned_all saddr rd);;
  let offset_relative := Val offset -! round_down_offset in
  get_tgt aligned_relative_offset;;
  from ← lift (into_u64 offset_relative);
  to ← lift (into_u64 (offset_relative +! from_int here TUsize aligned_relative_offset));
  copy_scr_to_tgt too_small 0 aligned_relative_offset from to.

(** gbl/libstorage/src/algorithm.rs:120-134, [split_scratch]: the two parts of a scratch
    buffer of [len] bytes at [saddr], as offsets and lengths in it. *)
Definition split_scratch (i : BlockInfo) (saddr : Z) (scratch : bytes) :
    result ((Z * Z) * (Z * Z)) :=
  '(o1, s1) ← aligned_subslice saddr scratch (Val (alignment i));
  mid ← into_u64 (Val (alignment i) -! Val 1);
  buffer_alignment ← index_range s1 0 mid;
  block_alignment ← index_from s1 mid;
  '(o2, s2) ← aligned_subslice (saddr + o1 + mid) block_alignment (Val (alignment i));
  size ← into_u64 (if block_size i =? 1 then ZERO else Val (block_size i));
  _ ← index_range s2 0 size;
  Ok ((o1, mid), (o1 + mid + o2, size)).

(** [m] with the part [o, n] of the scratch buffer as scratch buffer. *)
Definition with_scratch (p : Z * Z) (m : M unit) : M unit := λ s,
  let '(r, s') := m (mkIo (dev s) (tgt s) (slice (scr s) (fst p) (snd p))) in
  (r, mkIo (dev s') (tgt s') (splice (scr s) (fst p) (scr s'))).
(** [m] on [n] bytes at the start of the part [p] of the scratch buffer, with
    the part [q] as scratch buffer. *)
Definition in_scratch (p q : Z * Z) (n : Z) (m : M unit) : M unit := λ s,
  match get_range (slice (scr s) (fst p) (snd p)) 0 n with
  | None => (Panic, s)
  | Some sub =>
      let '(r, s') := m (mkIo (dev s) sub (slice (scr s) (fst q) (snd q))) in
      (r, mkIo (dev s') (tgt s) (splice (splice (scr s) (fst p) (tgt s')) (fst q) (scr s')))
  end.

(** gbl/libstorage/src/algorithm.rs:136-180, [read_async]: into the buffer at [addr],
    with the scratch buffer at [saddr]. *)
Definition read_async (addr saddr offset : Z) : M unit :=
  i ← dev_info;
  scratch ← gets scr;
  '(p, q) ← lift (split_scratch i saddr scratch);
  let block_addr := saddr + fst q in
  aligned ← lift (is_buffer_aligned addr (alignment i));
  if (aligned : bool)
  then with_scratch q (read_aligned_buffer addr block_addr offset) else
  let out_addr_value := from_int here TUsize addr in
  gap ← lift (into_u64 (round_up here out_addr_value (Val (alignment i)) -! out_addr_value));
  len ← tgt_len;
  let unaligned_read := Z.min gap len in
  in_scratch p q unaligned_read (read_aligned_buffer (saddr + fst p) block_addr offset);;
  copy_scr_to_tgt too_small 0 unaligned_read (fst p) (fst p + unaligned_read);;
  if unaligned_read =? len then mret tt else
  offset' ← lift (into_u64 (Val offset +! from_int here TUsize unaligned_read));
  in_tgt too_small unaligned_read len
    (with_scratch q (read_aligned_buffer (addr + unaligned_read) block_addr offset')).

(** ** Writing *)

(** gbl/libstorage/src/algorithm.rs:182-186, [write_aligned_all]. *)
Definition write_aligned_all (addr offset : Z) : ST (D * bytes) Error unit :=
  '(d, data) ← gets id;
  blk ← lift (check_range (info d) offset addr (zlen data));
  blk_offset ← lift (into_u64 blk);
  write_blocks blk_offset addr.

(** gbl/libstorage/src/algorithm.rs:188-216, [write_aligned_offset_and_buffer]. *)
Definition write_aligned_offset_and_buffer (addr saddr offset : Z) : M unit :=
  i ← dev_info;
  lift (debug_assert (is_aligned (Val offset) (Val (block_size i))));;
  lift (debug_assert (is_buffer_aligned addr (alignment i)));;
  len ← tgt_len;
  aligned_write ← lift (into_u64 (round_down here (from_int here TUsize len) (Val (block_size i))));
  (if aligned_write >? 0
   then in_tgt out_of_range 0 aligned_write (on_tgt (write_aligned_all addr offset))
   else mret tt);;
  unaligned ← gets (λ s, get_range (tgt s) aligned_write len);
  unaligned ← lift (unwrap unaligned);
  if zlen unaligned =? 0 then mret tt else
  unaligned_start ← lift (into_u64 (Val offset +! from_int here TUsize aligned_write));
  bs ← lift (into_u64 (Val (block_size i)));
  on_scr bs (read_aligned_all saddr unaligned_start);;
  copy_tgt_to_scr 0 (zlen unaligned) aligned_write len;;
  on_scr bs (write_aligned_all saddr unaligned_start).

(** gbl/libstorage/src/algorithm.rs:218-224, [rotate_left]. *)
Definition rotate_left (sz : Z) : M unit :=
  copy_tgt_to_scr 0 sz 0 sz;;
  len ← tgt_len;
  tgt_copy_within sz len 0;;
  off ← lift (unwrap (checked 64 (len - sz)));
  copy_scr_to_tgt out_of_range off len 0 sz.

(** gbl/libstorage/src/algorithm.rs:226-232, [rotate_right]. *)
Definition rotate_right (sz : Z) : M unit :=
  len ← tgt_len;
  off ← lift (unwrap (checked 64 (len - sz)));
  copy_tgt_to_scr 0 sz off len;;
  tgt_copy_within 0 off sz;;
  copy_scr_to_tgt out_of_range 0 sz 0 sz.

(** gbl/libstorage/src/algorithm.rs:234-290, [write_aligned_buffer]: the part of the
    data past the first block boundary, [rel] bytes in. *)
Definition write_past_boundary (i : BlockInfo) (addr saddr aligned_start rel len : Z) : M unit :=
  new_aligned ← lift (is_buffer_aligned (addr + rel) (alignment i));
  if (new_aligned : bool) then
    in_tgt out_of_range rel len
      (write_aligned_offset_and_buffer (addr + rel) saddr aligned_start)
  else
    write_len ← lift (into_u64 (from_int here TUsize len -! from_int here TUsize rel));
    rotate_left rel;;
    res ← attempt (in_tgt out_of_range 0 write_len
                     (write_aligned_offset_and_buffer addr saddr aligned_start));
    rotate_right rel;;
    match res with inl _ => mret tt | inr e => raise e end.

(** gbl/libstorage/src/algorithm.rs:234-290, [write_aligned_buffer]. *)
Definition write_aligned_buffer (addr saddr offset : Z) : M unit :=
  i ← dev_info;
  lift (debug_assert (is_buffer_aligned addr (alignment i)));;
  aligned ← lift (is_aligned (Val offset) (Val (block_size i)));
  if (aligned : bool) then
    offset ← lift (into_u64 (Val offset));
    write_aligned_offset_and_buffer addr saddr offset
  else
  len ← tgt_len;
  up ← lift (into_u64 (round_up here (Val offset) (Val (block_size i))));
  end_ ← lift (into_u64 (Val offset +! from_int here TUsize len));
  let aligned_start := Z.min up end_ in
  aligned_relative_offset ← lift (into_u64 (Val aligned_start -! Val offset));
  (if aligned_relative_offset <? len then
     write_past_boundary i addr saddr aligned_start aligned_relative_offset len
   else mret tt);;
  bs ← lift (into_u64 (Val (block_size i)));
  index_scr bs;;
  round_down_offset ← lift (into_u64 (round_down here (Val offset) (Val (block_size i))));
  on_scr bs (read_aligned_all saddr round_down_offset);;
  let offset_relative := Val offset -! Val round_down_offset in
  from ← lift (into_u64 offset_relative);
  to ← lift (into_u64 (offset_relative +! from_int here TUsize aligned_relative_offset));
  copy_tgt_to_scr from to 0 aligned_relative_offset;;
  on_scr bs (write_aligned_all saddr round_down_offset).

(** [p.clone_from_slice(&data[..n])] into the first [n] bytes of the part [p]
    of the scratch buffer. *)
Definition fill_scratch (p : Z * Z) (n : Z) : M unit := λ s,
  match get_range (slice (scr s) (fst p) (snd p)) 0 n, get_range (tgt s) 0 n with
  | Some _, Some t => (Ok tt, mkIo (dev s) (tgt s) (splice (scr s) (fst p) t))
  | _, _ => (Panic, s)
  end.

(** gbl/libstorage/src/algorithm.rs:292-338, [write_async]. *)
Definition write_async (addr saddr offset : Z) : M unit :=
  i ← dev_info;
  scratch ← gets scr;
  '(p, q) ← lift (split_scratch i saddr scratch);
  let block_addr := saddr + fst q in
  aligned ← lift (is_buffer_aligned addr (alignment i));
  if (aligned : bool)
  then with_scratch q (write_aligned_buffer addr block_addr offset) else
  let data_addr_value := from_int here TUsize addr in
  gap ← lift (into_u64 (round_up here data_addr_value (Val (alignment i)) -! data_addr_value));
  len ← tgt_len;
  let unaligned_write := Z.min gap len in
  fill_scratch p unaligned_write;;
  in_scratch p q unaligned_write (write_aligned_buffer (saddr + fst p) block_addr offset);;
  if unaligned_write =? len then mret tt else
  offset' ← lift (into_u64 (Val offset +! from_int here TUsize unaligned_write));
  in_tgt out_of_range unaligned_write len
    (with_scratch q (write_aligned_buffer (addr + unaligned_write) block_addr offset')).
End Algorithm.
