(* ===== verification/BlockSpec.v ===== *)
(** * libstorage: what a block device promises

    The contract between a [BlockIo] implementation and the read and write
    algorithms, its discharge by the RAM block device, and the arithmetic of
    ranges and alignments that both sides share. *)

From S2P Require Import Prelude SafeMath LibError Utils Block BlockAlgo.
Import SafeNum.

(** [l'] differs from [l] in the range [a, b) only. *)
Record same_outside (a b : Z) (l l' : bytes) : Prop := {
  so_length : length l' = length l;
  so_lookup : ∀ k : nat, (Z.of_nat k < a ∨ b ≤ Z.of_nat k) → l' !! k = l !! k;
}.

(** The geometry of a device: no empty blocks, no empty alignment, and sizes
    that leave room for rounding up in 64 bits. *)
Record info_ok (i : BlockInfo) (c : bytes) : Prop := {
  ik_bs : 0 < block_size i;
  ik_al : 0 < alignment i < 2 ^ 62;
  ik_nb : 0 ≤ num_blocks i;
  ik_total : zlen c = block_size i * num_blocks i;
  ik_room : zlen c + block_size i < 2 ^ 63;
}.

(** The contract. [content d] is what the medium holds; [quiet d] says that the
    device is not about to fail. A transfer of whole blocks in range, from or to
    an aligned buffer, transfers exactly those bytes; it fails only on a device
    that is not quiet, and then touches nothing but the blocks written. *)
Class BlockIoSpec (D : Type) `{!BlockIo D} := {
  content : D → bytes;
  quiet : D → Prop;
  dev_ok : D → Prop;
  dev_info_ok : ∀ d, dev_ok d → info_ok (info d) (content d);
  read_law : ∀ d b blk addr,
    dev_ok d → addr mod alignment (info d) = 0 → u64_ok addr →
    zlen b mod block_size (info d) = 0 → 0 ≤ blk →
    blk * block_size (info d) + zlen b ≤ zlen (content d) →
    wp (read_blocks blk addr) (d, b)
      (λ _ s, dev_ok (fst s) ∧ info (fst s) = info d ∧ content (fst s) = content d ∧
              (quiet d → quiet (fst s)) ∧
              snd s = slice (content d) (blk * block_size (info d)) (zlen b))
      (λ _ s, dev_ok (fst s) ∧ info (fst s) = info d ∧ content (fst s) = content d ∧
              ¬ quiet d ∧ length (snd s) = length b);
  write_law : ∀ d b blk addr,
    dev_ok d → addr mod alignment (info d) = 0 → u64_ok addr →
    zlen b mod block_size (info d) = 0 → 0 ≤ blk →
    blk * block_size (info d) + zlen b ≤ zlen (content d) →
    wp (write_blocks blk addr) (d, b)
      (λ _ s, dev_ok (fst s) ∧ info (fst s) = info d ∧
              content (fst s) = splice (content d) (blk * block_size (info d)) b ∧
              (quiet d → quiet (fst s)) ∧ snd s = b)
      (λ _ s, dev_ok (fst s) ∧ info (fst s) = info d ∧
              same_outside (blk * block_size (info d)) (blk * block_size (info d) + zlen b)
                (content d) (content (fst s)) ∧
              ¬ quiet d ∧ snd s = b);
}.

(** ** Ranges *)

Lemma same_outside_refl a b l : same_outside a b l l.
Proof. by split. Qed.

Lemma same_outside_trans a b l1 l2 l3 :
  same_outside a b l1 l2 → same_outside a b l2 l3 → same_outside a b l1 l3.
Proof. intros [? H1] [? H2]. split; [congruence|]. intros. rewrite H2, H1; done. Qed.

Lemma same_outside_mono a b a' b' l l' :
  same_outside a b l l' → a' ≤ a → b ≤ b' → same_outside a' b' l l'.
Proof. intros [? H] ? ?. split; [done|]. intros. apply H. lia. Qed.

Lemma same_outside_splice off l d :
  0 ≤ off → off + zlen d ≤ zlen l → same_outside off (off + zlen d) l (splice l off d).
Proof.
  intros. split; [by apply length_splice|]. intros k Hk.
  rewrite lookup_splice by lia. repeat case_decide; try done; lia.
Qed.

(** ** Checked arithmetic on values that fit *)

Lemma is_aligned_val v a :
  u64_ok v → 0 < a → is_aligned (Val v) (Val a) = Ok (v mod a =? 0).
Proof.
  intros Hv Ha. unfold is_aligned. rewrite sn_rem by lia. rewrite into_u64_val; [done|].
  unfold u64_ok in *. pose proof (Z.mod_pos_bound v a). pose proof (Z.mod_le v a). lia.
Qed.

Lemma is_buffer_aligned_val addr a :
  u64_ok addr → 0 < a → is_buffer_aligned addr a = Ok (addr mod a =? 0).
Proof.
  intros. unfold is_buffer_aligned. rewrite from_int_u64 by done. by apply is_aligned_val.
Qed.

Lemma debug_assert_aligned v a :
  u64_ok v → 0 < a → v mod a = 0 → debug_assert (is_aligned (Val v) (Val a)) = Ok tt.
Proof. intros ? ? H. unfold debug_assert. by rewrite is_aligned_val, H. Qed.

Lemma debug_assert_buffer_aligned addr a :
  u64_ok addr → 0 < a → addr mod a = 0 → debug_assert (is_buffer_aligned addr a) = Ok tt.
Proof. intros ? ? H. unfold debug_assert. by rewrite is_buffer_aligned_val, H. Qed.

Lemma check_range_ok i c offset addr len :
  info_ok i c → 0 ≤ offset → 0 ≤ len → offset + len ≤ zlen c →
  offset mod block_size i = 0 → len mod block_size i = 0 →
  u64_ok addr → addr mod alignment i = 0 →
  check_range i offset addr len = Ok (Val (offset / block_size i)).
Proof.
  intros [Hbs Hal Hnb Ht Hr] Ho Hl Hle Hoa Hla Hu Ha. unfold check_range.
  rewrite from_int_u64 by (unfold u64_ok; lia).
  rewrite !debug_assert_aligned, debug_assert_buffer_aligned by (unfold u64_ok; lia || done).
  rewrite !sn_div by lia.
  assert (Hs : offset / block_size i + len / block_size i = (offset + len) / block_size i).
  { rewrite (Z.div_mod offset (block_size i)), (Z.div_mod len (block_size i)), Hoa, Hla by lia.
    rewrite !Z.add_0_r, <-Z.mul_add_distr_l, !(Z.mul_comm (block_size i)), !Z.div_mul by lia. done. }
  assert (Hq : 0 ≤ (offset + len) / block_size i ≤ num_blocks i).
  { split; [apply Z.div_pos; lia|]. apply Z.div_le_upper_bound; lia. }
  assert (num_blocks i ≤ block_size i * num_blocks i) by nia.
  rewrite sn_add, Hs, into_u64_val by (unfold u64_ok; lia).
  cbn [mbind outcome_bind]. by rewrite (proj2 (Z.leb_le _ _)) by lia.
Qed.

(** ** The RAM block device keeps the contract *)

Module RamBlockSpec.
Import RamBlock.
Lemma checks_ok d blk addr len :
  0 < rb_block_size d → 0 < rb_alignment d → u64_ok addr → u64_ok len →
  addr mod rb_alignment d = 0 → len mod rb_block_size d = 0 →
  u64_ok (blk * rb_block_size d) →
  checks blk addr len d =
    match error d with
    | Some e => (Err e, clear_error d)
    | None => (Ok (blk * rb_block_size d), d)
    end.
Proof.
  intros ? ? ? ? Ha Hl Hb. unfold checks.
  rewrite is_buffer_aligned_val, from_int_u64, is_aligned_val, Ha, Hl by done. cbn [Z.eqb negb].
  destruct (error d); [done|]. by rewrite sn_mul, into_u64_val.
Qed.

#[export] Program Instance RamSpec : BlockIoSpec RamBlockIo := {|
  content := storage;
  quiet := λ d, error d = None;
  dev_ok := λ d, info_ok (ram_info d) (storage d);
|}.
Next Obligation. done. Qed.
Next Obligation.
  intros d b blk addr Hok Ha Hu Hl Hb Hr. simpl in *. destruct Hok as [Hbs Hal Hnb Ht Hroom].
  simpl in *. unfold wp, ram_read. rewrite checks_ok by (try done; unfold u64_ok in *; try lia; nia).
  destruct (error d) as [e|] eqn:E.
  - split_and!; done.
  - rewrite get_range_Some by nia. cbn [mbind option_bind].
    rewrite get_range_Some by (try lia; rewrite length_slice; lia). cbn [fst snd].
    split_and!; try done. rewrite Z.sub_0_r, slice_slice by nia. by rewrite Z.add_0_r.
Qed.
Next Obligation.
  intros d b blk addr Hok Ha Hu Hl Hb Hr. simpl in *. pose proof Hok as [Hbs Hal Hnb Ht Hroom].
  simpl in *. unfold wp, ram_write. rewrite checks_ok by (try done; unfold u64_ok in *; try lia; nia).
  destruct (error d) as [e|] eqn:E.
  - split_and!; done.
  - rewrite get_range_Some by nia. cbn [mbind option_bind].
    rewrite get_range_Some by (try lia; rewrite length_slice; lia). cbn [fst snd].
    assert (Hs : length (splice (storage d) (blk * rb_block_size d) b) = length (storage d)).
    { apply length_splice; nia. }
    split_and!; try done.
    + destruct Hok. unfold ram_info. simpl. split; simpl; rewrite ?Hs; done.
    + unfold ram_info. simpl. by rewrite Hs.
Qed.
End RamBlockSpec.
