(* ===== verification/BlockRead.v ===== *)
(** * libstorage: reading is exact

    The read algorithm against the device contract: on a scratch buffer that
    is large enough, a read of any range of the medium into a buffer at any
    address returns exactly the bytes of the range, and fails only if the
    device does. *)

From S2P Require Import Prelude SafeMath LibError Utils Block BlockAlgo BlockSpec.
Import SafeNum.

(** ** Rules for the buffer operations *)

Section Rules.
Context {D : Type} `{!BlockIo D}.
Implicit Types (s : Io D) (Q : unit → Io D → Prop) (X : Error → Io D → Prop).

Lemma wp_in_tgt bad a b m s Q X :
  0 ≤ a → a ≤ b → b ≤ zlen (tgt s) →
  wp m (mkIo (dev s) (slice (tgt s) a (b - a)) (scr s))
    (λ u s', Q u (mkIo (dev s') (splice (tgt s) a (tgt s')) (scr s')))
    (λ e s', X e (mkIo (dev s') (splice (tgt s) a (tgt s')) (scr s'))) →
  wp (in_tgt bad a b m) s Q X.
Proof.
  intros ? ? ? H. unfold wp, in_tgt in *. rewrite get_range_Some by done.
  by destruct (m _) as [[] ?].
Qed.

Lemma wp_on_tgt m s Q X :
  wp m (dev s, tgt s) (λ u t, Q u (mkIo (fst t) (snd t) (scr s)))
    (λ e t, X e (mkIo (fst t) (snd t) (scr s))) →
  wp (on_tgt m) s Q X.
Proof. unfold wp, on_tgt. by destruct (m _) as [[] [? ?]]. Qed.

Lemma wp_on_scr n m s Q X :
  0 ≤ n → n ≤ zlen (scr s) →
  wp m (dev s, slice (scr s) 0 n) (λ u t, Q u (mkIo (fst t) (tgt s) (splice (scr s) 0 (snd t))))
    (λ e t, X e (mkIo (fst t) (tgt s) (splice (scr s) 0 (snd t)))) →
  wp (on_scr n m) s Q X.
Proof.
  intros ? ? H. unfold wp, on_scr in *. rewrite get_range_Some, Z.sub_0_r by lia.
  by destruct (m _) as [[] [? ?]].
Qed.

Lemma wp_copy_scr_to_tgt bad a b c d s Q X :
  0 ≤ a → a ≤ b → b ≤ zlen (tgt s) → 0 ≤ c → c ≤ d → d ≤ zlen (scr s) → b - a = d - c →
  Q tt (mkIo (dev s) (splice (tgt s) a (slice (scr s) c (d - c))) (scr s)) →
  wp (copy_scr_to_tgt bad a b c d) s Q X.
Proof.
  intros. unfold wp, copy_scr_to_tgt. rewrite !get_range_Some by done.
  by rewrite !zlen_slice, (proj2 (Z.eqb_eq _ _)) by lia.
Qed.

Lemma wp_copy_tgt_to_scr c d a b s Q X :
  0 ≤ a → a ≤ b → b ≤ zlen (tgt s) → 0 ≤ c → c ≤ d → d ≤ zlen (scr s) → b - a = d - c →
  Q tt (mkIo (dev s) (tgt s) (splice (scr s) c (slice (tgt s) a (b - a)))) →
  wp (copy_tgt_to_scr c d a b) s Q X.
Proof.
  intros. unfold wp, copy_tgt_to_scr. rewrite !get_range_Some by done.
  by rewrite !zlen_slice, (proj2 (Z.eqb_eq _ _)) by lia.
Qed.

Lemma wp_tgt_copy_within a b dest s Q X :
  0 ≤ a → a ≤ b → b ≤ zlen (tgt s) → 0 ≤ dest → dest + (b - a) ≤ zlen (tgt s) →
  Q tt (mkIo (dev s) (splice (tgt s) dest (slice (tgt s) a (b - a))) (scr s)) →
  wp (tgt_copy_within a b dest) s Q X.
Proof.
  intros. unfold wp, tgt_copy_within, copy_within.
  rewrite index_range_ok, ok_bind by done. by lia_bools.
Qed.

Lemma wp_index_scr n s Q X : 0 ≤ n → n ≤ zlen (scr s) → Q tt s → wp (index_scr n) s Q X.
Proof. intros. unfold wp, index_scr. by rewrite index_range_ok by lia. Qed.

Lemma wp_get_tgt n s Q X : 0 ≤ n → n ≤ zlen (tgt s) → Q tt s → wp (get_tgt n) s Q X.
Proof. intros. unfold wp, get_tgt. by rewrite get_range_Some by lia. Qed.
End Rules.

(** Steps through a state computation: a pure step is discharged by rewriting
    with the lemmas of checked arithmetic. *)
Ltac u64_side := unfold u64_ok in *; lia.
Ltac pure_step tac := apply wp_bind; eapply wp_lift_ok; [tac|].

Section Read.
Context {D : Type} `{!BlockIo D} `{!BlockIoSpec D}.
Context (i : BlockInfo) (C : bytes).
Hypothesis Hi : info_ok i C.
Abbreviation bs := (block_size i).
Abbreviation al := (alignment i).

(** A device of this geometry with this content. *)
Definition holds (d : D) : Prop := dev_ok d ∧ info d = i ∧ content d = C.

Lemma bs_pos : 0 < bs.
Proof. apply Hi. Qed.
Lemma al_pos : 0 < al.
Proof. apply Hi. Qed.
Lemma room : zlen C + bs < 2 ^ 63.
Proof. apply Hi. Qed.

Lemma read_aligned_all_spec d b addr offset :
  holds d → addr mod al = 0 → u64_ok addr → offset mod bs = 0 → zlen b mod bs = 0 →
  0 ≤ offset → offset + zlen b ≤ zlen C →
  wp (read_aligned_all addr offset) (d, b)
    (λ _ s, holds (fst s) ∧ (quiet d → quiet (fst s)) ∧ snd s = slice C offset (zlen b))
    (λ _ s, holds (fst s) ∧ ¬ quiet d ∧ length (snd s) = length b).
Proof.
  intros (Hok & Hinfo & HC) Ha Hu Ho Hb H0 Hr. unfold read_aligned_all.
  pose proof bs_pos. pose proof room.
  apply wp_bind, wp_gets. cbv [id]. rewrite Hinfo.
  pure_step ltac:(eapply check_range_ok; try done; lia).
  assert (Hq : offset / bs * bs = offset).
  { pose proof (Z.div_mod offset bs). lia. }
  assert (0 ≤ offset / bs) by (apply Z.div_pos; lia).
  pure_step ltac:(apply into_u64_val; unfold u64_ok; nia).
  eapply wp_mono; [apply read_law; rewrite ?Hinfo, ?HC, ?Hq; try done| |]; simpl.
  - intros _ [d' b'] (? & E1 & E2 & ? & ->). rewrite Hinfo, HC, Hq in *. unfold holds. simpl.
    split_and!; done.
  - intros _ [d' b'] (? & E1 & E2 & ? & ?). rewrite Hinfo, HC in *. unfold holds. simpl.
    split_and!; done.
Qed.

Definition read_post (d : D) (out scratch : bytes) (offset : Z) (s : Io D) : Prop :=
  holds (dev s) ∧ (quiet d → quiet (dev s)) ∧ tgt s = slice C offset (zlen out) ∧
  length (scr s) = length scratch.
Definition read_err (d : D) (out scratch : bytes) (s : Io D) : Prop :=
  holds (dev s) ∧ ¬ quiet d ∧ length (tgt s) = length out ∧ length (scr s) = length scratch.

(** A buffer for partial blocks; devices with one-byte blocks need none. *)
Definition scratch_ok (saddr : Z) (scratch : bytes) : Prop :=
  saddr mod al = 0 ∧ u64_ok saddr ∧ (bs ≤ zlen scratch ∨ bs = 1).

Lemma round_len_ok n :
  0 ≤ n < 2 ^ 63 → into_u64 (round_down here (from_int here TUsize n) (Val bs)) = Ok (n - n mod bs).
Proof.
  intros. pose proof bs_pos. pose proof room.
  rewrite from_int_u64, round_down_val by (unfold u64_ok; lia).
  pose proof (Z.mod_pos_bound n bs). pose proof (Z.mod_le n bs).
  apply into_u64_val. unfold u64_ok. lia.
Qed.

Lemma into_val v : 0 ≤ v < 2 ^ 64 → into_u64 (Val v) = Ok v.
Proof. apply into_u64_val. Qed.

Lemma sum_ok a b : 0 ≤ a → 0 ≤ b → a + b < 2 ^ 63 →
  into_u64 (Val a +! from_int here TUsize b) = Ok (a + b).
Proof.
  intros. rewrite from_int_u64, sn_add by (unfold u64_ok; lia). apply into_val. lia.
Qed.

Lemma sub_mod_mod n : (n - n mod bs) mod bs = 0.
Proof. pose proof bs_pos. rewrite Zminus_mod_idemp_r, Z.sub_diag. by apply Z.mod_0_l; lia. Qed.

Lemma add_mod_0 a b : a mod bs = 0 → b mod bs = 0 → (a + b) mod bs = 0.
Proof. intros Ha Hb. pose proof bs_pos. rewrite Z.add_mod, Ha, Hb by lia. apply Z.mod_0_l. lia. Qed.

(** A block that begins in the medium lies in it. *)
Lemma block_fits x : 0 ≤ x → x mod bs = 0 → x < zlen C → x + bs ≤ zlen C.
Proof.
  intros H0 Hm Hlt. pose proof bs_pos. destruct Hi as [_ _ _ Ht _].
  pose proof (Z.div_mod x bs). assert (x = bs * (x / bs)) by lia.
  assert (x / bs < num_blocks i) by nia. nia.
Qed.

Ltac modb x := pose proof (Z.mod_pos_bound x bs bs_pos); pose proof (Z.mod_le x bs).

Lemma read_aligned_offset_spec d out scratch addr saddr offset :
  holds d → addr mod al = 0 → u64_ok addr → scratch_ok saddr scratch →
  offset mod bs = 0 → 0 ≤ offset → offset + zlen out ≤ zlen C →
  wp (read_aligned_offset_and_buffer addr saddr offset) (mkIo d out scratch)
    (λ _, read_post d out scratch offset) (λ _, read_err d out scratch).
Proof.
  intros Hd Ha Hu (Hsa & Hsu & Hs) Ho H0 Hr. pose proof bs_pos. pose proof al_pos. pose proof room.
  unfold read_aligned_offset_and_buffer. pose proof Hd as (_ & Hinfo & _).
  apply wp_bind, wp_gets. simpl. rewrite Hinfo.
  pure_step ltac:(apply debug_assert_aligned; try done; u64_side).
  pure_step ltac:(by apply debug_assert_buffer_aligned).
  apply wp_bind, wp_gets. simpl.
  pure_step ltac:(apply round_len_ok; lia).
  set (n := zlen out) in *. modb n. set (r := n - n mod bs).
  assert (Hr0 : 0 ≤ r ≤ n) by lia.
  assert (Hrm : r mod bs = 0) by apply sub_mod_mod.
  apply wp_bind.
  eapply wp_mono with
    (Q := λ _ s, holds (dev s) ∧ (quiet d → quiet (dev s)) ∧
             tgt s = splice out 0 (slice C offset r) ∧ scr s = scratch)
    (X := λ _, read_err d out scratch); [| |done].
  { destruct (Z.gtb_spec r 0).
    - apply wp_in_tgt; simpl; try lia. apply wp_on_tgt. simpl.
      rewrite Z.sub_0_r. eapply wp_mono; [apply read_aligned_all_spec|..]; simpl; try done;
        rewrite ?zlen_slice by lia; try done; try lia.
      + intros _ [d' b'] (? & ? & ->). simpl in *. done.
      + intros _ [d' b'] (? & ? & Hl). unfold read_err. simpl in *. split_and!; try done.
        rewrite length_slice in Hl. apply length_splice; lia.
    - apply wp_ret. simpl. split_and!; try done. by rewrite slice_empty, splice_nil by lia. }
  intros _ [d1 out1 scr1] (Hd1 & Hq1 & Ht1 & Hs1). simpl in *. subst out1 scr1.
  assert (Hl1 : zlen (splice out 0 (slice C offset r)) = n).
  { rewrite length_splice; rewrite ?zlen_slice; lia. }
  apply wp_bind, wp_gets. simpl.
  pure_step ltac:(rewrite get_range_Some by lia; reflexivity).
  rewrite zlen_slice by lia.
  destruct (Z.eqb_spec (n - r) 0) as [Hz|Hnz].
  { apply wp_ret. unfold read_post. simpl. split_and!; try done.
    assert (r = n) as -> by lia. apply splice_full. rewrite zlen_slice; lia. }
  assert (Hbs : bs ≤ zlen scratch).
  { destruct Hs as [?|Hs]; [done|]. subst r. rewrite Hs in *. rewrite Z.mod_1_r in *. lia. }
  pure_step ltac:(apply into_val; lia).
  apply wp_bind, wp_index_scr; simpl; try lia.
  pure_step ltac:(apply sum_ok; lia).
  assert (Hom : (offset + r) mod bs = 0) by by apply add_mod_0.
  pose proof (block_fits (offset + r) ltac:(lia) Hom ltac:(lia)).
  apply wp_bind, wp_on_scr; simpl; try lia.
  eapply wp_mono; [apply read_aligned_all_spec|..]; simpl; try done;
    rewrite ?zlen_slice by lia; try done; try lia.
  { by rewrite Z.mod_same by lia. }
  2: { intros _ [d' b'] (? & ? & Hl). unfold read_err. simpl in *.
       rewrite length_slice in Hl. split_and!; try done; [auto|lia|].
       apply length_splice; lia. }
  intros _ [d2 b2] (Hd2 & Hq2 & ->). simpl in *.
  apply wp_copy_scr_to_tgt; simpl; try lia.
  { rewrite length_splice; rewrite ?zlen_slice; lia. }
  unfold read_post. simpl. split_and!; try done; [auto| |].
  - rewrite slice_splice_in by (rewrite ?zlen_slice by lia; lia).
    rewrite slice_slice, Z.add_0_r by lia.
    assert (E : r = 0 + zlen (slice C offset r)) by (rewrite zlen_slice; lia).
    rewrite E at 2. rewrite splice_splice_adj by (rewrite ?zlen_slice by lia; lia).
    rewrite splice_full by (rewrite length_app, Nat2Z.inj_add, !zlen_slice by lia; lia).
    rewrite slice_app_split by lia. f_equal. lia.
  - apply length_splice; rewrite ?zlen_slice; lia.
Qed.

(** The bytes past the boundary are in place; those before it are not yet. *)
Definition tail_read (d : D) (out scratch : bytes) (offset rel : Z) (s : Io D) : Prop :=
  holds (dev s) ∧ (quiet d → quiet (dev s)) ∧ length (tgt s) = length out ∧
  slice (tgt s) rel (zlen out - rel) = slice C (offset + rel) (zlen out - rel) ∧
  length (scr s) = length scratch.

Lemma read_past_boundary_spec d out scratch addr saddr offset rel :
  holds d → addr mod al = 0 → 0 ≤ addr → addr + zlen out < 2 ^ 64 → scratch_ok saddr scratch →
  (offset + rel) mod bs = 0 → 0 ≤ offset → 0 ≤ rel < zlen out → offset + zlen out ≤ zlen C →
  wp (read_past_boundary i addr saddr (offset + rel) rel (zlen out)) (mkIo d out scratch)
    (λ _, tail_read d out scratch offset rel) (λ _, read_err d out scratch).
Proof.
  intros Hd Ha Hu0 Hu Hs Ho H0 Hrel Hr. pose proof al_pos. pose proof room.
  unfold read_past_boundary. set (n := zlen out) in *.
  pure_step ltac:(apply is_buffer_aligned_val; u64_side).
  destruct (Z.eqb_spec ((addr + rel) mod al) 0) as [Hal|_].
  - apply wp_in_tgt; simpl; try lia.
    eapply wp_mono; [apply read_aligned_offset_spec|..]; simpl; try done;
      rewrite ?zlen_slice by lia; try u64_side.
    + intros _ [d1 t1 s1] (? & ? & -> & ?). unfold tail_read. simpl in *.
      rewrite zlen_slice by lia.
      assert (Hl : zlen (slice C (offset + rel) (n - rel)) = n - rel) by (rewrite zlen_slice; lia).
      split_and!; try done; [rewrite length_splice; lia|].
      by rewrite slice_splice_same by lia.
    + intros _ [d1 t1 s1] (? & ? & Hl & ?). unfold read_err. simpl in *.
      rewrite length_slice in Hl. split_and!; try done. rewrite length_splice; lia.
  - pure_step ltac:(rewrite !from_int_u64, sn_sub by u64_side; apply into_val; lia).
    apply wp_bind, wp_in_tgt; simpl; try lia.
    eapply wp_mono; [apply read_aligned_offset_spec|..]; simpl; try done;
      rewrite ?Z.sub_0_r, ?zlen_slice by lia; try u64_side.
    + intros _ [d1 t1 s1] (? & ? & -> & ?). simpl in *.
      rewrite ?Z.sub_0_r, zlen_slice by lia.
      assert (Hl : zlen (slice C (offset + rel) (n - rel)) = n - rel) by (rewrite zlen_slice; lia).
      apply wp_tgt_copy_within; simpl; rewrite ?length_splice by lia; try lia.
      unfold tail_read. simpl. rewrite ?Z.sub_0_r.
      rewrite slice_splice_in by (rewrite ?length_splice; lia).
      rewrite ?Z.sub_0_r, (slice_all (slice _ _ _)) by lia.
      split_and!; try done; [rewrite !length_splice; rewrite ?length_splice; lia|].
      by rewrite slice_splice_same by (rewrite ?length_splice; lia).
    + intros _ [d1 t1 s1] (? & ? & Hl & ?). unfold read_err. simpl in *.
      rewrite length_slice in Hl. split_and!; try done. rewrite length_splice; lia.
Qed.

(** The first block boundary at or after an offset that is not on one. *)
Lemma boundary offset :
  offset mod bs ≠ 0 →
  (- offset) mod bs = bs - offset mod bs ∧ (offset + (- offset) mod bs) mod bs = 0.
Proof.
  intros H. pose proof bs_pos. split; [by apply Z.mod_opp_l_nz; lia|].
  rewrite Z.add_mod_idemp_r by lia. rewrite Z.add_opp_diag_r. apply Z.mod_0_l. lia.
Qed.

Lemma round_up_ok offset :
  0 ≤ offset ≤ zlen C →
  into_u64 (round_up here (Val offset) (Val bs)) = Ok (offset + (- offset) mod bs).
Proof.
  intros. pose proof bs_pos. pose proof room. pose proof (Z.mod_pos_bound (- offset) bs).
  rewrite round_up_val by u64_side. apply into_val. lia.
Qed.

Lemma read_aligned_buffer_spec d out scratch addr saddr offset :
  holds d → addr mod al = 0 → 0 ≤ addr → addr + zlen out < 2 ^ 64 → scratch_ok saddr scratch →
  0 ≤ offset → offset + zlen out ≤ zlen C →
  wp (read_aligned_buffer addr saddr offset) (mkIo d out scratch)
    (λ _, read_post d out scratch offset) (λ _, read_err d out scratch).
Proof.
  intros Hd Ha Hu0 Hu Hs H0 Hr. pose proof bs_pos. pose proof al_pos. pose proof room.
  unfold read_aligned_buffer. pose proof Hd as (_ & Hinfo & _).
  apply wp_bind, wp_gets. simpl. rewrite Hinfo.
  pure_step ltac:(apply debug_assert_buffer_aligned; try done; u64_side).
  pure_step ltac:(apply is_aligned_val; u64_side).
  destruct (Z.eqb_spec (offset mod bs) 0) as [Ho|Ho].
  { apply read_aligned_offset_spec; try done. u64_side. }
  destruct (boundary offset Ho) as [Hb1 Hb2]. modb offset.
  apply wp_bind, wp_gets. simpl. set (n := zlen out) in *.
  pure_step ltac:(apply round_up_ok; lia).
  pure_step ltac:(apply sum_ok; lia).
  cbv zeta. set (gap := (- offset) mod bs) in *. set (rel := Z.min gap n).
  replace (Z.min (offset + gap) (offset + n)) with (offset + rel) by lia.
  pure_step ltac:(rewrite sn_sub by u64_side; apply into_val; lia).
  replace (offset + rel - offset) with rel by lia.
  apply wp_bind.
  eapply wp_mono with (Q := λ _, tail_read d out scratch offset rel)
    (X := λ _, read_err d out scratch); [| |done].
  { destruct (Z.ltb_spec rel n).
    - apply read_past_boundary_spec; try done; try lia. by replace rel with gap by lia.
    - apply wp_ret. unfold tail_read. simpl. rewrite !slice_empty by lia. done. }
  intros _ [d1 t1 s1] (Hd1 & Hq1 & Hl1 & Ht1 & Hs1). simpl in *.
  destruct Hs as (Hsa & Hsu & Hs).
  assert (Hbs : bs ≤ zlen scratch).
  { destruct Hs as [?|Hs]; [done|]. rewrite Hs, Z.mod_1_r in Ho. done. }
  pure_step ltac:(apply into_val; lia).
  apply wp_bind, wp_index_scr; simpl; try lia.
  rewrite round_down_val by u64_side.
  pure_step ltac:(apply into_val; lia).
  pose proof (sub_mod_mod offset) as Hrd.
  pose proof (block_fits (offset - offset mod bs) ltac:(lia) Hrd) as Hfit.
  apply wp_bind, wp_on_scr; simpl; try lia.
  eapply wp_mono; [apply read_aligned_all_spec|..]; simpl; try done;
    rewrite ?zlen_slice by lia; try done; try lia.
  { by rewrite Z.mod_same by lia. }
  2: { intros _ [d2 b2] (? & ? & Hl2). unfold read_err. simpl in *. rewrite length_slice in Hl2.
       split_and!; try done; [auto|]. rewrite length_splice; lia. }
  intros _ [d2 b2] (Hd2 & Hq2 & ->). simpl in *.
  apply wp_bind, wp_get_tgt; simpl; try lia.
  replace (Val offset -! Val (offset - offset mod bs)) with (Val (offset mod bs))
    by (rewrite sn_sub by u64_side; f_equal; lia).
  pure_step ltac:(apply into_val; lia).
  pure_step ltac:(apply sum_ok; lia).
  apply wp_copy_scr_to_tgt; simpl; rewrite ?length_splice by (rewrite ?zlen_slice; lia); try lia.
  unfold read_post. simpl.
  split_and!; try done; [auto| |rewrite length_splice; rewrite ?zlen_slice; lia].
  rewrite slice_splice_in by (rewrite ?zlen_slice; lia).
  rewrite slice_slice by lia.
  replace (offset - offset mod bs + (offset mod bs - 0)) with offset by lia.
  replace (offset mod bs + rel - offset mod bs) with rel by lia.
  apply splice_head; try lia. done.
Qed.

(** ** The scratch buffer *)

(** The part for partial blocks. *)
Definition block_part : Z := if bs =? 1 then 0 else bs.

(** A scratch buffer of [scratch_size] bytes that does not start one byte
    after an aligned address. *)
Definition scratch_room (saddr : Z) (scratch : bytes) : Prop :=
  0 ≤ saddr ∧ saddr + zlen scratch + al < 2 ^ 64 ∧
  (al - 1) * 2 + block_part ≤ zlen scratch ∧ (al = 1 ∨ saddr mod al ≠ 1).

(** What [split_scratch] returns: two disjoint aligned parts. *)
Definition parts_ok (saddr : Z) (scratch : bytes) (p q : Z * Z) : Prop :=
  snd p = al - 1 ∧ snd q = block_part ∧ 0 ≤ fst p ∧ fst p + (al - 1) ≤ fst q ∧
  fst q + block_part ≤ zlen scratch ∧
  (saddr + fst p) mod al = 0 ∧ (saddr + fst q) mod al = 0.

Lemma aligned_subslice_ok addr b :
  0 ≤ addr → addr + al < 2 ^ 64 → (- addr) mod al ≤ zlen b →
  aligned_subslice addr b (Val al) =
    Ok ((- addr) mod al, slice b ((- addr) mod al) (zlen b - (- addr) mod al)).
Proof.
  intros. pose proof al_pos. pose proof (Z.mod_pos_bound (- addr) al).
  unfold aligned_subslice. rewrite from_int_u64, round_up_val, sn_sub by u64_side.
  rewrite into_val by lia. rewrite ok_bind.
  replace (addr + (- addr) mod al - addr) with ((- addr) mod al) by lia.
  by rewrite get_range_Some by lia.
Qed.

Lemma align_up_mod x : (x + (- x) mod al) mod al = 0.
Proof.
  pose proof al_pos. rewrite Z.add_mod_idemp_r by lia. rewrite Z.add_opp_diag_r.
  apply Z.mod_0_l. lia.
Qed.

(** The distance to the next aligned address, one byte before a full step. *)
Lemma neg_mod_pred x :
  x mod al = 0 → (- (x + (al - 1))) mod al = if al =? 1 then 0 else 1.
Proof.
  intros Hx. pose proof al_pos. destruct (Z.eqb_spec al 1) as [->|]; [apply Z.mod_1_r|].
  pose proof (Z.div_mod x al). symmetry. apply Z.mod_unique_pos with (- (x / al) - 1); nia.
Qed.

Lemma neg_mod_max x : 1 < al → 0 ≤ x → x mod al ≠ 1 → (- x) mod al ≤ al - 2.
Proof.
  intros H1 H0 Hx. pose proof (Z.mod_pos_bound x al). pose proof (Z.mod_pos_bound (- x) al).
  destruct (decide (x mod al = 0)) as [E|E].
  - rewrite Z.mod_opp_l_z by lia. lia.
  - rewrite Z.mod_opp_l_nz by lia. lia.
Qed.

Lemma split_scratch_ok saddr scratch :
  scratch_room saddr scratch →
  ∃ p q, split_scratch i saddr scratch = Ok (p, q) ∧ parts_ok saddr scratch p q.
Proof.
  intros (H0 & Hend & Hlen & Hmis). pose proof bs_pos. pose proof al_pos. pose proof room.
  set (o1 := (- saddr) mod al). pose proof (Z.mod_pos_bound (- saddr) al al_pos).
  assert (Hbp : 0 ≤ block_part ≤ bs) by (unfold block_part; case_if; lia).
  assert (Ha1 : (saddr + o1) mod al = 0) by apply align_up_mod.
  pose proof (neg_mod_pred _ Ha1) as Hn.
  assert (Hfit : o1 + (al - 1) + (if al =? 1 then 0 else 1) + block_part ≤ zlen scratch).
  { destruct (Z.eqb_spec al 1) as [E|E].
    - assert (o1 = 0) by (unfold o1; rewrite E; apply Z.mod_1_r). lia.
    - pose proof (neg_mod_max saddr). destruct Hmis; [done|]. lia. }
  assert (Hc : 0 ≤ (if al =? 1 then 0 else 1) ≤ 1) by (case_if; lia).
  set (c := if al =? 1 then 0 else 1) in *.
  exists (o1, al - 1), (o1 + (al - 1) + c, block_part). split.
  - unfold split_scratch. rewrite aligned_subslice_ok by lia. rewrite ok_bind. fold o1.
    rewrite sn_sub, into_val, ok_bind by (unfold u64_ok; lia).
    set (s1 := slice scratch o1 (zlen scratch - o1)).
    assert (Hs1 : zlen s1 = zlen scratch - o1) by (apply zlen_slice; lia).
    rewrite (index_range_ok s1 0), ok_bind by lia.
    unfold index_from. rewrite (index_range_ok s1 (al - 1)), ok_bind by lia.
    set (s2 := slice s1 (al - 1) (zlen s1 - (al - 1))).
    assert (Hs2 : zlen s2 = zlen scratch - o1 - (al - 1)) by (unfold s2; rewrite zlen_slice; lia).
    rewrite (aligned_subslice_ok (saddr + o1 + (al - 1)) s2), ok_bind, Hn by (rewrite ?Hn; lia).
    assert (Hsz : into_u64 (if bs =? 1 then ZERO else Val bs) = Ok block_part).
    { unfold block_part. case_if; [done|]. apply into_val. lia. }
    rewrite Hsz, ok_bind, index_range_ok, ok_bind by (rewrite ?zlen_slice; lia). done.
  - unfold parts_ok. simpl. split_and!; try lia; try done.
    replace (saddr + (o1 + (al - 1) + c)) with (saddr + o1 + (al - 1) + c) by lia.
    rewrite <-Hn. apply align_up_mod.
Qed.

Lemma wp_with_scratch (p : Z * Z) m (s : Io D) Q X :
  wp m (mkIo (dev s) (tgt s) (slice (scr s) (fst p) (snd p)))
    (λ u s', Q u (mkIo (dev s') (tgt s') (splice (scr s) (fst p) (scr s'))))
    (λ e s', X e (mkIo (dev s') (tgt s') (splice (scr s) (fst p) (scr s')))) →
  wp (with_scratch p m) s Q X.
Proof. unfold wp, with_scratch. by destruct (m _) as [[] ?]. Qed.

Lemma wp_in_scratch (p q : Z * Z) n m (s : Io D) Q X :
  0 ≤ n → n ≤ zlen (slice (scr s) (fst p) (snd p)) →
  wp m (mkIo (dev s) (slice (slice (scr s) (fst p) (snd p)) 0 n)
         (slice (scr s) (fst q) (snd q)))
    (λ u s', Q u (mkIo (dev s') (tgt s) (splice (splice (scr s) (fst p) (tgt s')) (fst q) (scr s'))))
    (λ e s', X e (mkIo (dev s') (tgt s) (splice (splice (scr s) (fst p) (tgt s')) (fst q) (scr s')))) →
  wp (in_scratch p q n m) s Q X.
Proof.
  intros ? ? H. unfold wp, in_scratch in *. rewrite get_range_Some, Z.sub_0_r by lia.
  by destruct (m _) as [[] ?].
Qed.

Lemma block_part_bound : 0 ≤ block_part ∧ (bs ≤ block_part ∨ bs = 1).
Proof. pose proof bs_pos. unfold block_part. destruct (Z.eqb_spec bs 1); lia. Qed.

Lemma parts_scratch_ok saddr scratch p q :
  0 ≤ saddr → saddr + zlen scratch < 2 ^ 64 → parts_ok saddr scratch p q →
  scratch_ok (saddr + fst q) (slice scratch (fst q) (snd q)).
Proof.
  intros H0 Hend (Hp & Hq & ? & ? & ? & ? & ?). pose proof al_pos. pose proof block_part_bound.
  split_and!; [done|u64_side|]. rewrite Hq, zlen_slice by lia. lia.
Qed.

Lemma read_async_spec d out scratch addr saddr offset :
  holds d → 0 ≤ addr → addr + zlen out + al < 2 ^ 64 → scratch_room saddr scratch →
  0 ≤ offset → offset + zlen out ≤ zlen C →
  wp (read_async addr saddr offset) (mkIo d out scratch)
    (λ _, read_post d out scratch offset) (λ _, read_err d out scratch).
Proof.
  intros Hd Ha Hae Hs H0 Hr. pose proof al_pos. pose proof bs_pos. pose proof room.
  pose proof block_part_bound.
  pose proof Hd as (_ & Hinfo & _). pose proof Hs as (Hs0 & Hse & _).
  destruct (split_scratch_ok _ _ Hs) as (p & q & Hsp & Hpq).
  assert (Hq : scratch_ok (saddr + fst q) (slice scratch (fst q) (snd q))).
  { by apply parts_scratch_ok with p; try lia. }
  destruct Hpq as (Hp1 & Hq1 & Hp0 & Hpq & Hqe & Hpa & Hqa).
  unfold read_async. apply wp_bind, wp_gets. simpl. rewrite Hinfo. apply wp_bind, wp_gets. simpl.
  pure_step ltac:(exact Hsp).
  pure_step ltac:(apply is_buffer_aligned_val; u64_side).
  destruct (Z.eqb_spec (addr mod al) 0) as [Hal|Hal].
  { apply wp_with_scratch. simpl.
    eapply wp_mono; [apply read_aligned_buffer_spec; try done; lia|..]; simpl.
    - intros _ [d1 t1 s1] (? & ? & ? & Hl). unfold read_post. simpl in *.
      rewrite Hq1, length_slice in Hl. split_and!; try done. rewrite length_splice; lia.
    - intros _ [d1 t1 s1] (? & ? & ? & Hl). unfold read_err. simpl in *.
      rewrite Hq1, length_slice in Hl. split_and!; try done. rewrite length_splice; lia. }
  assert (Hgap : into_u64 (round_up here (from_int here TUsize addr) (Val al)
                           -! from_int here TUsize addr) = Ok ((- addr) mod al)).
  { pose proof (Z.mod_pos_bound (- addr) al).
    rewrite from_int_u64, round_up_val, sn_sub, into_val by u64_side. f_equal. lia. }
  pure_step ltac:(exact Hgap).
  apply wp_bind, wp_gets. simpl. pose proof (Z.mod_pos_bound (- addr) al al_pos).
  remember (zlen out) as n eqn:Hn. set (u := Z.min ((- addr) mod al) n).
  apply wp_bind, wp_in_scratch; simpl; rewrite ?Hp1, ?zlen_slice by lia; try lia.
  rewrite slice_slice, Z.add_0_r by lia.
  eapply wp_mono; [apply read_aligned_buffer_spec; rewrite ?zlen_slice by lia; try done; try lia|..].
  2: { intros _ [d1 t1 s1] (? & ? & Ht1 & Hl1). unfold read_err. simpl in *.
       assert (zlen t1 = u) by (rewrite Ht1; apply zlen_slice; lia).
       assert (zlen s1 = block_part) by (rewrite Hl1, Hq1; apply zlen_slice; lia). clear Ht1 Hl1.
       split_and!; try done. rewrite !length_splice; rewrite ?length_splice; lia. }
  intros _ [d1 t1 s1] (Hd1 & Hqt1 & Ht1 & Hl1). simpl in *.
  assert (zlen s1 = block_part) by (rewrite Hl1, Hq1; apply zlen_slice; lia). clear Hl1.
  subst t1. rewrite zlen_slice by lia.
  assert (Hsu : zlen (slice C offset u) = u) by (rewrite zlen_slice; lia).
  set (scr1 := splice (splice scratch (fst p) (slice C offset u)) (fst q) s1).
  assert (Hscr1 : length scr1 = length scratch).
  { unfold scr1. rewrite !length_splice; rewrite ?length_splice; lia. }
  apply wp_bind, wp_copy_scr_to_tgt; simpl; try lia.
  assert (Hcp : slice scr1 (fst p) (fst p + u - fst p) = slice C offset u).
  { unfold scr1. rewrite slice_splice_disj by (rewrite ?length_splice; lia).
    apply slice_splice_same; lia. }
  rewrite Hcp. clearbody scr1. assert (Hq' : scratch_ok (saddr + fst q) (slice scr1 (fst q) (snd q))).
  { destruct Hq as (? & ? & Hz). split_and!; try done. by rewrite length_slice, Hscr1, <-length_slice. }
  destruct (Z.eqb_spec u n) as [Hun|Hun].
  { apply wp_ret. unfold read_post. simpl. rewrite splice_full by lia. by rewrite <-Hn, Hun. }
  pure_step ltac:(apply sum_ok; lia).
  apply wp_in_tgt; simpl; rewrite ?length_splice by lia; try lia.
  rewrite slice_splice_disj by lia.
  apply wp_with_scratch. simpl.
  eapply wp_mono; [apply read_aligned_buffer_spec; rewrite ?zlen_slice by lia; try done; try lia|..];
    simpl.
  { replace u with ((- addr) mod al) by lia. apply align_up_mod. }
  - intros _ [d2 t2 s2] (? & ? & Ht2 & Hl2). unfold read_post. simpl in *.
    assert (zlen s2 = block_part) by (rewrite Hl2, Hq1; apply zlen_slice; lia). clear Hl2.
    rewrite zlen_slice in Ht2 by lia. subst t2.
    split_and!; try done; [auto| |rewrite length_splice; lia].
    replace u with (0 + zlen (slice C offset u)) at 2 by lia.
    rewrite splice_splice_adj by (rewrite ?zlen_slice by lia; lia).
    rewrite splice_full by (rewrite length_app, Nat2Z.inj_add, !zlen_slice by lia; lia).
    rewrite slice_app_split by lia. f_equal. lia.
  - intros _ [d2 t2 s2] (? & ? & Ht2 & Hl2). unfold read_err. simpl in *.
    assert (Hout : length (splice out 0 (slice C offset u)) = length out) by (apply length_splice; lia).
    assert (zlen t2 = n - u) by (rewrite Ht2; apply zlen_slice; lia).
    assert (zlen s2 = block_part) by (rewrite Hl2, Hq1; apply zlen_slice; lia). clear Ht2 Hl2.
    split_and!; try done; [auto|rewrite length_splice; lia..].
Qed.
End Read.
