(* ===== verification/BlockWrite.v ===== *)
(** * libstorage: writing is exact

    The write algorithm against the device contract: a write of a buffer at
    any address to any range of the medium changes exactly the bytes of the
    range and gives the caller's buffer back unchanged, although it is rotated
    on the way and partial blocks are read, modified and written. If the device
    fails, only blocks that overlap the range are affected, and the buffer is
    still given back unchanged. *)

From S2P Require Import Prelude SafeMath LibError Utils Block BlockAlgo BlockSpec BlockRead.
Import SafeNum.

(** ** Splices *)

(** Writing back a modified copy of a range. *)
Lemma splice_modify {A} (l e : list A) x y m :
  0 ≤ x → 0 ≤ y → y + zlen e ≤ m → x + m ≤ zlen l →
  splice l x (splice (slice l x m) y e) = splice l (x + y) e.
Proof.
  intros. assert (zlen (slice l x m) = m) by (apply zlen_slice; lia).
  apply list_eq. intros k.
  assert (Hs : length (splice (slice l x m) y e) = Z.to_nat m).
  { rewrite length_splice by lia. lia. }
  rewrite lookup_splice by lia. rewrite Hs. rewrite lookup_splice by lia.
  rewrite lookup_splice by lia. rewrite lookup_slice.
  repeat case_decide; try lia; try done; f_equal; lia.
Qed.

Lemma split_at {A} (l : list A) r :
  0 ≤ r ≤ zlen l → slice l 0 r ++ slice l r (zlen l - r) = l.
Proof.
  intros. rewrite (slice_app_split l 0 r) by lia. apply slice_all. lia.
Qed.

Lemma splice_in_two {A} (l d : list A) off r :
  0 ≤ off → 0 ≤ r ≤ zlen d → off + zlen d ≤ zlen l →
  splice (splice l off (slice d 0 r)) (off + r) (slice d r (zlen d - r)) = splice l off d.
Proof.
  intros. rewrite <-(split_at d r) at 4 by lia.
  assert (Hr : zlen (slice d 0 r) = r) by (apply zlen_slice; lia).
  replace (off + r) with (off + zlen (slice d 0 r)) by lia.
  apply splice_splice_adj; [lia|]. rewrite Hr, zlen_slice by lia. lia.
Qed.

Lemma splice_in_two_rev {A} (l d : list A) off r :
  0 ≤ off → 0 ≤ r ≤ zlen d → off + zlen d ≤ zlen l →
  splice (splice l (off + r) (slice d r (zlen d - r))) off (slice d 0 r) = splice l off d.
Proof.
  intros. rewrite <-(split_at d r) at 4 by lia.
  assert (Hr : zlen (slice d 0 r) = r) by (apply zlen_slice; lia).
  replace (off + r) with (off + zlen (slice d 0 r)) by lia.
  apply splice_splice_adj_rev; [lia|]. rewrite Hr, zlen_slice by lia. lia.
Qed.

Lemma info_ok_length i C C' : info_ok i C → length C' = length C → info_ok i C'.
Proof. intros [] E. split; rewrite ?E; done. Qed.

Section Write.
Context {D : Type} `{!BlockIo D} `{!BlockIoSpec D}.
Context (i : BlockInfo).
Abbreviation bs := (block_size i).
Abbreviation al := (alignment i).

Definition write_post (C : bytes) (d : D) (data scratch : bytes) (offset : Z) (s : Io D) : Prop :=
  holds i (splice C offset data) (dev s) ∧ (quiet d → quiet (dev s)) ∧ tgt s = data ∧
  length (scr s) = length scratch.
(** After a failure: what was written lies in the blocks [lo, hi). *)
Definition write_err (C : bytes) (d : D) (data scratch : bytes) (lo hi : Z) (s : Io D) : Prop :=
  (∃ C', holds i C' (dev s) ∧ same_outside lo hi C C') ∧ ¬ quiet d ∧ tgt s = data ∧
  length (scr s) = length scratch.

Lemma write_err_mono C C1 d d1 data scratch scratch1 lo hi lo1 hi1 s :
  same_outside lo hi C C1 → lo ≤ lo1 → hi1 ≤ hi → (quiet d → quiet d1) →
  length scratch1 = length scratch →
  write_err C1 d1 data scratch1 lo1 hi1 s → write_err C d data scratch lo hi s.
Proof.
  intros HC ? ? Hq Hl ((C' & H & HC') & ? & ? & ?). split_and!; try done; [|auto|congruence].
  exists C'. split; [done|].
  eapply same_outside_trans; [done|]. by eapply same_outside_mono.
Qed.

Lemma write_aligned_all_spec C d b addr offset :
  info_ok i C → holds i C d → addr mod al = 0 → u64_ok addr → offset mod bs = 0 →
  zlen b mod bs = 0 → 0 ≤ offset → offset + zlen b ≤ zlen C →
  wp (write_aligned_all addr offset) (d, b)
    (λ _ s, holds i (splice C offset b) (fst s) ∧ (quiet d → quiet (fst s)) ∧ snd s = b)
    (λ _ s, (∃ C', holds i C' (fst s) ∧ same_outside offset (offset + zlen b) C C') ∧
            ¬ quiet d ∧ snd s = b).
Proof.
  intros Hi (Hok & Hinfo & HC) Ha Hu Ho Hb H0 Hr. unfold write_aligned_all.
  pose proof (bs_pos i C Hi). pose proof (room i C Hi).
  apply wp_bind, wp_gets. cbv [id]. rewrite Hinfo.
  pure_step ltac:(eapply check_range_ok; try done; lia).
  assert (Hq : offset / bs * bs = offset).
  { pose proof (Z.div_mod offset bs). lia. }
  assert (0 ≤ offset / bs) by (apply Z.div_pos; lia).
  pure_step ltac:(apply into_u64_val; unfold u64_ok; nia).
  eapply wp_mono; [apply write_law; rewrite ?Hinfo, ?HC, ?Hq; try done| |]; simpl.
  - intros _ [d' b'] (? & E1 & E2 & ? & ->). rewrite Hinfo, HC, Hq in *. unfold holds. simpl.
    split_and!; done.
  - intros _ [d' b'] (? & E1 & E2 & ? & ?). rewrite Hinfo, HC, Hq in *. unfold holds. simpl in *.
    split_and!; try done. by exists (content d').
Qed.

(** Read, modify and write one block: [data[a..b]] goes to [y] bytes into the
    block at [x]. *)
Lemma modify_block_spec C d data scratch saddr x y z a b k Q X :
  info_ok i C → holds i C d → scratch_ok i saddr scratch → bs ≤ zlen scratch →
  x mod bs = 0 → 0 ≤ x → x + bs ≤ zlen C → 0 ≤ a ≤ b → b ≤ zlen data →
  0 ≤ y → z = y + (b - a) → z ≤ bs →
  (∀ s, write_post C d (slice data a (b - a)) scratch (x + y)
          (mkIo (dev s) (slice data a (b - a)) (scr s)) → tgt s = data → Q tt s) →
  (∀ e s, write_err C d data scratch x (x + bs) s → X e s) →
  (∀ s, wp (copy_tgt_to_scr y z a b;; on_scr bs (write_aligned_all saddr x)) s Q X → wp k s Q X) →
  wp (on_scr bs (read_aligned_all saddr x);; k) (mkIo d data scratch) Q X.
Proof.
  intros Hi Hd (Hsa & Hsu & _) Hbs Hx H0 Hf Hab Hb Hy -> Hyb HQ HX Hk.
  pose proof (bs_pos i C Hi). pose proof (room i C Hi).
  assert (Hmod : zlen (slice scratch 0 bs) mod bs = 0).
  { rewrite zlen_slice by lia. apply Z.mod_same. lia. }
  apply wp_bind, wp_on_scr; simpl; try lia.
  eapply wp_mono; [apply (read_aligned_all_spec i C Hi)|..]; simpl; try done;
    rewrite ?zlen_slice by lia; try lia.
  2: { intros e [d1 b1] (Hd1 & Hnq & Hl). simpl in *.
       assert (zlen b1 = bs) by (rewrite Hl; apply zlen_slice; lia).
       apply HX. split_and!; try done; [exists C; auto using same_outside_refl|].
       simpl. rewrite length_splice; lia. }
  intros _ [d1 b1] (Hd1 & Hq1 & ->). simpl.
  set (blk := slice C x bs). assert (Hblk : zlen blk = bs) by (apply zlen_slice; lia).
  set (e := slice data a (b - a)). assert (He : zlen e = b - a) by (apply zlen_slice; lia).
  set (s1 := splice scratch 0 blk).
  assert (Hs1 : length s1 = length scratch) by (apply length_splice; lia).
  apply Hk, wp_bind, wp_copy_tgt_to_scr; simpl; try lia.
  fold e. set (s2 := splice s1 y e).
  assert (Hs2 : length s2 = length scratch) by (rewrite <-Hs1; apply length_splice; lia).
  assert (Hmid : slice s2 0 bs = splice blk y e).
  { unfold s2, s1. list_ext. }
  apply wp_on_scr; simpl; try lia. rewrite Hmid.
  assert (Hlm : zlen (splice blk y e) = bs) by (rewrite length_splice; lia).
  eapply wp_mono; [apply (write_aligned_all_spec C)|..]; simpl; try done; try lia.
  { by rewrite Hlm, Z.mod_same by lia. }
  - intros [] [d2 b2] (Hd2 & Hq2 & ->). simpl in *. apply HQ; [|done].
    unfold blk in Hd2. rewrite splice_modify in Hd2 by lia.
    split_and!; simpl; try done; [auto|]. rewrite length_splice; lia.
  - intros err [d2 b2] ((C' & ? & ?) & Hnq & ->). simpl in *. apply HX. rewrite Hlm in *.
    split_and!; simpl; try done; [by exists C'|auto|]. rewrite length_splice; lia.
Qed.

(** The end of the last block that overlaps a range ending at [x]. *)
Definition block_end (x : Z) : Z := x + (- x) mod bs.

Lemma block_end_bounds x : 0 < bs → x ≤ block_end x < x + bs.
Proof. intros. unfold block_end. pose proof (Z.mod_pos_bound (- x) bs). lia. Qed.

(** A block boundary before the end of the range, and its block. *)
Lemma block_end_ge x y : 0 < bs → x mod bs = 0 → x < y → x + bs ≤ block_end y.
Proof.
  intros Hb Hx Hy. unfold block_end.
  assert (Hm : (y + (- y) mod bs) mod bs = 0).
  { rewrite Z.add_mod_idemp_r by lia. rewrite Z.add_opp_diag_r. apply Z.mod_0_l. lia. }
  pose proof (Z.mod_pos_bound (- y) bs).
  pose proof (Z.div_mod x bs). pose proof (Z.div_mod (y + (- y) mod bs) bs).
  assert (x / bs < (y + (- y) mod bs) / bs) by nia. nia.
Qed.

Lemma write_aligned_offset_spec C d data scratch addr saddr offset :
  info_ok i C → holds i C d → addr mod al = 0 → u64_ok addr → scratch_ok i saddr scratch →
  offset mod bs = 0 → 0 ≤ offset → offset + zlen data ≤ zlen C →
  wp (write_aligned_offset_and_buffer addr saddr offset) (mkIo d data scratch)
    (λ _, write_post C d data scratch offset)
    (λ _, write_err C d data scratch offset (block_end (offset + zlen data))).
Proof.
  intros Hi Hd Ha Hu Hs Ho H0 Hr.
  pose proof (bs_pos i C Hi) as Hbs. pose proof (al_pos i C Hi). pose proof (room i C Hi).
  unfold write_aligned_offset_and_buffer. pose proof Hd as (_ & Hinfo & _).
  apply wp_bind, wp_gets. simpl. rewrite Hinfo.
  pure_step ltac:(apply debug_assert_aligned; try done; u64_side).
  pure_step ltac:(by apply debug_assert_buffer_aligned).
  apply wp_bind, wp_gets. simpl.
  pure_step ltac:(apply (round_len_ok i C Hi); lia).
  remember (zlen data) as n eqn:Hn. pose proof (Z.mod_pos_bound n bs Hbs). pose proof (Z.mod_le n bs).
  set (r := n - n mod bs). assert (Hr0 : 0 ≤ r ≤ n) by lia.
  assert (Hrm : r mod bs = 0) by apply (sub_mod_mod i C Hi).
  pose proof (block_end_bounds (offset + n) Hbs).
  set (hi := block_end (offset + n)) in *.
  set (C1 := splice C offset (slice data 0 r)).
  assert (Hsl : zlen (slice data 0 r) = r) by (apply zlen_slice; lia).
  assert (HC1 : same_outside offset hi C C1).
  { eapply same_outside_mono; [apply same_outside_splice; lia|lia|lia]. }
  apply wp_bind.
  eapply wp_mono with (Q := λ _ s, holds i C1 (dev s) ∧ (quiet d → quiet (dev s)) ∧
      tgt s = data ∧ scr s = scratch) (X := λ _, write_err C d data scratch offset hi); [| |done].
  { destruct (Z.gtb_spec r 0).
    - apply wp_in_tgt; simpl; try lia. apply wp_on_tgt. simpl. rewrite Z.sub_0_r.
      eapply wp_mono; [apply (write_aligned_all_spec C)|..]; simpl; rewrite ?Hsl; try done; try lia.
      + intros _ [d' b'] (? & ? & ->). simpl in *. by rewrite splice_slice by lia.
      + intros _ [d' b'] ((C' & ? & ?) & ? & ->). simpl in *.
        split_and!; simpl; try done; [exists C'|by rewrite splice_slice by lia].
        split; [done|]. eapply same_outside_mono; [done|lia|lia].
    - apply wp_ret. simpl. split_and!; try done. unfold C1. by rewrite slice_empty, splice_nil by lia. }
  intros _ [d1 t1 s1] (Hd1 & Hq1 & Ht1 & Hs1). simpl in *. subst t1 s1.
  apply wp_bind, wp_gets. simpl.
  pure_step ltac:(rewrite get_range_Some by lia; reflexivity).
  rewrite zlen_slice by lia.
  destruct (Z.eqb_spec (n - r) 0) as [Hz|Hnz].
  { apply wp_ret. split_and!; simpl; try done. unfold C1 in Hd1.
    rewrite slice_all in Hd1 by lia. done. }
  pose proof Hs as (Hsa & Hsu & Hsz). assert (Hbz : bs ≤ zlen scratch).
  { destruct Hsz as [?|Hsz]; [done|]. subst r. rewrite Hsz in *. rewrite Z.mod_1_r in *. lia. }
  pure_step ltac:(apply (sum_ok offset r); lia).
  pure_step ltac:(apply into_val; lia).
  assert (HlC1 : length C1 = length C) by apply HC1.
  assert (Hi1 : info_ok i C1) by by apply info_ok_length with C.
  assert (Hom : (offset + r) mod bs = 0) by by apply (add_mod_0 i C Hi).
  pose proof (block_fits i C1 Hi1 (offset + r) ltac:(lia) Hom ltac:(lia)).
  pose proof (block_end_ge (offset + r) (offset + n) Hbs Hom ltac:(lia)).
  apply modify_block_spec with C1 0 (n - r) r n; try done; try lia.
  - intros [d2 t2 s2] (Hd2 & Hq2 & _ & Hl2) Ht2. simpl in *. subst t2. split_and!; simpl; auto.
    rewrite Z.add_0_r in Hd2. unfold C1 in Hd2. rewrite Hn in Hd2. rewrite splice_in_two in Hd2 by lia.
    done.
  - intros e s He. eapply (write_err_mono C C1); [..|exact He]; try done; lia.
Qed.

(** ** Rotation *)

Lemma rotate_left_spec d data scratch rel (Q : unit → Io D → Prop) X :
  0 ≤ rel ≤ zlen data → zlen data < 2 ^ 64 → rel ≤ zlen scratch →
  (∀ s1, length s1 = length scratch →
     Q tt (mkIo d (slice data rel (zlen data - rel) ++ slice data 0 rel) s1)) →
  wp (rotate_left rel) (mkIo d data scratch) Q X.
Proof.
  intros Hr Hl Hs HQ. unfold rotate_left. remember (zlen data) as n eqn:Hn.
  set (A := slice data rel (n - rel)). assert (HA : zlen A = n - rel) by (apply zlen_slice; lia).
  set (B := slice data 0 rel). assert (HB : zlen B = rel) by (apply zlen_slice; lia).
  apply wp_bind, wp_copy_tgt_to_scr; simpl; try lia. rewrite Z.sub_0_r. fold B.
  assert (Hs1 : length (splice scratch 0 B) = length scratch) by (apply length_splice; lia).
  apply wp_bind, wp_gets. simpl. rewrite <-Hn.
  apply wp_bind, wp_tgt_copy_within; simpl; try lia. fold A.
  pure_step ltac:(rewrite checked_Some by lia; reflexivity).
  assert (Ht1 : length (splice data 0 A) = length data) by (apply length_splice; lia).
  apply wp_copy_scr_to_tgt; simpl; rewrite ?Hs1, ?Ht1; try lia.
  rewrite Z.sub_0_r, slice_splice_same by lia.
  replace (n - rel) with (0 + zlen A) by lia. rewrite splice_splice_adj by lia.
  rewrite splice_full by (rewrite length_app; lia). by apply HQ.
Qed.

Lemma rotate_right_spec d A B scratch rel (Q : unit → Io D → Prop) X :
  zlen B = rel → zlen A + zlen B < 2 ^ 64 → rel ≤ zlen scratch →
  (∀ s1, length s1 = length scratch → Q tt (mkIo d (B ++ A) s1)) →
  wp (rotate_right rel) (mkIo d (A ++ B) scratch) Q X.
Proof.
  intros Hr Hl Hs HQ. unfold rotate_right.
  apply wp_bind, wp_gets. simpl. rewrite length_app.
  pure_step ltac:(rewrite checked_Some by lia; reflexivity).
  replace (Z.of_nat (length A + length B) - rel) with (zlen A) by lia.
  apply wp_bind, wp_copy_tgt_to_scr; simpl; rewrite ?length_app; try lia.
  replace (Z.of_nat (length A + length B) - zlen A) with (zlen B) by lia.
  rewrite slice_app_r, slice_all by lia.
  assert (Hs1 : length (splice scratch 0 B) = length scratch) by (apply length_splice; lia).
  apply wp_bind, wp_tgt_copy_within; simpl; rewrite ?length_app; try lia.
  rewrite Z.sub_0_r, slice_app_l by lia.
  assert (Ht1 : length (splice (A ++ B) rel A) = (length A + length B)%nat).
  { rewrite length_splice; rewrite ?length_app; lia. }
  apply wp_copy_scr_to_tgt; simpl; rewrite ?Hs1, ?Ht1; try lia.
  rewrite Z.sub_0_r, slice_splice_same by lia.
  replace rel with (0 + zlen B) by lia. rewrite splice_splice_adj_rev by (rewrite ?length_app; lia).
  rewrite splice_full by (rewrite !length_app; lia). by apply HQ.
Qed.

(** The data past the boundary is written; the buffer is as it was. *)
Lemma write_past_boundary_spec C d data scratch addr saddr offset rel hi :
  info_ok i C → holds i C d → addr mod al = 0 → 0 ≤ addr → addr + zlen data < 2 ^ 64 →
  scratch_ok i saddr scratch → rel ≤ zlen scratch →
  (offset + rel) mod bs = 0 → 0 ≤ offset → 0 ≤ rel < zlen data → offset + zlen data ≤ zlen C →
  hi = block_end (offset + zlen data) →
  wp (write_past_boundary i addr saddr (offset + rel) rel (zlen data)) (mkIo d data scratch)
    (λ _ s, holds i (splice C (offset + rel) (slice data rel (zlen data - rel))) (dev s) ∧
            (quiet d → quiet (dev s)) ∧ tgt s = data ∧ length (scr s) = length scratch)
    (λ _, write_err C d data scratch (offset + rel) hi).
Proof.
  intros Hi Hd Ha Hu0 Hu Hs Hsr Ho H0 Hrel Hr ->.
  pose proof (al_pos i C Hi). pose proof (room i C Hi). pose proof (bs_pos i C Hi).
  unfold write_past_boundary. remember (zlen data) as n eqn:Hn.
  assert (HA : zlen (slice data rel (n - rel)) = n - rel) by (apply zlen_slice; lia).
  pure_step ltac:(apply is_buffer_aligned_val; u64_side).
  destruct (Z.eqb_spec ((addr + rel) mod al) 0) as [Hal|_].
  - apply wp_in_tgt; simpl; try lia.
    eapply wp_mono; [apply (write_aligned_offset_spec C)|..]; simpl; rewrite ?HA; try done;
      try u64_side; rewrite ?HA.
    + intros _ [d1 t1 s1] (? & ? & ? & ?). simpl in *. subst t1.
      rewrite splice_slice by lia. done.
    + replace (offset + rel + (n - rel)) with (offset + n) by lia.
      intros _ [d1 t1 s1] (? & ? & ? & ?). simpl in *. subst t1.
      rewrite splice_slice by lia. split_and!; done.
  - pure_step ltac:(rewrite !from_int_u64, sn_sub by u64_side; apply into_val; lia).
    apply wp_bind, rotate_left_spec; try lia. intros s1 Hs1. rewrite <-Hn.
    set (A := slice data rel (n - rel)) in *. set (B := slice data 0 rel).
    assert (HB : zlen B = rel) by (apply zlen_slice; lia).
    assert (Hcat : B ++ A = data) by (unfold A, B; rewrite Hn; apply split_at; lia).
    assert (HsA : splice (A ++ B) 0 A = A ++ B).
    { unfold splice. simpl. by rewrite drop_app_length. }
    apply wp_bind, wp_attempt, wp_in_tgt; simpl; rewrite ?length_app; try lia.
    rewrite Z.sub_0_r, slice_app_l by lia.
    eapply wp_mono; [apply (write_aligned_offset_spec C)|..]; simpl; rewrite ?HA; try done;
      try u64_side; rewrite ?HA.
    + destruct Hs as (? & ? & ?). split_and!; try done. by rewrite Hs1.
    + intros [] [d2 t2 s2] (? & ? & ? & Hl2). simpl in *. subst t2. rewrite HsA.
      apply wp_bind, rotate_right_spec; try lia. intros s3 Hs3. rewrite Hcat.
      apply wp_ret. simpl. split_and!; try done. congruence.
    + replace (offset + rel + (n - rel)) with (offset + n) by lia.
      intros e [d2 t2 s2] (? & ? & ? & Hl2). simpl in *. subst t2. rewrite HsA.
      apply wp_bind, rotate_right_spec; try lia. intros s3 Hs3. rewrite Hcat.
      apply wp_raise. split_and!; simpl; try done. congruence.
Qed.

Lemma write_aligned_buffer_spec C d data scratch addr saddr offset :
  info_ok i C → holds i C d → addr mod al = 0 → 0 ≤ addr → addr + zlen data < 2 ^ 64 →
  scratch_ok i saddr scratch → 0 ≤ offset → offset + zlen data ≤ zlen C →
  wp (write_aligned_buffer addr saddr offset) (mkIo d data scratch)
    (λ _, write_post C d data scratch offset)
    (λ _, write_err C d data scratch (offset - offset mod bs)
            (Z.max (offset - offset mod bs + bs) (block_end (offset + zlen data)))).
Proof.
  intros Hi Hd Ha Hu0 Hu Hs H0 Hr. pose proof (room i C Hi).
  pose proof (bs_pos i C Hi) as Hbs. pose proof (al_pos i C Hi).
  unfold write_aligned_buffer. pose proof Hd as (_ & Hinfo & _).
  apply wp_bind, wp_gets. simpl. rewrite Hinfo.
  pure_step ltac:(apply debug_assert_buffer_aligned; try done; u64_side).
  pure_step ltac:(apply is_aligned_val; u64_side).
  pose proof (Z.mod_pos_bound offset bs Hbs). pose proof (Z.mod_le offset bs).
  pose proof (block_end_bounds (offset + zlen data) Hbs).
  set (hi := block_end (offset + zlen data)) in *.
  destruct (Z.eqb_spec (offset mod bs) 0) as [Ho|Ho].
  { pure_step ltac:(apply into_val; lia).
    eapply wp_mono; [apply (write_aligned_offset_spec C); try done; u64_side|done|].
    intros e s He. eapply (write_err_mono C C); [apply same_outside_refl|..|exact He]; try done; lia. }
  destruct (boundary i C Hi offset Ho) as [Hb1 Hb2].
  apply wp_bind, wp_gets. simpl. remember (zlen data) as n eqn:Hn.
  pure_step ltac:(apply (round_up_ok i C Hi); lia).
  pure_step ltac:(apply sum_ok; lia).
  cbv zeta. set (gap := (- offset) mod bs) in *. set (rel := Z.min gap n).
  replace (Z.min (offset + gap) (offset + n)) with (offset + rel) by lia.
  pure_step ltac:(rewrite sn_sub by u64_side; apply into_val; lia).
  replace (offset + rel - offset) with rel by lia.
  pose proof Hs as (Hsa & Hsu & Hsz). assert (Hbz : bs ≤ zlen scratch).
  { destruct Hsz as [?|Hsz]; [done|]. rewrite Hsz, Z.mod_1_r in Ho. done. }
  set (lo := offset - offset mod bs) in *. set (top := Z.max (lo + bs) hi).
  assert (Hlo : lo mod bs = 0) by apply (sub_mod_mod i C Hi).
  set (e := slice data rel (n - rel)). assert (He : zlen e = n - rel) by (apply zlen_slice; lia).
  set (C1 := splice C (offset + rel) e).
  assert (HC1 : same_outside lo top C C1).
  { eapply same_outside_mono; [apply same_outside_splice; lia|lia|lia]. }
  apply wp_bind.
  eapply wp_mono with (Q := λ _ s, holds i C1 (dev s) ∧ (quiet d → quiet (dev s)) ∧
      tgt s = data ∧ length (scr s) = length scratch) (X := λ _, write_err C d data scratch lo top);
    [| |done].
  { destruct (Z.ltb_spec rel n).
    - rewrite Hn. eapply wp_mono; [apply (write_past_boundary_spec C) with (hi := hi)|..];
        try done; try lia.
      + by replace rel with gap by lia.
      + by rewrite <-Hn.
      + intros ? s. by rewrite <-Hn.
      + intros e' s He'. eapply (write_err_mono C C); [apply same_outside_refl|..|exact He'];
          try done; lia.
    - apply wp_ret. simpl. split_and!; try done. unfold C1, e.
      by rewrite slice_empty, splice_nil by lia. }
  intros _ [d1 t1 s1] (Hd1 & Hq1 & Ht1 & Hs1). simpl in *. subst t1.
  pure_step ltac:(apply into_val; lia).
  apply wp_bind, wp_index_scr; simpl; try lia.
  rewrite round_down_val by u64_side. fold lo.
  pure_step ltac:(apply into_val; lia).
  assert (Hi1 : info_ok i C1) by (apply info_ok_length with C; [done|apply HC1]).
  assert (HlC1 : length C1 = length C) by apply HC1.
  pose proof (block_fits i C1 Hi1 lo ltac:(lia) Hlo ltac:(lia)).
  replace (Val offset -! Val lo) with (Val (offset mod bs))
    by (rewrite sn_sub by u64_side; f_equal; lia).
  apply modify_block_spec with C1 (offset mod bs) (offset mod bs + rel) 0 rel; try done; try lia.
  - destruct Hs as (? & ? & ?). split_and!; try done. by rewrite Hs1.
  - intros [d2 t2 s2] (Hd2 & Hq2 & _ & Hl2) Ht2. simpl in *. subst t2.
    split_and!; simpl; [|auto|done|congruence].
    replace (lo + offset mod bs) with offset in Hd2 by lia. rewrite Z.sub_0_r in Hd2.
    unfold C1, e in Hd2. rewrite Hn in Hd2. by rewrite splice_in_two_rev in Hd2 by lia.
  - intros e' s He'. eapply (write_err_mono C C1); [..|exact He']; try done; lia.
  - intros s Hk. apply wp_bind. eapply wp_lift_ok; [apply into_val; lia|].
    apply wp_bind. eapply wp_lift_ok; [apply sum_ok; lia|]. done.
Qed.

Lemma wp_fill_scratch (p : Z * Z) n (s : Io D) (Q : unit → Io D → Prop) X :
  0 ≤ n → n ≤ zlen (slice (scr s) (fst p) (snd p)) → n ≤ zlen (tgt s) →
  Q tt (mkIo (dev s) (tgt s) (splice (scr s) (fst p) (slice (tgt s) 0 n))) →
  wp (fill_scratch p n) s Q X.
Proof.
  intros ? ? ? H. unfold wp, fill_scratch. rewrite !get_range_Some by lia.
  by rewrite Z.sub_0_r.
Qed.

(** The blocks that overlap a range. *)
Definition hull_lo (offset : Z) : Z := offset - offset mod bs.
Definition hull_hi (offset n : Z) : Z :=
  Z.max (hull_lo offset + bs) (block_end (offset + n)).

Lemma block_end_mono x y : 0 < bs → x ≤ y → block_end x ≤ block_end y.
Proof.
  intros Hb Hxy. destruct (decide (x = y)) as [->|]; [lia|].
  destruct (decide (x mod bs = 0)) as [E|E].
  - pose proof (block_end_ge x y Hb E ltac:(lia)). pose proof (block_end_bounds x Hb). unfold block_end in *.
    rewrite Z.mod_opp_l_z in * by lia. lia.
  - assert (block_end x = x - x mod bs + bs) as ->.
    { unfold block_end. rewrite Z.mod_opp_l_nz by lia. lia. }
    pose proof (Z.mod_pos_bound x bs Hb). apply block_end_ge; try lia.
    rewrite Zminus_mod_idemp_r, Z.sub_diag. apply Z.mod_0_l. lia.
Qed.

Lemma hull_lo_mono x y : 0 < bs → x ≤ y → hull_lo x ≤ hull_lo y.
Proof.
  intros Hb Hxy. unfold hull_lo. pose proof (Z.div_mod x bs). pose proof (Z.div_mod y bs).
  pose proof (Z.div_le_mono x y bs Hb Hxy). nia.
Qed.

Lemma hull_hi_mono offset u n :
  0 < bs → 0 ≤ u < n →
  hull_hi offset u ≤ hull_hi offset n ∧ hull_hi (offset + u) (n - u) ≤ hull_hi offset n.
Proof.
  intros Hb Hu. unfold hull_hi. replace (offset + u + (n - u)) with (offset + n) by lia.
  pose proof (block_end_mono (offset + u) (offset + n) Hb ltac:(lia)).
  pose proof (Z.mod_pos_bound (offset + u) bs Hb).
  assert (hull_lo (offset + u) + bs ≤ block_end (offset + n)).
  { apply block_end_ge; try lia; unfold hull_lo; try lia.
    rewrite Zminus_mod_idemp_r, Z.sub_diag. apply Z.mod_0_l. lia. }
  lia.
Qed.

(** The aligned rest of the buffer, after its first [u] bytes are written. *)
Lemma write_rest_spec C d0 d1 data s1 scratch addr saddr offset u q :
  let n := zlen data in
  let C1 := splice C offset (slice data 0 u) in
  info_ok i C → holds i C1 d1 → (quiet d0 → quiet d1) → length s1 = length scratch →
  0 ≤ addr → addr + n + al < 2 ^ 64 → 0 ≤ u ≤ n → (u < n → (addr + u) mod al = 0) →
  0 ≤ fst q → 0 ≤ snd q → fst q + snd q ≤ zlen scratch →
  scratch_ok i (saddr + fst q) (slice s1 (fst q) (snd q)) →
  0 ≤ offset → offset + n ≤ zlen C →
  wp (if u =? n then mret tt else
      offset' ← lift (into_u64 (Val offset +! from_int here TUsize u));
      in_tgt out_of_range u n
        (with_scratch q (write_aligned_buffer (addr + u) (saddr + fst q) offset')))
    (mkIo d1 data s1)
    (λ _, write_post C d0 data scratch offset)
    (λ _, write_err C d0 data scratch (hull_lo offset) (hull_hi offset n)).
Proof.
  intros n C1 Hi Hd1 Hq1 Hs1 Ha Hae Hu Hal Hq0 Hqs Hqe Hsc H0 Hr.
  pose proof (bs_pos i C Hi) as Hbs. pose proof (room i C Hi). pose proof (al_pos i C Hi).
  assert (He : zlen (slice data 0 u) = u) by (apply zlen_slice; lia).
  destruct (Z.eqb_spec u n) as [Hun|Hun].
  { apply wp_ret. split_and!; simpl; try done. unfold C1 in Hd1.
    by rewrite slice_all in Hd1 by lia. }
  pose proof (block_end_bounds (offset + n) Hbs).
  assert (HC1 : same_outside (hull_lo offset) (hull_hi offset n) C C1).
  { pose proof (Z.mod_pos_bound offset bs Hbs).
    eapply same_outside_mono; [apply same_outside_splice; lia|unfold hull_lo; lia|].
    unfold hull_hi. lia. }
  assert (HlC1 : length C1 = length C) by apply HC1. specialize (Hal ltac:(lia)).
  pure_step ltac:(apply sum_ok; lia).
  apply wp_in_tgt; simpl; try lia. apply wp_with_scratch. simpl.
  assert (Hr1 : zlen (slice data u (n - u)) = n - u) by (apply zlen_slice; lia).
  eapply wp_mono; [apply (write_aligned_buffer_spec C1); rewrite ?Hr1; try done; try lia|..]; simpl.
  { by apply info_ok_length with C. }
  - intros _ [d2 t2 s2] (Hd2 & Hq2 & Ht2 & Hl2). simpl in *. subst t2.
    assert (zlen s2 = snd q) by (rewrite Hl2; apply zlen_slice; lia).
    rewrite splice_slice by lia. split_and!; simpl; [|auto|done|rewrite length_splice; lia].
    unfold C1 in Hd2. unfold n in Hd2. by rewrite splice_in_two in Hd2 by lia.
  - intros _ [d2 t2 s2] (Hd2 & Hq2 & Ht2 & Hl2). rewrite Hr1 in *. simpl in *. subst t2.
    assert (zlen s2 = snd q) by (rewrite Hl2; apply zlen_slice; lia).
    rewrite splice_slice by lia. destruct Hd2 as (C' & HC' & Hso).
    split_and!; simpl; [|intros ?; by apply Hq2, Hq1|done|rewrite length_splice; lia].
    exists C'. split; [done|]. eapply same_outside_trans; [exact HC1|].
    eapply same_outside_mono; [exact Hso|apply hull_lo_mono; lia|].
    destruct (hull_hi_mono offset u n Hbs) as [_ Hh]; [lia|]. exact Hh.
Qed.

Lemma write_async_spec C d data scratch addr saddr offset :
  info_ok i C → holds i C d → 0 ≤ addr → addr + zlen data + al < 2 ^ 64 →
  scratch_room i saddr scratch → 0 ≤ offset → offset + zlen data ≤ zlen C →
  wp (write_async addr saddr offset) (mkIo d data scratch)
    (λ _, write_post C d data scratch offset)
    (λ _, write_err C d data scratch (hull_lo offset) (hull_hi offset (zlen data))).
Proof.
  intros Hi Hd Ha Hae Hs H0 Hr. pose proof (al_pos i C Hi) as Hal0. pose proof (room i C Hi).
  pose proof (bs_pos i C Hi) as Hbs. pose proof (block_part_bound i C Hi).
  pose proof Hd as (_ & Hinfo & _). pose proof Hs as (Hs0 & Hse & _).
  destruct (split_scratch_ok i C Hi _ _ Hs) as (p & q & Hsp & Hpq).
  assert (Hq : ∀ s1, length s1 = length scratch →
    scratch_ok i (saddr + fst q) (slice s1 (fst q) (snd q))).
  { intros s1 E. destruct (parts_scratch_ok i C Hi saddr scratch p q) as (? & ? & Hz); try done; try lia.
    split_and!; try done. by rewrite length_slice, E, <-length_slice. }
  destruct Hpq as (Hp1 & Hq1 & Hp0 & Hpq & Hqe & Hpa & Hqa).
  unfold write_async. apply wp_bind, wp_gets. simpl. rewrite Hinfo. apply wp_bind, wp_gets. simpl.
  pure_step ltac:(exact Hsp).
  pure_step ltac:(apply is_buffer_aligned_val; u64_side).
  destruct (Z.eqb_spec (addr mod al) 0) as [Hal|Hal].
  { apply wp_with_scratch. simpl.
    eapply wp_mono; [apply (write_aligned_buffer_spec C); try done; try lia; by apply Hq|..]; simpl.
    - intros _ [d1 t1 s1] (? & ? & ? & Hl). simpl in *.
      assert (zlen s1 = block_part i) by (rewrite Hl, Hq1; apply zlen_slice; lia).
      split_and!; try done. simpl. rewrite length_splice; lia.
    - intros _ [d1 t1 s1] (? & ? & ? & Hl). simpl in *.
      assert (zlen s1 = block_part i) by (rewrite Hl, Hq1; apply zlen_slice; lia).
      split_and!; try done. simpl. rewrite length_splice; lia. }
  assert (Hgap : into_u64 (round_up here (from_int here TUsize addr) (Val al)
                           -! from_int here TUsize addr) = Ok ((- addr) mod al)).
  { pose proof (Z.mod_pos_bound (- addr) al).
    rewrite from_int_u64, round_up_val, sn_sub, into_val by u64_side. f_equal. lia. }
  pure_step ltac:(exact Hgap).
  apply wp_bind, wp_gets. simpl. pose proof (Z.mod_pos_bound (- addr) al Hal0).
  remember (zlen data) as n eqn:Hn. set (u := Z.min ((- addr) mod al) n).
  set (e := slice data 0 u). assert (He : zlen e = u) by (apply zlen_slice; lia).
  apply wp_bind, wp_fill_scratch; simpl; rewrite ?Hp1, ?zlen_slice by lia; try lia. fold e.
  assert (Hs1 : length (splice scratch (fst p) e) = length scratch) by (apply length_splice; lia).
  apply wp_bind, wp_in_scratch; simpl; rewrite ?Hp1, ?zlen_slice by lia; try lia.
  rewrite slice_slice, Z.add_0_r, slice_splice_same by lia.
  eapply wp_mono; [apply (write_aligned_buffer_spec C); rewrite ?He; try done; try lia; by apply Hq|..];
    simpl.
  - intros _ [d1 t1 s1] (Hd1 & Hqt & Ht1 & Hl1). simpl in *. subst t1.
    assert (Hl1' : zlen s1 = block_part i) by (rewrite Hl1, Hq1; apply zlen_slice; lia). clear Hl1.
    set (s2 := splice (splice (splice scratch (fst p) e) (fst p) e) (fst q) s1).
    assert (Hs2 : length s2 = length scratch).
    { unfold s2. rewrite !length_splice; rewrite ?length_splice; lia. }
    rewrite Hn. apply write_rest_spec; try done; try lia.
    + intros Hlt. replace u with ((- addr) mod al) by lia. apply (align_up_mod i C Hi).
    + by apply Hq.
  - intros _ [d1 t1 s1] (Hd1 & Hqt & Ht1 & Hl1). rewrite He in *. simpl in *. subst t1.
    assert (Hl1' : zlen s1 = block_part i) by (rewrite Hl1, Hq1; apply zlen_slice; lia). clear Hl1.
    destruct Hd1 as (C' & HC' & Hso).
    split_and!; simpl; try done; [|rewrite !length_splice; rewrite ?length_splice; lia].
    exists C'. split; [done|]. eapply same_outside_mono; [exact Hso|unfold hull_lo; lia|].
    destruct (decide (u = n)) as [->|]; [unfold hull_hi, hull_lo; lia|].
    destruct (hull_hi_mono offset u n Hbs) as [Hh _]; [lia|]. exact Hh.
Qed.
End Write.
