(* ===== verification/Disk.v ===== *)
(** * libstorage: disks

    Models [Disk] of src/gbl/libstorage/src/lib.rs: a block device with its
    scratch buffer, reads, writes and fills of arbitrary ranges. The properties
    of the block layer are stated here, for every device that keeps the
    contract [BlockIoSpec]. *)

From S2P Require Import Prelude SafeMath LibError Utils Block BlockAlgo BlockSpec BlockRead.
From S2P Require Import BlockWrite.
Import SafeNum.

(** gbl/libstorage/src/lib.rs:195-200, [Disk]: with the address of the scratch buffer. *)
Record Disk (D : Type) := mkDisk { disk_io : D; disk_scratch : bytes; disk_saddr : Z }.
Arguments mkDisk {D}.
Arguments disk_io {D}.
Arguments disk_scratch {D}.
Arguments disk_saddr {D}.

Section DiskOps.
Context {D : Type} `{!BlockIo D}.

(** gbl/libstorage/src/lib.rs:203-218, [Disk::new]. *)
Definition disk_new (io : D) (scratch : bytes) (saddr : Z) : result (Disk D) :=
  sz ← scratch_size (info io);
  if zlen scratch <? sz then Err (BufferTooSmall (Some sz)) else Ok (mkDisk io scratch saddr).

(** gbl/libstorage/src/lib.rs:220-238, [Disk::new_alloc_scratch]: [scratch] is the default
    value of the buffer type, [saddr] where the extended buffer ends up. *)
Definition disk_new_alloc_scratch (io : D) (scratch : bytes) (saddr : Z) : result (Disk D) :=
  sz ← scratch_size (info io);
  n ← arith 64 (Z.max (zlen scratch) sz - zlen scratch);
  disk_new io (scratch ++ replicate (Z.to_nat n) 0) saddr.

(** gbl/libstorage/src/lib.rs:245-248, [Disk::block_info]. *)
Definition disk_block_info (k : Disk D) : BlockInfo := info (disk_io k).

(** A call that works on the device, a buffer of the caller and the scratch
    buffer. *)
Definition on_disk (m : Z → ST (Io D) Error unit) : ST (Disk D * bytes) Error unit := λ s,
  let k := fst s in
  let '(r, t) := m (disk_saddr k) (mkIo (disk_io k) (snd s) (disk_scratch k)) in
  (r, (mkDisk (dev t) (scr t) (disk_saddr k), tgt t)).

(** gbl/libstorage/src/lib.rs:255-268, [Disk::read]: into the buffer at [addr]. *)
Definition disk_read (addr offset : Z) : ST (Disk D * bytes) Error unit :=
  on_disk (λ saddr, read_async addr saddr offset).

(** gbl/libstorage/src/lib.rs:270-282, [Disk::write]. *)
Definition disk_write (addr offset : Z) : ST (Disk D * bytes) Error unit :=
  on_disk (λ saddr, write_async addr saddr offset).
End DiskOps.

(** gbl/libstorage/src/lib.rs:284-324, [Disk::fill]: the part of the caller's buffer at
    [addr] that is used, as an offset and a length in it. *)
Definition fill_buffer (i : BlockInfo) (addr : Z) (scratch : bytes) : result (Z * Z) :=
  blk_sz ← try_int 64 (block_size i);
  match aligned_subslice addr scratch (Val (alignment i)) with
  | Ok (o, v) =>
      if blk_sz =? 0 then Panic else
      let b := zlen v / blk_sz in
      if b >? 0 then
        m ← arith 64 (b * blk_sz);
        _ ← index_range v 0 m;
        Ok (o, m)
      else Ok (o, zlen v)
  | Err _ => Ok (0, zlen scratch)
  | Panic => Panic
  end.

Section Fill.
Context {D : Type} `{!BlockIo D}.

(** gbl/libstorage/src/lib.rs:284-324, [Disk::fill]: the loop over the range, from
    [offset] to [end_]. [Ok false] says that the fuel did not suffice. *)
Fixpoint fill_loop (fuel : nat) (addr o sz offset end_ : Z) : ST (Disk D * bytes) Error bool :=
  if negb (offset <? end_) then mret true else
  match fuel with
  | O => mret false
  | S fuel =>
      rest ← lift (arith 64 (end_ - offset));
      let to_write := Z.min sz rest in
      (λ s, match get_range (snd s) o (o + to_write) with
            | None => (Panic, s)
            | Some sub =>
                let '(r, t) := disk_write (addr + o) offset (fst s, sub) in
                (r, (fst t, splice (snd s) o (snd t)))
            end);;
      offset ← lift (arith 64 (offset + to_write));
      fill_loop fuel addr o sz offset end_
  end.

(** gbl/libstorage/src/lib.rs:284-324, [Disk::fill]: with [size] bytes of value [val], on
    the caller's buffer at [addr]. *)
Definition disk_fill (fuel : nat) (addr offset size val : Z) : ST (Disk D * bytes) Error bool :=
  '(k, scratch) ← gets id;
  if zlen scratch =? 0 then raise InvalidInput else
  '(o, m) ← lift (fill_buffer (disk_block_info k) addr scratch);
  let sz := Z.min size m in
  modify (λ s, (fst s, splice (snd s) o (replicate (Z.to_nat sz) val)));;
  end_ ← lift (into_u64 (Val offset +! Val size));
  fill_loop fuel addr o sz offset end_.
End Fill.

(** ** The state of a disk *)

Section DiskSpec.
Context {D : Type} `{!BlockIo D} `{!BlockIoSpec D}.
Implicit Types k : Disk D.

(** A disk of geometry [i] that holds [C], with a scratch buffer as [Disk::new]
    asks for. *)
Record disk_ok (i : BlockInfo) (C : bytes) (k : Disk D) : Prop := {
  do_info : info_ok i C;
  do_holds : holds i C (disk_io k);
  do_scratch : scratch_room i (disk_saddr k) (disk_scratch k);
}.
Definition disk_quiet k : Prop := quiet (disk_io k).
(** The caller's buffer is in the address space, with room to align it. *)
Definition buffer_ok (i : BlockInfo) (addr n : Z) : Prop :=
  0 ≤ addr ∧ addr + n + alignment i < 2 ^ 64.

Lemma scratch_room_length i saddr s s' :
  scratch_room i saddr s → length s' = length s → scratch_room i saddr s'.
Proof. intros (? & ? & ? & ?) E. unfold scratch_room. by rewrite E. Qed.

Lemma disk_read_spec i C k out addr offset :
  disk_ok i C k → buffer_ok i addr (zlen out) → 0 ≤ offset → offset + zlen out ≤ zlen C →
  wp (disk_read addr offset) (k, out)
    (λ _ s, disk_ok i C (fst s) ∧ (disk_quiet k → disk_quiet (fst s)) ∧
            snd s = slice C offset (zlen out))
    (λ _ s, disk_ok i C (fst s) ∧ ¬ disk_quiet k ∧ length (snd s) = length out).
Proof.
  intros [Hi Hh Hs] [Ha Hae] H0 Hr. unfold disk_read, on_disk.
  pose proof (read_async_spec i C Hi (disk_io k) out (disk_scratch k) addr (disk_saddr k) offset
    Hh Ha Hae Hs H0 Hr) as H.
  unfold wp in *. simpl. destruct (read_async _ _ _ _) as [[]  [d' t' s']]; simpl in *; try done.
  - destruct H as (? & ? & ? & ?). split_and!; try done. split; try done.
    by eapply scratch_room_length.
  - destruct H as (? & ? & ? & ?). split_and!; try done. split; try done.
    by eapply scratch_room_length.
Qed.

Lemma disk_write_spec i C k data addr offset :
  disk_ok i C k → buffer_ok i addr (zlen data) → 0 ≤ offset → offset + zlen data ≤ zlen C →
  wp (disk_write addr offset) (k, data)
    (λ _ s, disk_ok i (splice C offset data) (fst s) ∧ (disk_quiet k → disk_quiet (fst s)) ∧
            snd s = data)
    (λ _ s, (∃ C', disk_ok i C' (fst s) ∧
                   same_outside (hull_lo i offset) (hull_hi i offset (zlen data)) C C') ∧
            ¬ disk_quiet k ∧ snd s = data).
Proof.
  intros [Hi Hh Hs] [Ha Hae] H0 Hr. unfold disk_write, on_disk.
  pose proof (write_async_spec i C (disk_io k) data (disk_scratch k) addr (disk_saddr k) offset
    Hi Hh Ha Hae Hs H0 Hr) as H.
  unfold wp in *. simpl. destruct (write_async _ _ _ _) as [[]  [d' t' s']]; simpl in *; try done.
  - destruct H as (? & ? & ? & ?). split_and!; try done. split; try done.
    + apply info_ok_length with C; [done|]. by apply length_splice.
    + by eapply scratch_room_length.
  - destruct H as ((C' & ? & Hso) & ? & ? & ?). split_and!; try done. exists C'.
    split; [|done]. split; try done; [by apply info_ok_length with C; [|apply Hso]|].
    by eapply scratch_room_length.
Qed.

(** [scratch_size] is [scratch_room]'s bound. *)
Lemma scratch_size_val i C :
  info_ok i C → scratch_size i = Ok ((alignment i - 1) * 2 + block_part i).
Proof.
  intros Hi. pose proof (bs_pos i C Hi). pose proof (al_pos i C Hi). pose proof (room i C Hi).
  pose proof (block_part_bound i C Hi). destruct Hi as [_ [_ ?] _ _ _].
  unfold scratch_size. fold (block_part i). assert (block_part i ≤ block_size i).
  { unfold block_part. case_if; lia. }
  rewrite sn_sub, sn_mul, sn_add by u64_side. apply into_val. lia.
Qed.
End DiskSpec.

(** * libstorage: the properties of the block layer

    Reads, writes and fills of a [Disk] over any device that keeps the
    contract of [BlockSpec], and the two places where the code falls short: the
    size it asks for its scratch buffer, and a fill with a buffer whose aligned
    part is empty. *)

Import SafeNum.

(** A RAM disk of four-byte blocks and alignment for the examples. *)
Definition ram_disk (st : bytes) (saddr : Z) : Disk RamBlock.RamBlockIo :=
  mkDisk (RamBlock.mk 4 4 st 0 0 None) (replicate 10 0) saddr.
Definition ram_info4 (st : bytes) : BlockInfo := mkInfo 4 (zlen st / 4) 4.
Import RamBlockSpec.

Lemma ram_disk_ok st saddr :
  zlen st = 4 * (zlen st / 4) → zlen st < 1000 → 0 ≤ saddr < 100000 → saddr mod 4 ≠ 1 →
  disk_ok (ram_info4 st) st (ram_disk st saddr).
Proof.
  intros H1 H2 Hs Hm. assert (Hi : info_ok (ram_info4 st) st).
  { split; simpl; lia. }
  split; [done| |].
  - split_and!; done.
  - split_and!; unfold block_part; simpl; lia.
Qed.

Section Properties.
Context {D : Type} `{!BlockIo D} `{!BlockIoSpec D}.


(** C2. A write of any buffer to any range of the medium never panics; if it
    succeeds exactly the bytes of the range have changed, to those of the
    buffer, and if the device fails nothing outside the blocks of the range has.
    In both cases the caller's buffer, which the algorithm rotates in place,
    is what it was. *)
Theorem disk_write_exact i C (k : Disk D) data addr offset :
  disk_ok i C k → buffer_ok i addr (zlen data) → 0 ≤ offset → offset + zlen data ≤ zlen C →
  wp (disk_write addr offset) (k, data)
    (λ _ s, disk_ok i (splice C offset data) (fst s) ∧ (disk_quiet k → disk_quiet (fst s)) ∧
            snd s = data)
    (λ _ s, (∃ C', disk_ok i C' (fst s) ∧
                   same_outside (hull_lo i offset) (hull_hi i offset (zlen data)) C C') ∧
            ¬ disk_quiet k ∧ snd s = data).
Proof. apply disk_write_spec. Qed.

(** ** The size of the scratch buffer *)

Lemma split_scratch_short i C saddr scratch :
  info_ok i C → 1 < alignment i → 1 < block_size i → 0 ≤ saddr →
  saddr + zlen scratch + alignment i < 2 ^ 64 → saddr mod alignment i = 1 →
  zlen scratch = (alignment i - 1) * 2 + block_size i →
  split_scratch i saddr scratch = Panic.
Proof.
  intros Hi Hal Hbs H0 Hend Hm Hl. pose proof (room i C Hi).
  assert (Ho1 : (- saddr) mod alignment i = alignment i - 1).
  { rewrite Z.mod_opp_l_nz by lia. lia. }
  assert (Ha : (saddr + (alignment i - 1)) mod alignment i = 0).
  { rewrite <-Ho1. apply (align_up_mod i C Hi). }
  pose proof (neg_mod_pred i C Hi _ Ha) as Hn. rewrite (proj2 (Z.eqb_neq _ _)) in Hn by lia.
  unfold split_scratch. rewrite (aligned_subslice_ok i C Hi), Ho1, ok_bind by lia.
  rewrite sn_sub, into_val, ok_bind by u64_side.
  set (s1 := slice scratch (alignment i - 1) (zlen scratch - (alignment i - 1))).
  assert (Hs1 : zlen s1 = alignment i - 1 + block_size i) by (unfold s1; rewrite zlen_slice; lia).
  rewrite (index_range_ok s1 0), ok_bind by lia.
  unfold index_from. rewrite (index_range_ok s1 (alignment i - 1)), ok_bind by lia.
  set (s2 := slice s1 (alignment i - 1) (zlen s1 - (alignment i - 1))).
  assert (Hs2 : zlen s2 = block_size i) by (unfold s2; rewrite zlen_slice; lia).
  rewrite (aligned_subslice_ok i C Hi), Hn, ok_bind by (rewrite ?Hn; lia).
  rewrite (proj2 (Z.eqb_neq (block_size i) 1)), into_val, ok_bind by lia.
  unfold index_range. rewrite get_range_None; [done|]. rewrite zlen_slice by lia. lia.
Qed.

(** [scratch_size] is one byte too small: a scratch buffer of that size
    that starts one byte after an aligned address is accepted by [Disk::new],
    and then every read and every write panics. *)
Theorem disk_scratch_size_short i C (io : D) scratch saddr :
  info_ok i C → info io = i → 1 < alignment i → 1 < block_size i → 0 ≤ saddr →
  saddr + zlen scratch + alignment i < 2 ^ 64 → saddr mod alignment i = 1 →
  scratch_size i = Ok (zlen scratch) →
  disk_new io scratch saddr = Ok (mkDisk io scratch saddr) ∧
  ∀ addr offset buf,
    fst (disk_read addr offset (mkDisk io scratch saddr, buf)) = Panic ∧
    fst (disk_write addr offset (mkDisk io scratch saddr, buf)) = Panic.
Proof.
  intros Hi Hio Hal Hbs H0 Hend Hm Hsz. split.
  { unfold disk_new. by rewrite Hio, Hsz, ok_bind, Z.ltb_irrefl. }
  rewrite (scratch_size_val i C Hi) in Hsz. unfold block_part in Hsz.
  rewrite (proj2 (Z.eqb_neq (block_size i) 1)) in Hsz by lia. simplify_eq.
  assert (Hs : split_scratch (info io) saddr scratch = Panic).
  { eapply split_scratch_short; try done. }
  intros addr offset buf. unfold disk_read, disk_write, on_disk, read_async, write_async.
  split; cbn [fst snd disk_io disk_saddr disk_scratch];
    unfold dev_info; rewrite bind_run; cbn [gets dev]; rewrite bind_run; cbn [gets scr];
    rewrite bind_run, Hs; done.
Qed.
End Properties.


Lemma disk_write_exact_witness :
  let st := replicate 16 0 in
  wp (disk_write 1001 3) (ram_disk st 5000, [1; 2; 3; 4; 5; 6])
    (λ _ s, RamBlock.storage (disk_io (fst s)) = [0;0;0;1;2;3;4;5;6;0;0;0;0;0;0;0] ∧
            snd s = [1; 2; 3; 4; 5; 6]) (λ _ _, False).
Proof.
  intros st. eapply wp_mono.
  - apply (disk_write_exact (ram_info4 st) st); [apply ram_disk_ok|split| |]; by vm_compute.
  - intros _ s ([_ (_ & _ & HC) _] & _ & ->). simpl in HC. rewrite HC. done.
  - intros _ s (_ & Hq & _). by apply Hq.
Defined.

Lemma disk_scratch_size_short_witness :
  disk_new (RamBlock.mk 4 4 (replicate 16 0) 0 0 None) (replicate 10 0) 5001
    = Ok (ram_disk (replicate 16 0) 5001) ∧
  fst (disk_read 1000 0 (ram_disk (replicate 16 0) 5001, [0; 0; 0; 0])) = Panic.
Proof.
  destruct (disk_scratch_size_short (ram_info4 (replicate 16 0)) (replicate 16 0)
    (RamBlock.mk 4 4 (replicate 16 0) 0 0 None) (replicate 10 0) 5001) as [H1 H2];
    [split; by vm_compute|by vm_compute..|].
  split; [exact H1|apply H2].
Defined.

(** ** Filling *)

Section FillProps.
Context {D : Type} `{!BlockIo D} `{!BlockIoSpec D}.

Lemma fill_buffer_ok i C addr scratch :
  info_ok i C → buffer_ok i addr (zlen scratch) →
  ∃ o m, fill_buffer i addr scratch = Ok (o, m) ∧ 0 ≤ o ∧ 0 ≤ m ∧ o + m ≤ zlen scratch ∧
    (0 < zlen scratch → (- addr) mod alignment i ≠ zlen scratch → 0 < m).
Proof.
  intros Hi [Ha Hae]. pose proof (bs_pos i C Hi). pose proof (al_pos i C Hi) as Hal.
  pose proof (room i C Hi). pose proof (Z.mod_pos_bound (- addr) (alignment i) Hal).
  unfold fill_buffer. rewrite try_int_ok, ok_bind by lia.
  set (g := (- addr) mod alignment i) in *.
  destruct (Z.leb_spec g (zlen scratch)) as [Hg|Hg].
  - rewrite (aligned_subslice_ok i C Hi) by lia. fold g.
    rewrite (proj2 (Z.eqb_neq (block_size i) 0)) by lia. rewrite zlen_slice by lia.
    pose proof (Z.mul_div_le (zlen scratch - g) (block_size i)).
    assert (0 ≤ (zlen scratch - g) / block_size i) by (apply Z.div_pos; lia).
    destruct (Z.gtb_spec ((zlen scratch - g) / block_size i) 0).
    + rewrite arith_ok, ok_bind by lia.
      rewrite index_range_ok, ok_bind by (rewrite ?zlen_slice; lia).
      eexists _, _. split_and!; [done|nia..].
    + eexists _, _. split_and!; [done|lia..].
  - unfold aligned_subslice. rewrite from_int_u64, round_up_val, sn_sub by u64_side. fold g.
    rewrite into_val, ok_bind by lia. rewrite get_range_None by lia.
    eexists _, _. split_and!; [done|lia..].
Qed.

Lemma slice_replicate {A} (x : A) n off m :
  0 ≤ off → 0 ≤ m → off + m ≤ Z.of_nat n → slice (replicate n x) off m = replicate (Z.to_nat m) x.
Proof.
  intros. unfold slice. rewrite drop_replicate, take_replicate. f_equal. lia.
Qed.

Lemma fill_loop_spec fuel i C (k : Disk D) buf addr o sz offset end_ v lo hi :
  disk_ok i C k → buffer_ok i addr (zlen buf) → 0 ≤ o → 0 ≤ sz → o + sz ≤ zlen buf →
  slice buf o sz = replicate (Z.to_nat sz) v → 0 ≤ offset ≤ end_ → end_ ≤ zlen C →
  (offset < end_ → 0 < sz) → (Z.to_nat (end_ - offset) ≤ fuel)%nat →
  lo ≤ hull_lo i offset → (offset < end_ → hull_hi i offset (end_ - offset) ≤ hi) →
  wp (fill_loop fuel addr o sz offset end_) (k, buf)
    (λ b s, b = true ∧ disk_ok i (splice C offset (replicate (Z.to_nat (end_ - offset)) v)) (fst s) ∧
            (disk_quiet k → disk_quiet (fst s)) ∧ snd s = buf)
    (λ _ s, (∃ C', disk_ok i C' (fst s) ∧ same_outside lo hi C C') ∧ ¬ disk_quiet k ∧ snd s = buf).
Proof.
  revert C k offset. induction fuel as [|fuel IH];
    intros C k offset Hk Hb Ho Hsz Hos Hbuf Hoff Hend Hpos Hf Hlo Hhi; simpl.
  { assert (offset = end_) by lia. rewrite (proj2 (Z.ltb_ge _ _)) by lia. apply wp_ret. simpl.
    rewrite Z2Nat.nonpos by lia. simpl. by rewrite splice_nil. }
  destruct (Z.ltb_spec offset end_) as [Hlt|Hge]; simpl.
  2: { apply wp_ret. simpl. rewrite Z2Nat.nonpos by lia. simpl. by rewrite splice_nil. }
  pose proof (do_info _ _ _ Hk) as Hi. pose proof (bs_pos i C Hi) as Hbs. pose proof (room i C Hi).
  specialize (Hpos Hlt). specialize (Hhi Hlt). set (n := end_ - offset) in *. set (u := Z.min sz n).
  pure_step ltac:(apply arith_ok; lia). fold u.
  set (e := replicate (Z.to_nat u) v). assert (He : zlen e = u) by (unfold e; rewrite length_replicate; lia).
  assert (Hsub : slice buf o u = e).
  { replace (slice buf o u) with (slice (slice buf o sz) 0 u) by (rewrite slice_slice by lia; f_equal; lia).
    rewrite Hbuf. apply slice_replicate; lia. }
  apply wp_bind. unfold wp at 1. simpl. rewrite get_range_Some by lia.
  replace (o + u - o) with u by lia. rewrite Hsub.
  pose proof (disk_write_spec i C k e (addr + o) offset Hk) as Hw. rewrite He in Hw.
  destruct Hb as [Hb1 Hb2]. specialize (Hw ltac:(split; lia) ltac:(lia) ltac:(lia)).
  unfold wp in Hw. destruct (disk_write (addr + o) offset (k, e)) as [[[]|err|] [k1 b1]]; simpl in *; try done.
  - destruct Hw as (Hk1 & Hq1 & ->). rewrite <-Hsub, splice_slice by lia.
    pure_step ltac:(apply arith_ok; lia).
    set (C1 := splice C offset e). assert (HlC : length C1 = length C) by (apply length_splice; lia).
    assert (Hout : same_outside lo hi C C1).
    { pose proof (block_end_bounds i (offset + n) Hbs). pose proof (Z.mod_pos_bound offset _ Hbs).
      eapply same_outside_mono; [apply same_outside_splice; lia|unfold hull_lo in *; lia|].
      unfold hull_hi, hull_lo in *. lia. }
    eapply wp_mono; [apply (IH C1)|..]; try done; try lia.
    + pose proof (hull_lo_mono i offset (offset + u) Hbs). lia.
    + intros Hmore. pose proof (hull_hi_mono i offset u n Hbs ltac:(lia)).
      replace (end_ - (offset + u)) with (n - u) by lia. lia.
    + intros b s (-> & Hk2 & Hq2 & ->). split_and!; try done; [|auto].
      replace (splice C offset (replicate (Z.to_nat n) v)) with
        (splice C1 (offset + u) (replicate (Z.to_nat (end_ - (offset + u))) v)); [done|].
      unfold C1. rewrite <-He. rewrite splice_splice_adj by (rewrite ?length_replicate; lia).
      unfold e. rewrite <-replicate_add. do 2 f_equal. rewrite length_replicate. lia.
    + intros err s ((C' & ? & ?) & ? & ->). split_and!; try done; [|auto].
      exists C'. split; [done|]. by eapply same_outside_trans.
  - destruct Hw as ((C' & ? & Hso) & ? & ->). rewrite <-Hsub, splice_slice by lia.
    split_and!; try done. exists C'. split; [done|].
    eapply same_outside_mono; [exact Hso|lia|].
    destruct (decide (u = n)) as [->|]; [lia|].
    pose proof (hull_hi_mono i offset u n Hbs ltac:(lia)). lia.
Qed.

(** [fill] sets exactly the bytes of the range to the value, whatever the
    address and the size of the buffer it is given, as long as that buffer is
    not all in front of the next aligned address; it terminates after at most
    one write per byte, and gives the device back only failures of the device. *)
Theorem disk_fill_exact fuel i C (k : Disk D) buf addr offset size v :
  disk_ok i C k → buffer_ok i addr (zlen buf) → 0 < zlen buf →
  (- addr) mod alignment i ≠ zlen buf → 0 ≤ offset → 0 ≤ size → offset + size ≤ zlen C →
  (Z.to_nat size ≤ fuel)%nat →
  wp (disk_fill fuel addr offset size v) (k, buf)
    (λ b s, b = true ∧ disk_ok i (splice C offset (replicate (Z.to_nat size) v)) (fst s) ∧
            (disk_quiet k → disk_quiet (fst s)))
    (λ _ s, (∃ C', disk_ok i C' (fst s) ∧
               same_outside (hull_lo i offset) (hull_hi i offset size) C C') ∧ ¬ disk_quiet k).
Proof.
  intros Hk Hb Hn Hg H0 Hs Hr Hf. pose proof (do_info _ _ _ Hk) as Hi. pose proof (room i C Hi).
  pose proof (bs_pos i C Hi).
  unfold disk_fill. apply wp_bind, wp_gets. cbv [id].
  rewrite (proj2 (Z.eqb_neq (zlen buf) 0)) by lia.
  assert (Hinfo : disk_block_info k = i) by apply Hk. rewrite Hinfo.
  destruct (fill_buffer_ok i C addr buf Hi Hb) as (o & m & Hfb & Ho & Hm & Hom & Hpos).
  pure_step ltac:(exact Hfb). specialize (Hpos Hn Hg).
  apply wp_bind, wp_modify. simpl. set (sz := Z.min size m).
  set (e := replicate (Z.to_nat sz) v). assert (He : zlen e = sz) by (unfold e; rewrite length_replicate; lia).
  assert (Hl : length (splice buf o e) = length buf) by (apply length_splice; lia).
  pure_step ltac:(rewrite sn_add by u64_side; apply into_val; lia).
  eapply wp_mono; [apply (fill_loop_spec fuel i C k) with (v := v)
    (lo := hull_lo i offset) (hi := hull_hi i offset size)|..]; rewrite ?Hl; try done; try lia.
  - fold e. rewrite slice_splice_same by lia. done.
  - intros _. by replace (offset + size - offset) with size by lia.
  - replace (offset + size - offset) with size by lia. intros b s (? & ? & ? & _). done.
  - intros e' s (? & ? & _). done.
Qed.

(** The loop does not advance when its buffer is empty. *)
Lemma fill_loop_stuck fuel i C (k : Disk D) buf addr o offset end_ :
  disk_ok i C k → disk_quiet k → buffer_ok i addr (zlen buf) → 0 ≤ o ≤ zlen buf →
  0 ≤ offset < end_ → end_ ≤ zlen C →
  ∃ s, fill_loop fuel addr o 0 offset end_ (k, buf) = (Ok false, s).
Proof.
  intros Hk Hq [Hb1 Hb2] Ho Hoff Hend. pose proof (room i C (do_info _ _ _ Hk)).
  pose proof (bs_pos i C (do_info _ _ _ Hk)).
  revert k Hk Hq. induction fuel as [|fuel IH]; intros k Hk Hq; simpl;
    rewrite (proj2 (Z.ltb_lt _ _)) by lia; simpl; [by eexists|].
  rewrite arith_ok, lift_ok_bind, Z.min_l by lia. rewrite bind_run. simpl.
  rewrite get_range_Some, slice_empty by lia.
  pose proof (disk_write_spec i C k [] (addr + o) offset Hk) as Hw.
  specialize (Hw ltac:(split; simpl; lia) ltac:(lia) ltac:(simpl; lia)).
  unfold wp in Hw. destruct (disk_write (addr + o) offset (k, [])) as [[[]|err|] [k1 b1]]; simpl in *;
    [|by destruct Hw as (_ & Hnq & _)|done].
  destruct Hw as (Hk1 & Hq1 & ->). rewrite arith_ok, lift_ok_bind, Z.add_0_r by lia.
  rewrite splice_nil. rewrite splice_nil in Hk1. apply IH; [done|auto].
Qed.

(** With a buffer that ends exactly at the next aligned address, its
    aligned part is empty and [fill] never returns: it is still running after
    any number of iterations. *)
Theorem disk_fill_diverges fuel i C (k : Disk D) buf addr offset size v :
  disk_ok i C k → disk_quiet k → buffer_ok i addr (zlen buf) → 0 < zlen buf →
  (- addr) mod alignment i = zlen buf → 0 ≤ offset → 0 < size → offset + size ≤ zlen C →
  ∃ s, disk_fill fuel addr offset size v (k, buf) = (Ok false, s).
Proof.
  intros Hk Hq Hb Hn Hg H0 Hs Hr. pose proof (do_info _ _ _ Hk) as Hi. pose proof (room i C Hi).
  pose proof (bs_pos i C Hi). destruct Hb as [Hb1 Hb2].
  unfold disk_fill. rewrite bind_run. cbv [gets id].
  rewrite (proj2 (Z.eqb_neq (zlen buf) 0)) by lia.
  assert (Hinfo : disk_block_info k = i) by apply Hk. rewrite Hinfo.
  assert (Hfb : fill_buffer i addr buf = Ok (zlen buf, 0)).
  { unfold fill_buffer. rewrite try_int_ok, ok_bind by lia.
    rewrite (aligned_subslice_ok i C Hi), Hg by lia. rewrite slice_empty by lia.
    rewrite (proj2 (Z.eqb_neq (block_size i) 0)) by lia. change (zlen []) with 0.
    by rewrite Z.div_0_l by lia. }
  rewrite Hfb, lift_ok_bind, bind_run, Z.min_r by lia. cbv [modify]. simpl.
  rewrite splice_nil, sn_add, into_val, lift_ok_bind by u64_side.
  apply fill_loop_stuck with i C; try done; lia.
Qed.
End FillProps.

Lemma disk_fill_exact_witness :
  let st := replicate 16 0 in
  wp (disk_fill 9 1001 2 9 7) (ram_disk st 5000, replicate 6 1)
    (λ b s, b = true ∧
            RamBlock.storage (disk_io (fst s)) = [0;0;7;7;7;7;7;7;7;7;7;0;0;0;0;0])
    (λ _ _, False).
Proof.
  intros st. eapply wp_mono.
  - apply (disk_fill_exact 9 (ram_info4 st) st); [apply ram_disk_ok|split|..]; by vm_compute.
  - intros b s (-> & [_ (_ & _ & HC) _] & _). simpl in HC. rewrite HC. done.
  - intros _ s (_ & Hq). by apply Hq.
Defined.

Lemma disk_fill_diverges_witness :
  let st := replicate 16 0 in
  ∃ s, disk_fill 1000 1001 2 9 7 (ram_disk st 5000, replicate 3 1) = (Ok false, s).
Proof.
  intros st. apply (disk_fill_diverges 1000 (ram_info4 st) st);
    [apply ram_disk_ok|done|split|..]; by vm_compute.
Defined.
