(* ===== verification/Slots.v ===== *)
(** * libgbl slots: boot slots and their managers

    Models src/gbl/libgbl/src/slots.rs (the user-visible description of a slot
    and the [Manager] interface with its default methods) and
    src/gbl/libgbl/src/slots/partition.rs (the partition-backed block of
    metadata with its cache status and its boot token). *)

From stdpp Require Import sets.
From S2P Require Import Prelude SafeMath LibError Text.

(** ** Slots *)

(** gbl/libgbl/src/slots.rs:27-32, [Tries]. *)
Definition Tries : Type := Z.
(** gbl/libgbl/src/slots.rs:45-49, [Priority]. *)
Definition Priority : Type := Z.
(** gbl/libgbl/src/slots.rs:62-64, [Suffix]: a [char]. *)
Definition Suffix : Type := Z.
#[global] Instance Tries_eq_dec : EqDecision Tries := Z.eq_dec.
#[global] Instance Priority_eq_dec : EqDecision Priority := Z.eq_dec.
#[global] Instance Suffix_eq_dec : EqDecision Suffix := Z.eq_dec.

(** gbl/libgbl/src/slots.rs:67-76, [Suffix::rank]: lexicographically lower suffixes rank
    higher. *)
Definition rank (s : Suffix) : Z := - s.

(** gbl/libgbl/src/slots.rs:85-91, [TryFrom<usize> for Suffix]. *)
Definition suffix_of_usize (v : Z) : result Suffix :=
  ok_or (c ← checked 32 v; if is_char c then Some c else None) InvalidInput.

(** gbl/libgbl/src/slots.rs:93-99, [TryFrom<u32> for Suffix]. *)
Definition suffix_of_u32 (v : Z) : result Suffix :=
  if is_char v then Ok v else Err InvalidInput.

(** gbl/libgbl/src/slots.rs:101-102, [SUFFIX_CSTR_MAX_BYTES]. *)
Definition SUFFIX_CSTR_MAX_BYTES : Z := 5.

(** gbl/libgbl/src/slots.rs:112-118, [From<Suffix> for SuffixBytes]. *)
Definition suffix_bytes (s : Suffix) : bytes :=
  splice (replicate (Z.to_nat SUFFIX_CSTR_MAX_BYTES) 0) 0 (encode_utf8 s).

(** gbl/libgbl/src/slots.rs:120-137, [UnbootableReason]. *)
Inductive UnbootableReason :=
| Unknown | NoMoreTries | SystemUpdate | UserRequested | VerificationFailure.
#[global] Instance UnbootableReason_eq_dec : EqDecision UnbootableReason.
Proof. solve_decision. Defined.

(** gbl/libgbl/src/slots.rs:145-155, [From<u8> for UnbootableReason]. *)
Definition reason_of_u8 (v : Z) : UnbootableReason :=
  if v =? 1 then NoMoreTries else if v =? 2 then SystemUpdate
  else if v =? 3 then UserRequested else if v =? 4 then VerificationFailure else Unknown.

(** gbl/libgbl/src/slots.rs:157-167, [From<UnbootableReason> for u8]. *)
Definition reason_to_u8 (r : UnbootableReason) : Z :=
  match r with
  | Unknown => 0 | NoMoreTries => 1 | SystemUpdate => 2 | UserRequested => 3
  | VerificationFailure => 4
  end.

(** gbl/libgbl/src/slots.rs:169-182, [Bootability]. *)
Inductive Bootability :=
| BSuccessful
| BUnbootable (reason : UnbootableReason)
| BRetriable (tries : Tries).
#[global] Instance Bootability_eq_dec : EqDecision Bootability.
Proof. solve_decision. Defined.

(** gbl/libgbl/src/slots.rs:184-188, [Default for Bootability]. *)
Definition bootability_default : Bootability := BRetriable 7.

(** gbl/libgbl/src/slots.rs:190-206, [Slot]. *)
Record Slot := mkSlotOf { suffix : Suffix; priority : Priority; bootability : Bootability }.
#[global] Instance Slot_eq_dec : EqDecision Slot.
Proof. solve_decision. Defined.

(** gbl/libgbl/src/slots.rs:209-213, [Slot::is_bootable]. *)
Definition is_bootable (s : Slot) : bool :=
  match bootability s with BUnbootable _ => false | _ => true end.

(** gbl/libgbl/src/slots.rs:216-226, [RecoveryTarget]. *)
Inductive RecoveryTarget := Dedicated | Slotted (s : Slot).
#[global] Instance RecoveryTarget_eq_dec : EqDecision RecoveryTarget.
Proof. solve_decision. Defined.

(** gbl/libgbl/src/slots.rs:228-246, [BootTarget]. *)
Inductive BootTarget := NormalBoot (s : Slot) | Recovery (r : RecoveryTarget).
#[global] Instance BootTarget_eq_dec : EqDecision BootTarget.
Proof. solve_decision. Defined.

(** gbl/libgbl/src/slots.rs:249-257, [BootTarget::suffix]. *)
Definition target_suffix (t : BootTarget) : Suffix :=
  match t with
  | NormalBoot s | Recovery (Slotted s) => suffix s
  | Recovery Dedicated => 114
  end.

(** gbl/libgbl/src/slots.rs:303-311, [OneShot]. *)
Inductive OneShot := OBootloader | OContinue (r : RecoveryTarget).
#[global] Instance OneShot_eq_dec : EqDecision OneShot.
Proof. solve_decision. Defined.

(** gbl/libgbl/src/slots.rs:313-319, [BootToken]. *)
Inductive BootToken := Token.

(** gbl/libgbl/src/slots.rs:291-301, [Iterator for SlotIterator]: the slots numbered from
    [count] on, up to the first number that has none; [fuel] bounds them. *)
Fixpoint slots_from (get_slot_by_number : Z → result Slot) (fuel : nat) (count : Z) : list Slot :=
  match fuel with
  | O => []
  | S fuel =>
      match get_slot_by_number count with
      | Ok s => s :: slots_from get_slot_by_number fuel (count + 1)
      | _ => []
      end
  end.

(** The keys [(slot.priority, slot.suffix.rank())] in lexicographic order. *)
Definition key_le (a b : Slot) : bool :=
  (priority a <? priority b) ||
  ((priority a =? priority b) && (rank (suffix a) <=? rank (suffix b))).

(** [Iterator::max_by_key] with these keys: the last of the greatest ones. *)
Definition max_by_key (l : list Slot) : option Slot :=
  foldl (λ best s, match best with
                   | None => Some s
                   | Some b => if key_le b s then Some s else Some b
                   end) None l.

(** [iter.enumerate().find(|(_, s)| s.suffix == x)]. *)
Fixpoint find_suffix (x : Suffix) (idx : Z) (l : list Slot) : option (Z * Slot) :=
  match l with
  | [] => None
  | s :: l => if suffix s =? x then Some (idx, s) else find_suffix x (idx + 1) l
  end.

(** gbl/libgbl/src/slots.rs:321-409, [Manager]: the operations of a slot manager with
    state [M]; the closure that persists the metadata has state [P]. *)
Class Manager (M : Type) := {
  slots_iter : M → list Slot;
  get_boot_target : M → result BootTarget;
  get_slot_last_set_active : M → result Slot;
  mark_boot_attempt : ST M Error BootToken;
  set_active_slot : Suffix → ST M Error unit;
  set_slot_unbootable : Suffix → UnbootableReason → ST M Error unit;
  get_oneshot_status : M → option OneShot;
  set_oneshot_status : OneShot → ST M Error unit;
  clear_oneshot_status : ST M Error unit;
  write_back : ∀ P, (bytes → ST P Error unit) → ST (M * P) Error unit;
}.

(** gbl/libgbl/src/slots.rs:332-339, [Manager::get_slot_last_set_active]: the default
    method. *)
Definition default_slot_last_set_active (slots : list Slot) : result Slot :=
  ok_or (max_by_key slots) (Other (Some "Couldn't get slot last set active")).

(** gbl/libgbl/src/slots.rs:371-374, [Manager::get_max_retries]. *)
Definition get_max_retries : result Tries := Ok 7.

(** gbl/libgbl/src/slots.rs:419-423, [Drop for Cursor]: what happens at the end of the
    life of a cursor. *)
Definition cursor_drop {M} `{!Manager M} {P} (persist : bytes → ST P Error unit) :
    ST (M * P) Error unit := write_back P persist.

(** ** Partition-backed metadata *)

(** gbl/libgbl/src/slots/partition.rs:20-27, [CacheStatus]. *)
Inductive CacheStatus := Clean | Dirty.
#[global] Instance CacheStatus_eq_dec : EqDecision CacheStatus.
Proof. solve_decision. Defined.

(** gbl/libgbl/src/slots/partition.rs:29-44, [MetadataBytes]. [as_bytes] and [default] are
    the supertraits' methods the block uses. *)
Class MetadataBytes (MB : Type) := {
  validate : bytes → result MB;
  prepare_for_sync : MB → MB;
  as_bytes : MB → bytes;
  mb_default : MB;
}.

(** gbl/libgbl/src/slots/partition.rs:46-54, [SlotBlock]. *)
Record SlotBlock (MB : Type) := mkBlock {
  cache_status : CacheStatus;
  boot_token : option BootToken;
  sb_data : MB;
}.
Arguments mkBlock {MB}.
Arguments cache_status {MB}.
Arguments boot_token {MB}.
Arguments sb_data {MB}.

Section Block.
Context {MB : Type} `{!MetadataBytes MB}.

(** gbl/libgbl/src/slots/partition.rs:57-64, [SlotBlock::take_boot_token]. *)
Definition take_boot_token : ST (SlotBlock MB) Error (option BootToken) := λ b,
  (Ok (boot_token b), mkBlock (cache_status b) None (sb_data b)).

(** gbl/libgbl/src/slots/partition.rs:66-70, [SlotBlock::get_mut_data]: an update through the
    reference. *)
Definition get_mut_data (f : MB → MB) : ST (SlotBlock MB) Error unit := λ b,
  (Ok tt, mkBlock Dirty (boot_token b) (f (sb_data b))).

(** gbl/libgbl/src/slots/partition.rs:72-75, [SlotBlock::get_data]. *)
Definition get_data (b : SlotBlock MB) : MB := sb_data b.

(** gbl/libgbl/src/slots/partition.rs:83-104, [SlotBlock::deserialize]. *)
Definition sb_deserialize (buffer : bytes) (token : BootToken) : SlotBlock MB :=
  match validate buffer with
  | Ok data => mkBlock Clean (Some token) data
  | _ => mkBlock Dirty (Some token) mb_default
  end.

(** gbl/libgbl/src/slots/partition.rs:106-128, [SlotBlock::sync_to_disk]: a failing [persist]
    panics. *)
Definition sync_to_disk {P} (persist : bytes → ST P Error unit) :
    ST (SlotBlock MB * P) Error unit := λ s,
  let '(b, p) := s in
  if bool_decide (cache_status b = Clean) then (Ok tt, s) else
  let data := prepare_for_sync (sb_data b) in
  match persist (as_bytes data) p with
  | (Ok _, p) => (Ok tt, (mkBlock Clean (boot_token b) data, p))
  | (_, p) => (Panic, (mkBlock Dirty (boot_token b) data, p))
  end.

(** [self.take_boot_token().ok_or(Error::OperationProhibited)]. *)
Definition release_token : ST (SlotBlock MB) Error BootToken :=
  t ← take_boot_token; lift (ok_or t OperationProhibited).
End Block.

(** * libgbl slots: properties shared by the slot managers

    The choice of the boot target, the persistence of a block of metadata
    against the laws of its type, and the custody of the boot token against
    the laws of a manager. The Fuchsia and Android managers discharge these
    laws in their own files. *)

(** ** The greatest slot *)

(** [a] comes before [b]: higher priority, or the same and a lower suffix. *)
Definition beats (a b : Slot) : Prop :=
  priority b < priority a ∨ (priority a = priority b ∧ suffix a ≤ suffix b).

#[global] Instance beats_dec a b : Decision (beats a b).
Proof. unfold beats. apply _. Defined.

Lemma key_le_beats a b : key_le a b = true ↔ beats b a.
Proof.
  unfold key_le, beats, rank. rewrite orb_true_iff, andb_true_iff, Z.ltb_lt, Z.eqb_eq, Z.leb_le.
  lia.
Qed.

Lemma beats_trans a b c : beats a b → beats b c → beats a c.
Proof. unfold beats. lia. Qed.

Lemma not_key_le a b : key_le a b = false → beats a b.
Proof.
  intros H. destruct (decide (beats a b)) as [|Hn]; [done|].
  assert (beats b a) as Hb%key_le_beats by (unfold beats in *; lia). congruence.
Qed.

Lemma max_fold l best :
  foldl (λ best s, match best with
                   | None => Some s
                   | Some b => if key_le b s then Some s else Some b
                   end) (Some best) l = Some (foldl (λ b s, if key_le b s then s else b) best l).
Proof.
  revert best. induction l as [|s l IH]; intros best; [done|]. simpl.
  destruct (key_le best s); apply IH.
Qed.

Lemma max_fold_spec l best :
  let m := foldl (λ b s, if key_le b s then s else b) best l in
  m ∈ best :: l ∧ Forall (beats m) (best :: l).
Proof.
  revert best. induction l as [|s l IH]; intros best; simpl.
  - split; [set_solver|]. constructor; [|done]. unfold beats. lia.
  - specialize (IH (if key_le best s then s else best)). simpl in IH. destruct IH as [Hin Hb].
    inversion Hb as [|? ? Hb1 Hb2]; subst. destruct (key_le best s) eqn:E.
    + split; [set_solver|]. constructor; [|done].
      apply key_le_beats in E. by eapply beats_trans.
    + split; [set_solver|]. constructor; [done|]. constructor; [|done].
      apply not_key_le in E. by eapply beats_trans.
Qed.

Lemma max_by_key_spec l m :
  max_by_key l = Some m → m ∈ l ∧ Forall (beats m) l.
Proof.
  unfold max_by_key. destruct l as [|s l]; [done|]. simpl. rewrite max_fold. intros [= <-].
  apply max_fold_spec.
Qed.

Lemma max_by_key_None l : max_by_key l = None ↔ l = [].
Proof.
  unfold max_by_key. destruct l as [|s l]; [done|]. simpl. rewrite max_fold. done.
Qed.

(** The target of a normal boot: a bootable slot that beats every bootable
    slot. *)
Definition is_boot_slot (slots : list Slot) (s : Slot) : Prop :=
  s ∈ slots ∧ is_bootable s = true ∧ ∀ s', s' ∈ slots → is_bootable s' = true → beats s s'.

Lemma best_bootable slots :
  match max_by_key (filter (λ s, is_bootable s = true) slots) with
  | Some s => is_boot_slot slots s
  | None => Forall (λ s, is_bootable s = false) slots
  end.
Proof.
  destruct (max_by_key _) as [s|] eqn:E.
  - apply max_by_key_spec in E as [Hin Hb]. apply list_elem_of_filter in Hin as [? ?].
    split_and!; try done. intros s' ? ?. rewrite Forall_forall in Hb. apply Hb.
    by apply list_elem_of_filter.
  - apply max_by_key_None in E. apply Forall_forall. intros s Hs.
    destruct (is_bootable s) eqn:Eb; [|done]. exfalso.
    assert (Hin : s ∈ filter (λ s, is_bootable s = true) slots) by by apply list_elem_of_filter.
    rewrite E in Hin. by apply elem_of_nil in Hin.
Qed.

(** ** Persistence *)

(** What a metadata type promises to the block: well-formed metadata, once
    prepared, is read back as it was. *)
Class MetadataLaws (MB : Type) `{!MetadataBytes MB} := {
  mb_wf : MB → Prop;
  default_wf : mb_wf mb_default;
  validate_wf : ∀ b m, bytes_ok b → validate b = Ok m → mb_wf m;
  prepare_wf : ∀ m, mb_wf m → mb_wf (prepare_for_sync m);
  validate_prepared : ∀ m, mb_wf m →
    validate (as_bytes (prepare_for_sync m)) = Ok (prepare_for_sync m);
}.

Section Persist.
Context {MB : Type} `{!MetadataBytes MB, !MetadataLaws MB}.
Context {P : Type} (persist : bytes → ST P Error unit).

Lemma deserialize_block_wf b t : bytes_ok b → mb_wf (sb_data (sb_deserialize b t)).
Proof.
  intros Hb. unfold sb_deserialize. destruct (validate b) eqn:E; simpl;
    [by eapply validate_wf|apply default_wf..].
Qed.

(** What [sync_to_disk] hands to [persist], and what a later boot makes of it. *)
Lemma sync_spec (b : SlotBlock MB) (p : P) :
  mb_wf (sb_data b) →
  match cache_status b with
  | Clean => sync_to_disk persist (b, p) = (Ok tt, (b, p))
  | Dirty =>
      let data := prepare_for_sync (sb_data b) in
      match persist (as_bytes data) p with
      | (Ok _, p') => sync_to_disk persist (b, p) = (Ok tt, (mkBlock Clean (boot_token b) data, p'))
      | (_, p') => ∃ b', sync_to_disk persist (b, p) = (Panic, (b', p'))
      end ∧
      ∀ t, sb_deserialize (as_bytes data) t = mkBlock Clean (Some t) data
  end.
Proof.
  intros Hw. unfold sync_to_disk. destruct (cache_status b) eqn:E; [done|].
  rewrite bool_decide_false by done. cbv zeta. split.
  - destruct (persist _ p) as [[] p']; eauto.
  - intros t. unfold sb_deserialize. by rewrite validate_prepared.
Qed.

(** Writing back loses nothing and writes nothing needlessly. A clean
    block is not written. A dirty block is handed to the storage once, with its
    invariants restored; when the write succeeds the block is clean, and the
    bytes written are read back by a later boot as the same, clean, metadata.
    A failing write panics. *)
Theorem slot_block_persistence (b : SlotBlock MB) (p : P) :
  mb_wf (sb_data b) →
  match cache_status b with
  | Clean => sync_to_disk persist (b, p) = (Ok tt, (b, p))
  | Dirty =>
      let data := prepare_for_sync (sb_data b) in
      match persist (as_bytes data) p with
      | (Ok _, p') => sync_to_disk persist (b, p) = (Ok tt, (mkBlock Clean (boot_token b) data, p'))
      | (_, p') => ∃ b', sync_to_disk persist (b, p) = (Panic, (b', p'))
      end ∧
      ∀ t, sb_deserialize (as_bytes data) t = mkBlock Clean (Some t) data
  end.
Proof. apply sync_spec. Qed.
End Persist.

(** ** The boot token *)

(** The operations of a manager that a boot flow performs. *)
Inductive slot_op :=
| OpMarkBootAttempt
| OpSetActive (x : Suffix)
| OpSetUnbootable (x : Suffix) (r : UnbootableReason)
| OpSetOneshot (o : OneShot)
| OpClearOneshot.
#[global] Instance slot_op_dec : EqDecision slot_op.
Proof. solve_decision. Defined.

Section Token.
Context {MB : Type} `{!Manager (SlotBlock MB)}.

Definition run_slot_op (op : slot_op) : ST (SlotBlock MB) Error (option BootToken) :=
  match op with
  | OpMarkBootAttempt => t ← mark_boot_attempt; mret (Some t)
  | OpSetActive x => set_active_slot x;; mret None
  | OpSetUnbootable x r => set_slot_unbootable x r;; mret None
  | OpSetOneshot o => set_oneshot_status o;; mret None
  | OpClearOneshot => clear_oneshot_status;; mret None
  end.
Fixpoint run_slot_ops (ops : list slot_op) (b : SlotBlock MB) :
    list (outcome Error (option BootToken)) :=
  match ops with
  | [] => []
  | op :: ops => let '(r, b) := run_slot_op op b in r :: run_slot_ops ops b
  end.

(** The results of the boot attempts among them. *)
Fixpoint attempts (ops : list slot_op) (rs : list (outcome Error (option BootToken))) :=
  match ops, rs with
  | OpMarkBootAttempt :: ops, r :: rs => r :: attempts ops rs
  | _ :: ops, _ :: rs => attempts ops rs
  | _, _ => []
  end.
End Token.

(** What a manager promises about the token: a boot attempt releases it if it
    is there and is refused if it is not; nothing else touches it. *)
Class TokenLaws (MB : Type) `{!Manager (SlotBlock MB)} (wf : MB → Prop) : Prop := {
  attempt_law : ∀ b : SlotBlock MB, wf (sb_data b) →
    ∃ b', mark_boot_attempt b = (ok_or (boot_token b) OperationProhibited, b') ∧
          boot_token b' = None ∧ wf (sb_data b');
  other_law : ∀ (b : SlotBlock MB) op, wf (sb_data b) → op ≠ OpMarkBootAttempt →
    ∃ r b', run_slot_op op b = (r, b') ∧ boot_token b' = boot_token b ∧ wf (sb_data b') ∧
            r ≠ Panic ∧ r ≠ Ok (Some Token);
}.

Section TokenTheorems.
Context {MB : Type} `{!Manager (SlotBlock MB)} (wf : MB → Prop) `{!TokenLaws MB wf}.

Lemma attempts_run ops (b : SlotBlock MB) :
  wf (sb_data b) →
  attempts ops (run_slot_ops ops b) =
    match boot_token b with
    | None => replicate (length (attempts ops (run_slot_ops ops b))) (Err OperationProhibited)
    | Some t =>
        match attempts ops (run_slot_ops ops b) with
        | [] => []
        | _ :: rs => Ok (Some t) :: replicate (length rs) (Err OperationProhibited)
        end
    end.
Proof.
  revert b. induction ops as [|op ops IH]; intros b Hw; simpl; [by destruct (boot_token b)|].
  destruct (decide (op = OpMarkBootAttempt)) as [->|Hop].
  - destruct (attempt_law b Hw) as (b' & Hr & Ht & Hw').
    simpl. rewrite bind_run, Hr. specialize (IH b' Hw'). rewrite Ht in IH.
    destruct (boot_token b) as [t|]; simpl; f_equal; exact IH.
  - destruct (other_law b op Hw Hop) as (r & b' & Hr & Ht & Hw' & _).
    rewrite Hr. specialize (IH b' Hw'). rewrite Ht in IH. destruct op; done.
Qed.
End TokenTheorems.
