(* ===== verification/FuchsiaSlots.v ===== *)
(** * libgbl slots: the Fuchsia slot manager

    Models src/gbl/libgbl/src/slots/fuchsia.rs: the A/B/R metadata with its
    bytes, and the [Manager] implementation on a block of it. *)

From S2P Require Import Prelude SafeMath LibError Text Crc Slots.

(** gbl/libgbl/src/slots/fuchsia.rs:32-32, [DEFAULT_PRIORITY]. *)
Definition DEFAULT_PRIORITY : Z := 15.
(** gbl/libgbl/src/slots/fuchsia.rs:33-33, [DEFAULT_RETRIES]. *)
Definition DEFAULT_RETRIES : Z := 7.

(** gbl/libgbl/src/slots/fuchsia.rs:35-42, [AbrSlotData]. *)
Record AbrSlotData := mkSlotData {
  sd_priority : Z; sd_tries : Z; sd_successful : Z; sd_unbootable_reason : Z;
}.
#[global] Instance AbrSlotData_dec : EqDecision AbrSlotData.
Proof. solve_decision. Defined.

(** gbl/libgbl/src/slots/fuchsia.rs:44-53, [Default for AbrSlotData]. *)
Definition slot_data_default : AbrSlotData := mkSlotData DEFAULT_PRIORITY DEFAULT_RETRIES 0 0.

(** gbl/libgbl/src/slots/fuchsia.rs:55-57, [OneShotFlags]. *)
Definition OneShotFlags : Type := Z.
(** gbl/libgbl/src/slots/fuchsia.rs:59-68, [OneShotFlags::NONE]. *)
Definition FLAGS_NONE : OneShotFlags := 0.
(** gbl/libgbl/src/slots/fuchsia.rs:59-68, [OneShotFlags::RECOVERY]. *)
Definition FLAGS_RECOVERY : OneShotFlags := Z.shiftl 1 0.
(** gbl/libgbl/src/slots/fuchsia.rs:59-68, [OneShotFlags::BOOTLOADER]. *)
Definition FLAGS_BOOTLOADER : OneShotFlags := Z.shiftl 1 1.

(** gbl/libgbl/src/slots/fuchsia.rs:70-78, [From<OneShotFlags> for Option<OneShot>]. *)
Definition oneshot_of_flags (f : OneShotFlags) : option OneShot :=
  if f =? FLAGS_RECOVERY then Some (OContinue Dedicated)
  else if f =? FLAGS_BOOTLOADER then Some OBootloader else None.

(** gbl/libgbl/src/slots/fuchsia.rs:80-92, [From<Option<OneShot>> for OneShotFlags]. *)
Definition flags_of_oneshot (o : option OneShot) : OneShotFlags :=
  match o with
  | Some OBootloader => FLAGS_BOOTLOADER
  | Some (OContinue Dedicated) => FLAGS_RECOVERY
  | _ => FLAGS_NONE
  end.

(** gbl/libgbl/src/slots/fuchsia.rs:94-94, [ABR_MAGIC]. *)
Definition ABR_MAGIC : bytes := [0; 65; 66; 48].
(** gbl/libgbl/src/slots/fuchsia.rs:95-95, [ABR_VERSION_MAJOR]. *)
Definition ABR_VERSION_MAJOR : Z := 2.
(** gbl/libgbl/src/slots/fuchsia.rs:96-96, [ABR_VERSION_MINOR]. *)
Definition ABR_VERSION_MINOR : Z := 3.

(** gbl/libgbl/src/slots/fuchsia.rs:98-109, [AbrData]. *)
Record AbrData := mkAbrData {
  ad_magic : bytes;
  ad_version_major : Z;
  ad_version_minor : Z;
  ad_reserved : bytes;
  ad_slot_data : list AbrSlotData;
  ad_oneshot_flag : OneShotFlags;
  ad_reserved2 : bytes;
  ad_crc32 : Z;
}.

Definition slot_data_bytes (s : AbrSlotData) : bytes :=
  [sd_priority s; sd_tries s; sd_successful s; sd_unbootable_reason s].
(** The first 28 bytes of the packed structure. *)
Definition abr_head (d : AbrData) : bytes :=
  ad_magic d ++ [ad_version_major d] ++ [ad_version_minor d] ++ ad_reserved d
  ++ mjoin (slot_data_bytes <$> ad_slot_data d) ++ [ad_oneshot_flag d] ++ ad_reserved2 d.
(** [as_bytes] of the packed structure. *)
Definition abr_bytes (d : AbrData) : bytes := abr_head d ++ be_bytes 4 (ad_crc32 d).
(** The structure at the start of a buffer ([Ref::new_from_prefix]); [None]
    if the buffer is too small. *)
Definition slot_data_at (b : bytes) (off : Z) : option AbrSlotData :=
  match slice b off 4 with [p; t; s; r] => Some (mkSlotData p t s r) | _ => None end.
Definition abr_of_bytes (b : bytes) : option AbrData :=
  if zlen b <? 32 then None else
  maj ← b !! 4%nat; min ← b !! 5%nat;
  a ← slot_data_at b 8; c ← slot_data_at b 12; f ← b !! 16%nat;
  Some (mkAbrData (slice b 0 4) maj min (slice b 6 2) [a; c] f (slice b 17 11)
          (be_val (slice b 28 4))).

Definition upd_slots (f : list AbrSlotData → list AbrSlotData) (d : AbrData) : AbrData :=
  mkAbrData (ad_magic d) (ad_version_major d) (ad_version_minor d) (ad_reserved d)
    (f (ad_slot_data d)) (ad_oneshot_flag d) (ad_reserved2 d) (ad_crc32 d).
Definition upd_flag (f : OneShotFlags) (d : AbrData) : AbrData :=
  mkAbrData (ad_magic d) (ad_version_major d) (ad_version_minor d) (ad_reserved d)
    (ad_slot_data d) f (ad_reserved2 d) (ad_crc32 d).
Definition upd_crc (minor crc : Z) (d : AbrData) : AbrData :=
  mkAbrData (ad_magic d) (ad_version_major d) minor (ad_reserved d)
    (ad_slot_data d) (ad_oneshot_flag d) (ad_reserved2 d) crc.

Section Metadata.
Context `{!Hasher}.

(** gbl/libgbl/src/slots/fuchsia.rs:112-118, [AbrData::calculate_crc32]. *)
Definition calculate_crc32 (d : AbrData) : Z := hash (slice (abr_bytes d) 0 (32 - 4)).

(** gbl/libgbl/src/slots/fuchsia.rs:122-138, [MetadataBytes::validate for AbrData]. *)
Definition abr_validate (buffer : bytes) : result AbrData :=
  d ← ok_or (abr_of_bytes buffer) (BufferTooSmall (Some 32));
  if negb (bool_decide (ad_magic d = ABR_MAGIC)) then Err BadMagic
  else if ad_version_major d >? ABR_VERSION_MAJOR then Err UnsupportedVersion
  else if negb (ad_crc32 d =? calculate_crc32 d) then Err BadChecksum
  else Ok d.

(** gbl/libgbl/src/slots/fuchsia.rs:140-143, [MetadataBytes::prepare_for_sync for AbrData]. *)
Definition abr_prepare_for_sync (d : AbrData) : AbrData :=
  let d := upd_crc ABR_VERSION_MINOR (ad_crc32 d) d in
  upd_crc ABR_VERSION_MINOR (calculate_crc32 d) d.

(** gbl/libgbl/src/slots/fuchsia.rs:146-161, [Default for AbrData]. *)
Definition abr_default : AbrData :=
  let data := mkAbrData ABR_MAGIC ABR_VERSION_MAJOR ABR_VERSION_MINOR [0; 0]
    [slot_data_default; slot_data_default] FLAGS_NONE (replicate 11 0) 0 in
  upd_crc ABR_VERSION_MINOR (calculate_crc32 data) data.

#[export] Instance AbrMetadata : MetadataBytes AbrData := {|
  validate := abr_validate;
  prepare_for_sync := abr_prepare_for_sync;
  as_bytes := abr_bytes;
  mb_default := abr_default;
|}.
End Metadata.

Abbreviation Block := (SlotBlock AbrData).

(** gbl/libgbl/src/slots/fuchsia.rs:164-177, [SlotGet::get_slot_by_number for SlotBlock<AbrData>]. *)
Definition get_slot_by_number (b : Block) (number : Z) : result Slot :=
  (* the 26 suffixes of one letter, zipped with the slots *)
  abr_slot ← ok_or (if (0 <=? number) && (number <? 26)
                    then ad_slot_data (get_data b) !! Z.to_nat number else None)
                   (BadIndex number);
  let bootability :=
    if negb (sd_successful abr_slot =? 0) then BSuccessful
    else if sd_tries abr_slot >? 0 then BRetriable (sd_tries abr_slot)
    else BUnbootable (reason_of_u8 (sd_unbootable_reason abr_slot)) in
  Ok (mkSlotOf (97 + number) (sd_priority abr_slot) bootability).

(** gbl/libgbl/src/slots/fuchsia.rs:189-191, [Manager::slots_iter for SlotBlock<AbrData>]. *)
Definition fuchsia_slots_iter (b : Block) : list Slot :=
  slots_from (get_slot_by_number b) 27 0.

(** gbl/libgbl/src/slots/fuchsia.rs:181-187, [Manager::get_boot_target for SlotBlock<AbrData>]. *)
Definition fuchsia_get_boot_target (b : Block) : result BootTarget :=
  Ok (match max_by_key (filter (λ s, is_bootable s = true) (fuchsia_slots_iter b)) with
      | None => Recovery Dedicated
      | Some s => NormalBoot s
      end).

(** gbl/libgbl/src/slots/fuchsia.rs:292-297, [get_index_and_slot_with_suffix]. *)
Definition get_index_and_slot_with_suffix (b : Block) (x : Suffix) : result (Z * Slot) :=
  ok_or (find_suffix x 0 (fuchsia_slots_iter b)) InvalidInput.

(** [&mut abr_data.slot_data[idx]]: an update through the reference. *)
Definition update_slot (idx : Z) (f : AbrSlotData → outcome Error AbrSlotData) : ST Block Error unit :=
  d ← gets get_data;
  s ← lift (unwrap (ad_slot_data d !! Z.to_nat idx));
  s ← lift (f s);
  get_mut_data (upd_slots <[Z.to_nat idx := s]>).

(** gbl/libgbl/src/slots/fuchsia.rs:193-210, [Manager::set_slot_unbootable for
    SlotBlock<AbrData>]. *)
Definition fuchsia_set_slot_unbootable (x : Suffix) (reason : UnbootableReason) :
    ST Block Error unit :=
  b ← gets id;
  '(idx, slot) ← lift (get_index_and_slot_with_suffix b x);
  if bool_decide (bootability slot = BUnbootable reason) then mret tt else
  update_slot idx (λ s, Ok (mkSlotData (sd_priority s) 0 0 (reason_to_u8 reason))).

(** gbl/libgbl/src/slots/fuchsia.rs:262-264, [Manager::get_oneshot_status for
    SlotBlock<AbrData>]. *)
Definition fuchsia_get_oneshot_status (b : Block) : option OneShot :=
  oneshot_of_flags (ad_oneshot_flag (get_data b)).

(** gbl/libgbl/src/slots/fuchsia.rs:212-246, [Manager::mark_boot_attempt for
    SlotBlock<AbrData>]. *)
Definition fuchsia_mark_boot_attempt : ST Block Error BootToken :=
  b ← gets id;
  target ← lift (match fuchsia_get_oneshot_status b with
                 | Some (OContinue r) => Ok (Recovery r)
                 | _ => fuchsia_get_boot_target b
                 end);
  match target with
  | Recovery (Slotted _) => raise OperationProhibited
  | Recovery Dedicated => release_token
  | NormalBoot target_slot =>
      '(idx, slot) ← lift (get_index_and_slot_with_suffix b (suffix target_slot));
      match bootability slot with
      | BUnbootable _ => raise OperationProhibited
      | BRetriable _ =>
          update_slot idx (λ s,
            tries ← arith 8 (sd_tries s - 1);
            Ok (mkSlotData (sd_priority s) tries (sd_successful s)
                  (if tries =? 0 then reason_to_u8 NoMoreTries else sd_unbootable_reason s)));;
          release_token
      | BSuccessful => release_token
      end
  end.

(** gbl/libgbl/src/slots/fuchsia.rs:248-260, [Manager::set_active_slot for SlotBlock<AbrData>]. *)
Definition fuchsia_set_active_slot (x : Suffix) : ST Block Error unit :=
  b ← gets id;
  '(idx, _) ← lift (get_index_and_slot_with_suffix b x);
  get_mut_data (upd_slots (imap (λ i s,
    if Z.of_nat i =? idx then slot_data_default
    else mkSlotData (DEFAULT_PRIORITY - 1) (sd_tries s) (sd_successful s) (sd_unbootable_reason s)))).

(** gbl/libgbl/src/slots/fuchsia.rs:266-278, [Manager::set_oneshot_status for
    SlotBlock<AbrData>]. *)
Definition fuchsia_set_oneshot_status (oneshot : OneShot) : ST Block Error unit :=
  b ← gets id;
  if bool_decide (Some oneshot = fuchsia_get_oneshot_status b) then mret tt else
  let oneshot_flag := flags_of_oneshot (Some oneshot) in
  if oneshot_flag =? FLAGS_NONE then raise OperationProhibited
  else get_mut_data (upd_flag oneshot_flag).

(** gbl/libgbl/src/slots/fuchsia.rs:280-284, [Manager::clear_oneshot_status for
    SlotBlock<AbrData>]. *)
Definition fuchsia_clear_oneshot_status : ST Block Error unit :=
  b ← gets id;
  match fuchsia_get_oneshot_status b with
  | Some _ => get_mut_data (upd_flag FLAGS_NONE)
  | None => mret tt
  end.

(** gbl/libgbl/src/slots/fuchsia.rs:286-288, [Manager::write_back for SlotBlock<AbrData>]. *)
Definition fuchsia_write_back `{!Hasher} P (persist : bytes → ST P Error unit) :
    ST (Block * P) Error unit := sync_to_disk persist.

#[export] Instance FuchsiaManager `{!Hasher} : Manager Block := {|
  slots_iter := fuchsia_slots_iter;
  get_boot_target := fuchsia_get_boot_target;
  get_slot_last_set_active b := default_slot_last_set_active (fuchsia_slots_iter b);
  mark_boot_attempt := fuchsia_mark_boot_attempt;
  set_active_slot := fuchsia_set_active_slot;
  set_slot_unbootable := fuchsia_set_slot_unbootable;
  get_oneshot_status := fuchsia_get_oneshot_status;
  set_oneshot_status := fuchsia_set_oneshot_status;
  clear_oneshot_status := fuchsia_clear_oneshot_status;
  write_back := fuchsia_write_back;
|}.
