(* ===== verification/FuchsiaProps.v ===== *)
(** * libgbl slots: properties of the Fuchsia slot manager *)

From S2P Require Import Prelude SafeMath LibError Text Crc Slots FuchsiaSlots.

(** ** The metadata keeps its laws *)

Definition slot_ok (s : AbrSlotData) : Prop := bytes_ok (slot_data_bytes s).
Record abr_wf (d : AbrData) : Prop := {
  aw_magic : ad_magic d = ABR_MAGIC;
  aw_major : 0 ≤ ad_version_major d ≤ ABR_VERSION_MAJOR;
  aw_minor : u8_ok (ad_version_minor d);
  aw_reserved : length (ad_reserved d) = 2%nat ∧ bytes_ok (ad_reserved d);
  aw_slots : length (ad_slot_data d) = 2%nat ∧ Forall slot_ok (ad_slot_data d);
  aw_flag : u8_ok (ad_oneshot_flag d);
  aw_reserved2 : length (ad_reserved2 d) = 11%nat ∧ bytes_ok (ad_reserved2 d);
  aw_crc : u32_ok (ad_crc32 d);
}.

Lemma slot_ok_fields s :
  slot_ok s ↔ u8_ok (sd_priority s) ∧ u8_ok (sd_tries s) ∧ u8_ok (sd_successful s) ∧
              u8_ok (sd_unbootable_reason s).
Proof. unfold slot_ok, bytes_ok, slot_data_bytes. rewrite !Forall_cons. naive_solver. Qed.

(** The two slots. *)
Lemma two_slots d : abr_wf d → ∃ a b, ad_slot_data d = [a; b] ∧ slot_ok a ∧ slot_ok b.
Proof.
  intros Hw. destruct (aw_slots _ Hw) as [Hl HF].
  destruct (ad_slot_data d) as [|a [|b [|]]]; try done.
  rewrite !Forall_cons in HF. destruct HF as (? & ? & _). eauto.
Qed.

Lemma length_head d : abr_wf d → zlen (abr_head d) = 28.
Proof.
  intros Hw. destruct (two_slots d Hw) as (a & b & E & _). destruct Hw as [Hm _ _ [H1 _] _ _ [H2 _] _].
  unfold abr_head. rewrite E, Hm. simpl. rewrite ?length_app. simpl. rewrite ?length_app. simpl. lia.
Qed.

Lemma abr_of_abr_bytes d : abr_wf d → abr_of_bytes (abr_bytes d) = Some d.
Proof.
  intros Hw. destruct (two_slots d Hw) as (a & b & E & _).
  destruct Hw as [Hm _ _ [H1 _] _ _ [H2 _] Hc].
  assert (Hcb : be_val (be_bytes 4 (ad_crc32 d)) = ad_crc32 d).
  { apply be_val_bytes. unfold u32_ok in Hc. simpl. lia. }
  pose proof (length_be_bytes 4 (ad_crc32 d)) as L4. revert Hcb L4. unfold abr_bytes, abr_head.
  generalize (be_bytes 4 (ad_crc32 d)). intros cb Hcb L4.
  destruct d as [m vj vi r s f r2 c], a, b. simpl in *. subst m s.
  known_length r. known_length r2. known_length cb. rewrite <-Hcb. reflexivity.
Qed.

Section Laws.
Context {Hasher0 : Hasher}.

Lemma upd_crc_wf minor crc d : abr_wf d → u8_ok minor → u32_ok crc → abr_wf (upd_crc minor crc d).
Proof. intros [] ? ?. by split. Qed.

Lemma prepared_wf d : abr_wf d → abr_wf (abr_prepare_for_sync d).
Proof.
  intros Hw. apply upd_crc_wf; [|by_compute|apply hash_u32].
  apply upd_crc_wf; [done|by_compute|apply Hw].
Qed.

(** The checksum does not cover itself. *)
Lemma crc_upd minor crc crc' d :
  abr_wf d → calculate_crc32 (upd_crc minor crc d) = calculate_crc32 (upd_crc minor crc' d).
Proof.
  intros Hw. unfold calculate_crc32, abr_bytes. f_equal.
  assert (Hh : zlen (abr_head (upd_crc minor crc d)) = 28).
  { pose proof (length_head d Hw) as H. revert H. unfold abr_head. simpl.
    rewrite ?length_app. simpl. rewrite ?length_app. simpl. lia. }
  rewrite !slice_app_l; [done|symmetry; exact Hh..].
Qed.

Lemma abr_validate_prepared d :
  abr_wf d → abr_validate (abr_bytes (abr_prepare_for_sync d)) = Ok (abr_prepare_for_sync d).
Proof.
  intros Hw. pose proof (prepared_wf d Hw) as Hp. unfold abr_validate.
  rewrite abr_of_abr_bytes by done. cbn [ok_or]. rewrite ok_bind.
  rewrite bool_decide_true by apply Hp. cbn [negb].
  rewrite Z.gtb_ltb, (proj2 (Z.ltb_ge _ _)) by apply Hp.
  assert (ad_crc32 (abr_prepare_for_sync d) = calculate_crc32 (abr_prepare_for_sync d)) as ->.
  { unfold abr_prepare_for_sync. cbn [ad_crc32 upd_crc].
    apply (crc_upd ABR_VERSION_MINOR _ _ d Hw). }
  by rewrite Z.eqb_refl.
Qed.

Lemma default_slot_ok : slot_ok slot_data_default.
Proof. unfold slot_ok. by_compute. Qed.

Lemma abr_default_wf : abr_wf abr_default.
Proof.
  unfold abr_default. apply upd_crc_wf; [|by_compute|apply hash_u32].
  pose proof default_slot_ok.
  split; simpl; try done; try (split; [done|]); try by_compute.
Qed.

Lemma slot_data_at_ok b off s : bytes_ok b → slot_data_at b off = Some s → slot_ok s.
Proof.
  intros Hb. unfold slot_data_at. pose proof (bytes_ok_slice b off 4 Hb) as Hs.
  destruct (slice b off 4) as [|p [|t [|u [|r [|]]]]]; intros; simplify_eq. done.
Qed.

Lemma abr_validate_wf b d : bytes_ok b → abr_validate b = Ok d → abr_wf d.
Proof.
  intros Hb. unfold abr_validate, abr_of_bytes. destruct (Z.ltb_spec (zlen b) 32); [done|].
  destruct (b !! 4%nat) as [vj|] eqn:E4; [|done]. destruct (b !! 5%nat) as [vi|] eqn:E5; [|done].
  simpl. destruct (slot_data_at b 8) as [s1|] eqn:E8; [|done].
  destruct (slot_data_at b 12) as [s2|] eqn:E12; [|done].
  simpl. destruct (b !! 16%nat) as [fl|] eqn:E16; [|done]. simpl.
  case_bool_decide as Em; [|done]. simpl. rewrite Z.gtb_ltb.
  destruct (Z.ltb_spec ABR_VERSION_MAJOR vj); [done|]. case_if; [done|]. intros [= <-].
  assert (Hbyte : ∀ k x, b !! k = Some x → u8_ok x).
  { intros k x Hk. unfold bytes_ok in Hb. rewrite Forall_lookup in Hb. eauto. }
  pose proof (bytes_ok_slice b 28 4 Hb) as H28.
  split; simpl; eauto using slot_data_at_ok.
  - pose proof (Hbyte _ _ E4) as Hv. unfold u8_ok in Hv. lia.
  - split; [rewrite length_slice; lia|by apply bytes_ok_slice].
  - split; [done|]. rewrite !Forall_cons. split_and!; [exact (slot_data_at_ok _ _ _ Hb E8)|exact (slot_data_at_ok _ _ _ Hb E12)|done].
  - split; [rewrite length_slice; lia|by apply bytes_ok_slice].
  - pose proof (be_val_bound _ H28) as Hv. rewrite zlen_slice in Hv by lia. exact Hv.
Qed.

#[export] Instance AbrLaws : MetadataLaws AbrData := {|
  mb_wf := abr_wf;
  default_wf := abr_default_wf;
  validate_wf := abr_validate_wf;
  prepare_wf := prepared_wf;
  validate_prepared := abr_validate_prepared;
|}.
End Laws.

(** ** What the operations do *)

(** The user-visible slot of a metadata entry. *)
Definition slot_view (x : Suffix) (s : AbrSlotData) : Slot :=
  mkSlotOf x (sd_priority s)
    (if negb (sd_successful s =? 0) then BSuccessful
     else if sd_tries s >? 0 then BRetriable (sd_tries s)
     else BUnbootable (reason_of_u8 (sd_unbootable_reason s))).

Lemma iter_two (b : Block) s1 s2 :
  ad_slot_data (sb_data b) = [s1; s2] →
  fuchsia_slots_iter b = [slot_view 97 s1; slot_view 98 s2].
Proof.
  intros E. unfold fuchsia_slots_iter. cbn [slots_from]. unfold get_slot_by_number, get_data.
  rewrite E. reflexivity.
Qed.

Lemma fuchsia_wf_slots (b : Block) i s :
  abr_wf (sb_data b) → slot_ok s →
  abr_wf (upd_slots <[i := s]> (sb_data b)).
Proof.
  intros [? ? ? ? [Hl HF] ? ? ?] Hs. split; simpl; try done.
  split; [by rewrite length_insert|]. by apply Forall_insert.
Qed.

(** The slot that [mark_boot_attempt] counts an attempt for: none for a
    one-shot recovery boot, and none if no slot is bootable. *)
Definition attempt_slot (b : Block) : option Slot :=
  match fuchsia_get_oneshot_status b with
  | Some (OContinue _) => None
  | _ => max_by_key (filter (λ s, is_bootable s = true) (fuchsia_slots_iter b))
  end.
(** The entry after an attempt. *)
Definition spend_try (s : AbrSlotData) : AbrSlotData :=
  if negb (sd_successful s =? 0) then s else
  mkSlotData (sd_priority s) (sd_tries s - 1) (sd_successful s)
    (if sd_tries s - 1 =? 0 then reason_to_u8 NoMoreTries else sd_unbootable_reason s).
Definition after_attempt (b : Block) (slots : list AbrSlotData) : list AbrSlotData :=
  match attempt_slot b with
  | None => slots
  | Some s => alter spend_try (Z.to_nat (suffix s - 97)) slots
  end.

Lemma oneshot_dedicated f r : oneshot_of_flags f = Some (OContinue r) → r = Dedicated.
Proof. unfold oneshot_of_flags. repeat case_if; intros; by simplify_eq. Qed.

Lemma release_token_run {MB} (b : SlotBlock MB) :
  release_token b =
    (ok_or (boot_token b) OperationProhibited, mkBlock (cache_status b) None (sb_data b)).
Proof. reflexivity. Qed.

Lemma upd_slots_id d : upd_slots id d = d.
Proof. by destruct d. Qed.

Lemma spend_try_ok s :
  slot_ok s → is_bootable (slot_view 97 s) = true → sd_successful s = 0 →
  arith (E:=Error) 8 (sd_tries s - 1) = Ok (sd_tries s - 1) ∧ slot_ok (spend_try s).
Proof.
  rewrite !slot_ok_fields. intros (Hp & Ht & Hs & Hr) Hb E. unfold is_bootable, slot_view in Hb.
  simpl in Hb. rewrite E, Z.gtb_ltb in Hb. simpl in Hb.
  destruct (Z.ltb_spec 0 (sd_tries s)) in Hb; [|done]. unfold u8_ok in *. split.
  - apply arith_ok. lia.
  - unfold spend_try. rewrite E. simpl. split_and!; simpl; try lia; try done; case_if; simpl; lia.
Qed.

Lemma bootable_view x y s : is_bootable (slot_view x s) = is_bootable (slot_view y s).
Proof. done. Qed.

(** The part of [mark_boot_attempt] after the target slot is known. *)
Lemma attempt_on_slot (b : Block) i x s :
  abr_wf (sb_data b) → ad_slot_data (sb_data b) !! i = Some s → slot_ok s →
  is_bootable (slot_view x s) = true →
  ∃ c,
    (match bootability (slot_view x s) with
     | BUnbootable _ => raise OperationProhibited
     | BRetriable _ =>
         update_slot (Z.of_nat i) (λ s,
           tries ← arith 8 (sd_tries s - 1);
           Ok (mkSlotData (sd_priority s) tries (sd_successful s)
                 (if tries =? 0 then reason_to_u8 NoMoreTries else sd_unbootable_reason s)));;
         release_token
     | BSuccessful => release_token
     end) b =
    (ok_or (boot_token b) OperationProhibited,
     mkBlock c None (upd_slots (alter spend_try i) (sb_data b))) ∧
  abr_wf (upd_slots (alter spend_try i) (sb_data b)).
Proof.
  intros Hw Hi Hs Hb.
  assert (Halter : alter spend_try i (ad_slot_data (sb_data b)) =
                   <[i := spend_try s]> (ad_slot_data (sb_data b))).
  { by apply alter_insert. }
  assert (Hupd : upd_slots (alter spend_try i) (sb_data b) =
                 upd_slots <[i := spend_try s]> (sb_data b)).
  { unfold upd_slots. by rewrite Halter. }
  rewrite Hupd. destruct (Z.eqb_spec (sd_successful s) 0) as [E|E].
  - destruct (spend_try_ok s Hs Hb E) as [Ha Hok].
    unfold is_bootable in Hb. unfold slot_view in Hb |- *. simpl in Hb |- *. rewrite E in Hb |- *.
    simpl in Hb |- *. destruct (sd_tries s >? 0); [|done].
    exists Dirty. split; [|by apply fuchsia_wf_slots].
    rewrite bind_run. unfold update_slot. rewrite bind_run. cbn [gets]. unfold get_data.
    rewrite Nat2Z.id, Hi. cbn [unwrap]. rewrite lift_ok_bind, Ha, ok_bind, lift_ok_bind.
    unfold spend_try. rewrite E. reflexivity.
  - assert (spend_try s = s) as ->.
    { unfold spend_try. by rewrite (proj2 (Z.eqb_neq _ _)). }
    assert (upd_slots <[i := s]> (sb_data b) = sb_data b) as ->.
    { destruct (sb_data b). unfold upd_slots. simpl in *. by rewrite list_insert_id. }
    exists (cache_status b). split; [|done]. unfold slot_view. simpl.
    by rewrite (proj2 (Z.eqb_neq _ _)).
Qed.

Lemma mark_boot_attempt_run (b : Block) :
  abr_wf (sb_data b) →
  ∃ c, fuchsia_mark_boot_attempt b =
    (ok_or (boot_token b) OperationProhibited,
     mkBlock c None (upd_slots (after_attempt b) (sb_data b))) ∧
  abr_wf (upd_slots (after_attempt b) (sb_data b)).
Proof.
  intros Hw. destruct (two_slots _ Hw) as (s1 & s2 & E & H1 & H2).
  pose proof (iter_two b s1 s2 E) as Hi.
  unfold fuchsia_mark_boot_attempt, after_attempt, attempt_slot.
  rewrite bind_run. cbn [gets id]. rewrite bind_run.
  assert (Hid : upd_slots (λ l, l) (sb_data b) = sb_data b) by (by destruct (sb_data b)).
  assert (Hgo : ∀ t, max_by_key (filter (λ s, is_bootable s = true) (fuchsia_slots_iter b)) = Some t →
    ∃ c, ('(idx, slot) ← lift (get_index_and_slot_with_suffix b (suffix t));
      match bootability slot with
      | BUnbootable _ => raise OperationProhibited
      | BRetriable _ =>
          update_slot idx (λ s,
            tries ← arith 8 (sd_tries s - 1);
            Ok (mkSlotData (sd_priority s) tries (sd_successful s)
                  (if tries =? 0 then reason_to_u8 NoMoreTries else sd_unbootable_reason s)));;
          release_token
      | BSuccessful => release_token
      end) b = (ok_or (boot_token b) OperationProhibited,
        mkBlock c None (upd_slots (alter spend_try (Z.to_nat (suffix t - 97))) (sb_data b))) ∧
      abr_wf (upd_slots (alter spend_try (Z.to_nat (suffix t - 97))) (sb_data b))).
  { intros t Ht. pose proof (best_bootable (fuchsia_slots_iter b)) as Hbest. rewrite Ht in Hbest.
    destruct Hbest as (Hin & Hbt & _). rewrite Hi in Hin.
    unfold get_index_and_slot_with_suffix. rewrite Hi.
    apply elem_of_cons in Hin as [->|Hin%list_elem_of_singleton];
      [|subst t]; cbn [suffix slot_view find_suffix Z.eqb Pos.eqb ok_or]; rewrite bind_run; cbn [lift].
    - apply (attempt_on_slot b 0 97 s1); try done. by rewrite E.
    - apply (attempt_on_slot b 1 98 s2); try done. by rewrite E. }
  destruct (fuchsia_get_oneshot_status b) as [[|r]|] eqn:Eo.
  2: { apply oneshot_dedicated in Eo as ->. cbn [lift]. rewrite release_token_run, Hid. eauto. }
  all: unfold fuchsia_get_boot_target; cbn [lift];
    destruct (max_by_key _) as [t|]; [by apply Hgo|rewrite release_token_run, Hid; eauto].
Qed.

(** ** Custody of the boot token *)

Lemma wf_upd_slots d f :
  abr_wf d → length (f (ad_slot_data d)) = 2%nat → Forall slot_ok (f (ad_slot_data d)) →
  abr_wf (upd_slots f d).
Proof. intros [] ? ?. by split. Qed.

Lemma wf_upd_flag d f : abr_wf d → u8_ok f → abr_wf (upd_flag f d).
Proof. intros [] ?. by split. Qed.

(** An index found is that of a slot. *)
Lemma index_found (b : Block) x :
  abr_wf (sb_data b) →
  (get_index_and_slot_with_suffix b x = Err InvalidInput ∧ x ≠ 97 ∧ x ≠ 98) ∨
  ∃ i s, get_index_and_slot_with_suffix b x = Ok (Z.of_nat i, slot_view x s) ∧
         ad_slot_data (sb_data b) !! i = Some s ∧ slot_ok s ∧ x = 97 + Z.of_nat i.
Proof.
  intros Hw. destruct (two_slots _ Hw) as (s1 & s2 & E & H1 & H2).
  unfold get_index_and_slot_with_suffix. rewrite (iter_two b s1 s2 E). cbn [find_suffix suffix slot_view].
  destruct (Z.eqb_spec 97 x) as [<-|]; [|destruct (Z.eqb_spec 98 x) as [<-|]].
  - right. exists 0%nat, s1. by rewrite E.
  - right. exists 1%nat, s2. by rewrite E.
  - left. auto.
Qed.

Definition activate (idx : Z) (slots : list AbrSlotData) : list AbrSlotData :=
  imap (λ i s, if Z.of_nat i =? idx then slot_data_default
               else mkSlotData (DEFAULT_PRIORITY - 1) (sd_tries s) (sd_successful s)
                      (sd_unbootable_reason s)) slots.

Lemma fuchsia_activate_ok idx slots :
  Forall slot_ok slots → Forall slot_ok (activate idx slots) ∧ length (activate idx slots) = length slots.
Proof.
  intros HF. unfold activate. split; [|apply length_imap]. apply Forall_lookup. intros k s Hk.
  rewrite list_lookup_imap in Hk. destruct (slots !! k) as [s0|] eqn:E; simplify_eq/=.
  rewrite Forall_lookup in HF. specialize (HF _ _ E). rewrite slot_ok_fields in *.
  case_if; [by apply slot_ok_fields, default_slot_ok|]. simpl. split_and!; try apply HF; by_compute.
Qed.

Section FuchsiaToken.
Context {Hasher0 : Hasher}.

Lemma set_unbootable_run (b : Block) x r :
  abr_wf (sb_data b) →
  ∃ res b', fuchsia_set_slot_unbootable x r b = (res, b') ∧ boot_token b' = boot_token b ∧
            abr_wf (sb_data b') ∧ res ≠ Panic.
Proof.
  intros Hw. unfold fuchsia_set_slot_unbootable. rewrite bind_run. cbn [gets id]. rewrite bind_run.
  destruct (index_found b x Hw) as [(-> & _)|(i & s & -> & Hi & Hs & _)]; cbn [lift];
    [by eexists _, _|].
  case_bool_decide; [by eexists _, _|].
  unfold update_slot. rewrite bind_run. cbn [gets]. unfold get_data. rewrite Nat2Z.id, Hi. cbn [unwrap].
  rewrite lift_ok_bind, lift_ok_bind. eexists _, _. split; [reflexivity|]. simpl. split_and!; try done.
  apply fuchsia_wf_slots; [done|]. rewrite slot_ok_fields in *. simpl.
  unfold u8_ok in *. destruct r; simpl; lia.
Qed.

Lemma set_active_run (b : Block) x :
  abr_wf (sb_data b) →
  fuchsia_set_active_slot x b =
    (if (x =? 97) || (x =? 98)
     then (Ok tt, mkBlock Dirty (boot_token b) (upd_slots (activate (x - 97)) (sb_data b)))
     else (Err InvalidInput, b)) ∧
  abr_wf (upd_slots (activate (x - 97)) (sb_data b)).
Proof.
  intros Hw. destruct (aw_slots _ Hw) as [Hl HF].
  destruct (fuchsia_activate_ok (x - 97) _ HF) as [HF' Hl'].
  split; [|by apply wf_upd_slots; try done; rewrite Hl'].
  unfold fuchsia_set_active_slot. rewrite bind_run. cbn [gets id]. rewrite bind_run.
  destruct (index_found b x Hw) as [(-> & ? & ?)|(i & s & -> & Hi & Hs & ->)]; cbn [lift].
  - by rewrite !(proj2 (Z.eqb_neq _ _)).
  - apply lookup_lt_Some in Hi. rewrite Hl in Hi.
    replace (97 + Z.of_nat i - 97) with (Z.of_nat i) by lia.
    destruct i as [|[|]]; [done..|lia].
Qed.

#[export] Instance FuchsiaTokenLaws : TokenLaws AbrData abr_wf.
Proof.
  split.
  - intros b Hw. destruct (mark_boot_attempt_run b Hw) as (c & Hr & Hw').
    eexists. split; [exact Hr|]. done.
  - intros b op Hw Hop. destruct op as [|x|x r|o|]; [done|..]; cbn [run_slot_op].
    + cbn [set_active_slot FuchsiaManager]. rewrite bind_run. destruct (set_active_run b x Hw) as [-> Hw'].
      destruct ((x =? 97) || (x =? 98)); eexists _, _; (split; [reflexivity|]); done.
    + cbn [set_slot_unbootable FuchsiaManager]. rewrite bind_run.
      destruct (set_unbootable_run b x r Hw) as (res & b' & -> & ? & ? & ?).
      destruct res; eexists _, _; (split; [reflexivity|]); done.
    + cbn [set_oneshot_status FuchsiaManager]. rewrite bind_run. unfold fuchsia_set_oneshot_status.
      rewrite bind_run. cbn [gets id]. case_bool_decide; [by eexists _, _|].
      destruct (flags_of_oneshot (Some o) =? FLAGS_NONE); [by eexists _, _|].
      eexists _, _. split; [reflexivity|]. simpl. split_and!; try done. apply wf_upd_flag; [done|].
      destruct o as [|[|]]; by_compute.
    + cbn [clear_oneshot_status FuchsiaManager]. rewrite bind_run. unfold fuchsia_clear_oneshot_status.
      rewrite bind_run. cbn [gets id].
      destruct (fuchsia_get_oneshot_status b); eexists _, _; (split; [reflexivity|]); simpl; split_and!; try done.
      apply wf_upd_flag; [done|by_compute].
Qed.

(** C29. A boot flow gets the boot token exactly once: whatever the partition
    holds and whatever other operations are performed, the first boot attempt
    releases the token and every later one is refused. *)
Theorem fuchsia_boot_token_once buffer t ops :
  bytes_ok buffer →
  let rs := attempts ops (run_slot_ops ops (sb_deserialize buffer t : Block)) in
  rs = match rs with
       | [] => []
       | _ :: rest => Ok (Some t) :: replicate (length rest) (Err OperationProhibited)
       end.
Proof.
  intros Hb. cbv zeta.
  pose proof (attempts_run abr_wf ops (sb_deserialize buffer t) (deserialize_block_wf _ _ Hb)) as H.
  assert (Ht : boot_token (sb_deserialize buffer t : Block) = Some t).
  { unfold sb_deserialize. by destruct (validate buffer). }
  rewrite Ht in H. exact H.
Qed.
End FuchsiaToken.

Lemma fuchsia_boot_token_once_witness :
  let ops := [OpSetActive 98; OpMarkBootAttempt; OpSetUnbootable 98 UserRequested;
              OpMarkBootAttempt; OpMarkBootAttempt] in
  attempts ops (run_slot_ops (Manager0 := @FuchsiaManager StandardHasher) ops
    (@sb_deserialize _ (@AbrMetadata StandardHasher) (replicate 32 0) Token)) =
  [Ok (Some Token); Err OperationProhibited; Err OperationProhibited].
Proof.
  pose proof (@fuchsia_boot_token_once StandardHasher (replicate 32 0) Token) as H.
  cbv zeta in H. intros ops. rewrite (H ops) by by_compute. by vm_compute.
Defined.

(** ** The boot target *)

(** The boot target is the bootable slot of the highest priority, the
    first suffix deciding between equal priorities; the dedicated recovery
    slot is the target exactly if no slot is bootable. *)
Theorem fuchsia_boot_target_policy (b : Block) :
  ∃ target, fuchsia_get_boot_target b = Ok target ∧
    match target with
    | NormalBoot s => is_boot_slot (fuchsia_slots_iter b) s
    | Recovery r => r = Dedicated ∧ Forall (λ s, is_bootable s = false) (fuchsia_slots_iter b)
    end.
Proof.
  unfold fuchsia_get_boot_target. pose proof (best_bootable (fuchsia_slots_iter b)) as H.
  destruct (max_by_key _) as [s|]; eexists; (split; [reflexivity|]); done.
Qed.

(** What an attempt makes of the slot it is made for. *)
Definition spent (s : Slot) : Slot :=
  match bootability s with
  | BRetriable n =>
      mkSlotOf (suffix s) (priority s)
        (if n =? 1 then BUnbootable NoMoreTries else BRetriable (n - 1))
  | _ => s
  end.

Lemma spent_view x s :
  slot_ok s → is_bootable (slot_view x s) = true →
  slot_view x (spend_try s) = spent (slot_view x s).
Proof.
  intros Hs Hb. rewrite slot_ok_fields in Hs. unfold is_bootable in Hb.
  unfold spend_try, spent, slot_view in *. simpl in *. rewrite !Z.gtb_ltb in *.
  destruct (Z.eqb_spec (sd_successful s) 0) as [E|E]; simpl in *.
  - destruct (Z.ltb_spec 0 (sd_tries s)) as [Ht|]; [|done]. simpl. rewrite E. simpl.
    destruct (Z.eqb_spec (sd_tries s) 1) as [E1|E1]; [by rewrite E1|].
    by rewrite (proj2 (Z.ltb_lt 0 (sd_tries s - 1))) by lia.
  - by rewrite (proj2 (Z.eqb_neq _ _)).
Qed.

(** A boot attempt counts against the target slot and no other: it uses
    up a try of a slot that is not marked successful, and the last try makes
    the slot unbootable with the reason "no more tries". A one-shot recovery
    boot, or a boot to recovery, counts against no slot. The count is made
    even if the call is refused because the token is gone. *)
Theorem fuchsia_boot_attempt_effect (b : Block) :
  abr_wf (sb_data b) →
  ∃ b', fuchsia_mark_boot_attempt b = (ok_or (boot_token b) OperationProhibited, b') ∧
    boot_token b' = None ∧
    fuchsia_slots_iter b' =
      match attempt_slot b with
      | None => fuchsia_slots_iter b
      | Some t => (λ s, if suffix s =? suffix t then spent s else s) <$> fuchsia_slots_iter b
      end.
Proof.
  intros Hw. destruct (mark_boot_attempt_run b Hw) as (c & Hr & _). rewrite Hr. eexists.
  split; [reflexivity|]. split; [done|].
  destruct (two_slots _ Hw) as (s1 & s2 & E & H1 & H2). pose proof (iter_two b s1 s2 E) as Hi.
  unfold after_attempt. destruct (attempt_slot b) as [t|] eqn:Et.
  2: { rewrite Hi. by apply iter_two. }
  assert (Hbest : is_boot_slot (fuchsia_slots_iter b) t).
  { pose proof (best_bootable (fuchsia_slots_iter b)) as Hbest. unfold attempt_slot in Et.
    destruct (fuchsia_get_oneshot_status b) as [[|]|]; try done; by rewrite Et in Hbest. }
  destruct Hbest as (Hin & Hbt & _). rewrite Hi in Hin |- *.
  apply elem_of_cons in Hin as [->|Hin%list_elem_of_singleton]; [|subst t]; simpl.
  - rewrite <-spent_view by done. apply iter_two. simpl. by rewrite E.
  - rewrite <-spent_view by done. apply iter_two. simpl. by rewrite E.
Qed.

Lemma fuchsia_boot_attempt_effect_witness :
  let d := mkAbrData ABR_MAGIC 2 3 [0; 0] [mkSlotData 14 7 0 0; mkSlotData 15 1 0 0] 0
             (replicate 11 0) 0 in
  ∃ b', fuchsia_mark_boot_attempt (mkBlock Clean None d) = (Err OperationProhibited, b') ∧
    fuchsia_slots_iter b' = [mkSlotOf 97 14 (BRetriable 7); mkSlotOf 98 15 (BUnbootable NoMoreTries)].
Proof.
  intros d. destruct (fuchsia_boot_attempt_effect (mkBlock Clean None d)) as (b' & H1 & _ & H2).
  { split; simpl; try done; try (split; [done|]); unfold slot_ok; by_compute. }
  exists b'. split; [exact H1|]. rewrite H2. vm_compute. reflexivity.
Defined.

(** Setting a slot active makes it the target of the next normal boot,
    with the default priority and all tries; the other slot keeps its
    bootability with a lower priority. Any other suffix is refused and changes
    nothing. *)
Theorem fuchsia_set_active_slot_spec (b : Block) x :
  abr_wf (sb_data b) →
  if (x =? 97) || (x =? 98) then
    ∃ b', fuchsia_set_active_slot x b = (Ok tt, b') ∧ boot_token b' = boot_token b ∧
      fuchsia_get_boot_target b' = Ok (NormalBoot (mkSlotOf x DEFAULT_PRIORITY (BRetriable 7))) ∧
      (∀ s, s ∈ fuchsia_slots_iter b → suffix s ≠ x →
            mkSlotOf (suffix s) (DEFAULT_PRIORITY - 1) (bootability s) ∈ fuchsia_slots_iter b')
  else fuchsia_set_active_slot x b = (Err InvalidInput, b).
Proof.
  intros Hw. destruct (set_active_run b x Hw) as [Hr _].
  destruct (two_slots _ Hw) as (s1 & s2 & E & _). pose proof (iter_two b s1 s2 E) as Hi.
  destruct ((x =? 97) || (x =? 98)) eqn:Ex; [|done]. eexists. split; [exact Hr|]. split; [done|].
  bools. assert (Hx : x = 97 ∨ x = 98) by (destruct Ex; bools; auto). clear Hr Ex.
  unfold fuchsia_get_boot_target. rewrite Hi.
  destruct Hx as [-> | ->]; (erewrite iter_two; [|simpl; rewrite E; reflexivity]).
  - split.
    + rewrite filter_cons_True by done. rewrite filter_cons. case_decide; done.
    + intros s Hin Hs. apply elem_of_cons in Hin as [->|Hin%list_elem_of_singleton]; [done|].
      subst s. right. left.
  - split.
    + rewrite filter_cons. case_decide; rewrite filter_cons_True; done.
    + intros s Hin Hs. apply elem_of_cons in Hin as [->|Hin%list_elem_of_singleton]; [left|].
      by subst s.
Qed.

Lemma fuchsia_set_active_slot_spec_witness :
  let b := @sb_deserialize _ (@AbrMetadata StandardHasher) (replicate 32 0) Token in
  ∃ b', fuchsia_set_active_slot 98 b = (Ok tt, b') ∧
    fuchsia_get_boot_target b' = Ok (NormalBoot (mkSlotOf 98 15 (BRetriable 7))).
Proof.
  intros b. destruct (fuchsia_set_active_slot_spec b 98) as (b' & H1 & _ & H2 & _).
  { apply (@abr_default_wf StandardHasher). }
  exists b'. done.
Defined.

(** The default Fuchsia metadata, written back after a slot was set active. *)
Lemma slot_block_persistence_witness :
  let b := @sb_deserialize _ (@AbrMetadata StandardHasher) (replicate 32 0) Token in
  let b1 := snd (fuchsia_set_active_slot 98 b) in
  cache_status b1 = Dirty ∧
  ∃ st d, sync_to_disk (MetadataBytes0 := @AbrMetadata StandardHasher)
      (λ x _, (Ok tt, x)) (b1, []) = (Ok tt, (mkBlock Clean (Some Token) d, st)) ∧
    @sb_deserialize _ (@AbrMetadata StandardHasher) st Token = mkBlock Clean (Some Token) d ∧
    fuchsia_get_boot_target (mkBlock Clean None d) = Ok (NormalBoot (mkSlotOf 98 15 (BRetriable 7))).
Proof.
  intros b b1. split; [by vm_compute|].
  destruct (slot_block_persistence (MetadataLaws0 := @AbrLaws StandardHasher)
    (λ x _, (Ok tt, x)) b1 []) as [H1 H2].
  { apply (set_active_run b 98), (@abr_default_wf StandardHasher). }
  eexists _, _. split; [exact H1|]. split; [apply H2|]. by vm_compute.
Defined.
