(* ===== verification/AndroidSlots.v ===== *)
(** * libgbl slots: the Android slot manager

    Models src/gbl/libgbl/src/slots/android.rs: the bit fields of the boot
    control block, its bytes, and the [Manager] implementation on a block of
    it. *)

From S2P Require Import Prelude SafeMath LibError Text Crc Slots.

(** gbl/libgbl/src/slots/android.rs:32-32, [MAX_SLOTS]. *)
Definition MAX_SLOTS : Z := 4.

(** ** Bit fields of 16-bit integers *)

(** gbl/libgbl/src/slots/android.rs:36-49, [get_field]: with result type [u8]. *)
Definition get_field (base offset mask : Z) : Z :=
  default 0 (checked 8 (Z.land (Z.shiftr base offset) mask)).

(** gbl/libgbl/src/slots/android.rs:51-61, [set_field]: the complement and the shifts are
    those of [u16]. *)
Definition set_field (base val offset mask : Z) : Z :=
  Z.lor (Z.land base (bit_not 16 (wrap 16 (Z.shiftl mask offset))))
        (wrap 16 (Z.shiftl (Z.land val mask) offset)).

(** gbl/libgbl/src/slots/android.rs:63-63, [DEFAULT_PRIORITY]. *)
Definition DEFAULT_PRIORITY : Z := 7.
(** gbl/libgbl/src/slots/android.rs:64-64, [DEFAULT_RETRIES]. *)
Definition DEFAULT_RETRIES : Z := 7.

(** gbl/libgbl/src/slots/android.rs:66-72, [SlotMetaData]: a [u16]. *)
Definition SlotMetaData : Type := Z.
(** gbl/libgbl/src/slots/android.rs:77-77, [PRIORITY_MASK]. *)
Definition PRIORITY_MASK : Z := 15.
(** gbl/libgbl/src/slots/android.rs:78-78, [PRIORITY_OFFSET]. *)
Definition PRIORITY_OFFSET : Z := 0.
(** gbl/libgbl/src/slots/android.rs:80-80, [TRIES_MASK]. *)
Definition TRIES_MASK : Z := 7.
(** gbl/libgbl/src/slots/android.rs:81-81, [TRIES_OFFSET]. *)
Definition TRIES_OFFSET : Z := 4.
(** gbl/libgbl/src/slots/android.rs:83-83, [SUCCESSFUL_MASK]. *)
Definition SUCCESSFUL_MASK : Z := 1.
(** gbl/libgbl/src/slots/android.rs:84-84, [SUCCESSFUL_OFFSET]. *)
Definition SUCCESSFUL_OFFSET : Z := 7.
(** gbl/libgbl/src/slots/android.rs:86-86, [VERITY_CORRUPTED_MASK]. *)
Definition VERITY_CORRUPTED_MASK : Z := 1.
(** gbl/libgbl/src/slots/android.rs:87-87, [VERITY_CORRUPTED_OFFSET]. *)
Definition VERITY_CORRUPTED_OFFSET : Z := 8.

(** gbl/libgbl/src/slots/android.rs:89-91, [SlotMetaData::priority]. *)
Definition md_priority (s : SlotMetaData) : Z := get_field s PRIORITY_OFFSET PRIORITY_MASK.
(** gbl/libgbl/src/slots/android.rs:92-94, [SlotMetaData::set_priority]. *)
Definition md_set_priority (p : Z) (s : SlotMetaData) : SlotMetaData :=
  set_field s p PRIORITY_OFFSET PRIORITY_MASK.
(** gbl/libgbl/src/slots/android.rs:96-98, [SlotMetaData::tries]. *)
Definition md_tries (s : SlotMetaData) : Z := get_field s TRIES_OFFSET TRIES_MASK.
(** gbl/libgbl/src/slots/android.rs:99-101, [SlotMetaData::set_tries]. *)
Definition md_set_tries (t : Z) (s : SlotMetaData) : SlotMetaData :=
  set_field s t TRIES_OFFSET TRIES_MASK.
(** gbl/libgbl/src/slots/android.rs:103-105, [SlotMetaData::successful]. *)
Definition md_successful (s : SlotMetaData) : bool :=
  negb (get_field s SUCCESSFUL_OFFSET SUCCESSFUL_MASK =? 0).
(** gbl/libgbl/src/slots/android.rs:106-108, [SlotMetaData::set_successful]. *)
Definition md_set_successful (b : bool) (s : SlotMetaData) : SlotMetaData :=
  set_field s (Z.b2z b) SUCCESSFUL_OFFSET SUCCESSFUL_MASK.
(** gbl/libgbl/src/slots/android.rs:110-112, [SlotMetaData::verity_corrupted]. *)
Definition md_verity_corrupted (s : SlotMetaData) : bool :=
  negb (get_field s VERITY_CORRUPTED_OFFSET VERITY_CORRUPTED_MASK =? 0).
(** gbl/libgbl/src/slots/android.rs:113-120, [SlotMetaData::set_verity_corrupted]. *)
Definition md_set_verity_corrupted (b : bool) (s : SlotMetaData) : SlotMetaData :=
  set_field s (Z.b2z b) VERITY_CORRUPTED_OFFSET VERITY_CORRUPTED_MASK.

(** gbl/libgbl/src/slots/android.rs:127-135, [Default for SlotMetaData]. *)
Definition md_default : SlotMetaData :=
  md_set_tries DEFAULT_RETRIES (md_set_priority DEFAULT_PRIORITY 0).

(** gbl/libgbl/src/slots/android.rs:140-141, [ControlBits]: a [u16]. *)
Definition ControlBits : Type := Z.
(** gbl/libgbl/src/slots/android.rs:146-146, [NB_SLOT_MASK]. *)
Definition NB_SLOT_MASK : Z := 7.
(** gbl/libgbl/src/slots/android.rs:147-147, [NB_SLOT_OFFSET]. *)
Definition NB_SLOT_OFFSET : Z := 0.
(** gbl/libgbl/src/slots/android.rs:149-149, [RECOVERY_TRIES_MASK]. *)
Definition RECOVERY_TRIES_MASK : Z := 7.
(** gbl/libgbl/src/slots/android.rs:150-150, [RECOVERY_TRIES_OFFSET]. *)
Definition RECOVERY_TRIES_OFFSET : Z := 3.
(** gbl/libgbl/src/slots/android.rs:152-152, [MERGE_STATUS_MASK]. *)
Definition MERGE_STATUS_MASK : Z := 7.
(** gbl/libgbl/src/slots/android.rs:153-153, [MERGE_STATUS_OFFSET]. *)
Definition MERGE_STATUS_OFFSET : Z := 6.

(** gbl/libgbl/src/slots/android.rs:155-157, [ControlBits::nb_slots]. *)
Definition nb_slots (c : ControlBits) : Z := Z.min (get_field c NB_SLOT_OFFSET NB_SLOT_MASK) MAX_SLOTS.
(** gbl/libgbl/src/slots/android.rs:158-165, [ControlBits::set_nb_slots]. *)
Definition set_nb_slots (n : Z) (c : ControlBits) : ControlBits :=
  set_field c (Z.min n MAX_SLOTS) NB_SLOT_OFFSET NB_SLOT_MASK.
(** gbl/libgbl/src/slots/android.rs:167-169, [ControlBits::recovery_tries]. *)
Definition recovery_tries (c : ControlBits) : Z := get_field c RECOVERY_TRIES_OFFSET RECOVERY_TRIES_MASK.
(** gbl/libgbl/src/slots/android.rs:170-177, [ControlBits::set_recovery_tries]. *)
Definition set_recovery_tries (n : Z) (c : ControlBits) : ControlBits :=
  set_field c n RECOVERY_TRIES_OFFSET RECOVERY_TRIES_MASK.
(** gbl/libgbl/src/slots/android.rs:179-181, [ControlBits::merge_status]. *)
Definition merge_status (c : ControlBits) : Z := get_field c MERGE_STATUS_OFFSET MERGE_STATUS_MASK.
(** gbl/libgbl/src/slots/android.rs:182-185, [ControlBits::set_merge_status]. *)
Definition set_merge_status (n : Z) (c : ControlBits) : ControlBits :=
  set_field c n MERGE_STATUS_OFFSET MERGE_STATUS_MASK.

(** ** The boot control block *)

(** gbl/libgbl/src/slots/android.rs:188-188, [BOOT_CTRL_MAGIC]. *)
Definition BOOT_CTRL_MAGIC : Z := 0x42414342.
(** gbl/libgbl/src/slots/android.rs:189-189, [BOOT_CTRL_VERSION]. *)
Definition BOOT_CTRL_VERSION : Z := 1.

(** gbl/libgbl/src/slots/android.rs:191-211, [BootloaderControl]. *)
Record BootloaderControl := mkControl {
  bc_slot_suffix : bytes;
  bc_magic : Z;
  bc_version : Z;
  bc_control_bits : ControlBits;
  bc_reserved0 : bytes;
  bc_slot_metadata : list SlotMetaData;
  bc_reserved1 : bytes;
  bc_crc32 : Z;
}.

(** The first 28 bytes of the packed structure, on a little-endian machine. *)
Definition control_head (c : BootloaderControl) : bytes :=
  bc_slot_suffix c ++ le_bytes 4 (bc_magic c) ++ [bc_version c]
  ++ le_bytes 2 (bc_control_bits c) ++ bc_reserved0 c
  ++ mjoin (le_bytes 2 <$> bc_slot_metadata c) ++ bc_reserved1 c.
(** [as_bytes] of the packed structure. *)
Definition control_bytes (c : BootloaderControl) : bytes :=
  control_head c ++ le_bytes 4 (bc_crc32 c).
(** The structure at the start of a buffer ([Ref::new_from_prefix]). *)
Definition control_of_bytes (b : bytes) : option BootloaderControl :=
  if zlen b <? 32 then None else
  v ← b !! 8%nat;
  Some (mkControl (slice b 0 4) (le_val (slice b 4 4)) v (le_val (slice b 9 2)) (slice b 11 1)
          [le_val (slice b 12 2); le_val (slice b 14 2); le_val (slice b 16 2); le_val (slice b 18 2)]
          (slice b 20 8) (le_val (slice b 28 4))).

Definition with_suffix (s : bytes) (c : BootloaderControl) : BootloaderControl :=
  mkControl s (bc_magic c) (bc_version c) (bc_control_bits c) (bc_reserved0 c)
    (bc_slot_metadata c) (bc_reserved1 c) (bc_crc32 c).
Definition with_metadata (f : list SlotMetaData → list SlotMetaData) (c : BootloaderControl) :
    BootloaderControl :=
  mkControl (bc_slot_suffix c) (bc_magic c) (bc_version c) (bc_control_bits c) (bc_reserved0 c)
    (f (bc_slot_metadata c)) (bc_reserved1 c) (bc_crc32 c).
Definition with_bits (b : ControlBits) (c : BootloaderControl) : BootloaderControl :=
  mkControl (bc_slot_suffix c) (bc_magic c) (bc_version c) b (bc_reserved0 c)
    (bc_slot_metadata c) (bc_reserved1 c) (bc_crc32 c).
Definition with_crc (v : Z) (c : BootloaderControl) : BootloaderControl :=
  mkControl (bc_slot_suffix c) (bc_magic c) (bc_version c) (bc_control_bits c) (bc_reserved0 c)
    (bc_slot_metadata c) (bc_reserved1 c) v.

Section Metadata.
Context `{!Hasher}.

(** gbl/libgbl/src/slots/android.rs:215-219, [BootloaderControl::calculate_crc32]. *)
Definition calculate_crc32 (c : BootloaderControl) : Z := hash (slice (control_bytes c) 0 (32 - 4)).

(** gbl/libgbl/src/slots/android.rs:222-244, [Default for BootloaderControl]. *)
Definition control_default : BootloaderControl :=
  let data := mkControl [0; 0; 0; 0] BOOT_CTRL_MAGIC BOOT_CTRL_VERSION 0 [0]
    (replicate 4 md_default) (replicate 8 0) 0 in
  let data := with_suffix (splice (bc_slot_suffix data) 0 (encode_utf8 95)) data in
  let data := with_suffix (splice (bc_slot_suffix data) 1 (encode_utf8 97)) data in
  let data := with_bits (set_nb_slots 4 (bc_control_bits data)) data in
  with_crc (calculate_crc32 data) data.

(** gbl/libgbl/src/slots/android.rs:247-263, [MetadataBytes::validate for BootloaderControl]. *)
Definition control_validate (buffer : bytes) : result BootloaderControl :=
  c ← ok_or (control_of_bytes buffer) (BufferTooSmall (Some 32));
  if negb (bc_magic c =? BOOT_CTRL_MAGIC) then Err BadMagic
  else if bc_version c >? BOOT_CTRL_VERSION then Err UnsupportedVersion
  else if negb (bc_crc32 c =? calculate_crc32 c) then Err BadChecksum
  else Ok c.

(** gbl/libgbl/src/slots/android.rs:265-267, [MetadataBytes::prepare_for_sync for
    BootloaderControl]. *)
Definition control_prepare_for_sync (c : BootloaderControl) : BootloaderControl :=
  with_crc (calculate_crc32 c) c.

#[export] Instance ControlMetadata : MetadataBytes BootloaderControl := {|
  validate := control_validate;
  prepare_for_sync := control_prepare_for_sync;
  as_bytes := control_bytes;
  mb_default := control_default;
|}.
End Metadata.

Abbreviation Block := (SlotBlock BootloaderControl).

(** gbl/libgbl/src/slots/android.rs:271-287, [SlotGet::get_slot_by_number for
    SlotBlock<BootloaderControl>]. *)
Definition get_slot_by_number (b : Block) (number : Z) : result Slot :=
  let control := get_data b in
  slot_data ← ok_or
    (if (0 <=? number) && (number <? Z.min 26 (nb_slots (bc_control_bits control)))
     then bc_slot_metadata control !! Z.to_nat number else None) (BadIndex number);
  let bootability :=
    if md_successful slot_data then BSuccessful
    else if md_tries slot_data >? 0 then BRetriable (md_tries slot_data)
    else BUnbootable Unknown in
  Ok (mkSlotOf (97 + number) (md_priority slot_data) bootability).

(** gbl/libgbl/src/slots/android.rs:291-293, [Manager::slots_iter for
    SlotBlock<BootloaderControl>]. *)
Definition android_slots_iter (b : Block) : list Slot := slots_from (get_slot_by_number b) 27 0.

(** gbl/libgbl/src/slots/android.rs:295-305, [Manager::get_boot_target for
    SlotBlock<BootloaderControl>]: the recovery slot is computed, and its error
    returned, even if it is not needed. *)
Definition android_get_boot_target (b : Block) : result BootTarget :=
  let best := max_by_key (filter (λ s, is_bootable s = true) (android_slots_iter b)) in
  last ← default_slot_last_set_active (android_slots_iter b);
  Ok (match best with None => Recovery (Slotted last) | Some s => NormalBoot s end).

(** [&mut self.get_mut_data().slot_metadata[idx]]. *)
Definition update_metadata (idx : Z) (f : SlotMetaData → outcome Error SlotMetaData) :
    ST Block Error unit :=
  d ← gets get_data;
  s ← lift (unwrap (bc_slot_metadata d !! Z.to_nat idx));
  s ← lift (f s);
  get_mut_data (with_metadata <[Z.to_nat idx := s]>).

(** gbl/libgbl/src/slots/android.rs:307-326, [Manager::set_slot_unbootable for
    SlotBlock<BootloaderControl>]. *)
Definition android_set_slot_unbootable (x : Suffix) (reason : UnbootableReason) :
    ST Block Error unit :=
  b ← gets id;
  '(idx, slot) ← lift (ok_or (find_suffix x 0 (android_slots_iter b)) InvalidInput);
  if bool_decide (bootability slot = BUnbootable reason) then mret tt else
  update_metadata idx (λ s, Ok (md_set_successful false (md_set_tries 0 s))).

(** gbl/libgbl/src/slots/android.rs:328-356, [Manager::mark_boot_attempt for
    SlotBlock<BootloaderControl>]. *)
Definition android_mark_boot_attempt : ST Block Error BootToken :=
  b ← gets id;
  target ← lift (android_get_boot_target b);
  match target with
  | Recovery Dedicated => raise OperationProhibited
  | Recovery (Slotted slot) =>
      lift (ok_or (find_suffix (suffix slot) 0 (android_slots_iter b)) InvalidInput);;
      release_token
  | NormalBoot target_slot =>
      '(idx, slot) ← lift (ok_or (find_suffix (suffix target_slot) 0 (android_slots_iter b))
                             InvalidInput);
      match bootability slot with
      | BUnbootable _ => raise OperationProhibited
      | BRetriable _ =>
          update_metadata idx (λ s, t ← arith 8 (md_tries s - 1); Ok (md_set_tries t s));;
          release_token
      | BSuccessful => release_token
      end
  end.

(** gbl/libgbl/src/slots/android.rs:358-377, [Manager::set_active_slot for
    SlotBlock<BootloaderControl>]. *)
Definition android_set_active_slot (x : Suffix) : ST Block Error unit :=
  b ← gets id;
  '(idx, _) ← lift (ok_or (find_suffix x 0 (android_slots_iter b)) InvalidInput);
  get_mut_data (with_metadata (imap (λ i s,
    if Z.of_nat i =? idx then md_default else md_set_priority (DEFAULT_PRIORITY - 1) s)));;
  d ← gets get_data;
  _ ← lift (index_range (bc_slot_suffix d) 1 4);
  lift (assert_that (zlen (encode_utf8 x) <=? 3));;
  get_mut_data (λ d, with_suffix (splice (bc_slot_suffix d) 1 (encode_utf8 x)) d).

(** gbl/libgbl/src/slots/android.rs:379-381, [Manager::set_oneshot_status for
    SlotBlock<BootloaderControl>]. *)
Definition android_set_oneshot_status (o : OneShot) : ST Block Error unit := raise OperationProhibited.

(** gbl/libgbl/src/slots/android.rs:383-383, [Manager::clear_oneshot_status for
    SlotBlock<BootloaderControl>]. *)
Definition android_clear_oneshot_status : ST Block Error unit := mret tt.

(** gbl/libgbl/src/slots/android.rs:385-387, [Manager::write_back for
    SlotBlock<BootloaderControl>]. *)
Definition android_write_back `{!Hasher} P (persist : bytes → ST P Error unit) :
    ST (Block * P) Error unit := sync_to_disk persist.

#[export] Instance AndroidManager `{!Hasher} : Manager Block := {|
  slots_iter := android_slots_iter;
  get_boot_target := android_get_boot_target;
  get_slot_last_set_active b := default_slot_last_set_active (android_slots_iter b);
  mark_boot_attempt := android_mark_boot_attempt;
  set_active_slot := android_set_active_slot;
  set_slot_unbootable := android_set_slot_unbootable;
  get_oneshot_status _ := None;
  set_oneshot_status := android_set_oneshot_status;
  clear_oneshot_status := android_clear_oneshot_status;
  write_back := android_write_back;
|}.
