(* ===== verification/AndroidProps.v ===== *)
(** * libgbl slots: properties of the Android slot manager *)

From S2P Require Import Prelude SafeMath LibError Text Crc Slots AndroidSlots.

(** ** Bit fields *)

Lemma testbit_above x w k : 0 ≤ w → 0 ≤ x < 2 ^ w → w ≤ k → Z.testbit x k = false.
Proof.
  intros Hw Hx Hk. destruct (decide (x = 0)) as [->|]; [apply Z.testbit_0_l|].
  apply Z.bits_above_log2; [lia|]. apply Z.log2_lt_pow2; [lia|].
  assert (2 ^ w ≤ 2 ^ k) by (apply Z.pow_le_mono_r; lia). lia.
Qed.

Lemma wrap_testbit w x k : 0 ≤ w → 0 ≤ k → Z.testbit (wrap w x) k = (k <? w) && Z.testbit x k.
Proof.
  intros. unfold wrap. destruct (Z.ltb_spec k w).
  - by rewrite Z.mod_pow2_bits_low.
  - by rewrite Z.mod_pow2_bits_high by lia.
Qed.

Lemma ones_testbit w k : 0 ≤ w → 0 ≤ k → Z.testbit (Z.ones w) k = (k <? w).
Proof.
  intros. destruct (Z.ltb_spec k w); [by apply Z.ones_spec_low|by apply Z.ones_spec_high].
Qed.

Lemma set_field_testbit base v off w k :
  0 ≤ off → 0 ≤ w → off + w ≤ 16 → 0 ≤ base < 2 ^ 16 → 0 ≤ k →
  Z.testbit (set_field base v off (Z.ones w)) k =
    if (off <=? k) && (k <? off + w) then Z.testbit v (k - off) else Z.testbit base k.
Proof.
  intros Ho Hw Hs Hb Hk. unfold set_field, bit_not.
  rewrite Z.lor_spec, Z.land_spec, Z.lxor_spec, !wrap_testbit, ones_testbit, !Z.shiftl_spec by lia.
  destruct (Z.leb_spec off k) as [H1|H1].
  - rewrite Z.land_spec, !ones_testbit by lia.
    destruct (Z.ltb_spec k (off + w)) as [H2|H2].
    + rewrite !(proj2 (Z.ltb_lt _ _)) by lia. simpl. by rewrite andb_false_r, andb_true_r.
    + rewrite (proj2 (Z.ltb_ge (k - off) w)) by lia. rewrite !andb_false_r, orb_false_r. simpl.
      destruct (Z.ltb_spec k 16); [by rewrite andb_true_r|]. rewrite andb_false_r.
      by rewrite (testbit_above base 16) by lia.
  - rewrite !(Z.testbit_neg_r _ (k - off)) by lia. rewrite !andb_false_r, orb_false_r. simpl.
    destruct (Z.ltb_spec k 16); [by rewrite andb_true_r|]. rewrite andb_false_r.
    by rewrite (testbit_above base 16) by lia.
Qed.

Lemma get_field_eq base off w :
  0 ≤ off → 0 ≤ w ≤ 8 → get_field base off (Z.ones w) = Z.land (Z.shiftr base off) (Z.ones w).
Proof.
  intros. unfold get_field. rewrite checked_Some; [done|]. rewrite Z.land_ones by lia.
  pose proof (Z.mod_pos_bound (Z.shiftr base off) (2 ^ w)).
  assert (2 ^ w ≤ 2 ^ 8) by (apply Z.pow_le_mono_r; lia). lia.
Qed.

Lemma get_field_testbit base off w k :
  0 ≤ off → 0 ≤ w ≤ 8 → 0 ≤ k →
  Z.testbit (get_field base off (Z.ones w)) k = (k <? w) && Z.testbit base (off + k).
Proof.
  intros. rewrite get_field_eq, Z.land_spec, ones_testbit, Z.shiftr_spec by lia.
  rewrite andb_comm. f_equal. f_equal. lia.
Qed.

Lemma set_field_u16 base v off w :
  0 ≤ off → 0 ≤ w → off + w ≤ 16 → 0 ≤ base < 2 ^ 16 →
  0 ≤ set_field base v off (Z.ones w) < 2 ^ 16.
Proof.
  intros. unfold set_field. apply (lor_bound 16); [lia| |].
  - apply land_bound; [lia|done|]. unfold bit_not, wrap. apply Z.lxor_nonneg.
    split; intros _; [by vm_compute|apply Z.mod_pos_bound; lia].
  - unfold wrap. apply Z.mod_pos_bound. lia.
Qed.

Lemma get_set_same base v off w :
  0 ≤ off → 0 ≤ w ≤ 8 → off + w ≤ 16 → 0 ≤ base < 2 ^ 16 →
  get_field (set_field base v off (Z.ones w)) off (Z.ones w) = Z.land v (Z.ones w).
Proof.
  intros. apply Z.bits_inj'. intros k Hk.
  rewrite get_field_testbit, Z.land_spec, ones_testbit by lia.
  destruct (Z.ltb_spec k w); [|by rewrite andb_false_r]. rewrite andb_true_r. simpl.
  rewrite set_field_testbit by lia. lia_bools. simpl. f_equal. lia.
Qed.

Lemma get_set_other base v off w off' w' :
  0 ≤ off → 0 ≤ w → off + w ≤ 16 → 0 ≤ base < 2 ^ 16 → 0 ≤ off' → 0 ≤ w' ≤ 8 →
  off + w ≤ off' ∨ off' + w' ≤ off →
  get_field (set_field base v off (Z.ones w)) off' (Z.ones w') = get_field base off' (Z.ones w').
Proof.
  intros. apply Z.bits_inj'. intros k Hk. rewrite !get_field_testbit by lia.
  destruct (Z.ltb_spec k w'); [|done]. simpl. rewrite set_field_testbit by lia.
  destruct ((off <=? off' + k) && (off' + k <? off + w)) eqn:E; [bools; lia|done].
Qed.

(** The bit fields of the boot control block are independent: for any
    16-bit word and any field that meets the preconditions written above
    [get_field], setting a field and reading it gives the value cut to the
    field's width, leaves every disjoint field as it was, and stays a 16-bit
    word. *)
Theorem android_bitfield_laws base v off w off' w' :
  0 ≤ off → 0 ≤ w ≤ 8 → off + w ≤ 16 → 0 ≤ base < 2 ^ 16 → 0 ≤ off' → 0 ≤ w' ≤ 8 →
  off + w ≤ off' ∨ off' + w' ≤ off →
  let word := set_field base v off (Z.ones w) in
  get_field word off (Z.ones w) = v mod 2 ^ w ∧
  get_field word off' (Z.ones w') = get_field base off' (Z.ones w') ∧
  0 ≤ word < 2 ^ 16.
Proof.
  intros. subst word. split; [|split; [apply get_set_other; lia|apply set_field_u16; lia]].
  rewrite get_set_same by lia. apply Z.land_ones. lia.
Qed.

Lemma android_bitfield_laws_witness :
  md_tries (md_set_tries 5 0xffff) = 5 ∧ md_priority (md_set_tries 5 0xffff) = 15.
Proof.
  destruct (android_bitfield_laws 0xffff 5 TRIES_OFFSET 3 PRIORITY_OFFSET 4) as (H1 & H2 & _);
    [by vm_compute..|by right; vm_compute|].
  split; [exact H1|exact H2].
Defined.

(** ** The metadata keeps its laws *)

Definition u16_ok (z : Z) : Prop := 0 ≤ z < 2 ^ 16.
Record control_wf (c : BootloaderControl) : Prop := {
  cw_suffix : length (bc_slot_suffix c) = 4%nat ∧ bytes_ok (bc_slot_suffix c);
  cw_magic : bc_magic c = BOOT_CTRL_MAGIC;
  cw_version : 0 ≤ bc_version c ≤ BOOT_CTRL_VERSION;
  cw_bits : u16_ok (bc_control_bits c);
  cw_reserved0 : length (bc_reserved0 c) = 1%nat ∧ bytes_ok (bc_reserved0 c);
  cw_slots : length (bc_slot_metadata c) = 4%nat ∧ Forall u16_ok (bc_slot_metadata c);
  cw_reserved1 : length (bc_reserved1 c) = 8%nat ∧ bytes_ok (bc_reserved1 c);
  cw_crc : u32_ok (bc_crc32 c);
}.

Lemma four_slots c :
  control_wf c → ∃ m1 m2 m3 m4, bc_slot_metadata c = [m1; m2; m3; m4] ∧
    u16_ok m1 ∧ u16_ok m2 ∧ u16_ok m3 ∧ u16_ok m4.
Proof.
  intros Hw. destruct (cw_slots _ Hw) as [Hl HF].
  destruct (bc_slot_metadata c) as [|m1 [|m2 [|m3 [|m4 [|]]]]]; try done.
  rewrite !Forall_cons in HF. destruct HF as (? & ? & ? & ? & _). by exists m1, m2, m3, m4.
Qed.

Lemma le2 m : u16_ok m → ∃ l, le_bytes 2 m = l ∧ length l = 2%nat ∧ le_val l = m.
Proof.
  intros Hm. eexists. split; [done|]. split; [apply length_le_bytes|].
  apply le_val_bytes. unfold u16_ok in Hm. simpl. lia.
Qed.

Lemma control_of_control_bytes c : control_wf c → control_of_bytes (control_bytes c) = Some c.
Proof.
  intros Hw. destruct (four_slots c Hw) as (m1 & m2 & m3 & m4 & E & H1 & H2 & H3 & H4).
  destruct Hw as [[Hs _] Hm _ Hb [Hr0 _] _ [Hr1 _] Hc].
  destruct c as [sx mg v cb r0 md r1 crc]. simpl in *. subst mg md.
  unfold control_bytes, control_head. simpl bc_slot_metadata. cbn [fmap list_fmap mjoin list_join].
  cbn [bc_slot_suffix bc_magic bc_version bc_control_bits bc_reserved0 bc_reserved1 bc_crc32].
  destruct (le2 _ H1) as (l1 & -> & L1 & V1). destruct (le2 _ H2) as (l2 & -> & L2 & V2).
  destruct (le2 _ H3) as (l3 & -> & L3 & V3). destruct (le2 _ H4) as (l4 & -> & L4 & V4).
  destruct (le2 _ Hb) as (l5 & -> & L5 & V5).
  assert (V6 : le_val (le_bytes 4 crc) = crc).
  { apply le_val_bytes. unfold u32_ok in Hc. simpl. lia. }
  pose proof (length_le_bytes 4 crc) as L6. revert V6 L6. generalize (le_bytes 4 crc). intros l6 V6 L6.
  subst m1 m2 m3 m4 cb crc.
  known_length sx. known_length r0. known_length r1. known_length l1. known_length l2.
  known_length l3. known_length l4. known_length l5. known_length l6.
  reflexivity.
Qed.

Lemma length_control_head c : control_wf c → zlen (control_head c) = 28.
Proof.
  intros Hw. destruct (four_slots c Hw) as (m1 & m2 & m3 & m4 & E & _).
  destruct Hw as [[Hs _] _ _ _ [Hr0 _] _ [Hr1 _] _].
  unfold control_head. rewrite E. rewrite !length_app. simpl. lia.
Qed.

Section Laws.
Context {Hasher0 : Hasher}.

Lemma with_crc_wf v c : control_wf c → u32_ok v → control_wf (with_crc v c).
Proof. intros [] ?. by split. Qed.

Lemma control_prepared_wf c : control_wf c → control_wf (control_prepare_for_sync c).
Proof. intros Hw. apply with_crc_wf; [done|apply hash_u32]. Qed.

Lemma control_crc_upd v c : control_wf c → calculate_crc32 (with_crc v c) = calculate_crc32 c.
Proof.
  intros Hw. unfold calculate_crc32, control_bytes. f_equal. pose proof (length_control_head c Hw) as Hl.
  rewrite !slice_app_l; [done|symmetry; exact Hl..].
Qed.

Lemma control_validate_prepared c :
  control_wf c → control_validate (control_bytes (control_prepare_for_sync c)) = Ok (control_prepare_for_sync c).
Proof.
  intros Hw. pose proof (control_prepared_wf c Hw) as Hp. unfold control_validate.
  rewrite control_of_control_bytes by done. cbn [ok_or]. rewrite ok_bind.
  rewrite (cw_magic _ Hp), Z.eqb_refl. cbn [negb].
  rewrite Z.gtb_ltb, (proj2 (Z.ltb_ge _ _)) by apply Hp.
  unfold control_prepare_for_sync at 2. rewrite control_crc_upd by done.
  unfold control_prepare_for_sync at 1. cbn [bc_crc32 with_crc]. by rewrite Z.eqb_refl.
Qed.

Lemma md_default_u16 : u16_ok md_default.
Proof. unfold u16_ok. by vm_compute. Qed.

Lemma control_default_wf : control_wf control_default.
Proof.
  unfold control_default. apply with_crc_wf; [|apply hash_u32].
  pose proof md_default_u16.
  split; cbn; try done; try (split; [done|]); try by_compute.
Qed.

Lemma le_slice_u16 b off : bytes_ok b → 0 ≤ off → off + 2 ≤ zlen b → u16_ok (le_val (slice b off 2)).
Proof.
  intros Hb H0 Hl. pose proof (le_val_bound _ (bytes_ok_slice b off 2 Hb)) as H.
  rewrite zlen_slice in H by lia. exact H.
Qed.

Lemma control_validate_wf b c : bytes_ok b → control_validate b = Ok c → control_wf c.
Proof.
  intros Hb. unfold control_validate, control_of_bytes. destruct (Z.ltb_spec (zlen b) 32); [done|].
  destruct (b !! 8%nat) as [v|] eqn:E8; [|done]. simpl.
  destruct (Z.eqb_spec (le_val (slice b 4 4)) BOOT_CTRL_MAGIC) as [Em|]; [|done]. cbn [negb].
  rewrite Z.gtb_ltb. destruct (Z.ltb_spec BOOT_CTRL_VERSION v); [done|].
  destruct (negb _); [done|]. intros [= <-].
  assert (Hv : u8_ok v).
  { unfold bytes_ok in Hb. rewrite Forall_lookup in Hb. eauto. }
  pose proof (le_val_bound _ (bytes_ok_slice b 28 4 Hb)) as H28. rewrite zlen_slice in H28 by lia.
  unfold u8_ok in Hv.
  split; cbn; try done; try (split; [rewrite length_slice; lia|by apply bytes_ok_slice]).
  - lia.
  - apply le_slice_u16; try done; lia.
  - split; [done|]. rewrite !Forall_cons. split_and!; try done; apply le_slice_u16; try done; lia.
Qed.

#[export] Instance ControlLaws : MetadataLaws BootloaderControl := {|
  mb_wf := control_wf;
  default_wf := control_default_wf;
  validate_wf := control_validate_wf;
  prepare_wf := control_prepared_wf;
  validate_prepared := control_validate_prepared;
|}.
End Laws.

(** ** What the operations do *)

(** The user-visible slot of a metadata word. *)
Definition slot_view (x : Suffix) (m : SlotMetaData) : Slot :=
  mkSlotOf x (md_priority m)
    (if md_successful m then BSuccessful
     else if md_tries m >? 0 then BRetriable (md_tries m) else BUnbootable Unknown).
Fixpoint views (x : Suffix) (ms : list SlotMetaData) : list Slot :=
  match ms with
  | [] => []
  | m :: ms => slot_view x m :: views (x + 1) ms
  end.

Lemma nb_slots_bound c : 0 ≤ nb_slots c ≤ 4.
Proof.
  unfold nb_slots, NB_SLOT_MASK, NB_SLOT_OFFSET, MAX_SLOTS. change 7 with (Z.ones 3).
  rewrite get_field_eq by lia. rewrite Z.land_ones by lia.
  pose proof (Z.mod_pos_bound (Z.shiftr c 0) (2 ^ 3)). lia.
Qed.

Lemma iter_views (b : Block) :
  control_wf (sb_data b) →
  android_slots_iter b =
    views 97 (take (Z.to_nat (nb_slots (bc_control_bits (sb_data b)))) (bc_slot_metadata (sb_data b))).
Proof.
  intros Hw. destruct (four_slots _ Hw) as (m1 & m2 & m3 & m4 & E & _). rewrite E.
  pose proof (nb_slots_bound (bc_control_bits (sb_data b))) as Hn.
  unfold android_slots_iter. cbn [slots_from]. unfold get_slot_by_number, get_data. rewrite E.
  remember (nb_slots (bc_control_bits (sb_data b))) as n.
  assert (n = 0 ∨ n = 1 ∨ n = 2 ∨ n = 3 ∨ n = 4) as [->|[->|[->|[->| ->]]]] by lia; reflexivity.
Qed.

Lemma views_find s x ms j :
  s ∈ views x ms →
  ∃ i m, ms !! i = Some m ∧ s = slot_view (x + Z.of_nat i) m ∧
         find_suffix (suffix s) j (views x ms) = Some (j + Z.of_nat i, s).
Proof.
  revert x j. induction ms as [|m ms IH]; intros x j Hin; [by apply elem_of_nil in Hin|].
  cbn [views] in Hin. apply elem_of_cons in Hin as [->|Hin].
  - exists 0%nat, m. cbn [views find_suffix suffix slot_view].
    rewrite Z.eqb_refl, !Z.add_0_r. done.
  - destruct (IH (x + 1) (j + 1) Hin) as (i & m' & Hi & -> & Hf).
    exists (S i), m'. cbn [views find_suffix]. cbn [suffix slot_view] in *.
    rewrite (proj2 (Z.eqb_neq _ _)) by lia.
    replace (x + Z.of_nat (S i)) with (x + 1 + Z.of_nat i) by lia. rewrite Hf.
    split_and!; try done. do 2 f_equal. lia.
Qed.

Lemma views_find_None x y ms j :
  find_suffix y j (views x ms) = None ↔ ¬ (x ≤ y < x + zlen ms).
Proof.
  revert x j. induction ms as [|m ms IH]; intros x j; cbn [views find_suffix length].
  - split; [lia|done].
  - cbn [suffix slot_view]. destruct (Z.eqb_spec x y) as [->|]; [split; [done|lia]|].
    rewrite IH. lia.
Qed.

(** The word after an attempt. *)
Definition spend_try (m : SlotMetaData) : SlotMetaData :=
  if md_successful m then m else md_set_tries (md_tries m - 1) m.
Definition attempt_slot (b : Block) : option Slot :=
  max_by_key (filter (λ s, is_bootable s = true) (android_slots_iter b)).
Definition after_attempt (b : Block) (ms : list SlotMetaData) : list SlotMetaData :=
  match attempt_slot b with
  | None => ms
  | Some s => alter spend_try (Z.to_nat (suffix s - 97)) ms
  end.

Lemma md_tries_bound m : 0 ≤ md_tries m < 8.
Proof.
  unfold md_tries, TRIES_MASK, TRIES_OFFSET. change 7 with (Z.ones 3).
  rewrite get_field_eq by lia. rewrite Z.land_ones by lia. apply Z.mod_pos_bound. lia.
Qed.

Lemma md_set_tries_u16 t m : u16_ok m → u16_ok (md_set_tries t m).
Proof. intros. apply (set_field_u16 m t 4 3); try lia. done. Qed.
Lemma md_set_priority_u16 t m : u16_ok m → u16_ok (md_set_priority t m).
Proof. intros. apply (set_field_u16 m t 0 4); try lia. done. Qed.
Lemma md_set_successful_u16 t m : u16_ok m → u16_ok (md_set_successful t m).
Proof. intros. apply (set_field_u16 m (Z.b2z t) 7 1); try lia. done. Qed.
Lemma spend_try_u16 m : u16_ok m → u16_ok (spend_try m).
Proof. intros. unfold spend_try. case_if; [done|]. by apply md_set_tries_u16. Qed.

Lemma wf_with_metadata c f :
  control_wf c → length (f (bc_slot_metadata c)) = 4%nat → Forall u16_ok (f (bc_slot_metadata c)) →
  control_wf (with_metadata f c).
Proof. intros [] ? ?. by split. Qed.

Lemma wf_update (b : Block) i m :
  control_wf (sb_data b) → u16_ok m → control_wf (with_metadata <[i := m]> (sb_data b)).
Proof.
  intros Hw Hm. apply wf_with_metadata; [done|..].
  - rewrite length_insert. apply Hw.
  - apply Forall_insert; [apply Hw|done].
Qed.

Lemma update_metadata_run (b : Block) i m f :
  bc_slot_metadata (sb_data b) !! i = Some m →
  ∀ m', f m = Ok m' →
  update_metadata (Z.of_nat i) f b =
    (Ok tt, mkBlock Dirty (boot_token b) (with_metadata <[i := m']> (sb_data b))).
Proof.
  intros Hi m' Hf. unfold update_metadata. rewrite bind_run. cbn [gets]. unfold get_data.
  rewrite Nat2Z.id, Hi. cbn [unwrap]. by rewrite lift_ok_bind, Hf, lift_ok_bind.
Qed.

(** A block with at least one slot. *)
Definition android_wf (c : BootloaderControl) : Prop :=
  control_wf c ∧ 1 ≤ nb_slots (bc_control_bits c).

Lemma iter_nonempty (b : Block) : android_wf (sb_data b) → android_slots_iter b ≠ [].
Proof.
  intros [Hw Hn]. rewrite iter_views by done.
  destruct (four_slots _ Hw) as (m1 & m2 & m3 & m4 & E & _). rewrite E.
  destruct (Z.to_nat _) eqn:En; [lia|]. done.
Qed.

(** A slot of the list is found at its index. *)
Lemma slot_found (b : Block) s :
  control_wf (sb_data b) → s ∈ android_slots_iter b →
  ∃ i m, bc_slot_metadata (sb_data b) !! i = Some m ∧ u16_ok m ∧
    s = slot_view (97 + Z.of_nat i) m ∧
    find_suffix (suffix s) 0 (android_slots_iter b) = Some (Z.of_nat i, s).
Proof.
  intros Hw Hin. rewrite iter_views in * by done.
  destruct (views_find s _ _ 0 Hin) as (i & m & Hi & Hs & Hf).
  apply lookup_take_Some in Hi as [Hi _]. exists i, m. split_and!; try done.
  destruct (cw_slots _ Hw) as [_ HF]. rewrite Forall_lookup in HF. eauto.
Qed.

Lemma last_active_ok (b : Block) :
  android_wf (sb_data b) →
  ∃ s, default_slot_last_set_active (android_slots_iter b) = Ok s ∧ s ∈ android_slots_iter b.
Proof.
  intros Hw. unfold default_slot_last_set_active. destruct (max_by_key _) as [s|] eqn:E.
  - exists s. split; [done|]. apply max_by_key_spec in E as [? _]. done.
  - apply max_by_key_None in E. by apply iter_nonempty in E.
Qed.

Lemma token_run {MB} (b : SlotBlock MB) :
  release_token b =
    (ok_or (boot_token b) OperationProhibited, mkBlock (cache_status b) None (sb_data b)).
Proof. reflexivity. Qed.

Lemma android_attempt_run (b : Block) :
  android_wf (sb_data b) →
  ∃ c, android_mark_boot_attempt b =
    (ok_or (boot_token b) OperationProhibited,
     mkBlock c None (with_metadata (after_attempt b) (sb_data b))) ∧
  android_wf (with_metadata (after_attempt b) (sb_data b)).
Proof.
  intros Hw. pose proof Hw as [Hc Hn]. unfold android_mark_boot_attempt, after_attempt.
  rewrite bind_run. cbn [gets id]. rewrite bind_run. unfold android_get_boot_target.
  destruct (last_active_ok b Hw) as (last & -> & Hlast). rewrite ok_bind. cbn [lift].
  fold (attempt_slot b). pose proof (best_bootable (android_slots_iter b)) as Hbest.
  fold (attempt_slot b) in Hbest. destruct (attempt_slot b) as [t|].
  - destruct Hbest as (Hin & Hbt & _).
    destruct (slot_found b t Hc Hin) as (i & m & Hi & Hm & Ht & ->). cbn [ok_or].
    rewrite lift_ok_bind. rewrite Ht in Hbt |- *. cbn [suffix slot_view bootability].
    replace (Z.to_nat (97 + Z.of_nat i - 97)) with i by lia.
    assert (Hupd : with_metadata (λ ms, alter spend_try i ms) (sb_data b) =
                   with_metadata <[i := spend_try m]> (sb_data b)).
    { unfold with_metadata. by rewrite (alter_insert _ _ _ m). }
    rewrite Hupd. unfold is_bootable in Hbt. cbn [bootability slot_view] in Hbt.
    assert (Hwf : android_wf (with_metadata <[i := spend_try m]> (sb_data b))).
    { split; [|done]. apply wf_update; [done|]. by apply spend_try_u16. }
    unfold spend_try in *. destruct (md_successful m) eqn:Es.
    + exists (cache_status b). split; [|done]. rewrite token_run. do 2 f_equal.
      destruct (sb_data b). unfold with_metadata. simpl in *. by rewrite list_insert_id.
    + rewrite Z.gtb_ltb in *. destruct (Z.ltb_spec 0 (md_tries m)); [|done].
      pose proof (md_tries_bound m). exists Dirty. split; [|done]. rewrite bind_run.
      erewrite update_metadata_run; [|done|rewrite arith_ok by lia; reflexivity]. by rewrite token_run.
  - destruct (slot_found b last Hc Hlast) as (i & m & Hi & Hm & Ht & ->). cbn [ok_or].
    rewrite lift_ok_bind, token_run. exists (cache_status b).
    assert (with_metadata (λ ms, ms) (sb_data b) = sb_data b) as -> by by destruct (sb_data b).
    done.
Qed.

Definition activate (idx : Z) (ms : list SlotMetaData) : list SlotMetaData :=
  imap (λ i s, if Z.of_nat i =? idx then md_default else md_set_priority (DEFAULT_PRIORITY - 1) s) ms.

Lemma android_activate_ok idx ms :
  Forall u16_ok ms → Forall u16_ok (activate idx ms) ∧ length (activate idx ms) = length ms.
Proof.
  intros HF. unfold activate. split; [|apply length_imap]. apply Forall_lookup. intros k s Hk.
  rewrite list_lookup_imap in Hk. apply fmap_Some in Hk as (s0 & E & ->).
  rewrite Forall_lookup in HF. specialize (HF _ _ E).
  case_if; [apply md_default_u16|by apply md_set_priority_u16].
Qed.

Lemma find_cases (b : Block) x :
  control_wf (sb_data b) →
  (find_suffix x 0 (android_slots_iter b) = None ∧
   ¬ (97 ≤ x < 97 + nb_slots (bc_control_bits (sb_data b)))) ∨
  ∃ i m, find_suffix x 0 (android_slots_iter b) = Some (Z.of_nat i, slot_view x m) ∧
         bc_slot_metadata (sb_data b) !! i = Some m ∧ u16_ok m ∧ x = 97 + Z.of_nat i ∧
         97 ≤ x < 97 + nb_slots (bc_control_bits (sb_data b)).
Proof.
  intros Hw. pose proof (nb_slots_bound (bc_control_bits (sb_data b))) as Hnb.
  assert (Hlen : zlen (take (Z.to_nat (nb_slots (bc_control_bits (sb_data b)))) (bc_slot_metadata (sb_data b)))
                 = nb_slots (bc_control_bits (sb_data b))).
  { rewrite length_take. destruct (cw_slots _ Hw) as [-> _]. lia. }
  destruct (find_suffix x 0 (android_slots_iter b)) as [[j s]|] eqn:E.
  - right. assert (Hin : s ∈ android_slots_iter b ∧ suffix s = x).
    { clear -E. revert E. generalize 0. generalize (android_slots_iter b).
      induction l as [|s' l IH]; intros k E; [done|]. simpl in E.
      destruct (Z.eqb_spec (suffix s') x); [simplify_eq; by split; [left|]|].
      apply IH in E as [? ?]. by split; [right|]. }
    destruct Hin as [Hin Hx]. destruct (slot_found b s Hw Hin) as (i & m & Hi & Hm & Hs & Hf).
    rewrite Hx, E in Hf. simplify_eq/=. exists i, m. split_and!; try done; try lia.
    destruct (decide (97 + Z.of_nat i < 97 + nb_slots (bc_control_bits (sb_data b)))) as [|Hno]; [done|].
    exfalso. rewrite iter_views in E by done.
    assert (find_suffix (97 + Z.of_nat i) 0 (views 97 (take (Z.to_nat (nb_slots (bc_control_bits (sb_data b))))
      (bc_slot_metadata (sb_data b)))) = None) by (apply views_find_None; lia). congruence.
  - left. split; [done|]. rewrite iter_views in E by done. apply views_find_None in E. lia.
Qed.

Lemma encode_letter x : 97 ≤ x < 101 → encode_utf8 x = [x].
Proof. intros. assert (x = 97 ∨ x = 98 ∨ x = 99 ∨ x = 100) as [->|[->|[->| ->]]] by lia; done. Qed.

Lemma android_set_active_run (b : Block) x :
  control_wf (sb_data b) →
  let c' := with_suffix (splice (bc_slot_suffix (sb_data b)) 1 [x])
              (with_metadata (activate (x - 97)) (sb_data b)) in
  (97 ≤ x < 97 + nb_slots (bc_control_bits (sb_data b)) →
   android_set_active_slot x b = (Ok tt, mkBlock Dirty (boot_token b) c') ∧ control_wf c') ∧
  (¬ (97 ≤ x < 97 + nb_slots (bc_control_bits (sb_data b))) →
   android_set_active_slot x b = (Err InvalidInput, b)).
Proof.
  intros Hw c'. pose proof (nb_slots_bound (bc_control_bits (sb_data b))) as Hnb.
  unfold android_set_active_slot. rewrite bind_run. cbn [gets id]. rewrite bind_run.
  destruct (find_cases b x Hw) as [[-> Hno]|(i & m & -> & Hi & Hm & Hx & Hin)]; (split; [|]); intros Hc;
    try done.
  destruct (cw_slots _ Hw) as [Hl HF]. destruct (cw_suffix _ Hw) as [Hsl Hsb].
  destruct (android_activate_ok (x - 97) _ HF) as [HF' Hl'].
  assert (Hu : u8_ok x) by (unfold u8_ok; lia). split.
  - cbn [ok_or lift].
    assert (Hir : index_range (E := Error) (bc_slot_suffix (with_metadata (activate (x - 97)) (sb_data b))) 1 4
                  = Ok (slice (bc_slot_suffix (sb_data b)) 1 3)).
    { apply index_range_ok; cbn; rewrite ?Hsl; lia. }
    replace (Z.of_nat i) with (x - 97) by lia. rewrite encode_letter by lia.
    etrans; [apply (bind_run_ok _ _ _ tt); reflexivity|].
    etrans; [eapply bind_run_ok; reflexivity|]. unfold get_data. cbn [sb_data].
    etrans; [eapply bind_run_ok; exact (f_equal (λ r, (r, _)) Hir)|]. reflexivity.
  - pose proof (wf_with_metadata _ (activate (x - 97)) Hw (eq_trans Hl' Hl) HF') as Hw'. clear Hw.
    destruct Hw'. unfold c'. split; cbn; try done.
    assert (Hsp : length (splice (bc_slot_suffix (sb_data b)) 1 [x]) = 4%nat).
    { rewrite length_splice; cbn; rewrite ?Hsl; lia. }
    split; [exact Hsp|]. unfold splice, bytes_ok. rewrite !Forall_app.
    split_and!; [by apply Forall_take|by apply Forall_singleton|by apply Forall_drop].
Qed.

Lemma android_set_unbootable_run (b : Block) x r :
  android_wf (sb_data b) →
  ∃ res b', android_set_slot_unbootable x r b = (res, b') ∧ boot_token b' = boot_token b ∧
            android_wf (sb_data b') ∧ res ≠ Panic.
Proof.
  intros [Hw Hn]. unfold android_set_slot_unbootable. rewrite bind_run. cbn [gets id]. rewrite bind_run.
  destruct (find_cases b x Hw) as [[-> _]|(i & m & -> & Hi & Hm & _)]; cbn [ok_or lift];
    [by eexists _, _|].
  case_bool_decide; [by eexists _, _|].
  erewrite update_metadata_run; [|done|reflexivity]. eexists _, _. split; [reflexivity|].
  split_and!; try done. cbn. split; [|done]. apply wf_update; [done|].
  by apply md_set_successful_u16, md_set_tries_u16.
Qed.

Section AndroidToken.
Context {Hasher0 : Hasher}.

#[export] Instance AndroidTokenLaws : TokenLaws BootloaderControl android_wf.
Proof.
  split.
  - intros b Hw. destruct (android_attempt_run b Hw) as (c & Hr & Hw').
    eexists. split; [exact Hr|]. done.
  - intros b op Hw Hop. destruct op as [|x|x r|o|]; [done|..]; cbn [run_slot_op].
    + cbn [set_active_slot AndroidManager]. rewrite bind_run. destruct Hw as [Hw Hn].
      destruct (android_set_active_run b x Hw) as [H1 H2].
      destruct (decide (97 ≤ x < 97 + nb_slots (bc_control_bits (sb_data b)))) as [Hin|Hno].
      * destruct (H1 Hin) as [-> Hw']. eexists _, _. split; [reflexivity|]. done.
      * rewrite (H2 Hno). eexists _, _. split; [reflexivity|]. done.
    + cbn [set_slot_unbootable AndroidManager]. rewrite bind_run.
      destruct (android_set_unbootable_run b x r Hw) as (res & b' & -> & ? & ? & ?).
      destruct res; eexists _, _; (split; [reflexivity|]); done.
    + eexists _, _. split; [reflexivity|]. done.
    + eexists _, _. split; [reflexivity|]. done.
Qed.

(** On a control block with at least one slot the Android manager, too,
    releases the boot token exactly at the first boot attempt and refuses every
    later one, whatever else is done in between. *)
Theorem android_boot_token_once (b : Block) t ops :
  android_wf (sb_data b) → boot_token b = Some t →
  let rs := attempts ops (run_slot_ops ops b) in
  rs = match rs with
       | [] => []
       | _ :: rest => Ok (Some t) :: replicate (length rest) (Err OperationProhibited)
       end.
Proof.
  intros Hw Ht. cbv zeta. pose proof (attempts_run android_wf ops b Hw) as H.
  rewrite Ht in H. exact H.
Qed.
End AndroidToken.

Lemma android_boot_token_once_witness :
  let b := @sb_deserialize _ (@ControlMetadata StandardHasher) (replicate 32 0) Token in
  let ops := [OpSetUnbootable 97 Unknown; OpMarkBootAttempt; OpSetActive 99; OpMarkBootAttempt] in
  attempts ops (run_slot_ops (Manager0 := @AndroidManager StandardHasher) ops b) =
  [Ok (Some Token); Err OperationProhibited].
Proof.
  intros b ops. pose proof (@android_boot_token_once StandardHasher b Token ops) as H.
  cbv zeta in H. rewrite H; [by vm_compute| |by vm_compute].
  split; [apply (@control_default_wf StandardHasher)|by vm_compute].
Defined.
