(* ===== verification/GptData.v ===== *)
(** * libstorage: GPT headers, entries and their validation

    Models the first part of src/gbl/libstorage/src/gpt.rs: the packed GPT
    structures and their bytes, the validation of a header against a device and
    of entries against a header, the decoding of partition names, and
    [Partition]. A [&str] is its list of characters where it is an argument, its
    UTF-8 bytes where it is a result. *)

From stdpp Require Import sorting.
From S2P Require Import Prelude SafeMath LibError Text Crc Block.
Import SafeNum.

(** [slice::sort_unstable_by_key]: the standard library promises an ascending
    permutation, and leaves the order of elements with equal keys open. *)
Class UnstableSort := {
  sort_unstable_by_key : ∀ {A : Type}, (A → Z) → list A → list A;
  sort_perm : ∀ {A} (key : A → Z) (l : list A), sort_unstable_by_key key l ≡ₚ l;
  sort_sorted : ∀ {A} (key : A → Z) (l : list A),
    StronglySorted (λ x y, key x ≤ key y) (sort_unstable_by_key key l);
}.

(** Merge sort is such a sort. *)
Definition key_le {A} (key : A → Z) (x y : A) : Prop := key x ≤ key y.
#[global] Instance key_le_dec {A} (key : A → Z) x y : Decision (key_le key x y).
Proof. unfold key_le. apply _. Defined.
Program Definition MergeSort : UnstableSort := {|
  sort_unstable_by_key := λ A key, merge_sort (key_le key);
|}.
Next Obligation. intros. apply merge_sort_Permutation. Qed.
Next Obligation.
  intros A key l.
  assert (Transitive (key_le key)) by (intros x y z; unfold key_le; lia).
  assert (Total (key_le key)) by (intros x y; unfold key_le; lia).
  apply (StronglySorted_merge_sort (key_le key)).
Qed.

(** ** Structures *)

(** gbl/libstorage/src/gpt.rs:35-36, [GPT_GUID_LEN]. *)
Definition GPT_GUID_LEN : Z := 16.
(** gbl/libstorage/src/gpt.rs:37-38, [GPT_NAME_LEN_U16]. *)
Definition GPT_NAME_LEN_U16 : Z := 36.
(** gbl/libstorage/src/gpt.rs:39-39, [GPT_NAME_LEN_U8]. *)
Definition GPT_NAME_LEN_U8 : Z := 2 * GPT_GUID_LEN.
(** gbl/libstorage/src/gpt.rs:335-337, [GPT_CRC32_OFFSET]. *)
Definition GPT_CRC32_OFFSET : Z := 16.
(** gbl/libstorage/src/gpt.rs:338-338, [GPT_ENTRY_SIZE]. *)
Definition GPT_ENTRY_SIZE : Z := 128.
(** gbl/libstorage/src/gpt.rs:339-339, [GPT_MAX_NUM_ENTRIES]. *)
Definition GPT_MAX_NUM_ENTRIES : Z := 128.
(** gbl/libstorage/src/gpt.rs:340-340, [GPT_MAX_NUM_ENTRIES_SIZE]. *)
Definition GPT_MAX_NUM_ENTRIES_SIZE : Z := GPT_MAX_NUM_ENTRIES * GPT_ENTRY_SIZE.
(** gbl/libstorage/src/gpt.rs:341-342, [GPT_MAGIC]. *)
Definition GPT_MAGIC : Z := 0x5452415020494645.
(** [size_of::<GptHeader>()]. *)
Definition GPT_HEADER_SIZE : Z := 92.

(** gbl/libstorage/src/gpt.rs:46-75, [GptHeader]. *)
Record GptHeader := mkHeader {
  h_magic : Z;
  h_revision : Z;
  h_size : Z;
  h_crc32 : Z;
  h_reserved0 : Z;
  h_current : Z;
  h_backup : Z;
  h_first : Z;
  h_last : Z;
  h_guid : bytes;
  h_entries : Z;
  h_entries_count : Z;
  h_entries_size : Z;
  h_entries_crc : Z;
}.
#[global] Instance GptHeader_eq_dec : EqDecision GptHeader.
Proof. solve_decision. Defined.

(** gbl/libstorage/src/gpt.rs:267-283, [GptEntry]. *)
Record GptEntry := mkEntry {
  e_part_type : bytes;
  e_guid : bytes;
  e_first : Z;
  e_last : Z;
  e_flags : Z;
  e_name : list Z;
}.
#[global] Instance GptEntry_eq_dec : EqDecision GptEntry.
Proof. solve_decision. Defined.

(** [as_bytes] of the packed structures, on a little-endian machine, and the
    structures at the start of a buffer. *)
Definition header_bytes (h : GptHeader) : bytes :=
  le_bytes 8 (h_magic h) ++ le_bytes 4 (h_revision h) ++ le_bytes 4 (h_size h)
  ++ le_bytes 4 (h_crc32 h) ++ le_bytes 4 (h_reserved0 h) ++ le_bytes 8 (h_current h)
  ++ le_bytes 8 (h_backup h) ++ le_bytes 8 (h_first h) ++ le_bytes 8 (h_last h) ++ h_guid h
  ++ le_bytes 8 (h_entries h) ++ le_bytes 4 (h_entries_count h)
  ++ le_bytes 4 (h_entries_size h) ++ le_bytes 4 (h_entries_crc h).
Definition header_of_bytes (b : bytes) : GptHeader :=
  let int off n := le_val (slice b off n) in
  mkHeader (int 0 8) (int 8 4) (int 12 4) (int 16 4) (int 20 4) (int 24 8) (int 32 8) (int 40 8)
    (int 48 8) (slice b 56 16) (int 72 8) (int 80 4) (int 84 4) (int 88 4).

Definition entry_bytes (e : GptEntry) : bytes :=
  e_part_type e ++ e_guid e ++ le_bytes 8 (e_first e) ++ le_bytes 8 (e_last e)
  ++ le_bytes 8 (e_flags e) ++ mjoin (le_bytes 2 <$> e_name e).
(** The 16-bit units of the bytes of a name. *)
Fixpoint u16_units (b : bytes) : list Z :=
  match b with
  | b0 :: b1 :: b => b0 + 256 * b1 :: u16_units b
  | _ => []
  end.
Definition entry_of_bytes (b : bytes) : GptEntry :=
  mkEntry (slice b 0 16) (slice b 16 16) (le_val (slice b 32 8)) (le_val (slice b 40 8))
    (le_val (slice b 48 8)) (u16_units (slice b 56 72)).

(** Arrays of entries. *)
Definition entries_bytes (l : list GptEntry) : bytes := mjoin (entry_bytes <$> l).
Fixpoint entries_of (n : nat) (b : bytes) : list GptEntry :=
  match n with
  | O => []
  | S n => entry_of_bytes (take 128 b) :: entries_of n (drop 128 b)
  end.
(** [Ref::<_, [GptEntry]>::new_slice]. *)
Definition new_slice (b : bytes) : option (list GptEntry) :=
  if zlen b mod GPT_ENTRY_SIZE =? 0 then Some (entries_of (Z.to_nat (zlen b / GPT_ENTRY_SIZE)) b)
  else None.

(** Assignments to fields of a header. *)
Definition h_set_crc32 v h := mkHeader (h_magic h) (h_revision h) (h_size h) v (h_reserved0 h)
  (h_current h) (h_backup h) (h_first h) (h_last h) (h_guid h) (h_entries h) (h_entries_count h)
  (h_entries_size h) (h_entries_crc h).
Definition h_set_current v h := mkHeader (h_magic h) (h_revision h) (h_size h) (h_crc32 h)
  (h_reserved0 h) v (h_backup h) (h_first h) (h_last h) (h_guid h) (h_entries h)
  (h_entries_count h) (h_entries_size h) (h_entries_crc h).
Definition h_set_backup v h := mkHeader (h_magic h) (h_revision h) (h_size h) (h_crc32 h)
  (h_reserved0 h) (h_current h) v (h_first h) (h_last h) (h_guid h) (h_entries h)
  (h_entries_count h) (h_entries_size h) (h_entries_crc h).
Definition h_set_last v h := mkHeader (h_magic h) (h_revision h) (h_size h) (h_crc32 h)
  (h_reserved0 h) (h_current h) (h_backup h) (h_first h) v (h_guid h) (h_entries h)
  (h_entries_count h) (h_entries_size h) (h_entries_crc h).
Definition h_set_entries v h := mkHeader (h_magic h) (h_revision h) (h_size h) (h_crc32 h)
  (h_reserved0 h) (h_current h) (h_backup h) (h_first h) (h_last h) (h_guid h) v
  (h_entries_count h) (h_entries_size h) (h_entries_crc h).
Definition h_set_entries_count v h := mkHeader (h_magic h) (h_revision h) (h_size h) (h_crc32 h)
  (h_reserved0 h) (h_current h) (h_backup h) (h_first h) (h_last h) (h_guid h) (h_entries h)
  v (h_entries_size h) (h_entries_crc h).
Definition h_set_entries_crc v h := mkHeader (h_magic h) (h_revision h) (h_size h) (h_crc32 h)
  (h_reserved0 h) (h_current h) (h_backup h) (h_first h) (h_last h) (h_guid h) (h_entries h)
  (h_entries_count h) (h_entries_size h) v.
Definition e_set_last v e :=
  mkEntry (e_part_type e) (e_guid e) (e_first e) v (e_flags e) (e_name e).

Section Crc.
Context `{!Hasher}.

(** gbl/libstorage/src/gpt.rs:1114-1119, [crc32]. *)
Definition crc32 (data : bytes) : Z := hash data.

(** gbl/libstorage/src/gpt.rs:83-90, [GptHeader::calculate_header_crc]. *)
Definition calculate_header_crc (h : GptHeader) : Z :=
  hash (slice (header_bytes h) 0 GPT_CRC32_OFFSET ++ replicate 4 0
        ++ drop (Z.to_nat (GPT_CRC32_OFFSET + 4)) (header_bytes h)).

(** gbl/libstorage/src/gpt.rs:92-95, [GptHeader::update_crc]. *)
Definition update_crc (h : GptHeader) : GptHeader := h_set_crc32 (calculate_header_crc h) h.

(** gbl/libstorage/src/gpt.rs:97-102, [GptHeader::update_entries_crc]. *)
Definition update_entries_crc (entries : bytes) (h : GptHeader) : result GptHeader :=
  size ← unwrap_res (into_u64 (Val (h_entries_count h) *! Val (h_entries_size h)));
  data ← index_range entries 0 size;
  Ok (update_crc (h_set_entries_crc (crc32 data) h)).
End Crc.

(** gbl/libstorage/src/gpt.rs:78-81, [GptHeader::from_bytes_mut]. *)
Definition from_bytes_mut (b : bytes) : result GptHeader :=
  if zlen b <? GPT_HEADER_SIZE then Panic else Ok (header_of_bytes b).

(** gbl/libstorage/src/gpt.rs:105-112, [gpt_entries_blk]. *)
Definition gpt_entries_blk (block_size : Z) : result Z :=
  if block_size =? 0 then Panic
  else if GPT_MAX_NUM_ENTRIES_SIZE mod block_size =? 0
  then Ok (GPT_MAX_NUM_ENTRIES_SIZE / block_size) else Err InvalidInput.

(** gbl/libstorage/src/gpt.rs:286-291, [GptEntry::blocks]. *)
Definition blocks (e : GptEntry) : result Z :=
  into_u64 (Val (e_last e) +! Val 1 -! Val (e_first e)).
(** gbl/libstorage/src/gpt.rs:293-297, [GptEntry::is_null]. *)
Definition is_null (e : GptEntry) : bool := (e_first e =? 0) && (e_last e =? 0).

(** The entries before the first null entry. *)
Fixpoint active (l : list GptEntry) : list GptEntry :=
  match l with
  | [] => []
  | e :: l => if is_null e then [] else e :: active l
  end.

(** ** Validation *)

Section Check.
Context `{!Hasher} `{!UnstableSort}.

(** gbl/libstorage/src/gpt.rs:114-202, [check_header]. *)
Definition check_header (i : BlockInfo) (h : GptHeader) (is_primary : bool) : result unit :=
  let num_blks := Val (num_blocks i) in
  min_reserved ← gpt_entries_blk (block_size i);
  a ← arith 64 (min_reserved + 1);
  a ← arith 64 (a * 2);
  min_disk_blks ← arith 64 (a + 1);
  nb ← unwrap_res (into_u64 num_blks);
  if min_disk_blks >? nb then Err (GptError DiskTooSmall)
  else if negb (h_magic h =? GPT_MAGIC) then Err (GptError (IncorrectMagic (h_magic h)))
  else if negb (calculate_header_crc h =? h_crc32 h) then Err (GptError IncorrectHeaderCrc)
  else if negb (h_size h =? GPT_HEADER_SIZE)
  then Err (GptError (UnexpectedHeaderSize (h_size h) GPT_HEADER_SIZE))
  else if negb (h_entries_size h =? GPT_ENTRY_SIZE)
  then Err (GptError (UnexpectedEntrySize (h_entries_size h) GPT_ENTRY_SIZE))
  else
    min_first ← arith 64 (min_reserved + 2);
    max_last ← unwrap_res (into_u64 (num_blks -! Val 1 -! Val min_reserved -! Val 1));
    last1 ← arith 64 (h_last h + 1);
    if (h_first h >? last1) || (h_first h <? min_first) || (h_last h >? max_last)
    then Err (GptError (InvalidFirstLastUsableBlock (h_first h) (h_last h) (min_first, max_last)))
    else
      (if is_primary then
         right ← unwrap_res (into_u64 (Val (h_first h) -! Val min_reserved));
         if negb ((h_entries h >=? 2) && (h_entries h <=? right))
         then Err (GptError (InvalidPrimaryEntriesStart (h_entries h) (2, right)))
         else Ok tt
       else
         end_ ← arith 64 (max_last + 1);
         if negb ((h_entries h >? h_last h) && (h_entries h <=? end_))
         then Err (GptError (InvalidSecondaryEntriesStart (h_entries h) (last1, end_)))
         else Ok tt);;
      if h_entries_count h >? GPT_MAX_NUM_ENTRIES
      then Err (GptError (NumberOfEntriesOverflow (h_entries_count h) GPT_MAX_NUM_ENTRIES))
      else Ok tt.

(** gbl/libstorage/src/gpt.rs:204-265, [check_entries]: the checks of the single entries, the
    next one being number [idx] (from 1). *)
Fixpoint check_each (h : GptHeader) (idx : Z) (l : list GptEntry) : result unit :=
  match l with
  | [] => Ok tt
  | e :: l =>
      last1 ← arith 64 (e_last e + 1);
      if (e_first e >? last1) || (e_last e >? h_last h) || (e_first e <? h_first h)
      then Err (GptError (InvalidPartitionRange idx (e_first e, e_last e) (h_first h, h_last h)))
      else if bool_decide (e_part_type e = replicate 16 0)
      then Err (GptError (ZeroPartitionTypeGUID idx))
      else if bool_decide (e_guid e = replicate 16 0)
      then Err (GptError (ZeroPartitionUniqueGUID idx))
      else check_each h (idx + 1) l
  end.

(** gbl/libstorage/src/gpt.rs:204-265, [check_entries]: the index array and its keys. *)
Definition index_key (entries : list GptEntry) (v : Z) : Z :=
  match entries !! Z.to_nat v with
  | Some e => if is_null e then 2 ^ 64 - 1 else e_first e
  | None => 2 ^ 64 - 1
  end.
(** gbl/libstorage/src/gpt.rs:204-265, [check_entries]: the sorted index array. *)
Definition sorted_indices (entries : list GptEntry) : list Z :=
  sort_unstable_by_key (index_key entries) (Z.of_nat <$> seq 0 128).

(** gbl/libstorage/src/gpt.rs:204-265, [check_entries]: the comparison of neighbours in the first
    [n + 1] places of the index array. *)
Fixpoint check_overlap (entries : list GptEntry) (n : nat) (idx : list Z) : result unit :=
  match n with
  | O => Ok tt
  | S n =>
      prev ← unwrap (head idx);
      next ← unwrap (head (tail idx));
      p ← unwrap (entries !! Z.to_nat prev);
      q ← unwrap (entries !! Z.to_nat next);
      if e_last p >=? e_first q
      then Err (GptError (PartitionRangeOverlap (prev + 1, e_first p, e_last p)
                                                (next + 1, e_first q, e_last q)))
      else check_overlap entries n (tail idx)
  end.

(** gbl/libstorage/src/gpt.rs:204-265, [check_entries]. *)
Definition check_entries (h : GptHeader) (entries : bytes) : result unit :=
  assert_that (h_entries_count h <=? GPT_MAX_NUM_ENTRIES);;
  entries_size ← unwrap_res (into_u64 (Val (h_entries_count h) *! Val GPT_ENTRY_SIZE));
  entries ← ok_or (get_range entries 0 entries_size) (GptError EntriesTruncated);
  if negb (h_entries_crc h =? crc32 entries) then Err (GptError IncorrectEntriesCrc) else
  entries ← ok_or (new_slice entries) (GptError EntriesTruncated);
  entries ← index_range entries 0 (h_entries_count h);
  check_each h 1 (active entries);;
  check_overlap entries (length (active entries) - 1) (sorted_indices entries).
End Check.

(** ** Names *)

(** gbl/libstorage/src/gpt.rs:299-316, [GptEntry::name_to_str]: the bytes written, with [n] bytes of
    the buffer left. *)
Fixpoint name_bytes (n : Z) (l : list (option Z)) : result bytes :=
  match l with
  | [] => Ok []
  | o :: l =>
      let c := default REPLACEMENT_CHARACTER o in
      if c =? 0 then Ok []
      else if len_utf8 c <=? n then
        rest ← name_bytes (n - len_utf8 c) l;
        Ok (encode_utf8 c ++ rest)
      else Err InvalidInput
  end.
(** gbl/libstorage/src/gpt.rs:299-316, [GptEntry::name_to_str]: into a buffer of [n] bytes. *)
Definition name_to_str (n : Z) (e : GptEntry) : result bytes :=
  name_bytes n (decode_utf16 (e_name e)).

(** gbl/libstorage/src/gpt.rs:318-321, [GptEntry::match_name]. *)
Definition match_name (part : list Z) (e : GptEntry) : result bool :=
  s ← name_to_str (GPT_NAME_LEN_U16 * 2) e;
  Ok (bool_decide (s = utf8_bytes part)).

(** ** Partitions *)

(** gbl/libstorage/src/gpt.rs:349-355, [Partition]. *)
Record Partition := mkPartition {
  p_entry : GptEntry;
  p_block_size : Z;
  p_decoded_name : option (bytes * Z);
}.

(** gbl/libstorage/src/gpt.rs:358-366, [Partition::new]. *)
Definition partition_new (e : GptEntry) (block_size : Z) : Partition :=
  mkPartition e block_size
    match name_to_str GPT_NAME_LEN_U8 e with
    | Ok s => Some (s ++ replicate (Z.to_nat (GPT_NAME_LEN_U8 - zlen s)) 0, zlen s)
    | _ => None
    end.

(** gbl/libstorage/src/gpt.rs:368-372, [Partition::name]: its characters. *)
Definition partition_name (p : Partition) : result (option (list Z)) :=
  match p_decoded_name p with
  | None => Ok None
  | Some (buf, sz) =>
      s ← index_range buf 0 sz;
      cs ← unwrap (decode_utf8 s);
      Ok (Some cs)
  end.

(** gbl/libstorage/src/gpt.rs:374-377, [Partition::size]. *)
Definition partition_size (p : Partition) : result Z :=
  b ← blocks (p_entry p);
  into_u64 (Val b *! Val (p_block_size p)).

(** gbl/libstorage/src/gpt.rs:389-394, [Partition::absolute_range]. *)
Definition absolute_range (p : Partition) : result (Z * Z) :=
  let start := Val (e_first (p_entry p)) *! Val (p_block_size p) in
  let end_ := (Val (e_last (p_entry p)) +! Val 1) *! Val (p_block_size p) in
  start ← into_u64 start;
  end_ ← into_u64 end_;
  Ok (start, end_).

(** gbl/libstorage/src/gpt.rs:396-404, [Partition::check_range]. *)
Definition partition_check_range (p : Partition) (off size : Z) : result Z :=
  end_ ← into_u64 (Val off +! Val size);
  sz ← partition_size p;
  if end_ >? sz then Err (BadIndex end_) else
  '(start, _) ← absolute_range p;
  into_u64 (Val off +! Val start).
