(* ===== verification/Gpt.v ===== *)
(** * libstorage: loading, syncing, updating and building a GPT

    Models the second part of src/gbl/libstorage/src/gpt.rs and the GPT methods
    of [Disk] in src/gbl/libstorage/src/lib.rs. The [Gpt] of the code is a byte
    buffer that is accessed through references to the packed structures it is
    made of ([LoadBufferRef]); here it is kept as those structures, with the
    address and the length of the buffer. A transfer between disk and buffer
    goes through the bytes of the structures. *)

From S2P Require Import Prelude SafeMath LibError Text Crc Block Disk GptData.
Import SafeNum.

(** gbl/libstorage/src/gpt.rs:344-347, [HeaderType]. *)
Inductive HeaderType := Primary | Secondary.

(** gbl/libstorage/src/gpt.rs:407-412, [PartitionIterator]. *)
Record PartitionIterator := mkIter {
  it_entries : list GptEntry;
  it_block_size : Z;
  it_idx : Z;
}.

(** gbl/libstorage/src/gpt.rs:417-425, [Iterator::next for PartitionIterator<'_>]. *)
Definition iter_next (it : PartitionIterator) : option (Partition * PartitionIterator) :=
  e ← it_entries it !! Z.to_nat (it_idx it);
  if is_null e then None else
  Some (partition_new e (it_block_size it),
        mkIter (it_entries it) (it_block_size it) (it_idx it + 1)).

(** gbl/libstorage/src/gpt.rs:428-445, [GptSyncResult]. *)
Inductive GptSyncResult :=
| BothValid
| PrimaryRestored (e : Error)
| SecondaryRestored (e : Error)
| NoValidGpt (primary secondary : Error).

(** gbl/libstorage/src/gpt.rs:448-454, [GptSyncResult::res]. *)
Definition res (r : GptSyncResult) : result unit :=
  match r with NoValidGpt e _ => Err e | _ => Ok tt end.

(** ** The load buffer *)

(** [size_of::<GptLoadBufferN<0>>()]: the block size and two headers. *)
Definition LOAD_BUFFER_0 : Z := 8 + GPT_HEADER_SIZE + GPT_HEADER_SIZE.

(** gbl/libstorage/src/gpt.rs:534-546, [gpt_buffer_size]. *)
Definition gpt_buffer_size (entries : Z) : result Z :=
  if entries >? GPT_MAX_NUM_ENTRIES then Err InvalidInput
  else arith 64 (LOAD_BUFFER_0 + entries * GPT_ENTRY_SIZE * 2).

(** gbl/libstorage/src/gpt.rs:548-554, [max_supported_entries]: of a buffer of [len] bytes. *)
Definition max_supported_entries (len : Z) : result Z :=
  if len <? LOAD_BUFFER_0 then Err (BufferTooSmall (Some LOAD_BUFFER_0))
  else Ok ((len - LOAD_BUFFER_0) / 2 / GPT_ENTRY_SIZE).

(** gbl/libstorage/src/gpt.rs:503-515, [LoadBufferRef]: the block size is
    [None] where the buffer holds a zero. *)
Record LoadBuffer := mkLoad {
  lb_block_size : option Z;
  lb_primary_header : GptHeader;
  lb_secondary_header : GptHeader;
  lb_primary_entries : list GptEntry;
  lb_secondary_entries : list GptEntry;
}.

(** gbl/libstorage/src/gpt.rs:518-526, [LoadBufferRef::from]. *)
Definition load_buffer_from (buffer : bytes) : result LoadBuffer :=
  m ← unwrap_res (max_supported_entries (zlen buffer));
  let n := Z.min GPT_MAX_NUM_ENTRIES m in
  bs ← index_range buffer 0 8;
  h1 ← index_range buffer 8 100;
  h2 ← index_range buffer 100 192;
  e1 ← index_range buffer 192 (192 + n * 128);
  e2 ← index_range buffer (192 + n * 128) (192 + 2 * (n * 128));
  Ok (mkLoad (if le_val bs =? 0 then None else Some (le_val bs)) (header_of_bytes h1)
        (header_of_bytes h2) (entries_of (Z.to_nat n) e1) (entries_of (Z.to_nat n) e2)).

(** gbl/libstorage/src/gpt.rs:528-531, [LoadBufferRef::secondary]. *)
Definition secondary (l : LoadBuffer) : GptHeader * list GptEntry :=
  (lb_secondary_header l, lb_secondary_entries l).

(** gbl/libstorage/src/gpt.rs:556-559, [Gpt]: the parts of the buffer, its address and length. *)
Record Gpt := mkGpt {
  gpt_addr : Z;
  gpt_len : Z;
  gpt_load : LoadBuffer;
}.

(** Assignments through the references. *)
Definition set_block_size (v : option Z) (g : Gpt) : Gpt :=
  let l := gpt_load g in
  mkGpt (gpt_addr g) (gpt_len g) (mkLoad v (lb_primary_header l) (lb_secondary_header l)
    (lb_primary_entries l) (lb_secondary_entries l)).
Definition hdr (t : HeaderType) (g : Gpt) : GptHeader :=
  match t with
  | Primary => lb_primary_header (gpt_load g)
  | Secondary => lb_secondary_header (gpt_load g)
  end.
Definition entries_ref (t : HeaderType) (g : Gpt) : list GptEntry :=
  match t with
  | Primary => lb_primary_entries (gpt_load g)
  | Secondary => lb_secondary_entries (gpt_load g)
  end.
Definition set_hdr (t : HeaderType) (h : GptHeader) (g : Gpt) : Gpt :=
  let l := gpt_load g in
  mkGpt (gpt_addr g) (gpt_len g)
    match t with
    | Primary => mkLoad (lb_block_size l) h (lb_secondary_header l) (lb_primary_entries l)
                   (lb_secondary_entries l)
    | Secondary => mkLoad (lb_block_size l) (lb_primary_header l) h (lb_primary_entries l)
                     (lb_secondary_entries l)
    end.
Definition set_entries_ref (t : HeaderType) (es : list GptEntry) (g : Gpt) : Gpt :=
  let l := gpt_load g in
  mkGpt (gpt_addr g) (gpt_len g)
    match t with
    | Primary => mkLoad (lb_block_size l) (lb_primary_header l) (lb_secondary_header l) es
                   (lb_secondary_entries l)
    | Secondary => mkLoad (lb_block_size l) (lb_primary_header l) (lb_secondary_header l)
                     (lb_primary_entries l) es
    end.
(** The addresses of the structures in the buffer. *)
Definition hdr_addr (t : HeaderType) (g : Gpt) : Z :=
  gpt_addr g + match t with Primary => 8 | Secondary => 100 end.
Definition entries_addr (t : HeaderType) (g : Gpt) : Z :=
  gpt_addr g + 192 + match t with
                     | Primary => 0
                     | Secondary => zlen (lb_primary_entries (gpt_load g)) * 128
                     end.

(** ** Queries *)

(** gbl/libstorage/src/gpt.rs:562-588, [Gpt::new]: of a buffer at [addr]. *)
Definition gpt_new (addr : Z) (buffer : bytes) : result Gpt :=
  max_supported_entries (zlen buffer);;
  l ← load_buffer_from buffer;
  Ok (set_block_size None (mkGpt addr (zlen buffer) l)).

(** gbl/libstorage/src/gpt.rs:788-791, [new_gpt_n]. *)
Definition new_gpt_n (n addr : Z) : result Gpt :=
  unwrap_res (gpt_new addr (replicate (Z.to_nat (LOAD_BUFFER_0 + n * GPT_ENTRY_SIZE * 2)) 0)).

(** gbl/libstorage/src/gpt.rs:799-802, [new_gpt_max]. *)
Definition new_gpt_max (addr : Z) : result Gpt := new_gpt_n GPT_MAX_NUM_ENTRIES addr.

(** gbl/libstorage/src/gpt.rs:590-593, [Gpt::max_entries]. *)
Definition max_entries (g : Gpt) : result Z := unwrap_res (max_supported_entries (gpt_len g)).

(** gbl/libstorage/src/gpt.rs:654-657, [Gpt::check_valid]. *)
Definition check_valid (g : Gpt) : result Z := ok_or (lb_block_size (gpt_load g)) InvalidState.

(** gbl/libstorage/src/gpt.rs:600-607, [Gpt::partition_iter]. *)
Definition partition_iter (g : Gpt) : result PartitionIterator :=
  block_size ← check_valid g;
  Ok (mkIter (entries_ref Primary g) block_size 0).

(** gbl/libstorage/src/gpt.rs:615-623, [Gpt::entries]. *)
Definition gpt_entries (g : Gpt) : result (list GptEntry) :=
  check_valid g;;
  Ok (active (entries_ref Primary g)).

(** gbl/libstorage/src/gpt.rs:625-628, [Gpt::num_partitions]. *)
Definition num_partitions (g : Gpt) : result Z :=
  es ← gpt_entries g;
  Ok (zlen es).

(** gbl/libstorage/src/gpt.rs:630-635, [Gpt::get_partition]. *)
Definition get_partition (g : Gpt) (idx : Z) : result Partition :=
  block_size ← check_valid g;
  es ← gpt_entries g;
  e ← ok_or (es !! Z.to_nat idx) (BadIndex idx);
  Ok (partition_new e block_size).

(** gbl/libstorage/src/gpt.rs:637-652, [Gpt::find_partition]: the loop over the entries. *)
Fixpoint find_entry (part : list Z) (block_size : Z) (l : list GptEntry) : result Partition :=
  match l with
  | [] => Err NotFound
  | e :: l =>
      s ← name_to_str (GPT_NAME_LEN_U16 * 2) e;
      if bool_decide (s = utf8_bytes part) then Ok (partition_new e block_size)
      else find_entry part block_size l
  end.
(** gbl/libstorage/src/gpt.rs:637-652, [Gpt::find_partition]. *)
Definition find_partition (g : Gpt) (part : list Z) : result Partition :=
  block_size ← check_valid g;
  es ← gpt_entries g;
  find_entry part block_size es.

(** gbl/libstorage/src/gpt.rs:609-613, [Gpt::check_range]. *)
Definition gpt_check_range (g : Gpt) (part : list Z) (offset size : Z) : result Z :=
  p ← find_partition g part;
  size ← try_int 64 size;
  partition_check_range p offset size.

(** gbl/libstorage/src/gpt.rs:772-780, [is_consistent]. *)
Definition is_consistent (primary secondary : GptHeader) : bool :=
  bool_decide (h_set_entries (h_entries secondary) (h_set_backup 1 (h_set_current (h_current secondary)
    (h_set_crc32 (h_crc32 secondary) primary))) = secondary).

(** gbl/libstorage/src/gpt.rs:894-898, [min_required_blocks]. *)
Definition min_required_blocks (block_size : Z) : result Z :=
  b ← gpt_entries_blk block_size;
  a ← arith 64 (1 + b);
  a ← arith 64 (a * 2);
  arith 64 (1 + a).

(** ** Syncing *)

Section Sync.
Context {D : Type} `{!BlockIo D} `{!Hasher} `{!UnstableSort}.
Abbreviation M := (ST (Gpt * Disk D) Error).

(** A transfer between the disk and a part of the buffer. *)
Definition on_part {A} (get : Gpt → bytes) (put : bytes → Gpt → Gpt)
    (m : ST (Disk D * bytes) Error A) : M A :=
  zoom (λ s, (snd s, get (fst s))) (λ t s, (put (snd t) (fst s), fst t)) m.
Definition on_hdr {A} (t : HeaderType) : ST (Disk D * bytes) Error A → M A :=
  on_part (λ g, header_bytes (hdr t g)) (λ b, set_hdr t (header_of_bytes b)).
(** On the first [n] bytes of the entries. *)
Definition on_entries {A} (t : HeaderType) (n : Z) : ST (Disk D * bytes) Error A → M A :=
  on_part (λ g, slice (entries_bytes (entries_ref t g)) 0 n)
    (λ b g, set_entries_ref t (entries_of (length (entries_ref t g))
                                 (splice (entries_bytes (entries_ref t g)) 0 b)) g).
Definition all_entries {A} (t : HeaderType) (m : ST (Disk D * bytes) Error A) : M A :=
  n ← gets (λ s, zlen (entries_bytes (entries_ref t (fst s))));
  on_entries t n m.

(** gbl/libstorage/src/gpt.rs:659-691, [Gpt::load_and_validate_gpt]. *)
Definition load_and_validate_gpt (t : HeaderType) : M unit :=
  '(g, k) ← gets id;
  let i := disk_block_info k in
  let blk_sz := block_size i in
  header_start ← lift match t with
                      | Primary => Ok blk_sz
                      | Secondary => into_u64 ((Val (num_blocks i) -! Val 1) *! Val blk_sz)
                      end;
  on_hdr t (disk_read (hdr_addr t g) header_start);;
  '(g, k) ← gets id;
  let header := hdr t g in
  lift (check_header (disk_block_info k) header match t with Primary => true | _ => false end);;
  entries_size ← lift (unwrap_res (into_u64 (Val (h_entries_count header) *! Val GPT_ENTRY_SIZE)));
  needed ← lift (unwrap_res (gpt_buffer_size (h_entries_count header)));
  lift (ok_or (get_range (entries_bytes (entries_ref t g)) 0 entries_size)
          (BufferTooSmall (Some needed)));;
  entries_offset ← lift (unwrap_res (into_u64 (Val (h_entries header) *! Val blk_sz)));
  on_entries t entries_size (disk_read (entries_addr t g) entries_offset);;
  g ← gets fst;
  lift (check_entries header (entries_bytes (entries_ref t g))).

(** gbl/libstorage/src/gpt.rs:693-769, [Gpt::load_and_sync]: the restoration of the primary GPT. *)
Definition restore_primary (blk_sz : Z) (secondary_header_blk : SafeNum) : M unit :=
  modify (λ s, (set_hdr Primary (hdr Secondary (fst s)) (fst s), snd s));;
  modify (λ s, (set_entries_ref Primary (entries_ref Secondary (fst s)) (fst s), snd s));;
  modify (λ s, (set_hdr Primary (h_set_current 1 (hdr Primary (fst s))) (fst s), snd s));;
  b ← lift (into_u64 secondary_header_blk);
  modify (λ s, (set_hdr Primary (update_crc (h_set_entries 2 (h_set_backup b
                  (hdr Primary (fst s))))) (fst s), snd s));;
  g ← gets fst;
  on_hdr Primary (disk_write (hdr_addr Primary g) blk_sz);;
  pos ← lift (into_u64 (Val 2 *! Val blk_sz));
  all_entries Primary (disk_write (entries_addr Primary g) pos).

(** gbl/libstorage/src/gpt.rs:693-769, [Gpt::load_and_sync]: the restoration of the secondary GPT. *)
Definition restore_secondary (blk_sz : Z) (secondary_header_blk : SafeNum) : M unit :=
  let pos := secondary_header_blk *! Val blk_sz in
  let entries_pos := pos -! Val GPT_MAX_NUM_ENTRIES_SIZE in
  let entries_blk := entries_pos /! Val blk_sz in
  modify (λ s, (set_hdr Secondary (hdr Primary (fst s)) (fst s), snd s));;
  modify (λ s, (set_entries_ref Secondary (entries_ref Primary (fst s)) (fst s), snd s));;
  c ← lift (into_u64 secondary_header_blk);
  modify (λ s, (set_hdr Secondary (h_set_backup 1 (h_set_current c (hdr Secondary (fst s))))
                  (fst s), snd s));;
  e ← lift (into_u64 entries_blk);
  modify (λ s, (set_hdr Secondary (update_crc (h_set_entries e (hdr Secondary (fst s))))
                  (fst s), snd s));;
  g ← gets fst;
  pos ← lift (into_u64 pos);
  on_hdr Secondary (disk_write (hdr_addr Secondary g) pos);;
  entries_pos ← lift (into_u64 entries_pos);
  all_entries Secondary (disk_write (entries_addr Secondary g) entries_pos).

(** gbl/libstorage/src/gpt.rs:693-769, [Gpt::load_and_sync]. *)
Definition load_and_sync : M GptSyncResult :=
  i ← gets (λ s, disk_block_info (snd s));
  let blk_sz := block_size i in
  if blk_sz =? 0 then raise InvalidInput else
  let secondary_header_blk := Val (num_blocks i) -! Val 1 in
  primary_res ← attempt (load_and_validate_gpt Primary);
  secondary_res ← attempt (load_and_validate_gpt Secondary);
  modify (λ s, (set_block_size None (fst s), snd s));;
  g ← gets fst;
  sync_res ← match primary_res, secondary_res with
    | inr p, inr s => mret (NoValidGpt p s)
    | inr e, inl _ => restore_primary blk_sz secondary_header_blk;; mret (PrimaryRestored e)
    | inl _, v =>
        if match v with inl _ => is_consistent (hdr Primary g) (hdr Secondary g) | _ => false end
        then mret BothValid
        else
          restore_secondary blk_sz secondary_header_blk;;
          mret (SecondaryRestored match v with
                                  | inr e => e
                                  | inl _ => GptError DifferentFromPrimary
                                  end)
    end;
  modify (λ s, (set_block_size (Some blk_sz) (fst s), snd s));;
  mret sync_res.

(** gbl/libstorage/src/lib.rs:326-340, [Disk::sync_gpt]. *)
Definition sync_gpt : M GptSyncResult := load_and_sync.
End Sync.
