(* ===== verification/GptBuild.v ===== *)
(** * libstorage: updating, erasing and building a GPT

    Models [update_gpt], [erase_gpt] and [GptBuilder] of
    src/gbl/libstorage/src/gpt.rs and the partition reads and writes of [Disk]
    in src/gbl/libstorage/src/lib.rs. *)

From S2P Require Import Prelude SafeMath LibError Text Crc Block Disk GptData Gpt.
Import SafeNum.

(** The last non-null entry set to end at [v]. *)
Fixpoint set_final_last (v : Z) (l : list GptEntry) : list GptEntry :=
  match l with
  | [] => []
  | e :: l =>
      if forallb is_null l then (if is_null e then e else e_set_last v e) :: l
      else e :: set_final_last v l
  end.

Section Update.
Context {D : Type} `{!BlockIo D} `{!Hasher} `{!UnstableSort}.
Abbreviation M := (ST (Gpt * Disk D) Error).

(** gbl/libstorage/src/gpt.rs:804-863, [update_gpt]: the changes to the caller's buffer
    [mbr_primary] before it is written. *)
Definition prepare_update (i : BlockInfo) (resize : bool) (mbr_primary : bytes) : result bytes :=
  blk_sz ← try_int 64 (block_size i);
  let num_blks := Val (num_blocks i) in
  twice ← arith 64 (blk_sz * 2);
  rest ← ok_or (get_range mbr_primary blk_sz (zlen mbr_primary)) (BufferTooSmall (Some twice));
  block ← ok_or (get_range rest 0 blk_sz) (BufferTooSmall (Some twice));
  let remain := drop (Z.to_nat blk_sz) rest in
  h ← from_bytes_mut block;
  let entries_blk := Val GPT_MAX_NUM_ENTRIES_SIZE /! Val blk_sz in
  last ← unwrap_res (into_u64 (num_blks -! entries_blk -! Val 2));
  backup ← unwrap_res (into_u64 (num_blks -! Val 1));
  let h := update_crc (h_set_backup backup (h_set_last last h)) in
  check_header i h true;;
  entries_off ← unwrap_res (into_u64 ((Val (h_entries h) -! Val 2) *! Val blk_sz));
  entries_size ← unwrap_res (into_u64 (Val (h_entries_count h) *! Val (h_entries_size h)));
  needed ← arith 64 (2 * blk_sz + entries_off);
  needed ← arith 64 (needed + entries_size);
  tl ← ok_or (get_range remain entries_off (zlen remain)) (BufferTooSmall (Some needed));
  entries ← ok_or (get_range tl 0 entries_size) (BufferTooSmall (Some needed));
  check_entries h entries;;
  '(h, entries) ←
    (if resize then
       es ← unwrap (new_slice entries);
       let entries := entries_bytes (set_final_last (h_last h) es) in
       h ← update_entries_crc entries h;
       unwrap_res (check_header i h true);;
       unwrap_res (check_entries h entries);;
       Ok (h, entries)
     else Ok (h, entries));
  Ok (splice (splice mbr_primary blk_sz (header_bytes h)) (2 * blk_sz + entries_off) entries).

(** gbl/libstorage/src/gpt.rs:804-863, [update_gpt]: with the buffer [mbr_primary] at [addr]. *)
Definition update_gpt (resize : bool) (addr : Z) (mbr_primary : bytes) : M unit :=
  i ← gets (λ s, disk_block_info (snd s));
  data ← lift (prepare_update i resize mbr_primary);
  zoom (λ s, (snd s, data)) (λ t s, (fst s, fst t)) (disk_write addr 0);;
  r ← sync_gpt;
  lift (res r).

(** gbl/libstorage/src/gpt.rs:865-892, [erase_gpt]: [Ok false] says that the fuel of a fill did
    not suffice. *)
Definition erase_gpt (fuel : nat) : M bool :=
  r ← sync_gpt;
  match res r with
  | Err _ => mret true
  | Panic => lift Panic
  | Ok _ =>
      i ← gets (λ s, disk_block_info (snd s));
      let blk_sz := block_size i in
      g ← gets fst;
      let entries_size := Val (h_entries_count (hdr Primary g)) *! Val GPT_ENTRY_SIZE in
      modify (λ s, (set_block_size None (fst s), snd s));;
      let fill off size := all_entries Primary (disk_fill fuel (entries_addr Primary g) off size 0) in
      off ← lift (arith 64 (h_current (hdr Primary g) * blk_sz));
      b1 ← fill off blk_sz;
      off ← lift (arith 64 (h_entries (hdr Primary g) * blk_sz));
      size ← lift (unwrap_res (into_u64 entries_size));
      b2 ← fill off size;
      off ← lift (arith 64 (h_current (hdr Secondary g) * blk_sz));
      b3 ← fill off blk_sz;
      off ← lift (arith 64 (h_entries (hdr Secondary g) * blk_sz));
      size ← lift (unwrap_res (into_u64 entries_size));
      b4 ← fill off size;
      mret (b1 && b2 && b3 && b4)
  end.

(** gbl/libstorage/src/lib.rs:342-361, [Disk::update_gpt]. *)
Definition disk_update_gpt (resize : bool) (addr : Z) (mbr_primary : bytes) : M unit :=
  update_gpt resize addr mbr_primary.

(** gbl/libstorage/src/lib.rs:363-372, [Disk::erase_gpt]. *)
Definition disk_erase_gpt (fuel : nat) : M bool := erase_gpt fuel.

(** gbl/libstorage/src/lib.rs:374-395, [Disk::read_gpt_partition]: into the buffer at [addr]. *)
Definition read_gpt_partition (g : Gpt) (part : list Z) (addr offset : Z) :
    ST (Disk D * bytes) Error unit :=
  n ← gets (λ s, zlen (snd s));
  offset ← lift (gpt_check_range g part offset n);
  disk_read addr offset.

(** gbl/libstorage/src/lib.rs:397-419, [Disk::write_gpt_partition]. *)
Definition write_gpt_partition (g : Gpt) (part : list Z) (addr offset : Z) :
    ST (Disk D * bytes) Error unit :=
  n ← gets (λ s, zlen (snd s));
  offset ← lift (gpt_check_range g part offset n);
  disk_write addr offset.

(** ** The builder

    [GptBuilder] works on the secondary header and entries of the load buffer. *)

(** [position(|v| v.is_null())]. *)
Definition null_position (l : list GptEntry) : option Z :=
  if forallb (λ e, negb (is_null e)) l then None else Some (zlen (active l)).

(** gbl/libstorage/src/gpt.rs:926-971, [GptBuilder::new]: the header of a new GPT. *)
Definition initial_header (i : BlockInfo) : result GptHeader :=
  entries_blk ← unwrap_res (gpt_entries_blk (block_size i));
  let num_blks := Val (num_blocks i) in
  current ← unwrap_res (into_u64 (num_blks -! Val 1));
  first ← arith 64 (1 + 1 + entries_blk);
  last ← unwrap_res (into_u64 (num_blks -! Val 1 -! Val entries_blk -! Val 1));
  entries ← unwrap_res (into_u64 (num_blks -! Val 1 -! Val entries_blk));
  Ok (mkHeader GPT_MAGIC 0 GPT_HEADER_SIZE 0 0 current 1 first last (replicate 16 0) entries 0
        GPT_ENTRY_SIZE 0).

Definition sort_key (e : GptEntry) : Z := if is_null e then 2 ^ 64 - 1 else e_first e.
Definition null_entry : GptEntry :=
  mkEntry (replicate 16 0) (replicate 16 0) 0 0 0 (replicate 36 0).

(** gbl/libstorage/src/gpt.rs:926-971, [GptBuilder::new]: whether the disk has a valid GPT. *)
Definition builder_new : M bool :=
  i ← gets (λ s, disk_block_info (snd s));
  needed ← lift (min_required_blocks (block_size i));
  if num_blocks i <? needed then raise (GptError DiskTooSmall) else
  r ← sync_gpt;
  let has_valid_gpt := is_ok (res r) in
  (if has_valid_gpt then mret tt else
     h ← lift (initial_header i);
     modify (λ s, (set_hdr Secondary h (set_entries_ref Secondary
       (replicate (length (entries_ref Secondary (fst s))) null_entry) (fst s)), snd s)));;
  modify (λ s, let g := fst s in
    let es := entries_ref Secondary g in
    (set_entries_ref Secondary (sort_unstable_by_key sort_key es)
      (set_hdr Secondary (h_set_entries_count (default (zlen es) (null_position es))
         (hdr Secondary g)) g), snd s));;
  mret has_valid_gpt.

(** The first entry with the given name, as [position] finds it. *)
Fixpoint name_position (part : list Z) (l : list GptEntry) : option nat :=
  match l with
  | [] => None
  | e :: l => match match_name part e with
              | Ok true => Some O
              | _ => S <$> name_position part l
              end
  end.

(** gbl/libstorage/src/gpt.rs:973-994, [GptBuilder::remove]. *)
Definition builder_remove (part : list Z) : M bool :=
  '(g, _) ← gets id;
  let '(header, es) := secondary (gpt_load g) in
  l ← lift (index_range es 0 (h_entries_count header));
  match name_position part l with
  | Some n =>
      let rotated := take n l ++ drop (S n) l ++ take 1 (drop n l) in
      let cleared := take (length l - 1) rotated ++ [null_entry] in
      count ← lift (arith 32 (h_entries_count header - 1));
      modify (λ s, (set_hdr Secondary (h_set_entries_count count header)
                      (set_entries_ref Secondary (splice es 0 cleared) (fst s)), snd s));;
      mret true
  | None => mret false
  end.

(** gbl/libstorage/src/gpt.rs:996-1063, [GptBuilder::insert_before]: the fields of the new entry, set
    in the null entry [e]. *)
Definition new_entry (name : list Z) (part_type guid : bytes) (flags first last : Z)
    (e : GptEntry) : GptEntry :=
  mkEntry part_type guid first last flags (splice (e_name e) 0 (take 36 (encode_utf16 name))).

(** gbl/libstorage/src/gpt.rs:996-1063, [GptBuilder::insert_before]: where the partition goes before
    entry [idx] of the [n] entries of [es]: its first block, and its size in blocks. *)
Definition place (blk_sz : Z) (header : GptHeader) (es : list GptEntry) (n idx : Z)
    (size : option Z) : result (Z * Z) :=
  prev_end ← (if idx =? 0 then Ok (h_first header)
              else e ← unwrap (es !! Z.to_nat (idx - 1)); arith 64 (e_last e + 1));
  next_start ← (if idx =? n then arith 64 (h_last header + 1)
                else e ← unwrap (es !! Z.to_nat idx); Ok (e_first e));
  blocks ← match size with
           | Some v => into_u64 (round_up here (Val v) (Val blk_sz) /! Val blk_sz)
           | None => arith 64 (next_start - prev_end)
           end;
  gap ← arith 64 (next_start - prev_end);
  if gap <? blocks then Err OutOfResources else Ok (prev_end, blocks).

(** gbl/libstorage/src/gpt.rs:996-1063, [GptBuilder::insert_before]. *)
Definition insert_before (idx : Z) (name : list Z) (part_type guid : bytes) (flags : Z)
    (size : option Z) : M unit :=
  '(g, k) ← gets id;
  let '(header, es) := secondary (gpt_load g) in
  n ← lift (ok_or (null_position es) OutOfResources);
  let idx := Z.min n idx in
  '(prev_end, blocks) ← lift (place (block_size (disk_block_info k)) header es n idx size);
  null ← lift (unwrap (es !! Z.to_nat n));
  lift (assert_that (is_null null));;
  a ← lift (arith 64 (prev_end + blocks));
  last ← lift (arith 64 (a - 1));
  let e := new_entry name part_type guid flags prev_end last null in
  count ← lift (arith 32 (h_entries_count header + 1));
  modify (λ s, (set_hdr Secondary (h_set_entries_count count header)
    (set_entries_ref Secondary
       (take (Z.to_nat idx) es ++ e :: drop (Z.to_nat idx) (take (Z.to_nat n) es)
        ++ drop (S (Z.to_nat n)) es) (fst s)), snd s)).

(** gbl/libstorage/src/gpt.rs:1065-1094, [GptBuilder::add]: the loop, with [n] places left to try. *)
Fixpoint add_from (n : nat) (i : Z) (name : list Z) (part_type guid : bytes) (flags : Z)
    (size : option Z) : M unit :=
  match n with
  | O => raise OutOfResources
  | S n =>
      r ← attempt (insert_before i name part_type guid flags size);
      match r with
      | inl _ => mret tt
      | inr _ => add_from n (i + 1) name part_type guid flags size
      end
  end.
(** gbl/libstorage/src/gpt.rs:1065-1094, [GptBuilder::add]. *)
Definition builder_add (name : list Z) (part_type guid : bytes) (flags : Z) (size : option Z) :
    M unit :=
  g ← gets fst;
  let entry_count := h_entries_count (fst (secondary (gpt_load g))) in
  let search_start := match size with Some _ => 0 | None => entry_count end in
  add_from (Z.to_nat (entry_count + 1 - search_start)) search_start name part_type guid flags size.

(** gbl/libstorage/src/gpt.rs:1096-1111, [GptBuilder::persist]: [zaddr] is the address of the zeroes
    written over the primary header's magic. *)
Definition persist (zaddr : Z) : M unit :=
  '(g, k) ← gets id;
  let '(header, es) := secondary (gpt_load g) in
  let i := disk_block_info k in
  header ← lift (update_entries_crc (entries_bytes es) header);
  modify (λ s, (set_hdr Secondary header (fst s), snd s));;
  lift (unwrap_res (check_header i header false));;
  lift (unwrap_res (check_entries header (entries_bytes es)));;
  let blk_sz := block_size i in
  pos ← lift (arith 64 (h_current header * blk_sz));
  on_hdr Secondary (disk_write (hdr_addr Secondary g) pos);;
  pos ← lift (arith 64 (h_entries header * blk_sz));
  all_entries Secondary (disk_write (entries_addr Secondary g) pos);;
  zoom (λ s, (snd s, replicate 8 0)) (λ t s, (fst s, fst t)) (disk_write zaddr blk_sz);;
  r ← sync_gpt;
  lift (res r).
End Update.
