(* ===== verification/GptCodec.v ===== *)
(** * libstorage: the bytes of the GPT structures

    The packed structures of [GptData] and their bytes determine each other, so
    that a GPT can be kept as structures while the disk holds bytes. *)

From S2P Require Import Prelude SafeMath LibError Text Crc Block GptData.

Definition u16_ok (z : Z) : Prop := 0 ≤ z < 2 ^ 16.
#[global] Instance u16_ok_dec z : Decision (u16_ok z).
Proof. unfold u16_ok. apply _. Defined.

(** The fields hold values of their types. *)
Record header_ok (h : GptHeader) : Prop := {
  ho_magic : u64_ok (h_magic h);
  ho_revision : u32_ok (h_revision h);
  ho_size : u32_ok (h_size h);
  ho_crc32 : u32_ok (h_crc32 h);
  ho_reserved0 : u32_ok (h_reserved0 h);
  ho_current : u64_ok (h_current h);
  ho_backup : u64_ok (h_backup h);
  ho_first : u64_ok (h_first h);
  ho_last : u64_ok (h_last h);
  ho_guid : length (h_guid h) = 16%nat ∧ bytes_ok (h_guid h);
  ho_entries : u64_ok (h_entries h);
  ho_count : u32_ok (h_entries_count h);
  ho_esize : u32_ok (h_entries_size h);
  ho_ecrc : u32_ok (h_entries_crc h);
}.
Record entry_ok (e : GptEntry) : Prop := {
  eo_type : length (e_part_type e) = 16%nat ∧ bytes_ok (e_part_type e);
  eo_guid : length (e_guid e) = 16%nat ∧ bytes_ok (e_guid e);
  eo_first : u64_ok (e_first e);
  eo_last : u64_ok (e_last e);
  eo_flags : u64_ok (e_flags e);
  eo_name : length (e_name e) = 36%nat ∧ Forall u16_ok (e_name e);
}.

#[global] Instance header_ok_dec h : Decision (header_ok h).
Proof.
  refine (cast_if (decide (((u64_ok (h_magic h) ∧ u32_ok (h_revision h) ∧ u32_ok (h_size h) ∧
    u32_ok (h_crc32 h) ∧ u32_ok (h_reserved0 h)) ∧ (u64_ok (h_current h) ∧ u64_ok (h_backup h) ∧
    u64_ok (h_first h) ∧ u64_ok (h_last h))) ∧ ((length (h_guid h) = 16%nat ∧ bytes_ok (h_guid h)) ∧
    u64_ok (h_entries h) ∧ u32_ok (h_entries_count h) ∧ u32_ok (h_entries_size h) ∧
    u32_ok (h_entries_crc h)))));
    abstract (first [by destruct_and!; split | by intros []; tauto]).
Defined.
#[global] Instance entry_ok_dec e : Decision (entry_ok e).
Proof.
  refine (cast_if (decide ((length (e_part_type e) = 16%nat ∧ bytes_ok (e_part_type e)) ∧
    (length (e_guid e) = 16%nat ∧ bytes_ok (e_guid e)) ∧ u64_ok (e_first e) ∧ u64_ok (e_last e) ∧
    u64_ok (e_flags e) ∧ length (e_name e) = 36%nat ∧ Forall u16_ok (e_name e))));
    abstract (first [by destruct_and!; split | by intros []; tauto]).
Defined.

(** ** Integers in a buffer *)

Lemma le_inv n z :
  0 ≤ z < 256 ^ Z.of_nat n → ∃ l, le_bytes n z = l ∧ length l = n ∧ z = le_val l.
Proof.
  intros. exists (le_bytes n z). split_and!; [done|apply length_le_bytes|by rewrite le_val_bytes].
Qed.
Lemma le4_inv z : u32_ok z → ∃ l, le_bytes 4 z = l ∧ length l = 4%nat ∧ z = le_val l.
Proof. intros. by apply le_inv. Qed.
Lemma le8_inv z : u64_ok z → ∃ l, le_bytes 8 z = l ∧ length l = 8%nat ∧ z = le_val l.
Proof. intros. by apply le_inv. Qed.

Lemma le_slice b off n :
  bytes_ok b → 0 ≤ off → off + Z.of_nat n ≤ zlen b →
  le_bytes n (le_val (slice b off (Z.of_nat n))) = slice b off (Z.of_nat n).
Proof.
  intros Hb H0 Hl. assert (Hn : length (slice b off (Z.of_nat n)) = n) by (rewrite length_slice; lia).
  rewrite <-Hn at 1. apply le_bytes_val. by apply bytes_ok_slice.
Qed.
Lemma le_slice_bound b off n :
  bytes_ok b → 0 ≤ off → off + Z.of_nat n ≤ zlen b →
  0 ≤ le_val (slice b off (Z.of_nat n)) < 256 ^ Z.of_nat n.
Proof.
  intros Hb H0 Hl. pose proof (le_val_bound _ (bytes_ok_slice b off (Z.of_nat n) Hb)) as H.
  rewrite zlen_slice in H by lia. exact H.
Qed.

Lemma slice_glue {A} (l : list A) off n off' m :
  off' = off + n → 0 ≤ off → 0 ≤ n → 0 ≤ m → off + n ≤ zlen l →
  slice l off n ++ slice l off' m = slice l off (n + m).
Proof. intros ->. apply slice_app_split. Qed.

(** ** Headers *)

Lemma length_header_bytes h : header_ok h → length (header_bytes h) = 92%nat.
Proof.
  intros Hh. destruct (ho_guid _ Hh) as [Hg _]. unfold header_bytes.
  rewrite !length_app, Hg. reflexivity.
Qed.

Lemma header_bytes_ok h : header_ok h → bytes_ok (header_bytes h).
Proof.
  intros Hh. unfold header_bytes. rewrite !bytes_ok_app. split_and!; auto with slices. apply Hh.
Qed.

Ltac split_le z H :=
  let l := fresh "l" in let L := fresh "L" in
  first [destruct (le8_inv z H) as (l & -> & L & ->) | destruct (le4_inv z H) as (l & -> & L & ->)].

Lemma header_of_header_bytes h : header_ok h → header_of_bytes (header_bytes h) = h.
Proof.
  intros [Hmg Hrv Hsz Hcr Hrs Hcu Hbk Hfi Hla [Hg _] Hen Hec Hes Hecr].
  destruct h as [mg rv sz cr rs cu bk fi la gu en ec es ecr].
  cbn [h_magic h_revision h_size h_crc32 h_reserved0 h_current h_backup h_first h_last h_guid
       h_entries h_entries_count h_entries_size h_entries_crc] in *.
  unfold header_bytes.
  cbn [h_magic h_revision h_size h_crc32 h_reserved0 h_current h_backup h_first h_last h_guid
       h_entries h_entries_count h_entries_size h_entries_crc].
  split_le mg Hmg. split_le rv Hrv. split_le sz Hsz. split_le cr Hcr.
  split_le rs Hrs. split_le cu Hcu. split_le bk Hbk.
  split_le fi Hfi. split_le la Hla. split_le en Hen. split_le ec Hec.
  split_le es Hes. split_le ecr Hecr.
  repeat match goal with H : length ?l = _ |- _ => is_var l; known_length l; clear H end.
  reflexivity.
Qed.

Lemma header_of_bytes_ok b : bytes_ok b → 92 ≤ zlen b → header_ok (header_of_bytes b).
Proof.
  intros Hb Hl. pose proof (λ off, le_slice_bound b off 8 Hb) as H8.
  pose proof (λ off, le_slice_bound b off 4 Hb) as H4.
  split; cbn; try (apply H8; lia); try (apply H4; lia).
  split; [rewrite length_slice; lia|by apply bytes_ok_slice].
Qed.

Lemma header_bytes_of b : bytes_ok b → zlen b = 92 → header_bytes (header_of_bytes b) = b.
Proof.
  intros Hb Hl. pose proof (λ off, le_slice b off 8 Hb) as H8.
  pose proof (λ off, le_slice b off 4 Hb) as H4.
  change (Z.of_nat 8) with 8 in H8. change (Z.of_nat 4) with 4 in H4.
  unfold header_bytes, header_of_bytes. cbv zeta.
  cbn [h_magic h_revision h_size h_crc32 h_reserved0 h_current h_backup h_first h_last h_guid
       h_entries h_entries_count h_entries_size h_entries_crc].
  rewrite !H8, !H4 by lia. rewrite !slice_glue by lia. apply slice_all. lia.
Qed.

(** ** Entries *)

Lemma entries_bytes_cons e l : entries_bytes (e :: l) = entry_bytes e ++ entries_bytes l.
Proof. done. Qed.

Lemma length_units l : length (mjoin (le_bytes 2 <$> l)) = (2 * length l)%nat.
Proof.
  induction l as [|u l IH]; [done|]. rewrite join_fmap_cons. cbn [length].
  rewrite length_app, length_le_bytes, IH. lia.
Qed.

Lemma units_of_bytes l : Forall u16_ok l → u16_units (mjoin (le_bytes 2 <$> l)) = l.
Proof.
  induction 1 as [|u l Hu _ IH]; [done|]. rewrite join_fmap_cons.
  change (le_bytes 2 u) with [u mod 256; u / 256 mod 256]. cbn [app u16_units].
  unfold u16_ok in Hu. f_equal; [|exact IH]. Z.div_mod_to_equations. lia.
Qed.

Lemma units_bytes n b :
  length b = (2 * n)%nat → bytes_ok b →
  mjoin (le_bytes 2 <$> u16_units b) = b ∧ length (u16_units b) = n ∧ Forall u16_ok (u16_units b).
Proof.
  revert b. induction n as [|n IH]; intros b Hl Hb; [by destruct b|].
  destruct b as [|x [|y b]]; simpl in Hl; try lia.
  unfold bytes_ok in Hb. rewrite !Forall_cons in Hb. destruct Hb as (Hx & Hy & Hb).
  destruct (IH b ltac:(lia) Hb) as (E & L & F). unfold u8_ok in *. cbn [u16_units]. split_and!.
  - rewrite join_fmap_cons, E. cbn [le_bytes app].
    f_equal; [|f_equal]; Z.div_mod_to_equations; lia.
  - cbn [length]. by rewrite L.
  - constructor; [unfold u16_ok; lia|done].
Qed.

Lemma length_entry_bytes e : entry_ok e → length (entry_bytes e) = 128%nat.
Proof.
  intros [[Ht _] [Hg _] _ _ _ [Hn _]]. unfold entry_bytes.
  rewrite !length_app, length_units, Ht, Hg, Hn. reflexivity.
Qed.

Lemma entry_bytes_ok e : entry_ok e → bytes_ok (entry_bytes e).
Proof.
  intros [[_ Ht] [_ Hg] _ _ _ _]. unfold entry_bytes. rewrite !bytes_ok_app.
  split_and!; auto with slices.
  induction (e_name e); [constructor|]. rewrite join_fmap_cons.
  apply bytes_ok_app. auto with slices.
Qed.

Lemma entry_of_entry_bytes e : entry_ok e → entry_of_bytes (entry_bytes e) = e.
Proof.
  intros [[Ht _] [Hg _] Hf Hl Hfl [Hn Hu]]. destruct e as [ty gu fi la fl nm].
  unfold entry_bytes. cbn [e_part_type e_guid e_first e_last e_flags e_name] in *.
  pose proof (units_of_bytes nm Hu) as Hnm. pose proof (length_units nm) as Ln.
  rewrite Hn in Ln. revert Hnm Ln. generalize (mjoin (le_bytes 2 <$> nm)). intros bs Hnm Ln.
  split_le fi Hf. split_le la Hl. split_le fl Hfl.
  unfold entry_of_bytes.
  match goal with |- context [u16_units ?x] => replace x with bs end.
  2: { rewrite !app_assoc. rewrite slice_app_r by (rewrite !length_app; lia).
       symmetry. apply slice_all. lia. }
  rewrite Hnm. clear Hnm Ln Hn Hu. known_length ty. known_length gu.
  repeat match goal with L : length ?l = 8%nat |- _ => is_var l; known_length l; clear L end.
  reflexivity.
Qed.

Lemma entry_of_bytes_ok b : bytes_ok b → 128 ≤ zlen b → entry_ok (entry_of_bytes b).
Proof.
  intros Hb Hl. pose proof (λ off, le_slice_bound b off 8 Hb) as H8.
  destruct (units_bytes 36 (slice b 56 72)) as (_ & ? & ?);
    [rewrite length_slice; lia|by apply bytes_ok_slice|].
  split; cbn; try (apply H8; lia); try done;
    (split; [rewrite length_slice; lia|by apply bytes_ok_slice]).
Qed.

Lemma entry_bytes_of b : bytes_ok b → zlen b = 128 → entry_bytes (entry_of_bytes b) = b.
Proof.
  intros Hb Hl. pose proof (λ off, le_slice b off 8 Hb) as H8. change (Z.of_nat 8) with 8 in H8.
  unfold entry_bytes, entry_of_bytes. cbn [e_part_type e_guid e_first e_last e_flags e_name].
  destruct (units_bytes 36 (slice b 56 72)) as (-> & _ & _);
    [rewrite length_slice; lia|by apply bytes_ok_slice|].
  rewrite !H8 by lia. rewrite !slice_glue by lia. apply slice_all. lia.
Qed.

(** ** Arrays of entries *)

Lemma length_entries_bytes l : Forall entry_ok l → length (entries_bytes l) = (128 * length l)%nat.
Proof.
  induction 1 as [|e l He _ IH]; [done|]. rewrite entries_bytes_cons.
  rewrite length_app, length_entry_bytes, IH by done. simpl. lia.
Qed.

Lemma entries_bytes_ok l : Forall entry_ok l → bytes_ok (entries_bytes l).
Proof.
  induction 1 as [|e l He _ IH]; [constructor|]. rewrite entries_bytes_cons.
  apply bytes_ok_app. split; [by apply entry_bytes_ok|exact IH].
Qed.

Lemma length_entries_of n b : length (entries_of n b) = n.
Proof. revert b. induction n; intros; simpl; auto. Qed.

Lemma entries_of_app n l b :
  Forall entry_ok l → n = length l → entries_of n (entries_bytes l ++ b) = l.
Proof.
  intros Hl ->. induction Hl as [|e l He _ IH]; [done|]. cbn [length entries_of].
  rewrite entries_bytes_cons, <-app_assoc.
  rewrite take_app_length' by (symmetry; by apply length_entry_bytes).
  rewrite drop_app_length' by (symmetry; by apply length_entry_bytes).
  rewrite entry_of_entry_bytes by done. f_equal. exact IH.
Qed.

Lemma entries_of_entries_bytes n l :
  Forall entry_ok l → n = length l → entries_of n (entries_bytes l) = l.
Proof. intros. rewrite <-(app_nil_r (entries_bytes l)). by apply entries_of_app. Qed.

Lemma entries_of_ok n b : bytes_ok b → (128 * n ≤ length b)%nat → Forall entry_ok (entries_of n b).
Proof.
  revert b. induction n as [|n IH]; intros b Hb Hl; simpl; constructor.
  - apply entry_of_bytes_ok; [by apply Forall_take|]. rewrite length_take. lia.
  - apply IH; [by apply Forall_drop|]. rewrite length_drop. lia.
Qed.

Lemma entries_bytes_of n b :
  bytes_ok b → length b = (128 * n)%nat → entries_bytes (entries_of n b) = b.
Proof.
  revert b. induction n as [|n IH]; intros b Hb Hl.
  { destruct b; [done|simpl in Hl; lia]. }
  cbn [entries_of]. rewrite entries_bytes_cons.
  rewrite entry_bytes_of; [|by apply Forall_take|rewrite length_take; lia].
  rewrite IH; [|by apply Forall_drop|rewrite length_drop; lia]. apply take_drop.
Qed.

Lemma entries_bytes_app l k : entries_bytes (l ++ k) = entries_bytes l ++ entries_bytes k.
Proof. unfold entries_bytes. by rewrite fmap_app, join_app. Qed.

(** The first [n] entries are in the first [128 * n] bytes. *)
Lemma slice_entries_bytes l n :
  Forall entry_ok l → 0 ≤ n → n ≤ zlen l →
  slice (entries_bytes l) 0 (n * 128) = entries_bytes (take (Z.to_nat n) l).
Proof.
  intros Hl H0 Hn. rewrite <-(take_drop (Z.to_nat n) l) at 1. rewrite entries_bytes_app.
  apply slice_app_l. rewrite length_entries_bytes by by apply Forall_take.
  rewrite length_take. lia.
Qed.

(** Overwriting the first entries. *)
Lemma splice_entries_bytes l b n :
  Forall entry_ok l → bytes_ok b → zlen b = n * 128 → 0 ≤ n ≤ zlen l →
  entries_of (length l) (splice (entries_bytes l) 0 b)
    = entries_of (Z.to_nat n) b ++ drop (Z.to_nat n) l.
Proof.
  intros Hl Hb Hz Hn. unfold splice. simpl.
  set (m := Z.to_nat n). assert (Hm : length b = (128 * m)%nat) by lia.
  replace (drop (length b) (entries_bytes l)) with (entries_bytes (drop m l)).
  - rewrite <-(entries_bytes_of m b) at 1 by done. rewrite <-entries_bytes_app.
    apply entries_of_entries_bytes.
    + apply Forall_app. split; [apply entries_of_ok; [done|lia]|by apply Forall_drop].
    + rewrite length_app, length_entries_of, length_drop. lia.
  - rewrite <-(take_drop m l) at 2. rewrite entries_bytes_app. symmetry.
    apply drop_app_length'. rewrite length_entries_bytes by by apply Forall_take.
    rewrite length_take. lia.
Qed.

Lemma new_slice_entries l : Forall entry_ok l → new_slice (entries_bytes l) = Some l.
Proof.
  intros Hl. unfold new_slice, GPT_ENTRY_SIZE. pose proof (length_entries_bytes l Hl) as H.
  replace (zlen (entries_bytes l)) with (zlen l * 128) by lia.
  rewrite Z.mod_mul, Z.div_mul by lia. simpl. rewrite entries_of_entries_bytes; [done..|]. lia.
Qed.
