(* ===== verification/GptCheck.v ===== *)
(** * libstorage: what a validated GPT guarantees

    The validation of headers and entries is sound and complete for the layout
    it promises, partitions of a validated table do not share blocks and a
    checked range stays inside its partition; and the places where the
    validation falls short. *)

From stdpp Require Import sorting.
From S2P Require Import Prelude SafeMath LibError Text Crc Block GptData GptCodec.
Import SafeNum.

(** ** Headers *)

(** The blocks reserved for 128 entries. *)
Definition reserved (i : BlockInfo) : Z := 16384 / block_size i.

(** The layout a header describes on a device: MBR, primary header and entries
    in front of the usable blocks, secondary entries and header behind. *)
Record header_valid `{!Hasher} (i : BlockInfo) (h : GptHeader) (is_primary : bool) : Prop := {
  hv_blocks : 16384 mod block_size i = 0;
  hv_disk : 2 * (reserved i + 1) + 1 ≤ num_blocks i;
  hv_magic : h_magic h = GPT_MAGIC;
  hv_crc : h_crc32 h = calculate_header_crc h;
  hv_size : h_size h = 92;
  hv_esize : h_entries_size h = 128;
  hv_first : reserved i + 2 ≤ h_first h ≤ h_last h + 1;
  hv_last : h_last h ≤ num_blocks i - reserved i - 2;
  hv_entries : if is_primary then 2 ≤ h_entries h ∧ h_entries h + reserved i ≤ h_first h
               else h_last h < h_entries h ≤ num_blocks i - 1 - reserved i;
  hv_count : h_entries_count h ≤ 128;
}.

(** The geometry a header is checked against. *)
Definition geometry_ok (i : BlockInfo) : Prop := 0 < block_size i ∧ u64_ok (num_blocks i).

Lemma reserved_bound i : 0 < block_size i → 0 ≤ reserved i ≤ 16384.
Proof.
  intros. unfold reserved. split; [apply Z.div_pos; lia|]. apply Z.div_le_upper_bound; nia.
Qed.

Section Headers.
Context `{!Hasher}.

Ltac ok_step :=
  match goal with
  | |- match arith 64 ?z ≫= _ with _ => _ end => rewrite (arith_ok 64 z), ok_bind by lia
  | |- arith 64 ?z ≫= _ = _ => rewrite (arith_ok 64 z), ok_bind by lia
  end.
Ltac refuted :=
  cbn [orb andb negb mbind outcome_bind];
  let H := fresh in intros H; destruct H; simpl in *; lia || congruence.

Lemma into_unwrap v : u64_ok v → unwrap_res (E := Error) (into_u64 (Val v)) = Ok v.
Proof. intros. by rewrite into_u64_val. Qed.

Lemma max_last_val nb r :
  u64_ok nb → 0 ≤ r → r + 2 ≤ nb →
  unwrap_res (E := Error) (into_u64 (Val nb -! Val 1 -! Val r -! Val 1)) = Ok (nb - 1 - r - 1).
Proof. intros [? ?] ? ?. by rewrite !sn_sub, into_unwrap by (unfold u64_ok; lia). Qed.

(** [check_header] decides the layout; only a last usable block of [2^64 - 1]
    makes it panic. *)
Lemma check_header_spec i h p :
  geometry_ok i → header_ok h → h_last h < 2 ^ 64 - 1 →
  match check_header i h p with
  | Ok _ => header_valid i h p
  | Err _ => ¬ header_valid i h p
  | Panic => False
  end.
Proof.
  intros [Hbs Hnb] Hh Hmax. pose proof (reserved_bound i Hbs) as HR.
  pose proof (ho_first _ Hh) as Hf. pose proof (ho_last _ Hh) as Hl.
  pose proof (ho_entries _ Hh) as He. unfold u64_ok in Hnb, Hf, Hl, He.
  unfold check_header, gpt_entries_blk, GPT_MAX_NUM_ENTRIES_SIZE, GPT_MAX_NUM_ENTRIES, GPT_ENTRY_SIZE,
    GPT_HEADER_SIZE.
  change (128 * 128) with 16384. rewrite (proj2 (Z.eqb_neq (block_size i) 0)) by lia.
  destruct (Z.eqb_spec (16384 mod block_size i) 0) as [Hm|Hm]; [|refuted]. rewrite ok_bind.
  fold (reserved i). do 3 ok_step. rewrite into_unwrap, ok_bind by done.
  rewrite !Z.gtb_ltb.
  destruct (Z.ltb_spec (num_blocks i) ((reserved i + 1) * 2 + 1)) as [|Hd]; [refuted|].
  destruct (Z.eqb_spec (h_magic h) GPT_MAGIC) as [Em|]; [|refuted]. cbn [negb].
  destruct (Z.eqb_spec (calculate_header_crc h) (h_crc32 h)) as [Ec|]; [|refuted]. cbn [negb].
  destruct (Z.eqb_spec (h_size h) 92) as [Es|]; [|refuted]. cbn [negb].
  destruct (Z.eqb_spec (h_entries_size h) 128) as [Ees|]; [|refuted]. cbn [negb].
  ok_step. rewrite max_last_val, ok_bind by (done || lia). ok_step. rewrite !Z.gtb_ltb.
  destruct (Z.ltb_spec (h_last h + 1) (h_first h)); [refuted|].
  destruct (Z.ltb_spec (h_first h) (reserved i + 2)); [refuted|].
  destruct (Z.ltb_spec (num_blocks i - 1 - reserved i - 1) (h_last h)); [refuted|]. cbn [orb].
  destruct p.
  - rewrite sn_sub, into_unwrap, ok_bind by (unfold u64_ok; lia). rewrite Z.geb_leb.
    destruct (Z.leb_spec 2 (h_entries h)); [|refuted].
    destruct (Z.leb_spec (h_entries h) (h_first h - reserved i)); [|refuted].
    cbn [andb negb]. rewrite ok_bind.
    destruct (Z.ltb_spec 128 (h_entries_count h)); [refuted|]. split; try done; try lia.
  - rewrite arith_ok, ok_bind by lia.
    destruct (Z.ltb_spec (h_last h) (h_entries h)); [|refuted].
    destruct (Z.leb_spec (h_entries h) (num_blocks i - 1 - reserved i - 1 + 1)); [|refuted].
    cbn [andb negb]. rewrite ok_bind.
    destruct (Z.ltb_spec 128 (h_entries_count h)); [refuted|]. split; try done; try lia.
Qed.

(** A header whose last usable block is [2^64 - 1] makes [check_header] panic
    in a build with overflow checks. *)
Lemma check_header_panics i h p :
  geometry_ok i → 16384 mod block_size i = 0 → 2 * (reserved i + 1) + 1 ≤ num_blocks i →
  h_magic h = GPT_MAGIC → h_crc32 h = calculate_header_crc h → h_size h = 92 →
  h_entries_size h = 128 → h_last h = 2 ^ 64 - 1 → check_header i h p = Panic.
Proof.
  intros [Hbs Hnb] Hm Hd Em Ec Es Ees El. pose proof (reserved_bound i Hbs) as HR. unfold u64_ok in Hnb.
  unfold check_header, gpt_entries_blk, GPT_MAX_NUM_ENTRIES_SIZE, GPT_MAX_NUM_ENTRIES, GPT_ENTRY_SIZE,
    GPT_HEADER_SIZE.
  change (128 * 128) with 16384. rewrite (proj2 (Z.eqb_neq (block_size i) 0)) by lia.
  rewrite Hm. cbn [Z.eqb]. rewrite ok_bind. fold (reserved i). do 3 ok_step.
  rewrite into_unwrap, ok_bind by done. rewrite Z.gtb_ltb, (proj2 (Z.ltb_ge _ _)) by lia.
  rewrite Em, <-Ec, Es, Ees, !Z.eqb_refl. cbn [negb].
  ok_step. rewrite max_last_val, ok_bind by (done || lia).
  rewrite El, (arith_panic 64 (2 ^ 64 - 1 + 1)) by lia. done.
Qed.

Lemma check_header_sound i h p :
  geometry_ok i → header_ok h → check_header i h p = Ok tt → header_valid i h p.
Proof.
  intros Hg Hh Hc. destruct (decide (h_last h < 2 ^ 64 - 1)) as [Hlt|Hge].
  { pose proof (check_header_spec i h p Hg Hh Hlt) as Hs. by rewrite Hc in Hs. }
  destruct (ho_last _ Hh) as [_ Hl]. assert (El : h_last h = 2 ^ 64 - 1) by lia. exfalso. revert Hc.
  unfold check_header. rewrite El, (arith_panic 64 (2 ^ 64 - 1 + 1)) by lia.
  intros Hc. repeat (apply bind_Ok in Hc as (? & _ & Hc)).
  do 5 (case_match; [done|]). do 3 (apply bind_Ok in Hc as (? & ? & Hc)). done.
Qed.
End Headers.

(** ** Entries *)

(** A partition in the usable range of a header, with GUIDs. *)
Record entry_valid (h : GptHeader) (e : GptEntry) : Prop := {
  ev_range : h_first h ≤ e_first e ≤ e_last e + 1 ∧ e_last e ≤ h_last h;
  ev_type : e_part_type e ≠ replicate 16 0;
  ev_guid : e_guid e ≠ replicate 16 0;
}.
(** Two partitions share no block. *)
Definition disjoint (e e' : GptEntry) : Prop := e_last e < e_first e' ∨ e_last e' < e_first e.
Definition pairwise {A} (R : A → A → Prop) (l : list A) : Prop :=
  ∀ i j x y, i ≠ j → l !! i = Some x → l !! j = Some y → R x y.
(** No partition behind the first null entry. *)
Definition dense (l : list GptEntry) : Prop :=
  Forall (λ e, is_null e = true) (drop (length (active l)) l).

Lemma active_prefix l : active l = take (length (active l)) l.
Proof. induction l as [|e l IH]; [done|]. simpl. destruct (is_null e); [done|]. simpl. by f_equal. Qed.
Lemma active_length l : (length (active l) ≤ length l)%nat.
Proof. induction l as [|e l IH]; [done|]. simpl. destruct (is_null e); simpl; lia. Qed.
Lemma active_not_null l : Forall (λ e, is_null e = false) (active l).
Proof. induction l as [|e l IH]; [done|]. simpl. destruct (is_null e) eqn:E; by constructor. Qed.
Lemma active_lookup l k e : active l !! k = Some e → l !! k = Some e.
Proof.
  rewrite active_prefix. rewrite lookup_take_decide. by case_decide.
Qed.
Lemma active_Forall (P : GptEntry → Prop) l : Forall P l → Forall P (active l).
Proof. rewrite active_prefix. apply Forall_take. Qed.

Lemma check_each_spec h idx l :
  Forall (λ e, u64_ok (e_first e) ∧ 0 ≤ e_last e < 2 ^ 64 - 1) l →
  match check_each h idx l with
  | Ok _ => Forall (entry_valid h) l
  | Err _ => ¬ Forall (entry_valid h) l
  | Panic => False
  end.
Proof.
  intros Hl. revert idx. induction Hl as [|e l [Hf Hla] Hl IH]; intros idx; [by constructor|].
  simpl. rewrite arith_ok, ok_bind by lia. rewrite !Z.gtb_ltb.
  destruct (Z.ltb_spec (e_last e + 1) (e_first e)); [by cbn; inversion 1 as [|?? []]; lia|].
  destruct (Z.ltb_spec (h_last h) (e_last e)); [by cbn; inversion 1 as [|?? []]; lia|].
  destruct (Z.ltb_spec (e_first e) (h_first h)); [by cbn; inversion 1 as [|?? []]; lia|]. cbn [orb].
  case_bool_decide; [by inversion 1 as [|?? []]|].
  case_bool_decide; [by inversion 1 as [|?? []]|].
  specialize (IH (idx + 1)). destruct (check_each h (idx + 1) l); try done.
  - constructor; [split; try done; lia|done].
  - intros HF. inversion HF. contradiction.
Qed.

(** Neighbours do not overlap. *)
Definition adjacent (l : list GptEntry) : Prop :=
  ∀ k x y, l !! k = Some x → l !! S k = Some y → e_last x < e_first y.

Lemma adjacent_cons x y l : adjacent (x :: y :: l) ↔ e_last x < e_first y ∧ adjacent (y :: l).
Proof.
  split.
  - intros H. split; [by apply (H O)|]. intros k. apply (H (S k)).
  - intros [? H] [|k] a b; simpl; [by intros; simplify_eq|]. apply (H k).
Qed.

(** The entries at the given indices. *)
Definition ents (es : list GptEntry) (idx : list Z) : list GptEntry :=
  omap (λ v, es !! Z.to_nat v) idx.
Definition indexes (es : list GptEntry) (v : Z) : Prop := is_Some (es !! Z.to_nat v).

Lemma check_overlap_spec es n idx :
  (n < length idx)%nat → Forall (indexes es) (take (S n) idx) →
  match check_overlap es n idx with
  | Ok _ => adjacent (ents es (take (S n) idx))
  | Err _ => ¬ adjacent (ents es (take (S n) idx))
  | Panic => False
  end.
Proof.
  revert idx. induction n as [|n IH]; intros idx Hl HF.
  - destruct idx as [|v idx]; [simpl in Hl; lia|]. unfold ents. cbn [take omap list_omap check_overlap].
    destruct (es !! Z.to_nat v); by intros [|k] x y.
  - destruct idx as [|p [|q idx]]; simpl in Hl; try lia.
    cbn [take] in HF |- *. rewrite !Forall_cons in HF. destruct HF as ([x Hx] & [y Hy] & HF).
    cbn [check_overlap head tail unwrap]. rewrite !ok_bind, Hx, Hy. cbn [unwrap]. rewrite !ok_bind.
    unfold ents. cbn [omap list_omap]. rewrite Hx, Hy. rewrite Z.geb_leb.
    pose proof (adjacent_cons x y (omap (λ v, es !! Z.to_nat v) (take n idx))) as Hadj.
    destruct (Z.leb_spec (e_first y) (e_last x)); [rewrite Hadj; lia|].
    specialize (IH (q :: idx)). cbn [take] in IH. unfold ents in IH. cbn [omap list_omap] in IH.
    rewrite Hy in IH. specialize (IH ltac:(simpl; lia) ltac:(constructor; [by eexists|done])).
    destruct (check_overlap es n (q :: idx)); rewrite ?Hadj; tauto.
Qed.

(** An ascending list is cut in two by a downward closed predicate. *)
Lemma sorted_filter {A} (R : A → A → Prop) (P : A → Prop) `{!∀ x, Decision (P x)} l :
  (∀ x y, R x y → P y → P x) → StronglySorted R l →
  l = filter P l ++ filter (λ x, ¬ P x) l.
Proof.
  intros HP. induction 1 as [|x l _ IH HR]; [done|]. rewrite !filter_cons.
  destruct (decide (P x)) as [Hx|Hx].
  - rewrite (decide_False (P := ¬ P x)) by tauto. simpl. by f_equal.
  - rewrite (decide_True (P := ¬ P x)) by done.
    assert (filter P l = []) as Hnil.
    { clear IH. induction HR as [|y l' Hy _ IH]; [done|]. rewrite filter_cons_False by eauto. done. }
    rewrite Hnil in IH |- *. simpl in *. by f_equal.
Qed.

Lemma pairwise_perm {A} (R : A → A → Prop) l l' : l ≡ₚ l' → pairwise R l → pairwise R l'.
Proof.
  intros Hp H. symmetry in Hp. apply Permutation_inj in Hp as [_ (f & Hinj & Hf)].
  intros i j x y Hij Hi Hj. rewrite Hf in Hi, Hj. eapply H; [|done..]. by intros ?%Hinj.
Qed.

Lemma adjacent_disjoint l :
  StronglySorted (λ x y, e_first x ≤ e_first y) l → adjacent l → pairwise disjoint l.
Proof.
  intros Hs Ha. assert (Hlt : ∀ i j x y, (i < j)%nat → l !! i = Some x → l !! j = Some y →
    e_last x < e_first y).
  { induction Hs as [|z l Hs IH HF]; [done|].
    assert (Ha' : adjacent l) by (intros k; apply (Ha (S k))).
    intros [|i] [|j] x y Hij Hi Hj; simpl in *; try lia; [|eapply (IH Ha' i j); eauto with lia].
    simplify_eq. destruct l as [|w l]; [done|]. pose proof (Ha O x w eq_refl eq_refl).
    destruct j as [|j]; simpl in Hj; simplify_eq; [done|].
    inversion Hs as [|?? _ Hw]; subst. rewrite Forall_lookup in Hw. specialize (Hw _ _ Hj). lia. }
  intros i j x y Hij Hi Hj. unfold disjoint. destruct (decide (i < j)%nat).
  - left. by apply (Hlt i j).
  - right. apply (Hlt j i); try done. lia.
Qed.

Lemma key_below es v :
  index_key es v < 2 ^ 64 - 1 → ∃ e, es !! Z.to_nat v = Some e ∧ index_key es v = e_first e.
Proof.
  unfold index_key. destruct (es !! Z.to_nat v) as [e|]; [|lia].
  destruct (is_null e); [lia|]. eauto.
Qed.

Section Overlap.
Context `{!UnstableSort}.
Variable es : list GptEntry.
Abbreviation M := (2 ^ 64 - 1).
Abbreviation a := (length (active es)).
Hypothesis Hlen : (length es ≤ 128)%nat.
Hypothesis Hfirst : Forall (λ e, e_first e < M) (active es).

Lemma key_active k : (k < a)%nat → index_key es (Z.of_nat k) < M.
Proof.
  intros Hk. destruct (lookup_lt_is_Some_2 (active es) k Hk) as [e He].
  pose proof (active_not_null es) as Hn. rewrite Forall_lookup in Hn, Hfirst.
  unfold index_key. rewrite Nat2Z.id, (active_lookup _ _ _ He), (Hn _ _ He). by eapply Hfirst.
Qed.

Lemma key_dense k : dense es → (a ≤ k)%nat → index_key es (Z.of_nat k) = M.
Proof.
  intros Hd Hk. unfold index_key. rewrite Nat2Z.id. destruct (es !! k) as [e|] eqn:E; [|done].
  unfold dense in Hd. rewrite Forall_lookup in Hd. rewrite (Hd (k - a)%nat e); [done|].
  rewrite lookup_drop. by replace (a + (k - a))%nat with k by lia.
Qed.

Let below (v : Z) : Prop := index_key es v < M.

Lemma sorted_cut :
  sorted_indices es = filter below (sorted_indices es) ++ filter (λ v, ¬ below v) (sorted_indices es).
Proof.
  apply (sorted_filter (λ x y, index_key es x ≤ index_key es y)).
  - unfold below. intros. lia.
  - apply sort_sorted.
Qed.

Lemma filter_all {A} (P : A → Prop) `{!∀ x, Decision (P x)} l : Forall P l → filter P l = l.
Proof. induction 1; [done|]. rewrite filter_cons_True by done. by f_equal. Qed.
Lemma filter_none {A} (P : A → Prop) `{!∀ x, Decision (P x)} l :
  Forall (λ x, ¬ P x) l → filter P l = [].
Proof. induction 1; [done|]. by rewrite filter_cons_False. Qed.

Lemma below_perm :
  filter below (sorted_indices es) ≡ₚ
    (Z.of_nat <$> seq 0 a) ++ filter below (Z.of_nat <$> seq a (128 - a)).
Proof.
  unfold sorted_indices. rewrite (sort_perm (index_key es)).
  pose proof (active_length es). replace 128%nat with (a + (128 - a))%nat at 1 by lia.
  rewrite seq_app, fmap_app, filter_app. rewrite (filter_all below (Z.of_nat <$> seq 0 a)); [done|].
  apply Forall_fmap, Forall_seq. intros k Hk. apply key_active. lia.
Qed.

Lemma take_below : Forall below (take a (sorted_indices es)).
Proof.
  rewrite sorted_cut, take_app_le.
  - apply Forall_take. apply Forall_forall. intros v [? _]%list_elem_of_filter. done.
  - rewrite below_perm, length_app, length_fmap, length_seq. lia.
Qed.

Lemma take_dense : dense es → take a (sorted_indices es) ≡ₚ Z.of_nat <$> seq 0 a.
Proof.
  intros Hd. assert (Hf : filter below (sorted_indices es) ≡ₚ Z.of_nat <$> seq 0 a).
  { rewrite below_perm. rewrite (filter_none below (Z.of_nat <$> seq a _)); [by rewrite app_nil_r|].
    apply Forall_fmap, Forall_seq. intros k Hk. unfold below. simpl. rewrite key_dense; [lia|done|lia]. }
  rewrite sorted_cut, take_app_le by (rewrite Hf, length_fmap, length_seq; lia).
  rewrite take_ge by (rewrite Hf, length_fmap, length_seq; lia). done.
Qed.
End Overlap.

Lemma ents_seq es a :
  (a ≤ length es)%nat → ents es (Z.of_nat <$> seq 0 a) = take a es.
Proof.
  unfold ents.
  induction a as [|a IH]; intros Ha; [done|]. rewrite seq_S, fmap_app, omap_app, IH by lia.
  destruct (lookup_lt_is_Some_2 es a Ha) as [e He]. cbn. rewrite Nat2Z.id, He. symmetry.
  by apply take_S_r.
Qed.

Section Entries.
Context `{!Hasher} `{!UnstableSort}.

(** The entries a header counts. *)
Definition counted (h : GptHeader) (l : list GptEntry) : list GptEntry :=
  take (Z.to_nat (h_entries_count h)) l.

Lemma check_entries_run h l :
  Forall entry_ok l → 0 ≤ h_entries_count h ≤ 128 →
  check_entries h (entries_bytes l) =
    if zlen l <? h_entries_count h then Err (GptError EntriesTruncated)
    else if negb (h_entries_crc h =? crc32 (entries_bytes (counted h l)))
    then Err (GptError IncorrectEntriesCrc)
    else check_each h 1 (active (counted h l));;
         check_overlap (counted h l) (length (active (counted h l)) - 1) (sorted_indices (counted h l)).
Proof.
  intros Hl Hc. unfold check_entries, GPT_ENTRY_SIZE, GPT_MAX_NUM_ENTRIES.
  rewrite (proj2 (Z.leb_le _ 128)) by lia. cbn [assert_that]. rewrite ok_bind.
  rewrite sn_mul, into_unwrap, ok_bind by (unfold u64_ok; lia).
  pose proof (length_entries_bytes l Hl) as Hlen.
  destruct (Z.ltb_spec (zlen l) (h_entries_count h)) as [Hlt|Hge].
  { rewrite get_range_None by lia. done. }
  rewrite get_range_Some by lia. cbn [ok_or]. rewrite ok_bind, Z.sub_0_r.
  rewrite slice_entries_bytes by (done || lia). fold (counted h l).
  destruct (negb _); [done|]. unfold counted. rewrite new_slice_entries by by apply Forall_take.
  cbn [ok_or]. rewrite ok_bind. fold (counted h l).
  assert (Hcl : zlen (counted h l) = h_entries_count h) by (unfold counted; rewrite length_take; lia).
  rewrite index_range_ok by lia. rewrite ok_bind, Z.sub_0_r, slice_all by lia. done.
Qed.

Section Usable.
Variables (h : GptHeader) (es : list GptEntry).
Hypothesis Hlen : (length es ≤ 128)%nat.
Hypothesis Hlast : h_last h < 2 ^ 64 - 2.
Hypothesis HF : Forall (entry_valid h) (active es).
Let s := take (length (active es)) (sorted_indices es).

Lemma active_first : Forall (λ e, e_first e < 2 ^ 64 - 1) (active es).
Proof. eapply Forall_impl; [exact HF|]. intros e [[? ?] _ _]. lia. Qed.

(** The entries that the overlap check compares. *)
Lemma compared_below : Forall (λ v, index_key es v < 2 ^ 64 - 1) s.
Proof. apply take_below; [done|apply active_first]. Qed.

Lemma check_overlap_active :
  match check_overlap es (length (active es) - 1) (sorted_indices es) with
  | Ok _ => adjacent (ents es s)
  | Err _ => ¬ adjacent (ents es s)
  | Panic => False
  end.
Proof.
  pose proof (active_length es) as Ha. pose proof compared_below as Hb. unfold s in *.
  destruct (length (active es)) as [|a] eqn:E; [by intros k x y|].
  replace (S a - 1)%nat with a by lia. apply check_overlap_spec.
  - unfold sorted_indices. rewrite (sort_perm (index_key es)), length_fmap, length_seq. lia.
  - eapply Forall_impl; [exact Hb|]. intros v Hv. apply key_below in Hv as (e & He & _). by exists e.
Qed.

Lemma ents_sorted : StronglySorted (λ x y, e_first x ≤ e_first y) (ents es s).
Proof.
  pose proof compared_below as Hb.
  assert (Hs : StronglySorted (λ x y, index_key es x ≤ index_key es y) s).
  { pose proof (sort_sorted (index_key es) (Z.of_nat <$> seq 0 128)) as Hs.
    fold (sorted_indices es) in Hs. unfold s.
    rewrite <-(take_drop (length (active es)) (sorted_indices es)) in Hs.
    by eapply StronglySorted_app_1_l. }
  induction Hs as [|v l Hs IH Hv]; [constructor|]. rewrite Forall_cons in Hb. destruct Hb as [Hv0 Hb].
  apply key_below in Hv0 as (e & He & Ek). unfold ents. cbn [omap list_omap]. rewrite He.
  constructor; [by apply IH|]. clear IH Hs. induction Hv as [|w l Hw _ IH]; [constructor|].
  rewrite Forall_cons in Hb. destruct Hb as [Hw0 Hb].
  apply key_below in Hw0 as (e' & He' & Ek'). unfold ents. cbn [omap list_omap]. rewrite He'.
  constructor; [lia|by apply IH].
Qed.

Lemma ents_perm : dense es → ents es s ≡ₚ active es.
Proof.
  intros Hd. unfold s.
  assert (Hp : ents es (take (length (active es)) (sorted_indices es)) ≡ₚ
               ents es (Z.of_nat <$> seq 0 (length (active es)))).
  { unfold ents. by rewrite (take_dense es Hlen active_first Hd). }
  rewrite Hp.
  rewrite ents_seq by apply active_length. by rewrite <-active_prefix.
Qed.
End Usable.
End Entries.

(** ** Properties *)

Lemma check_each_sound h idx l :
  Forall (λ e, u64_ok (e_last e)) l → check_each h idx l = Ok tt → Forall (entry_valid h) l.
Proof.
  intros Hl. revert idx. induction Hl as [|e l He Hl IH]; intros idx; [by constructor|]. simpl.
  destruct (decide (e_last e = 2 ^ 64 - 1)) as [->|Hne]; [by rewrite arith_panic by lia|].
  unfold u64_ok in He. rewrite arith_ok, ok_bind by lia. rewrite !Z.gtb_ltb.
  destruct (Z.ltb_spec (e_last e + 1) (e_first e)); [done|].
  destruct (Z.ltb_spec (h_last h) (e_last e)); [done|].
  destruct (Z.ltb_spec (e_first e) (h_first h)); [done|]. cbn [orb].
  do 2 (case_bool_decide; [done|]). intros Hc. constructor; [split; try done; lia|by eapply IH].
Qed.

Section Props.
Context `{!Hasher} `{!UnstableSort}.

(** What [check_entries] verifies of a table. *)
Record table_valid (h : GptHeader) (l : list GptEntry) : Prop := {
  tv_count : h_entries_count h ≤ zlen l;
  tv_crc : h_entries_crc h = crc32 (entries_bytes (counted h l));
  tv_entries : Forall (entry_valid h) (active (counted h l));
}.

Lemma counted_length h l : 0 ≤ h_entries_count h ≤ 128 → (length (counted h l) ≤ 128)%nat.
Proof. intros. unfold counted. rewrite length_take. lia. Qed.

Lemma check_entries_sound h l :
  Forall entry_ok l → 0 ≤ h_entries_count h ≤ 128 → h_last h < 2 ^ 64 - 2 →
  check_entries h (entries_bytes l) = Ok tt →
  table_valid h l ∧ (dense (counted h l) → pairwise disjoint (active (counted h l))).
Proof.
  intros Hl Hc Hlast. rewrite check_entries_run by done.
  destruct (Z.ltb_spec (zlen l) (h_entries_count h)) as [|Hge]; [done|].
  destruct (Z.eqb_spec (h_entries_crc h) (crc32 (entries_bytes (counted h l)))) as [Ecrc|]; [|done].
  cbn [negb]. intros [[] [Hce Hov]]%bind_Ok.
  assert (HF : Forall (entry_valid h) (active (counted h l))).
  { eapply check_each_sound; [|exact Hce]. apply active_Forall, Forall_take.
    eapply Forall_impl; [exact Hl|]. by intros e []. }
  split; [by split|]. intros Hd.
  pose proof (check_overlap_active h (counted h l) (counted_length h l Hc) Hlast HF) as Ho.
  rewrite Hov in Ho. eapply pairwise_perm; [eapply ents_perm; try done|].
  - by apply counted_length.
  - apply adjacent_disjoint; [|done]. eapply ents_sorted; try done. by apply counted_length.
Qed.

Lemma check_entries_no_panic h l :
  Forall entry_ok l → 0 ≤ h_entries_count h ≤ 128 → h_last h < 2 ^ 64 - 2 →
  Forall (λ e, e_last e < 2 ^ 64 - 1) (active (counted h l)) →
  no_panic (check_entries h (entries_bytes l)).
Proof.
  intros Hl Hc Hlast Hmax. unfold no_panic. rewrite check_entries_run by done.
  destruct (zlen l <? h_entries_count h); [done|]. destruct (negb _); [done|].
  pose proof (check_each_spec h 1 (active (counted h l))) as Hce.
  assert (Hr : Forall (λ e, u64_ok (e_first e) ∧ 0 ≤ e_last e < 2 ^ 64 - 1) (active (counted h l))).
  { apply Forall_lookup. intros k e Hk. rewrite Forall_lookup in Hmax. specialize (Hmax _ _ Hk).
    apply active_lookup in Hk. unfold counted in Hk. rewrite lookup_take_decide in Hk.
    case_decide; [|done]. rewrite Forall_lookup in Hl. destruct (Hl _ _ Hk) as [_ _ ? [? _] _ _]. split; [done|lia]. }
  specialize (Hce Hr). destruct (check_each _ _ _); try done. rewrite ok_bind.
  pose proof (check_overlap_active h (counted h l) (counted_length h l Hc) Hlast Hce) as Ho.
  by destruct (check_overlap _ _ _).
Qed.

Lemma check_entries_complete h l :
  Forall entry_ok l → 0 ≤ h_entries_count h ≤ 128 → h_last h < 2 ^ 64 - 2 →
  table_valid h l → dense (counted h l) → pairwise disjoint (active (counted h l)) →
  Forall (λ e, e_first e ≤ e_last e) (active (counted h l)) →
  check_entries h (entries_bytes l) = Ok tt.
Proof.
  intros Hl Hc Hlast [Hge Hcrc HF] Hd Hp Hne. rewrite check_entries_run by done.
  rewrite (proj2 (Z.ltb_ge _ _)) by done. rewrite <-Hcrc, Z.eqb_refl. cbn [negb].
  pose proof (check_each_spec h 1 (active (counted h l))) as Hce.
  assert (Hr : Forall (λ e, u64_ok (e_first e) ∧ 0 ≤ e_last e < 2 ^ 64 - 1) (active (counted h l))).
  { apply Forall_lookup. intros k e Hk. rewrite Forall_lookup in HF. destruct (HF _ _ Hk) as [[? ?] _ _].
    apply active_lookup in Hk. unfold counted in Hk. rewrite lookup_take_decide in Hk.
    case_decide; [|done]. rewrite Forall_lookup in Hl. destruct (Hl _ _ Hk) as [_ _ ? [? _] _ _]. split; [done|lia]. }
  specialize (Hce Hr). destruct (check_each _ _ _) as [[]| |]; try done. rewrite ok_bind.
  pose proof (check_overlap_active h (counted h l) (counted_length h l Hc) Hlast Hce) as Ho.
  pose proof (ents_sorted h (counted h l) (counted_length h l Hc) Hlast HF) as Hs.
  pose proof (ents_perm h (counted h l) (counted_length h l Hc) Hlast HF Hd) as Hpm.
  set (L := ents (counted h l) _) in *.
  destruct (check_overlap _ _ _) as [[]| |]; try done. exfalso. apply Ho. intros k x y Hx Hy.
  symmetry in Hpm. pose proof (pairwise_perm _ _ _ Hpm Hp) as HpL.
  rewrite Hpm in Hne. rewrite Forall_lookup in Hne. pose proof (Hne _ _ Hx). pose proof (Hne _ _ Hy).
  destruct (HpL k (S k) x y ltac:(lia) Hx Hy) as [|Hyx]; [done|].
  assert (e_first x ≤ e_first y); [|lia].
  clear -Hs Hx Hy. revert k Hx Hy. induction Hs as [|z l' Hs IH HF]; intros [|k] Hx Hy; simpl in *; try done.
  - simplify_eq. rewrite Forall_lookup in HF. by eapply HF.
  - by eapply IH.
Qed.

End Props.
