(* ===== verification/GptProps.v ===== *)
(** * libstorage: the properties of GPT validation and of partitions *)

From stdpp Require Import sorting.
From S2P Require Import Prelude SafeMath LibError Text Block BlockSpec BlockRead BlockWrite.
From S2P Require Import Disk Crc GptData Gpt GptBuild GptCodec GptCheck.
Import SafeNum.

(** ** Examples

    A device of seventy blocks of 512 bytes, and tables on it. *)
Definition ex_info : BlockInfo := mkInfo 512 70 8.
Definition ex_entry (g first last : Z) (name : list Z) : GptEntry :=
  mkEntry (replicate 16 1) (replicate 16 g) first last 0
    (splice (replicate 36 0) 0 (encode_utf16 name)).
Definition ex_header (es : list GptEntry) : GptHeader :=
  let h := mkHeader GPT_MAGIC 0 92 0 0 1 69 34 36 (replicate 16 7) 2 (zlen es) 128
             (crc32 (H := StandardHasher) (entries_bytes es)) in
  update_crc (H := StandardHasher) h.
Definition ex_table : list GptEntry :=
  [ex_entry 3 36 36 (str "b"); ex_entry 4 34 35 (str "a"); null_entry].

(** ** Entries *)


Lemma sorted_two (key : Z → Z) l x y :
  l ≡ₚ [x; y] → key y < key x → StronglySorted (λ v w, key v ≤ key w) l → l = [y; x].
Proof.
  intros Hp Hk Hs. symmetry in Hp. apply Permutation_length_2_inv in Hp as [->| ->]; [|done].
  inversion Hs as [|?? _ HF]; subst. rewrite Forall_singleton in HF. lia.
Qed.

Section Missed.
Context `{!Hasher} `{!UnstableSort}.
Variables (h : GptHeader) (a c null b : GptEntry).
Let es := [a; c; null; b].
Hypothesis Hnull : is_null null = true.
Hypothesis Ha : is_null a = false.
Hypothesis Hc : is_null c = false.
Hypothesis Hb : is_null b = false.
Hypothesis Hba : e_first b < e_first a.
Hypothesis Hac : e_first a < e_first c < 2 ^ 64.

Lemma missed_indices : take 2 (sorted_indices es) = [3; 0].
Proof.
  set (P := λ v, index_key es v < e_first c).
  assert (Hcut := sorted_filter (λ x y, index_key es x ≤ index_key es y) P (sorted_indices es)
    ltac:(unfold P; intros; lia) (sort_sorted _ _)).
  assert (Hp : filter P (sorted_indices es) ≡ₚ [0; 3]).
  { unfold sorted_indices. rewrite (sort_perm (index_key es)).
    change (Z.of_nat <$> seq 0 128) with (0 :: 1 :: 2 :: 3 :: (Z.of_nat <$> seq 4 124)).
    assert (Hk : ∀ n e, es !! Z.to_nat n = Some e → is_null e = false → index_key es n = e_first e).
    { intros n e He Hn. unfold index_key. by rewrite He, Hn. }
    rewrite filter_cons_True by (unfold P; rewrite (Hk 0 a) by done; lia).
    rewrite filter_cons_False by (unfold P; rewrite (Hk 1 c) by done; lia).
    rewrite filter_cons_False by (unfold P, index_key; simpl; rewrite Hnull; lia).
    rewrite filter_cons_True by (unfold P; rewrite (Hk 3 b) by done; lia).
    rewrite (filter_none P); [done|]. apply Forall_fmap, Forall_seq. intros k Hk4.
    unfold P, index_key. simpl. rewrite Nat2Z.id, lookup_ge_None_2 by (simpl; lia). lia. }
  assert (Hf : filter P (sorted_indices es) = [3; 0]).
  { apply (sorted_two (index_key es)); [done| |].
    - unfold index_key. simpl. rewrite Ha, Hb. lia.
    - eapply StronglySorted_app_1_l. rewrite <-Hcut. apply sort_sorted. }
  rewrite Hcut, Hf. done.
Qed.
End Missed.

(** The overlap check can miss an overlap. It sorts all entries but
    compares only as many neighbours as there are entries before the first null
    one, so that an entry behind a null entry can take the place of one in front
    of it: [b], which lies before the other two, hides that [a] and [c] overlap,
    whatever the order in which the sort leaves equal keys. *)
Theorem gpt_overlap_missed `{!Hasher} `{!UnstableSort} h a c null b :
  let es := [a; c; null; b] in
  Forall entry_ok es → h_entries_count h = 4 → h_entries_crc h = crc32 (entries_bytes es) →
  Forall (entry_valid h) [a; c] → h_last h < 2 ^ 64 - 2 →
  is_null a = false → is_null c = false → is_null null = true → is_null b = false →
  e_last b < e_first a → e_first b < e_first a < e_first c →
  check_entries h (entries_bytes es) = Ok tt.
Proof.
  intros es Hok Hcnt Hcrc HF Hlast Ha Hc Hn Hb Hlt Hord.
  assert (Hcd : counted h es = es) by (unfold counted; by rewrite Hcnt).
  assert (Hact : active es = [a; c]) by (simpl; by rewrite Ha, Hc, Hn).
  rewrite check_entries_run, Hcd by (done || lia). rewrite Hcnt. cbn [length]. cbn [Z.of_nat Z.ltb].
  rewrite (proj2 (Z.ltb_ge _ _)) by (simpl; lia). rewrite <-Hcrc, Z.eqb_refl. cbn [negb]. rewrite Hact.
  assert (Hr : Forall (λ e, u64_ok (e_first e) ∧ 0 ≤ e_last e < 2 ^ 64 - 1) [a; c]).
  { unfold es in Hok. rewrite !Forall_cons in Hok. rewrite !Forall_cons in HF. destruct Hok as (Ka & Kc & _), HF as (Va & Vc & _).
    destruct Ka, Kc, Va, Vc. unfold u64_ok in *. repeat constructor; cbn; lia. }
  pose proof (check_each_spec h 1 [a; c] Hr) as Hce. destruct (check_each h 1 [a; c]) as [[]| |]; try done.
  rewrite ok_bind. cbn [length Nat.sub].
  pose proof (missed_indices a c null b Hn Ha Hc Hb) as Hs.
  rewrite Forall_cons in HF. destruct HF as [_ HF]. rewrite Forall_singleton in HF.
  specialize (Hs ltac:(lia) ltac:(destruct HF; lia)).
  fold es in Hs. destruct (sorted_indices es) as [|v [|w r]]; try discriminate Hs. injection Hs as -> ->.
  cbn [check_overlap head tail unwrap]. rewrite !ok_bind. simpl.
  by rewrite Z.geb_leb, (proj2 (Z.leb_gt _ _)) by lia.
Qed.

Lemma gpt_overlap_missed_witness :
  let a := ex_entry 3 35 36 (str "a") in let c := ex_entry 4 36 36 (str "c") in
  let b := ex_entry 5 34 34 (str "b") in let es := [a; c; null_entry; b] in
  check_entries (H := StandardHasher) (H0 := MergeSort) (ex_header es) (entries_bytes es) = Ok tt ∧
  ¬ disjoint a c.
Proof.
  intros a c b es. split.
  - apply (@gpt_overlap_missed StandardHasher MergeSort); try by_compute.
    repeat constructor; cbn; try lia; done.
  - unfold disjoint. cbn. lia.
Defined.

(** ** Headers *)

Section HeaderProps.
Context `{!Hasher}.

(** Validating a header decides the layout of the disk: a header is
    accepted exactly if its magic, sizes and checksum are right, the disk has
    room for two headers and twice 128 entries, the usable blocks lie between
    the space reserved for the primary and the secondary GPT, and its entries
    lie in the space reserved for them, in front of or behind the usable blocks. *)
Theorem gpt_check_header_spec i h p :
  geometry_ok i → header_ok h → h_last h < 2 ^ 64 - 1 →
  match check_header i h p with
  | Ok _ => header_valid i h p
  | Err _ => ¬ header_valid i h p
  | Panic => False
  end.
Proof. apply check_header_spec. Qed.

(** With overflow checks, a header that is otherwise well formed, checksum
    included, but states [2^64 - 1] as its last usable block makes the
    validation panic instead of fail. *)
Theorem gpt_last_block_overflow i h p :
  geometry_ok i → 16384 mod block_size i = 0 → 2 * (reserved i + 1) + 1 ≤ num_blocks i →
  h_magic h = GPT_MAGIC → h_crc32 h = calculate_header_crc h → h_size h = 92 →
  h_entries_size h = 128 → h_last h = 2 ^ 64 - 1 → check_header i h p = Panic.
Proof. apply check_header_panics. Qed.
End HeaderProps.

Lemma gpt_check_header_spec_witness :
  header_valid (H := StandardHasher) ex_info (ex_header ex_table) true.
Proof.
  pose proof (@gpt_check_header_spec StandardHasher ex_info (ex_header ex_table) true) as H.
  specialize (H ltac:(split; by_compute) ltac:(by_compute) ltac:(by_compute)).
  assert (Hc : check_header (H := StandardHasher) ex_info (ex_header ex_table) true = Ok tt) by by_compute.
  rewrite Hc in H. exact H.
Defined.

Lemma gpt_last_block_overflow_witness :
  check_header (H := StandardHasher) ex_info
    (update_crc (H := StandardHasher) (h_set_last (2 ^ 64 - 1) (ex_header ex_table))) true = Panic.
Proof.
  apply (@gpt_last_block_overflow StandardHasher); try by_compute.
Defined.

(** ** Ranges of a partition *)

Section Ranges.
Context `{!Hasher}.
Variables (i : BlockInfo) (h : GptHeader) (pr : bool).
Hypothesis Hg : geometry_ok i.
Hypothesis Hh : header_valid i h pr.
Hypothesis Hroom : num_blocks i * block_size i < 2 ^ 64.
Abbreviation bs := (block_size i).

(** The bytes of a partition. *)
Definition lo (e : GptEntry) : Z := e_first e * bs.
Definition hi (e : GptEntry) : Z := (e_last e + 1) * bs.

Lemma entry_bounds e :
  entry_valid h e →
  0 < bs ∧ (reserved i + 2) * bs ≤ lo e ∧ lo e ≤ hi e ∧ hi e ≤ (num_blocks i - reserved i - 1) * bs ∧
  0 ≤ e_first e ∧ 0 ≤ e_last e ∧ e_first e ≤ e_last e + 1 ∧ e_last e + 1 ≤ num_blocks i ∧
  0 ≤ e_first e * bs ∧ e_first e * bs ≤ (e_last e + 1) * bs ∧
  (e_last e + 1) * bs ≤ num_blocks i * bs.
Proof.
  intros [[? ?] _ _]. destruct Hg as [Hbs [? ?]], Hh as [_ _ _ _ _ _ [? ?] ? _ _].
  pose proof (reserved_bound i Hbs). unfold lo, hi. split_and!; try lia; try nia.
Qed.

Lemma absolute_range_val e :
  entry_valid h e → absolute_range (partition_new e bs) = Ok (lo e, hi e).
Proof.
  intros He. destruct (entry_bounds e He) as (? & ? & ? & ? & ? & ? & ? & ? & ? & ? & ?).
  unfold absolute_range, partition_new, lo, hi in *. cbn [p_entry p_block_size].
  assert (num_blocks i ≤ num_blocks i * bs) by nia.
  rewrite sn_mul, into_u64_val, ok_bind by (unfold u64_ok; lia).
  rewrite sn_add by (unfold u64_ok; lia). by rewrite sn_mul, into_u64_val by (unfold u64_ok; lia).
Qed.

Lemma partition_size_val e :
  entry_valid h e → partition_size (partition_new e bs) = Ok (hi e - lo e).
Proof.
  intros He. destruct (entry_bounds e He) as (? & ? & ? & ? & ? & ? & ? & ? & ? & ? & ?).
  unfold partition_size, blocks, partition_new, lo, hi in *. cbn [p_entry p_block_size].
  assert (num_blocks i ≤ num_blocks i * bs) by nia.
  rewrite sn_add, sn_sub, into_u64_val, ok_bind by (unfold u64_ok; lia).
  rewrite sn_mul, into_u64_val by (unfold u64_ok; lia). f_equal. lia.
Qed.

Lemma check_range_val e off size :
  entry_valid h e → 0 ≤ off → 0 ≤ size →
  match partition_check_range (partition_new e bs) off size with
  | Ok a => a = lo e + off ∧ lo e + off + size ≤ hi e
  | Err _ => hi e < lo e + off + size
  | Panic => False
  end.
Proof.
  intros He Ho Hs. destruct (entry_bounds e He) as (? & ? & ? & ? & ? & ? & ? & ? & ? & ? & ?).
  unfold partition_check_range. destruct (decide (u64_ok (off + size))) as [Hf|Hf].
  2: { rewrite sn_add_over by done. simpl. unfold u64_ok, lo, hi in *. lia. }
  rewrite sn_add, into_u64_val, ok_bind by done. rewrite partition_size_val, ok_bind by done.
  rewrite Z.gtb_ltb. destruct (Z.ltb_spec (hi e - lo e) (off + size)); [lia|].
  rewrite absolute_range_val, ok_bind by done. unfold lo, hi in *.
  rewrite sn_add, into_u64_val by (unfold u64_ok; lia). lia.
Qed.
End Ranges.

(** On a validated GPT a range of a partition is accepted exactly if it
    lies in the partition, and then its absolute offset is that of the
    partition plus the offset; the partition's bytes lie in the usable blocks,
    clear of MBR and of both GPTs, and are not those of another partition. *)
Theorem gpt_partition_range_exact `{!Hasher} i h pr e off size :
  geometry_ok i → header_valid i h pr → num_blocks i * block_size i < 2 ^ 64 →
  entry_valid h e → 0 ≤ off → 0 ≤ size →
  match partition_check_range (partition_new e (block_size i)) off size with
  | Ok a => a = lo i e + off ∧ lo i e + off + size ≤ hi i e
  | Err _ => hi i e < lo i e + off + size
  | Panic => False
  end ∧
  (reserved i + 2) * block_size i ≤ lo i e ∧
  hi i e ≤ (num_blocks i - 1 - reserved i) * block_size i ∧
  (∀ e', disjoint e e' → hi i e ≤ lo i e' ∨ hi i e' ≤ lo i e).
Proof.
  intros Hg Hh Hr He Ho Hs. split; [by eapply check_range_val|].
  destruct (entry_bounds i h pr Hg Hh e He) as (Hbs & ? & _ & ? & _).
  split_and!; [done|lia|]. intros e' Hd. unfold lo, hi, disjoint in *. destruct Hd; nia.
Qed.

Lemma gpt_partition_range_exact_witness :
  match partition_check_range (partition_new (ex_entry 4 34 35 (str "a")) 512) 1000 24 with
  | Ok a => a = 34 * 512 + 1000
  | _ => False
  end.
Proof.
  pose proof (@gpt_partition_range_exact StandardHasher ex_info (ex_header ex_table) true
    (ex_entry 4 34 35 (str "a")) 1000 24) as H.
  assert (Hh : header_valid (H := StandardHasher) ex_info (ex_header ex_table) true).
  { split; by_compute. }
  assert (He : entry_valid (ex_header ex_table) (ex_entry 4 34 35 (str "a"))).
  { split; by_compute. }
  destruct (H ltac:(split; by_compute) Hh ltac:(by_compute) He ltac:(lia) ltac:(lia)) as [H1 _].
  change 512 with (block_size ex_info). destruct (partition_check_range _ _ _).
  - exact (proj1 H1).
  - vm_compute in H1. discriminate.
  - exact H1.
Defined.

(** ** Reads and writes of a partition *)

Section PartitionIo.
Context {D : Type} `{!BlockIo D} `{!BlockIoSpec D} `{!Hasher}.

(** A load buffer with a validated table for a device. *)
Record loaded (i : BlockInfo) (h : GptHeader) (g : Gpt) : Prop := {
  ld_size : lb_block_size (gpt_load g) = Some (block_size i);
  ld_geometry : geometry_ok i;
  ld_header : header_valid i h true;
  ld_entries : Forall (entry_valid h) (active (entries_ref Primary g));
  ld_disjoint : pairwise disjoint (active (entries_ref Primary g));
}.

Lemma name_bytes_no_panic n l : no_panic (name_bytes n l).
Proof.
  revert n. induction l as [|o l IH]; intros n; [done|]. simpl. case_if; [done|].
  case_if; [|done]. apply bind_no_panic; [apply IH|done].
Qed.

Lemma find_entry_cases part bs l :
  match find_entry part bs l with
  | Ok p => ∃ e, e ∈ l ∧ p = partition_new e bs ∧
                 name_to_str (GPT_NAME_LEN_U16 * 2) e = Ok (utf8_bytes part)
  | Err _ => True
  | Panic => False
  end.
Proof.
  induction l as [|e l IH]; [done|]. simpl.
  pose proof (name_bytes_no_panic (GPT_NAME_LEN_U16 * 2) (decode_utf16 (e_name e))) as Hn.
  fold (name_to_str (GPT_NAME_LEN_U16 * 2) e) in Hn.
  destruct (name_to_str _ e) as [s|err|] eqn:E; try done. rewrite ok_bind.
  case_bool_decide as Hs.
  - exists e. split; [by left|]. by rewrite Hs in E.
  - destruct (find_entry part bs l); try done. destruct IH as (e' & ? & ?). exists e'. split; [by right|done].
Qed.

(** What the range check of a loaded GPT says of a request. *)
Lemma gpt_check_range_cases i h g part off size :
  loaded i h g → num_blocks i * block_size i < 2 ^ 63 → 0 ≤ off → 0 ≤ size < 2 ^ 64 →
  match gpt_check_range g part off size with
  | Ok a => ∃ e, e ∈ active (entries_ref Primary g) ∧ entry_valid h e ∧
                 find_partition g part = Ok (partition_new e (block_size i)) ∧
                 a = lo i e + off ∧ lo i e + off + size ≤ hi i e
  | Err _ => True
  | Panic => False
  end.
Proof.
  intros [Hs Hg Hh HF _] Hr Ho Hsz.
  assert (Hfind : find_partition g part =
    find_entry part (block_size i) (active (entries_ref Primary g))).
  { unfold find_partition, gpt_entries, check_valid. by rewrite Hs. }
  unfold gpt_check_range. rewrite Hfind.
  pose proof (find_entry_cases part (block_size i) (active (entries_ref Primary g))) as Hc.
  destruct (find_entry _ _ _) as [p| |]; try done. destruct Hc as (e & He & -> & _).
  rewrite Forall_forall in HF. specialize (HF e He).
  rewrite ok_bind, try_int_ok, ok_bind by lia.
  pose proof (check_range_val i h true Hg Hh ltac:(lia) e off size HF Ho ltac:(lia)) as Hv.
  destruct (partition_check_range _ _ _); try done. destruct Hv as [-> ?]. by exists e.
Qed.

(** A write in whole blocks touches no other block. *)
Lemma hull_in_blocks i a b off n :
  0 < block_size i → a mod block_size i = 0 → b mod block_size i = 0 → 0 ≤ off → 0 < n →
  a + off + n ≤ b → a ≤ hull_lo i (a + off) ∧ hull_hi i (a + off) n ≤ b.
Proof.
  intros Hbs Ha Hb Ho Hn Hle. split.
  - pose proof (hull_lo_mono i a (a + off) Hbs ltac:(lia)) as Hm.
    unfold hull_lo at 1 in Hm. lia.
  - unfold hull_hi. pose proof (block_end_mono i (a + off + n) b Hbs Hle).
    assert (block_end i b = b) as Hbe by (unfold block_end; rewrite Z.mod_opp_l_z by lia; lia).
    assert (hull_lo i (a + off) + block_size i ≤ block_end i b); [|lia].
    apply block_end_ge; [done| |].
    + unfold hull_lo. rewrite Zminus_mod_idemp_r, Z.sub_diag. apply Z.mod_0_l. lia.
    + unfold hull_lo. pose proof (Z.mod_pos_bound (a + off) (block_size i) Hbs). lia.
Qed.

Lemma hull_in_partition i h pr e off n :
  geometry_ok i → header_valid i h pr → entry_valid h e → 0 ≤ off → 0 < n →
  lo i e + off + n ≤ hi i e →
  lo i e ≤ hull_lo i (lo i e + off) ∧ hull_hi i (lo i e + off) n ≤ hi i e.
Proof. intros [Hbs _] _ _. apply hull_in_blocks; [done|apply Z.mod_mul; lia..]. Qed.

Lemma same_outside_slice a b x n l l' :
  same_outside a b l l' → 0 ≤ x → x + n ≤ a ∨ b ≤ x → slice l' x n = slice l x n.
Proof.
  intros [_ Hso] Hx Hab. apply list_eq. intros k. rewrite !lookup_slice. case_decide; [|done].
  apply Hso. lia.
Qed.

(** Every partition but the one at index [j] has the bytes on [C'] it has on
    [C]. *)
Definition others_kept (i : BlockInfo) (g : Gpt) (j : nat) (C C' : bytes) : Prop :=
  ∀ j' e', j' ≠ j → active (entries_ref Primary g) !! j' = Some e' →
    slice C' (lo i e') (hi i e' - lo i e') = slice C (lo i e') (hi i e' - lo i e').

Lemma outside_others i h g j e C C' :
  loaded i h g → active (entries_ref Primary g) !! j = Some e →
  same_outside (lo i e) (hi i e) C C' → others_kept i g j C C'.
Proof.
  intros [_ [Hbs _] Hh HF Hd] Hj Hso j' e' Hne Hj'. rewrite Forall_lookup in HF.
  pose proof (HF _ _ Hj) as [[? ?] _ _]. pose proof (HF _ _ Hj') as [[? ?] _ _].
  destruct (decide (0 ≤ lo i e')) as [Hlo|Hlo].
  - eapply same_outside_slice; [exact Hso|done|]. pose proof (Hd j j' e e' ltac:(done) Hj Hj') as Hdis.
    unfold disjoint, lo, hi in *. destruct Hdis; [right|left]; nia.
  - exfalso. apply Hlo. unfold lo. destruct Hh as [_ _ _ _ _ _ [? ?] _ _ _].
    pose proof (reserved_bound i Hbs). nia.
Qed.

(** A write to a partition stays in the partition: on a disk with a
    loaded, validated GPT, a write that succeeds has changed exactly the bytes
    at the offset in the partition of that name, and one that fails has left
    the disk alone or, if the device itself failed, has changed nothing outside
    the bytes of that partition. Every other partition keeps its contents, and
    nothing panics. *)
Theorem gpt_partition_write_isolated i h C g (k : Disk D) part data addr off :
  loaded i h g → disk_ok i C k → buffer_ok i addr (zlen data) → 0 < zlen data → 0 ≤ off →
  let target j e := active (entries_ref Primary g) !! j = Some e ∧
                    find_partition g part = Ok (partition_new e (block_size i)) in
  wp (write_gpt_partition g part addr off) (k, data)
    (λ _ s, ∃ j e, target j e ∧ lo i e + off + zlen data ≤ hi i e ∧
                   disk_ok i (splice C (lo i e + off) data) (fst s) ∧
                   others_kept i g j C (splice C (lo i e + off) data))
    (λ _ s, disk_ok i C (fst s) ∨
            ∃ j e C', target j e ∧ ¬ disk_quiet k ∧ disk_ok i C' (fst s) ∧
                      same_outside (lo i e) (hi i e) C C' ∧ others_kept i g j C C').
Proof.
  intros Hl Hk Hb Hd Ho target. pose proof (do_info _ _ _ Hk) as [Hbs _ _ Ht Hr].
  unfold write_gpt_partition. apply wp_bind, wp_gets. cbn [snd]. apply wp_bind, wp_lift.
  pose proof (gpt_check_range_cases i h g part off (zlen data) Hl ltac:(lia) Ho) as Hc.
  destruct Hb as [Hb1 Hb2]. pose proof Hl as [_ Hg Hh _ _].
  specialize (Hc ltac:(pose proof (ik_al _ _ (do_info _ _ _ Hk)); lia)).
  destruct (gpt_check_range g part off (zlen data)) as [a|e|]; try done; [|by left].
  destruct Hc as (e & [j Hj]%list_elem_of_lookup & Hv & Hf & -> & Hle).
  destruct (entry_bounds i h true Hg Hh e Hv) as (_ & _ & _ & ? & ? & _ & _ & _ & ? & ? & ?).
  pose proof (reserved_bound i Hbs).
  assert (lo i e = e_first e * block_size i ∧ hi i e = (e_last e + 1) * block_size i) as [? ?] by done.
  eapply wp_mono; [apply (disk_write_spec i C k data addr (lo i e + off) Hk)|..]; try done; try lia.
  - intros _ s (Hs & _ & _). exists j, e. split_and!; try done. eapply outside_others; try done.
    eapply same_outside_mono; [apply same_outside_splice|..]; lia.
  - intros err s ((C' & Hs & Hso) & Hq & _). right. exists j, e, C'.
    destruct (hull_in_partition i h true e off (zlen data) Hg Hh Hv Ho Hd Hle).
    assert (same_outside (lo i e) (hi i e) C C') by by eapply same_outside_mono.
    split_and!; try done. by eapply outside_others.
Qed.
End PartitionIo.

(** A RAM disk for the examples. *)
Definition ex_disk (C : bytes) : Disk RamBlock.RamBlockIo :=
  mkDisk (RamBlock.mk 512 8 C 0 0 None) (replicate 530 0) 100000.
Import RamBlockSpec.

Lemma ex_disk_ok C : zlen C = 70 * 512 → disk_ok ex_info C (ex_disk C).
Proof.
  intros HC. assert (Hi : info_ok ex_info C) by (split; cbn; lia). split; [done| |].
  - assert (HR : RamBlock.ram_info (RamBlock.mk 512 8 C 0 0 None) = ex_info).
    { unfold RamBlock.ram_info, ex_info. cbn [RamBlock.rb_block_size RamBlock.rb_alignment RamBlock.storage].
      by rewrite HC. }
    split_and!; [|done..]. cbn. rewrite HR. done.
  - by_compute.
Qed.

Definition ex_gpt (es : list GptEntry) : Gpt :=
  mkGpt 1000 (192 + 2 * 128 * zlen es)
    (mkLoad (Some 512) (ex_header es) (ex_header es) es es).

Lemma ex_loaded : loaded (H := StandardHasher) ex_info (ex_header ex_table) (ex_gpt ex_table).
Proof.
  split; [done|split; by_compute|split; by_compute|..].
  - cbn. repeat constructor; cbn; by_compute.
  - destruct (@check_entries_sound StandardHasher MergeSort (ex_header ex_table) ex_table) as [_ Hp];
      [by_compute..|]. apply Hp. unfold dense. by_compute.
Qed.

Definition ex_blank : bytes := replicate (70 * 512) 0.

Lemma gpt_partition_write_isolated_witness :
  wp (write_gpt_partition (ex_gpt ex_table) (str "a") 5001 3) (ex_disk (ex_blank), [1; 2; 3])
    (λ _ s, RamBlock.storage (disk_io (fst s)) = splice (ex_blank) (34 * 512 + 3) [1; 2; 3])
    (λ _ _, True).
Proof.
  assert (Hk := ex_disk_ok (ex_blank) ltac:(by_compute)).
  eapply wp_mono.
  - apply (gpt_partition_write_isolated (H := StandardHasher) ex_info (ex_header ex_table)
      (ex_blank)); [exact ex_loaded|exact Hk|split; by_compute|by_compute|lia].
  - intros _ s (j & e & [Hj Hf] & _ & [_ (_ & _ & HC) _] & _).
    destruct j as [|[|j]]; simpl in Hj; simplify_eq; exact HC.
  - done.
Defined.

(** * libstorage: partition names

    A name that is given to [GptBuilder] is found again under that name; what
    the two buffer sizes of the code do to long names. *)

Lemma decode_utf16_encode s l :
  chars_ok s → decode_utf16 (encode_utf16 s ++ l) = (Some <$> s) ++ decode_utf16 l.
Proof.
  induction 1 as [|c s Hc _ IH]; [done|]. apply is_char_spec in Hc. unfold encode_utf16 in *.
  rewrite join_fmap_cons, <-app_assoc. unfold encode_utf16_char at 1.
  destruct (Z.ltb_spec c 0x10000); cbn [app].
  - cbn [decode_utf16]. destruct (negb _) eqn:E; bools; [|lia]. by rewrite IH.
  - set (hi := 0xD800 + _). set (lo := 0xDC00 + _).
    assert (0xD800 ≤ hi < 0xDC00 ∧ 0xDC00 ≤ lo ≤ 0xDFFF ∧
            (hi - 0xD800) * 1024 + (lo - 0xDC00) + 0x10000 = c) as (? & ? & Ec).
    { unfold hi, lo. Z.div_mod_to_equations. lia. }
    cbn [decode_utf16]. lia_bools. cbn [andb negb orb].
    rewrite Ec, IH. done.
Qed.

(** The characters of a name, ended by a zero or by the end of the field. *)
Lemma name_bytes_chars n s r :
  0 ≤ n → Forall (λ c, c ≠ 0) s → head r = None ∨ head r = Some (Some 0) →
  name_bytes n ((Some <$> s) ++ r) =
    if zlen (utf8_bytes s) <=? n then Ok (utf8_bytes s) else Err InvalidInput.
Proof.
  intros Hn Hs Hr. revert n Hn. induction Hs as [|c s Hc _ IH]; intros n Hn.
  - change (utf8_bytes []) with (@nil Z). cbn [length Z.of_nat]. lia_bools.
    destruct r as [|o r]; [done|]. destruct Hr as [Hr|Hr]; simpl in Hr; simplify_eq. done.
  - rewrite utf8_bytes_cons, length_app. cbn [fmap list_fmap app name_bytes from_option id].
    rewrite (proj2 (Z.eqb_neq c 0)) by done. rewrite Nat2Z.inj_add, zlen_encode_utf8.
    destruct (Z.leb_spec (len_utf8 c) n).
    + rewrite IH by lia. destruct (Z.leb_spec (zlen (utf8_bytes s)) (n - len_utf8 c));
        [rewrite ok_bind|]; lia_bools; done.
    + by lia_bools.
Qed.

Lemma decode_zeroes k : head (decode_utf16 (replicate k 0)) = None ∨
                        head (decode_utf16 (replicate k 0)) = Some (Some 0).
Proof. destruct k; [by left|by right]. Qed.

Section Names.
Variables (name : list Z) (part_type guid : bytes) (flags first last : Z).
Hypothesis Hchars : chars_ok name.
Hypothesis Hnonzero : Forall (λ c, c ≠ 0) name.
Hypothesis Hfits : (length (encode_utf16 name) ≤ 36)%nat.
Let e := new_entry name part_type guid flags first last null_entry.

Lemma new_entry_name : e_name e = encode_utf16 name ++ replicate (36 - length (encode_utf16 name)) 0.
Proof.
  unfold e, new_entry, null_entry. cbn [e_name]. rewrite take_ge by lia. unfold splice. simpl.
  f_equal. exact (drop_replicate _ 36 0).
Qed.

Lemma new_entry_to_str n :
  0 ≤ n →
  name_to_str n e =
    if zlen (utf8_bytes name) <=? n then Ok (utf8_bytes name) else Err InvalidInput.
Proof.
  intros Hn. unfold name_to_str. rewrite new_entry_name, decode_utf16_encode by done.
  apply name_bytes_chars; [done|done|apply decode_zeroes].
Qed.

Lemma new_entry_partition_name bs :
  partition_name (partition_new e bs) =
    Ok (if zlen (utf8_bytes name) <=? 32 then Some name else None).
Proof.
  unfold partition_name, partition_new. cbn [p_decoded_name].
  rewrite new_entry_to_str by done. change GPT_NAME_LEN_U8 with 32.
  destruct (Z.leb_spec (zlen (utf8_bytes name)) 32); [|done].
  rewrite index_range_ok by (rewrite ?length_app; lia). rewrite ok_bind, Z.sub_0_r, slice_app_l by done.
  by rewrite decode_utf8_bytes.
Qed.
End Names.

Lemma utf8_bytes_inj s t : chars_ok s → chars_ok t → utf8_bytes s = utf8_bytes t → s = t.
Proof.
  intros Hs Ht E. apply decode_utf8_bytes in Hs, Ht. rewrite E in Hs. congruence.
Qed.

(** A partition is found under the name it was created with, and under no
    other, if the name has at most 36 UTF-16 units and 72 UTF-8 bytes. A name
    that is longer in UTF-8 (three bytes per unit are possible) matches nothing,
    and one of more than 32 bytes, twice the length of a GUID, is dropped from
    the [Partition] that is found. *)
Theorem gpt_name_roundtrip name part_type guid flags first last bs :
  chars_ok name → Forall (λ c, c ≠ 0) name → (length (encode_utf16 name) ≤ 36)%nat →
  let e := new_entry name part_type guid flags first last null_entry in
  (∀ part, chars_ok part →
     match_name part e = if zlen (utf8_bytes name) <=? 72 then Ok (bool_decide (part = name))
                         else Err InvalidInput) ∧
  partition_name (partition_new e bs) =
    Ok (if zlen (utf8_bytes name) <=? 32 then Some name else None).
Proof.
  intros Hc Hz Hl e. split; [|by apply new_entry_partition_name].
  intros part Hp. unfold match_name, e. rewrite new_entry_to_str by done.
  change (GPT_NAME_LEN_U16 * 2) with 72. destruct (zlen (utf8_bytes name) <=? 72); [|done].
  rewrite ok_bind. f_equal. apply bool_decide_ext. split; [|by intros ->].
  intros E. symmetry. by apply utf8_bytes_inj.
Qed.

(** Thirty-three letters: found, but without a name. *)
Lemma gpt_name_roundtrip_witness :
  let name := replicate 33 97 in
  let e := new_entry name (replicate 16 1) (replicate 16 2) 0 34 36 null_entry in
  match_name name e = Ok true ∧ partition_name (partition_new e 512) = Ok None.
Proof.
  intros name e.
  destruct (gpt_name_roundtrip name (replicate 16 1) (replicate 16 2) 0 34 36 512) as [H1 H2];
    [unfold chars_ok; by_compute|by_compute|by_compute|].
  split; [|exact H2]. unfold e. rewrite H1; [by vm_compute|unfold chars_ok; by_compute].
Defined.

(** One partition with a name that does not fit into the conversion buffer
    hides every partition behind it: the lookup fails with [InvalidInput] instead
    of going on. *)
Theorem gpt_unreadable_name_hides g bs part l1 e l2 :
  lb_block_size (gpt_load g) = Some bs → active (entries_ref Primary g) = l1 ++ e :: l2 →
  Forall (λ e', match_name part e' = Ok false) l1 → match_name part e = Err InvalidInput →
  find_partition g part = Err InvalidInput.
Proof.
  intros Hbs Ha H1 He. unfold find_partition, gpt_entries, check_valid. rewrite Hbs, Ha. cbn. clear Ha.
  induction H1 as [|e' l1 H _ IH]; simpl.
  - unfold match_name in He. destruct (name_to_str _ e) as [s|err|]; simpl in *; simplify_eq. done.
  - unfold match_name in H. destruct (name_to_str _ e') as [s|err|]; simpl in *; simplify_eq.
    rewrite H. exact IH.
Qed.

Lemma gpt_unreadable_name_hides_witness :
  let long := new_entry (replicate 25 0x4E2D) (replicate 16 1) (replicate 16 2) 0 34 34 null_entry in
  let boot := new_entry (str "boot") (replicate 16 1) (replicate 16 3) 0 35 35 null_entry in
  let h := header_of_bytes [] in
  let g := mkGpt 1000 704 (mkLoad (Some 512) h h [long; boot] [long; boot]) in
  match_name (str "boot") boot = Ok true ∧ find_partition g (str "boot") = Err InvalidInput.
Proof.
  intros long boot h g. split; [by_compute|].
  apply (gpt_unreadable_name_hides g 512 (str "boot") [] long [boot]); by_compute.
Defined.
