(* ===== verification/GptSyncProps.v ===== *)
(** * libstorage: the properties of the GPT sync *)

From S2P Require Import Prelude SafeMath LibError Text Crc Block BlockSpec BlockRead BlockWrite.
From S2P Require Import Disk GptData GptCodec GptCheck Gpt GptBuild GptProps GptSync.
Import SafeNum.

Lemma bytes_ok_splice l off d : bytes_ok l → bytes_ok d → bytes_ok (splice l off d).
Proof.
  intros Hl Hd. unfold splice. rewrite !bytes_ok_app. unfold bytes_ok in *.
  split_and!; [by apply Forall_take|done|by apply Forall_drop].
Qed.

(** ** Restored headers and tables *)

Section Crc.
Context `{!Hasher}.

Lemma calculate_crc_set v h :
  calculate_header_crc (h_set_crc32 v h) = calculate_header_crc h.
Proof.
  unfold calculate_header_crc. f_equal.
Qed.

Lemma check_each_ext h h' idx l :
  h_first h = h_first h' → h_last h = h_last h' → check_each h idx l = check_each h' idx l.
Proof.
  intros Hf Hl. revert idx. induction l as [|e l IH]; intros idx; [done|]. simpl.
  by rewrite Hf, Hl, IH.
Qed.

Lemma check_entries_ext `{!UnstableSort} h h' b :
  h_first h = h_first h' → h_last h = h_last h' → h_entries_count h = h_entries_count h' →
  h_entries_crc h = h_entries_crc h' → check_entries h b = check_entries h' b.
Proof.
  intros Hf Hl Hc Hr. unfold check_entries. rewrite Hc, Hr.
  destruct (assert_that _) as [[]| |]; try done. rewrite !ok_bind.
  destruct (unwrap_res _) as [sz| |]; try done. rewrite !ok_bind.
  destruct (get_range b 0 sz) as [d|]; try done. cbn [ok_or]. rewrite !ok_bind.
  destruct (negb _); [done|]. destruct (new_slice d) as [es|]; try done. cbn [ok_or]. rewrite !ok_bind.
  destruct (index_range es 0 _) as [es'| |]; try done. rewrite !ok_bind.
  by rewrite (check_each_ext h h').
Qed.
End Crc.

Section Repair.
Context `{!Hasher} `{!UnstableSort}.
Variable i : BlockInfo.
Abbreviation bs := (block_size i).
Abbreviation nb := (num_blocks i).

Lemma restored_valid C t h :
  roomy i C → header_valid i h (is_primary (other t)) → header_valid i (restored i t h) (is_primary t).
Proof.
  intros HC Hv. pose proof (roomy_bounds i C HC) as (? & ? & _). pose proof (rm_blocks _ _ HC).
  destruct Hv as [? ? ? _ ? ? [? ?] ? _ ?]. unfold restored, update_crc.
  destruct t; split; cbn [is_primary]; try done; cbn; try lia;
    symmetry; apply calculate_crc_set.
Qed.

(** ** The disk after a restoration *)

Section Disk.
Variables (C : bytes) (n : nat) (t : HeaderType) (h : GptHeader) (es : list GptEntry).
Hypothesis HC : roomy i C.
Hypothesis Hh : header_ok h.
Hypothesis Hes : Forall entry_ok es.
Hypothesis Hn : length es = n.
Hypothesis Hn128 : (n ≤ 128)%nat.
Let C' := restored_disk i C t h es.

Lemma restored_layout :
  0 < bs ∧ 92 ≤ bs ∧ zlen (header_bytes (restored i t h)) = 92 ∧
  zlen (entries_bytes es) = 128 * Z.of_nat n ∧ 128 * Z.of_nat n ≤ reserved i * bs ∧
  nb * bs = zlen C ∧ (2 * (reserved i + 1) + 1) * bs ≤ nb * bs ∧
  length (splice C (hdr_pos i t) (header_bytes (restored i t h))) = length C.
Proof.
  destruct (roomy_bounds i C HC) as (? & ? & ? & ? & ? & ?). pose proof (rm_reserved _ _ HC).
  pose proof (rm_blocks _ _ HC). pose proof (rd_block _ _ (rm_readable _ _ HC)).
  assert (Hr : header_ok (restored i t h)) by (apply restored_ok; [unfold u64_ok; lia..|done]).
  pose proof (length_header_bytes _ Hr) as Hl. pose proof (length_entries_bytes _ Hes).
  split_and!; try lia. destruct (hdr_pos_bound i C t (rm_readable _ _ HC)).
  apply length_splice; [done|]. rewrite Hl. lia.
Qed.

Lemma restored_length : length C' = length C.
Proof.
  destruct restored_layout as (? & ? & ? & Hz & ? & ? & ? & Hl). unfold C', restored_disk.
  rewrite length_splice; [done|..]; unfold table_pos; rewrite ?Hl, ?Hz; destruct t; nia.
Qed.

Lemma restored_bytes : bytes_ok C'.
Proof.
  destruct (roomy_bounds i C HC) as (? & ? & ? & ? & ? & ?). pose proof (rm_blocks _ _ HC).
  pose proof (rd_bytes _ _ (rm_readable _ _ HC)) as Hb.
  assert (Hr : header_ok (restored i t h)) by (apply restored_ok; [unfold u64_ok; lia..|done]).
  apply bytes_ok_splice; [|by apply entries_bytes_ok]. by apply bytes_ok_splice, header_bytes_ok.
Qed.

Lemma restored_readable : readable i C'.
Proof.
  destruct (rm_readable _ _ HC) as [Hi _ H2 H3]. split; try done.
  - eapply info_ok_length; [exact Hi|apply restored_length].
  - apply restored_bytes.
Qed.

(** Bytes away from the two ranges written are kept. *)
Lemma restored_keeps a m :
  0 ≤ a → a + m ≤ hdr_pos i t ∨ hdr_pos i t + 92 ≤ a →
  a + m ≤ table_pos i t ∨ table_pos i t + 128 * Z.of_nat n ≤ a →
  slice C' a m = slice C a m.
Proof.
  intros Ha H1 H2. destruct restored_layout as (? & ? & Hz1 & Hz2 & ? & ? & ? & Hl).
  destruct (hdr_pos_bound i C t (rm_readable _ _ HC)).
  unfold C', restored_disk. rewrite slice_splice_disj; [apply slice_splice_disj|..]; rewrite ?Hz1, ?Hz2, ?Hl; try lia;
    unfold table_pos; destruct t; nia.
Qed.

Lemma restored_header : disk_header i C' t = restored i t h.
Proof.
  destruct restored_layout as (? & ? & Hz1 & Hz2 & ? & ? & ? & Hl).
  destruct (hdr_pos_bound i C t (rm_readable _ _ HC)).
  unfold disk_header, C', restored_disk.
  rewrite slice_splice_disj; [rewrite slice_splice_same|..]; rewrite ?Hz1, ?Hz2, ?Hl; try lia;
    try (unfold table_pos, hdr_pos; destruct t; nia).
  apply header_of_header_bytes. destruct (roomy_bounds i C HC) as (? & ? & ? & ? & ? & ?).
  pose proof (rm_blocks _ _ HC). apply restored_ok; [unfold u64_ok; lia..|done].
Qed.

Lemma restored_table :
  0 ≤ h_entries_count h ≤ Z.of_nat n →
  disk_table i C' t = take (Z.to_nat (h_entries_count h)) es.
Proof.
  intros Hc. destruct restored_layout as (? & ? & Hz1 & Hz2 & ? & ? & ? & Hl).
  destruct (hdr_pos_bound i C t (rm_readable _ _ HC)).
  unfold disk_table. rewrite restored_header.
  assert (Hp : h_entries (restored i t h) * bs = table_pos i t) by by destruct t.
  assert (Hcnt : h_entries_count (restored i t h) = h_entries_count h) by by destruct t.
  rewrite Hp, Hcnt. unfold C', restored_disk.
  rewrite slice_splice_in; rewrite ?Hz2, ?Hl; try lia; try (unfold table_pos; destruct t; nia).
  rewrite Z.sub_diag, slice_entries_bytes by (done || lia).
  apply entries_of_entries_bytes; [by apply Forall_take|]. rewrite length_take. lia.
Qed.
End Disk.

Lemma check_header_complete h p :
  geometry_ok i → header_ok h → header_valid i h p → check_header i h p = Ok tt.
Proof.
  intros Hg Hh Hv. pose proof (hv_last _ _ _ Hv). destruct Hg as [Hbs [? ?]].
  pose proof (reserved_bound i Hbs).
  pose proof (check_header_spec i h p ltac:(done) Hh ltac:(lia)) as Hs.
  by destruct (check_header i h p) as [[]| |].
Qed.

(** The contents that a sync must not touch: the MBR and the usable blocks. *)
Definition contents_kept (h : GptHeader) (C C' : bytes) : Prop :=
  slice C' 0 bs = slice C 0 bs ∧
  slice C' (h_first h * bs) ((h_last h + 1 - h_first h) * bs)
    = slice C (h_first h * bs) ((h_last h + 1 - h_first h) * bs).

(** Both copies valid, with the same table and matching headers. *)
Record in_sync (C : bytes) (n : nat) (h : GptHeader) (es : list GptEntry) : Prop := {
  is_verdict : ∀ t, verdict i C n t = Ok tt;
  is_table : ∀ t, disk_table i C t = es;
  is_range : ∀ t, h_first (disk_header i C t) = h_first h ∧ h_last (disk_header i C t) = h_last h;
}.

Section Restored.
Variables (C : bytes) (n : nat) (t : HeaderType) (rest : list GptEntry).
Let h := disk_header i C (other t).
Let es := disk_table i C (other t) ++ rest.
Hypothesis HC : readable i C.
Hypothesis Hv : verdict i C n (other t) = Ok tt.
Hypothesis Hrest : Forall entry_ok rest.
Hypothesis Hn : length es = n.
Hypothesis Hn128 : (n ≤ 128)%nat.
Let C' := restored_disk i C t h es.

Lemma source_facts :
  header_ok h ∧ header_valid i h (is_primary (other t)) ∧ roomy i C ∧ Forall entry_ok es ∧
  zlen (disk_table i C (other t)) = h_entries_count h ∧
  check_entries h (entries_bytes (disk_table i C (other t))) = Ok tt ∧
  0 ≤ h_entries_count h ≤ Z.of_nat n.
Proof.
  assert (Hh : header_ok h) by by apply disk_header_ok.
  assert (Hhv : header_valid i h (is_primary (other t))) by by eapply verdict_valid.
  destruct (disk_table_ok i C (other t) HC Hhv) as [Ht Hl].
  split_and!; try done; [by eapply valid_roomy|by apply Forall_app| |apply Hh|].
  - unfold verdict in Hv. apply bind_Ok in Hv as (_ & _ & Hv'). fold h in Hv'. by case_match.
  - unfold es in Hn. rewrite length_app in Hn. fold h in Hl. lia.
Qed.

Lemma source_kept :
  disk_header i C' (other t) = h ∧ disk_table i C' (other t) = disk_table i C (other t) ∧
  contents_kept h C C'.
Proof.
  destruct source_facts as (Hh & Hhv & Hr & Hes & _ & _ & Hc).
  pose proof (restored_keeps C n t h es Hr Hh Hes Hn Hn128) as Hk. fold C' in Hk.
  destruct (restored_layout C n t h es Hr Hh Hes Hn Hn128) as (? & ? & _ & _ & ? & Hz & ? & _).
  pose proof (table_bound i C h _ HC Hh Hhv) as (Hc2 & _ & ? & ? & ? & ? & _ & _ & Hpos & ? & ? & ?).
  assert (Hhdr : disk_header i C' (other t) = h).
  { unfold disk_header, h. rewrite Hk; [done|..]; unfold hdr_pos, table_pos; destruct t; cbn [other]; nia. }
  split_and!; [done| |].
  - unfold disk_table. rewrite Hhdr. fold h. rewrite Hk; [done|lia|..];
      unfold hdr_pos, table_pos; destruct t; cbn [other is_primary] in Hpos; nia.
  - split; apply Hk; unfold hdr_pos, table_pos; destruct t; nia.
Qed.

Lemma restored_in_sync : in_sync C' n h (disk_table i C (other t)).
Proof.
  destruct source_facts as (Hh & Hhv & Hr & Hes & Hl & Hce & Hc). destruct source_kept as (Ho1 & Ho2 & _).
  pose proof (restored_header C n t h es Hr Hh Hes Hn Hn128) as Hd. fold C' in Hd.
  pose proof (restored_table C n t h es Hr Hh Hes Hn Hn128 Hc) as Ht. fold C' in Ht.
  unfold es in Ht. rewrite take_app_length' in Ht by lia.
  assert (Hg : geometry_ok i) by by eapply readable_geometry.
  assert (Hcnt : h_entries_count (restored i t h) = h_entries_count h) by by destruct t.
  assert (Hcase : ∀ (P : HeaderType → Prop), P t → P (other t) → ∀ t', P t').
  { intros P ? ? t'. by destruct t, t'. }
  split; apply Hcase; try done.
  - unfold verdict. rewrite Hd, Ht, Hcnt.
    assert (Hrv := restored_valid C t h Hr Hhv).
    assert (Hro : header_ok (restored i t h)).
    { rewrite <-Hd. apply disk_header_ok. by eapply restored_readable. }
    rewrite check_header_complete, ok_bind by done. rewrite (proj2 (Z.ltb_ge _ _)) by lia.
    rewrite <-Hce. apply check_entries_ext; by destruct t.
  - unfold verdict. rewrite Ho1, Ho2. rewrite check_header_complete, ok_bind by done.
    by rewrite (proj2 (Z.ltb_ge _ _)) by lia.
  - rewrite Hd. by destruct t.
  - by rewrite Ho1.
Qed.
End Restored.
End Repair.

(** ** Properties *)

Lemma consistent_secondary `{!Hasher} i h : is_consistent h (restored i Secondary h) = true.
Proof. apply bool_decide_eq_true. by destruct h. Qed.
Lemma consistent_primary `{!Hasher} i h :
  h_backup h = 1 → is_consistent (restored i Primary h) h = true.
Proof. intros Hb. apply bool_decide_eq_true. destruct h. cbn in *. by subst. Qed.

Section SyncProps.
Context {D : Type} `{!BlockIo D} `{!BlockIoSpec D} `{!Hasher} `{!UnstableSort}.
Variable i : BlockInfo.
Implicit Types k : Disk D.

Lemma table_after_ok C n g t :
  readable i C → gpt_ok i n g → verdict i C n t = Ok tt →
  length (table_after i C g t) = n ∧
  Forall entry_ok (drop (Z.to_nat (h_entries_count (disk_header i C t))) (entries_ref t g)).
Proof.
  intros HC Hg Hv. pose proof (verdict_valid i C n t HC Hv) as Hhv.
  destruct (disk_table_ok i C t HC Hhv) as [_ Hl]. split; [|by apply Forall_drop, Hg].
  unfold verdict in Hv. apply bind_Ok in Hv as (_ & _ & Hv). case_match eqn:E; [done|]. bools.
  unfold table_after. rewrite length_app, length_drop, (go_len _ _ _ Hg). lia.
Qed.

(** The disk after copy [t] is restored. *)
Lemma restore_promise C n g t :
  readable i C → gpt_ok i n g → verdict i C n (other t) = Ok tt →
  let h := disk_header i C (other t) in
  let C' := restored_disk i C t h (table_after i C g (other t)) in
  readable i C' ∧ in_sync i C' n h (disk_table i C (other t)) ∧ contents_kept i h C C' ∧
  disk_header i C' t = restored i t h ∧ disk_header i C' (other t) = h.
Proof.
  intros HC Hg Hv h C'. destruct (table_after_ok C n g (other t) HC Hg Hv) as [Hl Hd].
  pose proof (go_n _ _ _ Hg) as Hn.
  destruct (source_facts i C n t _ HC Hv Hd Hl Hn) as (Hh & _ & Hr & Hes & _).
  destruct (source_kept i C n t _ HC Hv Hd Hl Hn) as (Ho & _ & Hck).
  split_and!; try done.
  - by eapply restored_readable.
  - by apply restored_in_sync.
  - by eapply restored_header.
Qed.

(** A sync of two valid copies that agree. *)
Lemma sync_consistent C n g k :
  calm i C k → readable i C → gpt_ok i n g → (∀ t, verdict i C n t = Ok tt) →
  is_consistent (disk_header i C Primary) (disk_header i C Secondary) = true →
  ∃ g' k', load_and_sync (g, k) = (Ok BothValid, (g', k')) ∧ calm i C k'.
Proof.
  intros Hk HC Hg Hv Hc.
  destruct (load_and_sync_run i C n g k Hk HC Hg) as (g' & k' & E & Hk' & _); [by rewrite Hv..|].
  unfold sync_outcome in E, Hk'. rewrite !Hv, Hc in E, Hk'. by exists g', k'.
Qed.

(** What a sync promises of the disk [C'] it leaves. *)
Definition sync_promise (C : bytes) (n : nat) (r : GptSyncResult) (C' : bytes) (again : Prop) : Prop :=
  match r with
  | BothValid => C' = C ∧ ∀ t, verdict i C n t = Ok tt
  | NoValidGpt p s => C' = C ∧ verdict i C n Primary = Err p ∧ verdict i C n Secondary = Err s
  | SecondaryRestored _ =>
      let h := disk_header i C Primary in
      in_sync i C' n h (disk_table i C Primary) ∧ contents_kept i h C C' ∧ again
  | PrimaryRestored e =>
      let h := disk_header i C Secondary in
      verdict i C n Primary = Err e ∧
      in_sync i C' n h (disk_table i C Secondary) ∧ contents_kept i h C C' ∧
      (h_backup h = 1 → again)
  end.


(** A sync that finds no valid GPT still marks the load buffer as loaded:
    the queries that are documented to fail without a valid GPT then return what
    the buffer holds, unvalidated. *)
Theorem gpt_no_valid_gpt_usable C n g k p s :
  calm i C k → readable i C → gpt_ok i n g →
  verdict i C n Primary = Err p → verdict i C n Secondary = Err s →
  ∃ g' k', load_and_sync (g, k) = (Ok (NoValidGpt p s), (g', k')) ∧
           check_valid g' = Ok (block_size i) ∧
           gpt_entries g' = Ok (active (entries_ref Primary g')).
Proof.
  intros Hk HC Hg Hp Hs.
  destruct (load_and_sync_run i C n g k Hk HC Hg) as (g' & k' & E & _ & _ & Hb & _);
    [by rewrite Hp|by rewrite Hs|].
  unfold sync_outcome in E. rewrite Hp, Hs in E. exists g', k'. split; [done|].
  unfold gpt_entries, check_valid. by rewrite Hb.
Qed.

(** A reload does not forget old partitions: if every entry the header
    counts is in use, the entries that the load buffer held behind them, from a
    GPT loaded before, are listed as partitions of the new one. *)
Theorem gpt_stale_entries_listed C n g k :
  calm i C k → readable i C → gpt_ok i n g → (∀ t, verdict i C n t = Ok tt) →
  is_consistent (disk_header i C Primary) (disk_header i C Secondary) = true →
  Forall (λ e, is_null e = false) (disk_table i C Primary) →
  ∃ g' k', load_and_sync (g, k) = (Ok BothValid, (g', k')) ∧
    gpt_entries g' = Ok (disk_table i C Primary ++
      active (drop (Z.to_nat (h_entries_count (disk_header i C Primary))) (entries_ref Primary g))).
Proof.
  intros Hk HC Hg Hv Hc Hn.
  destruct (load_and_sync_run i C n g k Hk HC Hg) as (g' & k' & E & _ & _ & Hb & He); [by rewrite Hv..|].
  unfold sync_outcome in E. rewrite !Hv, Hc in E. exists g', k'. split; [done|].
  unfold gpt_entries, check_valid. rewrite Hb, (He (Hv Primary)). cbn. f_equal. unfold table_after.
  clear He. induction Hn as [|e l Hnull _ IH]; [done|]. cbn [app active]. by rewrite Hnull, IH.
Qed.
End SyncProps.

(** ** Examples

    Seventy blocks with a GPT of three entries, the last one null, or of two. *)
Definition ex_primary (es : list GptEntry) : bytes :=
  splice (splice ex_blank 512 (header_bytes (ex_header es))) 1024 (entries_bytes es).
Definition ex_both (es : list GptEntry) : bytes :=
  restored_disk (H := StandardHasher) ex_info (ex_primary es) Secondary (ex_header es) es.
Definition ex_buffer (es : list GptEntry) : Gpt :=
  mkGpt 1000 (192 + 256 * zlen es)
    (mkLoad None (header_of_bytes (replicate 92 0)) (header_of_bytes (replicate 92 0)) es es).

Import RamBlockSpec.

Lemma ex_calm C : zlen C = 70 * 512 → calm ex_info C (ex_disk C).
Proof. intros. split; [by apply ex_disk_ok|done]. Qed.
Lemma ex_readable C : zlen C = 70 * 512 → bytes_ok C → readable ex_info C.
Proof. intros HC ?. split; try done. split; cbn; lia. Qed.
Lemma ex_buffer_ok es :
  (length es ≤ 128)%nat → Forall entry_ok es → gpt_ok ex_info (length es) (ex_buffer es).
Proof.
  intros Hl He. split; try done; try (by intros []).
  - cbn. lia.
  - intros []; cbn [hdr ex_buffer gpt_load lb_primary_header lb_secondary_header]; by_compute.
Qed.


Lemma gpt_no_valid_gpt_usable_witness :
  ∃ g' k', load_and_sync (H := StandardHasher) (H0 := MergeSort)
      (ex_buffer ex_table, ex_disk ex_blank)
      = (Ok (NoValidGpt (GptError (IncorrectMagic 0)) (GptError (IncorrectMagic 0))), (g', k')) ∧
    check_valid g' = Ok 512.
Proof.
  destruct (@gpt_no_valid_gpt_usable _ _ _ StandardHasher MergeSort ex_info ex_blank 3
    (ex_buffer ex_table) (ex_disk ex_blank) (GptError (IncorrectMagic 0)) (GptError (IncorrectMagic 0)))
    as (g' & k' & E & Hv & _).
  - apply ex_calm. by_compute.
  - apply ex_readable; by_compute.
  - apply (ex_buffer_ok ex_table); by_compute.
  - by_compute.
  - by_compute.
  - exists g', k'. split; [exact E|exact Hv].
Defined.

(** A buffer that held three partitions, and a disk with two: three are listed. *)
Lemma gpt_stale_entries_listed_witness :
  let a := ex_entry 3 34 34 (str "a") in let b := ex_entry 4 35 35 (str "b") in
  let old := ex_entry 5 36 36 (str "old") in
  ∃ g' k', load_and_sync (H := StandardHasher) (H0 := MergeSort)
      (ex_buffer [a; b; old], ex_disk (ex_both [a; b])) = (Ok BothValid, (g', k')) ∧
    gpt_entries g' = Ok [a; b; old].
Proof.
  intros a b old.
  destruct (@gpt_stale_entries_listed _ _ _ StandardHasher MergeSort ex_info (ex_both [a; b]) 3
    (ex_buffer [a; b; old]) (ex_disk (ex_both [a; b]))) as (g' & k' & E & He).
  - apply ex_calm. by_compute.
  - apply ex_readable; by_compute.
  - apply (ex_buffer_ok [a; b; old]); by_compute.
  - intros []; by_compute.
  - by_compute.
  - by_compute.
  - exists g', k'. split; [exact E|]. rewrite He. by_compute.
Defined.
