(* ===== verification/Fastboot.v ===== *)
(** * libfastboot: the fastboot protocol engine

    Models src/gbl/libfastboot/src/lib.rs. The transport and the command
    backend are traits of the source and classes here; the theorems hold for
    every instance. A packet buffer and a string are lists of bytes.

    A backend method gets a responder and may use it while it runs. It is
    modelled by the tree of its responder calls, each with the continuation that
    gets the call's result; the trait bounds of the method say which calls its
    tree may contain, and a responder passed by value can be used up only once. *)

From S2P Require Import Prelude LibError Text Utils.
Import FormattedBytes.

(** gbl/libfastboot/src/lib.rs:82-85, [MAX_COMMAND_SIZE]. *)
Definition MAX_COMMAND_SIZE : Z := 4096.
(** gbl/libfastboot/src/lib.rs:86-92, [MAX_RESPONSE_SIZE]. *)
Definition MAX_RESPONSE_SIZE : Z := 256.
(** gbl/libfastboot/src/lib.rs:117-119, [TCP_HANDSHAKE_MESSAGE]. *)
Definition TCP_HANDSHAKE_MESSAGE : bytes := str "FB01".
(** gbl/libfastboot/src/lib.rs:169-169, [COMMAND_ERROR_LENGTH]. *)
Definition COMMAND_ERROR_LENGTH : Z := MAX_RESPONSE_SIZE - 4.
(** gbl/libfastboot/src/lib.rs:682-682, [MAX_DOWNLOAD_SIZE_NAME]. *)
Definition MAX_DOWNLOAD_SIZE_NAME : bytes := str "max-download-size".

Definition zeros (n : Z) : bytes := replicate (Z.to_nat n) 0.

(** ** Transports *)

(** gbl/libfastboot/src/lib.rs:94-115, [Transport]: [receive_packet] works on the
    transport and the buffer [out] and returns the size of the packet. *)
Class Transport (T : Type) := {
  receive_packet : ST (T * bytes) Error Z;
  send_packet : bytes → ST T Error unit;
}.

(** gbl/libfastboot/src/lib.rs:121-131, [TcpStream]. *)
Class TcpStream (T : Type) := {
  read_exact : ST (T * bytes) Error unit;
  write_exact : bytes → ST T Error unit;
}.

(** Calls a method that fills a buffer of its caller's with a fresh buffer
    [out], or with the first [n] bytes of the caller's. *)
Definition with_buffer {T E A} (out : bytes) (m : ST (T * bytes) E A) : ST T E (A * bytes) := λ t,
  let '(r, (t', out')) := m (t, out) in (r ≫= λ a, Ok (a, out'), t').
Definition into_prefix {T A} (n : Z) (m : ST (T * bytes) Error A) : ST (T * bytes) Error A := λ s,
  match get_range (snd s) 0 n with
  | None => (Panic, s)
  | Some sub => let '(r, (t', sub')) := m (fst s, sub) in (r, (t', splice (snd s) 0 sub'))
  end.

Section Tcp.
Context {T : Type} `{!TcpStream T}.

(** gbl/libfastboot/src/lib.rs:133-134, [TcpTransport]: the stream it wraps. *)
Record TcpTransport := mkTcp { tcp_stream : T }.

(** gbl/libfastboot/src/lib.rs:137-146, [TcpTransport::new_and_handshake]. *)
Definition new_and_handshake : ST T Error TcpTransport :=
  write_exact TCP_HANDSHAKE_MESSAGE;;
  '(_, handshake) ← with_buffer (zeros 4) read_exact;
  if bool_decide (handshake = TCP_HANDSHAKE_MESSAGE) then mkTcp <$> gets id
  else raise InvalidHandshake.

Definition on_stream {A} (m : ST (T * bytes) Error A) : ST (TcpTransport * bytes) Error A :=
  zoom (λ s, (tcp_stream (fst s), snd s)) (λ t _, (mkTcp (fst t), snd t)) m.

(** gbl/libfastboot/src/lib.rs:150-161, [Transport::receive_packet for TcpTransport]. *)
Definition tcp_receive_packet : ST (TcpTransport * bytes) Error Z :=
  '(_, length_prefix) ← on_stream (λ s,
     let '(r, t) := with_buffer (zeros 8) read_exact (fst s) in (r, (t, snd s)));
  packet_size ← lift (try_int 64 (be_val length_prefix));
  out ← gets snd;
  if zlen out <? packet_size then raise InvalidInput
  else on_stream (into_prefix packet_size read_exact);; mret packet_size.

(** gbl/libfastboot/src/lib.rs:163-166, [Transport::send_packet for TcpTransport]. *)
Definition tcp_send_packet (packet : bytes) : ST TcpTransport Error unit :=
  len ← lift (try_int 64 (zlen packet));
  zoom tcp_stream (λ t _, mkTcp t) (write_exact (be_bytes 8 len);; write_exact packet).

#[export] Instance TcpTransport_transport : Transport TcpTransport := {
  receive_packet := tcp_receive_packet;
  send_packet := tcp_send_packet;
}.
End Tcp.
Arguments TcpTransport : clear implicits.

(** gbl/libfastboot/src/local_session.rs:18-26, [LocalSession]. *)
Class LocalSession (T : Type) := {
  ls_update : ST (T * bytes) Error Z;
  process_outgoing_packet : bytes → T → T;
}.

(** gbl/libfastboot/src/local_session.rs:28-37, [Transport for T]. *)
Definition local_session_transport {T} `{!LocalSession T} : Transport T := {|
  receive_packet := ls_update;
  send_packet := λ buf t, (Ok tt, process_outgoing_packet buf t);
|}.

(** ** Command errors *)

(** gbl/libfastboot/src/lib.rs:171-177, [CommandError]. *)
Record CommandError := mkCommandError { ce_bytes : FormattedBytes }.
(** [CommandResult] of the crate. *)
Abbreviation CommandResult := (outcome CommandError).

(** gbl/libfastboot/src/lib.rs:180-183, [CommandError::to_str]. *)
Definition ce_to_str (e : CommandError) : bytes := utf8_bytes (to_str (ce_bytes e)).

(** gbl/libfastboot/src/lib.rs:197-203, [From<T> for CommandError]: from the pieces that
    [Display] writes. *)
Definition command_error {E} (val : list bytes) : outcome E CommandError :=
  res ← unwrap_res (write_all (new (zeros COMMAND_ERROR_LENGTH)) val);
  Ok (mkCommandError res).

(** gbl/libfastboot/src/lib.rs:185-188, [CommandError::clone]. *)
Definition ce_clone {E} (e : CommandError) : outcome E CommandError :=
  command_error [ce_to_str e].

(** [Err(s.into())] with a [&str]. *)
Definition fail_str {A} (s : bytes) : CommandResult A :=
  match command_error (E:=CommandError) [s] with Ok e => Err e | _ => Panic end.
(** [o.ok_or(s)?]. *)
Definition ok_or_str {A} (o : option A) (s : bytes) : CommandResult A :=
  match o with Some a => Ok a | None => fail_str s end.

(** ** Arguments *)

(** gbl/libfastboot/src/lib.rs:1021-1024, [hex_to_u64]. *)
Definition hex_to_u64 (s : bytes) : CommandResult Z :=
  match from_str_radix 64 16 (default s (strip_prefix (str "0x") s)) with
  | Ok v => Ok v
  | Err e => fail_str (show_int_error e)
  | Panic => Panic
  end.

(** gbl/libfastboot/src/lib.rs:1026-1033, [next_arg]: the argument, if it is not empty, and
    the iterator after it. *)
Definition next_arg (args : list bytes) : option bytes * list bytes :=
  match args with
  | [] => (None, [])
  | a :: args => (if bool_decide (a = []) then None else Some a, args)
  end.

(** gbl/libfastboot/src/lib.rs:1035-1052, [next_arg_u64]. *)
Definition next_arg_u64 (args : list bytes) : CommandResult (option Z) * list bytes :=
  let '(a, args) := next_arg args in
  (match a with Some v => v ← hex_to_u64 v; Ok (Some v) | None => Ok None end, args).

(** gbl/libfastboot/src/lib.rs:684-691, [cmd_to_c_string_args]: the arguments, and the
    buffer with its colons replaced. *)
Definition cmd_to_c_string_args {E} (cmd : bytes) : outcome E (list bytes * bytes) :=
  end_ ← unwrap (position 0 cmd);
  let cmd := (λ v, if v =? 58 then 0 else v) <$> cmd in
  line ← index_range cmd 0 (end_ + 1);
  args ← unwrap (mapM cstr_until_nul (split_inclusive 0 line));
  Ok (args, cmd).

(** ** Backends *)

(** gbl/libfastboot/src/lib.rs:208-219, [RebootMode]. *)
Inductive RebootMode := RebootNormal | RebootBootloader | RebootFastboot | RebootRecovery.

(** What a [send_*] call returns to the backend. *)
Abbreviation sent := (unit + Error)%type.

(** gbl/libfastboot/src/lib.rs:472-485, [InfoSender]: code that may send INFO messages,
    given by the pieces its callback writes. *)
Inductive info_act (A : Type) :=
| IRet (a : A)
| IInfo (msg : list bytes) (k : sent → info_act A).
Arguments IRet {A} a.
Arguments IInfo {A} msg k.

(** gbl/libfastboot/src/lib.rs:452-470, [VarInfoSender]. *)
Inductive var_act (A : Type) :=
| VRet (a : A)
| VInfo (name : bytes) (args : list bytes) (val : bytes) (k : sent → var_act A).
Arguments VRet {A} a.
Arguments VInfo {A} name args val k.

(** gbl/libfastboot/src/lib.rs:487-503, [OkaySender]: INFO messages and at most one OKAY
    message, which uses up the responder. *)
Inductive okay_act (A : Type) :=
| ORet (a : A)
| OInfo (msg : list bytes) (k : sent → okay_act A)
| OOkay (msg : list bytes) (k : sent → A).
Arguments ORet {A} a.
Arguments OInfo {A} msg k.
Arguments OOkay {A} msg k.

(** gbl/libfastboot/src/lib.rs:514-518, [Uploader]. *)
Inductive uploading (A : Type) :=
| URet (a : A)
| UData (data : bytes) (k : sent → uploading A).
Arguments URet {A} a.
Arguments UData {A} data k.

(** gbl/libfastboot/src/lib.rs:505-512, [UploadBuilder]: INFO messages and at most one
    upload, which uses up the responder. *)
Inductive upload_act (A : Type) :=
| BRet (a : A)
| BInfo (msg : list bytes) (k : sent → upload_act A)
| BStart (data_size : Z) (failed : Error → A) (started : uploading A).
Arguments BRet {A} a.
Arguments BInfo {A} msg k.
Arguments BStart {A} data_size failed started.

(** gbl/libfastboot/src/lib.rs:221-427, [FastbootImplementation]. A method returns its
    result and the backend it leaves; [get_download_buffer] lends a buffer of the
    backend, which then is a function of what the borrower leaves in it. A
    [get_download_buffer] or [reboot] that waits forever or panics returns [None];
    the other methods can answer [Panic]. A successful reboot is not followed
    beyond the call. *)
Class FastbootImplementation (B : Type) := {
  fb_get_var : B → bytes → list bytes → bytes → info_act (CommandResult Z * bytes * B);
  fb_get_var_all : B → var_act (CommandResult unit * B);
  fb_get_download_buffer : B → option (bytes * (bytes → B));
  fb_download_complete : B → Z → info_act (CommandResult unit * B);
  fb_flash : B → bytes → info_act (CommandResult unit * B);
  fb_erase : B → bytes → info_act (CommandResult unit * B);
  fb_upload : B → upload_act (CommandResult unit * B);
  fb_fetch : B → bytes → Z → Z → upload_act (CommandResult unit * B);
  fb_reboot : B → RebootMode → okay_act (option CommandError * B);
  fb_continue : B → info_act (CommandResult unit * B);
  fb_set_active : B → bytes → info_act (CommandResult unit * B);
  fb_boot : B → okay_act (CommandResult unit * B);
  fb_oem : B → bytes → bytes → info_act (CommandResult bytes * B);
}.

(** [Display] of [liberror::Error] (the derived [Debug] form). *)
Class ShowError := show_error : Error → list bytes.

(** ** Messages and the responder *)

(** gbl/libfastboot/src/lib.rs:429-440, [fastboot_msg!]: formats a message into [arr];
    the new contents of [arr] and the size of the message. *)
Definition fastboot_msg (arr : bytes) (msg_type : bytes) (x : list bytes) : result (bytes * Z) :=
  formatted_bytes ← unwrap_res (write_all (new arr) (msg_type :: x));
  let size := size formatted_bytes in
  index_range (buf formatted_bytes) 0 size;;
  Ok (buf formatted_bytes, size).
(** gbl/libfastboot/src/lib.rs:442-445, [fastboot_okay!]. *)
Definition fastboot_okay (arr : bytes) (x : list bytes) := fastboot_msg arr (str "OKAY") x.
(** gbl/libfastboot/src/lib.rs:447-450, [fastboot_fail!]. *)
Definition fastboot_fail (arr : bytes) (x : list bytes) := fastboot_msg arr (str "FAIL") x.

Section Responder.
Context {T : Type} `{!Transport T}.

(** gbl/libfastboot/src/lib.rs:520-526, [Responder]. *)
Record Responder := mkResponder {
  rs_buffer : bytes;
  rs_transport : T;
  rs_transport_error : result unit;
  rs_remaining_upload : Z;
}.

(** gbl/libfastboot/src/lib.rs:529-536, [Responder::new]. *)
Definition responder_new (t : T) : Responder :=
  mkResponder (zeros MAX_RESPONSE_SIZE) t (Ok tt) 0.

Definition set_buffer (b : bytes) (r : Responder) : Responder :=
  mkResponder b (rs_transport r) (rs_transport_error r) (rs_remaining_upload r).
Definition set_transport (t : T) (r : Responder) : Responder :=
  mkResponder (rs_buffer r) t (rs_transport_error r) (rs_remaining_upload r).
Definition set_remaining (n : Z) (r : Responder) : Responder :=
  mkResponder (rs_buffer r) (rs_transport r) (rs_transport_error r) n.

(** [self.transport_error = self.transport.send_packet(data).await]. *)
Definition transmit (data : bytes) : ST Responder Error unit := λ r,
  match send_packet data (rs_transport r) with
  | (Panic, t) => (Panic, set_transport t r)
  | (e, t) => (Ok tt, mkResponder (rs_buffer r) t e (rs_remaining_upload r))
  end.

(** gbl/libfastboot/src/lib.rs:538-544, [Responder::send_buffer]. *)
Definition send_buffer (size : Z) : ST Responder Error unit :=
  r ← gets id;
  lift (rs_transport_error r);;
  lift (assert_that (size <? zlen (rs_buffer r)));;
  data ← lift (index_range (rs_buffer r) 0 size);
  transmit data;;
  r ← gets id;
  lift (rs_transport_error r).

(** gbl/libfastboot/src/lib.rs:546-561, [Responder::send_formatted_msg]. *)
Definition send_formatted_msg (msg_type : bytes) (cb : list bytes) : ST Responder Error unit :=
  r ← gets id;
  formatted_bytes ← lift (unwrap_res (write_all (new (rs_buffer r)) (msg_type :: cb)));
  modify (set_buffer (buf formatted_bytes));;
  send_buffer (size formatted_bytes).

(** gbl/libfastboot/src/lib.rs:563-566, [Responder::send_data_message]. *)
Definition send_data_message (data_size : Z) : ST Responder Error unit :=
  send_formatted_msg (str "DATA") [fmt_hex08 data_size].

(** gbl/libfastboot/src/lib.rs:570-584, [VarInfoSender::send_var_info for &mut Responder]. *)
Definition send_var_info (name : bytes) (args : list bytes) (val : bytes)
    : ST Responder Error unit :=
  send_formatted_msg (str "INFO")
    ([name] ++ ((λ arg, str ":" ++ arg) <$> args) ++ [str ": " ++ val]).

(** gbl/libfastboot/src/lib.rs:608-610, [InfoSender::send_formatted_info for &mut Responder]. *)
Definition send_formatted_info (cb : list bytes) : ST Responder Error unit :=
  send_formatted_msg (str "INFO") cb.

(** gbl/libfastboot/src/lib.rs:614-616, [OkaySender::send_formatted_okay for &mut Responder]. *)
Definition send_formatted_okay (cb : list bytes) : ST Responder Error unit :=
  send_formatted_msg (str "OKAY") cb.

(** gbl/libfastboot/src/lib.rs:587-595, [reply_okay!]. *)
Definition reply_okay (x : list bytes) : ST Responder Error unit :=
  r ← gets id;
  '(b, len) ← lift (fastboot_okay (rs_buffer r) x);
  modify (set_buffer b);;
  send_buffer len.

(** gbl/libfastboot/src/lib.rs:597-605, [reply_fail!]. *)
Definition reply_fail (x : list bytes) : ST Responder Error unit :=
  r ← gets id;
  '(b, len) ← lift (fastboot_fail (rs_buffer r) x);
  modify (set_buffer b);;
  send_buffer len.

(** gbl/libfastboot/src/lib.rs:620-624, [UploadBuilder::initiate_upload for &mut Responder]. *)
Definition initiate_upload (data_size : Z) : ST Responder Error unit :=
  send_data_message data_size;;
  modify (set_remaining data_size).

(** gbl/libfastboot/src/lib.rs:628-638, [Uploader::upload for &mut Responder]. *)
Definition uploader_upload (data : bytes) : ST Responder Error unit :=
  r ← gets id;
  lift (rs_transport_error r);;
  len ← lift (ok_or (checked 64 (zlen data)) (error_of_str EmptyString));
  left ← lift (ok_or (checked 64 (rs_remaining_upload r - len))
                     (Other (Some "Invalid size of upload data"%string)));
  modify (set_remaining left);;
  transmit data.

(** A backend method's calls, carried out by the responder. *)
Fixpoint run_info {A} (a : info_act A) : ST Responder Error A :=
  match a with
  | IRet a => mret a
  | IInfo msg k => e ← attempt (send_formatted_info msg); run_info (k e)
  end.
Fixpoint run_var {A} (a : var_act A) : ST Responder Error A :=
  match a with
  | VRet a => mret a
  | VInfo name args val k => e ← attempt (send_var_info name args val); run_var (k e)
  end.
Fixpoint run_okay {A} (a : okay_act A) : ST Responder Error A :=
  match a with
  | ORet a => mret a
  | OInfo msg k => e ← attempt (send_formatted_info msg); run_okay (k e)
  | OOkay msg k => e ← attempt (send_formatted_okay msg); mret (k e)
  end.
Fixpoint run_uploading {A} (a : uploading A) : ST Responder Error A :=
  match a with
  | URet a => mret a
  | UData data k => e ← attempt (uploader_upload data); run_uploading (k e)
  end.
Fixpoint run_upload {A} (a : upload_act A) : ST Responder Error A :=
  match a with
  | BRet a => mret a
  | BInfo msg k => e ← attempt (send_formatted_info msg); run_upload (k e)
  | BStart n failed started =>
      e ← attempt (initiate_upload n);
      match e with inl _ => run_uploading started | inr e => mret (failed e) end
  end.
End Responder.
Arguments Responder : clear implicits.

(** ** Command handlers *)

Section Handlers.
Context {T B : Type} `{!Transport T, !FastbootImplementation B, !ShowError}.

(** A handler works on the transport and the backend, its body on a responder
    for that transport. *)
Abbreviation handler A := (ST (T * B) Error A).
Abbreviation body A := (ST (Responder T * B) Error A).

(** [let mut resp = Responder::new(transport)], to the end of the handler. *)
Definition with_responder {A} (m : body A) : handler A := λ s,
  let '(r, (resp, b)) := m (responder_new (fst s), snd s) in (r, (rs_transport resp, b)).
(** A call of another handler while the responder is not in use. *)
Definition on_transport {A} (m : handler A) : body A := λ s,
  let '(r, (t, b)) := m (rs_transport (fst s), snd s) in (r, (set_transport t (fst s), b)).
Definition on_responder {A} (m : ST (Responder T) Error A) : body A :=
  zoom fst (λ r s, (r, snd s)) m.
(** A call of a backend method with the responder. *)
Definition call {A} (m : B → ST (Responder T) Error (A * B)) : body A := λ s,
  match m (snd s) (fst s) with
  | (Ok (a, b), resp) => (Ok a, (resp, b))
  | (Err e, resp) => (Err e, (resp, snd s))
  | (Panic, resp) => (Panic, (resp, snd s))
  end.

(** The last step of most handlers: [OKAY<okay>] or [FAIL<error>]. *)
Definition reply_with {A} (r : CommandResult A) (okay : A → list bytes) : body unit :=
  match r with
  | Ok a => on_responder (reply_okay (okay a))
  | Err e => on_responder (reply_fail [ce_to_str e])
  | Panic => lift Panic
  end.
Definition reply_result (r : CommandResult unit) : body unit := reply_with r (λ _, [[]]).

(** The length of the download buffer. *)
Definition download_buffer_len : body Z := λ s,
  match fb_get_download_buffer (snd s) with
  | Some (b, put) => (Ok (zlen b), (fst s, put b))
  | None => (Panic, s)
  end.

(** gbl/libfastboot/src/lib.rs:246-257, [FastbootImplementation::get_var_as_str]. *)
Definition get_var_as_str (var : bytes) (args : list bytes) (out : bytes)
    : body (CommandResult bytes) :=
  '(r, out) ← call (λ b, '(r, out, b) ← run_info (fb_get_var b var args out); mret (r, out, b));
  mret (size ← r;
        v ← ok_or_str (get_range out 0 size) (str "Invalid variable size");
        if is_utf8 v then Ok v else fail_str (str "Value is not string")).

(** gbl/libfastboot/src/lib.rs:720-730, [get_var_all_with_native]. *)
Definition get_var_all_with_native : body (CommandResult unit) :=
  len ← download_buffer_len;
  '(_, size_str) ← lift (snprintf (zeros 32) [fmt_hex0x len]);
  e ← on_responder (attempt (send_var_info MAX_DOWNLOAD_SIZE_NAME [] (utf8_bytes size_str)));
  match e with
  | inl _ => call (λ b, run_var (fb_get_var_all b))
  | inr e => e ← lift (command_error (show_error e)); mret (Err e)
  end.

(** gbl/libfastboot/src/lib.rs:732-744, [get_var_all]. *)
Definition get_var_all : handler unit :=
  with_responder (get_res ← get_var_all_with_native; reply_result get_res).

(** gbl/libfastboot/src/lib.rs:693-718, [get_var]: on the packet buffer [cmd]. *)
Definition get_var (cmd : bytes) : handler unit :=
  with_responder
    ('(args, _) ← lift (cmd_to_c_string_args cmd);
     match drop 1 args with
     | [] => on_responder (reply_fail [str "Missing variable"])
     | var :: args =>
         if negb (is_utf8 var) then raise InvalidInput
         else if bool_decide (var = str "all") then on_transport get_var_all
         else if bool_decide (var = MAX_DOWNLOAD_SIZE_NAME) then
           len ← download_buffer_len; on_responder (reply_okay [fmt_hex0x len])
         else
           r ← get_var_as_str var args (zeros MAX_RESPONSE_SIZE);
           reply_with r (λ s, [s])
     end).

(** The responder beside a borrowed buffer. *)
Definition beside {A} (m : ST (Responder T) Error A) : ST (Responder T * bytes) Error A :=
  zoom fst (λ r s, (r, snd s)) m.

(** gbl/libfastboot/src/lib.rs:746-789, [download]: the loop that fills the borrowed
    [buffer] of [total] bytes. [Some downloaded] is the size received, [None] that
    a failure was reported; [inr] says that the fuel did not suffice. *)
Fixpoint download_loop (fuel : nat) (total downloaded : Z)
    : ST (Responder T * bytes) Error (option Z + unit) :=
  if negb (downloaded <? total) then mret (inl (Some downloaded)) else
  match fuel with
  | O => mret (inr tt)
  | S fuel =>
      v ← (λ s, match get_range (snd s) downloaded (zlen (snd s)) with
           | None => (Panic, s)
           | Some remains =>
               let '(r, (t, remains')) := receive_packet (rs_transport (fst s), remains) in
               (r, (set_transport t (fst s), splice (snd s) downloaded remains'))
           end);
      if v =? 0 then download_loop fuel total downloaded
      else match checked 64 (downloaded + v) with
      | Some v =>
          if total <? v then
            beside (reply_fail [str "More data received then expected"]);;
            mret (inl None)
          else download_loop fuel total v
      | None => raise (Other (Some "Invalid read size from transport"%string))
      end
  end.

(** gbl/libfastboot/src/lib.rs:746-789, [download]: the size that is asked for. *)
Definition download_size (args : list bytes) : CommandResult Z :=
  n ← (next_arg_u64 args).1;
  n ← ok_or_str n (str "Not enough argument");
  match checked 64 n with Some n => Ok n | None => fail_str (str "Download size overflow") end.

(** The borrow of the download buffer. *)
Definition with_download_buffer {A} (m : ST (Responder T * bytes) Error A) : body A := λ s,
  match fb_get_download_buffer (snd s) with
  | Some (b, put) => let '(r, (resp, b')) := m (fst s, b) in (r, (resp, put b'))
  | None => (Panic, s)
  end.

(** gbl/libfastboot/src/lib.rs:746-789, [download]: the part that works on the
    borrowed buffer. *)
Definition download_data (fuel : nat) (total_download_size : Z)
    : ST (Responder T * bytes) Error (option Z + unit) :=
  download_buffer ← gets snd;
  if zlen download_buffer <? total_download_size then
    beside (reply_fail [str "Download size is too big"]);; mret (inl None)
  else if total_download_size =? 0 then
    beside (reply_fail [str "Zero download size"]);; mret (inl None)
  else
    into_prefix total_download_size
      (beside (send_data_message total_download_size);;
       download_loop fuel total_download_size 0).

(** gbl/libfastboot/src/lib.rs:746-789, [download]. [inr] says that the fuel did not
    suffice. *)
Definition download (fuel : nat) (args : list bytes) : handler (unit + unit) :=
  with_responder
    (match download_size args with
     | Err e => inl <$> on_responder (reply_fail [ce_to_str e])
     | Panic => lift Panic
     | Ok total_download_size =>
         r ← with_download_buffer (download_data fuel total_download_size);
         match r with
         | inl (Some downloaded) =>
             r ← call (λ b, run_info (fb_download_complete b downloaded));
             inl <$> reply_result r
         | inl None => mret (inl tt)
         | inr _ => mret (inr tt)
         end
     end).

(** gbl/libfastboot/src/lib.rs:791-807, [flash]. *)
Definition flash (cmd : bytes) : handler unit :=
  with_responder
    (flash_res ← match strip_prefix (str "flash:") cmd with
                 | Some part => call (λ b, run_info (fb_flash b part))
                 | None => mret (fail_str (str "Missing partition"))
                 end;
     reply_result flash_res).

(** gbl/libfastboot/src/lib.rs:809-825, [erase]. *)
Definition erase (cmd : bytes) : handler unit :=
  with_responder
    (flash_res ← match strip_prefix (str "erase:") cmd with
                 | Some part => call (λ b, run_info (fb_erase b part))
                 | None => mret (fail_str (str "Missing partition"))
                 end;
     reply_result flash_res).

(** What [upload] and [fetch] do when the backend is done. *)
Definition reply_uploaded (r : CommandResult unit) : body unit :=
  s ← gets fst;
  if 0 <? rs_remaining_upload s then
    match r with Panic => lift Panic | _ => raise InvalidInput end
  else reply_result r.

(** gbl/libfastboot/src/lib.rs:827-841, [upload]. *)
Definition upload : handler unit :=
  with_responder
    (upload_res ← call (λ b, run_upload (fb_upload b));
     reply_uploaded upload_res).

(** gbl/libfastboot/src/lib.rs:843-872, [fetch]: the partition, the offset and the
    size, parsed from the end. *)
Definition fetch_args (cmd : bytes) (args : list bytes) : CommandResult (bytes * Z * Z) :=
  cmd ← ok_or_str (strip_prefix (str "fetch:") cmd) (str "Missing arguments");
  if zlen args <? 3 then fail_str (str "Not enough argments") else
  let rev := reverse args in
  let '(sz, rev) := next_arg rev in
  sz ← ok_or_str sz (str "Missing size");
  let '(off, rev) := next_arg rev in
  off ← ok_or_str off (str "Invalid offset");
  n ← arith 64 (zlen off + zlen sz);
  n ← arith 64 (n + 2);
  n ← arith 64 (zlen cmd - n);
  part ← str_to cmd n;
  off ← hex_to_u64 off;
  sz ← hex_to_u64 sz;
  Ok (part, off, sz).

(** gbl/libfastboot/src/lib.rs:843-872, [fetch]. *)
Definition fetch (cmd : bytes) (args : list bytes) : handler unit :=
  with_responder
    (fetch_res ← match fetch_args cmd args with
                 | Ok (part, off, sz) => call (λ b, run_upload (fb_fetch b part off sz))
                 | Err e => mret (Err e)
                 | Panic => lift Panic
                 end;
     reply_uploaded fetch_res).

(** gbl/libfastboot/src/lib.rs:874-883, [reboot]. *)
Definition reboot (mode : RebootMode) : handler unit :=
  with_responder
    (e ← call (λ b, run_okay (fb_reboot b mode));
     match e with
     | Some e => on_responder (reply_fail [ce_to_str e])
     | None => lift Panic
     end).

(** gbl/libfastboot/src/lib.rs:885-896, [boot]. *)
Definition boot : handler unit :=
  with_responder
    (boot_res ← call (λ b, run_okay (fb_boot b));
     reply_with boot_res (λ _, [str "boot_command"])).

(** gbl/libfastboot/src/lib.rs:898-908, [r#continue]. *)
Definition continue : handler unit :=
  with_responder
    (r ← call (λ b, run_info (fb_continue b)); reply_result r).

(** gbl/libfastboot/src/lib.rs:910-925, [set_active]. *)
Definition set_active (args : list bytes) : handler unit :=
  with_responder
    (res ← match (next_arg args).1 with
           | Some slot => call (λ b, run_info (fb_set_active b slot))
           | None => mret (fail_str (str "Missing slot"))
           end;
     reply_result res).

(** gbl/libfastboot/src/lib.rs:927-943, [oem]. *)
Definition oem (cmd : bytes) : handler unit :=
  with_responder
    (oem_res ← call (λ b, run_info (fb_oem b cmd (zeros (MAX_RESPONSE_SIZE - 4))));
     match oem_res with
     | Ok msg =>
         if is_utf8 msg then on_responder (reply_okay [msg])
         else on_responder (reply_fail [str "Invalid return string "; show_utf8_error msg])
     | _ => reply_with oem_res (λ s, [s])
     end).

Definition on_transport_only {A} (m : ST T Error A) : handler A := zoom fst (λ t s, (t, snd s)) m.

(** [transport.send_packet(fastboot_fail!(packet, msg)).await]. *)
Definition send_fail (packet : bytes) (msg : bytes) : handler unit :=
  '(b, len) ← lift (fastboot_fail packet [msg]);
  data ← lift (index_range b 0 len);
  on_transport_only (send_packet data).

(** gbl/libfastboot/src/lib.rs:945-993, [process_next_command]: dispatch of the command
    [cmd_str] in [packet]; [inr] says that the fuel of a download did not
    suffice. *)
Definition dispatch (fuel : nat) (packet cmd_str cmd : bytes) (args : list bytes)
    : handler (bool + unit) :=
  let named s := bool_decide (cmd = str s) in
  if named "boot"%string then boot;; mret (inl true)
  else if named "continue"%string then continue;; mret (inl true)
  else if named "download"%string then
    r ← download fuel args;
    mret (match r with inl _ => inl false | inr _ => inr tt end)
  else
    (if named "erase"%string then erase cmd_str
     else if named "fetch"%string then fetch cmd_str args
     else if named "flash"%string then flash cmd_str
     else if named "getvar"%string then get_var packet
     else if named "reboot"%string then reboot RebootNormal
     else if named "reboot-bootloader"%string then reboot RebootBootloader
     else if named "reboot-fastboot"%string then reboot RebootFastboot
     else if named "reboot-recovery"%string then reboot RebootRecovery
     else if named "set_active"%string then set_active args
     else if named "upload"%string then upload
     else if starts_with (str "oem ") cmd_str then
       rest ← lift (str_from cmd_str 4); oem rest
     else send_fail packet (str "Command not found"));;
    mret (inl false).

(** gbl/libfastboot/src/lib.rs:945-993, [process_next_command]. *)
Definition process_next_command (fuel : nat) : handler (bool + unit) :=
  let packet := zeros (MAX_COMMAND_SIZE + 1) in
  '(cmd_size, packet) ← on_transport_only
     (with_buffer packet (into_prefix MAX_COMMAND_SIZE receive_packet));
  if cmd_size =? 0 then mret (inl false) else
  cmd_str ← lift (index_range packet 0 cmd_size);
  if negb (is_utf8 cmd_str) then
    send_fail packet (str "Invalid Command");; mret (inl false)
  else
    match split_on 58 cmd_str with
    | [] => send_fail packet (str "No command");; mret (inl false)
    | cmd :: args => dispatch fuel packet cmd_str cmd args
    end.

(** gbl/libfastboot/src/lib.rs:995-1007, [run]: [true] when the host ended the session,
    [false] when the fuel did not suffice. *)
Fixpoint run (fuel : nat) : handler bool :=
  match fuel with
  | O => mret false
  | S fuel' =>
      r ← process_next_command fuel;
      match r with
      | inl true => mret true
      | inl false => run fuel'
      | inr _ => mret false
      end
  end.
End Handlers.

(** gbl/libfastboot/src/lib.rs:1009-1019, [run_tcp_session]. *)
Definition run_tcp_session {T B} `{!TcpStream T, !FastbootImplementation B, !ShowError}
    (fuel : nat) : ST (T * B) Error bool := λ s,
  match new_and_handshake (fst s) with
  | (Ok tcp, _) => let '(r, (tcp', b)) := run fuel (tcp, snd s) in (r, (tcp_stream tcp', b))
  | (Err e, t) => (Err e, (t, snd s))
  | (Panic, t) => (Panic, (t, snd s))
  end.
