(* ===== verification/FastbootSpec.v ===== *)
(** * libfastboot: what the responder puts on the wire

    The rules for the runs of the protocol engine that the properties of
    FastbootProps rest on: [runs pan m s Q X] says what a run of [m] from [s]
    ends in, where [pan] says whether it may panic. The rules for sending a
    message hold for every message if [pan] is [True], and for messages that fit
    a response if [pan] is [False]. *)

From S2P Require Import Prelude LibError Text Utils Fastboot.
Import FormattedBytes.

(** ** Runs *)

Definition runs {S E A} (pan : Prop) (m : ST S E A) (s : S)
    (Q : A → S → Prop) (X : E → S → Prop) : Prop :=
  match m s with
  | (Ok a, s') => Q a s'
  | (Err e, s') => X e s'
  | (Panic, _) => pan
  end.

Section Runs.
Context {S E : Type} (pan : Prop).
Implicit Types s : S.

Lemma runs_bind {A B} (m : ST S E A) (f : A → ST S E B) s Q X :
  runs pan m s (λ a s', runs pan (f a) s' Q X) X → runs pan (m ≫= f) s Q X.
Proof. unfold runs. rewrite bind_run. by destruct (m s) as [[] ?]. Qed.

Lemma runs_mono {A} (m : ST S E A) s (Q Q' : A → S → Prop) (X X' : E → S → Prop) :
  runs pan m s Q X → (∀ a s', Q a s' → Q' a s') → (∀ e s', X e s' → X' e s') → runs pan m s Q' X'.
Proof. unfold runs. destruct (m s) as [[] ?]; auto. Qed.

Lemma runs_ret {A} (a : A) s (Q : A → S → Prop) (X : E → S → Prop) :
  Q a s → runs pan (mret a) s Q X.
Proof. done. Qed.

Lemma runs_raise {A} (e : E) s (Q : A → S → Prop) X : X e s → runs pan (raise e) s Q X.
Proof. done. Qed.

Lemma runs_gets {A} (f : S → A) s (Q : A → S → Prop) (X : E → S → Prop) :
  Q (f s) s → runs pan (gets f) s Q X.
Proof. done. Qed.

Lemma runs_modify (f : S → S) s (Q : unit → S → Prop) (X : E → S → Prop) :
  Q tt (f s) → runs pan (modify f) s Q X.
Proof. done. Qed.

Lemma runs_lift {A} (r : outcome E A) s (Q : A → S → Prop) X :
  match r with Ok a => Q a s | Err e => X e s | Panic => pan end → runs pan (lift r) s Q X.
Proof. done. Qed.

Lemma runs_lift_ok {A} (r : outcome E A) a s (Q : A → S → Prop) X :
  r = Ok a → Q a s → runs pan (lift r) s Q X.
Proof. by intros ->. Qed.

Lemma runs_fmap {A B} (f : A → B) (m : ST S E A) s Q X :
  runs pan m s (λ a, Q (f a)) X → runs pan (f <$> m) s Q X.
Proof.
  unfold runs. change ((f <$> m) s) with (ST_fmap S E A B f m s).
  unfold ST_fmap. by destruct (m s) as [[] ?].
Qed.

Lemma runs_attempt {A} (m : ST S E A) s (Q : A + E → S → Prop) X :
  runs pan m s (λ a, Q (inl a)) (λ e, Q (inr e)) → runs pan (attempt m) s Q X.
Proof. unfold runs. rewrite attempt_run. by destruct (m s) as [[] ?]. Qed.

Lemma runs_zoom {T A} (get : S → T) (put : T → S → S) (m : ST T E A) s Q X :
  runs pan m (get s) (λ a t, Q a (put t s)) (λ e t, X e (put t s)) →
  runs pan (zoom get put m) s Q X.
Proof. unfold runs, zoom. by destruct (m (get s)) as [[] ?]. Qed.
End Runs.

Create HintDb runs.
#[export] Hint Resolve runs_ret runs_gets runs_modify runs_raise : runs.

(** Steps through a computation up to the next call that needs a rule. *)
Ltac step :=
  lazymatch goal with
  | |- runs _ (_ ≫= _) _ _ _ => apply runs_bind; step
  | |- runs _ (_ <$> _) _ _ _ => apply runs_fmap; step
  | |- runs _ (gets _) _ _ _ => apply runs_gets; unfold id; cbn [fst snd]
  | |- runs _ (mret _) _ _ _ => apply runs_ret
  | |- runs _ (modify _) _ _ _ => apply runs_modify
  | |- runs _ (raise _) _ _ _ => apply runs_raise
  | |- runs _ (lift _) _ _ _ => apply runs_lift
  | |- runs _ (attempt _) _ _ _ => apply runs_attempt
  | |- runs _ (zoom _ _ _) _ _ _ => apply runs_zoom; cbn [fst snd]
  | |- runs _ _ _ _ _ => idtac
  end; cbn beta.

(** ** Formatting into a buffer *)

Lemma write_all_new b l :
  ∃ f, write_all (new b) l = Ok f ∧ length (buf f) = length b ∧
       contents f = take (length b) (mjoin l) ∧ 0 ≤ size f ≤ zlen b ∧
       size f = Z.min (zlen b) (zlen (mjoin l)).
Proof.
  destruct (write_all_spec l (new b) (new_wf b)) as (f & E & W & L & C).
  exists f. unfold wf in W. simpl in *. rewrite L in W. split_and!; try done; try lia.
  assert (Hs : length (contents f) = length (take (length b) (mjoin l))) by (by rewrite C).
  revert Hs. unfold contents. rewrite length_slice, length_take. lia.
Qed.

Lemma zlen_mjoin_cons (x : bytes) l : zlen (mjoin (x :: l)) = zlen x + zlen (mjoin l).
Proof. change (mjoin (x :: l)) with (x ++ mjoin l). rewrite length_app. lia. Qed.

Lemma mjoin_one (x : bytes) : mjoin [x] = x.
Proof. apply app_nil_r. Qed.

(** A number of a command, as the host prints it. *)
Lemma hex_to_u64_hex0x z : u64_ok z → hex_to_u64 (fmt_hex0x z) = Ok z.
Proof.
  intros Hz. unfold hex_to_u64, fmt_hex0x. rewrite strip_prefix_app. simpl default.
  by rewrite from_str_radix_hex.
Qed.

Lemma command_error_run {E} val :
  ∃ e : CommandError, command_error (E:=E) val = Ok e ∧
    contents (ce_bytes e) = take 252 (mjoin val).
Proof.
  destruct (write_all_new (zeros COMMAND_ERROR_LENGTH) val) as (f & Ef & _ & C & _).
  unfold command_error. rewrite Ef. by eexists.
Qed.

(** Numbers are short. *)
Lemma length_digits fuel base z : (length (digits fuel base z) ≤ fuel)%nat.
Proof.
  revert z. induction fuel as [|fuel IH]; intros z; cbn [digits]; [done|].
  case_match; simpl; [lia|]. rewrite length_app. specialize (IH (z / base)). simpl. lia.
Qed.
Lemma zlen_fmt_hex z : zlen (fmt_hex z) ≤ 64.
Proof. unfold fmt_hex. rewrite length_fmap. pose proof (length_digits 64 16 z). lia. Qed.
Lemma zlen_fmt_hex08 z : zlen (fmt_hex08 z) ≤ 64.
Proof.
  unfold fmt_hex08. rewrite length_app, length_replicate. pose proof (zlen_fmt_hex z). lia.
Qed.

Lemma zlen_fmt_dec z : zlen (fmt_dec z) ≤ 64.
Proof. unfold fmt_dec. rewrite length_fmap. pose proof (length_digits 64 10 z). lia. Qed.
Lemma show_utf8_error_short l : zlen (mjoin [str "Invalid return string "; show_utf8_error l]) < 252.
Proof.
  change (mjoin [?a; ?b]) with (a ++ b ++ []). rewrite app_nil_r, length_app.
  change (length (str "Invalid return string ")) with 22%nat.
  unfold show_utf8_error. destruct (utf8_error 0 l) as [[n [k|]]|]; rewrite ?length_app;
    try pose proof (zlen_fmt_dec n); try pose proof (zlen_fmt_dec k); simpl length; lia.
Qed.

(** ** The wire *)

(** A transport and the packets that went out on it. *)
Class Wire (T : Type) `{!Transport T} := {
  wire : T → list bytes;
  wire_send : ∀ p t t', send_packet p t = (Ok tt, t') → wire t' = wire t ++ [p];
  send_no_panic : ∀ p t, (send_packet p t).1 ≠ Panic;
  wire_receive : ∀ t out r t' out',
    receive_packet (t, out) = (r, (t', out')) →
    wire t' = wire t ∧ length out' = length out ∧
    match r with Ok n => 0 ≤ n ≤ zlen out | Err _ => True | Panic => False end;
}.

Section Responder.
Context {T : Type} `{!Transport T, !Wire T} (pan : Prop).
Implicit Types r : Responder T.

(** The message buffer has its size, and no panic is stored. *)
Definition resp_ok r : Prop :=
  zlen (rs_buffer r) = MAX_RESPONSE_SIZE ∧ rs_transport_error r ≠ Panic.
(** No packet was lost. *)
Definition clean r : Prop := rs_transport_error r = Ok tt.
(** From [r] to [r'] packets [ps] with [G ps] went out, unless one was lost. *)
Definition said (G : list bytes → Prop) r r' : Prop :=
  resp_ok r' ∧
  (clean r' → clean r ∧ ∃ ps, wire (rs_transport r') = wire (rs_transport r) ++ ps ∧ G ps).
Definition same_upload r r' : Prop := rs_remaining_upload r' = rs_remaining_upload r.

Lemma said_mono (G G' : list bytes → Prop) r r' :
  said G r r' → (∀ ps, G ps → G' ps) → said G' r r'.
Proof. intros [H1 H2] H. split; [done|]. naive_solver. Qed.

Lemma said_trans (G1 G2 G : list bytes → Prop) r1 r2 r3 :
  said G1 r1 r2 → said G2 r2 r3 → (∀ p q, G1 p → G2 q → G (p ++ q)) → said G r1 r3.
Proof.
  intros [_ H1] [H2 H3] HG. split; [done|]. intros (C2 & q & Eq & Gq)%H3.
  destruct (H1 C2) as (C1 & p & Ep & Gp). split; [done|].
  exists (p ++ q). rewrite Eq, Ep, app_assoc. auto.
Qed.

Lemma said_nothing (G : list bytes → Prop) r : resp_ok r → G [] → said G r r.
Proof. intros. split; [done|]. intros. split; [done|]. exists []. by rewrite app_nil_r. Qed.

Lemma said_lost (G : list bytes → Prop) r r' : resp_ok r' → ¬ clean r' → said G r r'.
Proof. by split. Qed.

Lemma transmit_runs data r X :
  resp_ok r → clean r →
  runs pan (transmit data) r (λ _ r', said (λ ps, ps = [data]) r r' ∧ same_upload r r' ∧
    rs_buffer r' = rs_buffer r) X.
Proof.
  intros [Hb _] Hc. unfold runs, transmit.
  pose proof (send_no_panic data (rs_transport r)) as Hp.
  destruct (send_packet data (rs_transport r)) as [[[]|e|] t] eqn:E; [| |done].
  - apply wire_send in E. split_and!; [|done..]. split; [done|]. intros _.
    split; [done|]. by exists [data].
  - split_and!; [|done..]. by apply said_lost.
Qed.

(** A message in the buffer goes out or the failure of the transport is
    returned; a message that fills the buffer is the only panic. *)
Lemma send_buffer_runs size r :
  resp_ok r → 0 ≤ size ≤ MAX_RESPONSE_SIZE → (pan ∨ size < MAX_RESPONSE_SIZE ∨ ¬ clean r) →
  runs pan (send_buffer size) r
    (λ _ r', size < MAX_RESPONSE_SIZE ∧ clean r' ∧ same_upload r r' ∧
       said (λ ps, ps = [slice (rs_buffer r) 0 size]) r r')
    (λ _ r', ¬ clean r' ∧ same_upload r r' ∧ resp_ok r').
Proof.
  intros Hr Hs Hp. unfold send_buffer. step. step.
  pose proof Hr as [Hb Hn]. unfold clean in Hp.
  destruct (rs_transport_error r) as [[]|e|] eqn:Ee; [| |done].
  2:{ split_and!; try done. unfold clean. by rewrite Ee. }
  step. rewrite Hb.
  destruct (size <? MAX_RESPONSE_SIZE) eqn:El; bools.
  2:{ simpl. destruct Hp as [?|[?|?]]; [done|lia|done]. }
  cbn [assert_that]. step. rewrite index_range_ok by lia. rewrite Z.sub_0_r.
  apply runs_bind. eapply runs_mono;
    [apply (transmit_runs _ _ (λ _ _, False)); done| |done].
  intros _ r' (Hsaid & Hup & Hbuf). step. step.
  pose proof Hsaid as [[_ Hnp] _].
  destruct (rs_transport_error r') as [[]|e|] eqn:Ee'; [by split_and!| |done].
  split_and!; [|done|apply Hsaid]. unfold clean. by rewrite Ee'.
Qed.

Definition fits_response (ty : bytes) (msg : list bytes) : Prop :=
  zlen ty + zlen (mjoin msg) < MAX_RESPONSE_SIZE.

(** Writing a message and sending it, as [send_formatted_msg], [reply_okay] and
    [reply_fail] do. *)
Lemma send_msg_runs ty msg r f :
  resp_ok r → write_all (new (rs_buffer r)) (ty :: msg) = Ok f →
  (pan ∨ fits_response ty msg ∨ ¬ clean r) →
  runs pan (send_buffer (size f)) (set_buffer (buf f) r)
    (λ _ r', clean r' ∧ same_upload r r' ∧ said (λ ps, ps = [ty ++ mjoin msg]) r r')
    (λ _ r', ¬ clean r' ∧ same_upload r r' ∧ resp_ok r').
Proof.
  intros [Hb Hn] Ef Hp.
  destruct (write_all_new (rs_buffer r) (ty :: msg)) as (f' & Ef' & L & C & Hs & Hsz).
  rewrite Ef in Ef'. injection Ef' as <-. rewrite zlen_mjoin_cons in Hsz.
  unfold fits_response in Hp.
  assert (Hr' : resp_ok (set_buffer (buf f) r)) by (split; simpl; [lia|done]).
  eapply runs_mono; [apply send_buffer_runs| |]; [done|lia| |..].
  - destruct Hp as [?|[?|?]]; [by left|right; left; lia|by right; right].
  - intros _ r' (Hlt & Hc & Hup & Hsaid). split_and!; [done..|].
    destruct Hsaid as [Ho Hw]. split; [done|]. intros _.
    destruct (Hw Hc) as (Hc' & ps & Ew & ->). split; [done|].
    eexists. split; [exact Ew|]. f_equal.
    cbn [set_buffer rs_buffer]. fold (contents f). rewrite C.
    change (mjoin (ty :: msg)) with (ty ++ mjoin msg). apply take_ge.
    rewrite length_app. lia.
  - done.
Qed.

Lemma send_formatted_msg_runs ty msg r :
  resp_ok r → (pan ∨ fits_response ty msg ∨ ¬ clean r) →
  runs pan (send_formatted_msg ty msg) r
    (λ _ r', clean r' ∧ same_upload r r' ∧ said (λ ps, ps = [ty ++ mjoin msg]) r r')
    (λ _ r', ¬ clean r' ∧ same_upload r r' ∧ resp_ok r').
Proof.
  intros Hr Hp. unfold send_formatted_msg. step.
  destruct (write_all_new (rs_buffer r) (ty :: msg)) as (f & Ef & _).
  step. rewrite Ef. cbn [unwrap_res]. step.
  by apply send_msg_runs.
Qed.

Lemma fastboot_msg_run b ty msg :
  ∃ f, write_all (new b) (ty :: msg) = Ok f ∧ fastboot_msg b ty msg = Ok (buf f, size f).
Proof.
  destruct (write_all_new b (ty :: msg)) as (f & Ef & L & _ & Hs & _).
  exists f. split; [done|]. unfold fastboot_msg. rewrite Ef. simpl.
  rewrite index_range_ok by lia. done.
Qed.

Lemma reply_runs (okay : bool) msg r :
  resp_ok r → (pan ∨ zlen (mjoin msg) < 252 ∨ ¬ clean r) →
  runs pan (if okay then reply_okay msg else reply_fail msg) r
    (λ _ r', said (λ ps, ps = [str (if okay then "OKAY" else "FAIL") ++ mjoin msg]) r r' ∧ clean r')
    (λ _ r', resp_ok r').
Proof.
  intros Hr Hp.
  destruct (fastboot_msg_run (rs_buffer r) (str (if okay then "OKAY" else "FAIL")) msg)
    as (f & Ef & Em).
  assert (runs pan (send_buffer (size f)) (set_buffer (buf f) r)
    (λ _ r', said (λ ps, ps = [str (if okay then "OKAY" else "FAIL") ++ mjoin msg]) r r' ∧ clean r')
    (λ _ r', resp_ok r')).
  { eapply runs_mono; [apply (send_msg_runs _ _ _ _ Hr Ef)| |]; try naive_solver.
    unfold fits_response, MAX_RESPONSE_SIZE.
    destruct Hp as [?|[?|?]]; [by left|right; left|by right; right].
    assert (zlen (str (if okay then "OKAY" else "FAIL")) = 4) by (by destruct okay). lia. }
  destruct okay; [unfold reply_okay, fastboot_okay|unfold reply_fail, fastboot_fail];
    step; step; rewrite Em; step; done.
Qed.

(** ** Backend methods *)

Definition is_info (p : bytes) : Prop := ∃ x, p = str "INFO" ++ x.
Definition is_okay (p : bytes) : Prop := ∃ x, p = str "OKAY" ++ x.
Definition is_fail (p : bytes) : Prop := ∃ x, p = str "FAIL" ++ x.
Definition is_data (n : Z) (p : bytes) : Prop := p = str "DATA" ++ fmt_hex08 n.
Definition infos : list bytes → Prop := Forall is_info.

(** The texts a backend gives to the responder leave room for the message type
    and one more byte. *)
Definition short (text : bytes) : Prop := pan ∨ zlen text < 252.

Fixpoint polite_info {A} (R : A → Prop) (a : info_act A) : Prop :=
  match a with
  | IRet x => R x
  | IInfo msg k => short (mjoin msg) ∧ ∀ e, polite_info R (k e)
  end.
Fixpoint polite_var {A} (R : A → Prop) (a : var_act A) : Prop :=
  match a with
  | VRet x => R x
  | VInfo name args val k =>
      short (name ++ mjoin ((λ arg, str ":" ++ arg) <$> args) ++ str ": " ++ val) ∧
      ∀ e, polite_var R (k e)
  end.
Fixpoint polite_okay {A} (R : A → Prop) (a : okay_act A) : Prop :=
  match a with
  | ORet x => R x
  | OInfo msg k => short (mjoin msg) ∧ ∀ e, polite_okay R (k e)
  | OOkay msg k => short (mjoin msg) ∧ ∀ e, R (k e)
  end.
Fixpoint polite_uploading {A} (R : A → Prop) (a : uploading A) : Prop :=
  match a with
  | URet x => R x
  | UData data k => ∀ e, polite_uploading R (k e)
  end.
Fixpoint polite_upload {A} (R : A → Prop) (a : upload_act A) : Prop :=
  match a with
  | BRet x => R x
  | BInfo msg k => short (mjoin msg) ∧ ∀ e, polite_upload R (k e)
  | BStart n failed started =>
      u64_ok n ∧ (∀ e, R (failed e)) ∧ polite_uploading R started
  end.

Lemma send_info_runs ty msg r :
  resp_ok r → zlen (str ty) = 4 → short (mjoin msg) →
  runs pan (send_formatted_msg (str ty) msg) r
    (λ _ r', same_upload r r' ∧ said (λ ps, ps = [str ty ++ mjoin msg]) r r')
    (λ _ r', ¬ clean r' ∧ same_upload r r' ∧ resp_ok r').
Proof.
  intros Hr Hty Hs. eapply runs_mono; [apply send_formatted_msg_runs; [done|]| |]; [|naive_solver..].
  destruct Hs as [?|?]; [by left|right; left]. unfold fits_response, MAX_RESPONSE_SIZE. lia.
Qed.

(** An INFO message, and then [f]. *)
Lemma info_then {A} (f : sent → ST (Responder T) Error A) msg r
    (P : A → Responder T → Prop) (G : A → Responder T → list bytes → Prop) :
  resp_ok r → short (mjoin msg) →
  (∀ x r' m q, G x r' q → G x r' ((str "INFO" ++ m) :: q)) →
  (∀ e r1, resp_ok r1 → same_upload r r1 →
     runs pan (f e) r1 (λ x r', P x r' ∧ said (G x r') r1 r') (λ _ _, False)) →
  runs pan (attempt (send_formatted_msg (str "INFO") msg) ≫= f) r
    (λ x r', P x r' ∧ said (G x r') r r') (λ _ _, False).
Proof.
  intros Hr Hs HG Hf. step. eapply runs_mono; [by apply send_info_runs| |].
  - intros u r1 (Hu & Hsd). eapply runs_mono; [apply Hf; [apply Hsd|done]| |done].
    intros x r2 (HP & Hsd2). split; [done|].
    eapply said_trans; [exact Hsd|exact Hsd2|]. intros p q ->. apply HG.
  - intros e r1 (Hc & Hu & Hr1). eapply runs_mono; [by apply Hf| |done].
    intros x r2 (HP & Hsd2). split; [done|].
    eapply said_trans; [by apply (said_lost (λ ps, ps = []))|exact Hsd2|]. by intros p q ->.
Qed.

Lemma infos_cons m q : infos q → infos ((str "INFO" ++ m) :: q).
Proof. constructor; [by exists m|done]. Qed.
Hint Resolve infos_cons : core.

Lemma run_info_runs {A} (R : A → Prop) a r u :
  resp_ok r → polite_info R a → rs_remaining_upload r = u →
  runs pan (run_info a) r
    (λ x r', (R x ∧ rs_remaining_upload r' = u) ∧ said infos r r') (λ _ _, False).
Proof.
  revert r. induction a as [x|msg k IH]; intros r Hr Ha Hu; cbn [run_info polite_info] in *.
  - step. split_and!; [done..|]. apply said_nothing; [done|constructor].
  - destruct Ha as [Hs Hk].
    apply (info_then _ _ _ (λ x r', R x ∧ rs_remaining_upload r' = u) (λ _ _, infos)); auto.
    intros e r1 Hr1 Hu1. apply IH; [done|apply Hk|by rewrite Hu1].
Qed.

Lemma run_var_runs {A} (R : A → Prop) a r u :
  resp_ok r → polite_var R a → rs_remaining_upload r = u →
  runs pan (run_var a) r
    (λ x r', (R x ∧ rs_remaining_upload r' = u) ∧ said infos r r') (λ _ _, False).
Proof.
  revert r. induction a as [x|name args val k IH]; intros r Hr Ha Hu; cbn [run_var polite_var] in *.
  - step. split_and!; [done..|]. apply said_nothing; [done|constructor].
  - destruct Ha as [Hs Hk].
    apply (info_then _ _ _ (λ x r', R x ∧ rs_remaining_upload r' = u) (λ _ _, infos)); auto.
    + revert Hs. rewrite !join_app. simpl. by rewrite !app_nil_r.
    + intros e r1 Hr1 Hu1. apply IH; [done|apply Hk|by rewrite Hu1].
Qed.

(** INFO messages, and perhaps an OKAY message after them. *)
Definition infos_okay (ps : list bytes) : Prop :=
  infos ps ∨ ∃ i o, ps = i ++ [o] ∧ infos i ∧ is_okay o.

Lemma run_okay_runs {A} (R : A → Prop) a r :
  resp_ok r → polite_okay R a →
  runs pan (run_okay a) r (λ x r', R x ∧ said infos_okay r r') (λ _ _, False).
Proof.
  revert r. induction a as [x|msg k IH|msg k]; intros r Hr Ha; cbn [run_okay polite_okay] in *.
  - step. split_and!; [done..|]. apply said_nothing; [done|left; constructor].
  - destruct Ha as [Hs Hk].
    apply (info_then _ _ _ (λ x _, R x) (λ _ _, infos_okay)); auto.
    intros _ _ m q [H|(i & o & -> & H & Ho)]; [left; auto|right].
    exists ((str "INFO" ++ m) :: i), o. split_and!; auto.
  - destruct Ha as [Hs Hk]. step. eapply runs_mono; [by apply send_info_runs| |].
    + intros u r1 (_ & Hsd). step. split; [done|]. eapply said_mono; [exact Hsd|].
      intros ps ->. right. exists [], (str "OKAY" ++ mjoin msg).
      split_and!; [done|constructor|by eexists].
    + intros e r1 (Hc & _ & Hr1). step. split; [done|by apply said_lost].
Qed.

Definition total (ps : list bytes) : Z := zlen (mjoin ps).

Lemma uploader_upload_runs data r :
  resp_ok r → 0 ≤ rs_remaining_upload r < 2 ^ 64 →
  runs pan (uploader_upload data) r
    (λ _ r', 0 ≤ rs_remaining_upload r' < 2 ^ 64 ∧
       said (λ ps, rs_remaining_upload r = total ps + rs_remaining_upload r') r r')
    (λ _ r', 0 ≤ rs_remaining_upload r' < 2 ^ 64 ∧
       said (λ ps, rs_remaining_upload r = total ps + rs_remaining_upload r') r r').
Proof.
  intros Hr Hu. unfold uploader_upload. step. step.
  pose proof Hr as [Hb Hn].
  destruct (rs_transport_error r) as [[]|e|] eqn:Ee; [| |done].
  2:{ split; [done|]. by apply said_nothing. }
  step. destruct (checked 64 (zlen data)) eqn:Ec; [|split; [done|]; by apply said_nothing].
  unfold checked in Ec. destruct (fits 64 (zlen data)); [|done]. injection Ec as <-.
  cbn [ok_or]. step. unfold checked.
  destruct (fits 64 _) eqn:Ef; [|split; [done|]; by apply said_nothing].
  apply fits_spec in Ef. cbn [ok_or]. step.
  eapply runs_mono; [apply (transmit_runs _ _ (λ _ _, False)); done| |done].
  intros _ r' (Hsd & Hup & _). unfold same_upload in Hup. cbn [set_remaining rs_remaining_upload] in Hup.
  rewrite Hup. split; [done|]. destruct Hsd as [Ho Hw]. split; [done|].
  intros (Hc' & ps & Ew & ->)%Hw. split; [done|]. eexists. split; [exact Ew|].
  unfold total. change (mjoin [data]) with (data ++ []). rewrite app_nil_r. lia.
Qed.

Lemma total_app p q : total (p ++ q) = total p + total q.
Proof. unfold total. rewrite join_app, length_app. lia. Qed.

Lemma run_uploading_runs {A} (R : A → Prop) a r :
  resp_ok r → 0 ≤ rs_remaining_upload r < 2 ^ 64 → polite_uploading R a →
  runs pan (run_uploading a) r
    (λ x r', (R x ∧ 0 ≤ rs_remaining_upload r' < 2 ^ 64) ∧
       said (λ ps, rs_remaining_upload r = total ps + rs_remaining_upload r') r r') (λ _ _, False).
Proof.
  revert r. induction a as [x|data k IH]; intros r Hr Hu Ha; cbn [run_uploading polite_uploading] in *.
  - step. split_and!; [done|lia|lia|]. by apply said_nothing.
  - step. eapply runs_mono; [by apply uploader_upload_runs| |];
      intros e r1 (Hu1 & Hsd); (eapply runs_mono; [apply IH; [apply Hsd|done|apply Ha]| |done]);
      intros x r2 ([HR Hu2] & Hsd2); (split_and!; [done|lia|lia|]);
      (eapply said_trans; [exact Hsd|exact Hsd2|]); intros p q Hp Hq; cbn beta in *; rewrite total_app; lia.
Qed.

(** INFO messages, and perhaps an upload of [left] bytes less than announced. *)
Definition infos_upload (left : Z) (ps : list bytes) : Prop :=
  (infos ps ∧ left = 0) ∨
  ∃ i n d data, ps = i ++ d :: data ∧ infos i ∧ is_data n d ∧ n = total data + left.

Lemma run_upload_runs {A} (R : A → Prop) a r :
  resp_ok r → rs_remaining_upload r = 0 → polite_upload R a →
  runs pan (run_upload a) r
    (λ x r', (R x ∧ 0 ≤ rs_remaining_upload r') ∧
       said (infos_upload (rs_remaining_upload r')) r r') (λ _ _, False).
Proof.
  revert r. induction a as [x|msg k IH|n failed started];
    intros r Hr Hu Ha; cbn [run_upload polite_upload] in *.
  - step. split_and!; [done|lia|]. apply said_nothing; [done|left]. by split; [constructor|].
  - destruct Ha as [Hs Hk].
    apply (info_then _ _ _ (λ x r', R x ∧ 0 ≤ rs_remaining_upload r')
      (λ _ r', infos_upload (rs_remaining_upload r'))); auto.
    + intros _ r' m q [[H E]|(i & n & d & data & -> & H & Hd & En)]; [left; auto|right].
      exists ((str "INFO" ++ m) :: i), n, d, data. split_and!; auto.
    + intros e r1 Hr1 Hu1. apply IH; [done|by rewrite Hu1|apply Hk].
  - destruct Ha as (Hn & Hfail & Hst). step. unfold initiate_upload, send_data_message. step.
    eapply runs_mono; [apply send_formatted_msg_runs; [done|]| |].
    + right. left. unfold fits_response, MAX_RESPONSE_SIZE. rewrite zlen_mjoin_cons.
      pose proof (zlen_fmt_hex08 n). change (zlen (str "DATA")) with 4. simpl. lia.
    + intros u r1 (Hc & _ & Hsd). step. cbn beta.
      eapply runs_mono; [apply (run_uploading_runs R); [|done..]| |done].
      { apply Hsd. }
      intros x r2 ([HR Hu2] & Hsd2). split; [split; [done|lia]|].
      eapply (said_trans _ _ _ r (set_remaining n r1)); [exact Hsd|exact Hsd2|].
      intros p q -> Hq. right. exists [], n, (str "DATA" ++ fmt_hex08 n), q.
      split_and!; [simpl; by rewrite app_nil_r|constructor|done|exact Hq].
    + intros e r1 (Hc & Hu1 & Hr1). step. split; [split; [done|by rewrite Hu1, Hu]|].
      by apply said_lost.
Qed.
End Responder.
