(* ===== verification/FastbootProps.v ===== *)
(** * libfastboot: properties

    For every transport and every backend: what one command puts on the wire,
    that the engine does not panic, that a download fills the buffer with the
    bytes of the host, and that arguments and TCP frames are read back as they
    were written. *)

From S2P Require Import Prelude LibError Text Utils Fastboot FastbootSpec.
Import FormattedBytes.

(** ** Backends that keep their texts short *)

Section Polite.
Context {B : Type} `{!FastbootImplementation B} (pan : Prop).

(** A result whose error text, or the text made from its value, is short. *)
Definition polite_result {X} (text : X → bytes) (r : CommandResult X) : Prop :=
  match r with
  | Ok x => short pan (text x)
  | Err e => short pan (ce_to_str e)
  | Panic => pan
  end.
Definition polite_unit (x : CommandResult unit * B) : Prop := polite_result (λ _, []) x.1.

(** An error that is returned and has a short text. *)
Definition polite_error (x : option CommandError) : Prop :=
  match x with Some e => short pan (ce_to_str e) | None => pan end.

(** Every text of the backend is shorter than 252 bytes and no method panics,
    or both may happen ([pan]). *)
Record polite_backend : Prop := {
  pb_get_var : ∀ b var args out, polite_info pan
    (λ '(r, out', _), polite_result (λ n, default [] (get_range out' 0 n)) r)
    (fb_get_var b var args out);
  pb_get_var_all : ∀ b, polite_var pan polite_unit (fb_get_var_all b);
  pb_buffer : ∀ b, pan ∨ fb_get_download_buffer b ≠ None;
  pb_download_complete : ∀ b n, polite_info pan polite_unit (fb_download_complete b n);
  pb_flash : ∀ b part, polite_info pan polite_unit (fb_flash b part);
  pb_erase : ∀ b part, polite_info pan polite_unit (fb_erase b part);
  pb_upload : ∀ b, polite_upload pan polite_unit (fb_upload b);
  pb_fetch : ∀ b part off sz, polite_upload pan polite_unit (fb_fetch b part off sz);
  pb_reboot : ∀ b mode, polite_okay pan (λ x, polite_error x.1) (fb_reboot b mode);
  pb_continue : ∀ b, polite_info pan polite_unit (fb_continue b);
  pb_set_active : ∀ b slot, polite_info pan polite_unit (fb_set_active b slot);
  pb_boot : ∀ b, polite_okay pan polite_unit (fb_boot b);
  pb_oem : ∀ b cmd res, polite_info pan (λ x, polite_result id x.1) (fb_oem b cmd res);
}.
End Polite.

(** ** What one command puts on the wire *)

Definition is_final (p : bytes) : Prop := is_okay p ∨ is_fail p.
(** INFO messages and one answer. *)
Definition plain (ps : list bytes) : Prop :=
  ∃ i f, ps = i ++ [f] ∧ infos i ∧ is_final f.
(** INFO messages, an early OKAY and one answer. *)
Definition early_okay (ps : list bytes) : Prop :=
  ∃ i o f, ps = i ++ [o; f] ∧ infos i ∧ is_okay o ∧ is_final f.
(** INFO messages, the announcement of [n] bytes, packets of together [n] bytes
    and one answer. *)
Definition upload_exact (ps : list bytes) : Prop :=
  ∃ i n d data f, ps = i ++ d :: data ++ [f] ∧
    infos i ∧ is_data n d ∧ total data = n ∧ is_final f.
(** The announcement of a download, INFO messages and one answer. *)
Definition download_answer (ps : list bytes) : Prop :=
  ∃ n d i f, ps = d :: i ++ [f] ∧ is_data n d ∧ infos i ∧ is_final f.

Definition one_of (l : list string) (cmd : bytes) : Prop := cmd ∈ (str <$> l).
#[export] Instance one_of_dec l cmd : Decision (one_of l cmd).
Proof. unfold one_of. apply _. Defined.

Definition conversation (cmd : bytes) (ps : list bytes) : Prop :=
  plain ps ∨
  (one_of ["upload"; "fetch"]%string cmd ∧ upload_exact ps) ∨
  (cmd = str "download" ∧ download_answer ps) ∨
  (one_of ["boot"; "reboot"; "reboot-bootloader"; "reboot-fastboot"; "reboot-recovery"]%string cmd
   ∧ early_okay ps).

(** ** Handlers *)

Section Handlers.
Context {T B : Type} `{!Transport T, !Wire T, !FastbootImplementation B, !ShowError}.
Context (pan : Prop) (HB : polite_backend (B:=B) pan).
Implicit Types (r : Responder T) (b : B).

Definition answered (G : list bytes → Prop) (t : T) (s : T * B) : Prop :=
  ∃ ps, wire s.1 = wire t ++ ps ∧ G ps.

Lemma with_responder_if {A} (m : ST (Responder T * B) Error A) (P : A → Prop)
    (G : list bytes → Prop) t b :
  (∀ r, resp_ok r → rs_remaining_upload r = 0 → rs_transport r = t ∧ clean r →
     runs pan m (r, b) (λ a s', P a → clean s'.1 ∧ said G r s'.1) (λ _ _, True)) →
  runs pan (with_responder m) (t, b) (λ a s', P a → answered G t s') (λ _ _, True).
Proof.
  intros Hm. specialize (Hm (responder_new t) ltac:(done) eq_refl (conj eq_refl eq_refl)).
  revert Hm. unfold runs, with_responder. cbn [fst snd]. intros Hm.
  destruct (m (responder_new t, b)) as [[a|e|] [r' b']]; [|done|done].
  intros [Hc [_ Hw]]%Hm. destruct (Hw Hc) as (_ & ps & Ew & HG). by exists ps.
Qed.

Lemma with_responder_runs {A} (m : ST (Responder T * B) Error A) (G : list bytes → Prop) t b :
  (∀ r, resp_ok r → rs_remaining_upload r = 0 → rs_transport r = t ∧ clean r →
     runs pan m (r, b) (λ _ s', clean s'.1 ∧ said G r s'.1) (λ _ _, True)) →
  runs pan (with_responder m) (t, b) (λ _ s', answered G t s') (λ _ _, True).
Proof.
  intros Hm. eapply runs_mono; [apply (with_responder_if m (λ _, True) G)| |done].
  - intros r Hr Hu Ht. eapply runs_mono; [by apply Hm|done|done].
  - intros a s' Ha. by apply Ha.
Qed.

Lemma call_runs {A} (m : B → ST (Responder T) Error (A * B)) r b Q X :
  runs pan (m b) r (λ x r', Q x.1 (r', x.2)) (λ _ _, False) →
  runs pan (call m) (r, b) Q X.
Proof. unfold runs, call. simpl. by destruct (m b r) as [[[? ?]|?|] ?]. Qed.

Lemma on_responder_runs {A} (m : ST (Responder T) Error A) r b Q X :
  runs pan m r (λ a r', Q a (r', b)) (λ e r', X e (r', b)) →
  runs pan (on_responder m) (r, b) Q X.
Proof. intros Hm. unfold on_responder. by apply runs_zoom. Qed.

Definition final (ps : list bytes) : Prop := ∃ f, ps = [f] ∧ is_final f.

Lemma reply_final (okay : bool) msg r b :
  resp_ok r → short pan (mjoin msg) ∨ ¬ clean r →
  runs pan (on_responder (if okay then reply_okay msg else reply_fail msg)) (r, b)
    (λ _ s', clean s'.1 ∧ said final r s'.1) (λ _ _, True).
Proof.
  intros Hr Hp. apply on_responder_runs.
  eapply runs_mono; [apply reply_runs; [done|]| |done].
  { unfold short in Hp. naive_solver. }
  intros _ r' [Hsd Hc]. split; [done|]. eapply said_mono; [exact Hsd|].
  intros ps ->. eexists. split; [done|]. destruct okay; [left|right]; by eexists.
Qed.

Lemma reply_with_runs {A} (res : CommandResult A) okay r b :
  resp_ok r → polite_result pan (λ a, mjoin (okay a)) res ∨ (¬ clean r ∧ res ≠ Panic) →
  runs pan (reply_with res okay) (r, b)
    (λ _ s', clean s'.1 ∧ said final r s'.1) (λ _ _, True).
Proof.
  intros Hr Hp. destruct res as [a|e|]; cbn [reply_with polite_result] in *.
  - apply (reply_final true); naive_solver.
  - apply (reply_final false); [done|]. rewrite mjoin_one. naive_solver.
  - step. destruct Hp as [?|[_ []]]; done.
Qed.

Lemma reply_result_runs res r b :
  resp_ok r → polite_result pan (λ _, []) res ∨ (¬ clean r ∧ res ≠ Panic) →
  runs pan (reply_result res) (r, b)
    (λ _ s', clean s'.1 ∧ said final r s'.1) (λ _ _, True).
Proof. apply (reply_with_runs res (λ _, [[]])). Qed.

(** A handler that lets the backend work and then replies. *)
Lemma then_reply {A X} (m : ST (Responder T * B) Error A) (f : A → ST (Responder T * B) Error X)
    (G G' : list bytes → Prop) r b (P : A → Responder T → Prop) :
  runs pan m (r, b) (λ a s', P a s'.1 ∧ said G r s'.1) (λ _ _, True) →
  (∀ a r' b', P a r' → resp_ok r' → 
     runs pan (f a) (r', b') (λ _ s', clean s'.1 ∧ said final r' s'.1) (λ _ _, True)) →
  (∀ p q, G p → final q → G' (p ++ q)) →
  runs pan (m ≫= f) (r, b) (λ _ s', clean s'.1 ∧ said G' r s'.1) (λ _ _, True).
Proof.
  intros Hm Hf HG. apply runs_bind. eapply runs_mono; [exact Hm| |done].
  intros a [r1 b1] [HP Hsd]. eapply runs_mono; [apply Hf; [exact HP|apply Hsd]| |done].
  intros x [r2 b2] [Hc Hsd2]. split; [done|]. eapply said_trans; [exact Hsd|exact Hsd2|done].
Qed.

Lemma plain_app p q : infos p → final q → plain (p ++ q).
Proof. intros Hp (f & -> & Hf). by exists p, f. Qed.
Lemma plain_final q : final q → plain q.
Proof. intros Hq. apply (plain_app []); [constructor|done]. Qed.

(** A backend method with an [InfoSender]. *)
Lemma call_info {A} (R : A * B → Prop) (a : B → info_act (A * B)) r b :
  resp_ok r → polite_info pan R (a b) →
  runs pan (call (λ b, run_info (a b))) (r, b)
    (λ x s', R (x, s'.2) ∧ said infos r s'.1) (λ _ _, False).
Proof.
  intros Hr Ha. apply call_runs. eapply runs_mono; [by eapply run_info_runs| |done].
  intros [x b'] r' [[HR _] Hsd]. done.
Qed.

(** Messages of the handlers themselves. *)
Lemma fail_str_polite {A} s (text : A → bytes) :
  match command_error (E:=CommandError) [s] with
  | Ok e => (zlen (ce_to_str e) <? 252) = true
  | _ => False
  end → polite_result pan text (fail_str s).
Proof.
  unfold fail_str. destruct (command_error [s]) as [e| |]; [|done..].
  simpl. intros ?. bools. by right.
Qed.
Ltac concrete := apply fail_str_polite; vm_compute; exact eq_refl.
Ltac concrete_short := right; apply Z.ltb_lt; vm_compute; exact eq_refl.

(** A handler that gets its result from one backend method or from itself. *)
Lemma simple_handler (m : ST (Responder T * B) Error (CommandResult unit)) t b :
  (∀ r, resp_ok r → runs pan m (r, b)
     (λ x s', polite_result pan (λ _, []) x ∧ said infos r s'.1) (λ _ _, True)) →
  runs pan (with_responder (m ≫= reply_result)) (t, b) (λ _ s', answered plain t s') (λ _ _, True).
Proof.
  intros Hm. apply with_responder_runs. intros r Hr _ _.
  eapply (then_reply m _ _ _ r b (λ x _, polite_result pan (λ _, []) x));
    [by apply Hm| |exact plain_app].
  intros x r' b' Hx Hr'. apply reply_result_runs; [done|by left].
Qed.

Lemma own_failure (s : bytes) r b :
  resp_ok r → polite_result pan (λ _ : unit, []) (fail_str s) →
  runs pan (mret (fail_str s) : ST (Responder T * B) Error (CommandResult unit)) (r, b)
    (λ x s', polite_result pan (λ _, []) x ∧ said infos r s'.1) (λ _ _, True).
Proof. intros. step. split; [done|]. apply said_nothing; [done|constructor]. Qed.

Lemma call_unit (a : B → info_act (CommandResult unit * B)) r b :
  resp_ok r → polite_info pan (polite_unit pan) (a b) →
  runs pan (call (λ b, run_info (a b))) (r, b)
    (λ x s', polite_result pan (λ _, []) x ∧ said infos r s'.1) (λ _ _, True).
Proof. intros Hr Ha. eapply runs_mono; [by eapply call_info| |done]. by intros x [r' b'] [? ?]. Qed.

Lemma flash_runs cmd t b : runs pan (flash cmd) (t, b) (λ _ s', answered plain t s') (λ _ _, True).
Proof.
  apply simple_handler. intros r Hr.
  case_match; [by apply (call_unit (λ b, fb_flash b _)), HB|apply own_failure; [done|concrete]].
Qed.
Lemma erase_runs cmd t b : runs pan (erase cmd) (t, b) (λ _ s', answered plain t s') (λ _ _, True).
Proof.
  apply simple_handler. intros r Hr.
  case_match; [by apply (call_unit (λ b, fb_erase b _)), HB|apply own_failure; [done|concrete]].
Qed.
Lemma set_active_runs args t b :
  runs pan (set_active args) (t, b) (λ _ s', answered plain t s') (λ _ _, True).
Proof.
  apply simple_handler. intros r Hr.
  case_match; [by apply (call_unit (λ b, fb_set_active b _)), HB|apply own_failure; [done|concrete]].
Qed.
Lemma continue_runs t b : runs pan continue (t, b) (λ _ s', answered plain t s') (λ _ _, True).
Proof. apply simple_handler. intros r Hr. by apply (call_unit (λ b, fb_continue b)), HB. Qed.

(** *** Arguments *)

Lemma polite_bind {X Y} (tx : X → bytes) (ty : Y → bytes) (m : CommandResult X) f :
  polite_result pan tx m → (∀ x, m = Ok x → polite_result pan ty (f x)) →
  polite_result pan ty (m ≫= f).
Proof. destruct m; simpl; auto. Qed.

Lemma hex_to_u64_polite s : polite_result pan (λ _, []) (hex_to_u64 s).
Proof.
  unfold hex_to_u64. pose proof (from_str_radix_no_panic 64 16 (default s (strip_prefix (str "0x") s))).
  case_match; [by right| |done]. destruct e; concrete.
Qed.

Lemma ok_or_str_polite {X} (o : option X) s :
  polite_result pan (λ _ : X, []) (fail_str s) → polite_result pan (λ _ : X, []) (ok_or_str o s).
Proof. destruct o; [|done]. intros _. by right. Qed.

Lemma fetch_args_polite cmd args :
  zlen cmd < 2 ^ 63 → split_on 58 cmd = str "fetch" :: args →
  polite_result pan (λ _, []) (fetch_args cmd args).
Proof.
  intros Hlen Hs. unfold fetch_args.
  eapply polite_bind; [apply ok_or_str_polite; concrete|]. intros rest Hrest.
  unfold ok_or_str in Hrest. destruct (strip_prefix _ cmd) as [rest'|] eqn:Er;
    [|unfold fail_str in Hrest; by destruct (command_error _)].
  injection Hrest as ->. apply strip_prefix_Some in Er.
  destruct (split_on_head _ _ _ _ Hs) as [[-> E]|(rest' & E & ->)].
  { rewrite E in Er. by apply (f_equal length) in Er. }
  rewrite Er in E. change (str "fetch:") with (str "fetch" ++ [58]) in E.
  rewrite <- app_assoc in E. apply app_inv_head in E. injection E as ->.
  destruct (zlen (split_on 58 rest') <? 3) eqn:E3; bools; [concrete|].
  pose proof (join_split 58 rest') as Hj. revert Hj E3.
  destruct (split_on 58 rest') as [|sz ps _] eqn:Ep using rev_ind; [simpl; lia|].
  destruct ps as [|off ps _] using rev_ind; [simpl; lia|].
  rewrite <- app_assoc. simpl app. intros Hj E3.
  rewrite !reverse_app. cbn [reverse rev_append app next_arg].
  eapply polite_bind; [apply ok_or_str_polite; concrete|]. intros sz' Hsz.
  eapply polite_bind; [apply ok_or_str_polite; concrete|]. intros off' Hoff.
  assert (sz' = sz ∧ off' = off) as [-> ->].
  { revert Hsz Hoff. unfold ok_or_str, fail_str. repeat case_bool_decide; try done;
      repeat case_match; naive_solver. }
  assert (ps ≠ []) by (intros ->; simpl in E3; lia).
  replace (ps ++ [off; sz]) with ((ps ++ [off]) ++ [sz]) in Hj by (by rewrite <- app_assoc).
  rewrite !join_snoc in Hj by (try done; by destruct ps).
  rewrite Er, <- Hj in Hlen. repeat rewrite length_app in Hlen. simpl in Hlen.
  rewrite (arith_ok 64 (zlen off + zlen sz)) by lia. cbn.
  rewrite arith_ok by lia. cbn. rewrite <- Hj.
  replace (zlen ((join [58] ps ++ [58] ++ off) ++ [58] ++ sz) - (zlen off + zlen sz + 2))
    with (zlen (join [58] ps)) by (rewrite !length_app; simpl; lia).
  rewrite arith_ok by lia. cbn.
  rewrite <- !app_assoc. simpl app. rewrite str_to_app by lia. cbn.
  eapply polite_bind; [apply hex_to_u64_polite|]. intros ? _.
  eapply polite_bind; [apply hex_to_u64_polite|]. intros ? _. by right.
Qed.

(** *** Uploads *)

Definition uploaded (ps : list bytes) : Prop := plain ps ∨ upload_exact ps.

Lemma infos_upload_final p q : infos_upload 0 p → final q → uploaded (p ++ q).
Proof.
  intros [[Hp _]|(i & n & d & data & -> & Hi & Hd & ->)] Hq; [left; by apply plain_app|].
  destruct Hq as (f & -> & Hf). right. exists i, (total data + 0), d, data, f.
  rewrite <- app_assoc. split_and!; try done. lia.
Qed.

Lemma reply_uploaded_runs (m : ST (Responder T * B) Error (CommandResult unit)) t b :
  (∀ r, resp_ok r → rs_remaining_upload r = 0 → runs pan m (r, b)
     (λ x s', (polite_result pan (λ _, []) x ∧ 0 ≤ rs_remaining_upload s'.1) ∧
        said (infos_upload (rs_remaining_upload s'.1)) r s'.1) (λ _ _, True)) →
  runs pan (with_responder (m ≫= reply_uploaded)) (t, b)
    (λ _ s', answered uploaded t s') (λ _ _, True).
Proof.
  intros Hm. apply with_responder_runs. intros r Hr Hu _.
  apply runs_bind. eapply runs_mono; [by apply Hm| |done].
  intros x [r1 b1] [[HP H0] Hsd]. cbn [fst] in *. unfold reply_uploaded. step.
  destruct (0 <? rs_remaining_upload r1) eqn:E; bools.
  { destruct x; [done|done|]. step. done. }
  eapply runs_mono; [apply reply_result_runs; [apply Hsd|by left]| |done].
  intros _ [r2 b2] [Hc Hsd2]. split; [done|].
  eapply said_trans; [exact Hsd|exact Hsd2|].
  assert (rs_remaining_upload r1 = 0) as -> by lia. apply infos_upload_final.
Qed.

Lemma call_upload (a : B → upload_act (CommandResult unit * B)) r b :
  resp_ok r → rs_remaining_upload r = 0 → polite_upload pan (polite_unit pan) (a b) →
  runs pan (call (λ b, run_upload (a b))) (r, b)
    (λ x s', (polite_result pan (λ _, []) x ∧ 0 ≤ rs_remaining_upload s'.1) ∧
        said (infos_upload (rs_remaining_upload s'.1)) r s'.1) (λ _ _, True).
Proof.
  intros Hr Hu Ha. apply call_runs. eapply runs_mono; [by apply (run_upload_runs _ _ _ _ Hr Hu Ha)| |done].
  by intros [x b'] r' [[HR H0] Hsd].
Qed.

Lemma upload_runs t b : runs pan upload (t, b) (λ _ s', answered uploaded t s') (λ _ _, True).
Proof. apply reply_uploaded_runs. intros r Hr Hu. by apply call_upload, HB. Qed.

Lemma fetch_runs cmd args t b :
  zlen cmd < 2 ^ 63 → split_on 58 cmd = str "fetch" :: args →
  runs pan (fetch cmd args) (t, b) (λ _ s', answered uploaded t s') (λ _ _, True).
Proof.
  intros Hl Hs. apply reply_uploaded_runs. intros r Hr Hu.
  pose proof (fetch_args_polite cmd args Hl Hs) as Hp.
  destruct (fetch_args cmd args) as [[[part off] sz]|e|]; simpl in Hp.
  - by apply (call_upload (λ b, fb_fetch b part off sz)), HB.
  - step. cbn [fst]. rewrite Hu. split_and!; [done|lia|]. apply said_nothing; [done|left].
    by split; [constructor|].
  - step. done.
Qed.

(** *** Commands with an [OkaySender] *)

Definition maybe_early (ps : list bytes) : Prop := plain ps ∨ early_okay ps.

Lemma infos_okay_final p q : infos_okay p → final q → maybe_early (p ++ q).
Proof.
  intros [Hp|(i & o & -> & Hi & Ho)] Hq; [left; by apply plain_app|].
  destruct Hq as (f & -> & Hf). right. exists i, o, f. by rewrite <- app_assoc.
Qed.

Lemma call_okay {A} (R : A * B → Prop) (a : B → okay_act (A * B)) r b :
  resp_ok r → polite_okay pan R (a b) →
  runs pan (call (λ b, run_okay (a b))) (r, b)
    (λ x s', R (x, s'.2) ∧ said infos_okay r s'.1) (λ _ _, True).
Proof.
  intros Hr Ha. apply call_runs. eapply runs_mono; [by apply run_okay_runs| |done].
  by intros [x b'] r' [HR Hsd].
Qed.

Lemma reboot_runs mode t b :
  runs pan (reboot mode) (t, b) (λ _ s', answered maybe_early t s') (λ _ _, True).
Proof.
  apply with_responder_runs. intros r Hr _ _.
  eapply (then_reply _ _ _ _ r b (λ e _, polite_error pan e)); [|..|exact infos_okay_final].
  - eapply runs_mono; [apply (call_okay (λ x, polite_error pan x.1) (λ b, fb_reboot b mode)); [done|apply HB]| |done].
    by intros e [r' b'] [HR Hsd].
  - intros [e|] r' b' He Hr'; [|exact He]. apply (reply_final false); [done|left].
    by rewrite mjoin_one.
Qed.

Lemma boot_runs t b : runs pan boot (t, b) (λ _ s', answered maybe_early t s') (λ _ _, True).
Proof.
  apply with_responder_runs. intros r Hr _ _.
  eapply (then_reply _ _ _ _ r b (λ x _, polite_result pan (λ _, []) x)); [|..|exact infos_okay_final].
  - eapply runs_mono; [apply (call_okay (polite_unit pan) (λ b, fb_boot b)); [done|apply HB]| |done].
    by intros e [r' b'] [HR Hsd].
  - intros x r' b' Hx Hr'. apply reply_with_runs; [done|left].
    destruct x; [concrete_short|done|done].
Qed.

(** *** Variables and OEM commands *)

Lemma oem_runs cmd t b : runs pan (oem cmd) (t, b) (λ _ s', answered plain t s') (λ _ _, True).
Proof.
  apply with_responder_runs. intros r Hr _ _.
  eapply (then_reply _ _ _ _ r b (λ x _, polite_result pan id x)); [|..|exact plain_app].
  - eapply runs_mono; [apply (call_info (λ x, polite_result pan id x.1) (λ b, fb_oem b cmd _)); [done|apply HB]| |done].
    by intros x [r' b'] [HR Hsd].
  - intros x r' b' Hx Hr'. destruct x as [msg|e|].
    + destruct (is_utf8 msg).
      * apply (reply_final true); [done|left]. by rewrite mjoin_one.
      * apply (reply_final false); [done|left]. right. apply show_utf8_error_short.
    + apply reply_with_runs; [done|by left].
    + apply reply_with_runs; [done|by left].
Qed.

Lemma download_buffer_len_runs r b (Q : Z → Responder T * B → Prop) X :
  (∀ n b', 0 ≤ n → Q n (r, b')) → runs pan download_buffer_len (r, b) Q X.
Proof.
  intros HQ. unfold runs, download_buffer_len. cbn [fst snd].
  destruct (fb_get_download_buffer b) as [[d put]|] eqn:E; [apply HQ; lia|].
  by destruct (pb_buffer _ HB b) as [?|?].
Qed.

Lemma zlen_fmt_hex0x z : zlen (fmt_hex0x z) ≤ 66.
Proof. unfold fmt_hex0x. rewrite length_app. pose proof (zlen_fmt_hex z). simpl length. lia. Qed.

Lemma snprintf_hex n :
  0 ≤ n → ∃ d s, snprintf (zeros 32) [fmt_hex0x n] = Ok (d, s) ∧ zlen (utf8_bytes s) ≤ 32.
Proof.
  intros Hn. unfold snprintf.
  destruct (write_all_new (zeros 32) [fmt_hex0x n]) as (f & -> & _ & C & _ & _).
  change (length (zeros 32)) with 32%nat in C. change (mjoin [fmt_hex0x n]) with (fmt_hex0x n ++ []) in C.
  rewrite app_nil_r in C. cbn. rewrite C.
  assert (Ha : Forall (λ x : Z, x < 0x80) (take 32 (fmt_hex0x n))) by (apply Forall_take; by apply fmt_hex0x_ascii).
  pose proof (decode_ascii _ Ha) as Hd. rewrite Hd.
  exists (buf f), (take 32 (fmt_hex0x n)). split; [done|]. rewrite (decode_utf8_inv _ _ Hd), length_take. lia.
Qed.

Lemma get_var_all_with_native_runs r b :
  resp_ok r →
  runs pan get_var_all_with_native (r, b)
    (λ x s', (polite_result pan (λ _, []) x ∨ (¬ clean s'.1 ∧ x ≠ Panic)) ∧ said infos r s'.1)
    (λ _ _, True).
Proof.
  intros Hr. unfold get_var_all_with_native. apply runs_bind.
  apply download_buffer_len_runs. intros n b' Hn. step.
  destruct (snprintf_hex n Hn) as (d & s & -> & Hs). apply runs_bind.
  apply on_responder_runs. step. unfold send_var_info.
  eapply runs_mono; [apply send_info_runs; [done..|]| |].
  - right. simpl. rewrite !length_app. change (length MAX_DOWNLOAD_SIZE_NAME) with 17%nat.
    simpl length. lia.
  - intros u r1 [_ Hsd]. apply call_runs.
    eapply runs_mono; [eapply run_var_runs; [apply Hsd|apply HB|done]| |done].
    intros [x b1] r2 [[HR _] Hsd2]. cbn [fst snd]. split; [left; exact HR|].
    eapply said_trans; [exact Hsd|exact Hsd2|]. intros p q ->. apply infos_cons.
  - intros e r1 (Hc & _ & Hr1). destruct (command_error_run (E:=Error) (show_error e)) as (ce & Ee & _).
    step. rewrite Ee. step. split; [by right|by apply said_lost].
Qed.

Lemma get_var_all_runs t b :
  runs pan get_var_all (t, b) (λ _ s', answered plain t s') (λ _ _, True).
Proof.
  apply with_responder_runs. intros r Hr _ _. apply runs_bind.
  eapply runs_mono; [by apply get_var_all_with_native_runs| |done].
  intros x [r1 b1] [Hx Hsd]. eapply runs_mono; [apply reply_result_runs; [apply Hsd|done]| |done].
  intros _ [r2 b2] [Hc Hsd2]. split; [done|]. eapply said_trans; [exact Hsd|exact Hsd2|].
  exact plain_app.
Qed.

Lemma c_args_ok {E} cmd :
  0 ∈ cmd → ∃ x, cmd_to_c_string_args (E:=E) cmd = Ok x.
Proof.
  intros H0. unfold cmd_to_c_string_args.
  destruct (position_Some _ _ H0) as (n & -> & Hn & Hl). cbn.
  set (f := λ v, if v =? 58 then 0 else v).
  rewrite index_range_ok by (rewrite ?length_fmap; lia). rewrite Z.sub_0_r. cbn.
  assert (Hsl : slice (f <$> cmd) 0 (n + 1) = slice (f <$> cmd) 0 n ++ [0]).
  { rewrite <- slice_app_split by (rewrite ?length_fmap; lia). f_equal. rewrite Z.add_0_l.
    unfold slice. rewrite (drop_S _ 0) by (rewrite list_lookup_fmap, Hl; done). done. }
  rewrite Hsl. destruct (cstr_pieces _ (split_inclusive_nul 0 (slice (f <$> cmd) 0 n))) as [args ->].
  cbn. by eexists.
Qed.

Lemma get_var_as_str_runs var args out r b :
  resp_ok r →
  runs pan (get_var_as_str var args out) (r, b)
    (λ x s', polite_result pan id x ∧ said infos r s'.1) (λ _ _, True).
Proof.
  intros Hr. unfold get_var_as_str. apply runs_bind, call_runs, runs_bind.
  eapply runs_mono; [eapply run_info_runs; [done|apply HB|done]| |done].
  intros [[res out'] b'] r1 [[HR _] Hsd]. step. cbn [fst snd]. step. split; [|done].
  destruct res as [n|e|]; cbn in *; [|done..].
  unfold ok_or_str. destruct (get_range out' 0 n) as [v|]; cbn in *; [|concrete].
  destruct (is_utf8 v); [done|concrete].
Qed.

Lemma get_var_runs cmd t b :
  0 ∈ cmd → runs pan (get_var cmd) (t, b) (λ _ s', answered plain t s') (λ _ _, True).
Proof.
  intros H0. apply with_responder_runs. intros r Hr _ [Ht Hc]. step.
  destruct (c_args_ok (E:=Error) cmd H0) as ([args cmd'] & ->).
  destruct (drop 1 args) as [|var args'].
  { eapply runs_mono; [apply (reply_final false); [done|left; concrete_short]| |done].
    intros _ s' [Hc' Hsd]. split; [done|]. by eapply said_mono, plain_final. }
  destruct (is_utf8 var); simpl; [|by step].
  repeat case_bool_decide.
  - unfold on_transport, runs. cbn [fst snd]. pose proof (get_var_all_runs t b) as Hall.
    unfold runs in Hall. rewrite Ht. destruct (get_var_all (t, b)) as [[u|e|] [t' b']]; [|done|done].
    destruct Hall as (ps & Ew & HG). split; [exact Hc|]. split; [exact Hr|].
    intros _. split; [exact Hc|]. exists ps. cbn [set_transport rs_transport]. by rewrite Ht.
  - apply runs_bind, download_buffer_len_runs. intros n b' Hn.
    eapply runs_mono; [apply (reply_final true); [done|left; right]| |done].
    { rewrite mjoin_one. pose proof (zlen_fmt_hex0x n). lia. }
    intros _ s' [Hc' Hsd]. split; [done|]. by eapply said_mono, plain_final.
  - eapply (then_reply _ _ infos _ r b (λ x _, polite_result pan id x)); [|..|exact plain_app].
    + by apply get_var_as_str_runs.
    + intros x r' b' Hx Hr'. apply reply_with_runs; [done|left].
      destruct x; [|done..]. simpl in *. by rewrite app_nil_r.
Qed.

(** *** Downloads *)

Definition silent (ps : list bytes) : Prop := ps = [].

Lemma said_received G r t :
  resp_ok r → G [] → wire t = wire (rs_transport r) → said G r (set_transport t r).
Proof. intros Hr HG E. split; [exact Hr|]. intros Hc. split; [exact Hc|]. exists []. by rewrite app_nil_r. Qed.

(** What the loop and the part before it leave: a complete download, an answer,
    or neither for lack of fuel. *)
Definition download_post (n : Z) (G : list bytes → Prop) r (o : option Z + unit) r' : Prop :=
  match o with
  | inl (Some k) => k = n ∧ said G r r'
  | inl None => clean r' ∧ said (λ ps, ∃ p q, ps = p ++ q ∧ G p ∧ final q) r r'
  | inr _ => True
  end.

Lemma download_loop_runs fuel n k r (d : bytes) :
  resp_ok r → zlen d = n → n < 2 ^ 64 → 0 ≤ k ≤ n →
  runs pan (download_loop fuel n k) (r, d)
    (λ o s', zlen s'.2 = n ∧ download_post n silent r o s'.1) (λ _ s', zlen s'.2 = n).
Proof.
  revert k r d. induction fuel as [|fuel IH]; intros k r d Hr Hd Hn Hk; cbn [download_loop].
  { destruct (k <? n) eqn:E; bools; step; (split; [done|]); [done|].
    split; [lia|]. by apply said_nothing. }
  destruct (k <? n) eqn:E; bools; simpl negb; cbv iota.
  2:{ step. split; [done|]. split; [lia|]. by apply said_nothing. }
  apply runs_bind. unfold runs at 1. cbn [fst snd]. rewrite get_range_Some by lia.
  destruct (receive_packet _) as [v [t' rem']] eqn:Er.
  destruct (wire_receive _ _ _ _ _ Er) as (Ew & El & Hv).
  assert (Hl : zlen (splice d k rem') = n) by (rewrite length_splice; rewrite ?El; lens).
  destruct v as [v|e|]; [|done|done].
  assert (Hv' : v ≤ n - k) by (revert Hv; rewrite length_slice; lia).
  assert (Hcont : ∀ k', 0 ≤ k' ≤ n →
    runs pan (download_loop fuel n k') (set_transport t' r, splice d k rem')
      (λ o s', zlen s'.2 = n ∧ download_post n silent r o s'.1) (λ _ s', zlen s'.2 = n)).
  { intros k' Hk'. eapply runs_mono; [apply IH; [exact Hr|done..]| |done].
    pose proof (said_received silent r t' Hr eq_refl Ew) as Hsd.
    intros o s' [? Hp]. split; [done|].
    destruct o as [[j|]|]; cbn [download_post] in *; [| |done].
    - destruct Hp as [? Hp]. split; [done|].
      eapply said_trans; [exact Hsd|exact Hp|]. by intros p q -> ->.
    - destruct Hp as [? Hp]. split; [done|].
      eapply said_trans; [exact Hsd|exact Hp|]. intros p q -> Hq. exact Hq. }
  destruct (v =? 0); [by apply Hcont|].
  rewrite checked_Some by lia. lia_bools. apply Hcont. lia.
Qed.

Lemma into_prefix_runs {S' A} (m : ST (S' * bytes) Error A) n (s : S') (d : bytes) Q X :
  0 ≤ n ≤ zlen d →
  runs pan m (s, slice d 0 n) (λ a s', Q a (s'.1, splice d 0 s'.2)) (λ e s', X e (s'.1, splice d 0 s'.2)) →
  runs pan (into_prefix n m) (s, d) Q X.
Proof.
  intros Hn. unfold runs, into_prefix. cbn [fst snd].
  rewrite get_range_Some by lia. rewrite Z.sub_0_r. by destruct (m _) as [[] [? ?]].
Qed.

Lemma download_data_runs fuel n r (d : bytes) :
  resp_ok r → 0 ≤ n < 2 ^ 64 →
  runs pan (download_data fuel n) (r, d)
    (λ o s', match o with
             | inl None => clean s'.1 ∧ said download_answer r s'.1 ∨ clean s'.1 ∧ said plain r s'.1
             | _ => download_post n (λ ps, ∃ p, ps = [p] ∧ is_data n p) r o s'.1
             end) (λ _ _, True).
Proof.
  intros Hr Hn. unfold download_data, beside. step.
  assert (Hf : ∀ msg, zlen (mjoin msg) < 252 →
    runs pan (reply_fail msg) r (λ _ r', clean r' ∧ said plain r r') (λ _ _, True)).
  { intros msg Hm. eapply runs_mono; [apply (reply_runs pan false); [done|auto]| |done].
    intros _ r' [Hsd Hc]. split; [done|]. eapply said_mono; [exact Hsd|].
    intros ps ->. apply plain_final. eexists. split; [done|]. right. by eexists. }
  destruct (zlen d <? n) eqn:E1; bools.
  { step. eapply runs_mono; [apply Hf; by vm_compute| |done]. intros. step. by right. }
  destruct (n =? 0) eqn:E2; bools.
  { step. eapply runs_mono; [apply Hf; by vm_compute| |done]. intros. step. by right. }
  apply into_prefix_runs; [lia|]. step. unfold send_data_message.
  eapply runs_mono; [apply send_formatted_msg_runs; [done|]| |done].
  { right. left. unfold fits_response, MAX_RESPONSE_SIZE. rewrite mjoin_one.
    pose proof (zlen_fmt_hex08 n). change (zlen (str "DATA")) with 4. lia. }
  intros u r1 (Hc & _ & Hsd). rewrite mjoin_one in Hsd.
  eapply runs_mono; [apply download_loop_runs; [apply Hsd|..]| |done]; [lens|lia|lia|].
  intros o [r2 d2] [_ Hp]. cbn [fst snd] in *.
  destruct o as [[k|]|]; cbn [download_post] in *; [| |done].
  - destruct Hp as [-> Hp]. split; [done|]. eapply said_trans; [exact Hsd|exact Hp|].
    intros p q -> ->. by eexists.
  - destruct Hp as [Hc2 Hp]. left. split; [done|]. eapply said_trans; [exact Hsd|exact Hp|].
    intros p q -> (p' & q' & -> & -> & f & -> & Hfin).
    exists n, (str "DATA" ++ fmt_hex08 n), [], f. split_and!; [done..|constructor|done].
Qed.

Definition downloaded_answer (ps : list bytes) : Prop := plain ps ∨ download_answer ps.

Lemma download_size_polite args : polite_result pan (λ _, []) (download_size args).
Proof.
  unfold download_size, next_arg_u64. destruct (next_arg args) as [a args']. cbn [fst].
  eapply (polite_bind (λ _, [])).
  { destruct a; [|by right]. eapply polite_bind; [apply hex_to_u64_polite|]. intros. by right. }
  intros n _. eapply polite_bind; [apply ok_or_str_polite; concrete|]. intros k _.
  destruct (checked 64 k); [by right|concrete].
Qed.

Lemma download_size_range args n : download_size args = Ok n → 0 ≤ n < 2 ^ 64.
Proof.
  unfold download_size. intros Hd. apply bind_Ok in Hd as (o & _ & Hd).
  apply bind_Ok in Hd as (k & _ & Hd). unfold checked in Hd.
  destruct (fits 64 k) eqn:Ef; [|unfold fail_str in Hd; by destruct (command_error _)].
  apply fits_spec in Ef. by injection Hd as <-.
Qed.

Definition enough {A} (x : A + unit) : Prop := match x with inl _ => True | inr _ => False end.

Lemma download_runs fuel args t b :
  runs pan (download fuel args) (t, b)
    (λ x s', enough x → answered downloaded_answer t s') (λ _ _, True).
Proof.
  apply with_responder_if. intros r Hr _ _.
  pose proof (download_size_polite args) as Hp.
  destruct (download_size args) as [n|e|] eqn:Ed; simpl in Hp.
  - apply download_size_range in Ed. apply runs_bind.
    unfold with_download_buffer, runs at 1. cbn [fst snd].
    destruct (fb_get_download_buffer b) as [[d put]|] eqn:Eb;
      [|by destruct (pb_buffer _ HB b) as [?|?]].
    pose proof (download_data_runs fuel n r d Hr Ed) as Hd. unfold runs in Hd.
    destruct (download_data fuel n (r, d)) as [[[[k|]|u]|e|] [r1 d1]]; cbn [fst snd] in Hd;
      [| |by step|done|done].
    + cbn [download_post] in Hd. destruct Hd as [_ Hsd].
      eapply runs_mono; [eapply (then_reply _ _ infos plain r1 (put d1) (λ x _, polite_result pan (λ _, []) x))| |done].
      * apply (call_unit (λ b, fb_download_complete b k)); [apply Hsd|apply HB].
      * intros x r2 b2 Hx Hr2. step. by apply reply_result_runs; [|left].
      * exact plain_app.
      * intros x [r3 b3] [Hc Hsd3] _. split; [done|]. eapply said_trans; [exact Hsd|exact Hsd3|].
        intros p q (p' & -> & Hp') (i & f & -> & Hi & Hf). right. by exists n, p', i, f.
    + step. intros _. destruct Hd as [[Hc Hsd]|[Hc Hsd]]; (split; [done|]);
        (eapply said_mono; [exact Hsd|]); intros ps Hps; [by right|by left].
  - step. eapply runs_mono; [apply (reply_final false); [done|left; by rewrite mjoin_one]| |done].
    intros _ s' [Hc Hsd] _. split; [done|]. eapply said_mono; [exact Hsd|].
    intros ps Hps. left. by apply plain_final.
  - by step.
Qed.

(** *** Dispatch *)

Lemma send_fail_runs packet msg t b :
  zlen msg < 252 → MAX_COMMAND_SIZE < zlen packet →
  runs pan (send_fail packet msg) (t, b) (λ _ s', answered plain t s') (λ _ _, True).
Proof.
  intros Hm Hp. unfold send_fail, fastboot_fail. step.
  destruct (write_all_new packet [str "FAIL"; msg]) as (f & Ef & L & C & Hs & Hsz).
  destruct (fastboot_msg_run packet (str "FAIL") [msg]) as (f' & Ef' & ->).
  rewrite Ef in Ef'. injection Ef' as <-. step. rewrite index_range_ok by lia. rewrite Z.sub_0_r.
  fold (contents f). rewrite C. unfold on_transport_only, zoom, runs. cbn [fst snd].
  set (data := take _ _). pose proof (send_no_panic data t) as Hn.
  destruct (send_packet data t) as [[[]|e|] t'] eqn:Es; [|done|done].
  apply wire_send in Es. exists [data]. split; [done|]. apply plain_final.
  exists data. split; [done|]. right. exists msg. unfold data.
  change (mjoin [str "FAIL"; msg]) with (str "FAIL" ++ msg ++ []). rewrite app_nil_r. apply take_ge.
  rewrite length_app.
  unfold MAX_COMMAND_SIZE in Hp. simpl length. lia.
Qed.

Lemma answered_mono (G G' : list bytes → Prop) t (s' : T * B) :
  answered G t s' → (∀ ps, G ps → G' ps) → answered G' t s'.
Proof. intros (ps & ? & ?) HG. exists ps. auto. Qed.

Lemma dispatch_runs fuel packet cmd_str cmd args t b :
  0 ∈ packet → MAX_COMMAND_SIZE < zlen packet → zlen cmd_str < 2 ^ 63 →
  is_utf8 cmd_str = true → split_on 58 cmd_str = cmd :: args →
  runs pan (dispatch fuel packet cmd_str cmd args) (t, b)
    (λ x s', enough x → answered (conversation cmd) t s') (λ _ _, True).
Proof.
  intros H0 Hlen Hl Hu Hs. unfold dispatch.
  assert (Hret : ∀ (m : ST (T * B) Error unit) (x : bool) (G : list bytes → Prop),
    runs pan m (t, b) (λ _ s', answered G t s') (λ _ _, True) →
    (∀ ps, G ps → conversation cmd ps) →
    runs pan (m;; mret (inl x : bool + unit)) (t, b)
      (λ x s', enough x → answered (conversation cmd) t s') (λ _ _, True)).
  { intros m x G Hm HG. apply runs_bind. eapply runs_mono; [exact Hm| |done].
    intros u s' Ha. step. intros _. eapply answered_mono; [exact Ha|exact HG]. }
  assert (Hplain : ∀ ps, plain ps → conversation cmd ps) by (by left).
  assert (Hearly : one_of ["boot"; "reboot"; "reboot-bootloader"; "reboot-fastboot";
    "reboot-recovery"]%string cmd → ∀ ps, maybe_early ps → conversation cmd ps).
  { intros Hc ps [?|?]; [by left|]. by do 3 right. }
  assert (Hupl : one_of ["upload"; "fetch"]%string cmd → ∀ ps, uploaded ps → conversation cmd ps).
  { intros Hc ps [?|?]; [by left|]. by right; left. }
  case_bool_decide; [eapply Hret; [by apply boot_runs|apply Hearly; subst; by_compute]|].
  case_bool_decide; [eapply Hret; [by apply continue_runs|done]|].
  case_bool_decide.
  { apply runs_bind. eapply runs_mono; [apply download_runs| |done].
    intros x s' Ha. step. destruct x; [|done]. intros _. eapply answered_mono; [by apply Ha|].
    intros ps [?|?]; [by left|]. by right; right; left. }
  case_bool_decide; [eapply Hret; [by apply erase_runs|done]|].
  case_bool_decide;
    [subst; eapply Hret; [by apply fetch_runs|apply Hupl; by_compute]|].
  case_bool_decide; [eapply Hret; [by apply flash_runs|done]|].
  case_bool_decide; [eapply Hret; [by apply get_var_runs|done]|].
  do 4 (case_bool_decide; [eapply Hret; [by apply reboot_runs|apply Hearly; subst; by_compute]|]).
  case_bool_decide; [eapply Hret; [by apply set_active_runs|done]|].
  case_bool_decide; [eapply Hret; [by apply upload_runs|apply Hupl; subst; by_compute]|].
  destruct (starts_with (str "oem ") cmd_str) eqn:Eo;
    [|eapply Hret; [apply send_fail_runs; [by vm_compute|done]|done]].
  eapply Hret; [|done]. unfold starts_with in Eo. bools.
  destruct (strip_prefix (str "oem ") cmd_str) as [rest|] eqn:Er;
    [|unfold strip_prefix in Er; by rewrite bool_decide_true in Er].
  apply strip_prefix_Some in Er. step. rewrite Er, (str_from_app (str "oem ")).
  - by apply oem_runs.
  - rewrite Er in Hu. revert Hu. change (str "oem " ++ rest) with (111 :: 101 :: 109 :: 32 :: rest).
    by rewrite !is_utf8_cons by lia.
Qed.

(** The command packet as [process_next_command] receives it. *)
Definition receive_command : ST T Error (Z * bytes) :=
  with_buffer (zeros (MAX_COMMAND_SIZE + 1)) (into_prefix MAX_COMMAND_SIZE receive_packet).

Lemma receive_command_spec t :
  let '(res, t1) := receive_command t in
  wire t1 = wire t ∧
  match res with
  | Ok (n, packet) => 0 ≤ n ≤ MAX_COMMAND_SIZE ∧ zlen packet = MAX_COMMAND_SIZE + 1 ∧ 0 ∈ packet
  | Err _ => True
  | Panic => False
  end.
Proof.
  unfold receive_command, with_buffer, into_prefix. cbn [fst snd].
  set (z := zeros (MAX_COMMAND_SIZE + 1)).
  assert (Hz : zlen z = MAX_COMMAND_SIZE + 1) by (unfold z, zeros; rewrite length_replicate; done).
  rewrite get_range_Some by (unfold MAX_COMMAND_SIZE in *; lia). rewrite Z.sub_0_r.
  destruct (receive_packet _) as [v [t1 out]] eqn:Er.
  destruct (wire_receive _ _ _ _ _ Er) as (Ew & El & Hv).
  assert (Ho : zlen out = MAX_COMMAND_SIZE)
    by (rewrite El; apply zlen_slice; unfold MAX_COMMAND_SIZE in *; lia).
  rewrite zlen_slice in Hv by (unfold MAX_COMMAND_SIZE in *; lia).
  destruct v as [v|e|]; cbn; [|done|done]. split_and!; [done|lia|lia| |].
  - rewrite length_splice; unfold MAX_COMMAND_SIZE in *; lia.
  - apply list_elem_of_lookup. exists (Z.to_nat MAX_COMMAND_SIZE).
    rewrite lookup_splice by (unfold MAX_COMMAND_SIZE in *; lia).
    rewrite !decide_False by (unfold MAX_COMMAND_SIZE in *; lia).
    unfold z, zeros. apply lookup_replicate. unfold MAX_COMMAND_SIZE. lia.
Qed.

Definition first_word (cmd_str : bytes) : bytes := hd [] (split_on 58 cmd_str).

Lemma process_runs fuel t b :
  runs pan (process_next_command fuel) (t, b)
    (λ x s', enough x → ∃ n packet t1, receive_command t = (Ok (n, packet), t1) ∧
       if n =? 0 then wire s'.1 = wire t
       else answered (conversation (first_word (slice packet 0 n))) t s') (λ _ _, True).
Proof.
  unfold process_next_command, on_transport_only. step. fold receive_command.
  pose proof (receive_command_spec t) as Hr. unfold runs at 1.
  destruct (receive_command t) as [[[n packet]|e|] t1] eqn:Er; [|done|by destruct Hr].
  destruct Hr as (Ew & Hn & Hp & H0). cbn [fst snd].
  destruct (n =? 0) eqn:E0; bools.
  { step. intros _. exists n, packet, t1. split; [done|]. by lia_bools. }
  step. rewrite index_range_ok by lia. rewrite Z.sub_0_r.
  set (cmd_str := slice packet 0 n).
  assert (Hlift : ∀ x s', answered (conversation (first_word cmd_str)) t1 s' →
    enough (A:=bool) x → ∃ n' packet' t1', (Ok (n, packet), t1) = (Ok (n', packet') : result _, t1') ∧
      if n' =? 0 then wire s'.1 = wire t
      else answered (conversation (first_word (slice packet' 0 n'))) t s').
  { intros x s' (ps & Ep & HG) _. exists n, packet, t1. split; [done|]. lia_bools.
    exists ps. by rewrite Ep, Ew. }
  assert (Hfail : ∀ msg, zlen msg < 252 → runs pan (send_fail packet msg;; mret (inl false : bool + unit)) (t1, b)
    (λ x s', enough x → ∃ n' packet' t1', (Ok (n, packet), t1) = (Ok (n', packet') : result _, t1') ∧
      if n' =? 0 then wire s'.1 = wire t
      else answered (conversation (first_word (slice packet' 0 n'))) t s') (λ _ _, True)).
  { intros msg Hm. apply runs_bind. eapply runs_mono; [apply send_fail_runs; [done|lia]| |done].
    intros u s' Ha. step. apply Hlift. eapply answered_mono; [exact Ha|]. by left. }
  destruct (is_utf8 cmd_str) eqn:Eu; simpl negb; cbv iota; [|apply Hfail; by vm_compute].
  destruct (split_on 58 cmd_str) as [|cmd args] eqn:Es; [apply Hfail; by vm_compute|].
  eapply runs_mono; [apply (dispatch_runs fuel packet cmd_str cmd args); try done; [lia|]| |done].
  { unfold cmd_str. rewrite length_slice. unfold MAX_COMMAND_SIZE in *. lia. }
  intros x s' Ha Hx. eapply Hlift; [|exact Hx]. unfold first_word. rewrite Es. by apply Ha.
Qed.
End Handlers.
