(* ===== verification/FastbootRun.v ===== *)
(** * libfastboot: properties of whole commands and of sessions

    A queue of packets and a pipe of bytes serve as concrete transport and TCP
    stream. *)

From S2P Require Import Prelude LibError Text Utils Fastboot FastbootSpec FastbootProps.
Import FormattedBytes.

(** ** A packet queue *)

Record Queue := mkQueue { inbox : list bytes; outbox : list bytes }.

(** A packet that does not fit the buffer is an error, as on TCP. *)
Definition queue_receive : ST (Queue * bytes) Error Z := λ s,
  let '(q, out) := s in
  match inbox q with
  | [] => (Err Disconnected, s)
  | p :: ps =>
      if zlen out <? zlen p then (Err InvalidInput, s)
      else (Ok (zlen p), (mkQueue ps (outbox q), splice out 0 p))
  end.
#[export] Instance queue_transport : Transport Queue := {
  receive_packet := queue_receive;
  send_packet p q := (Ok tt, mkQueue (inbox q) (outbox q ++ [p]));
}.
#[export] Instance queue_wire : Wire Queue.
Proof.
  refine {| wire := outbox |}.
  - by intros p t t' [= <-].
  - done.
  - intros [ib ob] out r t' out'. cbn [receive_packet queue_transport queue_receive inbox outbox].
    destruct ib as [|p ps]; [by intros [= <- <- <-]|].
    destruct (zlen out <? zlen p) eqn:E; bools; intros [= <- <- <-]; [done|].
    split_and!; [done| |lia|lia]. apply length_splice; lia.
Defined.

(** ** A byte pipe *)

Record Pipe := mkPipe { pipe_in : bytes; pipe_out : bytes }.
#[export] Instance pipe_stream : TcpStream Pipe := {
  read_exact := λ '(p, out),
    if zlen (pipe_in p) <? zlen out then (Err Disconnected, (p, out))
    else (Ok tt, (mkPipe (drop (length out) (pipe_in p)) (pipe_out p),
                  take (length out) (pipe_in p)));
  write_exact data p := (Ok tt, mkPipe (pipe_in p) (pipe_out p ++ data));
}.

(** The wire format of fastboot over TCP. *)
Definition frame (p : bytes) : bytes := be_bytes 8 (zlen p) ++ p.

Fixpoint send_all {T} `{!Transport T} (ps : list bytes) : ST T Error unit :=
  match ps with
  | [] => mret tt
  | p :: ps => send_packet p;; send_all ps
  end.
(** Receives [n] packets, each into a buffer of [size] bytes. *)
Fixpoint receive_all {T} `{!Transport T} (size : Z) (n : nat) : ST T Error (list bytes) :=
  match n with
  | O => mret []
  | S n =>
      '(v, out) ← with_buffer (zeros size) receive_packet;
      ps ← receive_all size n;
      mret (slice out 0 v :: ps)
  end.

Lemma tcp_send_run p pp :
  zlen p < 2 ^ 64 →
  tcp_send_packet p (mkTcp pp) = (Ok tt, mkTcp (mkPipe (pipe_in pp) (pipe_out pp ++ frame p))).
Proof.
  intros Hp. unfold tcp_send_packet. rewrite bind_run, lift_run, try_int_ok by lia.
  unfold zoom. rewrite bind_run. cbn [write_exact pipe_stream tcp_stream pipe_in pipe_out].
  unfold frame. by rewrite app_assoc.
Qed.

Lemma tcp_receive_run p rest ob (out : bytes) :
  zlen p ≤ zlen out → zlen p < 2 ^ 64 →
  tcp_receive_packet (mkTcp (mkPipe (frame p ++ rest) ob), out)
  = (Ok (zlen p), (mkTcp (mkPipe rest ob), splice out 0 p)).
Proof.
  intros Hp Hlt. unfold tcp_receive_packet. rewrite bind_run.
  unfold on_stream, zoom. cbn [fst snd tcp_stream].
  unfold with_buffer, read_exact, pipe_stream. cbn [pipe_in pipe_out].
  change (length (zeros 8)) with 8%nat. unfold frame.
  rewrite (proj2 (Z.ltb_ge _ _)) by (rewrite !length_app, length_be_bytes; lia).
  rewrite <- app_assoc, take_app_length', drop_app_length' by (by rewrite length_be_bytes).
  cbn [mbind outcome_bind]. rewrite bind_run, lift_run.
  rewrite be_val_bytes by (change (256 ^ Z.of_nat 8) with (2 ^ 64); lia).
  rewrite try_int_ok by lia. rewrite bind_run. unfold gets. cbn [snd].
  rewrite (proj2 (Z.ltb_ge _ _)) by lia.
  rewrite bind_run. unfold into_prefix. cbn [fst snd].
  rewrite get_range_Some by lia. rewrite Z.sub_0_r.
  assert (Hl : length (slice out 0 (zlen p)) = length p) by lens.
  cbn [tcp_stream pipe_in pipe_out]. rewrite Hl, (proj2 (Z.ltb_ge _ _)) by (rewrite length_app; lia).
  by rewrite take_app_length, drop_app_length.
Qed.

Lemma send_all_run ps pp :
  Forall (λ p, zlen p < 2 ^ 64) ps →
  send_all ps (mkTcp pp) =
    (Ok tt, mkTcp (mkPipe (pipe_in pp) (pipe_out pp ++ mjoin (frame <$> ps)))).
Proof.
  intros Hps. revert pp. induction Hps as [|p ps Hp _ IH]; intros [ib ob]; cbn [send_all].
  - by rewrite app_nil_r.
  - rewrite bind_run. change (send_packet p) with (tcp_send_packet (T:=Pipe) p).
    rewrite tcp_send_run by done. rewrite IH. cbn [pipe_in pipe_out].
    change (mjoin (frame <$> p :: ps)) with (frame p ++ mjoin (frame <$> ps)).
    by rewrite app_assoc.
Qed.

Lemma receive_all_run ps size rest ob :
  Forall (λ p, zlen p ≤ size) ps → 0 ≤ size < 2 ^ 64 →
  receive_all size (length ps) (mkTcp (mkPipe (mjoin (frame <$> ps) ++ rest) ob))
  = (Ok ps, mkTcp (mkPipe rest ob)).
Proof.
  intros Hps Hs. induction Hps as [|p ps Hp _ IH]; cbn [receive_all length]; [done|].
  change (mjoin (frame <$> p :: ps)) with (frame p ++ mjoin (frame <$> ps)).
  rewrite bind_run. unfold with_buffer.
  change (receive_packet (T:=TcpTransport Pipe)) with (tcp_receive_packet (T:=Pipe)).
  assert (Hz : zlen (zeros size) = size) by (unfold zeros; rewrite length_replicate; lia).
  rewrite <- app_assoc, tcp_receive_run by lia. cbn [mbind outcome_bind].
  rewrite bind_run, IH, mret_run. repeat f_equal. apply slice_splice_same; lia.
Qed.

(** ** Properties *)

(** Fastboot over TCP is a faithful packet channel: what one side sends as a
    sequence of packets puts their frames on the stream, and a receiver of this
    stream whose buffer is large enough gets the same packets, one per call, and
    leaves what follows them on the stream. *)
Theorem tcp_packets_roundtrip (ps : list bytes) (size : Z) (rest ib ob ob' : bytes) :
  Forall (λ p, zlen p ≤ size) ps → 0 ≤ size < 2 ^ 64 →
  ∃ framed,
    send_all ps (mkTcp (mkPipe ib ob)) = (Ok tt, mkTcp (mkPipe ib (ob ++ framed))) ∧
    receive_all size (length ps) (mkTcp (mkPipe (framed ++ rest) ob'))
      = (Ok ps, mkTcp (mkPipe rest ob')).
Proof.
  intros Hps Hs. exists (mjoin (frame <$> ps)). split; [|by apply receive_all_run].
  apply (send_all_run ps (mkPipe ib ob)). eapply Forall_impl; [exact Hps|]. cbn. lia.
Qed.
Lemma tcp_packets_roundtrip_witness :
  ∃ framed,
    send_all [str "getvar:all"; []; str "reboot"] (mkTcp (mkPipe [] []))
      = (Ok tt, mkTcp (mkPipe [] framed)) ∧
    receive_all 4096 3 (mkTcp (mkPipe (framed ++ []) []))
      = (Ok [str "getvar:all"; []; str "reboot"], mkTcp (mkPipe [] [])).
Proof.
  destruct (tcp_packets_roundtrip [str "getvar:all"; []; str "reboot"] 4096 [] [] [] [])
    as (framed & H1 & H2); [by_compute|lia|]. by exists framed.
Defined.


(** C32. The engine does not panic: for every packet that comes in, as long as the
    backend does not panic and its texts are shorter than 252 bytes. *)
Theorem fastboot_no_panic {T B : Type}
    `{!Transport T, !Wire T, !FastbootImplementation B, !ShowError} fuel (t : T) (b : B) :
  polite_backend (B:=B) False → no_panic (process_next_command fuel (t, b)).1.
Proof.
  intros HB. pose proof (process_runs False HB fuel t b) as Hr. unfold runs in Hr.
  intros E. destruct (process_next_command fuel (t, b)) as [[] ?]; simpl in E; done.
Qed.

(** A backend error of 252 bytes or more makes the engine panic instead of
    being cut, although [CommandError] keeps up to 252 bytes: with the message
    type they fill the response buffer, which [send_buffer] refuses by an
    assertion. *)
Theorem fastboot_long_error_panics {T B : Type}
    `{!Transport T, !FastbootImplementation B} (t : T) (b b' : B) part (text : bytes) e :
  command_error (E:=Error) [text] = Ok e → is_utf8 (take 252 text) = true → 252 ≤ zlen text →
  fb_flash b part = IRet (Err e, b') →
  (flash (str "flash:" ++ part) (t, b)).1 = Panic.
Proof.
  intros He Hu Hl Hf. destruct (command_error_run (E:=Error) [text]) as (e' & Ee & Hc).
  rewrite He in Ee. injection Ee as <-. rewrite mjoin_one in Hc.
  apply is_utf8_spec in Hu as [s Hs].
  assert (Ht : ce_to_str e = take 252 text).
  { unfold ce_to_str, to_str. rewrite Hc, Hs. simpl. by apply decode_utf8_inv. }
  unfold flash. rewrite strip_prefix_app. unfold with_responder. cbn [fst snd].
  rewrite bind_run. unfold call. cbn [fst snd]. rewrite Hf.
  cbn [run_info]. rewrite mret_run.
  unfold reply_result, reply_with, on_responder, zoom. cbn [fst snd].
  unfold reply_fail. rewrite bind_run. unfold gets, id, fastboot_fail.
  destruct (fastboot_msg_run (rs_buffer (responder_new t)) (str "FAIL") [ce_to_str e]) as (f & Ef & Em).
  rewrite bind_run, lift_run, Em. rewrite bind_run. unfold modify.
  destruct (write_all_new (rs_buffer (responder_new t)) (str "FAIL" :: [ce_to_str e]))
    as (f' & Ef' & L & _ & _ & Hsz).
  rewrite Ef in Ef'. injection Ef' as <-.
  rewrite zlen_mjoin_cons, mjoin_one, Ht, length_take in Hsz.
  change (zlen (rs_buffer (responder_new t))) with 256 in Hsz.
  change (zlen (str "FAIL")) with 4 in Hsz.
  unfold send_buffer. rewrite bind_run. unfold gets, id. rewrite bind_run, lift_run.
  cbn [set_buffer rs_transport_error responder_new rs_buffer]. rewrite bind_run, lift_run.
  rewrite (proj2 (Z.ltb_ge _ _)); [done|]. rewrite L.
  change (length (rs_buffer (responder_new t))) with 256%nat. lia.
Qed.

(** [fetch] reads its arguments from the end: whatever the partition is
    called, and also if its name contains colons, the backend gets the name, the
    offset and the size that the host put into the command. *)
Theorem fetch_args_roundtrip (part : bytes) (off sz : Z) :
  u64_ok off → u64_ok sz → zlen part < 2 ^ 63 →
  let cmd := str "fetch:" ++ part ++ str ":" ++ fmt_hex0x off ++ str ":" ++ fmt_hex0x sz in
  ∃ args, split_on 58 cmd = str "fetch" :: args ∧ fetch_args cmd args = Ok (part, off, sz).
Proof.
  intros Ho Hs Hp.
  set (rest := part ++ str ":" ++ fmt_hex0x off ++ str ":" ++ fmt_hex0x sz). cbn zeta.
  assert (Hhex : ∀ z, u64_ok z → 58 ∉ fmt_hex0x z).
  { intros z [Hz _] Hin. unfold fmt_hex0x in Hin. apply elem_of_app in Hin as [Hin|Hin].
    - revert Hin. by_compute.
    - apply fmt_hex_chars in Hin; lia. }
  assert (Hsplit : split_on 58 rest = split_on 58 part ++ [fmt_hex0x off; fmt_hex0x sz]).
  { unfold rest. change (str ":" ++ fmt_hex0x off ++ str ":" ++ fmt_hex0x sz)
      with (58 :: (fmt_hex0x off ++ 58 :: fmt_hex0x sz)).
    replace (part ++ 58 :: fmt_hex0x off ++ 58 :: fmt_hex0x sz)
      with ((part ++ 58 :: fmt_hex0x off) ++ 58 :: fmt_hex0x sz) by (by rewrite <- app_assoc).
    rewrite !split_on_snoc by auto. by rewrite <- app_assoc. }
  exists (split_on 58 rest). split.
  { change (str "fetch:") with (str "fetch" ++ [58]). rewrite <- app_assoc. apply split_on_app. by_compute. }
  unfold fetch_args. rewrite strip_prefix_app. cbn [ok_or_str]. rewrite ok_bind.
  assert (Hn : (zlen (split_on 58 rest) <? 3) = false).
  { apply Z.ltb_ge. rewrite Hsplit, length_app. pose proof (split_on_nonnil 58 part).
    destruct (split_on 58 part); [done|]. simpl. lia. }
  rewrite Hn, Hsplit, reverse_app. cbn [reverse rev_append app next_arg].
  assert (Hne : ∀ z, bool_decide (fmt_hex0x z = []) = false) by (intros; by apply bool_decide_eq_false).
  rewrite !Hne. cbn [ok_or_str]. rewrite !ok_bind.
  pose proof (zlen_fmt_hex0x off). pose proof (zlen_fmt_hex0x sz).
  rewrite (arith_ok 64 (zlen (fmt_hex0x off) + zlen (fmt_hex0x sz))) by lia. rewrite ok_bind.
  rewrite arith_ok by lia. rewrite ok_bind.
  assert (Hlen : zlen rest = zlen part + zlen (fmt_hex0x off) + zlen (fmt_hex0x sz) + 2).
  { unfold rest. rewrite !length_app. simpl length. lia. }
  rewrite arith_ok by lia. rewrite ok_bind.
  replace (zlen rest - (zlen (fmt_hex0x off) + zlen (fmt_hex0x sz) + 2)) with (zlen part) by lia.
  unfold rest. change (str ":" ++ ?l) with (58 :: l). rewrite str_to_app by lia. rewrite ok_bind.
  by rewrite !hex_to_u64_hex0x.
Qed.
Lemma fetch_args_roundtrip_witness :
  let cmd := str "fetch:" ++ str "user:data" ++ str ":" ++ fmt_hex0x 512 ++ str ":" ++ fmt_hex0x 4096 in
  ∃ args, split_on 58 cmd = str "fetch" :: args ∧
          fetch_args cmd args = Ok (str "user:data", 512, 4096).
Proof. apply (fetch_args_roundtrip (str "user:data") 512 4096); by_compute. Defined.

(** ** Downloads on the packet queue *)

Definition sent_on (q : Queue) (p : bytes) : Queue := mkQueue (inbox q) (outbox q ++ [p]).

Lemma send_msg_run (q : Queue) u (d : bytes) ty msg f :
  zlen d = MAX_RESPONSE_SIZE → zlen ty = 4 → zlen (mjoin msg) < 252 →
  write_all (new d) (ty :: msg) = Ok f →
  send_buffer (size f) (mkResponder (buf f) q (Ok tt) u) =
    (Ok tt, mkResponder (buf f) (sent_on q (ty ++ mjoin msg)) (Ok tt) u) ∧
  zlen (buf f) = MAX_RESPONSE_SIZE.
Proof.
  intros Hd Ht Hm Ef. unfold MAX_RESPONSE_SIZE in *.
  destruct (write_all_new d (ty :: msg)) as (f' & Ef' & L & C & _ & Hsz).
  rewrite Ef in Ef'. injection Ef' as <-. rewrite zlen_mjoin_cons in Hsz. split; [|lia].
  unfold send_buffer. rewrite bind_run. unfold gets, id. rewrite bind_run, lift_run.
  cbn [rs_buffer rs_transport rs_transport_error rs_remaining_upload].
  rewrite bind_run, lift_run, (proj2 (Z.ltb_lt _ _)) by lia. cbn [assert_that].
  rewrite bind_run, lift_run, index_range_ok by lia. rewrite Z.sub_0_r.
  fold (contents f). rewrite C, bind_run.
  unfold transmit. cbn [rs_transport send_packet queue_transport rs_buffer rs_remaining_upload].
  rewrite bind_run, lift_run. cbn [rs_transport_error]. unfold sent_on. repeat f_equal.
  change (mjoin (ty :: msg)) with (ty ++ mjoin msg). apply take_ge. rewrite length_app. lia.
Qed.

Lemma reply_okay_run (q : Queue) u (d : bytes) msg :
  zlen d = MAX_RESPONSE_SIZE → zlen (mjoin msg) < 252 →
  ∃ d', reply_okay msg (mkResponder d q (Ok tt) u) =
    (Ok tt, mkResponder d' (sent_on q (str "OKAY" ++ mjoin msg)) (Ok tt) u).
Proof.
  intros Hd Hm. unfold reply_okay, fastboot_okay. rewrite bind_run. unfold gets, id.
  destruct (fastboot_msg_run d (str "OKAY") msg) as (f & Ef & Em).
  cbn [rs_buffer]. rewrite bind_run, lift_run, Em. rewrite bind_run. unfold modify, set_buffer.
  cbn [rs_transport rs_transport_error rs_remaining_upload].
  destruct (send_msg_run q u d (str "OKAY") msg f Hd eq_refl Hm Ef) as [-> _]. by eexists.
Qed.

Lemma send_data_message_run (q : Queue) u (d : bytes) n :
  zlen d = MAX_RESPONSE_SIZE →
  ∃ d', zlen d' = MAX_RESPONSE_SIZE ∧
    send_data_message n (mkResponder d q (Ok tt) u) =
    (Ok tt, mkResponder d' (sent_on q (str "DATA" ++ fmt_hex08 n)) (Ok tt) u).
Proof.
  intros Hd. unfold send_data_message, send_formatted_msg. rewrite bind_run. unfold gets, id.
  destruct (write_all_new d [str "DATA"; fmt_hex08 n]) as (f & Ef & _).
  cbn [rs_buffer]. rewrite bind_run, lift_run, Ef. cbn [unwrap_res]. rewrite bind_run.
  unfold modify, set_buffer. cbn [rs_transport rs_transport_error rs_remaining_upload].
  destruct (send_msg_run q u d (str "DATA") [fmt_hex08 n] f Hd eq_refl) as [-> Hf]; [|done|].
  { rewrite mjoin_one. pose proof (zlen_fmt_hex08 n). lia. }
  rewrite mjoin_one. by eexists.
Qed.

Lemma download_loop_run ps rest ob u (d : bytes) fuel n k (dl : bytes) :
  (length ps ≤ fuel)%nat → Forall (λ p, p ≠ []) ps → 0 ≤ k → zlen dl = n → n < 2 ^ 64 →
  k + zlen (mjoin ps) = n →
  download_loop fuel n k (mkResponder d (mkQueue (ps ++ rest) ob) (Ok tt) u, dl) =
    (Ok (inl (Some n)), (mkResponder d (mkQueue rest ob) (Ok tt) u, splice dl k (mjoin ps))).
Proof.
  intros Hf Hps. revert fuel k dl Hf. induction Hps as [|p ps Hp _ IH]; intros fuel k dl Hf Hk Hdl Hn Ht.
  { simpl in Ht. rewrite Z.add_0_r in Ht. subst k. change (mjoin []) with (@nil Z). rewrite splice_nil.
    destruct fuel; cbn [download_loop]; by rewrite Z.ltb_irrefl. }
  rewrite zlen_mjoin_cons in Ht. assert (0 < zlen p) by (destruct p; [done|simpl; lia]).
  destruct fuel as [|fuel]; [simpl in Hf; lia|]. cbn [download_loop].
  rewrite (proj2 (Z.ltb_lt k n)) by lia. cbn [negb]. rewrite bind_run. cbn [fst snd].
  rewrite get_range_Some by lia.
  cbn [receive_packet queue_transport queue_receive rs_transport inbox outbox app].
  assert (Hsl : zlen (slice dl k (zlen dl - k)) = n - k) by lens.
  rewrite (proj2 (Z.ltb_ge _ _)) by lia. cbn [set_transport rs_buffer rs_transport_error rs_remaining_upload].
  rewrite (proj2 (Z.eqb_neq _ _)), checked_Some, (proj2 (Z.ltb_ge _ _)) by lia.
  change (mjoin (p :: ps)) with (p ++ mjoin ps).
  assert (Hsp : splice dl k (splice (slice dl k (zlen dl - k)) 0 p) = splice dl k p) by list_ext.
  rewrite Hsp, IH; [|simpl in Hf; lia|lia|rewrite length_splice; lia|lia|lia].
  by rewrite splice_splice_adj by lia.
Qed.

(** C33. A download is exact: if the host asks for [n] bytes and then sends
    packets of together [n] bytes, the engine answers [DATA] with [n], takes
    exactly these packets off the transport, writes their bytes to the start of
    the download buffer and nowhere else, and then hands the download to the
    backend; one loop iteration per packet is enough. *)
Theorem fastboot_download_exact {B : Type} `{!FastbootImplementation B, !ShowError}
    (b b' : B) (buffer : bytes) (put : bytes → B) (ps rest : list bytes) ob n fuel :
  fb_get_download_buffer b = Some (buffer, put) →
  n = zlen (mjoin ps) → 0 < n ≤ zlen buffer → n < 2 ^ 64 →
  Forall (λ p, p ≠ []) ps → (length ps ≤ fuel)%nat →
  fb_download_complete (put (mjoin ps ++ drop (Z.to_nat n) buffer)) n = IRet (Ok tt, b') →
  download fuel [fmt_hex n] (mkQueue (ps ++ rest) ob, b) =
    (Ok (inl tt), (mkQueue rest (ob ++ [str "DATA" ++ fmt_hex08 n; str "OKAY"]), b')).
Proof.
  intros Hget Hn Hle Hlt Hps Hf Hdone.
  assert (Hsize : download_size [fmt_hex n] = Ok n).
  { unfold download_size, next_arg_u64, next_arg. rewrite bool_decide_false.
    - cbn [fst]. unfold hex_to_u64.
      replace (strip_prefix (str "0x") (fmt_hex n)) with (@None bytes).
      + simpl default. rewrite from_str_radix_hex by (split; lia). cbn [mbind outcome_bind ok_or_str].
        by rewrite checked_Some by lia.
      + symmetry. destruct (strip_prefix _ (fmt_hex n)) eqn:E; [|done]. apply strip_prefix_Some in E.
        assert (Hx : 120 ∈ fmt_hex n) by (rewrite E; apply elem_of_app; left; by_compute).
        apply fmt_hex_chars in Hx; lia.
    - intros E. pose proof (from_str_radix_hex n ltac:(split; lia)) as Hr. by rewrite E in Hr. }
  unfold download. rewrite Hsize. unfold with_responder. cbn [fst snd].
  rewrite bind_run. unfold with_download_buffer. cbn [fst snd]. rewrite Hget.
  unfold download_data. rewrite bind_run. unfold gets. cbn [snd].
  rewrite (proj2 (Z.ltb_ge _ _)), (proj2 (Z.eqb_neq _ _)) by lia.
  unfold into_prefix. cbn [fst snd]. rewrite get_range_Some by lia. rewrite Z.sub_0_r.
  rewrite bind_run. unfold beside, zoom. cbn [fst snd]. unfold responder_new.
  destruct (send_data_message_run (mkQueue (ps ++ rest) ob) 0 (zeros MAX_RESPONSE_SIZE) n)
    as (d' & Hd' & ->); [done|].
  unfold sent_on. cbn [inbox outbox].
  rewrite download_loop_run by (try done; try lia; lens).
  assert (Hb : splice buffer 0 (splice (slice buffer 0 n) 0 (mjoin ps))
    = mjoin ps ++ drop (Z.to_nat n) buffer) by list_ext.
  rewrite Hb, bind_run. unfold call. cbn [fst snd]. rewrite Hdone. cbn [run_info]. rewrite mret_run.
  cbn [reply_result reply_with]. unfold on_responder, zoom, fmap, ST_fmap. cbn [fst snd].
  destruct (reply_okay_run (mkQueue rest (ob ++ [str "DATA" ++ fmt_hex08 n])) 0 d' [[]])
    as (d2 & ->); [done|done|].
  unfold sent_on. cbn [inbox outbox rs_transport]. by rewrite <- app_assoc.
Qed.

(** ** A small backend *)

Record Demo := mkDemo { demo_buffer : bytes; demo_log : list bytes }.
Definition demo_error (s : string) : CommandError :=
  match command_error (E:=Error) [str s] with Ok e => e | _ => mkCommandError (new []) end.
Definition demo_do {A} (b : Demo) (what : bytes) (a : A) : A * Demo :=
  (a, mkDemo (demo_buffer b) (demo_log b ++ [what])).

#[export] Instance demo_backend : FastbootImplementation Demo := {
  fb_get_var b var args out :=
    if bool_decide (var = str "version") then IRet (Ok 3, splice out 0 (str "0.4"), b)
    else IRet (Err (demo_error "Not found"), out, b);
  fb_get_var_all b := VInfo (str "version") [] (str "0.4") (λ _, VRet (Ok tt, b));
  fb_get_download_buffer b := Some (demo_buffer b, λ d, mkDemo d (demo_log b));
  fb_download_complete b n := IRet (demo_do b (fmt_dec n) (Ok tt));
  fb_flash b part := IInfo [str "Flashing "; str "now"] (λ _, IRet (demo_do b part (Ok tt)));
  fb_erase b part := IRet (Err (demo_error "Protected"), b);
  fb_upload b :=
    BStart 4 (λ e, (Err (demo_error "Lost"), b))
      (UData [1; 2] (λ _, UData [3; 4] (λ _, URet (Ok tt, b))));
  fb_fetch b part off sz :=
    BStart 2 (λ e, (Err (demo_error "Lost"), b)) (UData [1] (λ _, URet (demo_do b part (Ok tt))));
  fb_reboot b mode := OOkay [] (λ _, (Some (demo_error "Reboot failed"), b));
  fb_continue b := IRet (Ok tt, b);
  fb_set_active b slot := IRet (demo_do b slot (Ok tt));
  fb_boot b := ORet (Err (demo_error "No image"), b);
  fb_oem b cmd res := IRet (demo_do b cmd (Ok (str "done")));
}.
#[export] Instance demo_show : ShowError := λ _, [str "error"].

Lemma demo_polite (pan : Prop) : polite_backend (B:=Demo) pan.
Proof.
  assert (Hs : ∀ l : bytes, (zlen l <? 252) = true → short pan l).
  { intros l Hl. right. by bools. }
  assert (Hn : short pan (@nil Z)) by (by apply Hs).
  assert (He : Forall (λ s, short pan (ce_to_str (demo_error s)))
    ["Not found"; "Protected"; "Lost"; "Reboot failed"; "No image"]%string)
    by (repeat constructor; apply Hs; vm_compute; reflexivity).
  rewrite !Forall_cons in He. destruct He as (E1 & E2 & E3 & E4 & E5 & _).
  split; intros; unfold fb_get_var, fb_get_var_all, fb_download_complete, fb_flash, fb_erase,
    fb_upload, fb_fetch, fb_reboot, fb_continue, fb_set_active, fb_boot, fb_oem, demo_backend, demo_do,
    polite_unit; cbn [polite_info polite_var polite_okay polite_upload polite_uploading
      polite_result fst snd]; try done; [|by right].
  case_bool_decide; cbn [polite_info polite_result]; [|done].
  destruct (get_range _ 0 3) as [v|] eqn:E; [|done].
  apply get_range_inv in E as (? & ? & ->). right. simpl default. rewrite length_slice. lia.
Qed.

(** A host that downloads, flashes, asks for a variable and uploads. *)
Definition demo_start : Queue * Demo :=
  (mkQueue [str "flash:boot"; str "upload"; str "oem x"; str "continue"] [], mkDemo (zeros 8) []).


Lemma fastboot_no_panic_witness : no_panic (process_next_command 5 demo_start).1.
Proof. apply (fastboot_no_panic 5 demo_start.1 demo_start.2), demo_polite. Defined.

(** The whole session: every packet that goes out, in order. *)
Example demo_session :
  run 10 demo_start =
    (Ok true, (mkQueue [] [str "INFOFlashing now"; str "OKAY"; str "DATA00000004"; [1; 2]; [3; 4];
                           str "OKAY"; str "OKAYdone"; str "OKAY"],
               mkDemo (zeros 8) [str "boot"; str "x"])).
Proof. vm_compute. reflexivity. Qed.

Definition long_text : bytes := replicate 252 97.
Record Chatty := mkChatty {}.
Definition chatty_error : CommandError :=
  match command_error (E:=Error) [long_text] with Ok e => e | _ => mkCommandError (new []) end.
(** A backend that reports every failure with a text of 252 bytes. *)
#[export] Instance chatty_backend : FastbootImplementation Chatty := {
  fb_get_var b var args out := IRet (Err chatty_error, out, b);
  fb_get_var_all b := VRet (Err chatty_error, b);
  fb_get_download_buffer b := Some ([], λ _, b);
  fb_download_complete b n := IRet (Err chatty_error, b);
  fb_flash b part := IRet (Err chatty_error, b);
  fb_erase b part := IRet (Err chatty_error, b);
  fb_upload b := BRet (Err chatty_error, b);
  fb_fetch b part off sz := BRet (Err chatty_error, b);
  fb_reboot b mode := ORet (Some chatty_error, b);
  fb_continue b := IRet (Err chatty_error, b);
  fb_set_active b slot := IRet (Err chatty_error, b);
  fb_boot b := ORet (Err chatty_error, b);
  fb_oem b cmd res := IRet (Err chatty_error, b);
}.
Lemma fastboot_long_error_panics_witness :
  (flash (str "flash:" ++ str "boot") (mkQueue [] [], mkChatty)).1 = Panic.
Proof.
  apply (fastboot_long_error_panics (mkQueue [] []) mkChatty mkChatty (str "boot") long_text chatty_error).
  - vm_compute. reflexivity.
  - vm_compute. reflexivity.
  - vm_compute. discriminate.
  - reflexivity.
Defined.

Lemma fastboot_download_exact_witness :
  download 3 [fmt_hex 5] (mkQueue ([[1; 2]; [3]; [4; 5]] ++ [str "continue"]) [],
                          mkDemo (zeros 8) []) =
    (Ok (inl tt), (mkQueue [str "continue"] ([] ++ [str "DATA" ++ fmt_hex08 5; str "OKAY"]),
                   mkDemo [1; 2; 3; 4; 5; 0; 0; 0] [str "5"])).
Proof.
  apply (fastboot_download_exact (mkDemo (zeros 8) []) _ (zeros 8) (λ d, mkDemo d [])
    [[1; 2]; [3]; [4; 5]] [str "continue"] [] 5 3).
  - reflexivity.
  - reflexivity.
  - vm_compute. split; [reflexivity|discriminate].
  - reflexivity.
  - repeat constructor; discriminate.
  - apply le_n.
  - vm_compute. reflexivity.
Defined.
