(* ===== verification/Sparse.v ===== *)
(** * libgbl: the sparse image writer

    Models src/gbl/libgbl/src/fastboot/sparse.rs. The image is written in two
    passes over one buffer: the first writes the raw chunks and replaces the
    chunk headers it has read by 8-byte records at the start of the buffer, the
    second uses the rest of the buffer to write the fill chunks. *)

From S2P Require Import Prelude LibError.

(** gbl/libgbl/src/fastboot/sparse.rs:26-26, [HEADER_MAGIC]. *)
Definition HEADER_MAGIC : Z := 0xED26FF3A.
(** gbl/libgbl/src/fastboot/sparse.rs:27-27, [CHUNK_TYPE_RAW]. *)
Definition CHUNK_TYPE_RAW : Z := 0xCAC1.
(** gbl/libgbl/src/fastboot/sparse.rs:28-28, [CHUNK_TYPE_FILL]. *)
Definition CHUNK_TYPE_FILL : Z := 0xCAC2.
(** gbl/libgbl/src/fastboot/sparse.rs:29-29, [CHUNK_TYPE_DONT_CARE]. *)
Definition CHUNK_TYPE_DONT_CARE : Z := 0xCAC3.
(** gbl/libgbl/src/fastboot/sparse.rs:30-30, [CHUNK_TYPE_CRC32]. *)
Definition CHUNK_TYPE_CRC32 : Z := 0xCAC4.
(** gbl/libgbl/src/fastboot/sparse.rs:32-32, [SPARSE_HEADER_MAJOR_VER]. *)
Definition SPARSE_HEADER_MAJOR_VER : Z := 1.
(** gbl/libgbl/src/fastboot/sparse.rs:33-33, [SPARSE_HEADER_MINOR_VER]. *)
Definition SPARSE_HEADER_MINOR_VER : Z := 0.
(** gbl/libgbl/src/fastboot/sparse.rs:65-65, [ERR_ARITHMETIC_OVERFLOW]. *)
Definition ERR_ARITHMETIC_OVERFLOW : Error := error_of_str "Arithmetic Overflow".
(** gbl/libgbl/src/fastboot/sparse.rs:66-66, [ERR_IMAGE_SIZE]. *)
Definition ERR_IMAGE_SIZE : Error := error_of_str "Bad image. Invalid image size".

(** ** Headers *)

(** gbl/libgbl/src/fastboot/sparse.rs:35-47, [SparseHeader]. *)
Record SparseHeader := mkSparseHeader {
  sh_magic : Z;
  sh_major_version : Z;
  sh_minor_version : Z;
  sh_file_hdr_sz : Z;
  sh_chunk_hdr_sz : Z;
  sh_blk_sz : Z;
  sh_total_blks : Z;
  sh_total_chunks : Z;
  sh_image_checksum : Z;
}.
(** [size_of::<SparseHeader>()] and [size_of::<ChunkHeader>()]. *)
Definition SPARSE_HEADER_SIZE : Z := 28.
Definition CHUNK_HEADER_SIZE : Z := 12.

(** The field of [n] bytes at [off]. *)
Definition field (l : bytes) (off n : Z) : Z := le_val (slice l off n).
Definition decode_sparse_header (l : bytes) : SparseHeader :=
  mkSparseHeader (field l 0 4) (field l 4 2) (field l 6 2) (field l 8 2) (field l 10 2)
    (field l 12 4) (field l 16 4) (field l 20 4) (field l 24 4).

(** gbl/libgbl/src/fastboot/sparse.rs:50-53, [SparseHeader::data_size]. *)
Definition data_size (h : SparseHeader) : result Z := arith 64 (sh_total_blks h * sh_blk_sz h).

(** gbl/libgbl/src/fastboot/sparse.rs:56-63, [ChunkHeader]. *)
Record ChunkHeader := mkChunkHeader {
  ch_chunk_type : Z;
  ch_reserved1 : Z;
  ch_chunk_sz : Z;
  ch_total_sz : Z;
}.
Definition decode_chunk_header (l : bytes) : ChunkHeader :=
  mkChunkHeader (field l 0 2) (field l 2 2) (field l 4 4) (field l 8 4).

(** ** Checked arithmetic and slices *)

(** gbl/libgbl/src/fastboot/sparse.rs:270-273, [to_usize]. *)
Definition to_usize (v : Z) : result Z := ok_or (checked 64 v) ERR_ARITHMETIC_OVERFLOW.
(** gbl/libgbl/src/fastboot/sparse.rs:275-278, [usize_add]. *)
Definition usize_add (lhs rhs : Z) : result Z :=
  lhs ← to_usize lhs; rhs ← to_usize rhs;
  ok_or (checked 64 (lhs + rhs)) ERR_ARITHMETIC_OVERFLOW.
(** gbl/libgbl/src/fastboot/sparse.rs:280-283, [to_u64]. *)
Definition to_u64 (v : Z) : result Z := ok_or (checked 64 v) ERR_ARITHMETIC_OVERFLOW.
(** gbl/libgbl/src/fastboot/sparse.rs:285-288, [u64_add]. *)
Definition u64_add (lhs rhs : Z) : result Z :=
  lhs ← to_u64 lhs; rhs ← to_u64 rhs;
  ok_or (checked 64 (lhs + rhs)) ERR_ARITHMETIC_OVERFLOW.
(** gbl/libgbl/src/fastboot/sparse.rs:290-293, [u64_mul]. *)
Definition u64_mul (lhs rhs : Z) : result Z :=
  lhs ← to_u64 lhs; rhs ← to_u64 rhs;
  ok_or (checked 64 (lhs * rhs)) ERR_ARITHMETIC_OVERFLOW.
(** gbl/libgbl/src/fastboot/sparse.rs:251-258, [get]. *)
Definition get (b : bytes) (start end_ : Z) : result bytes :=
  start ← to_usize start; end_ ← to_usize end_;
  ok_or (get_range b start end_) ERR_IMAGE_SIZE.
(** gbl/libgbl/src/fastboot/sparse.rs:242-249, [get_mut]: the subslice is given by its
    bounds. *)
Definition get_mut (b : bytes) (start end_ : Z) : result (Z * Z) :=
  start ← to_usize start; end_ ← to_usize end_;
  _ ← ok_or (get_range b start end_) ERR_IMAGE_SIZE;
  Ok (start, end_).
(** gbl/libgbl/src/fastboot/sparse.rs:260-265, [copy_from]. *)
Definition copy_from {A} (decode : bytes → A) (size : Z) (b : bytes) : result A :=
  l ← get b 0 size; Ok (decode l).

(** gbl/libgbl/src/fastboot/sparse.rs:68-79, [is_sparse_image]. *)
Definition is_sparse_image (sparse_img : bytes) : result SparseHeader :=
  sparse_header ← copy_from decode_sparse_header SPARSE_HEADER_SIZE sparse_img;
  if negb (sh_magic sparse_header =? HEADER_MAGIC) then
    Err (error_of_str "Sparse magic mismatch")
  else if negb (sh_major_version sparse_header =? SPARSE_HEADER_MAJOR_VER) then
    Err (error_of_str "Sparse major version mismatch")
  else if negb (sh_minor_version sparse_header =? SPARSE_HEADER_MINOR_VER) then
    Err (error_of_str "Sparse minor version mismatch")
  else Ok sparse_header.

(** ** Fill records *)

(** gbl/libgbl/src/fastboot/sparse.rs:81-110, [FillInfo]. *)
Record FillInfo := mkFillInfo { fill_blocks : Z; fill_value_or_skip_blocks : Z }.
Definition FILL_INFO_SIZE : Z := 8.
Definition encode_fill_info (f : FillInfo) : bytes :=
  le_bytes 4 (fill_blocks f) ++ le_bytes 4 (fill_value_or_skip_blocks f).
Definition decode_fill_info (l : bytes) : FillInfo := mkFillInfo (field l 0 4) (field l 4 4).

(** gbl/libgbl/src/fastboot/sparse.rs:113-117, [FillInfo::new_fill]. *)
Definition new_fill (blocks value : Z) : result FillInfo :=
  assert_that (negb (blocks =? 0));; Ok (mkFillInfo blocks value).
(** gbl/libgbl/src/fastboot/sparse.rs:119-122, [FillInfo::new_skip]. *)
Definition new_skip (blocks : Z) : FillInfo := mkFillInfo 0 blocks.
(** gbl/libgbl/src/fastboot/sparse.rs:124-130, [FillInfo::get_blocks_and_value]. *)
Definition get_blocks_and_value (f : FillInfo) : Z * option Z :=
  if fill_blocks f =? 0 then (fill_value_or_skip_blocks f, None)
  else (fill_blocks f, Some (fill_value_or_skip_blocks f)).

(** [Ref::<_, [FillInfo]>::new_slice(l).unwrap()]: [n] records. *)
Fixpoint decode_fill_infos (n : nat) (l : bytes) : list FillInfo :=
  match n with
  | O => []
  | S n => decode_fill_info (take 8 l) :: decode_fill_infos n (drop 8 l)
  end.

(** ** The fill buffer *)

(** gbl/libgbl/src/fastboot/sparse.rs:218-223, [FillBuffer]. *)
Record FillBuffer := mkFillBuffer { fb_curr_val : option Z; fb_curr_size : Z; fb_buffer : bytes }.

(** [n] copies of the 4 bytes of [val]. *)
Definition repeat_val (n : nat) (val : Z) : bytes := mjoin (replicate n (le_bytes 4 val)).

(** gbl/libgbl/src/fastboot/sparse.rs:226-239, [FillBuffer::get]: the size of the filled
    part at the start of the buffer. A part that is not a whole number of
    [FillUnit]s makes [new_slice] return nothing. *)
Definition fill_buffer_get (f : FillBuffer) (val size : Z) : result (Z * FillBuffer) :=
  let len := zlen (fb_buffer f) in
  aligned_len ← arith 64 (len - len mod 4);
  al ← to_u64 aligned_len;
  size ← unwrap (checked 64 (Z.min al size));
  let curr_size := if bool_decide (Some val = fb_curr_val f) then fb_curr_size f else 0 in
  gap ← arith 64 (Z.max curr_size size - curr_size);
  tail ← index_from (fb_buffer f) curr_size;
  to_fill ← index_range tail 0 gap;
  assert_that (zlen to_fill mod 4 =? 0);;
  let buffer := splice (fb_buffer f) curr_size (repeat_val (Z.to_nat (gap / 4)) val) in
  curr_size ← arith 64 (curr_size + gap);
  index_range buffer 0 size;;
  Ok (size, mkFillBuffer (Some val) curr_size buffer).

(** ** The writer *)

(** gbl/libgbl/src/fastboot/sparse.rs:135-139, [SparseRawWriter]: writes a borrowed buffer,
    given by its address and its contents, which it may use as scratch space. *)
Class SparseRawWriter (W : Type) := sw_write : Z → Z → ST (W * bytes) Error unit.

Section Writer.
Context {W : Type} `{!SparseRawWriter W}.

(** A call of the writer with the [n] bytes at [a] of the buffer at [addr]. *)
Definition write_part (addr off a n : Z) : ST (W * bytes) Error unit := λ s,
  match get_range (snd s) a (a + n) with
  | None => (Panic, s)
  | Some data =>
      let '(r, (w, data')) := sw_write (addr + a) off (fst s, data) in (r, (w, splice (snd s) a data'))
  end.

(** gbl/libgbl/src/fastboot/sparse.rs:141-210, [write_sparse_image]: the [match] on the
    chunk type; [payload] starts at [start] in the image. *)
Definition write_chunk (addr : Z) (header : ChunkHeader) (payload : bytes) (start payload_sz write_offset : Z)
    : ST (W * bytes) Error FillInfo :=
  if ch_chunk_type header =? CHUNK_TYPE_RAW then
    len ← lift (to_usize payload_sz);
    '(_, len) ← lift (get_mut payload 0 len);
    write_part addr write_offset start len;;
    mret (new_skip (ch_chunk_sz header))
  else if (ch_chunk_type header =? CHUNK_TYPE_FILL) && negb (ch_chunk_sz header =? 0) then
    v ← lift (get payload 0 4);
    lift (new_fill (ch_chunk_sz header) (le_val v))
  else if (ch_chunk_type header =? CHUNK_TYPE_DONT_CARE)
          || (ch_chunk_type header =? CHUNK_TYPE_CRC32) then
    mret (new_skip (ch_chunk_sz header))
  else raise (error_of_str "Invalid Chunk Type").

(** gbl/libgbl/src/fastboot/sparse.rs:141-210, [write_sparse_image]: the first pass, over
    [n] chunks. *)
Fixpoint first_pass (n : nat) (addr blk_sz curr write_offset fill_off : Z)
    : ST (W * bytes) Error (Z * Z) :=
  match n with
  | O => mret (write_offset, fill_off)
  | S n =>
      sparse_img ← gets snd;
      rest ← lift (index_from sparse_img curr);
      header ← lift (copy_from decode_chunk_header CHUNK_HEADER_SIZE rest);
      start ← lift (arith 64 (curr + CHUNK_HEADER_SIZE));
      payload ← lift (index_from sparse_img start);
      payload_sz ← lift (u64_mul (ch_chunk_sz header) blk_sz);
      fill ← write_chunk addr header payload start payload_sz write_offset;
      write_offset ← lift (u64_add write_offset payload_sz);
      sparse_img ← gets snd;
      tail ← lift (index_from sparse_img fill_off);
      _ ← lift (index_range tail 0 FILL_INFO_SIZE);
      modify (λ s, (fst s, splice (snd s) fill_off (encode_fill_info fill)));;
      fill_off ← lift (usize_add fill_off FILL_INFO_SIZE);
      curr ← lift (usize_add curr (ch_total_sz header));
      first_pass n addr blk_sz curr write_offset fill_off
  end.

(** gbl/libgbl/src/fastboot/sparse.rs:141-210, [write_sparse_image]: the loop that writes
    one fill chunk from the fill buffer. [None] says that the fuel did not
    suffice. *)
Fixpoint sparse_fill_loop (fuel : nat) (addr buffer_len end_ write_offset : Z)
    : ST (W * bytes) Error (option Z) :=
  if negb (write_offset <? end_) then mret (Some write_offset) else
  match fuel with
  | O => mret None
  | S fuel =>
      left ← lift (arith 64 (end_ - write_offset));
      let to_write := Z.min buffer_len left in
      n ← lift (unwrap_res (to_usize to_write));
      write_part addr write_offset 0 n;;
      write_offset ← lift (arith 64 (write_offset + to_write));
      sparse_fill_loop fuel addr buffer_len end_ write_offset
  end.

(** The bytes of the fill buffer, and the fill buffer made from the part of the
    image behind the records. *)
Definition on_buffer {A} (m : ST (W * bytes) Error A) : ST (W * FillBuffer) Error A :=
  zoom (λ s, (fst s, fb_buffer (snd s)))
       (λ t s, (fst t, mkFillBuffer (fb_curr_val (snd s)) (fb_curr_size (snd s)) (snd t))) m.
Definition with_fill_buffer {A} (fill_off : Z) (m : ST (W * FillBuffer) Error A)
    : ST (W * bytes) Error A :=
  zoom (λ s, (fst s, mkFillBuffer None 0 (drop (Z.to_nat fill_off) (snd s))))
       (λ t s, (fst t, take (Z.to_nat fill_off) (snd s) ++ fb_buffer (snd t))) m.

(** gbl/libgbl/src/fastboot/sparse.rs:141-210, [write_sparse_image]: the second pass. *)
Fixpoint second_pass (fuel : nat) (addr blk_sz : Z) (fill_infos : list FillInfo) (write_offset : Z)
    : ST (W * FillBuffer) Error (option Z) :=
  match fill_infos with
  | [] => mret (Some write_offset)
  | ele :: fill_infos =>
      match get_blocks_and_value ele with
      | (blks, None) =>
          n ← lift (u64_mul blks blk_sz);
          write_offset ← lift (u64_add write_offset n);
          second_pass fuel addr blk_sz fill_infos write_offset
      | (blks, Some v) =>
          sz ← lift (u64_mul blks blk_sz);
          '(w, f) ← gets id;
          '(size, f) ← lift (fill_buffer_get f v sz);
          modify (λ s, (fst s, f));;
          buffer_len ← lift (to_u64 size);
          end_ ← lift (u64_add write_offset sz);
          r ← on_buffer (sparse_fill_loop fuel addr buffer_len end_ write_offset);
          match r with
          | Some write_offset => second_pass fuel addr blk_sz fill_infos write_offset
          | None => mret None
          end
      end
  end.

(** gbl/libgbl/src/fastboot/sparse.rs:141-210, [write_sparse_image]: on the writer and the
    image buffer, which is at [addr]. [None] says that the fuel did not suffice. *)
Definition write_sparse_image (fuel : nat) (addr : Z) : ST (W * bytes) Error (option Z) :=
  sparse_img ← gets snd;
  sparse_header ← lift (is_sparse_image sparse_img);
  '(total, fill_off) ← first_pass (Z.to_nat (sh_total_chunks sparse_header)) addr
     (sh_blk_sz sparse_header) SPARSE_HEADER_SIZE 0 0;
  sparse_img ← gets snd;
  fill_infos ← lift (index_range sparse_img 0 fill_off);
  let infos := decode_fill_infos (Z.to_nat (fill_off / FILL_INFO_SIZE)) fill_infos in
  r ← with_fill_buffer fill_off (second_pass fuel (addr + fill_off) (sh_blk_sz sparse_header) infos 0);
  mret (match r with Some _ => Some total | None => None end).
End Writer.
