(* ===== verification/SparseProps.v ===== *)
(** * libgbl: properties of the sparse image writer

    A sparse image is specified by its chunks: [encode_image] lays them out as
    the format does, [expand] says what writing them means. The two-pass
    in-place writer is proved to do just that. *)

From S2P Require Import Prelude LibError Sparse.

(** ** Sparse images *)

Inductive chunk :=
| Raw (n : Z) (data : bytes)
| Fill (n v : Z)
| Skip (crc : bool) (n : Z) (payload : bytes).

(** The number of blocks and of bytes a chunk stands for. *)
Definition blocks (c : chunk) : Z :=
  match c with Raw n _ | Fill n _ | Skip _ n _ => n end.
Definition chunk_len (blk : Z) (c : chunk) : Z := blocks c * blk.

Definition chunk_type (c : chunk) : Z :=
  match c with
  | Raw _ _ => CHUNK_TYPE_RAW
  | Fill _ _ => CHUNK_TYPE_FILL
  | Skip crc _ _ => if crc then CHUNK_TYPE_CRC32 else CHUNK_TYPE_DONT_CARE
  end.
Definition payload (c : chunk) : bytes :=
  match c with Raw _ d => d | Fill _ v => le_bytes 4 v | Skip _ _ p => p end.
Definition encode_chunk (c : chunk) : bytes :=
  le_bytes 2 (chunk_type c) ++ le_bytes 2 0 ++ le_bytes 4 (blocks c) ++
  le_bytes 4 (12 + zlen (payload c)) ++ payload c.
Definition encode_chunks (cs : list chunk) : bytes := mjoin (encode_chunk <$> cs).
Definition encode_header (blk total_blks total_chunks checksum : Z) : bytes :=
  le_bytes 4 HEADER_MAGIC ++ le_bytes 2 1 ++ le_bytes 2 0 ++ le_bytes 2 28 ++ le_bytes 2 12 ++
  le_bytes 4 blk ++ le_bytes 4 total_blks ++ le_bytes 4 total_chunks ++ le_bytes 4 checksum.
Definition encode_image (blk total_blks checksum : Z) (cs : list chunk) (tail : bytes) : bytes :=
  encode_header blk total_blks (zlen cs) checksum ++ encode_chunks cs ++ tail.

Definition wf_chunk (blk : Z) (c : chunk) : Prop :=
  u32_ok (blocks c) ∧ u32_ok (12 + zlen (payload c)) ∧
  match c with
  | Raw n d => zlen d = n * blk
  | Fill n v => 0 < n ∧ u32_ok v
  | Skip _ _ _ => True
  end.

(** What a chunk at [off] writes into [m], and what all of them do in order. *)
Definition expand1 (blk off : Z) (c : chunk) (m : bytes) : bytes :=
  match c with
  | Raw _ d => splice m off d
  | Fill n v => splice m off (repeat_val (Z.to_nat (n * blk / 4)) v)
  | Skip _ _ _ => m
  end.
Fixpoint expand (blk off : Z) (cs : list chunk) (m : bytes) : bytes :=
  match cs with
  | [] => m
  | c :: cs => expand blk (off + chunk_len blk c) cs (expand1 blk off c m)
  end.
Fixpoint total_len (blk : Z) (cs : list chunk) : Z :=
  match cs with [] => 0 | c :: cs => chunk_len blk c + total_len blk cs end.

(** The chunks that the first and the second pass write. *)
Definition is_raw (c : chunk) : bool := match c with Raw _ _ => true | _ => false end.
Fixpoint expand_if (which : chunk → bool) (blk off : Z) (cs : list chunk) (m : bytes) : bytes :=
  match cs with
  | [] => m
  | c :: cs => expand_if which blk (off + chunk_len blk c) cs
                 (if which c then expand1 blk off c m else m)
  end.

Section Layout.
Context (blk : Z) (Hblk : 0 < blk < 2 ^ 32) (Hblk4 : blk mod 4 = 0).

Lemma chunk_len_nonneg c : wf_chunk blk c → 0 ≤ chunk_len blk c.
Proof using Hblk. intros [[? ?] _]. unfold chunk_len. nia. Qed.

Lemma total_len_nonneg cs : Forall (wf_chunk blk) cs → 0 ≤ total_len blk cs.
Proof using Hblk. induction 1 as [|c cs Hc _ IH]; simpl; [lia|]. pose proof (chunk_len_nonneg c Hc). lia. Qed.

Lemma repeat_val_length n v : length (repeat_val n v) = (4 * n)%nat.
Proof.
  unfold repeat_val. induction n as [|n IH]; [done|]. cbn [replicate].
  change (mjoin (?a :: ?l)) with (a ++ mjoin l). rewrite length_app, length_le_bytes, IH. lia.
Qed.

Lemma chunk_len_4 c : wf_chunk blk c → chunk_len blk c = 4 * (chunk_len blk c / 4).
Proof using Hblk4.
  intros _. unfold chunk_len. apply Z.div_exact in Hblk4; [|lia].
  rewrite Hblk4 at 1 2. replace (blocks c * (4 * (blk / 4))) with (blocks c * (blk / 4) * 4) by lia.
  rewrite Z.div_mul by lia. lia.
Qed.

Lemma expand1_data c off :
  wf_chunk blk c →
  (∀ m, expand1 blk off c m = m) ∨ ∃ d, zlen d = chunk_len blk c ∧ ∀ m, expand1 blk off c m = splice m off d.
Proof using Hblk Hblk4.
  intros Hc. destruct c as [n d|n v|crc n p]; [right|right|by left].
  - destruct Hc as (_ & _ & Hd). by exists d.
  - exists (repeat_val (Z.to_nat (n * blk / 4)) v). split; [|done].
    rewrite repeat_val_length. pose proof (chunk_len_4 _ Hc) as H4.
    pose proof (chunk_len_nonneg _ Hc) as H0.
    unfold chunk_len in *. cbn [blocks] in *. lia.
Qed.

Lemma expand1_length c off m :
  wf_chunk blk c → 0 ≤ off → off + chunk_len blk c ≤ zlen m →
  length (expand1 blk off c m) = length m.
Proof using Hblk Hblk4.
  intros Hc Ho Hl. destruct (expand1_data c off Hc) as [->|(d & Hd & ->)]; [done|].
  apply length_splice; lia.
Qed.

Lemma expand_if_length which cs off m :
  Forall (wf_chunk blk) cs → 0 ≤ off → off + total_len blk cs ≤ zlen m →
  length (expand_if which blk off cs m) = length m.
Proof using Hblk Hblk4.
  intros Hcs. revert off m. induction Hcs as [|c cs Hc Hcs IH]; intros off m Ho Hl; [done|].
  cbn [expand_if total_len] in *. pose proof (chunk_len_nonneg c Hc).
  pose proof (total_len_nonneg cs Hcs).
  rewrite IH; [| lia |]; destruct (which c); rewrite ?expand1_length; try done; lia.
Qed.

(** Writes to disjoint places commute. *)
Lemma splice_comm (m d e : bytes) a b :
  0 ≤ a → a + zlen d ≤ b → b + zlen e ≤ zlen m →
  splice (splice m a d) b e = splice (splice m b e) a d.
Proof. intros. list_ext. Qed.

Lemma expand_if_splice which cs off m a d :
  Forall (wf_chunk blk) cs → 0 ≤ a → a + zlen d ≤ off → off + total_len blk cs ≤ zlen m →
  expand_if which blk off cs (splice m a d) = splice (expand_if which blk off cs m) a d.
Proof using Hblk Hblk4.
  intros Hcs. revert off m. induction Hcs as [|c cs Hc Hcs IH]; intros off m Ha Hd Hl; [done|].
  cbn [expand_if total_len] in *. pose proof (chunk_len_nonneg c Hc).
  pose proof (total_len_nonneg cs Hcs).
  destruct (which c); [|apply IH; lia].
  rewrite <- IH by (rewrite ?expand1_length by (done || lia); lia). f_equal.
  destruct (expand1_data c off Hc) as [E|(e & He & E)]; rewrite !E; [done|].
  apply splice_comm; lia.
Qed.

(** Two passes, each over every second kind of chunk, write what one pass does. *)
Lemma expand_two_passes which cs off m :
  Forall (wf_chunk blk) cs → 0 ≤ off → off + total_len blk cs ≤ zlen m →
  expand_if (negb ∘ which) blk off cs (expand_if which blk off cs m) = expand blk off cs m.
Proof using Hblk Hblk4.
  intros Hcs. revert off m. induction Hcs as [|c cs Hc Hcs IH]; intros off m Ho Hl; [done|].
  cbn [expand_if expand total_len compose] in *. pose proof (chunk_len_nonneg c Hc).
  pose proof (total_len_nonneg cs Hcs). unfold compose.
  assert (Hl1 : length (expand1 blk off c m) = length m) by (apply expand1_length; [done|lia|lia]).
  destruct (which c); simpl; [apply IH; lia|].
  rewrite <- IH by lia. f_equal.
  destruct (expand1_data c off Hc) as [E|(e & He & E)]; rewrite !E; [done|].
  symmetry. apply expand_if_splice; [done|lia..].
Qed.
End Layout.

(** ** Parsing *)

Lemma get_prefix (l : bytes) n : 0 ≤ n ≤ zlen l → n < 2 ^ 64 → get l 0 n = Ok (slice l 0 n).
Proof.
  intros ? ?. unfold get, to_usize. rewrite !checked_Some by lia. cbn.
  rewrite get_range_Some by lia. cbn. by rewrite Z.sub_0_r.
Qed.

Lemma chunk_header_decode blk c rest :
  wf_chunk blk c →
  copy_from decode_chunk_header CHUNK_HEADER_SIZE (encode_chunk c ++ rest)
  = Ok (mkChunkHeader (chunk_type c) 0 (blocks c) (12 + zlen (payload c))).
Proof.
  intros (Hb & Ht & _). unfold u32_ok in *. unfold copy_from, CHUNK_HEADER_SIZE.
  rewrite get_prefix; [|unfold encode_chunk; rewrite !length_app, !length_le_bytes; lia|lia].
  cbn [mbind outcome_bind]. f_equal. unfold decode_chunk_header, field, encode_chunk.
  set (t := chunk_type c). set (n := blocks c) in *. set (z := 12 + zlen (payload c)) in *.
  rewrite !slice_slice by lia.
  change (slice _ (0 + 0) 2) with (le_bytes 2 t). change (slice _ (0 + 2) 2) with (le_bytes 2 0).
  change (slice _ (0 + 4) 4) with (le_bytes 4 n). change (slice _ (0 + 8) 4) with (le_bytes 4 z).
  rewrite !le_val_bytes; [done|simpl; lia..|].
  unfold t, chunk_type. destruct c as [| |[]]; by vm_compute.
Qed.

Lemma header_decode blk total_blks n checksum rest :
  u32_ok blk → u32_ok total_blks → u32_ok n → u32_ok checksum →
  is_sparse_image (encode_header blk total_blks n checksum ++ rest)
  = Ok (mkSparseHeader HEADER_MAGIC 1 0 28 12 blk total_blks n checksum).
Proof.
  unfold u32_ok. intros. unfold is_sparse_image, copy_from, SPARSE_HEADER_SIZE.
  rewrite get_prefix; [|unfold encode_header; rewrite !length_app, !length_le_bytes; lia|lia].
  cbn [mbind outcome_bind]. unfold decode_sparse_header, field, encode_header.
  rewrite !slice_slice by lia.
  change (slice _ (0 + 0) 4) with (le_bytes 4 HEADER_MAGIC). change (slice _ (0 + 4) 2) with (le_bytes 2 1).
  change (slice _ (0 + 6) 2) with (le_bytes 2 0). change (slice _ (0 + 8) 2) with (le_bytes 2 28).
  change (slice _ (0 + 10) 2) with (le_bytes 2 12). change (slice _ (0 + 12) 4) with (le_bytes 4 blk).
  change (slice _ (0 + 16) 4) with (le_bytes 4 total_blks). change (slice _ (0 + 20) 4) with (le_bytes 4 n).
  change (slice _ (0 + 24) 4) with (le_bytes 4 checksum).
  rewrite !le_val_bytes by (simpl; unfold HEADER_MAGIC; lia). done.
Qed.

(** ** Writers *)

(** A writer of a storage that holds [m]: a write of a buffer below [lim] inside
    the storage succeeds, changes the bytes of its range and leaves the buffer as
    it was. *)
Class SparseWriterSpec (W : Type) `{!SparseRawWriter W} := {
  sw_holds : Z → W → bytes → Prop;
  sw_write_ok : ∀ lim w m addr off (data : bytes),
    sw_holds lim w m → 0 ≤ addr → addr + zlen data ≤ lim → 0 ≤ off → off + zlen data ≤ zlen m →
    ∃ w', sw_write addr off (w, data) = (Ok tt, (w', data)) ∧ sw_holds lim w' (splice m off data);
}.

Section Passes.
Context {W : Type} `{!SparseRawWriter W, !SparseWriterSpec W}.
Context (blk lim : Z) (Hblk : 0 < blk < 2 ^ 32) (Hblk4 : blk mod 4 = 0).
Implicit Types (w : W) (m : bytes).

Lemma write_part_run w m (b : bytes) addr off a n :
  sw_holds lim w m → 0 ≤ addr → addr + zlen b ≤ lim →
  0 ≤ a → 0 ≤ n → a + n ≤ zlen b → 0 ≤ off → off + n ≤ zlen m →
  ∃ w', write_part addr off a n (w, b) = (Ok tt, (w', b)) ∧
        sw_holds lim w' (splice m off (slice b a n)).
Proof.
  intros Hm. intros. unfold write_part. cbn [fst snd]. rewrite get_range_Some by lia.
  replace (a + n - a) with n by lia.
  destruct (sw_write_ok lim w m (addr + a) off (slice b a n)) as (w' & -> & Hw);
    [done|lia|rewrite zlen_slice; lia|lia|rewrite zlen_slice; lia|].
  exists w'. split; [|done]. by rewrite splice_slice by lia.
Qed.

(** The record that the first pass makes of a chunk. *)
Definition info_of (c : chunk) : FillInfo :=
  match c with Fill n v => mkFillInfo n v | _ => mkFillInfo 0 (blocks c) end.

Lemma ok_or_bind {E A B} (a : A) (e : E) (f : A → outcome E B) : (ok_or (Some a) e ≫= f) = f a.
Proof. done. Qed.
Lemma u64_mul_ok a b : 0 ≤ a < 2 ^ 64 → 0 ≤ b < 2 ^ 64 → 0 ≤ a * b < 2 ^ 64 → u64_mul a b = Ok (a * b).
Proof.
  intros. unfold u64_mul, to_u64. rewrite (checked_Some 64 a), ok_or_bind by lia.
  rewrite (checked_Some 64 b), ok_or_bind by lia. by rewrite checked_Some by lia.
Qed.
Lemma u64_add_ok a b : 0 ≤ a → 0 ≤ b → a + b < 2 ^ 64 → u64_add a b = Ok (a + b).
Proof.
  intros. unfold u64_add, to_u64. rewrite (checked_Some 64 a), ok_or_bind by lia.
  rewrite (checked_Some 64 b), ok_or_bind by lia. by rewrite checked_Some by lia.
Qed.
Lemma usize_add_ok a b : 0 ≤ a → 0 ≤ b → a + b < 2 ^ 64 → usize_add a b = Ok (a + b).
Proof.
  intros. unfold usize_add, to_usize. rewrite (checked_Some 64 a), ok_or_bind by lia.
  rewrite (checked_Some 64 b), ok_or_bind by lia. by rewrite checked_Some by lia.
Qed.

Lemma encode_fill_info_length f : length (encode_fill_info f) = 8%nat.
Proof. unfold encode_fill_info. by rewrite length_app, !length_le_bytes. Qed.

Lemma encode_chunk_length c : zlen (encode_chunk c) = 12 + zlen (payload c).
Proof. unfold encode_chunk. rewrite !length_app, !length_le_bytes. lia. Qed.

Lemma index_from_app {E} (pre rest : bytes) : index_from (E:=E) (pre ++ rest) (zlen pre) = Ok rest.
Proof. unfold index_from. rewrite index_range_ok by lens. f_equal. list_ext. Qed.

(** The header of a chunk, as the first pass reads it. *)
Definition header_of (c : chunk) : ChunkHeader :=
  mkChunkHeader (chunk_type c) 0 (blocks c) (12 + zlen (payload c)).

Lemma write_chunk_run c (pre rest : bytes) w m addr off :
  sw_holds lim w m → 0 ≤ addr → addr + zlen (pre ++ payload c ++ rest) ≤ lim →
  wf_chunk blk c → 0 ≤ off → off + chunk_len blk c ≤ zlen m → zlen m < 2 ^ 64 →
  ∃ w', write_chunk addr (header_of c) (payload c ++ rest) (zlen pre) (chunk_len blk c) off
          (w, pre ++ payload c ++ rest) = (Ok (info_of c), (w', pre ++ payload c ++ rest)) ∧
        sw_holds lim w' (if is_raw c then expand1 blk off c m else m).
Proof using Hblk SparseWriterSpec0.
  intros Hm Haddr Hlim Hc Ho Hl Hw. pose proof (chunk_len_nonneg blk Hblk c Hc) as H0.
  destruct c as [n d|n v|crc n p]; unfold write_chunk; cbn [header_of ch_chunk_type chunk_type ch_chunk_sz blocks].
  - destruct Hc as (_ & _ & Hd). unfold chunk_len in *. cbn [blocks payload] in *.
    rewrite Z.eqb_refl. rewrite bind_run, lift_run. unfold to_usize. rewrite checked_Some by lia. cbn [ok_or].
    rewrite bind_run, lift_run. unfold get_mut, to_usize.
    rewrite (checked_Some 64 0), ok_or_bind, (checked_Some 64 (n * blk)), ok_or_bind by lia.
    rewrite get_range_Some by lens. cbn [ok_or mbind outcome_bind].
    rewrite bind_run.
    destruct (write_part_run w m (pre ++ d ++ rest) addr off (zlen pre) (n * blk)) as (w' & -> & Hw');
      [done|lia|lia|lia|lia|lens|lia|lia|].
    exists w'. split; [done|]. cbn [is_raw expand1].
    replace d with (slice (pre ++ d ++ rest) (zlen pre) (n * blk)) at 1; [done|]. list_ext.
  - destruct Hc as (Hn & _ & H1 & Hv). cbn [payload blocks] in *.
    change (CHUNK_TYPE_FILL =? CHUNK_TYPE_RAW) with false. rewrite Z.eqb_refl.
    rewrite (proj2 (Z.eqb_neq n 0)) by lia. cbn [negb andb].
    rewrite bind_run, lift_run, get_prefix by (rewrite ?length_app, ?length_le_bytes; lia).
    rewrite (slice_app_l (le_bytes 4 v)) by (by rewrite length_le_bytes).
    rewrite le_val_bytes by (unfold u32_ok in Hv; simpl; lia).
    unfold new_fill. rewrite (proj2 (Z.eqb_neq n 0)) by lia. by exists w.
  - exists w. split; [|done]. destruct crc; done.
Qed.

(** One step of the first pass: the chunk behind [pre] is written if it is raw,
    and its record is put at [fill_off]. *)
Lemma first_pass_step n c (pre rest : bytes) w m addr off fill_off :
  sw_holds lim w m → 0 ≤ addr → addr + zlen (pre ++ encode_chunk c ++ rest) ≤ lim →
  wf_chunk blk c → 0 ≤ fill_off ≤ zlen pre → 0 ≤ off →
  off + chunk_len blk c ≤ zlen m → zlen m < 2 ^ 64 →
  zlen (pre ++ encode_chunk c ++ rest) < 2 ^ 63 →
  ∃ w', first_pass (S n) addr blk (zlen pre) off fill_off (w, pre ++ encode_chunk c ++ rest) =
    first_pass n addr blk (zlen pre + zlen (encode_chunk c)) (off + chunk_len blk c) (fill_off + 8)
      (w', splice (pre ++ encode_chunk c) fill_off (encode_fill_info (info_of c)) ++ rest) ∧
    sw_holds lim w' (if is_raw c then expand1 blk off c m else m).
Proof using Hblk SparseWriterSpec0.
  intros Hm Haddr Hlim Hc Hf Ho Hl Hw Hlen. pose proof (chunk_len_nonneg blk Hblk c Hc) as H0.
  pose proof (encode_chunk_length c) as He. pose proof Hc as ((Hb1 & Hb2) & _).
  rewrite !length_app in Hlen.
  set (hdr := le_bytes 2 (chunk_type c) ++ le_bytes 2 0 ++ le_bytes 4 (blocks c) ++
              le_bytes 4 (12 + zlen (payload c))).
  assert (Hh : zlen (pre ++ hdr) = zlen pre + 12)
    by (unfold hdr; rewrite !length_app, !length_le_bytes; lia).
  assert (Hpl : pre ++ encode_chunk c ++ rest = (pre ++ hdr) ++ payload c ++ rest)
    by (unfold encode_chunk, hdr; by rewrite <- !app_assoc).
  rewrite Hpl in Hlim.
  destruct (write_chunk_run c (pre ++ hdr) rest w m addr off Hm Haddr Hlim Hc Ho Hl Hw) as (w' & Hrun & Hw').
  exists w'. split; [|done]. cbn [first_pass].
  rewrite bind_run. unfold gets at 1. cbn [snd].
  rewrite bind_run, lift_run, index_from_app.
  rewrite bind_run, lift_run, (chunk_header_decode blk) by done.
  rewrite bind_run, lift_run. unfold CHUNK_HEADER_SIZE. rewrite arith_ok by lia.
  rewrite bind_run, lift_run, Hpl, <- Hh, index_from_app.
  rewrite bind_run, lift_run. cbn [ch_chunk_sz].
  fold (chunk_len blk c) in *. rewrite u64_mul_ok by (unfold chunk_len in *; lia).
  fold (chunk_len blk c) (header_of c). rewrite bind_run, Hrun.
  rewrite bind_run, lift_run, u64_add_ok by lia.
  rewrite bind_run. unfold gets. cbn [snd]. rewrite <- Hpl.
  rewrite bind_run, lift_run. unfold index_from. rewrite index_range_ok by lens.
  rewrite bind_run, lift_run. unfold FILL_INFO_SIZE. rewrite index_range_ok by lens.
  rewrite bind_run. unfold modify. cbn [fst snd].
  rewrite bind_run, lift_run, usize_add_ok by lia.
  rewrite bind_run, lift_run. cbn [header_of ch_total_sz]. rewrite usize_add_ok by lia.
  f_equal; [f_equal; lia|]. f_equal.
  pose proof (encode_fill_info_length (info_of c)) as Hi. rewrite (app_assoc pre). list_ext.
Qed.

Definition encode_infos (l : list FillInfo) : bytes := mjoin (encode_fill_info <$> l).

Lemma encode_infos_length l : zlen (encode_infos l) = 8 * zlen l.
Proof.
  unfold encode_infos. induction l as [|f l IH]; [done|].
  change (mjoin (encode_fill_info <$> f :: l)) with (encode_fill_info f ++ encode_infos l).
  rewrite length_app, encode_fill_info_length. unfold encode_infos. simpl length. lia.
Qed.
Lemma encode_infos_app l k : encode_infos (l ++ k) = encode_infos l ++ encode_infos k.
Proof. unfold encode_infos. by rewrite fmap_app, join_app. Qed.

(** The first pass writes the raw chunks and leaves the records of all chunks at
    the start of the buffer. *)
Lemma first_pass_run cs (pre tail : bytes) w m addr off recs :
  sw_holds lim w m → 0 ≤ addr → addr + zlen (pre ++ encode_chunks cs ++ tail) ≤ lim →
  Forall (wf_chunk blk) cs → 8 * zlen recs ≤ zlen pre → 0 ≤ off →
  take (8 * length recs) pre = encode_infos recs →
  off + total_len blk cs ≤ zlen m → zlen m < 2 ^ 64 →
  zlen (pre ++ encode_chunks cs ++ tail) < 2 ^ 63 →
  ∃ w' pre', first_pass (length cs) addr blk (zlen pre) off (8 * zlen recs)
               (w, pre ++ encode_chunks cs ++ tail) =
             (Ok (off + total_len blk cs, 8 * zlen (recs ++ (info_of <$> cs))), (w', pre' ++ tail)) ∧
    length pre' = length (pre ++ encode_chunks cs) ∧
    take (8 * length (recs ++ (info_of <$> cs))) pre' = encode_infos (recs ++ (info_of <$> cs)) ∧
    sw_holds lim w' (expand_if is_raw blk off cs m).
Proof using Hblk Hblk4 SparseWriterSpec0.
  intros Hm0 Haddr Hlim0 Hcs. revert pre w m off recs Hm0 Hlim0.
  induction Hcs as [|c cs Hc Hcs IH]; intros pre w m off recs Hm0 Hlim0 Hr Ho Ht Hl Hw Hlen;
    cbn [length total_len expand_if] in *.
  { exists w, pre. cbn [first_pass fmap list_fmap]. rewrite !app_nil_r, Z.add_0_r. split_and!; done. }
  pose proof (chunk_len_nonneg blk Hblk c Hc). pose proof (total_len_nonneg blk Hblk cs Hcs).
  pose proof (encode_chunk_length c) as He. pose proof (encode_fill_info_length (info_of c)) as Hi.
  change (encode_chunks (c :: cs)) with (encode_chunk c ++ encode_chunks cs) in *.
  rewrite <- app_assoc in *.
  destruct (first_pass_step (length cs) c pre (encode_chunks cs ++ tail) w m addr off (8 * zlen recs))
    as (w1 & -> & Hw1); [done|done|done|done|lia|lia|lia|lia|done|].
  set (m1 := if is_raw c then expand1 blk off c m else m) in *.
  set (pre1 := splice (pre ++ encode_chunk c) (8 * zlen recs) (encode_fill_info (info_of c))).
  assert (Hp1 : zlen pre1 = zlen pre + zlen (encode_chunk c))
    by (unfold pre1; rewrite length_splice; rewrite ?length_app; lia).
  assert (Hi1 : length m1 = length m)
    by (unfold m1; destruct (is_raw c); [apply expand1_length; [done..|lia]|done]).
  destruct (IH pre1 w1 m1 (off + chunk_len blk c) (recs ++ [info_of c])) as (w2 & pre2 & Er & Hp2 & Ht2 & Hw2).
  - done.
  - revert Hlim0. rewrite !length_app. lia.
  - rewrite length_app. simpl length. lia.
  - lia.
  - rewrite encode_infos_app, length_app, <- Ht. unfold pre1.
    change (encode_infos [info_of c]) with (encode_fill_info (info_of c) ++ []). rewrite app_nil_r.
    simpl length. list_ext.
  - lia.
  - lia.
  - revert Hlen. rewrite !length_app. lia.
  - exists w2, pre2. rewrite <- app_assoc in Er, Ht2. rewrite length_app in Er. simpl length in Er.
    rewrite Hp1 in Er. replace (8 * zlen recs + 8) with (8 * (Z.of_nat (length recs + 1))) by lia.
    rewrite Er. split_and!.
    + do 3 f_equal. lia.
    + rewrite Hp2, !length_app. lia.
    + exact Ht2.
    + exact Hw2.
Qed.

(** *** The fill buffer *)

Lemma repeat_val_app (n k : nat) v : repeat_val n v ++ repeat_val k v = repeat_val (n + k) v.
Proof. unfold repeat_val. by rewrite <- join_app, <- replicate_add. Qed.

Lemma take_repeat_val (n k : nat) v : (n ≤ k)%nat → take (4 * n) (repeat_val k v) = repeat_val n v.
Proof.
  intros Hn. replace k with (n + (k - n))%nat by lia. rewrite <- repeat_val_app.
  by rewrite take_app_length' by (by rewrite repeat_val_length).
Qed.

(** The first [fb_curr_size] bytes are filled with [fb_curr_val]. *)
Definition fill_ok (f : FillBuffer) : Prop :=
  ∃ k : nat, fb_curr_size f = 4 * Z.of_nat k ∧ fb_curr_size f ≤ zlen (fb_buffer f) ∧
    match fb_curr_val f with
    | Some v => take (4 * k) (fb_buffer f) = repeat_val k v
    | None => True
    end.

Lemma fill_buffer_get_run f v (sz : Z) :
  fill_ok f → 0 ≤ sz < 2 ^ 64 → sz = 4 * (sz / 4) → zlen (fb_buffer f) < 2 ^ 64 →
  ∃ (k : nat) f', fill_buffer_get f v sz = Ok (4 * Z.of_nat k, f') ∧ fill_ok f' ∧
    4 * Z.of_nat k = Z.min (4 * (zlen (fb_buffer f) / 4)) sz ∧
    length (fb_buffer f') = length (fb_buffer f) ∧
    take (4 * k) (fb_buffer f') = repeat_val k v.
Proof.
  intros (k0 & Hk0 & Hle & Hval) Hsz H4 Hlen.
  set (len := zlen (fb_buffer f)) in *. assert (El : len = zlen (fb_buffer f)) by done.
  pose proof (Z.div_mod len 4 ltac:(lia)). pose proof (Z.mod_pos_bound len 4 ltac:(lia)).
  set (size := Z.min (4 * (len / 4)) sz).
  assert (Hs : size = 4 * Z.of_nat (Z.to_nat (size / 4))).
  { assert (size mod 4 = 0) by (unfold size; destruct (Z.min_spec (4 * (len / 4)) sz) as [[_ ->]|[_ ->]];
      [rewrite Z.mul_comm; apply Z.mod_mul; lia|rewrite H4, Z.mul_comm; apply Z.mod_mul; lia]).
    pose proof (Z.div_mod size 4 ltac:(lia)). lia. }
  set (k := Z.to_nat (size / 4)) in *.
  unfold fill_buffer_get. fold len. rewrite arith_ok by lia. rewrite ok_bind.
  unfold to_u64. rewrite checked_Some by lia. cbn [ok_or]. rewrite ok_bind.
  replace (len - len mod 4) with (4 * (len / 4)) by lia. fold size.
  rewrite checked_Some by lia. cbn [unwrap]. rewrite ok_bind.
  set (j := if bool_decide (Some v = fb_curr_val f) then k0 else O).
  assert (Hj : (if bool_decide (Some v = fb_curr_val f) then fb_curr_size f else 0) = 4 * Z.of_nat j)
    by (unfold j; case_bool_decide; lia).
  assert (Hjle : 4 * Z.of_nat j ≤ len) by (unfold j; case_bool_decide; lia).
  rewrite Hj. set (g := (Nat.max j k - j)%nat).
  replace (Z.max (4 * Z.of_nat j) size - 4 * Z.of_nat j) with (4 * Z.of_nat g) by (unfold g; lia).
  rewrite arith_ok by lia. rewrite ok_bind.
  unfold index_from. fold len. rewrite (index_range_ok (fb_buffer f)) by lia. rewrite ok_bind.
  rewrite (index_range_ok (slice _ _ _)) by (rewrite ?length_slice; unfold g; lia). rewrite ok_bind.
  rewrite zlen_slice by (rewrite ?length_slice; unfold g; lia).
  rewrite Z.sub_0_r, (Z.mul_comm 4 (Z.of_nat g)), Z.mod_mul, Z.div_mul by lia.
  cbn [assert_that Z.eqb]. rewrite ok_bind, Nat2Z.id.
  rewrite arith_ok by (unfold g; lia). rewrite ok_bind.
  assert (Hbuf : length (splice (fb_buffer f) (4 * Z.of_nat j) (repeat_val g v)) = length (fb_buffer f)).
  { apply length_splice; rewrite ?repeat_val_length; unfold g; lia. }
  rewrite index_range_ok by (rewrite ?Hbuf; lia). rewrite ok_bind.
  assert (Hfill : take (4 * (j + g)) (splice (fb_buffer f) (4 * Z.of_nat j) (repeat_val g v))
    = repeat_val (j + g) v).
  { rewrite <- repeat_val_app. assert (Hpre : take (4 * j) (fb_buffer f) = repeat_val j v).
    { unfold j in *. case_bool_decide as E; [|done]. by rewrite <- E in Hval. }
    rewrite <- Hpre. pose proof (repeat_val_length g v). list_ext. }
  exists k. eexists. split; [rewrite Hs at 1; reflexivity|]. split_and!; try done.
  - exists (j + g)%nat. cbn [fb_curr_size fb_buffer fb_curr_val]. split_and!; [lia| |done].
    rewrite Hbuf. unfold g. lia.
  - cbn [fb_buffer]. rewrite <- (take_repeat_val k (j + g)) by (unfold g; lia).
    rewrite <- Hfill, take_take. f_equal. unfold g. lia.
Qed.

Lemma sparse_fill_loop_run fuel (k n : nat) w m (b : bytes) addr off v :
  sw_holds lim w m → 0 ≤ addr → addr + zlen b ≤ lim → (0 < k)%nat → 4 * Z.of_nat k ≤ zlen b → take (4 * k) b = repeat_val k v → (n ≤ fuel)%nat →
  0 ≤ off → off + 4 * Z.of_nat n ≤ zlen m → zlen m < 2 ^ 64 →
  ∃ w', sparse_fill_loop fuel addr (4 * Z.of_nat k) (off + 4 * Z.of_nat n) off (w, b) =
          (Ok (Some (off + 4 * Z.of_nat n)), (w', b)) ∧
        sw_holds lim w' (splice m off (repeat_val n v)).
Proof using SparseWriterSpec0.
  intros Hm0 Haddr Hlim Hk Hb Ht. revert n w m off Hm0.
  induction fuel as [|fuel IH]; intros n w m0 off Hm0 Hn Ho Hl Hw.
  { exists w. replace n with O by lia. cbn [sparse_fill_loop]. rewrite Z.add_0_r, Z.ltb_irrefl.
    change (repeat_val 0 v) with (@nil Z). by rewrite splice_nil. }
  destruct (decide (n = O)) as [->|Hn0].
  { exists w. cbn [sparse_fill_loop]. rewrite Z.add_0_r, Z.ltb_irrefl.
    change (repeat_val 0 v) with (@nil Z). by rewrite splice_nil. }
  set (m := Nat.min k n).
  destruct (write_part_run w m0 b addr off 0 (4 * Z.of_nat m)) as (w1 & Hw1 & Hi1); [done|lia..|].
  assert (Hd : slice b 0 (4 * Z.of_nat m) = repeat_val m v).
  { rewrite <- (take_repeat_val m k) by lia. rewrite <- Ht, take_take.
    unfold slice. rewrite drop_0. f_equal. lia. }
  rewrite Hd in Hi1. set (m1 := splice m0 off (repeat_val m v)) in *.
  assert (Hlen1 : length m1 = length m0).
  { apply length_splice; rewrite ?repeat_val_length; lia. }
  destruct (IH (n - m)%nat w1 m1 (off + 4 * Z.of_nat m)) as (w2 & Hr & Hi2); [done|lia..|].
  exists w2. split.
  - cbn [sparse_fill_loop]. rewrite (proj2 (Z.ltb_lt _ _)) by lia. cbn [negb].
    rewrite bind_run, lift_run, arith_ok by lia.
    replace (Z.min (4 * Z.of_nat k) (off + 4 * Z.of_nat n - off)) with (4 * Z.of_nat m) by lia.
    rewrite bind_run, lift_run. unfold to_usize. rewrite checked_Some by lia. cbn [ok_or unwrap_res].
    rewrite bind_run, Hw1, bind_run, lift_run, arith_ok by lia.
    replace (off + 4 * Z.of_nat n) with (off + 4 * Z.of_nat m + 4 * Z.of_nat (n - m)) by lia.
    exact Hr.
  - revert Hi2. unfold m1.
    replace (4 * Z.of_nat m) with (zlen (repeat_val m v)) by (rewrite repeat_val_length; lia).
    rewrite splice_splice_adj by (rewrite ?repeat_val_length; lia).
    rewrite repeat_val_app. by replace (m + (n - m))%nat with n by lia.
Qed.

Lemma second_pass_run fuel cs w m f addr off :
  sw_holds lim w m → 0 ≤ addr → addr + zlen (fb_buffer f) ≤ lim → Forall (wf_chunk blk) cs → fill_ok f → 4 ≤ zlen (fb_buffer f) < 2 ^ 64 → 0 ≤ off →
  total_len blk cs ≤ Z.of_nat fuel →
  off + total_len blk cs ≤ zlen m → zlen m < 2 ^ 64 →
  ∃ w' f', second_pass fuel addr blk (info_of <$> cs) off (w, f) =
             (Ok (Some (off + total_len blk cs)), (w', f')) ∧
           length (fb_buffer f') = length (fb_buffer f) ∧
           sw_holds lim w' (expand_if (negb ∘ is_raw) blk off cs m).
Proof using Hblk Hblk4 SparseWriterSpec0.
  intros Hm0 Haddr Hlim Hcs. revert w m f off Hm0 Hlim. induction Hcs as [|c cs Hc Hcs IH];
    intros w m0 f off Hm0 Hlim Hf Hb Ho Hfuel Hl Hw; cbn [total_len expand_if] in *.
  { exists w, f. by rewrite Z.add_0_r. }
  pose proof (chunk_len_nonneg blk Hblk c Hc). pose proof (total_len_nonneg blk Hblk cs Hcs).
  pose proof (chunk_len_4 blk Hblk4 c Hc) as H4. pose proof Hc as ((Hb1 & Hb2) & _).
  assert (Hskip : info_of c = mkFillInfo 0 (blocks c) → expand1 blk off c m0 = m0 ∨ is_raw c = true →
    ∃ w' f', second_pass fuel addr blk (info_of <$> c :: cs) off (w, f) =
      (Ok (Some (off + (chunk_len blk c + total_len blk cs))), (w', f')) ∧
      length (fb_buffer f') = length (fb_buffer f) ∧
      sw_holds lim w' (expand_if (negb ∘ is_raw) blk (off + chunk_len blk c) cs
        (if (negb ∘ is_raw) c then expand1 blk off c m0 else m0))).
  { intros Hinf Hsame. destruct (IH w m0 f (off + chunk_len blk c)) as (w' & f' & Hr & Hf' & Hi); [done|lia|done|lia..|].
    exists w', f'. split_and!; [|done|].
    - cbn [fmap list_fmap second_pass]. rewrite Hinf. unfold get_blocks_and_value. cbn [fill_blocks Z.eqb fill_value_or_skip_blocks].
      rewrite bind_run, lift_run, u64_mul_ok by (unfold chunk_len in *; lia). fold (chunk_len blk c).
      rewrite bind_run, lift_run, u64_add_ok by lia. rewrite Z.add_assoc. exact Hr.
    - unfold compose. destruct Hsame as [->| ->]; [by destruct (is_raw c)|done]. }
  destruct c as [n d|n v|crc n p]; [apply Hskip; auto| |apply Hskip; auto].
  clear Hskip. destruct Hc as (_ & _ & Hn & _). unfold chunk_len in *. cbn [blocks] in *.
  cbn [fmap list_fmap second_pass info_of]. unfold get_blocks_and_value. cbn [fill_blocks fill_value_or_skip_blocks].
  rewrite (proj2 (Z.eqb_neq n 0)) by lia.
  rewrite bind_run, lift_run, u64_mul_ok by lia.
  rewrite bind_run. unfold gets, id.
  destruct (fill_buffer_get_run f v (n * blk)) as (k & f1 & Hget & Hf1 & Hk & Hlf & Htk); [done|lia..|].
  rewrite bind_run, lift_run, Hget. rewrite bind_run. unfold modify. cbn [fst].
  assert (Hk0 : (0 < k)%nat).
  { pose proof (Z.div_mod (zlen (fb_buffer f)) 4 ltac:(lia)). pose proof (Z.mod_pos_bound (zlen (fb_buffer f)) 4 ltac:(lia)).
    assert (0 < n * blk) by nia. lia. }
  rewrite bind_run, lift_run. unfold to_u64. rewrite checked_Some by lia. cbn [ok_or].
  rewrite bind_run, lift_run, u64_add_ok by lia.
  rewrite bind_run. unfold on_buffer, zoom. cbn [fst snd].
  set (m := Z.to_nat (n * blk / 4)).
  assert (Hm : n * blk = 4 * Z.of_nat m) by (unfold m; rewrite Z2Nat.id by (apply Z.div_pos; lia); exact H4).
  pose proof (Z.mul_div_le (zlen (fb_buffer f)) 4 ltac:(lia)) as Hdiv. rewrite <- Hlf in Hdiv, Hk.
  destruct (sparse_fill_loop_run fuel k m w m0 (fb_buffer f1) addr off v) as (w1 & Hr1 & Hi1);
    [done|lia|lia|lia|lia|done|lia|lia|lia|lia|].
  rewrite Hm, Hr1.
  set (m1 := splice m0 off (repeat_val m v)) in *.
  assert (Hlw : length m1 = length m0)
    by (apply length_splice; rewrite ?repeat_val_length; lia).
  destruct (IH w1 m1 (mkFillBuffer (fb_curr_val f1) (fb_curr_size f1) (fb_buffer f1)) (off + 4 * Z.of_nat m))
    as (w2 & f2 & Hr2 & Hl2 & Hi2); [done|cbn [fb_buffer]; lia|by destruct f1|cbn [fb_buffer]; lia|lia..|].
  exists w2, f2. cbn [fst snd]. rewrite Hr2. cbn [fb_buffer] in Hl2. split_and!.
  - rewrite Z.add_assoc. done.
  - lia.
  - exact Hi2.
Qed.

Lemma decode_infos l :
  Forall (λ f, u32_ok (fill_blocks f) ∧ u32_ok (fill_value_or_skip_blocks f)) l →
  decode_fill_infos (length l) (encode_infos l) = l.
Proof.
  induction 1 as [|[a b] l [Ha Hb] _ IH]; [done|].
  change (encode_infos (?f :: l)) with (encode_fill_info f ++ encode_infos l).
  cbn [length decode_fill_infos].
  rewrite take_app_length', drop_app_length' by (by rewrite encode_fill_info_length).
  rewrite IH. f_equal. unfold decode_fill_info, field, encode_fill_info. cbn [fill_blocks fill_value_or_skip_blocks] in *.
  change (slice _ 0 4) with (le_bytes 4 a). change (slice _ 4 4) with (le_bytes 4 b).
  unfold u32_ok in *. by rewrite !le_val_bytes by (simpl; lia).
Qed.
End Passes.

(** ** Properties *)

(** The two passes on a well-formed image. *)
Lemma write_sparse_run {W : Type} `{!SparseRawWriter W, !SparseWriterSpec W}
    lim blk total_blks checksum (cs : list chunk) (tail : bytes) (w : W) (m : bytes) addr fuel :
  sw_holds lim w m → 0 ≤ addr → addr + zlen (encode_image blk total_blks checksum cs tail) ≤ lim →
  0 < blk < 2 ^ 32 → blk mod 4 = 0 → u32_ok total_blks → u32_ok checksum → u32_ok (zlen cs) →
  Forall (wf_chunk blk) cs → total_len blk cs ≤ Z.of_nat fuel →
  total_len blk cs ≤ zlen m → zlen m < 2 ^ 64 →
  zlen (encode_image blk total_blks checksum cs tail) < 2 ^ 63 →
  ∃ w' img', write_sparse_image fuel addr (w, encode_image blk total_blks checksum cs tail) =
               (Ok (Some (total_len blk cs)), (w', img')) ∧
             sw_holds lim w' (expand blk 0 cs m).
Proof.
  intros Hm Haddr Hlim Hblk Hblk4 Ht Hc Hn Hcs Hf Hl Hw Himg.
  set (hdr := encode_header blk total_blks (zlen cs) checksum).
  assert (Hh : zlen hdr = 28) by done.
  unfold write_sparse_image. rewrite bind_run. unfold gets at 1. cbn [snd].
  rewrite bind_run, lift_run. unfold encode_image at 1.
  rewrite header_decode by (unfold u32_ok in *; lia || done).
  cbn [sh_total_chunks sh_blk_sz]. rewrite Nat2Z.id, bind_run.
  unfold encode_image in *. fold hdr in Himg, Hlim |- *.
  destruct (first_pass_run blk lim Hblk Hblk4 cs hdr tail w m addr 0 []) as (w1 & pre1 & Hr1 & Hp1 & Ht1 & Hi1);
    [done|done|done|done|simpl; lia|lia|done|lia|lia|done|].
  rewrite Hh in Hr1. change (8 * zlen (@nil FillInfo)) with 0 in Hr1. unfold SPARSE_HEADER_SIZE.
  rewrite Hr1. simpl app in Hr1, Ht1 |- *. set (infos := info_of <$> cs) in *.
  assert (Hin : zlen infos = zlen cs) by (unfold infos; by rewrite length_fmap).
  assert (Henc : 12 * zlen cs ≤ zlen (encode_chunks cs)).
  { clear. induction cs as [|c cs IH]; [done|].
    change (encode_chunks (c :: cs)) with (encode_chunk c ++ encode_chunks cs).
    rewrite length_app. pose proof (encode_chunk_length c). simpl length. lia. }
  rewrite length_app in Hp1. rewrite !length_app in Himg.
  rewrite bind_run. unfold gets at 1. cbn [snd].
  rewrite bind_run, lift_run, index_range_ok by (rewrite ?length_app; lia). rewrite Z.sub_0_r.
  rewrite bind_run. unfold with_fill_buffer, zoom. cbn [fst snd].
  replace (8 * zlen infos / FILL_INFO_SIZE) with (zlen infos)
    by (unfold FILL_INFO_SIZE; rewrite Z.mul_comm; by rewrite Z.div_mul by lia).
  rewrite Nat2Z.id.
  assert (Hsl : slice (pre1 ++ tail) 0 (8 * zlen infos) = encode_infos infos).
  { rewrite <- Ht1. unfold slice. rewrite drop_0, take_app_le by lia. f_equal. lia. }
  rewrite Hsl, decode_infos.
  2:{ unfold infos. apply Forall_fmap. eapply Forall_impl; [exact Hcs|].
      intros c (Hb & _ & Hx). destruct c; simpl in *; split; try done; try apply Hx; by vm_compute. }
  set (fb := mkFillBuffer None 0 (drop (Z.to_nat (8 * zlen infos)) (pre1 ++ tail))).
  set (m1 := expand_if is_raw blk 0 cs m) in *.
  assert (Hlen1 : length m1 = length m).
  { apply (expand_if_length blk Hblk Hblk4); [done|lia|lia]. }
  destruct (second_pass_run blk lim Hblk Hblk4 fuel cs w1 m1 fb (addr + 8 * zlen infos) 0)
    as (w2 & f2 & Hr2 & _ & Hi2).
  - done.
  - lia.
  - cbn [fb_buffer fb]. rewrite length_drop, length_app. rewrite !length_app in Hlim. lia.
  - done.
  - exists O. cbn [fb_curr_size fb_buffer fb_curr_val fb]. split_and!; [lia|lia|done].
  - cbn [fb_buffer fb]. rewrite length_drop, length_app. lia.
  - lia.
  - lia.
  - lia.
  - lia.
  - fold infos in Hr2. rewrite Hr2, mret_run. cbn [fst snd]. exists w2. eexists. split; [done|].
    unfold m1 in Hi2. by rewrite (expand_two_passes blk Hblk Hblk4) in Hi2 by (done || lia).
Qed.

(** C4. Writing a well-formed sparse image writes exactly what its chunks stand
    for, in order and nothing else, and returns their total size: the in-place
    two-pass writer refines the definition of the format. One unit of fuel per
    byte is enough. *)
Theorem sparse_write_exact {W : Type} `{!SparseRawWriter W, !SparseWriterSpec W}
    lim blk total_blks checksum (cs : list chunk) (tail : bytes) (w : W) (m : bytes) addr fuel :
  sw_holds lim w m → 0 ≤ addr → addr + zlen (encode_image blk total_blks checksum cs tail) ≤ lim →
  0 < blk < 2 ^ 32 → blk mod 4 = 0 → u32_ok total_blks → u32_ok checksum → u32_ok (zlen cs) →
  Forall (wf_chunk blk) cs → total_len blk cs ≤ Z.of_nat fuel →
  total_len blk cs ≤ zlen m → zlen m < 2 ^ 64 →
  zlen (encode_image blk total_blks checksum cs tail) < 2 ^ 63 →
  ∃ w' img', write_sparse_image fuel addr (w, encode_image blk total_blks checksum cs tail) =
               (Ok (Some (total_len blk cs)), (w', img')) ∧
             sw_holds lim w' (expand blk 0 cs m).
Proof. apply write_sparse_run. Qed.

(** A storage in memory. *)
#[export] Instance memory_writer : SparseRawWriter bytes := λ addr off s,
  let '(m, data) := s in
  if off + zlen data <=? zlen m then (Ok tt, (splice m off data, data)) else (Err OutOfRange, s).
#[export] Instance memory_writer_spec : SparseWriterSpec bytes.
Proof.
  refine {| sw_holds := λ _ w m, w = m |}. intros lim w m addr off data -> _ _ Ho Hl.
  unfold sw_write, memory_writer. rewrite (proj2 (Z.leb_le _ _)) by lia. by eexists.
Defined.

Definition ex_chunks : list chunk :=
  [Raw 1 [1; 2; 3; 4; 5; 6; 7; 8]; Fill 2 0x01020304; Skip false 1 []; Fill 1 0x01020304;
   Skip true 0 [0; 0; 0; 0]; Fill 1 7].

Definition ex_storage : bytes := replicate 50 255.

Lemma sparse_write_exact_witness :
  ∃ w' img', write_sparse_image 48 4096 (ex_storage, encode_image 8 6 0 ex_chunks [9]) =
               (Ok (Some (total_len 8 ex_chunks)), (w', img')) ∧
             sw_holds (2 ^ 64) w' (expand 8 0 ex_chunks ex_storage).
Proof.
  apply (sparse_write_exact (W:=bytes) (2 ^ 64) 8 6 0 ex_chunks [9] ex_storage ex_storage 4096 48).
  - reflexivity.
  - discriminate.
  - vm_compute. discriminate.
  - split; reflexivity.
  - reflexivity.
  - split; [discriminate|reflexivity].
  - split; [discriminate|reflexivity].
  - split; [discriminate|reflexivity].
  - repeat constructor; try (vm_compute; reflexivity || discriminate).
  - vm_compute. discriminate.
  - vm_compute. discriminate.
  - vm_compute. reflexivity.
  - vm_compute. reflexivity.
Defined.

(** ** Malformed images *)

(** The first 28 bytes of an image and a chunk header, with any field. *)
Definition chunk_bytes (ty n total_sz : Z) : bytes :=
  le_bytes 2 ty ++ le_bytes 2 0 ++ le_bytes 4 n ++ le_bytes 4 total_sz.
(** A chunk that claims to be longer than the image. *)
Definition truncated_image : bytes :=
  encode_header 4096 2 2 0 ++ chunk_bytes CHUNK_TYPE_DONT_CARE 1 4096 ++
  chunk_bytes CHUNK_TYPE_DONT_CARE 1 12.
(** A fill chunk with blocks of two bytes. *)
Definition odd_image : bytes :=
  encode_header 2 1 1 0 ++ chunk_bytes CHUNK_TYPE_FILL 1 16 ++ le_bytes 4 0.
(** Six times the same fill chunk: it does not advance, and the records of its
    readings use up the buffer. *)
Definition zeros4 : bytes := [0; 0; 0; 0].
Definition looping_image : bytes :=
  encode_header 4 6 6 0 ++ chunk_bytes CHUNK_TYPE_FILL 1 0 ++ le_bytes 4 CHUNK_TYPE_FILL ++ zeros4.

Lemma empty_buffer_diverges fuel addr (m b : bytes) end_ off :
  0 ≤ off < end_ → end_ < 2 ^ 64 → end_ ≤ zlen m →
  sparse_fill_loop fuel addr 0 end_ off (m, b) = (Ok None, (m, b)).
Proof.
  intros Ho He Hm. induction fuel as [|fuel IH]; cbn [sparse_fill_loop];
    rewrite (proj2 (Z.ltb_lt _ _)) by lia; cbn [negb]; [done|].
  rewrite bind_run, lift_run, arith_ok by lia. rewrite Z.min_l by lia.
  rewrite bind_run, lift_run. unfold to_usize. rewrite checked_Some by lia. cbn [ok_or unwrap_res].
  rewrite bind_run. unfold write_part. cbn [fst snd]. rewrite get_range_Some by lia.
  unfold sw_write, memory_writer. rewrite (slice_empty b) by lia.
  rewrite (proj2 (Z.leb_le _ _)) by (simpl; lia). rewrite !splice_nil.
  rewrite bind_run, lift_run, arith_ok by lia. rewrite Z.add_0_r. exact IH.
Qed.

(** The writer does not survive malformed images: a chunk that claims to be
    longer than the image, or a fill chunk with a block size that is not a
    multiple of four, makes it panic whatever the storage; and an image whose
    chunk does not advance makes it loop forever, because no room is left for
    the fill buffer. *)
Theorem sparse_malformed_images {W : Type} `{!SparseRawWriter W} (w : W) (m : bytes) addr fuel :
  4 ≤ zlen m →
  (write_sparse_image fuel addr (w, truncated_image)).1 = Panic ∧
  (write_sparse_image fuel addr (w, odd_image)).1 = Panic ∧
  (write_sparse_image fuel addr (m, looping_image)).1 = Ok None.
Proof.
  intros Hm. split_and!.
  - vm_compute. reflexivity.
  - vm_compute. reflexivity.
  - unfold write_sparse_image. rewrite bind_run. unfold gets at 1. cbn [snd].
    rewrite bind_run, lift_run.
    change (is_sparse_image looping_image) with (Ok (mkSparseHeader HEADER_MAGIC 1 0 28 12 4 6 6 0) : result _).
    cbn [sh_total_chunks sh_blk_sz]. rewrite bind_run.
    change (first_pass (Z.to_nat 6) addr 4 SPARSE_HEADER_SIZE 0 0 (m, looping_image)) with
      (Ok (24, 48) : result (Z * Z), (m, mjoin (replicate 6 (encode_fill_info (mkFillInfo 1 CHUNK_TYPE_FILL))))).
    cbv beta iota. rewrite bind_run. unfold gets at 1. cbn [snd].
    rewrite bind_run, lift_run. change (index_range _ 0 48) with
      (Ok (mjoin (replicate 6 (encode_fill_info (mkFillInfo 1 CHUNK_TYPE_FILL)))) : result bytes).
    cbv beta iota. rewrite bind_run. unfold with_fill_buffer, zoom. cbn [fst snd].
    change (decode_fill_infos _ _) with (replicate 6 (mkFillInfo 1 CHUNK_TYPE_FILL)).
    change (drop (Z.to_nat 48) _) with (@nil Z). cbn [replicate second_pass].
    change (get_blocks_and_value _) with (1, Some CHUNK_TYPE_FILL). cbv beta iota.
    rewrite bind_run, lift_run. change (u64_mul 1 4) with (Ok 4 : result Z). cbv beta iota.
    rewrite bind_run. unfold gets, id. rewrite bind_run, lift_run.
    change (fill_buffer_get _ _ 4) with (Ok (0, mkFillBuffer (Some CHUNK_TYPE_FILL) 0 []) : result (Z * FillBuffer)).
    cbv beta iota. rewrite bind_run. unfold modify. cbn [fst].
    rewrite bind_run, lift_run. change (to_u64 0) with (Ok 0 : result Z). cbv beta iota.
    rewrite bind_run, lift_run. change (u64_add 0 4) with (Ok 4 : result Z). cbv beta iota.
    rewrite bind_run. unfold on_buffer, zoom. cbn [fst snd fb_buffer].
    rewrite empty_buffer_diverges by lia. done.
Qed.

Lemma sparse_malformed_images_witness :
  (write_sparse_image 9 4096 (ex_storage, truncated_image)).1 = Panic ∧
  (write_sparse_image 9 4096 (ex_storage, odd_image)).1 = Panic ∧
  (write_sparse_image 9 4096 (ex_storage, looping_image)).1 = Ok None.
Proof. apply (sparse_malformed_images ex_storage ex_storage 4096 9). vm_compute. discriminate. Defined.
