(* ===== verification/BootParams.v ===== *)
(** * libbootparams: kernel command line and bootconfig

    Models src/gbl/libbootparams/src/entry.rs, commandline.rs and bootconfig.rs.
    The parser works on characters: its state is the part of the string it has
    not read yet, [data\[pos..\]]. The builders work on the bytes of their
    buffer. A reader callback gets the current contents and the free part of the
    buffer, and returns its result and what it leaves in the free part. *)

From S2P Require Import Prelude LibError Text.

(** ** Command line entries *)

(** gbl/libbootparams/src/entry.rs:20-27, [Entry]. *)
Record Entry := mkEntry { key : list Z; value : option (list Z) }.
#[export] Instance Entry_eq_dec : EqDecision Entry.
Proof. solve_decision. Defined.

(** gbl/libbootparams/src/entry.rs:31-36, [Display::fmt for Entry]. *)
Definition show_entry (e : Entry) : list Z :=
  match value e with
  | Some v => key e ++ str "=" ++ v
  | None => key e
  end.

(** gbl/libbootparams/src/entry.rs:39-43, [CommandlineParser]: what [remains] returns. *)
Record CommandlineParser := mkParser { remains : list Z }.

(** gbl/libbootparams/src/entry.rs:46-49, [CommandlineParser::new]. *)
Definition parser_new (data : list Z) : CommandlineParser := mkParser data.

(** gbl/libbootparams/src/entry.rs:55-57, [CommandlineParser::peek]. *)
Definition peek (p : CommandlineParser) : option Z := head (remains p).

(** gbl/libbootparams/src/entry.rs:59-61, [CommandlineParser::skip]: over [n] characters. *)
Definition skip (n : nat) (p : CommandlineParser) : CommandlineParser := mkParser (drop n (remains p)).
Definition skip_all (p : CommandlineParser) : CommandlineParser := skip (length (remains p)) p.

Fixpoint span (f : Z → bool) (l : list Z) : list Z * list Z :=
  match l with
  | [] => ([], [])
  | c :: l' => if f c then let '(a, b) := span f l' in (c :: a, b) else ([], l)
  end.

(** gbl/libbootparams/src/entry.rs:63-76, [CommandlineParser::take_while]. *)
Definition take_while (predicate : Z → bool) (p : CommandlineParser) : list Z * CommandlineParser :=
  let '(a, b) := span predicate (remains p) in (a, mkParser b).

(** gbl/libbootparams/src/entry.rs:78-80, [CommandlineParser::skip_whitespaces]. *)
Definition skip_whitespaces (p : CommandlineParser) : CommandlineParser :=
  snd (take_while is_whitespace p).

(** gbl/libbootparams/src/entry.rs:82-91, [CommandlineParser::parse_key]. *)
Definition parse_key (p : CommandlineParser) : option (list Z) * CommandlineParser :=
  let p := skip_whitespaces p in
  let '(key, p) := take_while (λ c, negb (is_whitespace c) && negb (c =? 61)) p in
  (if bool_decide (key = []) then None else Some key, p).

(** gbl/libbootparams/src/entry.rs:93-132, [CommandlineParser::parse_value]. *)
Definition parse_value (p : CommandlineParser) : result (option (list Z)) * CommandlineParser :=
  match peek p with
  | Some c =>
      if c =? 61 then
        let p := skip 1 p in
        if bool_decide (peek p = Some 34) then
          let p := skip 1 p in
          let '(value, p) := take_while (λ c, negb (c =? 34)) p in
          if bool_decide (peek p = Some 34) then (Ok (Some value), skip 1 p)
          else (Err InvalidInput, skip_all p)
        else
          let '(value, p) := take_while (λ c, negb (is_whitespace c)) p in (Ok (Some value), p)
      else if is_whitespace c then (Ok None, p)
      else (Err InvalidInput, skip_all p)
  | None => (Ok None, p)
  end.

(** gbl/libbootparams/src/entry.rs:140-148, [Iterator::next for CommandlineParser]. *)
Definition next (p : CommandlineParser) : option (result Entry) * CommandlineParser :=
  match parse_key p with
  | (Some key, p) =>
      match parse_value p with
      | (Ok value, p) => (Some (Ok (mkEntry key value)), p)
      | (Err e, p) => (Some (Err e), p)
      | (Panic, p) => (Some Panic, p)
      end
  | (None, p) => (None, p)
  end.

(** Everything the iterator yields. [None] at the end says that the fuel did not
    suffice. *)
Fixpoint parse_all (fuel : nat) (p : CommandlineParser) : option (list (result Entry)) :=
  match fuel with
  | O => None
  | S fuel =>
      match next p with
      | (None, _) => Some []
      | (Some r, p) => cons r <$> parse_all fuel p
      end
  end.

(** [str::trim]. *)
Definition trim_start (s : list Z) : list Z := snd (span is_whitespace s).
Definition trim (s : list Z) : list Z := reverse (trim_start (reverse (trim_start s))).

(** ** The command line builder *)

(** gbl/libbootparams/src/commandline.rs:23-27, [CommandlineBuilder]. *)
Record CommandlineBuilder := mkCmd { cl_size : Z; cl_buffer : bytes }.

(** gbl/libbootparams/src/commandline.rs:29-30, [COMMANDLINE_TRAILING_SIZE]. *)
Definition COMMANDLINE_TRAILING_SIZE : Z := 1.

(** [buffer\[i\] = v]. *)
Definition set_byte {E} (l : bytes) (i v : Z) : outcome E bytes :=
  if (0 <=? i) && (i <? zlen l) then Ok (<[Z.to_nat i := v]> l) else Panic.

(** gbl/libbootparams/src/commandline.rs:147-150, [CommandlineBuilder::update_null_terminator]. *)
Definition update_null_terminator (b : CommandlineBuilder) : result CommandlineBuilder :=
  buffer ← set_byte (cl_buffer b) (cl_size b) 0;
  Ok (mkCmd (cl_size b) buffer).

(** gbl/libbootparams/src/commandline.rs:33-41, [CommandlineBuilder::new]. *)
Definition cl_new (buffer : bytes) : result CommandlineBuilder :=
  if zlen buffer <? COMMANDLINE_TRAILING_SIZE then
    Err (BufferTooSmall (Some COMMANDLINE_TRAILING_SIZE))
  else update_null_terminator (mkCmd 0 buffer).

(** gbl/libbootparams/src/commandline.rs:43-47, [CommandlineBuilder::new_from_prefix]. *)
Definition cl_new_from_prefix (buffer : bytes) : result CommandlineBuilder :=
  prefix ← ok_or (cstr_until_nul buffer) InvalidInput;
  Ok (mkCmd (zlen prefix) buffer).

(** gbl/libbootparams/src/commandline.rs:49-52, [CommandlineBuilder::remaining_capacity]. *)
Definition cl_remaining_capacity (b : CommandlineBuilder) : result Z :=
  n ← arith 64 (zlen (cl_buffer b) - cl_size b);
  arith 64 (n - COMMANDLINE_TRAILING_SIZE).

(** [CStr::from_bytes_with_nul]: the only nul is the last byte. *)
Definition cstr_with_nul (l : bytes) : option bytes :=
  match position 0 l with
  | Some n => if n =? zlen l - 1 then Some (slice l 0 n) else None
  | None => None
  end.

(** gbl/libbootparams/src/commandline.rs:54-62, [CommandlineBuilder::as_str]. *)
Definition cl_as_str (b : CommandlineBuilder) : result (list Z) :=
  n ← arith 64 (cl_size b + 1);
  l ← index_range (cl_buffer b) 0 n;
  c ← unwrap (cstr_with_nul l);
  s ← unwrap (decode_utf8 c);
  Ok (trim s).

(** A reader callback. *)
Definition reader : Type := bytes → bytes → result Z * bytes.

(** gbl/libbootparams/src/commandline.rs:64-121, [CommandlineBuilder::add_with]: the result
    and the builder, which keeps what the callback wrote. *)
Definition cl_add_with (read : reader) : ST CommandlineBuilder Error unit :=
  b ← gets id;
  n ← lift (arith 64 (cl_size b + COMMANDLINE_TRAILING_SIZE));
  current_buffer ← lift (index_range (cl_buffer b) 0 n);
  remains_buffer ← lift (index_from (cl_buffer b) n);
  let remains_len := zlen remains_buffer in
  let remains_buffer :=
    if negb (remains_len =? 0) then slice remains_buffer 0 (remains_len - 1) else remains_buffer in
  current_commandline ← lift (unwrap (cstr_with_nul current_buffer));
  let '(r, remains_buffer) := read current_commandline remains_buffer in
  modify (λ b, mkCmd (cl_size b) (splice (cl_buffer b) n remains_buffer));;
  size ← match r with
         | Err (BufferTooSmall (Some requested)) =>
             requested ← lift (arith 64 (requested + 1));
             raise (BufferTooSmall (Some requested))
         | other => lift other
         end;
  if size =? 0 then mret tt else
  written ← lift (index_range remains_buffer 0 size);
  if bool_decide (0 ∈ written) then raise InvalidInput else
  lift (assert_that (size <=? zlen remains_buffer));;
  b ← gets id;
  buffer ← lift (set_byte (cl_buffer b) (cl_size b) 32);
  new_size ← lift (arith 64 (size + 1));
  new_size ← lift (arith 64 (cl_size b + new_size));
  modify (λ _, mkCmd new_size buffer);;
  b ← gets id;
  b ← lift (update_null_terminator b);
  modify (λ _, b).

(** [out\[..s.len()\].clone_from_slice(s)] and the length. *)
Definition copy_in (s : bytes) : reader := λ _ out,
  match get_range out 0 (zlen s) with
  | None => (Panic, out)
  | Some _ => (Ok (zlen s), splice out 0 s)
  end.

(** gbl/libbootparams/src/commandline.rs:123-140, [CommandlineBuilder::add]. *)
Definition cl_add (commandline : bytes) : ST CommandlineBuilder Error unit :=
  if bool_decide (commandline = []) then mret tt else
  required_capacity ← lift (arith 64 (zlen commandline + 1));
  b ← gets id;
  remaining ← lift (cl_remaining_capacity b);
  if remaining <? required_capacity then raise (BufferTooSmall (Some required_capacity))
  else cl_add_with (copy_in commandline).

(** gbl/libbootparams/src/commandline.rs:142-145, [CommandlineBuilder::entries]. *)
Definition cl_entries (b : CommandlineBuilder) : result CommandlineParser :=
  s ← cl_as_str b; Ok (parser_new s).

(** gbl/libbootparams/src/commandline.rs:160-162, [Write::write_str for CommandlineBuilder]:
    the error is [fmt::Error]. *)
Definition cl_write_str (s : bytes) : ST CommandlineBuilder unit unit := λ b,
  let '(r, b) := cl_add s b in (map_err (λ _, tt) r, b).

(** ** The bootconfig builder *)

(** gbl/libbootparams/src/bootconfig.rs:21-25, [BootConfigBuilder]. *)
Record BootConfigBuilder := mkBC { bc_size : Z; bc_buffer : bytes }.

(** gbl/libbootparams/src/bootconfig.rs:27-27, [BOOTCONFIG_MAGIC]. *)
Definition BOOTCONFIG_MAGIC : bytes := str "#BOOTCONFIG" ++ [10].
(** gbl/libbootparams/src/bootconfig.rs:28-35, [BOOTCONFIG_TRAILER_SIZE]. *)
Definition BOOTCONFIG_TRAILER_SIZE : Z := 4 + 4 + zlen BOOTCONFIG_MAGIC.

(** gbl/libbootparams/src/bootconfig.rs:112-119, [BootConfigBuilder::checksum]: [reduce] over
    the bytes. *)
Definition checksum (b : BootConfigBuilder) : result Z :=
  l ← index_range (bc_buffer b) 0 (bc_size b);
  Ok (match l with [] => 0 | v :: l => foldl (λ acc v, wrap 32 (acc + v)) v l end).

(** gbl/libbootparams/src/bootconfig.rs:97-110, [BootConfigBuilder::update_trailer]. *)
Definition update_trailer : ST BootConfigBuilder Error unit :=
  b ← gets id;
  size ← lift (ok_or (checked 32 (bc_size b)) (Other None));
  checksum ← lift (checksum b);
  trailer ← lift (index_from (bc_buffer b) (bc_size b));
  lift (index_range trailer 0 4);; lift (index_range trailer 4 8);;
  tail ← lift (index_from trailer 8);
  lift (index_range tail 0 (zlen BOOTCONFIG_MAGIC));;
  modify (λ b, mkBC (bc_size b)
    (splice (bc_buffer b) (bc_size b)
       (le_bytes 4 size ++ le_bytes 4 checksum ++ BOOTCONFIG_MAGIC))).

(** gbl/libbootparams/src/bootconfig.rs:38-46, [BootConfigBuilder::new]. *)
Definition bc_new (buffer : bytes) : result BootConfigBuilder :=
  if zlen buffer <? BOOTCONFIG_TRAILER_SIZE then
    Err (BufferTooSmall (Some BOOTCONFIG_TRAILER_SIZE))
  else let '(r, b) := update_trailer (mkBC 0 buffer) in r;; Ok b.

(** gbl/libbootparams/src/bootconfig.rs:48-56, [BootConfigBuilder::remaining_capacity]. *)
Definition bc_remaining_capacity (b : BootConfigBuilder) : result Z :=
  n ← unwrap (checked 64 (zlen (bc_buffer b) - bc_size b));
  unwrap (checked 64 (n - BOOTCONFIG_TRAILER_SIZE)).

(** gbl/libbootparams/src/bootconfig.rs:58-62, [BootConfigBuilder::config_bytes]. *)
Definition config_bytes (b : BootConfigBuilder) : result bytes :=
  n ← unwrap (checked 64 (bc_size b + BOOTCONFIG_TRAILER_SIZE));
  index_range (bc_buffer b) 0 n.

(** gbl/libbootparams/src/bootconfig.rs:64-84, [BootConfigBuilder::add_with]. *)
Definition bc_add_with (read : reader) : ST BootConfigBuilder Error unit :=
  b ← gets id;
  remains ← lift (bc_remaining_capacity b);
  current_buffer ← lift (index_range (bc_buffer b) 0 (bc_size b));
  remains_buffer ← lift (index_from (bc_buffer b) (bc_size b));
  free ← lift (index_range remains_buffer 0 remains);
  let '(r, free) := read current_buffer free in
  modify (λ b, mkBC (bc_size b) (splice (bc_buffer b) (bc_size b) free));;
  size ← lift r;
  lift (assert_that (size <=? remains));;
  new_size ← lift (arith 64 (bc_size b + size));
  modify (λ b, mkBC new_size (bc_buffer b));;
  update_trailer.

(** gbl/libbootparams/src/bootconfig.rs:86-95, [BootConfigBuilder::add]. *)
Definition bc_add (config : bytes) : ST BootConfigBuilder Error unit :=
  b ← gets id;
  remaining ← lift (bc_remaining_capacity b);
  if remaining <? zlen config then raise (BufferTooSmall (Some (zlen config)))
  else bc_add_with (copy_in config).

(** gbl/libbootparams/src/bootconfig.rs:133-142, [Write::write_str for BootConfigBuilder]. *)
Definition bc_write_str (s : bytes) : ST BootConfigBuilder unit unit := λ b,
  let '(r, b) := bc_add_with (λ _ out,
    match get_range out 0 (zlen s) with
    | None => (Err (BufferTooSmall (Some (zlen s))), out)
    | Some _ => (Ok (zlen s), splice out 0 s)
    end) b in (map_err (λ _, tt) r, b).

(** [core::ascii::escape_default]. *)
Definition escape_default (c : Z) : bytes :=
  if c =? 9 then str "\t" else if c =? 13 then str "\r" else if c =? 10 then str "\n"
  else if c =? 39 then str "\'" else if c =? 34 then [92; 34] else if c =? 92 then str "\\"
  else if (32 <=? c) && (c <=? 126) then [c]
  else str "\x" ++ (digit_char <$> [c / 16; c mod 16]).

(** gbl/libbootparams/src/bootconfig.rs:123-129, [Display::fmt for BootConfigBuilder]. *)
Definition bc_display (b : BootConfigBuilder) : result bytes :=
  l ← config_bytes b;
  n ← unwrap (checked 64 (zlen l - BOOTCONFIG_TRAILER_SIZE));
  l ← index_range l 0 n;
  Ok (mjoin (escape_default <$> l)).
