(* ===== verification/BootParamsProps.v ===== *)
(** * libbootparams: properties

    A command line that was built from entries is parsed back into them; a
    bootconfig always carries the trailer that belongs to its contents. *)

From S2P Require Import Prelude LibError Text BootParams.

(** ** The parser *)

Definition white (l : list Z) : Prop := Forall (λ c, is_whitespace c = true) l.
Definition solid (l : list Z) : Prop := Forall (λ c, is_whitespace c = false) l.

Lemma span_app (f : Z → bool) a b :
  Forall (λ c, f c = true) a → match b with [] => True | c :: _ => f c = false end →
  span f (a ++ b) = (a, b).
Proof.
  intros Ha Hb. induction Ha as [|c a Hc _ IH]; simpl.
  - destruct b as [|c b]; [done|]. simpl. by rewrite Hb.
  - by rewrite Hc, IH.
Qed.

(** How an entry stands in a command line: its value may be quoted. *)
Definition render (t : bool * Entry) : list Z :=
  match t with
  | (true, mkEntry k (Some v)) => k ++ 61 :: 34 :: v ++ [34]
  | (_, e) => show_entry e
  end.
Definition good (t : bool * Entry) : Prop :=
  key t.2 ≠ [] ∧ Forall (λ c, negb (is_whitespace c) && negb (c =? 61) = true) (key t.2) ∧
  match value t.2 with
  | None => True
  | Some v => if t.1 then 34 ∉ v else solid v ∧ head v ≠ Some 34
  end.
(** The entries as the builder appends them. *)
Definition line (ts : list (bool * Entry)) : list Z := mjoin ((λ t, 32 :: render t) <$> ts).

(** What may follow an entry. *)
Definition stops (rest : list Z) : Prop :=
  match rest with [] => True | c :: _ => is_whitespace c = true end.

Lemma good_head t : good t → ∃ c l, render t = c :: l ∧ is_whitespace c = false.
Proof.
  intros (Hk & Hf & _). destruct t as [q [k v]]. cbn [fst snd key] in *.
  destruct k as [|c k]; [done|]. inversion_clear Hf as [|? ? Hc _]. bools.
  exists c. destruct q, v; simpl; unfold show_entry; simpl; by eexists.
Qed.

Lemma solid_last l : l ≠ [] → solid l → ∃ l' c, l = l' ++ [c] ∧ is_whitespace c = false.
Proof.
  intros Hl Hs. destruct l as [|c l' _] using rev_ind; [done|].
  apply Forall_app in Hs as [_ Hs]. inversion_clear Hs. by eexists _, _.
Qed.

Lemma good_last t : good t → ∃ l c, render t = l ++ [c] ∧ is_whitespace c = false.
Proof.
  intros (Hk & Hf & Hv). destruct t as [q [k v]]. cbn [fst snd key value] in *.
  assert (Hsk : solid k) by (eapply Forall_impl; [exact Hf|]; intros c Hc; cbn beta in *; by bools).
  destruct v as [v|]; [|by destruct q; apply solid_last].
  destruct q.
  - exists (k ++ 61 :: 34 :: v), 34. simpl. rewrite <- app_assoc. done.
  - cbn [render show_entry value key]. destruct Hv as [Hv _].
    destruct (decide (v = [])) as [->|Hn]; [by exists k, 61|].
    destruct (solid_last v Hn Hv) as (l' & c & -> & Hc). exists (k ++ str "=" ++ l'), c.
    split; [by rewrite <- !app_assoc|done].
Qed.

Lemma next_render ws t rest :
  white ws → good t → stops rest →
  next (mkParser (ws ++ render t ++ rest)) = (Some (Ok t.2), mkParser rest).
Proof.
  intros Hws Hg Hr. pose proof (good_head t Hg) as (c0 & l0 & Eh & Hc0).
  unfold next, parse_key, skip_whitespaces, take_while. cbn [remains].
  rewrite (span_app is_whitespace ws (render t ++ rest)); [|done|by rewrite Eh].
  cbn [snd remains]. destruct Hg as (Hk & Hf & Hv). destruct t as [q [k v]].
  cbn [fst snd key value] in *.
  assert (Hkey : ∀ tail, match tail with [] => True | c :: _ => negb (is_whitespace c) && negb (c =? 61) = false end →
    span (λ c, negb (is_whitespace c) && negb (c =? 61)) (k ++ tail) = (k, tail))
    by (intros; by apply span_app).
  destruct v as [v|].
  2:{ assert (Er : render (q, mkEntry k None) = k) by (by destruct q). rewrite Er, Hkey.
      - rewrite bool_decide_false by done. unfold parse_value, peek. cbn [remains].
        destruct rest as [|c rest]; [done|]. simpl in Hr. cbn [head].
        rewrite Hr. destruct (c =? 61) eqn:E; [|done]. bools. by subst.
      - destruct rest as [|c rest]; [done|]. simpl in Hr. by rewrite Hr. }
  destruct q.
  - cbn [render]. rewrite <- app_assoc. cbn [app]. rewrite Hkey by done.
    rewrite bool_decide_false by done. unfold parse_value, peek, skip. cbn [remains head drop Z.eqb Pos.eqb].
    rewrite !drop_0, bool_decide_true by done. rewrite <- app_assoc.
    unfold take_while. cbn [remains app].
    rewrite span_app; [|eapply Forall_forall; intros c Hc; destruct (c =? 34) eqn:E; [bools; by subst|done]|done].
    done.
  - cbn [render show_entry value key]. change (str "=") with [61]. rewrite <- app_assoc. cbn [app].
    rewrite Hkey by done. rewrite bool_decide_false by done.
    unfold parse_value, peek, skip. cbn [remains head drop Z.eqb Pos.eqb]. rewrite !drop_0.
    destruct Hv as [Hv Hh]. rewrite bool_decide_false.
    + unfold take_while. cbn [remains]. rewrite span_app; [done| |].
      * eapply Forall_impl; [exact Hv|]. intros c Hc. cbn beta in *. by rewrite Hc.
      * destruct rest as [|c rest]; [done|]. simpl in Hr. by rewrite Hr.
    + destruct v as [|c v]; [|done]. destruct rest as [|c rest]; [done|].
      simpl in Hr. intros [= ->]. by vm_compute in Hr.
Qed.

Lemma parse_line ws ts fuel :
  white ws → Forall good ts → (length ts < fuel)%nat →
  ∀ t, good t → parse_all (S fuel) (mkParser (ws ++ render t ++ line ts)) = Some (Ok <$> (snd <$> t :: ts)).
Proof.
  intros Hws Hts. revert ws fuel Hws. induction Hts as [|t' ts Ht' Hts IH]; intros ws fuel Hws Hf t Ht.
  - cbn [parse_all]. rewrite next_render by done. destruct fuel; [simpl in Hf; lia|]. done.
  - cbn [parse_all]. rewrite next_render by done.
    change (line (t' :: ts)) with ([32] ++ render t' ++ line ts).
    destruct fuel as [|fuel]; [simpl in Hf; lia|].
    rewrite IH; [done|by repeat constructor|simpl in Hf; lia|done].
Qed.

Lemma trim_spaced c l l' d :
  c :: l = l' ++ [d] → is_whitespace c = false → is_whitespace d = false →
  trim (32 :: c :: l) = c :: l.
Proof.
  intros E Hc Hd. unfold trim, trim_start. cbn [span]. change (is_whitespace 32) with true. cbn [span].
  rewrite Hc. cbn [snd]. rewrite E, reverse_app. cbn [reverse rev_append app span]. rewrite Hd.
  cbn [snd]. change (d :: reverse l') with (reverse [d] ++ reverse l').
  by rewrite <- reverse_app, reverse_involutive.
Qed.

Lemma trim_line t ts : Forall good (t :: ts) → trim (line (t :: ts)) = render t ++ line ts.
Proof.
  intros Hts. change (line (t :: ts)) with (32 :: (render t ++ line ts)).
  assert (Hlast : ∃ l c, render t ++ line ts = l ++ [c] ∧ is_whitespace c = false).
  { destruct ts as [|t' ts' _] using rev_ind.
    - change (line []) with (@nil Z). rewrite app_nil_r. apply good_last. by inversion Hts.
    - unfold line. rewrite fmap_app, join_app. cbn [fmap list_fmap].
      change (mjoin [?x]) with (x ++ []). rewrite app_nil_r.
      rewrite Forall_cons, Forall_app in Hts. destruct Hts as (_ & _ & Hg).
      inversion_clear Hg as [|? ? Ht' _]. destruct (good_last t' Ht') as (l & c & -> & Hc).
      eexists _, c. split; [|done].
      by rewrite (app_comm_cons l), !app_assoc. }
  inversion Hts as [|? ? Ht _]; subst. destruct (good_head t Ht) as (c & l & Eh & Hc).
  destruct Hlast as (l' & d & El & Hd). rewrite Eh in *. cbn [app] in *.
  by eapply trim_spaced.
Qed.

(** ** The command line builder *)

(** The buffer holds the bytes [s], a nul and unused space. *)
Definition cl_ok (s : bytes) (b : CommandlineBuilder) : Prop :=
  cl_size b = zlen s ∧ 0 ∉ s ∧ ∃ rest, cl_buffer b = s ++ 0 :: rest.

Lemma position_app c s r : c ∉ s → position c (s ++ c :: r) = Some (zlen s).
Proof.
  induction s as [|x s IH]; intros Hs; simpl; [by rewrite Z.eqb_refl|].
  rewrite not_elem_of_cons in Hs. destruct Hs as [Hx Hs].
  rewrite (proj2 (Z.eqb_neq x c)) by done. rewrite IH by done. simpl. f_equal. lia.
Qed.

Lemma cstr_with_nul_app s : 0 ∉ s → cstr_with_nul (s ++ [0]) = Some s.
Proof.
  intros Hs. unfold cstr_with_nul. rewrite position_app by done.
  rewrite length_app. simpl length. rewrite (proj2 (Z.eqb_eq _ _)) by lia. f_equal. list_ext.
Qed.

Lemma set_byte_ok {E} (l : bytes) i v :
  0 ≤ i < zlen l → set_byte (E:=E) l i v = Ok (splice l i [v]).
Proof.
  intros Hi. unfold set_byte. lia_bools. cbn [andb]. f_equal. unfold splice.
  rewrite insert_take_drop by lia. cbn [app length]. do 3 f_equal. lia.
Qed.

Lemma cl_new_ok buffer : 0 < zlen buffer → ∃ b, cl_new buffer = Ok b ∧ cl_ok [] b ∧ length (cl_buffer b) = length buffer.
Proof.
  intros Hb. unfold cl_new, COMMANDLINE_TRAILING_SIZE. lia_bools.
  unfold update_null_terminator. cbn [cl_buffer cl_size]. rewrite set_byte_ok by lia. cbn.
  eexists. split; [done|]. split; [|cbn [cl_buffer]; apply length_splice; simpl; lia].
  split; [done|]. split; [apply not_elem_of_nil|]. destruct buffer as [|x buffer]; [simpl in Hb; lia|].
  by exists buffer.
Qed.

(** The three writes of [add_with]. *)
Lemma cl_layout (s s' rest : bytes) :
  zlen s' < zlen rest →
  splice (splice (splice (s ++ 0 :: rest) (zlen s + 1) (splice (slice rest 0 (zlen rest - 1)) 0 s'))
    (zlen s) [32]) (zlen s + (zlen s' + 1)) [0] =
  s ++ [32] ++ s' ++ [0] ++ drop (length s' + 1) rest.
Proof.
  intros Hr. change (s ++ 0 :: rest) with (s ++ [0] ++ rest).
  list_ext; cbn [length] in *; try lia; f_equal; lia.
Qed.

(** Adding text that fits: it follows the current line after a space. *)
Lemma cl_add_ok s s' b :
  cl_ok s b → s' ≠ [] → 0 ∉ s' → zlen s + 1 + zlen s' < zlen (cl_buffer b) → zlen (cl_buffer b) < 2 ^ 64 →
  ∃ b', cl_add s' b = (Ok tt, b') ∧ cl_ok (s ++ 32 :: s') b' ∧ length (cl_buffer b') = length (cl_buffer b).
Proof.
  intros (Hsz & H0 & rest & Hbuf) Hn H0' Hfit Hlen. destruct b as [sz buf]. cbn [cl_size cl_buffer] in *.
  subst sz. assert (Hbl : zlen buf = zlen s + 1 + zlen rest) by (rewrite Hbuf, length_app; simpl; lia).
  unfold cl_add. rewrite bool_decide_false by done.
  rewrite bind_run, lift_run, arith_ok by lia. rewrite bind_run. unfold gets at 1, id.
  rewrite bind_run, lift_run. unfold cl_remaining_capacity, COMMANDLINE_TRAILING_SIZE. cbn [cl_size cl_buffer].
  rewrite arith_ok by lia. rewrite ok_bind, arith_ok by lia.
  rewrite (proj2 (Z.ltb_ge _ _)) by lia.
  unfold cl_add_with, COMMANDLINE_TRAILING_SIZE. rewrite bind_run. unfold gets at 1, id. cbn [cl_size cl_buffer].
  rewrite bind_run, lift_run, arith_ok by lia.
  rewrite bind_run, lift_run, index_range_ok by lia.
  rewrite bind_run, lift_run. unfold index_from. rewrite index_range_ok by lia.
  assert (E1 : slice buf 0 (zlen s + 1 - 0) = s ++ [0]).
  { rewrite Hbuf. change (s ++ 0 :: rest) with (s ++ [0] ++ rest). rewrite app_assoc. apply slice_app_l. lens. }
  assert (E2 : slice buf (zlen s + 1) (zlen buf - (zlen s + 1)) = rest).
  { rewrite Hbuf at 1. change (s ++ 0 :: rest) with (s ++ [0] ++ rest). rewrite app_assoc.
    rewrite slice_app_r by lens. apply slice_all. lia. }
  rewrite E1, E2. rewrite (proj2 (Z.eqb_neq (zlen rest) 0)) by lia. cbn [negb].
  rewrite bind_run, lift_run, cstr_with_nul_app by done. cbn [unwrap].
  unfold copy_in. rewrite get_range_Some by lens.
  set (free := splice (slice rest 0 (zlen rest - 1)) 0 s').
  assert (Hfree : zlen free = zlen rest - 1) by (unfold free; rewrite length_splice; lens).
  rewrite bind_run. unfold modify at 1. cbn [cl_size cl_buffer].
  rewrite bind_run, lift_run.
  rewrite (proj2 (Z.eqb_neq (zlen s') 0)) by (destruct s'; [done|simpl; lia]).
  rewrite bind_run, lift_run, index_range_ok by lia. rewrite Z.sub_0_r.
  assert (E3 : slice free 0 (zlen s') = s') by (unfold free; list_ext).
  rewrite E3, bool_decide_false by done.
  rewrite bind_run, lift_run. rewrite (proj2 (Z.leb_le _ _)) by lia. cbn [assert_that].
  rewrite bind_run. unfold gets at 1, id. cbn [cl_size cl_buffer].
  set (buf1 := splice buf (zlen s + 1) free).
  assert (Hb1 : zlen buf1 = zlen buf) by (unfold buf1; rewrite length_splice; lia).
  rewrite bind_run, lift_run, set_byte_ok by lia.
  rewrite bind_run, lift_run, arith_ok by lia. rewrite bind_run, lift_run, arith_ok by lia.
  rewrite bind_run. unfold modify at 1. rewrite bind_run. unfold gets at 1, id.
  rewrite bind_run, lift_run. unfold update_null_terminator. cbn [cl_size cl_buffer].
  assert (Hb2 : zlen (splice buf1 (zlen s) [32]) = zlen buf) by (rewrite length_splice; simpl; lia).
  rewrite set_byte_ok by lia. rewrite ok_bind. unfold modify.
  eexists. split; [done|]. cbn [cl_buffer]. split.
  - split; [cbn [cl_size]; rewrite length_app; simpl; lia|]. split.
    { rewrite not_elem_of_app, not_elem_of_cons. naive_solver. }
    exists (drop (length s' + 1) rest). cbn [cl_buffer cl_size].
    change (s ++ 32 :: s') with (s ++ [32] ++ s'). change (0 :: ?l) with ([0] ++ l).
    rewrite <- !app_assoc. unfold buf1, free. rewrite Hbuf. apply cl_layout. lia.
  - rewrite length_splice; simpl; lia.
Qed.

(** Text that does not fit is refused and changes nothing. *)
Lemma cl_add_too_small s s' b :
  cl_ok s b → s' ≠ [] → zlen (cl_buffer b) ≤ zlen s + 1 + zlen s' →
  zlen (cl_buffer b) < 2 ^ 64 → zlen s' + 1 < 2 ^ 64 →
  cl_add s' b = (Err (BufferTooSmall (Some (zlen s' + 1))), b).
Proof.
  intros (Hsz & _ & rest & Hbuf) Hn Hfit Hlen Hs'. destruct b as [sz buf]. cbn [cl_size cl_buffer] in *.
  subst sz. assert (Hbl : zlen buf = zlen s + 1 + zlen rest) by (rewrite Hbuf, length_app; simpl; lia).
  unfold cl_add. rewrite bool_decide_false by done.
  rewrite bind_run, lift_run, arith_ok by lia. rewrite bind_run. unfold gets, id.
  rewrite bind_run, lift_run. unfold cl_remaining_capacity, COMMANDLINE_TRAILING_SIZE. cbn [cl_size cl_buffer].
  rewrite arith_ok by lia. rewrite ok_bind, arith_ok by lia.
  by rewrite (proj2 (Z.ltb_lt _ _)) by lia.
Qed.

(** A sequence of [add] calls. *)
Fixpoint cl_add_all (l : list bytes) : ST CommandlineBuilder Error unit :=
  match l with
  | [] => mret tt
  | s :: l => cl_add s;; cl_add_all l
  end.

Definition appended (l : list bytes) : bytes := mjoin ((λ x, 32 :: x) <$> l).

Lemma cl_add_all_ok l s b :
  cl_ok s b → Forall (λ x, x ≠ [] ∧ 0 ∉ x) l →
  zlen s + zlen (appended l) < zlen (cl_buffer b) → zlen (cl_buffer b) < 2 ^ 64 →
  ∃ b', cl_add_all l b = (Ok tt, b') ∧ cl_ok (s ++ appended l) b' ∧
        length (cl_buffer b') = length (cl_buffer b).
Proof.
  intros Hok Hl. revert s b Hok. induction Hl as [|x l [Hx H0] _ IH]; intros s b Hok Hfit Hlen.
  - exists b. change (appended []) with (@nil Z). by rewrite app_nil_r.
  - change (appended (x :: l)) with ((32 :: x) ++ appended l) in *.
    rewrite length_app in Hfit. cbn [length] in Hfit.
    destruct (cl_add_ok s x b Hok Hx H0) as (b1 & E1 & Hok1 & Hl1); [lia..|].
    destruct (IH (s ++ 32 :: x) b1 Hok1) as (b2 & E2 & Hok2 & Hl2); [rewrite length_app; cbn [length]; lia|lia|].
    exists b2. cbn [cl_add_all]. rewrite bind_run, E1. split_and!; [done|by rewrite app_assoc|lia].
Qed.

Lemma utf8_no_nul s : 0 ∉ s → chars_ok s → 0 ∉ utf8_bytes s.
Proof.
  intros Hs Hc. induction Hc as [|c s Hc _ IH]; [done|].
  rewrite not_elem_of_cons in Hs. destruct Hs as [Hne Hs].
  rewrite utf8_bytes_cons, not_elem_of_app. split; [|auto].
  apply is_char_spec in Hc. unfold encode_utf8.
  char_cases; bools; rewrite !not_elem_of_cons; split_and!; try apply not_elem_of_nil; try lia; try divmod.
Qed.

Lemma utf8_bytes_nonnil s : s ≠ [] → utf8_bytes s ≠ [].
Proof.
  destruct s as [|c s]; [done|]. intros _. rewrite utf8_bytes_cons. intros E%(f_equal length).
  pose proof (zlen_encode_utf8 c). pose proof (len_utf8_bounds c). rewrite length_app in E. simpl in E. lia.
Qed.

(** Text of the entries: characters, without a nul. *)
Definition text_ok (t : bool * Entry) : Prop := chars_ok (render t) ∧ 0 ∉ render t.

Lemma appended_line ts :
  appended ((λ t, utf8_bytes (render t)) <$> ts) = utf8_bytes (line ts).
Proof.
  induction ts as [|t ts IH]; [done|].
  change (line (t :: ts)) with (32 :: (render t ++ line ts)). rewrite utf8_bytes_cons, utf8_bytes_app.
  change (encode_utf8 32) with [32]. rewrite <- IH. done.
Qed.

Lemma line_chars_ok ts : Forall text_ok ts → chars_ok (line ts).
Proof.
  induction 1 as [|t ts [Ht _] _ IH]; [constructor|].
  change (line (t :: ts)) with ([32] ++ render t ++ line ts).
  apply Forall_app. split; [by repeat constructor|]. by apply Forall_app.
Qed.

Lemma cl_as_str_ok s b t :
  cl_ok s b → zlen (cl_buffer b) < 2 ^ 64 → decode_utf8 s = Some t → cl_as_str b = Ok (trim t).
Proof.
  intros (Hsz & H0 & rest & Hbuf) Hlen Hd. unfold cl_as_str. rewrite Hsz.
  rewrite Hbuf, length_app in *. cbn [length] in *.
  rewrite arith_ok by lia. rewrite ok_bind, index_range_ok by (rewrite ?length_app; cbn [length]; lia).
  change (s ++ 0 :: rest) with (s ++ [0] ++ rest). rewrite app_assoc, slice_app_l by lens.
  rewrite ok_bind, cstr_with_nul_app by done. cbn. by rewrite Hd.
Qed.

(** ** Properties *)

(** C35. A command line built from entries, each with an optional and possibly
    quoted value, is parsed back into exactly these entries: in a buffer that is
    large enough every [add] succeeds, and the entries of the builder are those
    that were added, in order, with their quotes removed. *)
Theorem commandline_roundtrip (ts : list (bool * Entry)) (buffer : bytes) :
  ts ≠ [] → Forall good ts → Forall text_ok ts →
  zlen (utf8_bytes (line ts)) < zlen buffer < 2 ^ 64 →
  ∃ b0 b p, cl_new buffer = Ok b0 ∧
    cl_add_all ((λ t, utf8_bytes (render t)) <$> ts) b0 = (Ok tt, b) ∧
    cl_entries b = Ok p ∧
    parse_all (S (S (length ts))) p = Some (Ok <$> (snd <$> ts)).
Proof.
  intros Hne Hg Ht Hlen. destruct (cl_new_ok buffer) as (b0 & E0 & Hok0 & Hl0); [lia|].
  destruct (cl_add_all_ok ((λ t, utf8_bytes (render t)) <$> ts) [] b0 Hok0) as (b & E & Hok & Hl).
  - apply Forall_fmap. apply Forall_forall. intros t Hin. rewrite Forall_forall in Hg, Ht.
    specialize (Hg t Hin). specialize (Ht t Hin). destruct Ht as [Hc H0]. cbn. split.
    + destruct (good_head t Hg) as (c & l & -> & _). by apply utf8_bytes_nonnil.
    + by apply utf8_no_nul.
  - rewrite appended_line, Hl0. simpl. lia.
  - rewrite Hl0. lia.
  - rewrite appended_line in Hok. cbn [app] in Hok.
    assert (Hb : zlen (cl_buffer b) < 2 ^ 64) by lia.
    pose proof (decode_utf8_bytes _ (line_chars_ok ts Ht)) as Hd.
    destruct ts as [|t ts]; [done|]. exists b0, b, (mkParser (render t ++ line ts)).
    split_and!; [done|done| |].
    + unfold cl_entries. rewrite (cl_as_str_ok _ _ _ Hok Hb Hd), ok_bind. unfold parser_new.
      by rewrite trim_line.
    + inversion Hg; subst. apply (parse_line [] ts); [constructor|done|simpl; lia|done].
Qed.
Definition ex_tokens : list (bool * Entry) :=
  [(false, mkEntry (str "console") (Some (str "ttyS0,115200")));
   (false, mkEntry (str "quiet") None);
   (true, mkEntry (str "dyndbg") (Some (str "file a.c +p ; file b.c +p")));
   (false, mkEntry (str "init") (Some []))].
Lemma commandline_roundtrip_witness :
  ∃ b0 b p, cl_new (replicate 100 7) = Ok b0 ∧
    cl_add_all ((λ t, utf8_bytes (render t)) <$> ex_tokens) b0 = (Ok tt, b) ∧
    cl_entries b = Ok p ∧
    parse_all (S (S (length ex_tokens))) p = Some (Ok <$> (snd <$> ex_tokens)).
Proof.
  apply (commandline_roundtrip ex_tokens (replicate 100 7)).
  - discriminate.
  - unfold good, solid. cbn. repeat constructor; try discriminate; by_compute.
  - unfold text_ok, chars_ok. repeat constructor; by_compute.
  - vm_compute. split; reflexivity.
Defined.

(** ** The bootconfig builder *)

Definition byte_sum (l : bytes) : Z := foldr Z.add 0 l.
(** The trailer that the bootconfig format asks for. *)
Definition trailer (s : bytes) : bytes :=
  le_bytes 4 (zlen s) ++ le_bytes 4 (byte_sum s mod 2 ^ 32) ++ BOOTCONFIG_MAGIC.
Definition bc_ok (s : bytes) (b : BootConfigBuilder) : Prop :=
  bc_size b = zlen s ∧ bytes_ok s ∧ ∃ rest, bc_buffer b = s ++ trailer s ++ rest.

Lemma trailer_length s : zlen (trailer s) = BOOTCONFIG_TRAILER_SIZE.
Proof. unfold trailer. rewrite !length_app, !length_le_bytes. done. Qed.

Lemma checksum_fold l a :
  bytes_ok l → 0 ≤ a < 2 ^ 32 → foldl (λ acc v, wrap 32 (acc + v)) a l = (a + byte_sum l) mod 2 ^ 32.
Proof.
  intros Hl. revert a. induction Hl as [|v l Hv _ IH]; intros a Ha; cbn [foldl].
  - simpl. rewrite Z.add_0_r. symmetry. by apply Z.mod_small.
  - rewrite IH by (apply Z.mod_pos_bound; lia). unfold wrap, byte_sum. cbn [foldr].
    rewrite Zplus_mod_idemp_l. f_equal. lia.
Qed.

Lemma checksum_ok s rest n :
  bytes_ok s → n = zlen s → checksum (mkBC n (s ++ rest)) = Ok (byte_sum s mod 2 ^ 32).
Proof.
  intros Hs ->. unfold checksum. cbn [bc_buffer bc_size].
  rewrite index_range_ok by (rewrite ?length_app; lia). rewrite Z.sub_0_r, slice_app_l by done. cbn. f_equal.
  destruct Hs as [|v s Hv Hs]; [done|]. unfold u8_ok in Hv. rewrite checksum_fold by (done || lia). done.
Qed.

Lemma update_trailer_ok s (rest : bytes) :
  bytes_ok s → zlen s < 2 ^ 32 → BOOTCONFIG_TRAILER_SIZE ≤ zlen rest →
  update_trailer (mkBC (zlen s) (s ++ rest)) =
    (Ok tt, mkBC (zlen s) (s ++ trailer s ++ drop (length (trailer s)) rest)).
Proof.
  intros Hs Hl Hr. unfold BOOTCONFIG_TRAILER_SIZE in Hr. change (zlen BOOTCONFIG_MAGIC) with 12 in Hr.
  unfold update_trailer. rewrite bind_run. unfold gets, id. cbn [bc_size bc_buffer].
  rewrite bind_run, lift_run, checked_Some by lia. cbn [ok_or].
  rewrite bind_run, lift_run, checksum_ok by done.
  rewrite bind_run, lift_run. unfold index_from.
  rewrite index_range_ok by (rewrite ?length_app; lia).
  assert (E : slice (s ++ rest) (zlen s) (zlen (s ++ rest) - zlen s) = rest).
  { rewrite slice_app_r by done. apply slice_all. lens. }
  rewrite E. rewrite bind_run, lift_run, index_range_ok by lia.
  rewrite bind_run, lift_run, index_range_ok by lia.
  rewrite bind_run, lift_run, index_range_ok by lia.
  rewrite bind_run, lift_run, index_range_ok by (change (zlen BOOTCONFIG_MAGIC) with 12; lens).
  unfold modify. cbn [bc_size bc_buffer]. do 2 f_equal. fold (trailer s).
  pose proof (trailer_length s) as Ht. unfold BOOTCONFIG_TRAILER_SIZE in Ht.
  change (zlen BOOTCONFIG_MAGIC) with 12 in Ht. list_ext.
Qed.

Lemma bc_new_ok buffer :
  BOOTCONFIG_TRAILER_SIZE ≤ zlen buffer →
  ∃ b, bc_new buffer = Ok b ∧ bc_ok [] b ∧ length (bc_buffer b) = length buffer.
Proof.
  intros Hb. unfold bc_new. rewrite (proj2 (Z.ltb_ge _ _)) by lia.
  pose proof (update_trailer_ok [] buffer ltac:(constructor) ltac:(simpl; lia) Hb) as E.
  cbn [app length] in E. change (Z.of_nat 0) with 0 in E. rewrite E. eexists. split; [done|].
  pose proof (trailer_length []) as Ht. split.
  - split; [done|]. split; [constructor|]. by eexists.
  - cbn [bc_buffer]. rewrite length_app, length_drop. lia.
Qed.

Lemma bc_capacity s b :
  bc_ok s b → zlen (bc_buffer b) < 2 ^ 32 →
  bc_remaining_capacity b = Ok (zlen (bc_buffer b) - zlen s - BOOTCONFIG_TRAILER_SIZE).
Proof.
  intros (Hsz & _ & rest & Hbuf) Hl. unfold bc_remaining_capacity. rewrite Hsz.
  pose proof (trailer_length s) as Ht.
  assert (BOOTCONFIG_TRAILER_SIZE + zlen s ≤ zlen (bc_buffer b)) by (rewrite Hbuf, !length_app; lia).
  rewrite checked_Some by lia. cbn [unwrap]. rewrite ok_bind.
  assert (0 ≤ BOOTCONFIG_TRAILER_SIZE) by done. by rewrite checked_Some by lia.
Qed.

(** Adding text that fits. *)
Lemma bc_add_ok s s' b :
  bc_ok s b → bytes_ok s' → zlen s + zlen s' + BOOTCONFIG_TRAILER_SIZE ≤ zlen (bc_buffer b) →
  zlen (bc_buffer b) < 2 ^ 32 →
  ∃ b', bc_add s' b = (Ok tt, b') ∧ bc_ok (s ++ s') b' ∧ length (bc_buffer b') = length (bc_buffer b).
Proof.
  intros Hok Hs' Hfit Hlen. pose proof (bc_capacity s b Hok Hlen) as Hcap.
  destruct Hok as (Hsz & Hs & rest & Hbuf). destruct b as [sz buf]. cbn [bc_size bc_buffer] in *. subst sz.
  assert (HT : BOOTCONFIG_TRAILER_SIZE = 20) by done. rewrite HT in *.
  set (n := zlen buf - zlen s - 20) in *.
  unfold bc_add. rewrite bind_run. unfold gets at 1, id. rewrite bind_run, lift_run, Hcap.
  rewrite (proj2 (Z.ltb_ge _ _)) by lia.
  unfold bc_add_with. rewrite bind_run. unfold gets at 1, id. rewrite bind_run, lift_run, Hcap.
  cbn [bc_size bc_buffer]. rewrite bind_run, lift_run, index_range_ok by lia.
  rewrite bind_run, lift_run. unfold index_from. rewrite index_range_ok by lia.
  rewrite bind_run, lift_run, index_range_ok by lens.
  unfold copy_in. rewrite get_range_Some by lens.
  rewrite bind_run. unfold modify at 1. cbn [bc_size bc_buffer].
  rewrite bind_run, lift_run, bind_run, lift_run, (proj2 (Z.leb_le _ _)) by lia. cbn [assert_that].
  rewrite bind_run, lift_run, arith_ok by lia. rewrite bind_run. unfold modify. cbn [bc_size bc_buffer].
  set (buf1 := splice buf _ _).
  assert (Hb1 : buf1 = (s ++ s') ++ drop (length s + length s') buf).
  { transitivity ((take (length s) buf ++ s') ++ drop (length s + length s') buf).
    - unfold buf1. clear Hbuf. list_ext.
    - by rewrite Hbuf at 1; rewrite take_app_length. }
  rewrite Hb1. replace (zlen s + zlen s') with (zlen (s ++ s')) by (rewrite length_app; lia).
  rewrite update_trailer_ok.
  - eexists. split; [done|]. split.
    + split; [done|]. split; [by apply bytes_ok_app|]. by eexists.
    + cbn [bc_buffer]. pose proof (trailer_length (s ++ s')) as Ht. rewrite HT in Ht.
      rewrite !length_app, !length_drop. lia.
  - by apply bytes_ok_app.
  - rewrite length_app. lia.
  - rewrite HT, length_drop. lia.
Qed.

Lemma bc_add_with_ext (r1 r2 : reader) b b' :
  (∀ c f, (r1 c f).1 = Panic ∨ r1 c f = r2 c f) → bc_add_with r1 b = (Ok tt, b') → bc_add_with r2 b = (Ok tt, b').
Proof.
  intros Hr. unfold bc_add_with.
  rewrite !(bind_run (gets id)). unfold gets, id.
  rewrite !(bind_run (lift (bc_remaining_capacity b))), !lift_run.
  destruct (bc_remaining_capacity b) as [n| |]; [|discriminate..].
  rewrite !(bind_run (lift (index_range (bc_buffer b) _ _))), !lift_run.
  destruct (index_range _ 0 (bc_size b)) as [c| |]; [|discriminate..].
  rewrite !(bind_run (lift (index_from _ _))), !lift_run.
  destruct (index_from _ _) as [rest| |]; [|discriminate..].
  rewrite !(bind_run (lift (index_range rest _ _))), !lift_run.
  destruct (index_range rest _ _) as [f| |]; [|discriminate..].
  destruct (Hr c f) as [E| ->]; [|done].
  destruct (r1 c f) as [r f']. simpl in E. subst r. done.
Qed.

(** Writing text through [Write] is appending it. *)
Lemma bc_write_str_ok s s' b :
  bc_ok s b → bytes_ok s' → zlen s + zlen s' + BOOTCONFIG_TRAILER_SIZE ≤ zlen (bc_buffer b) →
  zlen (bc_buffer b) < 2 ^ 32 →
  ∃ b', bc_write_str s' b = (Ok tt, b') ∧ bc_ok (s ++ s') b' ∧ length (bc_buffer b') = length (bc_buffer b).
Proof.
  intros Hok Hs' Hfit Hlen. destruct (bc_add_ok s s' b) as (b' & Hadd & ?); [done..|]. exists b'. split; [|done].
  unfold bc_add in Hadd. rewrite bind_run in Hadd. unfold gets at 1, id in Hadd.
  rewrite bind_run, lift_run, (bc_capacity s b) in Hadd by done.
  rewrite (proj2 (Z.ltb_ge _ _)) in Hadd by lia.
  unfold bc_write_str. erewrite bc_add_with_ext; [done| |exact Hadd].
  intros c f. unfold copy_in. destruct (get_range f 0 _); auto.
Qed.

Fixpoint bc_add_all (l : list bytes) : ST BootConfigBuilder Error unit :=
  match l with
  | [] => mret tt
  | s :: l => bc_add s;; bc_add_all l
  end.

Lemma bc_add_all_ok l s b :
  bc_ok s b → Forall bytes_ok l →
  zlen s + zlen (mjoin l) + BOOTCONFIG_TRAILER_SIZE ≤ zlen (bc_buffer b) →
  zlen (bc_buffer b) < 2 ^ 32 →
  ∃ b', bc_add_all l b = (Ok tt, b') ∧ bc_ok (s ++ mjoin l) b' ∧
        length (bc_buffer b') = length (bc_buffer b).
Proof.
  intros Hok Hl. revert s b Hok. induction Hl as [|x l Hx _ IH]; intros s b Hok Hfit Hlen.
  - exists b. change (mjoin []) with (@nil Z). by rewrite app_nil_r.
  - change (mjoin (x :: l)) with (x ++ mjoin l) in *. rewrite length_app in Hfit.
    destruct (bc_add_ok s x b Hok Hx) as (b1 & E1 & Hok1 & Hl1); [lia..|].
    destruct (IH (s ++ x) b1 Hok1) as (b2 & E2 & Hok2 & Hl2); [rewrite length_app; lia|lia|].
    exists b2. cbn [bc_add_all]. rewrite bind_run, E1. split_and!; [done|by rewrite app_assoc|lia].
Qed.

(** C36. A bootconfig is always complete: after any sequence of additions that
    fit the buffer, its bytes are the concatenation of the parts followed by the
    trailer of the format, with the size, the sum of the bytes modulo 2^32 and
    the magic. A part that does not fit any more is refused and leaves the
    bootconfig as it was. *)
Theorem bootconfig_trailer_exact (l : list bytes) (extra buffer : bytes) :
  Forall bytes_ok l → zlen (mjoin l) + BOOTCONFIG_TRAILER_SIZE ≤ zlen buffer < 2 ^ 32 →
  zlen buffer < zlen (mjoin l) + zlen extra + BOOTCONFIG_TRAILER_SIZE →
  ∃ b0 b, bc_new buffer = Ok b0 ∧ bc_add_all l b0 = (Ok tt, b) ∧
    config_bytes b = Ok (mjoin l ++ trailer (mjoin l)) ∧
    bc_add extra b = (Err (BufferTooSmall (Some (zlen extra))), b).
Proof.
  intros Hl Hfit Hextra. destruct (bc_new_ok buffer) as (b0 & E0 & Hok0 & Hl0); [lia|].
  destruct (bc_add_all_ok l [] b0 Hok0 Hl) as (b & E & Hok & Hlb); [simpl length; lia|lia|].
  cbn [app] in Hok. exists b0, b. split_and!; [done|done| |].
  - destruct Hok as (Hsz & _ & rest & Hbuf). unfold config_bytes. rewrite Hsz.
    assert (0 ≤ BOOTCONFIG_TRAILER_SIZE) by done. rewrite checked_Some by lia. cbn [unwrap]. rewrite ok_bind, index_range_ok by lia. f_equal.
    rewrite Z.sub_0_r, Hbuf, app_assoc. apply slice_app_l. rewrite length_app.
    pose proof (trailer_length (mjoin l)). lia.
  - unfold bc_add. rewrite bind_run. unfold gets, id. rewrite bind_run, lift_run.
    rewrite (bc_capacity _ _ Hok) by lia. by rewrite (proj2 (Z.ltb_lt _ _)) by lia.
Qed.
Lemma bootconfig_trailer_exact_witness :
  ∃ b0 b, bc_new (replicate 30 7) = Ok b0 ∧ bc_add_all [str "a=1"; [10]; str "b=2"] b0 = (Ok tt, b) ∧
    config_bytes b = Ok (mjoin [str "a=1"; [10]; str "b=2"] ++ trailer (mjoin [str "a=1"; [10]; str "b=2"])) ∧
    bc_add (str "c=3+") b = (Err (BufferTooSmall (Some (zlen (str "c=3+")))), b).
Proof.
  apply (bootconfig_trailer_exact [str "a=1"; [10]; str "b=2"] (str "c=3+") (replicate 30 7)).
  - by_compute.
  - vm_compute. split; [discriminate|reflexivity].
  - vm_compute. reflexivity.
Defined.
