(* ===== verification/Partition.v ===== *)
(** * libgbl: devices and partitions

    Models src/gbl/libgbl/src/partition.rs: [GblDisk], a block device with a
    partition table, each behind a [RefCell], and [PartitionIo], reads and
    writes of one partition. A call takes the device with the state of its two
    cells; a buffer of the caller goes with its address, as in [Disk]. *)

From S2P Require Import Prelude SafeMath LibError Text Block Disk GptData Gpt GptBuild.
From S2P Require Import Crc Sparse.
Import SafeNum.

(** ** Names *)

(** gbl/libgbl/src/partition.rs:30-31, [RAW_PARTITION_NAME_LEN]. *)
Definition RAW_PARTITION_NAME_LEN : Z := 72.

(** gbl/libgbl/src/partition.rs:33-35, [RawName]: the bytes of the buffer. *)
Definition RawName : Type := bytes.

(** gbl/libgbl/src/partition.rs:38-44, [RawName::new]: of a C string, given without
    its terminator. *)
Definition raw_name_new (name : bytes) : result RawName :=
  match decode_utf8 name with
  | None => Err InvalidInput
  | Some _ =>
      let n := name ++ [0] in
      if zlen n <=? RAW_PARTITION_NAME_LEN
      then Ok (n ++ replicate (Z.to_nat (RAW_PARTITION_NAME_LEN - zlen n)) 0)
      else Err InvalidInput
  end.

(** gbl/libgbl/src/partition.rs:46-49, [RawName::to_str]: its characters. *)
Definition raw_name_to_str (n : RawName) : result (list Z) :=
  s ← unwrap (cstr_until_nul n);
  unwrap (decode_utf8 s).

(** ** Partitions *)

(** gbl/libgbl/src/partition.rs:52-59, [Partition]. *)
Inductive GblPartition :=
  | RawPartition (name : RawName) (size : Z)
  | GptPartition (p : GptData.Partition).

(** gbl/libgbl/src/partition.rs:76-82, [Partition::absolute_range]. *)
Definition part_absolute_range (p : GblPartition) : result (Z * Z) :=
  match p with
  | GptPartition gpt => absolute_range gpt
  | RawPartition _ size => Ok (0, size)
  end.

(** gbl/libgbl/src/partition.rs:62-66, [Partition::size]. *)
Definition part_size (p : GblPartition) : result Z :=
  '(start, end_) ← part_absolute_range p;
  into_u64 (Val end_ -! Val start).

(** gbl/libgbl/src/partition.rs:68-74, [Partition::name]. *)
Definition part_name (p : GblPartition) : result (list Z) :=
  match p with
  | GptPartition gpt => n ← partition_name gpt; ok_or n InvalidInput
  | RawPartition name _ => raw_name_to_str name
  end.

(** gbl/libgbl/src/partition.rs:85-90, [PartitionTable]. *)
Inductive PartitionTable :=
  | RawTable (name : RawName) (size : Z)
  | GptTable (g : Gpt).

(** gbl/libgbl/src/partition.rs:92-98, [BlockStatus]. *)
Inductive BlockStatus := Idle | Pending.

(** gbl/libgbl/src/partition.rs:101-107, [BlockStatus::to_str]. *)
Definition status_to_str (s : BlockStatus) : bytes :=
  match s with Idle => str "idle" | Pending => str "IO pending" end.

(** ** Devices *)

(** [RefCell]: its contents and whether a [RefMut] of it is alive. *)
Record RefCell (A : Type) := mkCell { cell_value : A; cell_borrowed : bool }.
Arguments mkCell {A}.
Arguments cell_value {A}.
Arguments cell_borrowed {A}.
Definition cell {A} (a : A) : RefCell A := mkCell a false.
(** [try_borrow_mut().map_err(|_| Error::NotReady)], of a borrow that ends with
    the call. *)
Definition try_borrow_mut {A} (c : RefCell A) : result A :=
  if cell_borrowed c then Err NotReady else Ok (cell_value c).

(** gbl/libgbl/src/partition.rs:110-122, [GblDisk]. *)
Record GblDisk (D : Type) := mkGblDisk {
  gd_disk : RefCell (Disk D);
  gd_partitions : RefCell PartitionTable;
  gd_info_cache : BlockInfo;
}.
Arguments mkGblDisk {D}.
Arguments gd_disk {D}.
Arguments gd_partitions {D}.
Arguments gd_info_cache {D}.

(** gbl/libgbl/src/partition.rs:282-287, [PartitionIo]. *)
Record PartitionIo (D : Type) := mkPartIo { pio_disk : Disk D; part_start : Z; part_end : Z }.
Arguments mkPartIo {D}.
Arguments pio_disk {D}.
Arguments part_start {D}.
Arguments part_end {D}.

Section Devices.
Context {D : Type} `{!BlockIo D}.
Implicit Types d : GblDisk D.

(** gbl/libgbl/src/partition.rs:130-134, [GblDisk::new_gpt]. *)
Definition new_gpt (disk : Disk D) (gpt : Gpt) : GblDisk D :=
  mkGblDisk (cell disk) (cell (GptTable gpt)) (disk_block_info disk).

(** gbl/libgbl/src/partition.rs:136-144, [GblDisk::new_raw]. *)
Definition new_raw (disk : Disk D) (name : bytes) : result (GblDisk D) :=
  let info_cache := disk_block_info disk in
  n ← raw_name_new name;
  size ← total_size info_cache;
  Ok (mkGblDisk (cell disk) (cell (RawTable n size)) info_cache).

(** gbl/libgbl/src/partition.rs:146-149, [GblDisk::block_info]. *)
Definition gd_block_info d : BlockInfo := gd_info_cache d.

(** gbl/libgbl/src/partition.rs:151-157, [GblDisk::status]. *)
Definition gd_status d : BlockStatus := if cell_borrowed (gd_disk d) then Pending else Idle.

(** gbl/libgbl/src/partition.rs:172-188, [GblDisk::find_partition]. *)
Definition gd_find_partition d (part : option (list Z)) : result GblPartition :=
  match part with
  | None =>
      n ← unwrap_res (raw_name_new []);
      size ← total_size (gd_info_cache d);
      Ok (RawPartition n size)
  | Some part =>
      t ← try_borrow_mut (gd_partitions d);
      match t with
      | GptTable gpt => p ← find_partition gpt part; Ok (GptPartition p)
      | RawTable name size =>
          s ← raw_name_to_str name;
          if bool_decide (s = part) then Ok (RawPartition name size) else Err NotFound
      end
  end.

(** gbl/libgbl/src/partition.rs:190-196, [GblDisk::num_partitions]. *)
Definition gd_num_partitions d : result Z :=
  t ← try_borrow_mut (gd_partitions d);
  match t with RawTable _ _ => Ok 1 | GptTable gpt => num_partitions gpt end.

(** gbl/libgbl/src/partition.rs:198-205, [GblDisk::get_partition_by_idx]. *)
Definition gd_get_partition_by_idx d (idx : Z) : result GblPartition :=
  t ← try_borrow_mut (gd_partitions d);
  match t with
  | RawTable name v => if idx =? 0 then Ok (RawPartition name v) else Err InvalidInput
  | GptTable gpt => p ← get_partition gpt idx; Ok (GptPartition p)
  end.

(** gbl/libgbl/src/partition.rs:159-162, [GblDisk::get_disk]: the disk, and the device
    with its cell borrowed. *)
Definition gd_get_disk d : result (Disk D * GblDisk D) :=
  k ← try_borrow_mut (gd_disk d);
  Ok (k, mkGblDisk (mkCell k true) (gd_partitions d) (gd_info_cache d)).

(** gbl/libgbl/src/partition.rs:164-170, [GblDisk::partition_io]: the device stays
    borrowed until the [PartitionIo] is dropped. *)
Definition partition_io d (part : option (list Z)) : result (PartitionIo D * GblDisk D) :=
  p ← gd_find_partition d part;
  '(start, end_) ← part_absolute_range p;
  '(k, d) ← gd_get_disk d;
  Ok (mkPartIo k start end_, d).

(** The end of the borrow. *)
Definition drop_io (io : PartitionIo D) d : GblDisk D :=
  mkGblDisk (cell (pio_disk io)) (gd_partitions d) (gd_info_cache d).

(** ** Partition IO *)

(** gbl/libgbl/src/partition.rs:290-294, [PartitionIo::size]. *)
Definition pio_size (io : PartitionIo D) : result Z := unwrap (checked 64 (part_end io - part_start io)).

(** gbl/libgbl/src/partition.rs:301-310, [PartitionIo::check_rw_range]. *)
Definition check_rw_range (io : PartitionIo D) (off size : Z) : result Z :=
  let ab_range_end := Val (part_start io) +! Val off +! Val size in
  map_err (λ _, OutOfRange)
    (into_u64 (Val (part_end io) -! ab_range_end);;
     into_u64 (Val (part_start io) +! Val off)).

(** An operation on the disk of a [PartitionIo] and the caller's buffer. *)
Definition on_pio {A} (m : ST (Disk D * bytes) Error A) : ST (PartitionIo D * bytes) Error A :=
  zoom (λ s, (pio_disk (fst s), snd s))
       (λ t s, (mkPartIo (fst t) (part_start (fst s)) (part_end (fst s)), snd t)) m.

(** gbl/libgbl/src/partition.rs:312-315, [PartitionIo::write]. *)
Definition pio_write (addr off : Z) : ST (PartitionIo D * bytes) Error unit :=
  '(io, data) ← gets id;
  pos ← lift (check_rw_range io off (zlen data));
  on_pio (disk_write addr pos).

(** gbl/libgbl/src/partition.rs:317-324, [PartitionIo::read]. *)
Definition pio_read (addr off : Z) : ST (PartitionIo D * bytes) Error unit :=
  '(io, out) ← gets id;
  pos ← lift (check_rw_range io off (zlen out));
  on_pio (disk_read addr pos).

(** gbl/libgbl/src/partition.rs:326-329, [PartitionIo::zeroize]: with the caller's
    scratch buffer at [addr]. [Ok false] says that the fuel did not suffice. *)
Definition pio_zeroize (fuel : nat) (addr : Z) : ST (PartitionIo D * bytes) Error bool :=
  io ← gets fst;
  size ← lift (pio_size io);
  on_pio (disk_fill fuel addr (part_start io) size 0).

(** gbl/libgbl/src/partition.rs:348-357, [(u64, &mut Disk<B, S>)]: the writer of sparse
    images. *)
#[export] Instance disk_writer : SparseRawWriter (Z * Disk D) := λ addr off s,
  let '((base, k), data) := s in
  match into_u64 (Val off +! Val base) with
  | Ok pos => let '(r, (k, data)) := disk_write addr pos (k, data) in (r, ((base, k), data))
  | Err e => (Err e, s)
  | Panic => (Panic, s)
  end.

(** gbl/libgbl/src/partition.rs:331-336, [PartitionIo::write_sparse]: of the image at
    [addr]. [Ok false] says that the fuel did not suffice. *)
Definition pio_write_sparse (fuel : nat) (addr off : Z) : ST (PartitionIo D * bytes) Error bool :=
  '(io, img) ← gets id;
  h ← lift (map_err (λ _, InvalidInput) (is_sparse_image img));
  sz ← lift (data_size h);
  pos ← lift (check_rw_range io off sz);
  r ← on_pio (zoom (λ s, ((pos, fst s), snd s)) (λ t _, (snd (fst t), snd t))
                (write_sparse_image fuel addr));
  mret (bool_decide (r ≠ None)).

(** gbl/libgbl/src/partition.rs:338-345, [PartitionIo::sub]. *)
Definition pio_sub (io : PartitionIo D) (off sz : Z) : result (PartitionIo D) :=
  check_rw_range io off sz;;
  start ← arith 64 (part_start io + off);
  end_ ← arith 64 (start + sz);
  Ok (mkPartIo (pio_disk io) start end_).

(** [self.partition_io(part)?] used for one operation and dropped. *)
Definition with_io {A} (part : option (list Z)) (m : ST (PartitionIo D * bytes) Error A)
    : ST (GblDisk D * bytes) Error A := λ s,
  match partition_io (fst s) part with
  | Ok (io, d) => let '(r, (io, b)) := m (io, snd s) in (r, (drop_io io d, b))
  | Err e => (Err e, s)
  | Panic => (Panic, s)
  end.
End Devices.

(** ** GPT operations *)

Section GptOps.
Context {D : Type} `{!BlockIo D} `{!Hasher} `{!UnstableSort}.

(** A call that borrows the table and the disk; [other] is its answer for a raw
    device. *)
Definition with_gpt {A} (other : result A) (m : ST (Gpt * Disk D) Error A) : ST (GblDisk D) Error A :=
  d ← gets id;
  t ← lift (try_borrow_mut (gd_partitions d));
  match t with
  | RawTable _ _ => lift other
  | GptTable gpt =>
      blk ← lift (try_borrow_mut (gd_disk d));
      zoom (λ _, (gpt, blk))
        (λ t d, mkGblDisk (cell (snd t)) (cell (GptTable (fst t))) (gd_info_cache d)) m
  end.

(** gbl/libgbl/src/partition.rs:207-223, [GblDisk::sync_gpt]. *)
Definition gd_sync_gpt : ST (GblDisk D) Error (option GptSyncResult) :=
  with_gpt (Ok None) (r ← sync_gpt; mret (Some r)).

(** gbl/libgbl/src/partition.rs:225-246, [GblDisk::update_gpt]. *)
Definition gd_update_gpt (resize : bool) (addr : Z) (mbr_primary : bytes) : ST (GblDisk D) Error unit :=
  with_gpt (Err Unsupported) (disk_update_gpt resize addr mbr_primary).

(** gbl/libgbl/src/partition.rs:248-262, [GblDisk::erase_gpt]. *)
Definition gd_erase_gpt (fuel : nat) : ST (GblDisk D) Error bool :=
  with_gpt (Err Unsupported) (disk_erase_gpt fuel).

(** gbl/libgbl/src/partition.rs:264-279, [GblDisk::gpt_builder]: a builder holds both
    borrows. *)
Definition gd_gpt_builder : ST (GblDisk D) Error unit :=
  with_gpt (Err Unsupported) (builder_new;; mret tt);;
  modify (λ d, mkGblDisk (mkCell (cell_value (gd_disk d)) true)
                 (mkCell (cell_value (gd_partitions d)) true) (gd_info_cache d)).
End GptOps.

(** ** Several devices *)

Section Many.
Context {D : Type} `{!BlockIo D}.

(** gbl/libgbl/src/partition.rs:359-378, [check_part_unique]: the next [n] items of the
    iterator [filtered], which is at the device of index [i]. *)
Fixpoint having (n : nat) (i : Z) (devs : list (GblDisk D)) (part : list Z)
    : result (list (Z * GblPartition)) :=
  match devs, n with
  | [], _ | _, O => Ok []
  | d :: devs, S n' =>
      r ← res_ok (gd_find_partition d (Some part));
      match r with
      | Some p => rest ← having n' (i + 1) devs part; Ok ((i, p) :: rest)
      | None => having n (i + 1) devs part
      end
  end.

(** gbl/libgbl/src/partition.rs:359-378, [check_part_unique]. *)
Definition check_part_unique (devs : list (GblDisk D)) (part : list Z) : result (Z * GblPartition) :=
  filtered ← having 2 0 devs part;
  match filtered with
  | [v] => Ok v
  | _ :: _ => Err NotUnique
  | [] => Err NotFound
  end.

(** [devs[idx]], for one operation. *)
Definition on_dev {A} (idx : Z) (m : ST (GblDisk D * bytes) Error A)
    : ST (list (GblDisk D) * bytes) Error A := λ s,
  match fst s !! Z.to_nat idx with
  | None => (Panic, s)
  | Some d => let '(r, (d, b)) := m (d, snd s) in (r, (<[Z.to_nat idx := d]> (fst s), b))
  end.

(** gbl/libgbl/src/partition.rs:380-391, [read_unique_partition]. *)
Definition read_unique_partition (part : list Z) (addr off : Z) : ST (list (GblDisk D) * bytes) Error unit :=
  devs ← gets fst;
  '(idx, _) ← lift (check_part_unique devs part);
  on_dev idx (with_io (Some part) (pio_read addr off)).

(** gbl/libgbl/src/partition.rs:393-404, [write_unique_partition]. *)
Definition write_unique_partition (part : list Z) (addr off : Z) : ST (list (GblDisk D) * bytes) Error unit :=
  devs ← gets fst;
  '(idx, _) ← lift (check_part_unique devs part);
  on_dev idx (with_io (Some part) (pio_write addr off)).
End Many.

(** gbl/libgbl/src/partition.rs:406-417, [sync_gpt]: the devices before the first that
    fails are synced. *)
Fixpoint sync_gpts {D : Type} `{!BlockIo D} `{!Hasher} `{!UnstableSort} (devs : list (GblDisk D))
    : result unit * list (GblDisk D) :=
  match devs with
  | [] => (Ok tt, [])
  | d :: devs =>
      match gd_sync_gpt d with
      | (Ok _, d) => let '(r, devs) := sync_gpts devs in (r, d :: devs)
      | (Err e, d) => (Err e, d :: devs)
      | (Panic, d) => (Panic, d :: devs)
      end
  end.
