(* ===== verification/PartitionProps.v ===== *)
(** * libgbl: properties of devices and partitions

    Reads and writes through a [PartitionIo] stay in the partition, sparse
    images are written as their chunks say, and an outstanding borrow keeps
    every other user of the device out. *)

From S2P Require Import Prelude SafeMath LibError Text Block BlockSpec BlockRead.
From S2P Require Import BlockWrite Disk.
From S2P Require Import Crc GptData Gpt GptBuild GptCheck GptProps GptSync Sparse SparseProps.
From S2P Require Import Partition.
Import SafeNum.

Section Io.
Context {D : Type} `{!BlockIo D} `{!BlockIoSpec D}.
Implicit Types (io : PartitionIo D) (C : bytes).

(** A [PartitionIo] for a range of a disk that holds [C]. *)
Record pio_ok (i : BlockInfo) C io : Prop := {
  po_disk : disk_ok i C (pio_disk io);
  po_range : 0 ≤ part_start io ≤ part_end io;
  po_end : part_end io ≤ zlen C;
}.

Lemma check_rw_range_val io off size :
  0 ≤ part_start io ≤ part_end io → part_end io < 2 ^ 64 → 0 ≤ off → 0 ≤ size →
  check_rw_range io off size =
    if decide (part_start io + off + size ≤ part_end io) then Ok (part_start io + off)
    else Err OutOfRange.
Proof.
  intros Hr He Ho Hs. unfold check_rw_range. case_decide as Hd.
  - by rewrite !sn_add, sn_sub, !into_u64_val by (unfold u64_ok; lia).
  - destruct (decide (part_start io + off < 2 ^ 64)).
    + rewrite (sn_add _ off) by (unfold u64_ok; lia).
      destruct (decide (part_start io + off + size < 2 ^ 64)).
      * rewrite sn_add by (unfold u64_ok; lia).
        by rewrite (sn_sub_over (part_end io) (part_start io + off + size)) by (unfold u64_ok; lia).
      * by rewrite (sn_add_over (part_start io + off) size) by (unfold u64_ok; lia).
    + by rewrite (sn_add_over (part_start io) off) by (unfold u64_ok; lia).
Qed.

Lemma pio_len i C io : pio_ok i C io → zlen C < 2 ^ 63.
Proof. intros [Hd _ _]. pose proof (room i C (do_info _ _ _ Hd)). pose proof (bs_pos i C (do_info _ _ _ Hd)). lia. Qed.

(** What a write that is allowed does, and what one that is not does. *)
Lemma pio_write_cases i C io data addr off :
  pio_ok i C io → buffer_ok i addr (zlen data) → 0 ≤ off →
  wp (pio_write addr off) (io, data)
    (λ _ s, part_start io + off + zlen data ≤ part_end io ∧ snd s = data ∧
            part_start (fst s) = part_start io ∧ part_end (fst s) = part_end io ∧
            pio_ok i (splice C (part_start io + off) data) (fst s) ∧
            (disk_quiet (pio_disk io) → disk_quiet (pio_disk (fst s))))
    (λ e s, (e = OutOfRange ∧ part_end io < part_start io + off + zlen data ∧ s = (io, data)) ∨
            (¬ disk_quiet (pio_disk io) ∧ part_start io + off + zlen data ≤ part_end io ∧ snd s = data ∧
             ∃ C', pio_ok i C' (fst s) ∧ same_outside (hull_lo i (part_start io + off))
                     (hull_hi i (part_start io + off) (zlen data)) C C')).
Proof.
  intros Hp Hb Ho. pose proof (pio_len _ _ _ Hp). destruct Hp as [Hd Hr He].
  unfold pio_write. apply wp_bind, wp_gets. cbv [id]. apply wp_bind, wp_lift.
  rewrite check_rw_range_val by lia. case_decide as Hc; [|left; split_and!; [done|lia|done]].
  unfold on_pio. apply wp_zoom. cbn [fst snd].
  eapply wp_mono; [apply (disk_write_spec i C (pio_disk io) data addr (part_start io + off) Hd Hb); lia|..].
  - intros _ s (Hs & Hq & Hdat). cbn [fst snd pio_disk part_start part_end]. split_and!; try done.
    split; [done|done|]. rewrite length_splice by lia. done.
  - intros e s ((C' & Hs & Hso) & Hq & Hdat). right. cbn [fst snd]. split_and!; try done.
    exists C'. split; [|done]. split; [done|done|]. cbn. by rewrite (so_length _ _ _ _ Hso).
Qed.

Lemma pio_read_cases i C io out addr off :
  pio_ok i C io → buffer_ok i addr (zlen out) → 0 ≤ off →
  wp (pio_read addr off) (io, out)
    (λ _ s, part_start io + off + zlen out ≤ part_end io ∧
            part_start (fst s) = part_start io ∧ part_end (fst s) = part_end io ∧
            snd s = slice C (part_start io + off) (zlen out) ∧ pio_ok i C (fst s))
    (λ e s, (e = OutOfRange ∧ part_end io < part_start io + off + zlen out ∧ s = (io, out)) ∨
            (¬ disk_quiet (pio_disk io) ∧ pio_ok i C (fst s) ∧ length (snd s) = length out)).
Proof.
  intros Hp Hb Ho. pose proof (pio_len _ _ _ Hp). destruct Hp as [Hd Hr He].
  unfold pio_read. apply wp_bind, wp_gets. cbv [id]. apply wp_bind, wp_lift.
  rewrite check_rw_range_val by lia. case_decide as Hc; [|left; split_and!; [done|lia|done]].
  unfold on_pio. apply wp_zoom. cbn [fst snd].
  eapply wp_mono; [apply (disk_read_spec i C (pio_disk io) out addr (part_start io + off) Hd Hb); lia|..].
  - intros _ s (Hs & Hq & Hdat). cbn [fst snd pio_disk part_start part_end]. by split_and!.
  - intros e s (Hs & Hq & Hdat). right. cbn [fst snd]. by split_and!.
Qed.

(** ** Sparse images *)

(** The storage a flash offset starts at: behind the bytes [P] of the disk. *)
Definition disk_writer_spec (i : BlockInfo) (P : bytes) : SparseWriterSpec (Z * Disk D).
Proof.
  refine {| sw_holds := λ lim w m,
    lim + alignment i < 2 ^ 64 ∧ fst w = zlen P ∧ calm i (P ++ m) (snd w) |}.
  intros lim [base k] m addr off data (Hlim & Hb & Hk) Ha Hal Ho Hl. cbn [fst snd] in *. subst base.
  pose proof Hk as [Hd _]. pose proof (room i _ (do_info _ _ _ Hd)). pose proof (bs_pos i _ (do_info _ _ _ Hd)).
  unfold sw_write, disk_writer. rewrite length_app in *.
  rewrite sn_add, into_u64_val by (unfold u64_ok; lia).
  destruct (write_run i (P ++ m) k data addr (off + zlen P)) as (k' & -> & Hk'); [done|split; lia|lia|rewrite length_app; lia|].
  exists (zlen P, k'). split; [done|]. split_and!; [done|done|]. cbn [snd].
  replace (P ++ splice m off data) with (splice (P ++ m) (off + zlen P) data); [done|]. list_ext.
Defined.

(** What an image of the chunks [cs] at [pos] makes of a disk that holds [C]. *)
Definition flashed (blk : Z) (cs : list chunk) (pos : Z) (C : bytes) : bytes :=
  take (Z.to_nat pos) C ++ expand blk 0 cs (drop (Z.to_nat pos) C).

Lemma pio_write_sparse_run i C io blk total_blks checksum cs tail addr off fuel :
  let img := encode_image blk total_blks checksum cs tail in
  let pos := part_start io + off in
  pio_ok i C io → disk_quiet (pio_disk io) → 0 ≤ addr → addr + zlen img + alignment i < 2 ^ 64 →
  0 < blk < 2 ^ 32 → blk mod 4 = 0 → u32_ok total_blks → u32_ok checksum → u32_ok (zlen cs) →
  Forall (wf_chunk blk) cs → total_len blk cs ≤ Z.of_nat fuel → zlen img < 2 ^ 63 → 0 ≤ off →
  pos + total_blks * blk ≤ part_end io → pos + total_len blk cs ≤ zlen C →
  ∃ k' img', pio_write_sparse fuel addr off (io, img) =
               (Ok true, (mkPartIo k' (part_start io) (part_end io), img')) ∧
             calm i (flashed blk cs pos C) k'.
Proof.
  intros img pos Hp Hq Ha Hal Hblk Hblk4 Ht Hck Hn Hcs Hf Himg Ho Hpart HC.
  pose proof (pio_len _ _ _ Hp). destruct Hp as [Hd Hr He].
  unfold pio_write_sparse. rewrite bind_run. cbv [gets id]. rewrite bind_run, lift_run.
  unfold img, encode_image at 1. rewrite header_decode by (unfold u32_ok; lia || done). cbn [map_err].
  rewrite bind_run, lift_run. unfold data_size. cbn [sh_total_blks sh_blk_sz].
  unfold u32_ok in *. rewrite arith_ok by nia. rewrite bind_run, lift_run, check_rw_range_val by nia.
  rewrite decide_True by done. fold pos img.
  rewrite bind_run. unfold on_pio, zoom at 1. cbn [fst snd]. unfold zoom at 1. cbn [fst snd].
  set (P := take (Z.to_nat pos) C). assert (zlen P = pos) as HP.
  { unfold P. rewrite length_take. pose proof (total_len_nonneg blk Hblk cs Hcs). lia. }
  destruct (@write_sparse_run _ _ (disk_writer_spec i P) (addr + zlen img) blk total_blks checksum cs tail
    (pos, pio_disk io) (drop (Z.to_nat pos) C) addr fuel) as (w' & img' & Hrun & Hw); try done.
  - split_and!; [lia|done|]. cbn [snd]. unfold P. by rewrite take_drop.
  - rewrite length_drop. unfold P in HP. rewrite length_take in HP. lia.
  - rewrite length_drop. lia.
  - destruct Hw as (_ & _ & Hw). fold img in Hrun. rewrite Hrun. by exists (snd w'), img'.
Qed.

(** The chunks change no byte but those they stand for. *)
Lemma expand_same blk cs off m :
  0 < blk < 2 ^ 32 → blk mod 4 = 0 → Forall (wf_chunk blk) cs → 0 ≤ off → off + total_len blk cs ≤ zlen m →
  same_outside off (off + total_len blk cs) m (expand blk off cs m).
Proof.
  intros Hblk Hblk4 Hcs. revert off m. induction Hcs as [|c cs Hc Hcs IH]; intros off m Ho Hl; cbn [expand total_len] in *.
  { apply same_outside_refl. }
  pose proof (chunk_len_nonneg blk Hblk c Hc). pose proof (total_len_nonneg blk Hblk cs Hcs).
  assert (Hl1 := expand1_length blk Hblk Hblk4 c off m Hc Ho ltac:(lia)).
  eapply same_outside_trans.
  - assert (same_outside off (off + chunk_len blk c) m (expand1 blk off c m)) as Hs.
    { destruct (expand1_data blk Hblk Hblk4 c off Hc) as [->|(d & Hd & ->)]; [apply same_outside_refl|].
      rewrite <- Hd. apply same_outside_splice; lia. }
    eapply same_outside_mono; [exact Hs|lia|lia].
  - eapply same_outside_mono; [apply IH; lia|lia|lia].
Qed.

Lemma flashed_same blk cs pos C :
  0 < blk < 2 ^ 32 → blk mod 4 = 0 → Forall (wf_chunk blk) cs → 0 ≤ pos → pos + total_len blk cs ≤ zlen C →
  same_outside pos (pos + total_len blk cs) C (flashed blk cs pos C).
Proof.
  intros Hblk Hblk4 Hcs Hp Hl. pose proof (total_len_nonneg blk Hblk cs Hcs).
  destruct (expand_same blk cs 0 (drop (Z.to_nat pos) C) Hblk Hblk4 Hcs) as [Hl' Hs]; [lia|rewrite length_drop; lia|].
  split; [unfold flashed; rewrite length_app, Hl', length_take, length_drop; lia|]. intros k Hk. unfold flashed. rewrite lookup_app_decide, length_take.
  case_decide.
  - rewrite lookup_take_decide. case_decide; [done|lia].
  - rewrite Hs by lia. rewrite lookup_drop. f_equal. lia.
Qed.
End Io.

(** ** Devices *)

Section Device.
Context {D : Type} `{!BlockIo D} `{!BlockIoSpec D} `{!Hasher}.
Implicit Types (d : GblDisk D) (C : bytes).

(** A partition table of a device of geometry [i]: the whole device, or a GPT
    that has been validated or not been loaded. *)
Definition table_ok (i : BlockInfo) (t : PartitionTable) : Prop :=
  match t with
  | RawTable name size => is_ok (raw_name_to_str name) = true ∧ size = block_size i * num_blocks i
  | GptTable g => lb_block_size (gpt_load g) = None ∨ ∃ h, loaded i h g
  end.

Record device_ok (i : BlockInfo) C d : Prop := {
  dv_info : gd_info_cache d = i;
  dv_disk : disk_ok i C (cell_value (gd_disk d));
  dv_table : table_ok i (cell_value (gd_partitions d));
}.

(** Whole blocks of the device. *)
Definition block_range (i : BlockInfo) C (a b : Z) : Prop :=
  0 ≤ a ≤ b ∧ b ≤ zlen C ∧ a mod block_size i = 0 ∧ b mod block_size i = 0.

Lemma entry_block_range i h C e :
  info_ok i C → geometry_ok i → header_valid i h true → entry_valid h e → block_range i C (lo i e) (hi i e).
Proof.
  intros Hi Hg Hh He. destruct (entry_bounds i h true Hg Hh e He) as (? & _ & _ & _ & _ & _ & _ & _ & ? & ? & ?).
  pose proof (ik_total i C Hi). unfold block_range, lo, hi. split_and!; try lia.
  - by apply Z.mod_mul; lia.
  - by apply Z.mod_mul; lia.
Qed.

Lemma total_size_val i C : info_ok i C → total_size i = Ok (zlen C).
Proof.
  intros Hi. pose proof (room i C Hi). pose proof (bs_pos i C Hi). unfold total_size.
  pose proof (ik_total i C Hi) as Ht. by rewrite sn_mul, into_u64_val, <- Ht by (unfold u64_ok; lia).
Qed.

Lemma find_partition_cases i C d part :
  device_ok i C d →
  match gd_find_partition d part with
  | Ok p => ∃ a b, part_absolute_range p = Ok (a, b) ∧ block_range i C a b
  | Err _ => True
  | Panic => False
  end.
Proof.
  intros [Hinfo Hd Ht]. pose proof (do_info _ _ _ Hd) as Hi. pose proof (bs_pos i C Hi).
  assert (Hall : block_range i C 0 (zlen C)).
  { unfold block_range. split_and!; try lia.
    - apply Z.mod_0_l. lia.
    - rewrite (ik_total i C Hi), Z.mul_comm. apply Z.mod_mul. lia. }
  destruct part as [part|]; simpl.
  - unfold try_borrow_mut. destruct (cell_borrowed _); simpl; [done|].
    destruct (cell_value (gd_partitions d)) as [name size|g]; simpl in Ht.
    + destruct Ht as [Hn ->]. destruct (raw_name_to_str name); try done. simpl. case_bool_decide; [|done].
      eexists _, _. split; [done|]. by rewrite <- (ik_total i C Hi).
    + destruct Ht as [Hno|[h Hl]].
      * unfold find_partition, check_valid. by rewrite Hno.
      * destruct Hl as [Hs Hg Hh HF _]. unfold find_partition, gpt_entries, check_valid. rewrite Hs. simpl.
        pose proof (find_entry_cases part (block_size i) (active (entries_ref Primary g))) as Hc.
        destruct (find_entry _ _ _) as [p| |]; try done. destruct Hc as (e & He & -> & _). simpl.
        rewrite Forall_forall in HF. specialize (HF e He).
        exists (lo i e), (hi i e). split; [|by eapply entry_block_range].
        eapply absolute_range_val; try done. pose proof (ik_room i C Hi). rewrite (ik_total i C Hi) in *. lia.
  - rewrite Hinfo, (total_size_val i C Hi). simpl. by eexists _, _.
Qed.

(** The cells of an idle device. *)
Lemma device_eta d :
  cell_borrowed (gd_disk d) = false →
  mkGblDisk (cell (cell_value (gd_disk d))) (gd_partitions d) (gd_info_cache d) = d.
Proof. destruct d as [[] ? ?]. simpl. by intros ->. Qed.

(** A device after IO on it: the disk has changed, the table has not. *)
Definition with_disk d (k : Disk D) : GblDisk D := mkGblDisk (cell k) (gd_partitions d) (gd_info_cache d).

Lemma with_disk_ok i C C' d k : device_ok i C d → disk_ok i C' k → device_ok i C' (with_disk d k).
Proof. intros [? ? ?] ?. by split. Qed.

Lemma with_io_cases {A} i C d part (m : ST (PartitionIo D * bytes) Error A) b Q X :
  device_ok i C d →
  (∀ e, X e (d, b)) →
  (∀ p lo hi, gd_find_partition d part = Ok p → part_absolute_range p = Ok (lo, hi) →
     block_range i C lo hi → cell_borrowed (gd_disk d) = false →
     wp m (mkPartIo (cell_value (gd_disk d)) lo hi, b)
       (λ a s, Q a (with_disk d (pio_disk (fst s)), snd s))
       (λ e s, X e (with_disk d (pio_disk (fst s)), snd s))) →
  wp (with_io part m) (d, b) Q X.
Proof.
  intros Hd HX Hm. pose proof (find_partition_cases i C d part Hd) as Hf.
  unfold wp at 1, with_io, partition_io. cbn [fst snd].
  destruct (gd_find_partition d part) as [p|e|] eqn:Ep; simpl; [|by apply HX|done].
  destruct Hf as (lo & hi & Hr & Hb). rewrite Hr. simpl. unfold gd_get_disk, try_borrow_mut.
  destruct (cell_borrowed (gd_disk d)) eqn:Eb; simpl; [by apply HX|].
  specialize (Hm p lo hi eq_refl Hr Hb eq_refl). unfold wp in Hm.
  destruct (m (mkPartIo (cell_value (gd_disk d)) lo hi, b)) as [[] [io b']]; exact Hm.
Qed.

(** ** Unique partitions *)

(** The devices that have a partition, with their index. *)
Fixpoint holders (i : Z) (devs : list (GblDisk D)) (part : list Z) : list (Z * GblPartition) :=
  match devs with
  | [] => []
  | d :: devs => match gd_find_partition d (Some part) with
                 | Ok p => [(i, p)]
                 | _ => []
                 end ++ holders (i + 1) devs part
  end.

Definition devices_ok (devs : list (GblDisk D)) : Prop := Forall (λ d, ∃ i C, device_ok i C d) devs.

Lemma having_holders n i devs part :
  devices_ok devs → having n i devs part = Ok (take n (holders i devs part)).
Proof.
  intros Hd. revert n i. induction Hd as [|d devs (bi & C & Hd) _ IH]; intros n i; [by destruct n|].
  cbn [having holders]. destruct n as [|n]; [done|].
  pose proof (find_partition_cases bi C d (Some part) Hd).
  destruct (gd_find_partition d (Some part)) as [p| |]; try done; cbn [res_ok mbind outcome_bind app].
  - by rewrite IH.
  - by rewrite IH.
Qed.

Lemma holders_elem i devs part j p :
  (j, p) ∈ holders i devs part ↔ i ≤ j ∧ ∃ d, devs !! Z.to_nat (j - i) = Some d ∧ gd_find_partition d (Some part) = Ok p.
Proof.
  revert i. induction devs as [|d devs IH]; intros i; cbn [holders].
  - split; [by intros ?%elem_of_nil|]. intros (_ & d & Hd & _). by rewrite lookup_nil in Hd.
  - rewrite elem_of_app, IH. destruct (decide (j = i)) as [->|Hne].
    + rewrite Z.sub_diag. change (Z.to_nat 0) with O. cbn [lookup list_lookup]. split.
      * intros [Hh|[? _]]; [|lia]. destruct (gd_find_partition d (Some part)) eqn:E; try by apply elem_of_nil in Hh.
        apply list_elem_of_singleton in Hh. simplify_eq. split; [lia|]. by exists d.
      * intros (_ & ? & ? & E). simplify_eq. left. rewrite E. by left.
    + split.
      * intros [Hh|(Hj & d' & Hd & E)].
        -- destruct (gd_find_partition d (Some part)); try by apply elem_of_nil in Hh.
           apply list_elem_of_singleton in Hh. by simplify_eq.
        -- split; [lia|]. exists d'. replace (Z.to_nat (j - i)) with (S (Z.to_nat (j - (i + 1)))) by lia. done.
      * intros (Hj & d' & Hd & E). right. split; [lia|]. exists d'.
        replace (Z.to_nat (j - i)) with (S (Z.to_nat (j - (i + 1)))) in Hd by lia. done.
Qed.

(** The device at [idx] is the only one that has the partition. *)
Definition only_holder (devs : list (GblDisk D)) (part : list Z) (idx : Z) (d : GblDisk D) (p : GblPartition) : Prop :=
  devs !! Z.to_nat idx = Some d ∧ 0 ≤ idx ∧ gd_find_partition d (Some part) = Ok p ∧
  ∀ (j : nat) d', devs !! j = Some d' → is_ok (gd_find_partition d' (Some part)) = true → j = Z.to_nat idx.

Lemma is_ok_find d part : is_ok (gd_find_partition d (Some part)) = true → ∃ p, gd_find_partition d (Some part) = Ok p.
Proof. destruct (gd_find_partition d (Some part)); try done. eauto. Qed.

Lemma check_part_unique_cases devs part :
  devices_ok devs →
  match check_part_unique devs part with
  | Ok (idx, p) => ∃ d, only_holder devs part idx d p
  | Err e => (e = NotFound ∧ holders 0 devs part = []) ∨ (e = NotUnique ∧ (2 ≤ length (holders 0 devs part))%nat)
  | Panic => False
  end.
Proof.
  intros Hd. unfold check_part_unique. rewrite (having_holders 2 0 devs part Hd). simpl.
  destruct (holders 0 devs part) as [|[idx p] [|v l]] eqn:E; simpl; [by left| |right; split; [done|lia]].
  assert (Hin : (idx, p) ∈ holders 0 devs part) by (rewrite E; by left).
  apply holders_elem in Hin as (Hi & d & Hl & Hp). rewrite Z.sub_0_r in Hl. exists d. split_and!; try done.
  intros j d' Hj [p' Hp']%is_ok_find.
  assert (Hin : (Z.of_nat j, p') ∈ holders 0 devs part).
  { apply holders_elem. split; [lia|]. exists d'. by rewrite Z.sub_0_r, Nat2Z.id. }
  rewrite E in Hin. apply list_elem_of_singleton in Hin. simplify_eq. lia.
Qed.

Lemma device_write_cases i C d part p data addr off :
  device_ok i C d → gd_find_partition d (Some part) = Ok p → buffer_ok i addr (zlen data) →
  0 < zlen data → 0 ≤ off →
  wp (with_io (Some part) (pio_write addr off)) (d, data)
    (λ _ s, ∃ k lo hi, part_absolute_range p = Ok (lo, hi) ∧ lo + off + zlen data ≤ hi ∧
       s = (with_disk d k, data) ∧ device_ok i (splice C (lo + off) data) (with_disk d k))
    (λ _ s, s = (d, data) ∨ ∃ k C' lo hi, part_absolute_range p = Ok (lo, hi) ∧
       ¬ disk_quiet (cell_value (gd_disk d)) ∧ s = (with_disk d k, data) ∧
       device_ok i C' (with_disk d k) ∧ same_outside lo hi C C').
Proof.
  intros Hd Hp Hb Hn Ho. eapply (with_io_cases i C); [done|by left|].
  intros p' lo hi Hp' Hr (Hlo & Hhi & Ha & He) Hidle. assert (p' = p) as -> by congruence.
  eapply wp_mono; [apply (pio_write_cases i C); [split; [apply Hd|done|done]|done|done]|..];
    cbn [part_start part_end pio_disk].
  - intros _ [io b] (Hle & Hdat & _ & _ & [Hk _ _] & _). cbn [fst snd] in *. subst b.
    exists (pio_disk io), lo, hi. split_and!; try done. by eapply with_disk_ok.
  - intros e [io b] [(_ & _ & E)|(Hq & Hle & Hdat & C' & [Hk _ _] & Hso)]; cbn [fst snd] in *.
    + left. simplify_eq. cbn [pio_disk]. f_equal. by apply device_eta.
    + right. subst b. exists (pio_disk io), C', lo, hi. split_and!; try done; [by eapply with_disk_ok|].
      pose proof (bs_pos i C (do_info _ _ _ (dv_disk _ _ _ Hd))).
      destruct (hull_in_blocks i lo hi off (zlen data)); [done..|]. by eapply same_outside_mono.
Qed.

(** ** Properties *)

(** C7. A write to a unique partition stays in that partition, whatever the
    devices: if it succeeds, exactly one device has a partition of the name, the
    range lies in it, exactly its bytes have changed, and every other device and
    the partition tables are as they were. If it fails, then nothing has changed,
    unless the device itself failed, which can have changed bytes of the
    partition only. No call panics. *)
Theorem write_unique_partition_isolated devs part data addr off :
  devices_ok devs → 0 < zlen data → 0 ≤ off →
  (∀ d i C, d ∈ devs → device_ok i C d → buffer_ok i addr (zlen data)) →
  let target idx d lo hi := ∃ p, only_holder devs part idx d p ∧ part_absolute_range p = Ok (lo, hi) in
  wp (write_unique_partition part addr off) (devs, data)
    (λ _ s, ∃ idx d k i C lo hi, target idx d lo hi ∧ device_ok i C d ∧ lo + off + zlen data ≤ hi ∧
       s = (<[Z.to_nat idx := with_disk d k]> devs, data) ∧
       device_ok i (splice C (lo + off) data) (with_disk d k))
    (λ _ s, s = (devs, data) ∨ ∃ idx d k i C C' lo hi, target idx d lo hi ∧ device_ok i C d ∧
       ¬ disk_quiet (cell_value (gd_disk d)) ∧
       s = (<[Z.to_nat idx := with_disk d k]> devs, data) ∧
       device_ok i C' (with_disk d k) ∧ same_outside lo hi C C').
Proof.
  intros Hds Hn Ho Hbuf target. unfold write_unique_partition. apply wp_bind, wp_gets. cbn [fst].
  apply wp_bind, wp_lift. pose proof (check_part_unique_cases devs part Hds) as Hu.
  destruct (check_part_unique devs part) as [[idx p]|e|]; [|by left|done].
  destruct Hu as [d Hu]. pose proof Hu as (Hl & _ & Hp & _).
  pose proof (proj1 (Forall_lookup _ _) Hds _ _ Hl) as (i & C & Hd).
  assert (Hb := Hbuf d i C ltac:(by eapply list_elem_of_lookup_2) Hd).
  unfold on_dev, wp. cbn [fst snd]. rewrite Hl.
  assert (Hw := device_write_cases i C d part p data addr off Hd Hp Hb Hn Ho).
  unfold wp in Hw. destruct (with_io _ _ (d, data)) as [[[]|e|] [d' b]]; [..|done].
  - destruct Hw as (k & lo & hi & Ht & Hle & E & Hd'). simplify_eq. exists idx, d, k, i, C, lo, hi.
    split_and!; try done. by exists p.
  - destruct Hw as [E|(k & C' & lo & hi & Ht & Hq & E & Hd' & Hso)]; simplify_eq.
    + left. f_equal. by apply list_insert_id.
    + right. exists idx, d, k, i, C, C', lo, hi. split_and!; try done. by exists p.
Qed.

(** While an IO on a device is alive, every other use of its disk answers
    that the device is not ready and changes nothing, whatever the table, while
    the lookups of partitions go on to answer as before; a drop of the IO
    ends that. *)
Theorem busy_device `{!UnstableSort} d d' part io q fuel resize addr mbr :
  partition_io d part = Ok (io, d') →
  gd_status d = Idle ∧ gd_status d' = Pending ∧ gd_status (drop_io io d') = Idle ∧ drop_io io d' = d ∧
  (∀ io' d'', partition_io d' q ≠ Ok (io', d'')) ∧
  (∀ p r, gd_find_partition d' q = Ok p → part_absolute_range p = Ok r → partition_io d' q = Err NotReady) ∧
  gd_find_partition d' q = gd_find_partition d q ∧ gd_num_partitions d' = gd_num_partitions d ∧
  gd_get_partition_by_idx d' = gd_get_partition_by_idx d ∧
  (∀ g, gd_partitions d = cell (GptTable g) →
     gd_sync_gpt d' = (Err NotReady, d') ∧ gd_update_gpt resize addr mbr d' = (Err NotReady, d') ∧
     gd_erase_gpt fuel d' = (Err NotReady, d') ∧ gd_gpt_builder d' = (Err NotReady, d')).
Proof.
  intros HP. unfold partition_io in HP. apply bind_Ok in HP as (p & Hp & HP).
  apply bind_Ok in HP as ([lo hi] & Hr & HP). apply bind_Ok in HP as ([k d1] & Hk & HP). simplify_eq.
  unfold gd_get_disk, try_borrow_mut in Hk. destruct (cell_borrowed (gd_disk d)) eqn:Eb; [done|].
  rewrite ok_bind in Hk. simplify_eq. unfold gd_status. rewrite Eb. cbn [gd_disk cell_borrowed].
  assert (Hno : ∀ (A : Type) (f : Disk D → result A),
    (try_borrow_mut (mkCell (cell_value (gd_disk d)) true) ≫= f) = Err NotReady) by done.
  split_and!; try done.
  - exact (device_eta d Eb).
  - intros io' d''. unfold partition_io, gd_get_disk. cbn [gd_disk]. rewrite Hno. intros HE.
    apply bind_Ok in HE as (? & _ & HE). by apply bind_Ok in HE as ([] & _ & HE).
  - intros p' r Hp' Hr'. unfold partition_io. rewrite Hp', ok_bind, Hr', ok_bind. by destruct r.
  - intros g Hg. unfold gd_sync_gpt, gd_update_gpt, gd_erase_gpt, gd_gpt_builder.
    assert (Hw : ∀ (A : Type) o (m : ST (Gpt * Disk D) Error A),
      with_gpt o m (mkGblDisk (mkCell (cell_value (gd_disk d)) true) (gd_partitions d) (gd_info_cache d)) =
      (Err NotReady, mkGblDisk (mkCell (cell_value (gd_disk d)) true) (gd_partitions d) (gd_info_cache d))).
    { intros. unfold with_gpt. rewrite bind_run. cbv [gets id]. by rewrite bind_run, lift_run, Hg. }
    by rewrite bind_run, !Hw.
Qed.
End Device.

(** A sparse image whose header declares a size that fits in the partition
    is flashed exactly as its chunks say, and if the chunks are not longer than
    declared then no byte outside the partition has changed. *)
Theorem partition_write_sparse_exact {D : Type} `{!BlockIo D} `{!BlockIoSpec D}
    i C (io : PartitionIo D) blk total_blks checksum cs tail addr off fuel :
  let img := encode_image blk total_blks checksum cs tail in
  let pos := part_start io + off in
  pio_ok i C io → disk_quiet (pio_disk io) → 0 ≤ addr → addr + zlen img + alignment i < 2 ^ 64 →
  0 < blk < 2 ^ 32 → blk mod 4 = 0 → u32_ok total_blks → u32_ok checksum → u32_ok (zlen cs) →
  Forall (wf_chunk blk) cs → total_len blk cs ≤ Z.of_nat fuel → zlen img < 2 ^ 63 → 0 ≤ off →
  pos + total_blks * blk ≤ part_end io → total_len blk cs ≤ total_blks * blk →
  ∃ k' img', pio_write_sparse fuel addr off (io, img) =
               (Ok true, (mkPartIo k' (part_start io) (part_end io), img')) ∧
             calm i (flashed blk cs pos C) k' ∧
             same_outside (part_start io) (part_end io) C (flashed blk cs pos C).
Proof.
  intros img pos Hp Hq Ha Hal Hblk Hblk4 Ht Hck Hn Hcs Hf Himg Ho Hpart Hlen.
  pose proof (po_end _ _ _ Hp). pose proof (po_range _ _ _ Hp).
  destruct (pio_write_sparse_run i C io blk total_blks checksum cs tail addr off fuel) as (k' & img' & Hr & Hk);
    try done; [lia|]. exists k', img'. split_and!; [done..|].
  eapply same_outside_mono; [apply flashed_same; done || lia|lia|lia].
Qed.


(** ** Examples *)

Import RamBlockSpec.

(** A GPT device with the partitions "a" and "b" of [ex_table], and a raw one. *)
Definition ex_gpt_device : GblDisk RamBlock.RamBlockIo := new_gpt (ex_disk ex_blank) (ex_gpt ex_table).
Definition ex_raw_device : GblDisk RamBlock.RamBlockIo :=
  mkGblDisk (cell (ex_disk ex_blank))
    (cell (RawTable (str "raw" ++ replicate 69 0) (70 * 512))) ex_info.

Lemma ex_new_raw : new_raw (ex_disk ex_blank) (str "raw") = Ok ex_raw_device.
Proof.
  destruct (ex_disk_ok ex_blank ltac:(by_compute)) as [_ (_ & Hi & _) _].
  unfold new_raw, disk_block_info. by rewrite Hi.
Qed.

Lemma ex_gpt_device_ok : device_ok (H := StandardHasher) ex_info ex_blank ex_gpt_device.
Proof.
  assert (Hk := ex_disk_ok ex_blank ltac:(by_compute)).
  split; [apply Hk|exact Hk|]. right. eexists. exact ex_loaded.
Qed.
Lemma ex_raw_device_ok : device_ok (H := StandardHasher) ex_info ex_blank ex_raw_device.
Proof.
  assert (Hk := ex_disk_ok ex_blank ltac:(by_compute)).
  split; [reflexivity|exact Hk|]. split; vm_compute; reflexivity.
Qed.

(** The device that a successful write leaves behind. *)
Definition storage_of (d : GblDisk RamBlock.RamBlockIo) : bytes :=
  RamBlock.storage (disk_io (cell_value (gd_disk d))).

Lemma write_unique_partition_isolated_witness :
  let devs := [ex_raw_device; ex_gpt_device] in
  wp (write_unique_partition (str "a") 5001 3) (devs, [1; 2; 3])
    (λ _ s, storage_of <$> fst s = [ex_blank; splice ex_blank (34 * 512 + 3) [1; 2; 3]])
    (λ _ _, True).
Proof.
  intros devs. eapply wp_mono.
  - apply (write_unique_partition_isolated (H := StandardHasher) devs).
    + constructor; [eexists _, _; exact ex_raw_device_ok|].
      constructor; [eexists _, _; exact ex_gpt_device_ok|constructor].
    + reflexivity.
    + lia.
    + intros d i C Hd [_ Hk _]. assert (i = ex_info) as ->; [|split; by_compute].
      destruct Hk as [_ (_ & Hi & _) _]. rewrite <- Hi. unfold devs in Hd.
      destruct (ex_disk_ok ex_blank ltac:(by_compute)) as [_ (_ & Hx & _) _].
      apply elem_of_cons in Hd as [->|Hd]; [exact Hx|].
      apply list_elem_of_singleton in Hd as ->. exact Hx.
  - intros _ s (idx & d & k & i & C & lo & hi & (p & (Hl & Hi & Hp & Hu) & Hr) & Hd & _ & -> & Hd').
    assert (Z.to_nat idx = 1%nat) as E.
    { symmetry. apply (Hu 1%nat ex_gpt_device); [reflexivity|vm_compute; reflexivity]. }
    rewrite E in *. injection Hl as <-. cbn [fst fmap list_fmap devs insert list_insert].
    assert (Hp1 : gd_find_partition ex_gpt_device (Some (str "a"))
      = Ok (GptPartition (partition_new (ex_entry 4 34 35 (str "a")) 512))) by (vm_compute; reflexivity).
    rewrite Hp1 in Hp. injection Hp as <-.
    assert (Hr1 : part_absolute_range (GptPartition (partition_new (ex_entry 4 34 35 (str "a")) 512))
      = Ok (34 * 512, 36 * 512)) by (vm_compute; reflexivity).
    rewrite Hr1 in Hr. injection Hr as <- <-.
    pose proof (dv_disk _ _ _ Hd) as [_ (_ & _ & HC) _]. pose proof (dv_disk _ _ _ Hd') as [_ (_ & _ & HC') _].
    unfold storage_of at 1 2. cbn [with_disk gd_disk cell cell_value] in *. rewrite <- HC in HC'.
    f_equal. f_equal. exact HC'.
  - done.
Defined.

Lemma busy_device_witness :
  ∃ io d', partition_io ex_gpt_device (Some (str "a")) = Ok (io, d') ∧ gd_status d' = Pending ∧
           gd_sync_gpt (H := StandardHasher) (H0 := MergeSort) d' = (Err NotReady, d').
Proof.
  set (io := mkPartIo (ex_disk ex_blank) (34 * 512) (36 * 512)).
  set (d' := mkGblDisk (mkCell (ex_disk ex_blank) true) (gd_partitions ex_gpt_device) (gd_info_cache ex_gpt_device)).
  assert (Hio : partition_io ex_gpt_device (Some (str "a")) = Ok (io, d')).
  { unfold partition_io.
    change (gd_find_partition ex_gpt_device (Some (str "a")))
      with (Ok (GptPartition (partition_new (ex_entry 4 34 35 (str "a")) 512)) : result GblPartition).
    reflexivity. }
  pose proof (busy_device (H := StandardHasher) (H0 := MergeSort) ex_gpt_device d' (Some (str "a")) io None 0 false 0 []
    Hio) as (_ & H2 & _ & _ & _ & _ & _ & _ & _ & H3).
  exists io, d'. split; [exact Hio|]. split; [exact H2|]. apply (H3 (ex_gpt ex_table) eq_refl).
Defined.

(** A partition of two blocks of a RAM disk. *)
Definition ex_pio : PartitionIo RamBlock.RamBlockIo := mkPartIo (ex_disk ex_blank) 1024 2048.
Lemma ex_pio_ok : pio_ok ex_info ex_blank ex_pio.
Proof. split; [apply ex_disk_ok; by_compute|by_compute|by_compute]. Qed.

Lemma partition_write_sparse_exact_witness :
  ∃ k' img', pio_write_sparse 48 4096 8 (ex_pio, encode_image 8 6 0 ex_chunks [9]) =
               (Ok true, (mkPartIo k' 1024 2048, img')) ∧
             calm ex_info (flashed 8 ex_chunks 1032 ex_blank) k' ∧
             same_outside 1024 2048 ex_blank (flashed 8 ex_chunks 1032 ex_blank).
Proof.
  apply (partition_write_sparse_exact ex_info ex_blank ex_pio 8 6 0 ex_chunks [9] 4096 8 48).
  - exact ex_pio_ok.
  - vm_compute. reflexivity.
  - lia.
  - vm_compute. reflexivity.
  - lia.
  - reflexivity.
  - split; [discriminate|reflexivity].
  - split; [discriminate|reflexivity].
  - split; [discriminate|reflexivity].
  - repeat constructor; try (vm_compute; reflexivity || discriminate).
  - vm_compute. discriminate.
  - vm_compute. reflexivity.
  - lia.
  - vm_compute. discriminate.
  - vm_compute. discriminate.
Defined.

