(* ===== verification/GblOps.v ===== *)
(** * libgbl: the platform interface and what is built on it

    Models [GblOps] of src/gbl/libgbl/src/ops.rs as far as boot decisions and
    fastboot use it: the methods a platform provides as a class, the methods the
    trait provides on top of the devices, and [GblAbrOps] of
    src/gbl/libgbl/src/fuchsia_boot/mod.rs, which keeps A/B/R metadata in a
    partition. The devices are threaded beside the platform's own state. *)

From S2P Require Import Prelude SafeMath LibError Text Abr Slots Block Disk.
From S2P Require Import GptData Gpt Partition.

(** gbl/libgbl/src/ops.rs:42-49, [Os]. *)
Inductive Os := Android | Fuchsia.

(** gbl/libgbl/src/ops.rs:51-62, [RebootReason]. *)
Inductive RebootReason := RNormal | RBootloader | RFastbootD | RRecovery.

(** gbl/libgbl/src/ops.rs:71-425, [GblOps]: the methods a platform has to provide.
    [reboot] is not expected to return. A variable's value is written into the
    caller's buffer; the visitor of all variables is given as the list of what
    it is called with. *)
Class GblOps (G : Type) := {
  should_stop_in_fastboot : ST G Error bool;
  platform_reboot : G → G;
  expected_os : ST G Error (option Os);
  get_current_slot : ST G Error Slot;
  get_next_slot : bool → ST G Error Slot;
  platform_set_active_slot : Z → ST G Error unit;
  get_reboot_reason : ST G Error RebootReason;
  fastboot_variable : bytes → list bytes → ST (G * bytes) Error Z;
  fastboot_visit_all_variables : G → list (list bytes * bytes) * result unit * G;
}.

Section Devices.
Context {D : Type} `{!BlockIo D}.
Abbreviation devices := (list (GblDisk D)).

(** gbl/libgbl/src/ops.rs:135-143, [GblOps::read_from_partition]. *)
Definition read_from_partition (part : list Z) (addr off : Z) : ST (devices * bytes) Error unit :=
  read_unique_partition part addr off.
(** gbl/libgbl/src/ops.rs:145-153, [GblOps::read_from_partition_sync]. *)
Definition read_from_partition_sync (part : list Z) (addr off : Z) : ST (devices * bytes) Error unit :=
  read_from_partition part addr off.
(** gbl/libgbl/src/ops.rs:155-163, [GblOps::write_to_partition]. *)
Definition write_to_partition (part : list Z) (addr off : Z) : ST (devices * bytes) Error unit :=
  write_unique_partition part addr off.
(** gbl/libgbl/src/ops.rs:165-173, [GblOps::write_to_partition_sync]. *)
Definition write_to_partition_sync (part : list Z) (addr off : Z) : ST (devices * bytes) Error unit :=
  write_to_partition part addr off.

(** gbl/libgbl/src/ops.rs:175-182, [GblOps::partition_size]. *)
Definition ops_partition_size (devs : devices) (part : list Z) : result (option Z) :=
  match check_part_unique devs part with
  | Ok (_, p) => n ← part_size p; Ok (Some n)
  | Err NotFound => Ok None
  | Err e => Err e
  | Panic => Panic
  end.

(** ** A/B/R metadata in a partition *)

(** gbl/libgbl/src/fuchsia_boot/mod.rs:35-35, [ABR_PARTITION_ALIASES]. *)
Definition ABR_PARTITION_ALIASES : list (list Z) := [str "durable_boot"; str "misc"].

(** gbl/libgbl/src/fuchsia_boot/mod.rs:37-46, [find_part_aliases]. *)
Fixpoint find_part_aliases (devs : devices) (aliases : list (list Z)) : result (list Z) :=
  match aliases with
  | [] => Err NotFound
  | v :: aliases =>
      match ops_partition_size devs v with
      | Ok (Some _) => Ok v
      | Panic => Panic
      | _ => find_part_aliases devs aliases
      end
  end.

(** A transfer with a buffer of its own, which ends with the call. *)
Definition with_own_buffer {A} (b : bytes) (m : ST (devices * bytes) Error unit) (f : bytes → A)
    : ST devices Error A := λ devs,
  match m (devs, b) with
  | (Ok _, (devs, b)) => (Ok (f b), devs)
  | (Err e, (devs, _)) => (Err e, devs)
  | (Panic, (devs, _)) => (Panic, devs)
  end.

(** gbl/libgbl/src/fuchsia_boot/mod.rs:51-65, [AbrOps for GblAbrOps]: the caller's
    buffer is at [addr]. *)
Definition GblAbrOps (addr : Z) : Ops devices := {|
  read_abr_metadata n :=
    devs ← gets id;
    part ← lift (find_part_aliases devs ABR_PARTITION_ALIASES);
    with_own_buffer (replicate (Z.to_nat n) 0) (read_from_partition_sync part addr 0) id;
  write_abr_metadata data :=
    devs ← gets id;
    part ← lift (find_part_aliases devs ABR_PARTITION_ALIASES);
    with_own_buffer data (write_to_partition_sync part addr 0) (λ _, tt)
|}.
End Devices.

(** ** Decisions that use the platform *)

Section Platform.
Context {D G : Type} `{!BlockIo D} `{!GblOps G} (abr_addr : Z).
Abbreviation M := (ST (list (GblDisk D) * G) Error).

Definition on_devices {A} (m : ST (list (GblDisk D)) Error A) : M A := zoom fst (λ d s, (d, snd s)) m.
Definition on_platform {A} (m : ST G Error A) : M A := zoom snd (λ g s, (fst s, g)) m.
#[local] Instance abr_ops : Ops (list (GblDisk D)) := GblAbrOps abr_addr.

(** gbl/libgbl/src/ops.rs:187-191, [GblOps::expected_os_is_fuchsia]. *)
Definition expected_os_is_fuchsia : M bool :=
  os ← on_platform expected_os;
  mret (match os with Some Fuchsia => true | _ => false end).

(** gbl/libgbl/src/ops.rs:96-106, [GblOps::reboot_recovery]: before the closure that
    reboots is returned. *)
Definition reboot_recovery : M unit :=
  f ← expected_os_is_fuchsia;
  if f : bool then on_devices (set_one_shot_recovery true) else raise Unsupported.

(** gbl/libgbl/src/ops.rs:108-118, [GblOps::reboot_bootloader]: before the closure that
    reboots is returned. *)
Definition reboot_bootloader : M unit :=
  f ← expected_os_is_fuchsia;
  if f : bool then on_devices (set_one_shot_bootloader true) else raise Unsupported.

(** gbl/libgbl/src/fuchsia_boot/mod.rs:252-282, [zircon_check_enter_fastboot]. *)
Definition zircon_check_enter_fastboot : M bool :=
  r ← attempt (on_devices get_and_clear_one_shot_bootloader);
  match r with
  | inl true => mret true
  | _ =>
      r ← attempt (on_platform should_stop_in_fastboot);
      mret (match r with inl true => true | _ => false end)
  end.

(** gbl/libgbl/src/android_boot/mod.rs:193-225, [get_boot_slot]: the suffix of the slot. *)
Definition android_get_boot_slot (mark_boot_attempt : bool) : M Z :=
  r ← attempt (on_platform get_current_slot);
  slot ← match r with
         | inr Unsupported => attempt (on_platform (get_next_slot mark_boot_attempt))
         | v => mret v
         end;
  match slot with
  | inl slot => mret (suffix slot)
  | inr Unsupported => mret 97
  | inr e => raise e
  end.
End Platform.

(** gbl/libgbl/src/fuchsia_boot/mod.rs:120-128, [zircon_part_name_aliases]. *)
Definition zircon_part_name_aliases (slot : option SlotIndex) : list bytes :=
  match slot with
  | Some SlotA => [str "zircon_a"; str "zircon-a"]
  | Some SlotB => [str "zircon_b"; str "zircon-b"]
  | Some SlotR => [str "zircon_r"; str "zircon-r"]
  | None => [str "zircon"]
  end.

(** gbl/libgbl/src/fuchsia_boot/mod.rs:130-133, [zircon_part_name]. *)
Definition zircon_part_name (slot : option SlotIndex) : bytes :=
  default [] (head (zircon_part_name_aliases slot)).

(** gbl/libgbl/src/fuchsia_boot/mod.rs:135-142, [slot_cmd_line]. *)
Definition slot_cmd_line (slot : SlotIndex) : bytes :=
  match slot with
  | SlotA => str "zvb.current_slot=a"
  | SlotB => str "zvb.current_slot=b"
  | SlotR => str "zvb.current_slot=r"
  end.
