(* ===== verification/GblOpsProps.v ===== *)
(** * libgbl: properties of the platform layer

    A/B/R metadata in a partition: the slot library on [GblAbrOps] does on the
    first 32 bytes of the partition exactly what it does on a 32-byte array, so
    that its refinement of the abstract slot machine holds on real devices. *)

From S2P Require Import Prelude SafeMath LibError Text Block BlockSpec BlockRead.
From S2P Require Import BlockWrite Disk.
From S2P Require Import Crc GptData Gpt GptCheck GptProps GptSync Sparse SparseProps Partition.
From S2P Require Import PartitionProps.
From S2P Require Import Abr AbrFormat AbrSpec AbrProps GblOps.

(** ** Simulation *)

(** Two programs on related states return the same, stay related, and what they
    return satisfies [P]. *)
Definition sim {S T E A} (R : S → T → Prop) (m : ST S E A) (n : ST T E A) (P : A → Prop) : Prop :=
  ∀ s t, R s t → fst (m s) = fst (n t) ∧ R (snd (m s)) (snd (n t)) ∧ (∀ a, fst (m s) = Ok a → P a).

Section Sim.
Context {S T E : Type} (R : S → T → Prop).

Lemma sim_ret {A} (a : A) (P : A → Prop) : P a → sim R (mret a : ST S E A) (mret a) P.
Proof. intros HP s t ?. split_and!; [done..|]. intros a' Ha. by injection Ha as <-. Qed.
Lemma sim_lift {A} (r : outcome E A) (P : A → Prop) : (∀ a, r = Ok a → P a) → sim R (lift r) (lift r) P.
Proof. by intros HP s t. Qed.
Lemma sim_raise {A} (e : E) (P : A → Prop) : sim R (raise e : ST S E A) (raise e) P.
Proof. by intros s t. Qed.
Lemma sim_bind {A B} (P : A → Prop) (m : ST S E A) n (f : A → ST S E B) g Q :
  sim R m n P → (∀ a, P a → sim R (f a) (g a) Q) → sim R (m ≫= f) (n ≫= g) Q.
Proof.
  intros Hm Hf s t HR. destruct (Hm s t HR) as (Ho & Hs & HP). rewrite !bind_run.
  destruct (m s) as [r s'], (n t) as [r' t']. simpl in *. subst r'. destruct r; [|done..].
  apply Hf; [by apply HP|done].
Qed.
Lemma sim_attempt {A} (m : ST S E A) n P :
  sim R m n P → sim R (attempt m) (attempt n) (λ x, match x with inl a => P a | inr _ => True end).
Proof.
  intros Hm s t HR. destruct (Hm s t HR) as (Ho & Hs & HP). rewrite !attempt_run.
  destruct (m s) as [r s'], (n t) as [r' t']. simpl in *. subst r'.
  destruct r; split_and!; try done; intros x Hx; injection Hx as <-; [by apply HP|done].
Qed.
Lemma sim_weaken {A} (m : ST S E A) n (P Q : A → Prop) : sim R m n P → (∀ a, P a → Q a) → sim R m n Q.
Proof. intros Hm HPQ s t HR. destruct (Hm s t HR) as (? & ? & ?). split_and!; [done..|]. eauto. Qed.
End Sim.

(** ** The slot library on any storage *)

(** The fields whose sizes the format fixes. *)
Definition shape (d : AbrData) : Prop :=
  length (magic d) = 4%nat ∧ length (reserved d) = 2%nat ∧ length (reserved2 d) = 11%nat.

Lemma serialize_shape d : shape d → zlen (fst (serialize d)) = 32.
Proof. intros (? & ? & ?). unfold serialize. cbn [fst]. rewrite !length_app, length_be_bytes. simpl length. lia. Qed.
Lemma serialize_snd_shape d : shape d → shape (snd (serialize d)).
Proof. done. Qed.
Lemma flags_shape f d : shape d → shape (set_flags f d).
Proof. done. Qed.
Lemma recovery_shape b d : shape d → shape (data_set_one_shot_recovery b d).
Proof. by destruct b. Qed.
Lemma bootloader_shape b d : shape d → shape (data_set_one_shot_bootloader b d).
Proof. by destruct b. Qed.
Lemma slot_data_mut_shape i f d d' : shape d → slot_data_mut i f d = Ok d' → shape d'.
Proof. intros Hd H. destruct i; simpl in H; simplify_eq; exact Hd. Qed.
Lemma default_shape : shape abr_default.
Proof. by_compute. Qed.
Lemma parse_shape b d : zlen b = 32 → parse b = Ok d → shape d.
Proof.
  intros Hl H. assert (Hl' : length b = 32%nat) by lia. known_length b. vm_compute in H. simplify_eq. by split.
Qed.

Section AbrSim.
Context {S T : Type} `{!Ops S, !Ops T} (R : S → T → Prop).
Hypothesis Hread : sim R (read_abr_metadata ABR_DATA_SIZE) (read_abr_metadata ABR_DATA_SIZE) (λ b, zlen b = 32).
Hypothesis Hwrite : ∀ b, zlen b = 32 → sim R (write_abr_metadata b) (write_abr_metadata b) (λ _, True).

(** What is known of a value, by its type. *)
Ltac known A :=
  lazymatch A with
  | AbrData => constr:(shape)
  | (AbrData * AbrData)%type => constr:(λ p : AbrData * AbrData, shape (fst p))
  | _ => constr:(λ _ : A, True)
  end.
(** Follows the structure of two programs that are instances of one. *)
Ltac sim_step :=
  match goal with
  | |- sim _ (mbind _ (attempt ?m)) _ _ =>
      let A := lazymatch type of m with ST _ _ ?A => A end in let P := known A in
      eapply sim_bind; [apply (sim_attempt _ _ _ P)|intros ? ?]
  | |- sim _ (mbind _ (read_abr_metadata _)) _ _ =>
      apply (sim_bind _ (λ b : bytes, zlen b = 32)); [|intros ? ?]
  | |- sim _ (mbind _ ?m) _ _ =>
      let A := lazymatch type of m with ST _ _ ?A => A end in let P := known A in
      apply (sim_bind _ P); [|intros ? ?]
  | |- sim _ (lift _) _ _ => apply sim_lift; intros ? ?
  | |- sim _ (raise _) _ _ => apply sim_raise
  | |- sim _ (mret _) _ _ => apply sim_ret
  | |- sim _ (let '(_, _) := ?x in _) _ _ => destruct x
  | |- sim _ (match ?x with _ => _ end) _ _ => destruct x eqn:?
  | |- sim _ (write_abr_metadata _) _ _ => apply Hwrite
  | |- sim _ (read_abr_metadata _) _ _ => apply Hread
  end.

Lemma deserialize_sim : sim R (deserialize (D:=S)) (deserialize (D:=T)) shape.
Proof using Hread. unfold deserialize. repeat sim_step; try done; eauto using parse_shape.
Qed.

Lemma load_metadata_sim : sim R (load_metadata (D:=S)) (load_metadata (D:=T)) (λ p, shape (fst p)).
Proof using Hread.
  unfold load_metadata. repeat (apply deserialize_sim || sim_step); simpl in *; simplify_eq;
    eauto using slot_data_mut_shape, default_shape.
Qed.

Lemma save_metadata_sim d : shape d → sim R (save_metadata (D:=S) d) (save_metadata (D:=T) d) (λ _, True).
Proof using Hwrite. intros Hd. apply Hwrite. by apply serialize_shape. Qed.

Lemma save_if_changed_sim d orig :
  shape d → sim R (save_metadata_if_changed (D:=S) d orig) (save_metadata_if_changed (D:=T) d orig) (λ _, True).
Proof using Hwrite.
  intros Hd. unfold save_metadata_if_changed. case_bool_decide; [by apply sim_ret|by apply save_metadata_sim].
Qed.

Lemma clear_shape b i d d' : shape d → clear_other_successful b i d = Ok d' → shape d'.
Proof.
  intros Hd H. unfold clear_other_successful in H. apply bind_Ok in H as (sl & _ & H).
  destruct (_ && _); [|by simplify_eq]. apply bind_Ok in H as (d1 & H1 & H2). eauto using slot_data_mut_shape.
Qed.

(** Two backends that read and write alike make the slot library behave
    alike. *)
Ltac sim_shapes :=
  cbn [fst snd] in *;
  repeat match goal with
    | H : (if ?b then _ else _) = Ok _ |- _ => destruct b
    | H : (_ ≫= _) = Ok _ |- _ => apply bind_Ok in H as (? & ? & ?)
    end; simplify_eq;
  eauto using slot_data_mut_shape, clear_shape, flags_shape, recovery_shape, bootloader_shape, serialize_snd_shape.
Ltac sim_api :=
  repeat (apply load_metadata_sim || apply save_if_changed_sim || apply save_metadata_sim || sim_step); sim_shapes.

Lemma choose_boot_slot_sim upd d orig :
  shape d → sim R (choose_boot_slot (D:=S) upd d orig) (choose_boot_slot (D:=T) upd d orig) (λ _, True).
Proof using Hread Hwrite.
  intros Hd. unfold choose_boot_slot. sim_api.
Qed.

Lemma get_boot_slot_sim upd :
  sim R (get_boot_slot (D:=S) upd) (get_boot_slot (D:=T) upd) (λ _, True).
Proof using Hread Hwrite.
  unfold get_boot_slot. repeat (apply choose_boot_slot_sim || apply load_metadata_sim || apply save_metadata_sim || sim_step);
    sim_shapes.
Qed.

Lemma run_api_sim op : sim R (run_api (D:=S) op) (run_api (D:=T) op) (λ _, True).
Proof using Hread Hwrite.
  destruct op; unfold run_api, mark_slot_active, mark_slot_unbootable, mark_slot_successful,
    set_one_shot_recovery, set_one_shot_bootloader, get_and_clear_one_shot_flag,
    get_and_clear_one_shot_bootloader; repeat (apply get_boot_slot_sim || sim_step); sim_api.
Qed.

Lemma run_trace_sim ops s t :
  R s t → fst (run_trace (D:=S) ops s) = fst (run_trace (D:=T) ops t) ∧
          R (snd (run_trace (D:=S) ops s)) (snd (run_trace (D:=T) ops t)).
Proof using Hread Hwrite.
  revert s t. induction ops as [|op ops IH]; intros s t HR; [done|]. cbn [run_trace].
  destruct (run_api_sim op s t HR) as (Ho & HR' & _).
  destruct (run_api op s) as [r s'], (run_api op t) as [r' t']. simpl in *. subst r'.
  destruct (IH s' t' HR') as [Hrs HR'']. destruct (run_trace ops s'), (run_trace ops t'). simpl in *.
  by subst.
Qed.
End AbrSim.

(** ** Metadata in a partition *)

Section OnPartition.
Context {D : Type} `{!BlockIo D} `{!BlockIoSpec D}.
Implicit Types (d : GblDisk D) (C : bytes).

(** A device that answers: it is idle, and will not fail. *)
Definition device_calm (i : BlockInfo) C d : Prop :=
  cell_borrowed (gd_disk d) = false ∧ calm i C (cell_value (gd_disk d)).

Lemma with_io_run {A} d part p lo hi (m : ST (PartitionIo D * bytes) Error A) b :
  gd_find_partition d part = Ok p → part_absolute_range p = Ok (lo, hi) → cell_borrowed (gd_disk d) = false →
  with_io part m (d, b) =
    let '(r, (io, b)) := m (mkPartIo (cell_value (gd_disk d)) lo hi, b) in (r, (with_disk d (pio_disk io), b)).
Proof.
  intros Hp Hr Hi. unfold with_io, partition_io, gd_get_disk, try_borrow_mut. cbn [fst snd].
  by rewrite Hp, ok_bind, Hr, ok_bind, Hi.
Qed.

Lemma device_read_run i C d part p lo hi out addr off :
  device_calm i C d → gd_find_partition d part = Ok p → part_absolute_range p = Ok (lo, hi) →
  0 ≤ lo ≤ hi → hi ≤ zlen C → buffer_ok i addr (zlen out) → 0 ≤ off → lo + off + zlen out ≤ hi →
  ∃ k, with_io part (pio_read addr off) (d, out) = (Ok tt, (with_disk d k, slice C (lo + off) (zlen out))) ∧ calm i C k.
Proof.
  intros [Hid Hk] Hp Hr Hlo Hhi Hb Ho Hle. pose proof (room i C (do_info _ _ _ (proj1 Hk))) as Hro.
  pose proof (bs_pos i C (do_info _ _ _ (proj1 Hk))).
  rewrite (with_io_run d part p lo hi) by done. unfold pio_read. rewrite bind_run. cbv [gets id].
  rewrite bind_run, lift_run, check_rw_range_val by (cbn; lia). cbn [part_start part_end].
  rewrite decide_True by lia. unfold on_pio, zoom. cbn [fst snd pio_disk part_start part_end].
  destruct (read_run i C (cell_value (gd_disk d)) out addr (lo + off)) as (k & -> & Hk'); [done|done|lia|lia|].
  by exists k.
Qed.

Lemma device_write_run i C d part p lo hi data addr off :
  device_calm i C d → gd_find_partition d part = Ok p → part_absolute_range p = Ok (lo, hi) →
  0 ≤ lo ≤ hi → hi ≤ zlen C → buffer_ok i addr (zlen data) → 0 ≤ off → lo + off + zlen data ≤ hi →
  ∃ k, with_io part (pio_write addr off) (d, data) = (Ok tt, (with_disk d k, data)) ∧
       calm i (splice C (lo + off) data) k.
Proof.
  intros [Hid Hk] Hp Hr Hlo Hhi Hb Ho Hle. pose proof (room i C (do_info _ _ _ (proj1 Hk))) as Hro.
  pose proof (bs_pos i C (do_info _ _ _ (proj1 Hk))).
  rewrite (with_io_run d part p lo hi) by done. unfold pio_write. rewrite bind_run. cbv [gets id].
  rewrite bind_run, lift_run, check_rw_range_val by (cbn; lia). cbn [part_start part_end].
  rewrite decide_True by lia. unfold on_pio, zoom. cbn [fst snd pio_disk part_start part_end].
  destruct (write_run i C (cell_value (gd_disk d)) data addr (lo + off)) as (k & -> & Hk'); [done|done|lia|lia|].
  by exists k.
Qed.

(** IO on a device does not change which partitions are found. *)
Lemma having_with_disk n a devs j d k part :
  devs !! j = Some d → having n a (<[j := with_disk d k]> devs) part = having n a devs part.
Proof.
  revert n a j. induction devs as [|d' devs IH]; intros n a j Hj; [done|].
  destruct j as [|j]; simpl in Hj; [by simplify_eq|]. simpl. destruct n; [done|].
  destruct (res_ok _) as [[p|]| |]; simpl; [|by apply IH|done..]. by rewrite IH.
Qed.

Lemma unique_with_disk devs j d k part :
  devs !! j = Some d → check_part_unique (<[j := with_disk d k]> devs) part = check_part_unique devs part.
Proof. intros Hj. unfold check_part_unique. by rewrite having_with_disk. Qed.

Lemma aliases_with_disk devs j d k aliases :
  devs !! j = Some d → find_part_aliases (<[j := with_disk d k]> devs) aliases = find_part_aliases devs aliases.
Proof.
  intros Hj. induction aliases as [|v aliases IH]; [done|]. cbn [find_part_aliases].
  unfold ops_partition_size. rewrite unique_with_disk by done. by rewrite IH.
Qed.

(** Where the metadata is: the partition [p] of that name on the device [d] at
    [idx], which has the bytes [lo..hi) of a disk that holds [C]. *)
Record metadata_at (devs : list (GblDisk D)) (i : BlockInfo) C (idx : Z) d (part : list Z) (p : GblPartition) (lo hi addr : Z) : Prop := {
  ma_part : find_part_aliases devs ABR_PARTITION_ALIASES = Ok part;
  ma_unique : check_part_unique devs part = Ok (idx, p);
  ma_dev : devs !! Z.to_nat idx = Some d;
  ma_find : gd_find_partition d (Some part) = Ok p;
  ma_range : part_absolute_range p = Ok (lo, hi);
  ma_bounds : 0 ≤ lo ∧ lo + ABR_DATA_SIZE ≤ hi ∧ hi ≤ zlen C;
  ma_calm : device_calm i C d;
  ma_buffer : buffer_ok i addr ABR_DATA_SIZE;
}.

(** The devices, with [st] as metadata. *)
Definition holds_metadata (devs : list (GblDisk D)) (i : BlockInfo) C (idx : Z) d (lo : Z)
    (devs' : list (GblDisk D)) (st : bytes) : Prop :=
  zlen st = ABR_DATA_SIZE ∧
  ∃ k, devs' = <[Z.to_nat idx := with_disk d k]> devs ∧ calm i (splice C lo st) k.

Section Sim.
Context (devs : list (GblDisk D)) (i : BlockInfo) C (idx : Z) d (part : list Z) (p : GblPartition) (lo hi addr : Z).
Hypothesis Hm : metadata_at devs i C idx d part p lo hi addr.
Abbreviation R := (holds_metadata devs i C idx d lo).

Lemma splice_again (st st' : bytes) : zlen st' = zlen st → 0 ≤ lo → lo + zlen st ≤ zlen C → splice (splice C lo st) lo st' = splice C lo st'.
Proof. intros. list_ext. Qed.

Lemma metadata_device k st :
  zlen st = ABR_DATA_SIZE → calm i (splice C lo st) k →
  device_calm i (splice C lo st) (with_disk d k) ∧ gd_find_partition (with_disk d k) (Some part) = Ok p ∧
  <[Z.to_nat idx := with_disk d k]> devs !! Z.to_nat idx = Some (with_disk d k) ∧
  check_part_unique (<[Z.to_nat idx := with_disk d k]> devs) part = Ok (idx, p) ∧
  find_part_aliases (<[Z.to_nat idx := with_disk d k]> devs) ABR_PARTITION_ALIASES = Ok part ∧
  zlen (splice C lo st) = zlen C.
Proof using Hm.
  intros Hst Hk. destruct Hm. split_and!; try done.
  - apply list_lookup_insert_eq. by eapply lookup_lt_Some.
  - by rewrite unique_with_disk.
  - by rewrite aliases_with_disk.
  - rewrite length_splice; [done|lia|lia].
Qed.

Lemma gbl_read_sim :
  sim R (read_abr_metadata (Ops:=GblAbrOps addr) ABR_DATA_SIZE) (read_abr_metadata ABR_DATA_SIZE) (λ b, zlen b = 32).
Proof using Hm.
  intros devs' st (Hst & k & -> & Hk).
  destruct (metadata_device k st Hst Hk) as (Hc & Hf & Hl & Hu & Ha & Hlen). pose proof Hm as [_ _ _ _ Hr [? ?] _ Hb].
  assert (E : read_abr_metadata (Ops:=GblAbrOps addr) ABR_DATA_SIZE (<[Z.to_nat idx := with_disk d k]> devs) =
    (Ok st, snd (read_abr_metadata (Ops:=GblAbrOps addr) ABR_DATA_SIZE (<[Z.to_nat idx := with_disk d k]> devs))) ∧
    R (snd (read_abr_metadata (Ops:=GblAbrOps addr) ABR_DATA_SIZE (<[Z.to_nat idx := with_disk d k]> devs))) st).
  { cbn [read_abr_metadata GblAbrOps]. rewrite bind_run. cbv [gets id]. rewrite bind_run, lift_run, Ha.
    unfold with_own_buffer, read_from_partition_sync, read_from_partition, read_unique_partition.
    rewrite bind_run. cbv [gets]. cbn [fst]. rewrite bind_run, lift_run, Hu. unfold on_dev. cbn [fst snd].
    rewrite Hl. set (out := replicate _ 0).
    assert (Hout : zlen out = ABR_DATA_SIZE) by done.
    destruct (device_read_run i (splice C lo st) (with_disk d k) (Some part) p lo hi out addr 0) as (k' & -> & Hk');
      rewrite ?Hout; try done; try lia.
    cbn [snd]. rewrite Z.add_0_r, slice_splice_same by lia. split; [done|].
    split; [done|]. exists k'. split; [|done]. by rewrite list_insert_insert_eq. }
  destruct E as [-> HR]. cbn [fst snd]. split_and!; [|done|intros b Hb'; by injection Hb' as <-].
  unfold read_abr_metadata, ArrayOps, array_read. cbn [fst]. rewrite get_range_Some, Z.sub_0_r, slice_all by lia. done.
Qed.

Lemma gbl_write_sim b :
  zlen b = 32 → sim R (write_abr_metadata (Ops:=GblAbrOps addr) b) (write_abr_metadata b) (λ _, True).
Proof using Hm.
  intros Hb32 devs' st (Hst & k & -> & Hk).
  destruct (metadata_device k st Hst Hk) as (Hc & Hf & Hl & Hu & Ha & Hlen). pose proof Hm as [_ _ _ _ Hr [? ?] _ Hb].
  unfold ABR_DATA_SIZE in *.
  cbn [write_abr_metadata GblAbrOps]. rewrite bind_run. cbv [gets id]. rewrite bind_run, lift_run, Ha.
  unfold with_own_buffer, write_to_partition_sync, write_to_partition, write_unique_partition.
  rewrite bind_run. cbv [gets]. cbn [fst]. rewrite bind_run, lift_run, Hu. unfold on_dev. cbn [fst snd].
  rewrite Hl.
  destruct (device_write_run i (splice C lo st) (with_disk d k) (Some part) p lo hi b addr 0) as (k' & -> & Hk');
    rewrite ?Hb32; try done; try lia.
  unfold write_abr_metadata, ArrayOps, array_write. rewrite get_range_Some by lia. cbn [fst snd]. split_and!; [done| |done].
  rewrite splice_full by lia. rewrite Z.add_0_r, splice_again in Hk' by lia.
  split; [done|]. exists k'. split; [|done]. by rewrite list_insert_insert_eq.
Qed.
End Sim.
End OnPartition.

Section Refinement.
Context {D : Type} `{!BlockIo D} `{!BlockIoSpec D}.
Implicit Types (d : GblDisk D) (C : bytes).

(** The metadata the devices start with. *)
Lemma metadata_start devs i C idx d part p lo hi addr :
  metadata_at devs i C idx d part p lo hi addr →
  holds_metadata devs i C idx d lo devs (slice C lo ABR_DATA_SIZE).
Proof.
  intros Hm. destruct (ma_bounds _ _ _ _ _ _ _ _ _ _ Hm) as (? & ? & ?). destruct (ma_calm _ _ _ _ _ _ _ _ _ _ Hm) as [Hid Hk].
  split; [rewrite zlen_slice; unfold ABR_DATA_SIZE in *; lia|]. exists (cell_value (gd_disk d)).
  rewrite splice_slice by (unfold ABR_DATA_SIZE in *; lia). split; [|done].
  unfold with_disk. rewrite device_eta by done. symmetry. apply list_insert_id. by apply Hm.
Qed.

Lemma metadata_trace devs i C idx d part p lo hi addr ops devs' st v :
  metadata_at devs i C idx d part p lo hi addr →
  holds_metadata devs i C idx d lo devs' st → storage_ok st → view st = Some v →
  ∃ devs'' st', run_trace (Ops0:=GblAbrOps addr) ops devs' = (fst (spec_trace ops v), devs'') ∧
    holds_metadata devs i C idx d lo devs'' st' ∧ storage_ok st' ∧ view st' = Some (snd (spec_trace ops v)).
Proof.
  intros Hm HR Hst Hv. destruct (trace_refines (AbrStore0:=ArrayStore) ops st v Hst Hv) as (st' & E & Hst' & Hv').
  destruct (run_trace_sim (holds_metadata devs i C idx d lo) (gbl_read_sim _ _ _ _ _ _ _ _ _ _ Hm)
    (gbl_write_sim _ _ _ _ _ _ _ _ _ _ Hm) ops devs' st HR) as [Ho HR'].
  rewrite E in Ho, HR'. destruct (run_trace ops devs') as [rs devs'']. simpl in *. subst rs. by exists devs'', st'.
Qed.

(** C9. The A/B/R metadata of a Fuchsia device lives in the first 32 bytes of
    its "durable_boot" or "misc" partition: any sequence of slot library calls
    on the devices gives the results of the abstract slot machine, leaves its
    state in these bytes, and changes no other byte of any device. *)
Theorem abr_partition_refinement devs i C idx d part p lo hi addr ops v :
  metadata_at devs i C idx d part p lo hi addr → bytes_ok C → view (slice C lo ABR_DATA_SIZE) = Some v →
  ∃ devs' st', run_trace (Ops0:=GblAbrOps addr) ops devs = (fst (spec_trace ops v), devs') ∧
    holds_metadata devs i C idx d lo devs' st' ∧ view st' = Some (snd (spec_trace ops v)).
Proof.
  intros Hm Hb Hv. pose proof (metadata_start _ _ _ _ _ _ _ _ _ _ Hm) as HR.
  destruct (metadata_trace _ _ _ _ _ _ _ _ _ _ ops _ _ v Hm HR) as (devs' & st' & E & HR' & _ & Hv'); [|done|by exists devs', st'].
  split; [|by apply bytes_ok_slice]. destruct HR as [HR _]. unfold ABR_DATA_SIZE in *. lia.
Qed.

(** One call. *)
Lemma metadata_step devs i C idx d part p lo hi addr op devs' st v :
  metadata_at devs i C idx d part p lo hi addr →
  holds_metadata devs i C idx d lo devs' st → storage_ok st → view st = Some v →
  ∃ devs'' st', run_api (Ops0:=GblAbrOps addr) op devs' = (fst (spec_api op v), devs'') ∧
    holds_metadata devs i C idx d lo devs'' st' ∧ storage_ok st' ∧ view st' = Some (snd (spec_api op v)).
Proof.
  intros Hm HR Hst Hv. destruct (metadata_trace _ _ _ _ _ _ _ _ _ _ [op] _ _ v Hm HR Hst Hv) as (devs'' & st' & E & HR' & Hst' & Hv').
  exists devs'', st'. cbn [run_trace spec_trace] in *. destruct (run_api op devs') as [r s1], (spec_api op v) as [r' v'].
  simpl in *. simplify_eq. by split_and!.
Qed.
End Refinement.

(** ** The one-shot bootloader request *)

Lemma bootloader_flag_set f : negb (Z.land (Z.lor f ONE_SHOT_BOOTLOADER) ONE_SHOT_BOOTLOADER =? 0) = true.
Proof.
  apply negb_true_iff, Z.eqb_neq. intros H. apply (f_equal (λ z, Z.testbit z 1)) in H. revert H.
  rewrite Z.land_spec, Z.lor_spec, Z.bits_0. change (Z.testbit ONE_SHOT_BOOTLOADER 1) with true.
  by rewrite orb_true_r.
Qed.
Lemma bootloader_flag_cleared f :
  negb (Z.land (Z.land f (bit_not 8 ONE_SHOT_BOOTLOADER)) ONE_SHOT_BOOTLOADER =? 0) = false.
Proof.
  rewrite <- Z.land_assoc. change (Z.land (bit_not 8 ONE_SHOT_BOOTLOADER) ONE_SHOT_BOOTLOADER) with 0.
  by rewrite Z.land_0_r.
Qed.

Section OneShot.
Context {D G : Type} `{!BlockIo D} `{!BlockIoSpec D} `{!GblOps G}.
Implicit Types (d : GblDisk D) (C : bytes) (g : G).

(** The calls behind the requests, from what [run_api] says of them. *)
Lemma run_set_bootloader {A} `{!Ops A} (s s' : A) r :
  run_api (SetBootloader true) s = (Ok r, s') → set_one_shot_bootloader true s = (Ok tt, s').
Proof.
  unfold run_api. rewrite bind_run. destruct (set_one_shot_bootloader true s) as [[[]| |] s1]; intros E; cbv [mret ST_ret] in E; by simplify_eq.
Qed.
Lemma run_clear_bootloader {A} `{!Ops A} (s s' : A) b :
  run_api ClearBootloader s = (Ok (RBool b), s') → get_and_clear_one_shot_bootloader s = (Ok b, s').
Proof.
  unfold run_api. rewrite bind_run. destruct (get_and_clear_one_shot_bootloader s) as [[b'| |] s1]; intros E;
    cbv [mret ST_ret] in E; by simplify_eq.
Qed.

(** The check at the next boot, when the metadata answers [b]. *)
Lemma check_enter_run addr devs devs' g g' stop b :
  get_and_clear_one_shot_bootloader (Ops0:=GblAbrOps addr) devs = (Ok b, devs') →
  should_stop_in_fastboot g = (Ok stop, g') →
  zircon_check_enter_fastboot (D:=D) addr (devs, g) = (Ok (b || stop), (devs', if b then g else g')).
Proof.
  intros Hb Hs. unfold zircon_check_enter_fastboot, abr_ops. rewrite bind_run, attempt_run.
  unfold on_devices, zoom. cbn [fst snd]. rewrite Hb. destruct b; [done|].
  rewrite bind_run, attempt_run. unfold on_platform, zoom. cbn [fst snd]. rewrite Hs. by destruct stop.
Qed.

(** A request to reboot into the bootloader on a Fuchsia device makes the
    next boot, and no other, stop in fastboot mode: afterwards the decision is
    the platform's again. *)
Theorem reboot_bootloader_once devs i C idx d part p lo hi addr v g g1 g2 stop :
  metadata_at devs i C idx d part p lo hi addr → bytes_ok C → view (slice C lo ABR_DATA_SIZE) = Some v →
  expected_os g = (Ok (Some Fuchsia), g1) → should_stop_in_fastboot g1 = (Ok stop, g2) →
  ∃ devs1 devs2 devs3,
    reboot_bootloader addr (devs, g) = (Ok tt, (devs1, g1)) ∧
    zircon_check_enter_fastboot addr (devs1, g1) = (Ok true, (devs2, g1)) ∧
    zircon_check_enter_fastboot addr (devs2, g1) = (Ok stop, (devs3, g2)).
Proof.
  intros Hm Hb Hv Hos Hstop. pose proof (metadata_start _ _ _ _ _ _ _ _ _ _ Hm) as HR.
  assert (Hst : storage_ok (slice C lo ABR_DATA_SIZE)).
  { split; [|by apply bytes_ok_slice]. destruct HR as [HR _]. unfold ABR_DATA_SIZE in *. lia. }
  destruct (metadata_step _ _ _ _ _ _ _ _ _ _ (SetBootloader true) _ _ v Hm HR Hst Hv) as (devs1 & st1 & E1 & HR1 & Hst1 & Hv1).
  destruct (metadata_step _ _ _ _ _ _ _ _ _ _ ClearBootloader _ _ _ Hm HR1 Hst1 Hv1) as (devs2 & st2 & E2 & HR2 & Hst2 & Hv2).
  destruct (metadata_step _ _ _ _ _ _ _ _ _ _ ClearBootloader _ _ _ Hm HR2 Hst2 Hv2) as (devs3 & st3 & E3 & _ & _ & _).
  cbn [spec_api fst snd sp_with_flags sp_flags] in *.
  rewrite bootloader_flag_set in E2. rewrite bootloader_flag_cleared in E3.
  apply run_set_bootloader in E1. apply run_clear_bootloader in E2, E3.
  exists devs1, devs2, devs3. split_and!.
  - unfold reboot_bootloader, expected_os_is_fuchsia, abr_ops. rewrite !bind_run. unfold on_platform at 1, zoom at 1.
    cbn [fst snd]. rewrite Hos. cbn [mret ST_ret]. unfold on_devices, zoom. cbn [fst snd]. by rewrite E1.
  - by apply (check_enter_run addr devs1 devs2 g1 g2 stop true).
  - by apply (check_enter_run addr devs2 devs3 g1 g2 stop false).
Qed.
End OneShot.

(** ** Examples *)

Import RamBlockSpec.

(** A platform that expects Fuchsia. *)
Definition fuchsia_platform : GblOps unit := {|
  should_stop_in_fastboot := mret false;
  platform_reboot := id;
  expected_os := mret (Some Fuchsia);
  get_current_slot := raise Unsupported;
  get_next_slot _ := raise Unsupported;
  platform_set_active_slot _ := raise Unsupported;
  get_reboot_reason := raise Unsupported;
  fastboot_variable _ _ := raise NotFound;
  fastboot_visit_all_variables g := ([], Ok tt, g);
|}.

(** A device whose whole storage is the "misc" partition. *)
Definition ex_misc : bytes := str "misc" ++ replicate 68 0.
Definition ex_misc_device : GblDisk RamBlock.RamBlockIo :=
  mkGblDisk (cell (ex_disk ex_blank)) (cell (RawTable ex_misc (70 * 512))) ex_info.

Lemma ex_metadata :
  metadata_at [ex_misc_device] ex_info ex_blank 0 ex_misc_device (str "misc")
    (RawPartition ex_misc (70 * 512)) 0 (70 * 512) 5000.
Proof.
  assert (Hk := ex_disk_ok ex_blank ltac:(by_compute)).
  split; try reflexivity.
  - split_and!; [lia|by_compute|by_compute].
  - split; [done|]. split; [exact Hk|]. reflexivity.
  - split; by_compute.
Qed.

Lemma abr_partition_refinement_witness :
  fst (run_trace (Ops0:=GblAbrOps 5000) [MarkActive SlotB; GetBootSlot true] [ex_misc_device]) =
    [Ok RUnit; Ok (RSlot SlotB false)].
Proof.
  destruct (abr_partition_refinement [ex_misc_device] ex_info ex_blank 0 ex_misc_device (str "misc")
    (RawPartition ex_misc (70 * 512)) 0 (70 * 512) 5000 [MarkActive SlotB; GetBootSlot true]
    (abs (normalize_data abr_default))) as (devs' & st' & E & _).
  - exact ex_metadata.
  - by apply bytes_ok_replicate.
  - vm_compute. reflexivity.
  - rewrite E. vm_compute. reflexivity.
Defined.

Lemma reboot_bootloader_once_witness :
  ∃ s1 s2 s3, reboot_bootloader (GblOps0:=fuchsia_platform) 5000 ([ex_misc_device], tt) = (Ok tt, s1) ∧
    zircon_check_enter_fastboot (GblOps0:=fuchsia_platform) 5000 s1 = (Ok true, s2) ∧
    zircon_check_enter_fastboot (GblOps0:=fuchsia_platform) 5000 s2 = (Ok false, s3).
Proof.
  destruct (reboot_bootloader_once (GblOps0:=fuchsia_platform) [ex_misc_device] ex_info ex_blank 0 ex_misc_device (str "misc")
    (RawPartition ex_misc (70 * 512)) 0 (70 * 512) 5000 (abs (normalize_data abr_default)) tt tt tt false)
    as (d1 & d2 & d3 & E1 & E2 & E3).
  - exact ex_metadata.
  - by apply bytes_ok_replicate.
  - vm_compute. reflexivity.
  - reflexivity.
  - reflexivity.
  - exists (d1, tt), (d2, tt), (d3, tt). split; [exact E1|]. split; [exact E2|exact E3].
Defined.
