(* ===== verification/FastbootTasks.v ===== *)
(** * libgbl: task container and buffer pool

    Models src/gbl/libgbl/src/fastboot/pin_fut_container.rs and
    src/gbl/libgbl/src/fastboot/buffer_pool.rs: a fixed array of futures whose
    first [used] are alive, from which finished ones are removed by a swap with
    the last, and a pool of preallocated buffers, in which an empty buffer
    stands for one that is lent out. *)

From S2P Require Import Prelude LibError.

(** ** Futures in a preallocated slice *)

(** gbl/libgbl/src/fastboot/pin_fut_container.rs:90-94, [PinFutSlice]. *)
Record PinFutSlice (F : Type) := mkSlice { pf_arr : list F; pf_used : Z }.
Arguments mkSlice {F}.
Arguments pf_arr {F}.
Arguments pf_used {F}.

Section Slice.
Context {F S E : Type}.

(** gbl/libgbl/src/fastboot/pin_fut_container.rs:97-100, [PinFutSlice::new]. *)
Definition slice_new (arr : list F) : PinFutSlice F := mkSlice arr 0.

(** gbl/libgbl/src/fastboot/pin_fut_container.rs:104-109, [PinFutSlice::add_with]:
    whether the future was taken. *)
Definition add_with (f : F) (p : PinFutSlice F) : bool * PinFutSlice F :=
  if pf_used p <? zlen (pf_arr p)
  then (true, mkSlice (<[Z.to_nat (pf_used p) := f]> (pf_arr p)) (pf_used p + 1))
  else (false, p).

(** [self.arr.swap(i, j)]. *)
Definition swap {A} (l : list A) (i j : nat) : outcome E (list A) :=
  x ← unwrap (l !! i); y ← unwrap (l !! j);
  Ok (<[i := y]> (<[j := x]> l)).

(** gbl/libgbl/src/fastboot/pin_fut_container.rs:111-123, [PinFutSlice::for_each_remove_if]:
    the iterations for the indices below [n], from the last to the first. The
    closure gets the future and what it captures. *)
Fixpoint remove_loop (cb : F → ST S E (bool * F)) (n : nat) : ST (PinFutSlice F * S) E unit :=
  match n with
  | O => mret tt
  | Datatypes.S idx =>
      '(p, _) ← gets id;
      f ← lift (unwrap (pf_arr p !! idx));
      '(remove, f) ← zoom snd (λ t s, (fst s, t)) (cb f);
      let arr := <[idx := f]> (pf_arr p) in
      (if remove : bool then
         used ← lift (arith 64 (pf_used p - 1));
         arr ← lift (swap arr idx (Z.to_nat used));
         modify (λ s, (mkSlice arr used, snd s))
       else modify (λ s, (mkSlice arr (pf_used p), snd s)));;
      remove_loop cb idx
  end.

(** gbl/libgbl/src/fastboot/pin_fut_container.rs:111-123, [PinFutSlice::for_each_remove_if]. *)
Definition for_each_remove_if (cb : F → ST S E (bool * F)) : ST (PinFutSlice F * S) E unit :=
  n ← gets (λ s, pf_used (fst s));
  remove_loop cb (Z.to_nat n).
End Slice.

(** gbl/libgbl/src/fastboot/pin_fut_container.rs:58-67, [PinFutContainerTyped::poll_all]:
    [poll] says whether a future is finished; the number of those that are not. *)
Definition poll_all {F S E} (poll : F → ST S E (bool * F)) : ST (PinFutSlice F * S) E Z := λ s,
  let cb f : ST (S * Z) E (bool * F) :=
    '(finished, f) ← zoom fst (λ t u, (t, snd u)) (poll f);
    n ← gets snd;
    n ← lift (arith 64 (n + (if finished : bool then 0 else 1)));
    modify (λ u, (fst u, n));;
    mret (finished, f) in
  match for_each_remove_if cb (fst s, (snd s, 0)) with
  | (Ok _, (p, (t, n))) => (Ok n, (p, t))
  | (Err e, (p, (t, _))) => (Err e, (p, t))
  | (Panic, (p, (t, _))) => (Panic, (p, t))
  end.

(** ** Buffers *)

(** A buffer at [buf_addr]; [Default] of a buffer type is an empty one. *)
Record Buffer := mkBuffer { buf_addr : Z; buf_bytes : bytes }.
Definition no_buffer : Buffer := mkBuffer 0 [].

(** gbl/libgbl/src/fastboot/buffer_pool.rs:46-48, [BufferPool::allocate]: the first
    buffer that is not empty. *)
Fixpoint pool_allocate (pool : list Buffer) : option (Buffer * list Buffer) :=
  match pool with
  | [] => None
  | v :: pool =>
      if 0 <? zlen (buf_bytes v) then Some (v, no_buffer :: pool)
      else '(b, pool) ← pool_allocate pool; Some (b, v :: pool)
  end.

(** gbl/libgbl/src/fastboot/buffer_pool.rs:50-52, [BufferPool::deallocate]: into the
    first empty place, which has to exist. *)
Fixpoint pool_deallocate {E} (buf : Buffer) (pool : list Buffer) : outcome E (list Buffer) :=
  match pool with
  | [] => Panic
  | v :: pool =>
      if zlen (buf_bytes v) =? 0 then Ok (buf :: pool)
      else pool ← pool_deallocate buf pool; Ok (v :: pool)
  end.

(** ** Properties *)

(** Polling every future of a list once, in order: those that are not
    finished. *)
Fixpoint poll_each {F S E} (poll : F → ST S E (bool * F)) (l : list F) : ST S E (list F) :=
  match l with
  | [] => mret []
  | f :: l =>
      '(finished, f) ← poll f;
      rest ← poll_each poll l;
      mret (if finished : bool then rest else f :: rest)
  end.

Section PollAll.
Context {F S E : Type} (poll : F → ST S E (bool * F)).

(** The closure of [poll_all]. *)
Definition poll_cb (f : F) : ST (S * Z) E (bool * F) :=
  '(finished, f) ← zoom fst (λ t u, (t, snd u)) (poll f);
  n ← gets snd;
  n ← lift (arith 64 (n + (if finished : bool then 0 else 1)));
  modify (λ u, (fst u, n));;
  mret (finished, f).

Lemma poll_cb_run f s c :
  0 ≤ c < 2 ^ 64 - 1 →
  poll_cb f (s, c) = match poll f s with
                     | (Ok (fin, f'), s') => (Ok (fin, f'), (s', c + if fin : bool then 0 else 1))
                     | (Err e, s') => (Err e, (s', c))
                     | (Panic, s') => (Panic, (s', c))
                     end.
Proof.
  intros Hc. unfold poll_cb. rewrite bind_run. unfold zoom. cbn [fst snd].
  destruct (poll f s) as [[[fin f']|e|] s']; [|done..].
  rewrite bind_run. unfold gets. cbn [snd]. rewrite bind_run, lift_run, arith_ok by (destruct fin; lia). done.
Qed.

(** A removed future leaves its place to the last one. *)
Lemma swap_remove (arr : list F) (idx used : nat) f :
  (idx < used ≤ length arr)%nat →
  ∃ arr', swap (E:=E) (<[idx := f]> arr) idx (used - 1) = Ok arr' ∧ length arr' = length arr ∧
          take idx arr' = take idx arr ∧
          take (used - 1 - idx) (drop idx arr') ≡ₚ take (used - 1 - idx) (drop (Datatypes.S idx) arr).
Proof.
  intros Hle. unfold swap. rewrite list_lookup_insert_eq by lia. cbn [unwrap mbind outcome_bind].
  destruct (lookup_lt_is_Some_2 (<[idx := f]> arr) (used - 1)) as [y Hy]; [rewrite length_insert; lia|].
  rewrite Hy. cbn [unwrap mbind outcome_bind]. eexists. split; [done|].
  split; [by rewrite !length_insert|]. rewrite !take_insert_ge by lia. split; [done|].
  destruct (decide (used - 1 = idx)%nat) as [He|He].
  { replace (used - 1 - idx)%nat with O by lia. by rewrite !take_0. }
  assert (Hy' : arr !! (used - 1)%nat = Some y) by (by rewrite list_lookup_insert_ne in Hy by lia).
  assert (E1 : take (used - 1 - idx) (drop idx (<[idx := y]> (<[(used - 1)%nat := f]> (<[idx := f]> arr))))
    = y :: take (used - 2 - idx) (drop (Datatypes.S idx) arr)).
  { apply list_eq. intros [|j].
    - rewrite lookup_take_lt, lookup_drop, Nat.add_0_r by lia.
      by rewrite list_lookup_insert_eq by (rewrite !length_insert; lia).
    - change ((y :: ?l) !! Datatypes.S j) with (l !! j). destruct (decide (j < used - 2 - idx)%nat).
      + rewrite !lookup_take_lt, !lookup_drop by lia. rewrite !list_lookup_insert_ne by lia.
        f_equal. lia.
      + by rewrite !lookup_take_ge by lia. }
  assert (E2 : take (used - 1 - idx) (drop (Datatypes.S idx) arr)
    = take (used - 2 - idx) (drop (Datatypes.S idx) arr) ++ [y]).
  { replace (used - 1 - idx)%nat with (Datatypes.S (used - 2 - idx)) by lia.
    apply take_S_r. rewrite lookup_drop. rewrite <- Hy'. f_equal. lia. }
  rewrite E1, E2. apply Permutation_cons_append.
Qed.

(** One iteration. *)
Lemma remove_loop_step n (arr : list F) (u : nat) s c f :
  arr !! n = Some f → (n < u)%nat → Z.of_nat u < 2 ^ 64 → 0 ≤ c < 2 ^ 64 - 1 →
  remove_loop poll_cb (Datatypes.S n) (mkSlice arr (Z.of_nat u), (s, c)) =
  match poll f s with
  | (Ok (true, f'), s1) =>
      match swap (E:=E) (<[n := f']> arr) n (u - 1) with
      | Ok arr1 => remove_loop poll_cb n (mkSlice arr1 (Z.of_nat (u - 1)), (s1, c))
      | Err e => (Err e, (mkSlice arr (Z.of_nat u), (s1, c)))
      | Panic => (Panic, (mkSlice arr (Z.of_nat u), (s1, c)))
      end
  | (Ok (false, f'), s1) => remove_loop poll_cb n (mkSlice (<[n := f']> arr) (Z.of_nat u), (s1, c + 1))
  | (Err e, s1) => (Err e, (mkSlice arr (Z.of_nat u), (s1, c)))
  | (Panic, s1) => (Panic, (mkSlice arr (Z.of_nat u), (s1, c)))
  end.
Proof.
  intros Hf Hu Hu64 Hc. cbn [remove_loop]. rewrite bind_run. cbv [gets id]. rewrite bind_run, lift_run. cbn [pf_arr pf_used].
  rewrite Hf. cbn [unwrap]. rewrite bind_run. unfold zoom at 1. cbn [fst snd]. rewrite poll_cb_run by lia.
  destruct (poll f s) as [[[[] f']|e|] s1]; [..|done|done]; rewrite bind_run.
  - rewrite bind_run, lift_run, arith_ok by lia. rewrite bind_run, lift_run, Z.add_0_r.
    replace (Z.to_nat (Z.of_nat u - 1)) with (u - 1)%nat by lia.
    replace (Z.of_nat u - 1) with (Z.of_nat (u - 1)) by lia. by destruct (swap _ _ _).
  - done.
Qed.

(** The loop over the indices below [n], when the ones behind are done: [l] are
    those of them that are not finished. *)
Lemma remove_loop_spec n (arr : list F) u s (l : list F) :
  (n ≤ u ≤ length arr)%nat → zlen arr < 2 ^ 64 - 1 → take (u - n) (drop n arr) ≡ₚ l →
  match poll_each poll (reverse (take n arr)) s with
  | (Ok rest, s') => ∃ arr', remove_loop poll_cb n (mkSlice arr (Z.of_nat u), (s, zlen l)) =
      (Ok tt, (mkSlice arr' (zlen (rest ++ l)), (s', zlen (rest ++ l)))) ∧
      length arr' = length arr ∧ take (length (rest ++ l)) arr' ≡ₚ rest ++ l
  | (Err e, s') => ∃ p c, remove_loop poll_cb n (mkSlice arr (Z.of_nat u), (s, zlen l)) = (Err e, (p, (s', c)))
  | (Panic, s') => ∃ p c, remove_loop poll_cb n (mkSlice arr (Z.of_nat u), (s, zlen l)) = (Panic, (p, (s', c)))
  end.
Proof.
  revert arr u s l. induction n as [|n IH]; intros arr u s l Hn Ha Hl.
  { simpl. rewrite Nat.sub_0_r, drop_0 in Hl. exists arr.
    assert (E0 : length l = u) by (rewrite <- Hl, length_take; lia). cbn [app]. rewrite E0. by split_and!. }
  destruct (lookup_lt_is_Some_2 arr n) as [f Hf]; [lia|].
  assert (Hll : length l = (u - Datatypes.S n)%nat) by (rewrite <- Hl, length_take, length_drop; lia).
  rewrite (take_S_r _ _ f) by done. rewrite reverse_snoc. cbn [poll_each].
  rewrite bind_run, (remove_loop_step n arr u s (zlen l) f) by (done || lia).
  destruct (poll f s) as [[[[] f']|e|] s1]; [..|by eexists _, _|by eexists _, _]; rewrite bind_run.
  - destruct (swap_remove arr n u f') as (arr1 & Hs & Hl1 & Ht & Hp); [lia|]. rewrite Hs.
    specialize (IH arr1 (u - 1)%nat s1 l ltac:(lia) ltac:(lia)).
    rewrite Ht in IH.
    assert (Hl' : take (u - 1 - n) (drop n arr1) ≡ₚ l).
    { rewrite Hp. replace (u - 1 - n)%nat with (u - Datatypes.S n)%nat by lia. exact Hl. }
    specialize (IH Hl'). destruct (poll_each poll (reverse (take n arr)) s1) as [[rest|e|] s2]; [|done..].
    destruct IH as (arr' & Hr & Hla & Hp'). rewrite mret_run. exists arr'. split_and!; [done|lia|done].
  - specialize (IH (<[n := f']> arr) u s1 (f' :: l)). rewrite length_insert in IH.
    rewrite (take_insert_ge arr n n) in IH by lia.
    replace (zlen l + 1) with (zlen (f' :: l)) by (simpl; lia).
    assert (Hl' : take (u - n) (drop n (<[n := f']> arr)) ≡ₚ f' :: l).
    { rewrite (drop_S _ f') by (rewrite list_lookup_insert_eq; [done|lia]).
      replace (u - n)%nat with (Datatypes.S (u - Datatypes.S n)) by lia. rewrite drop_insert_lt by lia.
      cbn [take]. by rewrite Hl. }
    specialize (IH ltac:(lia) ltac:(lia) Hl').
    destruct (poll_each poll (reverse (take n arr)) s1) as [[rest|e|] s2]; [|done..].
    destruct IH as (arr' & Hr & Hla & Hp'). rewrite mret_run. exists arr'. rewrite Hr.
    replace (length ((f' :: rest) ++ l)) with (length (rest ++ f' :: l)) by (rewrite !length_app; simpl; lia).
    split_and!; [done|lia|]. rewrite Hp'. symmetry. apply (Permutation_middle rest l f').
Qed.

Lemma poll_all_unfold p s :
  poll_all poll (p, s) =
  match remove_loop poll_cb (Z.to_nat (pf_used p)) (p, (s, 0)) with
  | (Ok _, (p, (t, n))) => (Ok n, (p, t))
  | (Err e, (p, (t, _))) => (Err e, (p, t))
  | (Panic, (p, (t, _))) => (Panic, (p, t))
  end.
Proof. done. Qed.

(** [poll_all] polls each future that is alive exactly once and in order,
    from the last to the first; it keeps exactly those that are not finished,
    whatever gaps the finished ones leave in the slice, and returns their
    number. *)
Theorem poll_all_exact (arr : list F) (u : nat) s :
  (u ≤ length arr)%nat → zlen arr < 2 ^ 64 - 1 →
  match poll_each poll (reverse (take u arr)) s with
  | (Ok rest, s') => ∃ arr', poll_all poll (mkSlice arr (Z.of_nat u), s) =
      (Ok (zlen rest), (mkSlice arr' (zlen rest), s')) ∧
      length arr' = length arr ∧ take (length rest) arr' ≡ₚ rest
  | (Err e, s') => ∃ p, poll_all poll (mkSlice arr (Z.of_nat u), s) = (Err e, (p, s'))
  | (Panic, s') => ∃ p, poll_all poll (mkSlice arr (Z.of_nat u), s) = (Panic, (p, s'))
  end.
Proof.
  intros Hu Ha. rewrite poll_all_unfold. cbn [pf_used]. rewrite Nat2Z.id.
  pose proof (remove_loop_spec u arr u s [] ltac:(lia) Ha) as H. rewrite Nat.sub_diag, take_0 in H.
  specialize (H ltac:(done)). change (zlen (@nil F)) with 0 in H.
  destruct (poll_each poll (reverse (take u arr)) s) as [[rest|e|] s'].
  - destruct H as (arr' & -> & Hl & Hp). rewrite app_nil_r in *. by exists arr'.
  - destruct H as (p & c & ->). by exists p.
  - destruct H as (p & c & ->). by exists p.
Qed.
End PollAll.

(** Countdowns: a future that is finished at zero. *)
Definition count_down (n : Z) : ST (list Z) Error (bool * Z) := λ log,
  (Ok (n =? 0, n - 1), log ++ [n]).

Lemma poll_all_exact_witness :
  ∃ arr', poll_all count_down (mkSlice [0; 2; 0; 5; 9] 4, []) = (Ok 2, (mkSlice arr' 2, [5; 0; 2; 0])) ∧
          length arr' = 5%nat ∧ take 2 arr' ≡ₚ [4; 1].
Proof. apply (poll_all_exact count_down [0; 2; 0; 5; 9] 4 []); [simpl; lia|reflexivity]. Defined.

(** ** Buffers *)

(** A buffer comes back to the pool it came from: the pool has the same buffers
    again, and a place for it was free. *)
Lemma pool_roundtrip pool b pool' :
  pool_allocate pool = Some (b, pool') →
  0 < zlen (buf_bytes b) ∧ b ∈ pool ∧ length pool' = length pool ∧
  ∀ b', ∃ pool'', pool_deallocate (E:=Error) b' pool' = Ok pool'' ∧ length pool'' = length pool.
Proof.
  revert b pool'. induction pool as [|v pool IH]; intros b pool' H; [done|]. cbn [pool_allocate] in H.
  destruct (Z.ltb_spec 0 (zlen (buf_bytes v))) as [Hv|Hv].
  - simplify_eq. split_and!; [done|by left|done|]. intros b'. eexists. by cbn.
  - destruct (pool_allocate pool) as [[b1 p1]|]; [|done]. cbn in H. simplify_eq.
    destruct (IH b p1 eq_refl) as (? & ? & Hl & Hd). split_and!; [done|by right|simpl; lia|].
    intros b'. cbn [pool_deallocate]. rewrite (proj2 (Z.eqb_eq _ _)) by lia. eexists. split; [done|]. simpl. lia.
Qed.
