(* ===== verification/GblFastboot.v ===== *)
(** * libgbl: the fastboot backend

    Models [GblFastboot] of src/gbl/libgbl/src/fastboot/mod.rs: parsing of
    partition arguments, the commands, and the tasks that flash and erase in the
    background.

    A task holds the [PartitionIo] it works on, so no one else can use the device
    while it is alive; its effect is therefore modelled as one step, at the poll
    that finishes it. Which poll that is depends on the devices: the [n]-th poll
    of all finishes its task if [ready n] holds. While a command waits, the
    executor polls all tasks once per round. A wait or a loop that goes on for
    more than [fuel] rounds does not return; the model answers [Panic] then, as
    for a panic: there is no answer in either case. *)

From S2P Require Import Prelude SafeMath LibError Text Utils Abr Crc Slots Block Disk.
From S2P Require Import GptData Gpt GptBuild Sparse Partition GblOps Fastboot FastbootTasks.
Import SafeNum FormattedBytes.

(** [Display] of [safemath::Error]: the place of the fault. *)
Class ShowSafeError := show_safe_error : SafeError → list bytes.

(** gbl/libgbl/src/fastboot/mod.rs:62-63, [FLASH_GPT_PART]. *)
Definition FLASH_GPT_PART : bytes := str "gpt".

(** gbl/libgbl/src/fastboot/mod.rs:65-74, [TaskWorkload]: with the index of the device
    that the IO borrows. *)
Inductive TaskWorkload (D : Type) :=
  | TFlash (dev : Z) (io : PartitionIo D) (data : Buffer) (sz : Z)
  | TFlashSparse (dev : Z) (io : PartitionIo D) (data : Buffer)
  | TErase (dev : Z) (io : PartitionIo D) (buffer : Buffer)
  | TNone.
Arguments TFlash {D}.
Arguments TFlashSparse {D}.
Arguments TErase {D}.
Arguments TNone {D}.

(** gbl/libgbl/src/fastboot/mod.rs:88-92, [Task]. *)
Record Task (D : Type) := mkTask { t_workload : TaskWorkload D; t_context : bytes }.
Arguments mkTask {D}.
Arguments t_workload {D}.
Arguments t_context {D}.

(** gbl/libgbl/src/fastboot/mod.rs:133-145, [LoadedImageInfo]: offset and length of
    ramdisk, device tree and kernel in the load buffer. *)
Record LoadedImageInfo := mkLoaded { li_ramdisk : Z * Z; li_fdt : Z * Z; li_kernel : Z * Z }.

(** gbl/libgbl/src/fastboot/mod.rs:147-154, [GblFastbootResult]. *)
Record GblFastbootResult := mkFbResult {
  loaded_image_info : option LoadedImageInfo;
  last_set_active_slot : option Z;
}.

(** gbl/libgbl/src/fastboot/mod.rs:174-223, [GblFastboot]: with the platform, the devices,
    the buffer pool and the tasks it refers to, and the number of polls so far. *)
Record GblFastboot (D G : Type) := mkFb {
  gf_ops : G;
  gf_disks : list (GblDisk D);
  gf_pool : list Buffer;
  gf_tasks : PinFutSlice (Task D);
  gf_polls : nat;
  current_download_buffer : option Buffer;
  current_download_size : Z;
  enable_async_task : bool;
  default_block : option Z;
  gf_load_buffer : Buffer;
  gf_result : GblFastbootResult;
}.
Arguments mkFb {D G}.
Arguments gf_ops {D G}.
Arguments gf_disks {D G}.
Arguments gf_pool {D G}.
Arguments gf_tasks {D G}.
Arguments gf_polls {D G}.
Arguments current_download_buffer {D G}.
Arguments current_download_size {D G}.
Arguments enable_async_task {D G}.
Arguments default_block {D G}.
Arguments gf_load_buffer {D G}.
Arguments gf_result {D G}.

Section Fields.
Context {D G : Type}.
Implicit Types b : GblFastboot D G.

Definition set_ops v b : GblFastboot D G := mkFb v (gf_disks b) (gf_pool b) (gf_tasks b) (gf_polls b) (current_download_buffer b)
  (current_download_size b) (enable_async_task b) (default_block b) (gf_load_buffer b) (gf_result b).
Definition set_disks v b : GblFastboot D G := mkFb (gf_ops b) v (gf_pool b) (gf_tasks b) (gf_polls b) (current_download_buffer b)
  (current_download_size b) (enable_async_task b) (default_block b) (gf_load_buffer b) (gf_result b).
Definition set_pool v b : GblFastboot D G := mkFb (gf_ops b) (gf_disks b) v (gf_tasks b) (gf_polls b) (current_download_buffer b)
  (current_download_size b) (enable_async_task b) (default_block b) (gf_load_buffer b) (gf_result b).
Definition set_tasks v b : GblFastboot D G := mkFb (gf_ops b) (gf_disks b) (gf_pool b) v (gf_polls b) (current_download_buffer b)
  (current_download_size b) (enable_async_task b) (default_block b) (gf_load_buffer b) (gf_result b).
Definition set_polls v b : GblFastboot D G := mkFb (gf_ops b) (gf_disks b) (gf_pool b) (gf_tasks b) v (current_download_buffer b)
  (current_download_size b) (enable_async_task b) (default_block b) (gf_load_buffer b) (gf_result b).
Definition set_download v n b : GblFastboot D G := mkFb (gf_ops b) (gf_disks b) (gf_pool b) (gf_tasks b) (gf_polls b) v
  n (enable_async_task b) (default_block b) (gf_load_buffer b) (gf_result b).
Definition set_async v b : GblFastboot D G := mkFb (gf_ops b) (gf_disks b) (gf_pool b) (gf_tasks b) (gf_polls b) (current_download_buffer b)
  (current_download_size b) v (default_block b) (gf_load_buffer b) (gf_result b).
Definition set_default_block v b : GblFastboot D G := mkFb (gf_ops b) (gf_disks b) (gf_pool b) (gf_tasks b) (gf_polls b)
  (current_download_buffer b) (current_download_size b) (enable_async_task b) v (gf_load_buffer b) (gf_result b).
Definition set_load_buffer v b : GblFastboot D G := mkFb (gf_ops b) (gf_disks b) (gf_pool b) (gf_tasks b) (gf_polls b)
  (current_download_buffer b) (current_download_size b) (enable_async_task b) (default_block b) v (gf_result b).
Definition set_result v b : GblFastboot D G := mkFb (gf_ops b) (gf_disks b) (gf_pool b) (gf_tasks b) (gf_polls b) (current_download_buffer b)
  (current_download_size b) (enable_async_task b) (default_block b) (gf_load_buffer b) v.

(** gbl/libgbl/src/fastboot/mod.rs:237-279, [GblFastboot::new]. *)
Definition gf_new (ops : G) (disks : list (GblDisk D)) (tasks : PinFutSlice (Task D)) (pool : list Buffer)
    (load_buffer : Buffer) : GblFastboot D G :=
  mkFb ops disks pool tasks 0 None 0 false None load_buffer (mkFbResult None None).
End Fields.

(** ** Arguments *)

Section Arguments.
Context {D : Type} `{!ShowError} `{!ShowSafeError}.

(** [?] on an [Error] and on a [SafeNum] conversion. *)
Definition fail_with {A} (text : list bytes) : CommandResult A :=
  match command_error (E:=CommandError) text with Ok e => Err e | _ => Panic end.
Definition or_fail {A} (r : result A) : CommandResult A :=
  match r with Ok a => Ok a | Err e => fail_with (show_error e) | Panic => Panic end.
Definition safe_or_fail (s : SafeNum) : CommandResult Z :=
  match s with Val v => Ok v | Bad e => fail_with (show_safe_error e) end.

(** The characters of a string. *)
Definition chars (s : bytes) : list Z := default [] (decode_utf8 s).

(** gbl/libgbl/src/fastboot/mod.rs:351-376, [GblFastboot::check_next_arg_blk_id]: the block
    and the arguments left. *)
Definition check_next_arg_blk_id (devs : list (GblDisk D)) (default_blk : option Z) (args : list bytes)
    : CommandResult (option Z * list bytes) :=
  let '(v, args) := next_arg_u64 args in
  v ← v;
  blk_id ← match v with
           | Some v => _ ← ok_or_str (devs !! Z.to_nat v) (str "Invalid block ID"); Ok (Some v)
           | None => Ok None
           end;
  let blk_id := match blk_id with Some _ => blk_id | None => default_blk end in
  let blk_id := match blk_id with
                | Some _ => blk_id
                | None => if zlen devs =? 1 then Some 0 else None
                end in
  Ok (blk_id, args).

(** gbl/libgbl/src/fastboot/mod.rs:378-402, [GblFastboot::parse_flash_gpt_args]. *)
Definition parse_flash_gpt_args (devs : list (GblDisk D)) (default_blk : option Z) (part : bytes)
    : CommandResult (option (Z * bool)) :=
  let '(a, args) := next_arg (split_on 47 part) in
  if negb (bool_decide (a = Some FLASH_GPT_PART)) then Ok None else
  '(blk_id, args) ← check_next_arg_blk_id devs default_blk args;
  blk_id ← ok_or_str blk_id (str "Block ID is required for flashing GPT");
  resize ← match (next_arg args).1 with
           | Some a => if bool_decide (a = str "resize") then Ok true else fail_str (str "Unknown argument")
           | None => Ok false
           end;
  Ok (Some (blk_id, resize)).

(** gbl/libgbl/src/fastboot/mod.rs:404-440, [GblFastboot::parse_partition]: the closure
    [find]. *)
Definition find_part {B : BlockIo D} (devs : list (GblDisk D)) (blk_id : option Z) (p : option bytes)
    : result (Z * GblPartition) :=
  match blk_id with
  | None =>
      p ← ok_or p (error_of_str "Must provide a partition");
      check_part_unique devs (chars p)
  | Some v =>
      d ← unwrap (devs !! Z.to_nat v);
      part ← gd_find_partition d (chars <$> p);
      Ok (v, part)
  end.

(** gbl/libgbl/src/fastboot/mod.rs:404-440, [GblFastboot::parse_partition]: the name of the
    partition, its device, and offset and size of the window in it. *)
Definition parse_partition {B : BlockIo D} (devs : list (GblDisk D)) (default_blk : option Z) (part : bytes)
    : CommandResult (option bytes * Z * Z * Z) :=
  let '(part, args) := next_arg (split_on 47 part) in
  '(blk_id, args) ← check_next_arg_blk_id devs default_blk args;
  let '(off, args) := next_arg_u64 args in
  off ← off;
  let window_offset := default 0 off in
  window_size ← (next_arg_u64 args).1;
  '((blk_id, partition), actual) ← or_fail
    (match find_part devs blk_id part with
     | Err NotFound =>
         if bool_decide (part = Some (str "fvm"))
         then r ← find_part devs blk_id (Some (str "fuchsia-fvm")); Ok (r, Some (str "fuchsia-fvm"))
         else Err NotFound
     | r => r ← r; Ok (r, part)
     end);
  part_sz ← or_fail (part_size partition);
  rest ← safe_or_fail (Val part_sz -! Val window_offset);
  let window_size := default rest window_size in
  _ ← safe_or_fail (Val part_sz -! Val window_size -! Val window_offset);
  Ok (actual, blk_id, window_offset, window_size).
End Arguments.

(** ** Tasks *)

Section Backend.
Context {D G : Type} `{!BlockIo D} `{!GblOps G} `{!Hasher} `{!UnstableSort} `{!ShowError} `{!ShowSafeError}.
Context (ready : nat → bool) (fuel : nat) (abr_addr : Z).
Abbreviation Fb := (GblFastboot D G).
Abbreviation Cmd := (ST Fb CommandError).

(** [?] in a method. *)
Definition try {A} (r : result A) : Cmd A := lift (or_fail r).
(** A call that does not return. *)
Definition hang {E A} : ST Fb E A := lift Panic.

(** The drop of an IO for the device [dev], and of a buffer of the pool. *)
Definition release_io {E} (dev : Z) (io : PartitionIo D) : ST Fb E unit :=
  b ← gets id;
  d ← lift (unwrap (gf_disks b !! Z.to_nat dev));
  modify (set_disks (<[Z.to_nat dev := drop_io io d]> (gf_disks b))).
Definition release_buffer {E} (buf : Buffer) : ST Fb E unit :=
  b ← gets id;
  pool ← lift (pool_deallocate buf (gf_pool b));
  modify (set_pool pool).

(** An operation of a task on its IO and its buffer, which are dropped at the end. *)
Definition with_task_io {A} (dev : Z) (io : PartitionIo D) (buf : Buffer)
    (m : ST (PartitionIo D * bytes) Error A) (done : A → bool) : ST Fb Error unit := λ b,
  match m (io, buf_bytes buf) with
  | (Panic, _) => (Panic, b)
  | (r, (io, bs)) =>
      (release_io dev io;;
       release_buffer (mkBuffer (buf_addr buf) bs);;
       match r with
       | Ok a => if done a then mret tt else hang
       | Err e => raise e
       | Panic => hang
       end) b
  end.

(** gbl/libgbl/src/fastboot/mod.rs:77-85, [TaskWorkload::run]. *)
Definition workload_run (w : TaskWorkload D) : ST Fb Error unit :=
  match w with
  | TFlash dev io data sz =>
      with_task_io dev io data
        (λ s, match get_range (snd s) 0 sz with
              | None => (Panic, s)
              | Some sub =>
                  let '(r, (io, sub)) := pio_write (buf_addr data) 0 (fst s, sub) in
                  (r, (io, splice (snd s) 0 sub))
              end) (λ _, true)
  | TFlashSparse dev io data =>
      with_task_io dev io data (pio_write_sparse fuel (buf_addr data) 0) id
  | TErase dev io buffer =>
      with_task_io dev io buffer (pio_zeroize fuel (buf_addr buffer)) id
  | TNone => mret tt
  end.

(** gbl/libgbl/src/fastboot/mod.rs:95-98, [Task::new]. *)
Definition task_new (w : TaskWorkload D) : Task D := mkTask w (zeros MAX_COMMAND_SIZE).

(** gbl/libgbl/src/fastboot/mod.rs:100-103, [Task::set_context]. *)
Definition task_set_context (text : list bytes) (t : Task D) : Task D :=
  mkTask (t_workload t)
    (match write_all (new (t_context t)) text with Ok f => buf f | _ => t_context t end).

(** gbl/libgbl/src/fastboot/mod.rs:105-108, [Task::run_checked]. *)
Definition run_checked (t : Task D) : ST Fb Error unit := workload_run (t_workload t).

(** gbl/libgbl/src/fastboot/mod.rs:110-122, [Task::run]: polled once. A task that fails
    panics. *)
Definition poll_task (t : Task D) : ST Fb CommandError (bool * Task D) := λ b,
  let b' := set_polls (S (gf_polls b)) b in
  if ready (gf_polls b) then
    match workload_run (t_workload t) b' with
    | (Ok _, b) => (Ok (true, mkTask TNone (t_context t)), b)
    | (_, b) => (Panic, b)
    end
  else (Ok (false, t), b').

(** [self.tasks.borrow_mut().poll_all()]. *)
Definition poll_tasks : Cmd Z := λ b,
  let '(r, (p, b)) := poll_all poll_task (gf_tasks b, b) in (r, set_tasks p b).
(** [yield_now().await]: the executor polls the tasks. *)
Definition yield_now : Cmd unit := poll_tasks;; mret tt.

(** ** Waiting *)

(** gbl/libgbl/src/fastboot/mod.rs:447-459, [GblFastboot::wait_partition_io]. *)
Fixpoint wait_partition_io (n : nat) (blk : Z) (part : option bytes) : Cmd (PartitionIo D) :=
  b ← gets id;
  d ← lift (unwrap (gf_disks b !! Z.to_nat blk));
  match partition_io d (chars <$> part) with
  | Err NotReady =>
      match n with
      | O => hang
      | S n => yield_now;; wait_partition_io n blk part
      end
  | r =>
      '(io, d) ← try r;
      modify (set_disks (<[Z.to_nat blk := d]> (gf_disks b)));;
      mret io
  end.

(** gbl/libgbl/src/fastboot/mod.rs:461-468, [GblFastboot::parse_and_get_partition_io]. *)
Definition parse_and_get_partition_io (part : bytes) : Cmd (Z * PartitionIo D) :=
  b ← gets id;
  '(part, blk_idx, start, sz) ← lift (parse_partition (gf_disks b) (default_block b) part);
  io ← wait_partition_io fuel blk_idx part;
  match pio_sub io start sz with
  | Ok io => mret (blk_idx, io)
  | r => release_io blk_idx io;; _ ← try r; hang
  end.

(** gbl/libgbl/src/fastboot/buffer_pool.rs:61-69, [Shared::allocate_async]. *)
Fixpoint allocate_async (n : nat) : Cmd Buffer :=
  b ← gets id;
  match pool_allocate (gf_pool b) with
  | Some (v, pool) => modify (set_pool pool);; mret v
  | None => match n with O => hang | S n => yield_now;; allocate_async n end
  end.

(** gbl/libgbl/src/fastboot/mod.rs:623-628, [FastbootImplementation::get_download_buffer for GblFastboot]. *)
Definition get_download_buffer : Cmd Buffer :=
  b ← gets id;
  match current_download_buffer b with
  | Some v => mret v
  | None =>
      v ← allocate_async fuel;
      b ← gets id;
      modify (set_download (Some v) (current_download_size b));;
      mret v
  end.

(** gbl/libgbl/src/fastboot/mod.rs:442-445, [GblFastboot::take_download]. *)
Definition take_download : Cmd (option (Buffer * Z)) :=
  b ← gets id;
  match current_download_buffer b with
  | None => mret None
  | Some v => modify (set_download None 0);; mret (Some (v, current_download_size b))
  end.

(** gbl/libgbl/src/fastboot/mod.rs:496-502, [GblFastboot::sync_all_blocks]: the devices from
    [idx] on, [n] of them. The IO of each is dropped at once, an error ignored. *)
Fixpoint sync_blocks (n : nat) (idx : Z) : Cmd unit :=
  match n with
  | O => mret tt
  | S n =>
      r ← attempt (wait_partition_io fuel idx None);
      match r with inl io => release_io idx io | inr _ => mret tt end;;
      sync_blocks n (idx + 1)
  end.
(** gbl/libgbl/src/fastboot/mod.rs:496-502, [GblFastboot::sync_all_blocks]. *)
Definition sync_all_blocks : Cmd unit :=
  b ← gets id; sync_blocks (length (gf_disks b)) 0.

(** gbl/libgbl/src/fastboot/mod.rs:470-494, [GblFastboot::schedule_task]: waiting for a place
    in the task container. *)
Fixpoint add_task (n : nat) (t : Task D) : Cmd unit :=
  b ← gets id;
  let '(added, p) := add_with t (gf_tasks b) in
  modify (set_tasks p);;
  if added then mret tt else
  match n with O => hang | S n => yield_now;; add_task n t end.

Definition ASYNC_INFO : bytes :=
  str "An async task is launched. To sync manually, run " ++ [34] ++
  str "oem gbl-sync-tasks" ++ [34] ++ str ".".

(** A method whose only message is one INFO: the part before it, the message, and
    the result if the message was sent. *)
Definition reply_info (r : CommandResult (option bytes) * Fb) : info_act (CommandResult unit * Fb) :=
  match r with
  | (Ok None, b) => IRet (Ok tt, b)
  | (Ok (Some msg), b) =>
      IInfo [msg] (λ e, IRet (match e with inl _ => Ok tt | inr e => fail_with (show_error e) end, b))
  | (Err e, b) => IRet (Err e, b)
  | (Panic, b) => IRet (Panic, b)
  end.

(** gbl/libgbl/src/fastboot/mod.rs:470-494, [GblFastboot::schedule_task]: the message that is
    sent at the end. *)
Definition schedule_task (t : Task D) : Cmd (option bytes) :=
  b ← gets id;
  if enable_async_task b then
    add_task fuel t;;
    poll_tasks;;
    mret (Some ASYNC_INFO)
  else λ b, match run_checked t b with
            | (r, b) => (match or_fail r with Ok _ => Ok None | Err e => Err e | Panic => Panic end, b)
            end.

(** ** Commands *)

(** [disks[idx]], for one operation. *)
Definition on_disk_dev {A} (idx : Z) (m : ST (GblDisk D) Error A) : ST Fb Error A := λ b,
  match gf_disks b !! Z.to_nat idx with
  | None => (Panic, b)
  | Some d => let '(r, d) := m d in (r, set_disks (<[Z.to_nat idx := d]> (gf_disks b)) b)
  end.

(** What [flash] and [erase] answer for a GPT operation. *)
Definition gpt_answer {A} (r : result A) : CommandResult A :=
  match r with
  | Err NotReady => Panic
  | Err Unsupported => fail_str (str "Block device is not for GPT")
  | r => or_fail r
  end.

(** [self.wait_partition_io(idx, None).await?], whose IO is dropped at once. *)
Definition wait_idle (idx : Z) : Cmd unit :=
  io ← wait_partition_io fuel idx None; release_io idx io.

(** gbl/libgbl/src/fastboot/mod.rs:639-662, [FastbootImplementation::flash for GblFastboot]: of a GPT,
    when the message has been sent. *)
Definition flash_gpt (blk_idx : Z) (resize : bool) (gpt : Buffer) (size : Z) : Cmd unit := λ b,
  match get_range (buf_bytes gpt) 0 size with
  | None => (Panic, b)
  | Some mbr =>
      let '(r, b) := on_disk_dev blk_idx (gd_update_gpt resize (buf_addr gpt) mbr) b in
      (release_buffer gpt;; lift (gpt_answer r)) b
  end.

(** gbl/libgbl/src/fastboot/mod.rs:639-662, [FastbootImplementation::flash for GblFastboot]: the task
    for the downloaded image. *)
Definition flash_task (part : bytes) : Cmd (Task D) :=
  '(dev, part_io) ← parse_and_get_partition_io part;
  dl ← take_download;
  match dl with
  | None => release_io dev part_io;; lift (fail_str (str "No download"))
  | Some (data, sz) =>
      let drop_both {A} (r : result A) : Cmd (Task D) :=
        release_io dev part_io;; release_buffer data;; _ ← try r; hang in
      match is_sparse_image (buf_bytes data) with
      | Ok v =>
          n ← lift (unwrap_res (data_size v));
          match pio_sub part_io 0 n with
          | Ok io => mret (task_new (TFlashSparse dev io data))
          | r => drop_both r
          end
      | Panic => hang
      | Err _ =>
          match pio_sub part_io 0 sz with
          | Ok io => mret (task_new (TFlash dev io data sz))
          | r => drop_both r
          end
      end
  end.

(** gbl/libgbl/src/fastboot/mod.rs:639-662, [FastbootImplementation::flash for GblFastboot]. *)
Definition gf_flash (b : Fb) (part : bytes) : info_act (CommandResult unit * Fb) :=
  match parse_flash_gpt_args (gf_disks b) (default_block b) part with
  | Err e => IRet (Err e, b)
  | Panic => IRet (Panic, b)
  | Ok (Some (blk_idx, resize)) =>
      match (wait_idle blk_idx;; take_download) b with
      | (Ok (Some (gpt, size)), b) =>
          IInfo [str "Updating GPT..."] (λ e, IRet
            (match e with
             | inl _ => flash_gpt blk_idx resize gpt size b
             | inr e => (release_buffer gpt;; lift (fail_with (show_error e))) b
             end))
      | (Ok None, b) => IRet (fail_str (str "No GPT downloaded"), b)
      | (Err e, b) => IRet (Err e, b)
      | (Panic, b) => IRet (Panic, b)
      end
  | Ok None =>
      reply_info ((t ← flash_task part;
                   schedule_task (task_set_context [str "flash:"; part] t)) b)
  end.

(** gbl/libgbl/src/fastboot/mod.rs:664-682, [FastbootImplementation::erase for GblFastboot]: of a GPT. *)
Definition erase_gpt_dev (blk_idx : Z) : Cmd unit := λ b,
  let '(r, b) := on_disk_dev blk_idx (gd_erase_gpt fuel) b in
  (done ← gpt_answer r; if done : bool then Ok tt else Panic, b).

(** gbl/libgbl/src/fastboot/mod.rs:664-682, [FastbootImplementation::erase for GblFastboot]. *)
Definition gf_erase (b : Fb) (part : bytes) : info_act (CommandResult unit * Fb) :=
  match parse_flash_gpt_args (gf_disks b) (default_block b) part with
  | Err e => IRet (Err e, b)
  | Panic => IRet (Panic, b)
  | Ok (Some (blk_idx, _)) =>
      IRet ((wait_idle blk_idx;; erase_gpt_dev blk_idx) b)
  | Ok None =>
      reply_info (('(dev, part_io) ← parse_and_get_partition_io part;
                   get_download_buffer;;
                   dl ← take_download;
                   '(buffer, _) ← lift (unwrap dl);
                   schedule_task (task_set_context [str "erase:"; part]
                     (task_new (TErase dev part_io buffer)))) b)
  end.

(** gbl/libgbl/src/fastboot/mod.rs:630-637, [FastbootImplementation::download_complete for GblFastboot]. *)
Definition gf_download_complete (b : Fb) (download_size : Z) : info_act (CommandResult unit * Fb) :=
  IRet (Ok tt, set_download (current_download_buffer b) download_size b).

(** gbl/libgbl/src/fastboot/mod.rs:684-686, [FastbootImplementation::upload for GblFastboot]. *)
Definition gf_upload (b : Fb) : upload_act (CommandResult unit * Fb) :=
  BRet (fail_str (str "Unimplemented"), b).

(** The end of a [fetch]: its IO is dropped. *)
Definition end_fetch (dev : Z) (io : PartitionIo D) (r : CommandResult unit) : Cmd unit :=
  release_io dev io;; lift r.

(** gbl/libgbl/src/fastboot/mod.rs:688-710, [FastbootImplementation::fetch for GblFastboot]: the loop,
    [n] rounds of it. The data is read into the download buffer. *)
Fixpoint fetch_loop (n : nat) (dev : Z) (io : PartitionIo D) (buffer : Buffer) (curr end_ : Z) (b : Fb)
    : uploading (CommandResult unit * Fb) :=
  if negb (curr <? end_) then URet (end_fetch dev io (Ok tt) b) else
  match n with
  | O => URet (Panic, b)
  | S n =>
      let to_send := Z.min (end_ - curr) (zlen (buf_bytes buffer)) in
      match pio_read (buf_addr buffer) curr (io, slice (buf_bytes buffer) 0 to_send) with
      | (Panic, _) => URet (Panic, b)
      | (r, (io, data)) =>
          let buffer := mkBuffer (buf_addr buffer) (splice (buf_bytes buffer) 0 data) in
          let b := set_download (Some buffer) (current_download_size b) b in
          match r with
          | Ok _ =>
              UData data (λ e,
                match e, arith (E:=CommandError) 64 (curr + to_send) with
                | inr e, _ => URet (end_fetch dev io (fail_with (show_error e)) b)
                | inl _, Ok curr => fetch_loop n dev io buffer curr end_ b
                | inl _, _ => URet (Panic, b)
                end)
          | Err e => URet (end_fetch dev io (fail_with (show_error e)) b)
          | Panic => URet (Panic, b)
          end
      end
  end.

(** gbl/libgbl/src/fastboot/mod.rs:688-710, [FastbootImplementation::fetch for GblFastboot]. *)
Definition gf_fetch (b : Fb) (part : bytes) (offset size : Z) : upload_act (CommandResult unit * Fb) :=
  match ('(dev, io) ← parse_and_get_partition_io part; buffer ← get_download_buffer; mret (dev, io, buffer)) b with
  | (Err e, b) => BRet (Err e, b)
  | (Panic, b) => BRet (Panic, b)
  | (Ok (dev, io, buffer), b) =>
      match safe_or_fail (Val offset +! Val size) with
      | Ok end_ =>
          BInfo [str "Uploading "; fmt_dec size; str " bytes..."] (λ e,
            match e with
            | inl _ =>
                BStart size (λ e, end_fetch dev io (fail_with (show_error e)) b)
                  (fetch_loop fuel dev io buffer offset end_ b)
            | inr e => BRet (end_fetch dev io (fail_with (show_error e)) b)
            end)
      | Err e => BRet (end_fetch dev io (Err e) b)
      | Panic => BRet (Panic, b)
      end
  end.

(** The part of the state that [GblOps] methods work on. *)
Definition on_ops {A} (m : ST (list (GblDisk D) * G) Error A) : ST Fb Error A :=
  zoom (λ b, (gf_disks b, gf_ops b)) (λ s b, set_ops (snd s) (set_disks (fst s) b)) m.
(** [?] on such a call. *)
Definition try_ops {A} (m : ST (list (GblDisk D) * G) Error A) : Cmd A := λ b,
  let '(r, b) := on_ops m b in (or_fail r, b).
#[local] Instance fb_abr_ops : Ops (list (GblDisk D)) := GblAbrOps abr_addr.

(** gbl/libgbl/src/fastboot/mod.rs:514-543, [GblFastboot::sync_tasks_and_reboot]: the reboot
    when everything has been sent. *)
Definition do_reboot (b : Fb) : Fb := set_ops (platform_reboot (gf_ops b)) b.

(** An INFO message in a [reboot], whose error is the answer. *)
Definition okay_info (msg : bytes) (b : Fb) (k : okay_act (option CommandError * Fb))
    : okay_act (option CommandError * Fb) :=
  OInfo [msg] (λ e,
    match e with
    | inl _ => k
    | inr e => ORet (match command_error (E:=Error) (show_error e) with Ok e => Some e | _ => None end, b)
    end).

(** gbl/libgbl/src/fastboot/mod.rs:514-543, [GblFastboot::sync_tasks_and_reboot] and
    [FastbootImplementation::reboot for GblFastboot], which answers its error, or
    that the error is not known. *)
Definition gf_reboot (b : Fb) (mode : RebootMode) : okay_act (option CommandError * Fb) :=
  let answer (r : CommandResult unit) : option CommandError :=
    match r with
    | Err e => Some e
    | Ok _ => match fail_str (A:=unit) (str "Unknown") with Err e => Some e | _ => None end
    | Panic => None
    end in
  let okay b :=
    OOkay [[]] (λ e,
      match e with
      | inl _ => (answer (Ok tt), do_reboot b)
      | inr e => (answer (fail_with (show_error e)), b)
      end) in
  let prepared (m : Cmd unit) (msg : bytes) b :=
    match m b with
    | (Ok _, b) => okay_info msg b (okay b)
    | (r, b) => ORet (answer r, b)
    end in
  okay_info (str "Syncing storage...") b
    (match sync_all_blocks b with
     | (Ok _, b) =>
         match mode with
         | RebootNormal => okay_info (str "Rebooting...") b (okay b)
         | RebootBootloader => prepared (try_ops (reboot_bootloader abr_addr)) (str "Rebooting to bootloader...") b
         | RebootRecovery => prepared (try_ops (reboot_recovery abr_addr)) (str "Rebooting to recovery...") b
         | RebootFastboot => ORet (answer (fail_str (str "Unsupported")), b)
         end
     | (r, b) => ORet (answer r, b)
     end).

(** gbl/libgbl/src/fastboot/mod.rs:723-726, [FastbootImplementation::r#continue for GblFastboot]. *)
Definition gf_continue (b : Fb) : info_act (CommandResult unit * Fb) :=
  IInfo [str "Syncing storage..."] (λ e, IRet
    (match e with
     | inl _ => sync_all_blocks b
     | inr e => (fail_with (show_error e), b)
     end)).

(** gbl/libgbl/src/fastboot/mod.rs:575-594, [GblFastboot::set_active_slot]. *)
Definition gf_set_active_slot (slot : bytes) : Cmd unit :=
  sync_all_blocks;;
  fuchsia ← try_ops expected_os_is_fuchsia;
  if fuchsia : bool then
    i ← lift (if bool_decide (slot = str "a") then Ok SlotA
              else if bool_decide (slot = str "b") then Ok SlotB
              else fail_str (str "Invalid slot index for Fuchsia A/B/R"));
    try_ops (on_devices (mark_slot_active i))
  else
    c ← lift (unwrap (head (chars slot)));
    c ← lift (match checked 8 c with
              | Some c => Ok c
              | None => fail_str (str "unicode code point out of range")
              end);
    idx ← lift (arith 8 (c - 97));
    try_ops (on_platform (platform_set_active_slot idx)).

(** gbl/libgbl/src/fastboot/mod.rs:728-737, [FastbootImplementation::set_active for GblFastboot]. *)
Definition gf_set_active (b : Fb) (slot : bytes) : info_act (CommandResult unit * Fb) :=
  IRet ((if zlen slot >? 1 then lift (fail_str (str "Slot suffix must be one character")) else
         slot_ch ← lift (ok_or_str (head (chars slot)) (str "Invalid slot"));
         gf_set_active_slot slot;;
         modify (λ b, set_result (mkFbResult (loaded_image_info (gf_result b)) (Some slot_ch)) b)) b).
End Backend.
