(* ===== verification/GblVars.v ===== *)
(** * libgbl: fastboot variables and OEM commands

    Models src/gbl/libgbl/src/fastboot/vars.rs and the rest of the commands of
    src/gbl/libgbl/src/fastboot/mod.rs, and makes [GblFastboot] a backend of the
    fastboot engine. The ZBI container of the [zbi] crate and the loading of
    Android images by [boot] are parameters. *)

From S2P Require Import Prelude SafeMath LibError Text Utils Abr Crc Slots Block Disk.
From S2P Require Import GptData Gpt Sparse Partition GblOps Fastboot FastbootTasks GblFastboot.
Import SafeNum FormattedBytes.

(** gbl/libgbl/src/fastboot/vars.rs:38-38, [VERSION_BOOTLOADER]. *)
Definition VERSION_BOOTLOADER : bytes := str "version-bootloader".
(** gbl/libgbl/src/fastboot/vars.rs:39-39, [VERSION_BOOTLOADER_VAL]. *)
Definition VERSION_BOOTLOADER_VAL : bytes := str "1.0".
(** gbl/libgbl/src/fastboot/vars.rs:41-41, [MAX_FETCH_SIZE]. *)
Definition MAX_FETCH_SIZE : bytes := str "max-fetch-size".
(** gbl/libgbl/src/fastboot/vars.rs:42-42, [MAX_FETCH_SIZE_VAL]. *)
Definition MAX_FETCH_SIZE_VAL : bytes := str "0xffffffffffffffff".
(** gbl/libgbl/src/fastboot/vars.rs:100-100, [PARTITION_SIZE]. *)
Definition PARTITION_SIZE : bytes := str "partition-size".
(** gbl/libgbl/src/fastboot/vars.rs:101-101, [PARTITION_TYPE]. *)
Definition PARTITION_TYPE : bytes := str "partition-type".
(** gbl/libgbl/src/fastboot/vars.rs:152-152, [BLOCK_DEVICE]. *)
Definition BLOCK_DEVICE : bytes := str "block-device".
(** gbl/libgbl/src/fastboot/vars.rs:153-153, [TOTAL_BLOCKS]. *)
Definition TOTAL_BLOCKS : bytes := str "total-blocks".
(** gbl/libgbl/src/fastboot/vars.rs:154-154, [BLOCK_SIZE]. *)
Definition BLOCK_SIZE : bytes := str "block-size".
(** gbl/libgbl/src/fastboot/vars.rs:155-155, [BLOCK_DEVICE_STATUS]. *)
Definition BLOCK_DEVICE_STATUS : bytes := str "status".
(** gbl/libgbl/src/fastboot/vars.rs:217-217, [DEFAULT_BLOCK]. *)
Definition DEFAULT_BLOCK : bytes := str "gbl-default-block".

(** [ZbiContainer] of the [zbi] crate, on the buffer that holds it: whether it
    can be parsed, a new container, the place of the next payload, and a new
    entry of that payload. *)
Class ZbiContainer := {
  ZBI_ALIGNMENT : Z;
  zbi_parses : bytes → bool;
  zbi_new : bytes → outcome (list bytes) bytes;
  zbi_next_payload : bytes → outcome (list bytes) (Z * Z);
  zbi_create_entry : bytes → Z → outcome (list bytes) bytes;
}.
(** [GblOps::get_zbi_bootloader_files_buffer]: address, contents and the platform
    with other contents. *)
Class ZbiFiles (G : Type) := zbi_files_buffer : G → option (Z * bytes * (bytes → G)).

(** gbl/libgbl/src/fastboot/mod.rs:803-806, [to_range]: its bounds. *)
Definition to_range {E} (off len : Z) : outcome E (Z * Z) :=
  end_ ← unwrap (checked 64 (off + len)); Ok (off, end_).

Section Vars.
Context {D G : Type} `{!BlockIo D} `{!GblOps G} `{!Hasher} `{!UnstableSort} `{!ShowError} `{!ShowSafeError}.
Context `{!ZbiContainer} `{!ZbiFiles G}.
Context (ready : nat → bool) (fuel : nat) (abr_addr : Z).
Abbreviation Fb := (GblFastboot D G).

(** [snprintf!] into [out]: the text and the buffer. *)
Definition print (out : bytes) (pieces : list bytes) : CommandResult (bytes * bytes) :=
  '(out, s) ← unwrap_res (snprintf out pieces);
  Ok (utf8_bytes s, out).

(** gbl/libgbl/src/fastboot/vars.rs:103-111, [GblFastboot::get_var_partition_size]. *)
Definition get_var_partition_size (b : Fb) (args : list bytes) (out : bytes) : CommandResult (bytes * bytes) :=
  part ← ok_or_str (head args) (str "Missing partition");
  '(_, _, _, sz) ← parse_partition (gf_disks b) (default_block b) part;
  print out [fmt_hex0x sz].

(** gbl/libgbl/src/fastboot/vars.rs:113-121, [GblFastboot::get_var_partition_type]. *)
Definition get_var_partition_type (b : Fb) (args : list bytes) (out : bytes) : CommandResult (bytes * bytes) :=
  part ← ok_or_str (head args) (str "Missing partition");
  _ ← parse_partition (gf_disks b) (default_block b) part;
  print out [str "raw"].

(** gbl/libgbl/src/fastboot/vars.rs:157-180, [GblFastboot::get_var_block_device]. *)
Definition get_var_block_device (b : Fb) (args : list bytes) (out : bytes) : CommandResult (bytes * bytes) :=
  let '(id, args) := next_arg_u64 args in
  id ← id;
  id ← ok_or_str id (str "Missing block device ID");
  val_type ← ok_or_str (next_arg args).1 (str "Missing value type");
  blk ← unwrap (gf_disks b !! Z.to_nat id);
  let info := gd_block_info blk in
  if bool_decide (val_type = TOTAL_BLOCKS) then print out [fmt_hex0x (num_blocks info)]
  else if bool_decide (val_type = BLOCK_SIZE) then print out [fmt_hex0x (block_size info)]
  else if bool_decide (val_type = BLOCK_DEVICE_STATUS) then print out [status_to_str (gd_status blk)]
  else fail_str (str "Invalid type").

(** gbl/libgbl/src/fastboot/vars.rs:219-225, [GblFastboot::get_var_default_block]. *)
Definition get_var_default_block (b : Fb) (out : bytes) : CommandResult (bytes * bytes) :=
  match default_block b with
  | Some v => print out [fmt_hex0x v]
  | None => print out [str "None"]
  end.

(** gbl/libgbl/src/fastboot/vars.rs:44-67, [GblFastboot::get_var_internal]: the value, the
    buffer and the backend. *)
Definition get_var_internal (b : Fb) (name : bytes) (args : list bytes) (out : bytes)
    : CommandResult bytes * bytes * Fb :=
  let answer (r : CommandResult (bytes * bytes)) :=
    match r with
    | Ok (v, out) => (Ok v, out, b)
    | Err e => (Err e, out, b)
    | Panic => (Panic, out, b)
    end in
  match list_find (λ v, is_utf8 v = false) args with
  | Some (_, v) => (fail_with [show_utf8_error v], out, b)
  | None =>
      if negb (is_utf8 name) then (fail_with [show_utf8_error name], out, b)
      else if bool_decide (name = VERSION_BOOTLOADER) then answer (print out [VERSION_BOOTLOADER_VAL])
      else if bool_decide (name = MAX_FETCH_SIZE) then answer (print out [MAX_FETCH_SIZE_VAL])
      else if bool_decide (name = PARTITION_SIZE) then answer (get_var_partition_size b args out)
      else if bool_decide (name = PARTITION_TYPE) then answer (get_var_partition_type b args out)
      else if bool_decide (name = BLOCK_DEVICE) then answer (get_var_block_device b args out)
      else if bool_decide (name = DEFAULT_BLOCK) then answer (get_var_default_block b out)
      else
        let '(r, (g, out)) := fastboot_variable name args (gf_ops b, out) in
        (sz ← or_fail r;
         v ← ok_or_str (get_range out 0 sz) (str "Invalid variable value size");
         (if is_utf8 v then Ok v else fail_with [show_utf8_error v]), out, set_ops g b)
  end.

(** gbl/libgbl/src/fastboot/mod.rs:609-617, [FastbootImplementation::get_var for GblFastboot]. *)
Definition gf_get_var (b : Fb) (var : bytes) (args : list bytes) (out : bytes)
    : info_act (CommandResult Z * bytes * Fb) :=
  let '(r, out, b) := get_var_internal b var args out in
  IRet (v ← r; Ok (zlen v), out, b).

(** ** All variables *)

(** A list of variables to be sent one after the other; an error is the answer. *)
Fixpoint send_vars {A} (vars : list (bytes * list bytes * bytes)) (fail : Error → A) (k : var_act A) : var_act A :=
  match vars with
  | [] => k
  | (name, args, val) :: vars =>
      VInfo name args val (λ e,
        match e with inl _ => send_vars vars fail k | inr e => VRet (fail e) end)
  end.

(** [snprintf!] into a buffer of [n] bytes. *)
Definition text (n : Z) (pieces : list bytes) : CommandResult bytes :=
  '(v, _) ← print (zeros n) pieces; Ok v.

(** gbl/libgbl/src/fastboot/vars.rs:182-215, [GblFastboot::get_all_block_device]: the variables
    of one device. *)
Definition block_device_vars (idx : Z) (blk : GblDisk D) : CommandResult (list (bytes * list bytes * bytes)) :=
  id ← text 32 [fmt_hex idx];
  let info := gd_block_info blk in
  total ← text 32 [fmt_hex0x (num_blocks info)];
  size ← text 32 [fmt_hex0x (block_size info)];
  status ← text 32 [status_to_str (gd_status blk)];
  Ok [(BLOCK_DEVICE, [id; TOTAL_BLOCKS], total); (BLOCK_DEVICE, [id; BLOCK_SIZE], size);
      (BLOCK_DEVICE, [id; BLOCK_DEVICE_STATUS], status)].

(** gbl/libgbl/src/fastboot/vars.rs:123-150, [GblFastboot::get_all_partition_size_type]: the
    variables of the partition [ptn_idx] of a device. *)
Definition partition_vars (idx : Z) (blk : GblDisk D) (ptn_idx : nat)
    : CommandResult (list (bytes * list bytes * bytes)) :=
  ptn ← or_fail (gd_get_partition_by_idx blk (Z.of_nat ptn_idx));
  sz ← or_fail (part_size ptn);
  name ← or_fail (part_name ptn);
  part ← text 128 [utf8_bytes name; str "/"; fmt_hex idx];
  size ← text 32 [fmt_hex0x sz];
  Ok [(PARTITION_SIZE, [part], size); (PARTITION_TYPE, [part], str "raw")].

(** The variables of a list, each computed when the ones before have been sent. *)
Fixpoint send_each {A X} (l : list X) (vars : X → CommandResult (list (bytes * list bytes * bytes)))
    (fail : CommandResult unit → A) (k : var_act A) : var_act A :=
  match l with
  | [] => k
  | x :: l =>
      match vars x with
      | Ok vs => send_vars vs (λ e, fail (fail_with (show_error e))) (send_each l vars fail k)
      | Err e => VRet (fail (Err e))
      | Panic => VRet (fail Panic)
      end
  end.

(** gbl/libgbl/src/fastboot/vars.rs:182-215, [GblFastboot::get_all_block_device]. *)
Definition get_all_block_device {A} (b : Fb) (fail : CommandResult unit → A) (k : var_act A) : var_act A :=
  send_each (imap (λ i d, (Z.of_nat i, d)) (gf_disks b)) (λ '(i, d), block_device_vars i d) fail k.

(** [blk.num_partitions().unwrap_or(0)]. *)
Definition partitions_of (blk : GblDisk D) : list nat :=
  match gd_num_partitions blk with Ok n => seq 0 (Z.to_nat n) | _ => [] end.

(** gbl/libgbl/src/fastboot/vars.rs:123-150, [GblFastboot::get_all_partition_size_type]. *)
Definition get_all_partition_size_type {A} (b : Fb) (fail : CommandResult unit → A) (k : var_act A) : var_act A :=
  send_each (mjoin (imap (λ i d, (λ n, (Z.of_nat i, d, n)) <$> partitions_of d) (gf_disks b)))
    (λ '(i, d, n), partition_vars i d n) fail k.

(** gbl/libgbl/src/fastboot/vars.rs:69-98, [GblFastboot::get_var_all_internal]: the variables of
    the platform. Errors of the transport are ignored, and the tasks are polled
    meanwhile. *)
Definition text_or (s : bytes) : bytes := if is_utf8 s then s else str "?".
Fixpoint send_platform (vars : list (list bytes * bytes)) (b : Fb) (r : CommandResult unit)
    : var_act (CommandResult unit * Fb) :=
  match vars with
  | [] => VRet (r, b)
  | ([], _) :: vars => send_platform vars b r
  | (name :: args, val) :: vars =>
      VInfo (text_or name) (text_or <$> args) (text_or val) (λ _,
        match poll_tasks ready fuel b with
        | (Ok _, b) => send_platform vars b r
        | (_, b) => VRet (Panic, b)
        end)
  end.

(** gbl/libgbl/src/fastboot/vars.rs:69-98, [GblFastboot::get_var_all_internal]. *)
Definition gf_get_var_all (b : Fb) : var_act (CommandResult unit * Fb) :=
  let fail (r : CommandResult unit) := (r, b) in
  send_vars [(VERSION_BOOTLOADER, [], VERSION_BOOTLOADER_VAL); (MAX_FETCH_SIZE, [], MAX_FETCH_SIZE_VAL)]
    (λ e, fail (fail_with (show_error e)))
    (get_all_block_device b fail
      (match get_var_default_block b (zeros 32) with
       | Ok (v, _) =>
           send_vars [(DEFAULT_BLOCK, [], v)] (λ e, fail (fail_with (show_error e)))
             (get_all_partition_size_type b fail
               (let '(vars, r, g) := fastboot_visit_all_variables (gf_ops b) in
                send_platform vars (set_ops g b) (or_fail r)))
       | Err e => VRet (fail (Err e))
       | Panic => VRet (fail Panic)
       end)).

(** ** OEM commands *)

(** gbl/libgbl/src/fastboot/mod.rs:545-573, [GblFastboot::add_staged_bootloader_file]. *)
Definition add_staged_bootloader_file (file_name : bytes) : ST Fb CommandError unit :=
  b ← gets id;
  '(addr, whole, put) ← lift (ok_or_str (zbi_files_buffer (gf_ops b)) (str "No ZBI bootloader file buffer is provided"));
  '(o, buffer) ← lift (match aligned_subslice addr whole (Val ZBI_ALIGNMENT) with
                       | Ok v => Ok v
                       | Err _ => fail_str (str "No ZBI bootloader file buffer is provided")
                       | Panic => Panic
                       end);
  data ← lift (ok_or_str (current_download_buffer b) (str "No file staged"));
  data ← lift (index_range (buf_bytes data) 0 (current_download_size b));
  let or_zbi {A} (r : outcome (list bytes) A) : CommandResult A :=
    match r with Ok a => Ok a | Err t => fail_with t | Panic => Panic end in
  zbi ← lift (if zbi_parses buffer then Ok buffer else or_zbi (zbi_new buffer));
  modify (set_ops (put (splice whole o zbi)));;
  '(start, len) ← lift (or_zbi (zbi_next_payload zbi));
  let content := 1 + zlen file_name + zlen data in
  lift (if content <=? len then Ok tt else fail_str (str "Buffer too small"));;
  n ← lift (ok_or_str (checked 8 (zlen file_name)) (str "File name length overflows 256"));
  let zbi := splice zbi start (n :: file_name ++ data) in
  modify (set_ops (put (splice whole o zbi)));;
  zbi ← lift (or_zbi (zbi_create_entry zbi content));
  modify (set_ops (put (splice whole o zbi))).

(** An OEM command that only changes the state. *)
Definition oem_done (m : ST Fb CommandError unit) (b : Fb) : info_act (CommandResult bytes * Fb) :=
  let '(r, b) := m b in IRet (_ ← r; Ok [], b).

(** gbl/libgbl/src/fastboot/mod.rs:739-778, [FastbootImplementation::oem for GblFastboot], with
    [GblFastboot::oem_sync_tasks]. *)
Definition gf_oem (b : Fb) (cmd res : bytes) : info_act (CommandResult bytes * Fb) :=
  match split_on 32 cmd with
  | [] => IRet (fail_str (str "Missing command"), b)
  | cmd :: args =>
      let named s := bool_decide (cmd = str s) in
      if named "gbl-sync-tasks"%string then oem_done (sync_all_blocks ready fuel) b
      else if named "gbl-enable-async-task"%string then oem_done (modify (set_async true)) b
      else if named "gbl-disable-async-task"%string then oem_done (modify (set_async false)) b
      else if named "gbl-unset-default-block"%string then oem_done (modify (set_default_block None)) b
      else if named "gbl-set-default-block"%string then
        match (id ← (next_arg_u64 args).1;
               id ← ok_or_str id (str "Missing block device ID");
               _ ← ok_or_str (gf_disks b !! Z.to_nat id) (str "Out of range");
               Ok id) with
        | Ok id =>
            let b := set_default_block (Some id) b in
            IInfo [str "Default block device: "; fmt_hex0x id] (λ e, IRet
              (match e with inl _ => Ok [] | inr e => fail_with (show_error e) end, b))
        | Err e => IRet (Err e, b)
        | Panic => IRet (Panic, b)
        end
      else if named "add-staged-bootloader-file"%string then
        oem_done (file_name ← lift (ok_or_str (next_arg args).1 (str "Missing file name"));
                  add_staged_bootloader_file file_name) b
      else IRet (fail_str (str "Unknown oem command"), b)
  end.

(** ** Boot *)

(** [android_load_verify_fixup], with the image of one partition preloaded: the
    bounds of ramdisk, device tree and kernel in the load buffer. *)
Context (load_verify_fixup : bytes → bytes → Z → Buffer → list (GblDisk D) → G →
  outcome (list bytes) (Z * Z * (Z * Z) * (Z * Z)) * Buffer * list (GblDisk D) * G).

(** gbl/libgbl/src/fastboot/mod.rs:780-800, [FastbootImplementation::boot for GblFastboot]. *)
Definition boot_image : ST Fb CommandError unit :=
  dl ← take_download;
  '(data, sz) ← lift (ok_or_str dl (str "No boot image staged"));
  bootimg_buffer ← lift (index_range (buf_bytes data) 0 sz);
  let end_with (r : CommandResult unit) : ST Fb CommandError unit := release_buffer data;; lift r in
  r ← attempt (try_ops (android_get_boot_slot false));
  match r with
  | inr e => end_with (Err e)
  | inl slot_suffix =>
      boot_part ← lift (text 16 [str "boot_"; encode_utf8 slot_suffix]);
      slot_idx ← lift (arith 64 (slot_suffix - 97));
      slot_idx ← lift (unwrap (checked 8 slot_idx));
      b ← gets id;
      let '(r, load, disks, g) := load_verify_fixup boot_part bootimg_buffer slot_idx (gf_load_buffer b) (gf_disks b) (gf_ops b) in
      modify (λ b, set_load_buffer load (set_disks disks (set_ops g b)));;
      match r with
      | Ok (ramdisk, fdt, kernel) =>
          ramdisk ← lift (to_range (fst ramdisk) (snd ramdisk));
          fdt ← lift (to_range (fst fdt) (snd fdt));
          kernel ← lift (to_range (fst kernel) (snd kernel));
          modify (λ b, set_result (mkFbResult (Some (mkLoaded ramdisk fdt kernel)) (last_set_active_slot (gf_result b))) b);;
          end_with (Ok tt)
      | Err t => end_with (fail_with t)
      | Panic => lift Panic
      end
  end.
Definition gf_boot (b : Fb) : okay_act (CommandResult unit * Fb) := ORet (boot_image b).

(** gbl/libgbl/src/fastboot/mod.rs:597-607, [FastbootImplementation for GblFastboot]. *)
Definition GblBackend : FastbootImplementation Fb := {|
  fb_get_var := gf_get_var;
  fb_get_var_all := gf_get_var_all;
  fb_get_download_buffer b :=
    match get_download_buffer ready fuel b with
    | (Ok v, b) => Some (buf_bytes v, λ data, set_download (Some (mkBuffer (buf_addr v) data)) (current_download_size b) b)
    | _ => None
    end;
  fb_download_complete := gf_download_complete;
  fb_flash := gf_flash ready fuel;
  fb_erase := gf_erase ready fuel;
  fb_upload := gf_upload;
  fb_fetch := gf_fetch ready fuel;
  fb_reboot := gf_reboot ready fuel abr_addr;
  fb_continue := gf_continue ready fuel;
  fb_set_active := gf_set_active ready fuel abr_addr;
  fb_boot := gf_boot;
  fb_oem := gf_oem;
|}.
End Vars.

(** gbl/libgbl/src/fastboot/mod.rs:157-171, [GblFastbootResult::split_loaded_android]: the four
    parts, or nothing if no image was loaded. *)
Definition split_loaded_android {E} (r : GblFastbootResult) (load : bytes)
    : outcome E (option (bytes * bytes * bytes * bytes)) :=
  match loaded_image_info r with
  | None => Ok None
  | Some (mkLoaded (rs, re) (fs, fe) (ks, ke)) =>
      rem ← index_from load rs;
      let n := Z.max 0 (re - rs) in
      ramdisk ← index_range rem 0 n; rem ← index_from rem n;
      gap ← arith 64 (fs - re);
      rem ← index_from rem gap;
      let n := Z.max 0 (fe - fs) in
      fdt ← index_range rem 0 n; rem ← index_from rem n;
      gap ← arith 64 (ks - fe);
      rem ← index_from rem gap;
      let n := Z.max 0 (ke - ks) in
      kernel ← index_range rem 0 n; rem ← index_from rem n;
      Ok (Some (ramdisk, fdt, kernel, rem))
  end.
