(* ===== verification/GblFastbootProps.v ===== *)
(** * libgbl: properties of the fastboot backend

    What [flash] and [fetch] do to the devices for any partition argument, and
    that a flash in the background ends as one in the foreground. *)

From S2P Require Import Prelude SafeMath LibError Text Utils Crc Block BlockSpec BlockRead.
From S2P Require Import Disk.
From S2P Require Import GptData Gpt GptSync Sparse SparseProps Partition PartitionProps Slots.
From S2P Require Import GblOps GblOpsProps.
From S2P Require Import Fastboot FastbootSpec FastbootTasks GblFastboot GblVars.
Import SafeNum FormattedBytes.

(** ** Arguments *)

Lemma fail_with_err `{!ShowError} {A} t (a : A) : fail_with t ≠ Ok a.
Proof. unfold fail_with. by destruct (command_error t). Qed.

Lemma fail_str_err {A} s (a : A) : fail_str s ≠ Ok a.
Proof. unfold fail_str. by destruct (command_error [s]). Qed.

Lemma ok_or_str_inv {A} (o : option A) s a : ok_or_str o s = Ok a → o = Some a.
Proof. destruct o; simpl; [by intros [= ->]|]. by intros ?%fail_str_err. Qed.

Lemma or_fail_inv `{!ShowError} {A} (r : result A) a : or_fail r = Ok a → r = Ok a.
Proof. destruct r; simpl; [by intros [= ->]| |done]. by intros ?%fail_with_err. Qed.

Lemma safe_or_fail_inv `{!ShowError, !ShowSafeError} s v : safe_or_fail s = Ok v → s = Val v.
Proof. destruct s; simpl; [by intros [= ->]|]. by intros ?%fail_with_err. Qed.

Lemma radix_loop_bound w radix s acc v :
  0 ≤ acc < 2 ^ w → radix_loop w radix acc s = Ok v → 0 ≤ v < 2 ^ w.
Proof.
  revert acc. induction s as [|c s IH]; intros acc Ha; cbn [radix_loop]; [by intros [= <-]|].
  destruct (to_digit radix c); [|done]. unfold checked.
  destruct (fits w (acc * radix)); cbn; [|done].
  destruct (fits w (acc * radix + z)) eqn:E; cbn; [|done]. apply fits_spec in E. by apply IH.
Qed.

Lemma hex_to_u64_bound s v : hex_to_u64 s = Ok v → u64_ok v.
Proof.
  unfold hex_to_u64. destruct (from_str_radix 64 16 _) as [x|e|] eqn:E; [|by intros ?%fail_str_err|done].
  intros [= <-]. unfold from_str_radix in E.
  repeat case_match; try done; apply radix_loop_bound in E; unfold u64_ok; lia.
Qed.

Lemma next_arg_u64_bound args v args' : next_arg_u64 args = (Ok (Some v), args') → u64_ok v.
Proof.
  unfold next_arg_u64. destruct (next_arg args) as [[a|] l]; [|done].
  destruct (hex_to_u64 a) eqn:E; try done. cbn. intros [= <- _]. by eapply hex_to_u64_bound.
Qed.

Section Parse.
Context {D : Type} `{!BlockIo D} `{!BlockIoSpec D} `{!Hasher} `{!ShowError} `{!ShowSafeError}.
Implicit Types devs : list (GblDisk D).

(** The default block that [oem gbl-set-default-block] accepts. *)
Definition default_ok devs (blk : option Z) : Prop :=
  ∀ v, blk = Some v → 0 ≤ v < zlen devs.

Lemma check_next_arg_blk_id_inv devs def args blk args' :
  default_ok devs def → check_next_arg_blk_id devs def args = Ok (blk, args') → default_ok devs blk.
Proof.
  intros Hdef. unfold check_next_arg_blk_id.
  destruct (next_arg_u64 args) as [[[v|]| |] l] eqn:E; cbn [mbind outcome_bind]; try done.
  - apply next_arg_u64_bound in E. destruct (devs !! Z.to_nat v) eqn:Ev; cbn [ok_or_str mbind outcome_bind].
    + intros [= <- _] ? [= <-]. apply lookup_lt_Some in Ev. unfold u64_ok in E. lia.
    + intros (? & ?%fail_str_err & _)%bind_Ok. done.
  - destruct def; [by intros [= <- _]|]. destruct (Z.eqb_spec (zlen devs) 1); intros [= <- _] v' [= <-]; lia.
Qed.

(** The window [woff], [wsz] of the partition [p], which the device [d] at
    [blk] has. *)
Record parsed devs (name : option bytes) (blk woff wsz : Z) (d : GblDisk D) (lo hi : Z) : Prop := {
  pa_blk : 0 ≤ blk;
  pa_dev : devs !! Z.to_nat blk = Some d;
  pa_part : ∃ p, gd_find_partition d (chars <$> name) = Ok p ∧ part_absolute_range p = Ok (lo, hi);
  pa_off : 0 ≤ woff;
  pa_size : 0 ≤ wsz;
  pa_window : lo + woff + wsz ≤ hi;
}.

Lemma find_part_inv devs blk name idx p :
  devices_ok devs → default_ok devs blk → find_part devs blk name = Ok (idx, p) →
  ∃ d, 0 ≤ idx ∧ devs !! Z.to_nat idx = Some d ∧ gd_find_partition d (chars <$> name) = Ok p.
Proof.
  intros Hds Hb. unfold find_part. destruct blk as [v|].
  - destruct (devs !! Z.to_nat v) as [d|] eqn:E; cbn [unwrap mbind outcome_bind]; [|done].
    intros (p' & Hp & [= <- <-])%bind_Ok. exists d. split_and!; try done. by apply (Hb v).
  - destruct name as [name|]; cbn [ok_or mbind outcome_bind]; [|done]. intros Hu.
    pose proof (check_part_unique_cases devs (chars name) Hds) as Hc. rewrite Hu in Hc.
    destruct Hc as (d & Hl & Hi & Hp & _). by exists d.
Qed.

Lemma sn_sub_inv a b c : Val a -! Val b = Val c → c = a - b ∧ 0 ≤ c.
Proof.
  unfold SafeNum.sub, arith_op, checked_sub, checked. destruct (fits 64 (a - b)) eqn:E; cbn; [|done].
  intros [= <-]. apply fits_spec in E. lia.
Qed.

Lemma part_size_inv p n : part_size p = Ok n → ∃ lo hi, part_absolute_range p = Ok (lo, hi) ∧ n = hi - lo.
Proof.
  unfold part_size. intros ([lo hi] & Hr & Hn)%bind_Ok. exists lo, hi. split; [done|].
  destruct (Val hi -! Val lo) eqn:E; [|done]. apply sn_sub_inv in E as [-> _].
  unfold into_u64, try_into in Hn. cbn [map_err] in Hn. destruct (in_type _ _); by simplify_eq/=.
Qed.

(** What an accepted partition argument stands for. *)
Lemma parse_partition_inv devs def part name blk woff wsz :
  devices_ok devs → default_ok devs def → parse_partition devs def part = Ok (name, blk, woff, wsz) →
  ∃ d lo hi, parsed devs name blk woff wsz d lo hi.
Proof.
  intros Hds Hdef. unfold parse_partition. destruct (next_arg (split_on 47 part)) as [pname args].
  intros ([blk0 args1] & Hblk%check_next_arg_blk_id_inv & HP)%bind_Ok; [|done].
  destruct (next_arg_u64 args1) as [off args2] eqn:Eoff.
  apply bind_Ok in HP as (off' & -> & HP). apply bind_Ok in HP as (ws & Ews & HP).
  apply bind_Ok in HP as ([[idx p] actual] & Hf%or_fail_inv & HP).
  apply bind_Ok in HP as (psz & (lo & hi & Hr & ->)%or_fail_inv%part_size_inv & HP).
  apply bind_Ok in HP as (rest & [-> Hrest]%safe_or_fail_inv%sn_sub_inv & HP).
  apply bind_Ok in HP as (z & Hz%safe_or_fail_inv & [= <- <- <- <-]).
  assert (Hfind : find_part devs blk0 actual = Ok (idx, p)).
  { destruct (find_part devs blk0 pname) as [r|[]|] eqn:E; try done; try by simplify_eq/=.
    case_bool_decide; [|done]. by apply bind_Ok in Hf as (r & Hr' & [= -> <-]). }
  apply find_part_inv in Hfind as (d & Hi & Hd & Hp); [|done..].
  exists d, lo, hi. split; try done; [by exists p|..].
  - destruct off'; cbn; [|lia]. apply next_arg_u64_bound in Eoff. unfold u64_ok in Eoff. lia.
  - destruct ws; cbn; [|lia]. destruct (next_arg_u64 args2) eqn:E. cbn in Ews. subst.
    apply next_arg_u64_bound in E. unfold u64_ok in E. lia.
  - destruct (Val (hi - lo) -! Val (default (hi - lo - default 0 off') ws)) as [v|] eqn:E1; [|done].
    apply sn_sub_inv in E1 as [-> _]. apply sn_sub_inv in Hz as [-> Hz]. lia.
Qed.
End Parse.

(** ** Waiting for a device *)

Section Backend.
Context {D G : Type} `{!BlockIo D} `{!BlockIoSpec D} `{!Hasher} `{!UnstableSort} `{!ShowError} `{!ShowSafeError}.
Context (ready : nat → bool) (fuel : nat).
Implicit Types (b : GblFastboot D G) (d : GblDisk D).

Definition idle d : Prop := cell_borrowed (gd_disk d) = false.
(** A device whose disk is lent out. *)
Definition busy d : GblDisk D :=
  mkGblDisk (mkCell (cell_value (gd_disk d)) true) (gd_partitions d) (gd_info_cache d).

Lemma set_disks_id b : set_disks (gf_disks b) b = b.
Proof. by destruct b. Qed.

Lemma wait_idle_run n blk name b d p lo hi :
  gf_disks b !! Z.to_nat blk = Some d → idle d →
  gd_find_partition d (chars <$> name) = Ok p → part_absolute_range p = Ok (lo, hi) →
  wait_partition_io ready fuel n blk name b =
    (Ok (mkPartIo (cell_value (gd_disk d)) lo hi), set_disks (<[Z.to_nat blk := busy d]> (gf_disks b)) b).
Proof.
  intros Hd Hi Hp Hr.
  assert (E : partition_io d (chars <$> name) = Ok (mkPartIo (cell_value (gd_disk d)) lo hi, busy d)).
  { unfold partition_io. rewrite Hp, ok_bind, Hr, ok_bind. unfold gd_get_disk, try_borrow_mut.
    by rewrite Hi. }
  destruct n; cbn [wait_partition_io]; rewrite bind_run; cbv [gets id]; rewrite bind_run, lift_run, Hd;
    cbn [unwrap]; by rewrite E.
Qed.

Lemma release_run {E} blk io b d :
  gf_disks b !! Z.to_nat blk = Some d →
  release_io (E:=E) blk io b = (Ok tt, set_disks (<[Z.to_nat blk := drop_io io d]> (gf_disks b)) b).
Proof.
  intros Hd. unfold release_io. rewrite bind_run. cbv [gets id]. by rewrite bind_run, lift_run, Hd.
Qed.

Lemma release_buffer_run {E} buf b pool :
  pool_deallocate (E:=E) buf (gf_pool b) = Ok pool →
  release_buffer (E:=E) buf b = (Ok tt, set_pool pool b).
Proof.
  intros Hp. unfold release_buffer. rewrite bind_run. cbv [gets id]. by rewrite bind_run, lift_run, Hp.
Qed.

Lemma parse_and_get_run part b name blk woff wsz i C d lo hi :
  parse_partition (gf_disks b) (default_block b) part = Ok (name, blk, woff, wsz) →
  parsed (gf_disks b) name blk woff wsz d lo hi → device_ok i C d → idle d →
  parse_and_get_partition_io ready fuel part b =
    (Ok (blk, mkPartIo (cell_value (gd_disk d)) (lo + woff) (lo + woff + wsz)),
     set_disks (<[Z.to_nat blk := busy d]> (gf_disks b)) b).
Proof.
  intros HP [Hblk Hd (p & Hp & Hr) Ho Hs Hw] Hok Hi. unfold parse_and_get_partition_io.
  rewrite bind_run. cbv [gets id]. rewrite bind_run, lift_run, HP, bind_run.
  rewrite (wait_idle_run fuel blk name b d p lo hi Hd Hi Hp Hr).
  pose proof (find_partition_cases i C d (chars <$> name) Hok) as Hf. rewrite Hp in Hf.
  destruct Hf as (a & e & Hr' & (Hlo & Hhi & _)). rewrite Hr in Hr'. simplify_eq.
  pose proof (room i C (do_info _ _ _ (dv_disk _ _ _ Hok))). pose proof (bs_pos i C (do_info _ _ _ (dv_disk _ _ _ Hok))).
  unfold pio_sub. rewrite check_rw_range_val by (cbn; lia). cbn [part_start part_end].
  rewrite decide_True by lia. rewrite ok_bind, !arith_ok, ok_bind by lia. rewrite arith_ok by lia. done.
Qed.

(** ** Flashing *)

(** The pool has a place for a buffer that comes back. *)
Definition pool_has_room (pool : list Buffer) : Prop := Exists (λ v, buf_bytes v = []) pool.
(** [pool'] is [pool] with [buf] in a place that was empty. *)
Definition pool_back (buf : Buffer) (pool pool' : list Buffer) : Prop :=
  ∃ l v r, pool = l ++ v :: r ∧ buf_bytes v = [] ∧ pool' = l ++ buf :: r.

Lemma pool_deallocate_run buf pool :
  pool_has_room pool → ∃ pool', (∀ E, pool_deallocate (E:=E) buf pool = Ok pool') ∧ pool_back buf pool pool'.
Proof.
  induction pool as [|v pool IH]; intros Hr; [by apply Exists_nil in Hr|].
  cbn [pool_deallocate]. destruct (decide (buf_bytes v = [])) as [Hv|Hv].
  - rewrite Hv. exists (buf :: pool). split; [done|]. by exists [], v, pool.
  - rewrite (proj2 (Z.eqb_neq _ _)) by (destruct (buf_bytes v); [done|simpl; lia]).
    apply Exists_cons in Hr as [Hr|Hr]; [done|]. destruct (IH Hr) as (pool' & Hp & l & x & r & -> & Hx & ->).
    exists (v :: l ++ buf :: r). split; [intros E; by rewrite Hp|]. by exists (v :: l), x, r.
Qed.

(** What a device is after IO through [io] on it. *)
Lemma drop_busy io d : drop_io io (busy d) = with_disk d (pio_disk io).
Proof. done. Qed.

Lemma with_own_disk d : idle d → with_disk d (cell_value (gd_disk d)) = d.
Proof. apply device_eta. Qed.

Lemma insert_back (l : list (GblDisk D)) (n : nat) d x :
  l !! n = Some d → <[n := d]> (<[n := x]> l) = l.
Proof. intros Hd. rewrite list_insert_insert_eq. by apply list_insert_id. Qed.

(** A staged image that is not a sparse one. *)
Record staged b (data : Buffer) (sz : Z) : Prop := {
  st_buffer : current_download_buffer b = Some data;
  st_size : current_download_size b = sz;
  st_fits : 0 ≤ sz ≤ zlen (buf_bytes data);
  st_raw : ∃ e, is_sparse_image (buf_bytes data) = Err e;
}.

Lemma flash_task_raw part b name blk woff wsz i C d lo hi data sz :
  parse_partition (gf_disks b) (default_block b) part = Ok (name, blk, woff, wsz) →
  parsed (gf_disks b) name blk woff wsz d lo hi → device_ok i C d → idle d →
  staged b data sz → pool_has_room (gf_pool b) →
  let io n := mkPartIo (cell_value (gd_disk d)) (lo + woff) (lo + woff + n) in
  if decide (sz ≤ wsz) then
    flash_task ready fuel part b =
      (Ok (task_new (TFlash blk (io sz) data sz)),
       set_download None 0 (set_disks (<[Z.to_nat blk := busy d]> (gf_disks b)) b))
  else ∃ pool,
    flash_task ready fuel part b = (fail_with (show_error OutOfRange), set_pool pool (set_download None 0 b)) ∧
    pool_back data (gf_pool b) pool.
Proof.
  intros HP Hpa Hok Hi [Hb Hs Hf [e Hraw]] Hroom io.
  assert (Hrun := parse_and_get_run part b name blk woff wsz i C d lo hi HP Hpa Hok Hi).
  destruct Hpa as [Hblk Hd (p & Hp & Hr) Ho Hwz Hw].
  pose proof (find_partition_cases i C d (chars <$> name) Hok) as Hfp. rewrite Hp in Hfp.
  destruct Hfp as (a & a' & Hr' & (Hlo & Hhi & _)). rewrite Hr in Hr'. simplify_eq.
  pose proof (room i C (do_info _ _ _ (dv_disk _ _ _ Hok))). pose proof (bs_pos i C (do_info _ _ _ (dv_disk _ _ _ Hok))).
  assert (Hsub : pio_sub (io wsz) 0 (current_download_size b) =
    if decide (current_download_size b ≤ wsz) then Ok (io (current_download_size b)) else Err OutOfRange).
  { unfold pio_sub, io. rewrite check_rw_range_val by (cbn; lia). cbn [part_start part_end pio_disk].
    rewrite !Z.add_0_r. case_decide.
    - rewrite decide_True, ok_bind, arith_ok, ok_bind, arith_ok by lia. done.
    - by rewrite decide_False by lia. }
  unfold flash_task. set (b1 := set_download None 0 (set_disks (<[Z.to_nat blk := busy d]> (gf_disks b)) b)).
  destruct (decide (current_download_size b ≤ wsz)) as [Hle|Hgt];
    [|destruct (pool_deallocate_run data (gf_pool b) Hroom) as (pool & Hpool & Hback); exists pool; split; [|done]];
    rewrite bind_run, Hrun, bind_run; unfold take_download; rewrite bind_run; cbv [gets id];
    cbn [set_disks current_download_buffer]; rewrite Hb, bind_run; cbn [modify]; rewrite mret_run;
    cbn [current_download_size set_disks]; rewrite Hraw; fold (io wsz); rewrite Hsub; [done|].
  assert (Hl : gf_disks b1 !! Z.to_nat blk = Some (busy d)).
  { apply list_lookup_insert_eq. by eapply lookup_lt_Some. }
  rewrite bind_run, (release_run _ _ b1 _ Hl), bind_run, (release_buffer_run _ _ pool) by apply Hpool.
  rewrite drop_busy, with_own_disk by done. cbn [gf_disks b1 set_disks set_download].
  rewrite insert_back by done. unfold try. cbn [or_fail]. rewrite bind_run, lift_run.
  unfold fail_with. destruct (command_error (show_error OutOfRange)); by destruct b.
Qed.

Lemma pio_write_run i C (io : PartitionIo D) data addr :
  pio_ok i C io → disk_quiet (pio_disk io) → buffer_ok i addr (zlen data) →
  part_start io + zlen data ≤ part_end io →
  ∃ k, pio_write addr 0 (io, data) = (Ok tt, (mkPartIo k (part_start io) (part_end io), data)) ∧
       calm i (splice C (part_start io) data) k.
Proof.
  intros Hp Hq Hb Hl. pose proof (pio_write_cases i C io data addr 0 Hp Hb ltac:(lia)) as Hw.
  unfold wp in Hw. rewrite Z.add_0_r in Hw.
  destruct (pio_write addr 0 (io, data)) as [[[]|e|] [io' bs]]; [|..|done].
  - destruct Hw as (_ & E & <- & <- & Hok & Hq'). cbn [fst snd] in *. subst bs. exists (pio_disk io').
    split; [by destruct io'|]. split; [apply Hok|by apply Hq'].
  - destruct Hw as [(_ & ? & _)|(? & _)]; [lia|done].
Qed.

Lemma raw_task_run b i C d blk data sz pos :
  gf_disks b !! Z.to_nat blk = Some (busy d) → device_ok i C d → disk_quiet (cell_value (gd_disk d)) →
  buffer_ok i (buf_addr data) sz → 0 ≤ sz ≤ zlen (buf_bytes data) → 0 ≤ pos → pos + sz ≤ zlen C →
  pool_has_room (gf_pool b) →
  ∃ k pool, workload_run fuel (TFlash blk (mkPartIo (cell_value (gd_disk d)) pos (pos + sz)) data sz) b =
      (Ok tt, set_pool pool (set_disks (<[Z.to_nat blk := with_disk d k]> (gf_disks b)) b)) ∧
    calm i (splice C pos (take (Z.to_nat sz) (buf_bytes data))) k ∧ pool_back data (gf_pool b) pool.
Proof.
  intros Hd Hok Hq Hbuf Hsz Hpos Hend Hroom. cbn [workload_run]. unfold with_task_io. cbn [fst snd].
  rewrite get_range_Some by lia. rewrite Z.sub_0_r.
  set (sub := slice (buf_bytes data) 0 sz). assert (zlen sub = sz) as Hsub by (unfold sub; lens; lia).
  destruct (pio_write_run i C (mkPartIo (cell_value (gd_disk d)) pos (pos + sz)) sub (buf_addr data))
    as (k & -> & Hk); [split; cbn; [apply Hok|lia|lia]|done|by rewrite Hsub|cbn; lia|].
  unfold sub at 1. rewrite splice_slice by lia. cbn [part_start part_end] in *.
  destruct (pool_deallocate_run data (gf_pool b) Hroom) as (pool & Hpool & Hback).
  exists k, pool. split; [|done]. rewrite bind_run, (release_run _ _ b _ Hd), bind_run.
  replace (mkBuffer (buf_addr data) (buf_bytes data)) with data by (by destruct data).
  rewrite (release_buffer_run _ _ pool) by apply Hpool. done.
Qed.

(** C5. A flash in the foreground of an image that is not sparse writes exactly
    the image to the start of the window that the argument names, and nothing
    else: every other byte of the device, every other device and the partition
    tables are as they were. An image that is larger than the window is refused
    and nothing is written. In both cases the download is used up and its buffer
    is back in the pool. *)
Theorem gbl_flash_exact b part name blk woff wsz data sz i C d :
  parse_flash_gpt_args (gf_disks b) (default_block b) part = Ok None →
  parse_partition (gf_disks b) (default_block b) part = Ok (name, blk, woff, wsz) →
  devices_ok (gf_disks b) → default_ok (gf_disks b) (default_block b) → enable_async_task b = false →
  staged b data sz → pool_has_room (gf_pool b) →
  gf_disks b !! Z.to_nat blk = Some d → idle d → device_ok i C d → disk_quiet (cell_value (gd_disk d)) →
  buffer_ok i (buf_addr data) sz →
  ∃ p lo hi pool, gd_find_partition d (chars <$> name) = Ok p ∧ part_absolute_range p = Ok (lo, hi) ∧
    lo + woff + wsz ≤ hi ≤ zlen C ∧ pool_back data (gf_pool b) pool ∧
    let done b := set_pool pool (set_download None 0 b) in
    if decide (sz ≤ wsz) then ∃ k,
      gf_flash ready fuel b part =
        IRet (Ok tt, done (set_disks (<[Z.to_nat blk := with_disk d k]> (gf_disks b)) b)) ∧
      device_ok i (splice C (lo + woff) (take (Z.to_nat sz) (buf_bytes data))) (with_disk d k)
    else gf_flash ready fuel b part = IRet (fail_with (show_error OutOfRange), done b).
Proof.
  intros HG HP Hds Hdef Hsync Hst Hroom Hd Hi Hok Hq Hbuf.
  destruct (parse_partition_inv _ _ _ _ _ _ _ Hds Hdef HP) as (d' & lo & hi & Hpa).
  assert (d' = d) as -> by (pose proof (pa_dev _ _ _ _ _ _ _ _ Hpa); congruence).
  assert (Ht := flash_task_raw part b name blk woff wsz i C d lo hi data sz HP Hpa Hok Hi Hst Hroom).
  destruct Hpa as [Hblk _ (p & Hp & Hr) Ho Hwz Hw]. exists p, lo, hi.
  pose proof (find_partition_cases i C d (chars <$> name) Hok) as Hfp. rewrite Hp in Hfp.
  destruct Hfp as (a & a' & Hr' & (Hlo & Hhi & _)). rewrite Hr in Hr'. simplify_eq.
  unfold gf_flash. rewrite HG. destruct (decide (sz ≤ wsz)) as [Hle|Hgt].
  - set (b1 := set_download None 0 (set_disks (<[Z.to_nat blk := busy d]> (gf_disks b)) b)) in *.
    destruct (raw_task_run b1 i C d blk data sz (a + woff)) as (k & pool & Hrun & [Hk _] & Hback); try done.
    + apply list_lookup_insert_eq. by eapply lookup_lt_Some.
    + apply Hst.
    + lia.
    + lia.
    + exists pool. split_and!; try done. exists k. split; [|by eapply with_disk_ok].
      rewrite bind_run, Ht. unfold schedule_task. rewrite bind_run. cbv [gets id].
      replace (enable_async_task b1) with false by done. unfold run_checked. cbn [task_set_context t_workload task_new].
      rewrite Hrun. cbn [or_fail reply_info]. do 3 f_equal. cbn [b1 gf_disks set_download set_disks].
      by rewrite list_insert_insert_eq.
  - destruct Ht as (pool & Ht & Hback). exists pool. split_and!; try done.
    rewrite bind_run, Ht. unfold fail_with. by destruct (command_error (show_error OutOfRange)).
Qed.

(** ** Tasks in the background *)

(** The device of a workload. *)
Definition task_dev (w : TaskWorkload D) : option Z :=
  match w with
  | TFlash dev _ _ _ | TFlashSparse dev _ _ | TErase dev _ _ => Some dev
  | TNone => None
  end.

Lemma with_task_io_inv {A} dev io buf (m : ST (PartitionIo D * bytes) Error A) ok b b' :
  with_task_io dev io buf m ok b = (Ok tt, b') →
  ∃ io' d pool, gf_disks b !! Z.to_nat dev = Some d ∧
    ∀ b1, gf_disks b1 = gf_disks b → gf_pool b1 = gf_pool b →
      with_task_io dev io buf m ok b1 =
        (Ok tt, set_pool pool (set_disks (<[Z.to_nat dev := drop_io io' d]> (gf_disks b)) b1)).
Proof.
  assert (Hseq : ∀ io' bs (m' : ST (GblFastboot D G) Error unit),
    (release_io dev io';; release_buffer (mkBuffer (buf_addr buf) bs);; m') b = (Ok tt, b') →
    ∃ d pool, gf_disks b !! Z.to_nat dev = Some d ∧ ∀ b1, gf_disks b1 = gf_disks b → gf_pool b1 = gf_pool b →
      (release_io dev io';; release_buffer (mkBuffer (buf_addr buf) bs);; m') b1 =
      m' (set_pool pool (set_disks (<[Z.to_nat dev := drop_io io' d]> (gf_disks b)) b1))).
  { intros io' bs m'. rewrite bind_run. destruct (gf_disks b !! Z.to_nat dev) as [d|] eqn:Ed.
    2: { unfold release_io. rewrite bind_run. cbv [gets id]. by rewrite bind_run, lift_run, Ed. }
    rewrite (release_run _ _ b d Ed), bind_run. unfold release_buffer. rewrite bind_run. cbv [gets id].
    rewrite bind_run, lift_run. cbn [set_disks gf_pool].
    destruct (pool_deallocate _ (gf_pool b)) as [pool| |] eqn:Ep; try done.
    intros _. exists d, pool. split; [done|]. intros b1 Hd1 Hp1. rewrite <- Hd1 in Ed |- *.
    rewrite bind_run, (release_run _ _ b1 d Ed), bind_run. cbv [gets id]. rewrite bind_run. cbn [set_disks gf_pool].
    by rewrite bind_run, lift_run, Hp1, Ep. }
  unfold with_task_io. destruct (m (io, buf_bytes buf)) as [[a|e|] [io' bs]]; [| |done]; intros HR;
    destruct (Hseq _ _ _ HR) as (d & pool & Hd & Hrun); rewrite (Hrun b eq_refl eq_refl) in HR; [|done].
  exists io', d, pool. split; [done|]. intros b1 Hd1 Hp1. rewrite Hrun by done. by destruct (ok a).
Qed.

(** A task that succeeds gives its device back and nothing else; what it does
    depends on the devices and the pool only. *)
Lemma workload_run_inv w dev b b' :
  task_dev w = Some dev → workload_run fuel w b = (Ok tt, b') →
  ∃ io d pool, gf_disks b !! Z.to_nat dev = Some d ∧
    ∀ b1, gf_disks b1 = gf_disks b → gf_pool b1 = gf_pool b →
      workload_run fuel w b1 = (Ok tt, set_pool pool (set_disks (<[Z.to_nat dev := drop_io io d]> (gf_disks b)) b1)).
Proof. destruct w; try done; intros [= ->]; apply with_task_io_inv. Qed.

(** One task is alive. *)
Definition only_task (w : TaskWorkload D) b : Prop :=
  ∃ arr ctx, gf_tasks b = mkSlice arr 1 ∧ arr !! O = Some (mkTask w ctx).
Definition no_task b : Prop := pf_used (gf_tasks b) = 0.

Lemma poll_tasks_run w b :
  only_task w b →
  let b1 := set_polls (S (gf_polls b)) b in
  if ready (gf_polls b) then
    ∀ b2, workload_run fuel w b1 = (Ok tt, b2) → ∃ arr, poll_tasks ready fuel b = (Ok 0, set_tasks (mkSlice arr 0) b2)
  else poll_tasks ready fuel b = (Ok 1, b1).
Proof.
  intros (arr & ctx & Ht & Ha). unfold poll_tasks. rewrite poll_all_unfold, Ht. cbn [pf_used].
  change (Z.to_nat 1) with 1%nat.
  rewrite (remove_loop_step _ 0 arr 1 b 0 (mkTask w ctx)) by (done || lia).
  assert (Hpoll : poll_task ready fuel (mkTask w ctx) b =
    if ready (gf_polls b) then
      match workload_run fuel w (set_polls (S (gf_polls b)) b) with
      | (Ok _, b) => (Ok (true, mkTask TNone ctx), b)
      | (_, b) => (Panic, b)
      end
    else (Ok (false, mkTask w ctx), set_polls (S (gf_polls b)) b)) by done.
  rewrite Hpoll. clear Hpoll. destruct (ready (gf_polls b)).
  - intros b2 ->. unfold swap. destruct arr as [|x arr]; [done|]. cbn. by eexists.
  - cbn [remove_loop]. rewrite list_insert_id by done. rewrite mret_run. destruct b. cbn in *. by subst.
Qed.

(** ** Waiting for tasks *)

(** A device whose size is known. *)
Definition sized d : Prop := ∃ n, total_size (gd_info_cache d) = Ok n.

Lemma device_sized i C d : device_ok i C d → sized d.
Proof.
  intros Hd. exists (zlen C). rewrite (dv_info _ _ _ Hd). apply total_size_val, (do_info _ _ _ (dv_disk _ _ _ Hd)).
Qed.

Lemma whole_device d : sized d → ∃ p lo hi, gd_find_partition d None = Ok p ∧ part_absolute_range p = Ok (lo, hi).
Proof. intros [n Hn]. cbn [gd_find_partition]. rewrite Hn. by eexists _, _, _. Qed.

(** The device at [idx] of a list of devices is the only one that is lent. *)
Definition others_idle (idx : Z) (devs : list (GblDisk D)) : Prop :=
  ∀ (j : nat) d, devs !! j = Some d → j ≠ Z.to_nat idx → idle d ∧ sized d.

Lemma sync_one_idle n idx b d :
  gf_disks b !! Z.to_nat idx = Some d → idle d → sized d →
  sync_blocks ready fuel (S n) idx b = sync_blocks ready fuel n (idx + 1) b.
Proof.
  intros Hd Hi Hok. destruct (whole_device d Hok) as (p & lo & hi & Hp & Hr). cbn [sync_blocks].
  rewrite bind_run, attempt_run, (wait_idle_run fuel idx None b d p lo hi) by done.
  rewrite bind_run, (release_run idx _ _ (busy d)).
  - rewrite drop_busy, with_own_disk by done. cbn [gf_disks set_disks]. rewrite insert_back by done.
    by destruct b.
  - apply list_lookup_insert_eq. by eapply lookup_lt_Some.
Qed.

(** Idle devices are not waited for. *)
Lemma sync_idle n idx b :
  0 ≤ idx → (∀ j d, gf_disks b !! j = Some d → Z.to_nat idx ≤ j → idle d ∧ sized d)%nat →
  (Z.to_nat idx + n ≤ length (gf_disks b))%nat → sync_blocks ready fuel n idx b = (Ok tt, b).
Proof.
  revert idx. induction n as [|n IH]; intros idx Hidx Hall Hl; [done|].
  destruct (lookup_lt_is_Some_2 (gf_disks b) (Z.to_nat idx)) as [d Hd]; [lia|].
  destruct (Hall _ _ Hd ltac:(lia)) as (Hi & Hok).
  rewrite (sync_one_idle n idx b d Hd Hi Hok). apply IH; [lia|..|lia].
  intros j d' Hj Hle. apply (Hall j d' Hj). lia.
Qed.

Lemma sync_idle_before (k n : nat) idx b :
  0 ≤ idx → (∀ j d, gf_disks b !! j = Some d → Z.to_nat idx ≤ j → j < Z.to_nat idx + k → idle d ∧ sized d)%nat →
  (Z.to_nat idx + k ≤ length (gf_disks b))%nat →
  sync_blocks ready fuel (k + n) idx b = sync_blocks ready fuel n (idx + Z.of_nat k) b.
Proof.
  revert idx. induction k as [|k IH]; intros idx Hidx Hall Hl; [by rewrite Z.add_0_r|].
  destruct (lookup_lt_is_Some_2 (gf_disks b) (Z.to_nat idx)) as [d Hd]; [lia|].
  destruct (Hall _ _ Hd ltac:(lia) ltac:(lia)) as (Hi & Hok).
  cbn [Nat.add]. rewrite (sync_one_idle (k + n) idx b d Hd Hi Hok), IH; [f_equal; lia|lia|..|lia].
  intros j d' Hj Hle Hlt. apply (Hall j d' Hj); lia.
Qed.

(** The state when the only task is done. *)
Definition task_done dev io d (pool : list Buffer) (arr : list (Task D)) (k : nat) b : GblFastboot D G :=
  set_tasks (mkSlice arr 0)
    (set_pool pool (set_disks (<[Z.to_nat dev := drop_io io d]> (gf_disks b)) (set_polls k b))).

(** The task [w] of the device [dev], which is the [d] it was lent from, ends
    with the IO [io] and the pool [pool]. *)
Record running (w : TaskWorkload D) dev io d (pool : list Buffer) b : Prop := {
  ru_task : only_task w b;
  ru_dev : gf_disks b !! Z.to_nat dev = Some d;
  ru_busy : cell_borrowed (gd_disk d) = true;
  ru_ok : sized d;
  ru_run : ∀ b1, gf_disks b1 = gf_disks b → gf_pool b1 = gf_pool b →
    workload_run fuel w b1 = (Ok tt, set_pool pool (set_disks (<[Z.to_nat dev := drop_io io d]> (gf_disks b)) b1));
}.

Lemma running_poll w dev io d pool b :
  running w dev io d pool b →
  if ready (gf_polls b) then ∃ n arr, poll_tasks ready fuel b = (Ok n, task_done dev io d pool arr (S (gf_polls b)) b)
  else ∃ n, poll_tasks ready fuel b = (Ok n, set_polls (S (gf_polls b)) b) ∧
            running w dev io d pool (set_polls (S (gf_polls b)) b).
Proof.
  intros [Ht Hd Hb Hok Hr]. pose proof (poll_tasks_run w b Ht) as Hp. destruct (ready (gf_polls b)).
  - destruct (Hp _ (Hr (set_polls (S (gf_polls b)) b) eq_refl eq_refl)) as (arr & E). by eexists _, arr.
  - exists 1. split; [done|]. by split.
Qed.

Lemma wait_task n w dev io d pool b :
  running w dev io d pool b → (∃ k, k < n ∧ ready (gf_polls b + k) = true)%nat →
  ∃ m k arr, wait_partition_io ready fuel n dev None b =
             wait_partition_io ready fuel m dev None (task_done dev io d pool arr k b).
Proof.
  revert b. induction n as [|n IH]; intros b Hrun (k & Hk & Hready); [lia|].
  pose proof Hrun as [_ Hd Hb Hok _]. destruct (whole_device d Hok) as (p & lo & hi & Hp & Hr).
  cbn [wait_partition_io]. rewrite bind_run. cbv [gets id]. rewrite bind_run, lift_run, Hd. cbn [unwrap].
  assert (E : partition_io d (chars <$> None) = Err NotReady).
  { unfold partition_io. change (chars <$> None) with (@None (list Z)).
    rewrite Hp, ok_bind, Hr, ok_bind. unfold gd_get_disk, try_borrow_mut. by rewrite Hb. }
  rewrite E, bind_run. unfold yield_now. rewrite bind_run. pose proof (running_poll _ _ _ _ _ _ Hrun) as Hpoll.
  destruct (ready (gf_polls b)) eqn:Er.
  - destruct Hpoll as (x & arr & ->). rewrite mret_run. by eexists _, _, arr.
  - destruct Hpoll as (x & -> & Hrun'). rewrite mret_run. destruct k as [|k]; [rewrite Nat.add_0_r in Hready; congruence|].
    destruct (IH _ Hrun') as (m & k' & arr & ->).
    { exists k. split; [lia|]. cbn [gf_polls set_polls]. by rewrite Nat.add_succ_comm. }
    by exists m, k', arr.
Qed.

(** The device of a finished task is idle. *)
Lemma task_done_dev w dev io d pool arr k b :
  running w dev io d pool b →
  gf_disks (task_done dev io d pool arr k b) !! Z.to_nat dev = Some (drop_io io d).
Proof. intros Hrun. apply list_lookup_insert_eq. eapply lookup_lt_Some, Hrun. Qed.

Lemma task_done_idle dev io d pool arr k b j d' :
  others_idle dev (gf_disks b) → gf_disks (task_done dev io d pool arr k b) !! j = Some d' →
  j ≠ Z.to_nat dev → idle d' ∧ sized d'.
Proof.
  intros Ho Hj Hne. cbn [task_done gf_disks set_tasks set_pool set_disks] in Hj.
  rewrite list_lookup_insert_ne in Hj by done. by eapply Ho.
Qed.

Lemma sync_running w dev io d pool b :
  running w dev io d pool b → (sized (drop_io io d)) → others_idle dev (gf_disks b) → 0 ≤ dev →
  (∃ k, k < fuel ∧ ready (gf_polls b + k) = true)%nat →
  ∃ k arr, sync_all_blocks ready fuel b = (Ok tt, task_done dev io d pool arr k b).
Proof.
  intros Hrun Hok Ho Hdev Hready. unfold sync_all_blocks. rewrite bind_run. cbv [gets id].
  assert (Hlt := lookup_lt_Some _ _ _ (ru_dev _ _ _ _ _ _ Hrun)).
  destruct (wait_task fuel w dev io d pool b Hrun Hready) as (m & k & arr & Hwait).
  exists k, arr. set (b2 := task_done dev io d pool arr k b) in *.
  assert (Hd2 : gf_disks b2 !! Z.to_nat dev = Some (drop_io io d)) by (by eapply task_done_dev).
  assert (Hl2 : length (gf_disks b2) = length (gf_disks b)) by apply length_insert.
  set (r := (length (gf_disks b) - S (Z.to_nat dev))%nat).
  replace (length (gf_disks b)) with (Z.to_nat dev + S r)%nat by (unfold r; lia).
  rewrite sync_idle_before; [|lia|intros j d' Hj _ Hjlt; apply (Ho j d' Hj); lia|lia].
  replace (0 + Z.of_nat (Z.to_nat dev)) with dev by lia.
  assert (Hsame : sync_blocks ready fuel (S r) dev b = sync_blocks ready fuel (S r) dev b2).
  { destruct (whole_device _ Hok) as (p & lo & hi & Hp & Hr).
    cbn [sync_blocks]. rewrite !(bind_run (attempt _)), !attempt_run, Hwait.
    by rewrite !(wait_idle_run _ dev None b2 (drop_io io d) p lo hi) by done. }
  rewrite Hsame, (sync_one_idle r dev b2 _ Hd2) by done.
  apply sync_idle; [lia|..|unfold r; lia].
  intros j d' Hj Hle. eapply task_done_idle; [done|done|lia].
Qed.

(** ** Foreground and background *)

(** Code that does not succeed. *)
Definition never_ok {A} (m : ST (GblFastboot D G) CommandError A) : Prop := ∀ s a s', m s ≠ (Ok a, s').
Lemma never_bind {A B} (m : ST (GblFastboot D G) CommandError A) (f : A → ST (GblFastboot D G) CommandError B) :
  (∀ a, never_ok (f a)) → never_ok (m ≫= f).
Proof. intros Hf s a s'. rewrite bind_run. destruct (m s) as [[]]; try done. apply Hf. Qed.
Lemma never_lift {A} (r : CommandResult A) : (∀ a, r ≠ Ok a) → never_ok (lift r).
Proof. intros Hr s a s' [= E _]. by eapply Hr. Qed.

(** A task that was built for the device [blk] of an idle system. *)
Lemma flash_task_inv part b name blk woff wsz i C d lo hi t b1 :
  parse_partition (gf_disks b) (default_block b) part = Ok (name, blk, woff, wsz) →
  parsed (gf_disks b) name blk woff wsz d lo hi → device_ok i C d → idle d →
  flash_task ready fuel part b = (Ok t, b1) →
  task_dev (t_workload t) = Some blk ∧
  b1 = set_download None 0 (set_disks (<[Z.to_nat blk := busy d]> (gf_disks b)) b) ∧
  flash_task ready fuel part (set_async true b) = (Ok t, set_async true b1).
Proof.
  intros HP Hpa Hok Hi.
  pose proof (parse_and_get_run part b name blk woff wsz i C d lo hi HP Hpa Hok Hi) as Hrun.
  pose proof (parse_and_get_run part (set_async true b) name blk woff wsz i C d lo hi HP Hpa Hok Hi) as Hrun'.
  unfold flash_task. rewrite !bind_run, Hrun, Hrun', !bind_run. unfold take_download.
  rewrite !bind_run. cbv [gets id]. cbn [current_download_buffer set_disks set_async].
  set (io := mkPartIo _ _ _). destruct (current_download_buffer b) as [data|].
  2: { rewrite mret_run. intros HF. apply never_bind in HF; [done|]. intros _. apply never_lift, fail_str_err. }
  rewrite !bind_run. cbn [modify]. rewrite !mret_run.
  assert (Hno : ∀ A (r : result A) s, ((release_io blk io;; release_buffer data;; _ ← try r; hang)
    : ST (GblFastboot D G) CommandError (Task D)) s ≠ (Ok t, b1)).
  { intros A r s. apply never_bind. intros _. apply never_bind. intros _. apply never_bind. intros _. by apply never_lift. }
  destruct (is_sparse_image (buf_bytes data)) as [v|e|]; [| |done].
  - rewrite !bind_run, !lift_run. destruct (unwrap_res (data_size v)) as [n| |]; try done.
    destruct (pio_sub io 0 n) as [io'| |]; try by intros ?%Hno. rewrite !mret_run. by intros [= <- <-].
  - destruct (pio_sub io 0 _) as [io'| |]; try by intros ?%Hno. rewrite !mret_run. by intros [= <- <-].
Qed.

Lemma busy_ok i C d : device_ok i C d → device_ok i C (busy d).
Proof. by intros [? ? ?]. Qed.

Lemma flash_task_parses part b t b1 :
  flash_task ready fuel part b = (Ok t, b1) →
  ∃ r, parse_partition (gf_disks b) (default_block b) part = Ok r.
Proof.
  unfold flash_task, parse_and_get_partition_io. rewrite bind_run, bind_run. cbv [gets id].
  rewrite bind_run, lift_run. destruct (parse_partition _ _ _); try done. by eexists.
Qed.

(** A flash in the foreground is a task that is built and run. *)
Lemma flash_foreground b part bs :
  enable_async_task b = false → gf_flash ready fuel b part = IRet (Ok tt, bs) →
  parse_flash_gpt_args (gf_disks b) (default_block b) part = Ok None ∧
  ∃ t b1, flash_task ready fuel part b = (Ok t, b1) ∧
    (enable_async_task b1 = false → workload_run fuel (t_workload t) b1 = (Ok tt, bs)).
Proof.
  intros Hsync. unfold gf_flash. destruct (parse_flash_gpt_args _ _ _) as [[[idx rs]|]|e|]; try done.
  { by destruct ((_;; take_download) b) as [[[[]|]|e|] b2]. }
  split; [done|]. rewrite bind_run in *. destruct (flash_task ready fuel part b) as [[t|e|] b1]; try done.
  exists t, b1. split; [done|]. intros Hs1. unfold schedule_task in *. rewrite bind_run in *. cbv [gets id] in *.
  rewrite Hs1 in *. unfold run_checked in *. cbn [task_set_context t_workload] in *.
  destruct (workload_run fuel (t_workload t) b1) as [[[]|e|] b2]; cbn [or_fail] in *; try by simplify_eq/=.
  unfold fail_with in *. by destruct (command_error (show_error e)).
Qed.

Lemma schedule_background w ctx dev io d pool b :
  running w dev io d pool (set_tasks (mkSlice (<[O := mkTask w ctx]> (pf_arr (gf_tasks b))) 1) b) →
  enable_async_task b = true → no_task b → 0 < zlen (pf_arr (gf_tasks b)) →
  let b1 := set_tasks (mkSlice (<[O := mkTask w ctx]> (pf_arr (gf_tasks b))) 1) b in
  ∃ b2, schedule_task ready fuel (mkTask w ctx) b = (Ok (Some ASYNC_INFO), b2) ∧
    if ready (gf_polls b) then ∃ arr, b2 = task_done dev io d pool arr (S (gf_polls b)) b1
    else b2 = set_polls (S (gf_polls b)) b1 ∧ running w dev io d pool b2.
Proof.
  intros Hrun Has Hno Hroom b1. unfold schedule_task. rewrite bind_run. cbv [gets id]. rewrite Has.
  assert (Hadd : add_task ready fuel fuel (mkTask w ctx) b = (Ok tt, b1)).
  { unfold no_task in Hno. destruct fuel; cbn [add_task]; rewrite bind_run; cbv [gets id]; unfold add_with; rewrite Hno;
      rewrite (proj2 (Z.ltb_lt _ _)) by done; rewrite bind_run; done. }
  rewrite bind_run, Hadd, bind_run. pose proof (running_poll _ _ _ _ _ _ Hrun) as Hp. fold b1 in Hp.
  change (gf_polls b1) with (gf_polls b) in Hp. destruct (ready (gf_polls b)).
  - destruct Hp as (n & arr & ->). rewrite mret_run. eexists. split; [done|]. by exists arr.
  - destruct Hp as (n & -> & Hrun'). rewrite mret_run. eexists. split; [done|]. by split.
Qed.

(** What a flash that succeeds in the foreground does in the background up to the
    first poll: the task runs on the device [blk], lent from [d], and will end
    with [io] and [pool]. *)
Lemma flash_background_start b part bs :
  devices_ok (gf_disks b) → default_ok (gf_disks b) (default_block b) → Forall idle (gf_disks b) →
  no_task b → 0 < zlen (pf_arr (gf_tasks b)) →
  enable_async_task b = false → gf_flash ready fuel b part = IRet (Ok tt, bs) →
  ∃ w ctx blk io d pool b1, 0 ≤ blk ∧
    bs = set_pool pool (set_disks (<[Z.to_nat blk := drop_io io (busy d)]> (gf_disks b1)) b1) ∧
    gf_polls b1 = gf_polls b ∧ gf_tasks b1 = gf_tasks b ∧
    gf_flash ready fuel (set_async true b) part =
      reply_info (schedule_task ready fuel (mkTask w ctx) (set_async true b1)) ∧
    running w blk io (busy d) pool
      (set_tasks (mkSlice (<[O := mkTask w ctx]> (pf_arr (gf_tasks b))) 1) (set_async true b1)) ∧
    others_idle blk (gf_disks b1) ∧ sized (drop_io io (busy d)).
Proof.
  intros Hds Hdef Hidle Hno Hroom Hsync HF.
  destruct (flash_foreground b part bs Hsync HF) as (HG & t & b1 & Ht & Hrun).
  destruct (flash_task_parses _ _ _ _ Ht) as ([[[name blk] woff] wsz] & HP).
  destruct (parse_partition_inv _ _ _ _ _ _ _ Hds Hdef HP) as (d & lo & hi & Hpa).
  pose proof (pa_dev _ _ _ _ _ _ _ _ Hpa) as Hd.
  destruct (proj1 (Forall_lookup _ _) Hds _ _ Hd) as (i & C & Hok).
  pose proof (proj1 (Forall_lookup _ _) Hidle _ _ Hd) as Hi.
  destruct (flash_task_inv _ _ _ _ _ _ i C d lo hi t b1 HP Hpa Hok Hi Ht) as (Hdev & Hb1 & Ht').
  specialize (Hrun ltac:(rewrite Hb1; exact Hsync)).
  destruct (workload_run_inv _ blk b1 bs Hdev Hrun) as (io & d' & pool & Hd' & Hw).
  rewrite (Hw b1 eq_refl eq_refl) in Hrun. injection Hrun as Hbs.
  assert (d' = busy d) as ->.
  { rewrite Hb1 in Hd'. cbn in Hd'. rewrite list_lookup_insert_eq in Hd' by (by eapply lookup_lt_Some). congruence. }
  set (ctx := t_context (task_set_context [str "flash:"; part] t)).
  exists (t_workload t), ctx, blk, io, d, pool, b1. split_and!; try by rewrite Hb1.
  - apply Hpa.
  - done.
  - unfold gf_flash. cbn [gf_disks default_block set_async]. by rewrite HG, bind_run, Ht'.
  - split; [|exact Hd'|done|by eapply device_sized, busy_ok|exact Hw].
    exists (<[O := mkTask (t_workload t) ctx]> (pf_arr (gf_tasks b))), ctx. split; [done|].
    apply list_lookup_insert_eq. lia.
  - intros j dj Hj Hne. rewrite Hb1 in Hj. cbn in Hj. rewrite list_lookup_insert_ne in Hj by done.
    destruct (proj1 (Forall_lookup _ _) Hds _ _ Hj) as (ij & Cj & Hj').
    split; [by apply (proj1 (Forall_lookup _ _) Hidle _ _ Hj)|by eapply device_sized].
  - by apply device_sized in Hok.
Qed.


(** ** Fetching *)

(** An upload on a transport that does not fail: what is sent and the end. *)
Fixpoint accept_all {A} (a : uploading A) : list bytes * A :=
  match a with
  | URet a => ([], a)
  | UData data k => let '(l, r) := accept_all (k (inl tt)) in (data :: l, r)
  end.

(** The buffer that a command gets: the staged one, or one of the pool. *)
Definition buffer_of b (buf : Buffer) (pool : list Buffer) : Prop :=
  match current_download_buffer b with
  | Some v => v = buf ∧ pool = gf_pool b
  | None => pool_allocate (gf_pool b) = Some (buf, pool)
  end.

Lemma get_download_buffer_run b buf pool :
  buffer_of b buf pool →
  get_download_buffer ready fuel b = (Ok buf, set_download (Some buf) (current_download_size b) (set_pool pool b)).
Proof.
  unfold buffer_of, get_download_buffer. rewrite bind_run. cbv [gets id].
  destruct (current_download_buffer b) as [v|] eqn:Eb.
  - intros [-> ->]. rewrite mret_run. destruct b. cbn in *. by subst.
  - intros Hp. rewrite bind_run. destruct fuel; cbn [allocate_async]; rewrite bind_run; cbv [gets id]; rewrite Hp; done.
Qed.

Lemma pio_read_run i C k (lo hi : Z) out addr off :
  calm i C k → buffer_ok i addr (zlen out) → 0 ≤ lo → hi ≤ zlen C → 0 ≤ off → lo + off + zlen out ≤ hi →
  ∃ k', pio_read addr off (mkPartIo k lo hi, out) =
          (Ok tt, (mkPartIo k' lo hi, slice C (lo + off) (zlen out))) ∧ calm i C k'.
Proof.
  intros Hk Hb Hlo Hhi Ho Hl. pose proof (room i C (do_info _ _ _ (proj1 Hk))). pose proof (bs_pos i C (do_info _ _ _ (proj1 Hk))).
  unfold pio_read. rewrite bind_run. cbv [gets id]. rewrite bind_run, lift_run, check_rw_range_val by (cbn; lia).
  cbn [part_start part_end]. rewrite decide_True by lia. unfold on_pio, zoom. cbn [fst snd pio_disk part_start part_end].
  destruct (read_run i C k out addr (lo + off)) as (k' & -> & Hk'); [done|done|lia|lia|]. by exists k'.
Qed.

Lemma take_splice_0 {A} (l d : list A) : take (length d) (splice l 0 d) = d.
Proof. unfold splice. change (Z.to_nat 0) with O. rewrite (take_0 l). cbn [app]. apply take_app_length. Qed.

(** The rest of a fetch, from [curr] on. *)
Lemma fetch_loop_run n dev i C k lo hi buf curr end_ b d :
  calm i C k → 0 ≤ lo → hi ≤ zlen C → 0 < zlen (buf_bytes buf) → buffer_ok i (buf_addr buf) (zlen (buf_bytes buf)) →
  0 ≤ curr ≤ end_ → lo + end_ ≤ hi → end_ - curr ≤ Z.of_nat n →
  gf_disks b !! Z.to_nat dev = Some (busy d) → current_download_buffer b = Some buf →
  ∃ chunks bs k',
    accept_all (fetch_loop n dev (mkPartIo k lo hi) buf curr end_ b) =
      (chunks, (Ok tt, set_disks (<[Z.to_nat dev := with_disk d k']> (gf_disks b))
                         (set_download (Some (mkBuffer (buf_addr buf) bs)) (current_download_size b) b))) ∧
    calm i C k' ∧ length bs = length (buf_bytes buf) ∧ mjoin chunks = slice C (lo + curr) (end_ - curr) ∧
    Forall (λ c, 0 < zlen c ≤ zlen (buf_bytes buf)) chunks ∧
    match last chunks with Some c => take (length c) bs = c | None => bs = buf_bytes buf end.
Proof.
  revert k buf curr b. induction n as [|n IH]; intros k buf curr b Hk Hlo Hhi Hbuf Hb Hc He Hn Hd Hdl;
    cbn [fetch_loop]; destruct (Z.ltb_spec curr end_) as [Hlt|Hge]; cbn [negb]; try lia.
  1, 3: exists [], (buf_bytes buf), k; cbn [accept_all]; unfold end_fetch; rewrite bind_run, (release_run _ _ b _ Hd);
    rewrite slice_empty by lia; split_and!; try done; rewrite lift_run, drop_busy;
    do 2 f_equal; destruct b; cbn in *; subst; by destruct buf.
  set (m := Z.min (end_ - curr) (zlen (buf_bytes buf))).
  assert (Hm : 0 < m ≤ zlen (buf_bytes buf) ∧ m ≤ end_ - curr) by lia.
  assert (Hsl : zlen (slice (buf_bytes buf) 0 m) = m) by (lens; lia).
  destruct (pio_read_run i C k lo hi (slice (buf_bytes buf) 0 m) (buf_addr buf) curr) as (k1 & E1 & Hk1);
    [done|rewrite Hsl; destruct Hb; split; lia|lia|lia|lia|lia|].
  fold m. rewrite E1, Hsl. set (data := slice C (lo + curr) m).
  assert (Hdata : zlen data = m) by (unfold data; lens; lia).
  set (bs1 := splice (buf_bytes buf) 0 data).
  assert (Hbs1 : length bs1 = length (buf_bytes buf)) by (unfold bs1; lens; lia).
  set (b1 := set_download _ _ b). cbn [accept_all].
  pose proof (room i C (do_info _ _ _ (proj1 Hk))). pose proof (bs_pos i C (do_info _ _ _ (proj1 Hk))).
  rewrite arith_ok by lia.
  destruct (IH k1 (mkBuffer (buf_addr buf) bs1) (curr + m) b1) as (chunks & bs & k' & E & Hk' & Hl & Hj & HF & Hlast);
    cbn [buf_bytes buf_addr] in *; rewrite ?Hbs1 in *; try done; try lia.
  rewrite E. exists (data :: chunks), bs, k'. split_and!; try done.
  - change (mjoin (data :: chunks)) with (data ++ mjoin chunks). rewrite Hj. unfold data. replace (lo + (curr + m)) with (lo + curr + m) by lia.
    rewrite slice_app_split by lia. f_equal. lia.
  - constructor; [lia|done].
  - destruct chunks as [|c chunks]; [|rewrite last_cons_cons; rewrite last_cons in *; by destruct (last chunks)].
    cbn in Hlast. subst bs. apply take_splice_0.
Qed.

(** C13. A fetch sends exactly the bytes that it was asked for: for any range in
    the window that the argument names, the chunks that are uploaded make up
    the range of the partition, none of them is empty or larger than the buffer,
    their total is the size that was announced, and no byte of any device has
    changed. The data goes through the download buffer: afterwards a staged
    image begins with the last chunk that was sent. *)
Theorem gbl_fetch_exact b part name blk woff wsz offset size buf pool i C d :
  parse_partition (gf_disks b) (default_block b) part = Ok (name, blk, woff, wsz) →
  devices_ok (gf_disks b) → default_ok (gf_disks b) (default_block b) →
  gf_disks b !! Z.to_nat blk = Some d → idle d → device_ok i C d → disk_quiet (cell_value (gd_disk d)) →
  buffer_of b buf pool → 0 < zlen (buf_bytes buf) → buffer_ok i (buf_addr buf) (zlen (buf_bytes buf)) →
  0 ≤ offset → 0 ≤ size → offset + size ≤ wsz → size ≤ Z.of_nat fuel →
  ∃ p lo hi failed sending info_failed, gd_find_partition d (chars <$> name) = Ok p ∧
    part_absolute_range p = Ok (lo, hi) ∧
    gf_fetch ready fuel b part offset size =
      BInfo [str "Uploading "; fmt_dec size; str " bytes..."]
        (λ e, match e with inl _ => BStart size failed sending | inr e => info_failed e end) ∧
    ∃ chunks bs k,
      accept_all sending =
        (chunks, (Ok tt, set_disks (<[Z.to_nat blk := with_disk d k]> (gf_disks b))
           (set_download (Some (mkBuffer (buf_addr buf) bs)) (current_download_size b) (set_pool pool b)))) ∧
      device_ok i C (with_disk d k) ∧ length bs = length (buf_bytes buf) ∧
      mjoin chunks = slice C (lo + woff + offset) size ∧ zlen (mjoin chunks) = size ∧
      Forall (λ c, 0 < zlen c ≤ zlen (buf_bytes buf)) chunks ∧
      match last chunks with Some c => take (length c) bs = c | None => bs = buf_bytes buf end.
Proof.
  intros HP Hds Hdef Hd Hi Hok Hq Hbuf Hpos Hb Ho Hs Hw Hf.
  destruct (parse_partition_inv _ _ _ _ _ _ _ Hds Hdef HP) as (d' & lo & hi & Hpa).
  assert (d' = d) as -> by (pose proof (pa_dev _ _ _ _ _ _ _ _ Hpa); congruence).
  pose proof (parse_and_get_run part b name blk woff wsz i C d lo hi HP Hpa Hok Hi) as Hrun.
  destruct Hpa as [Hblk _ (p & Hp & Hr) Hwo Hwz Hwin]. exists p, lo, hi.
  pose proof (find_partition_cases i C d (chars <$> name) Hok) as Hfp. rewrite Hp in Hfp.
  destruct Hfp as (a & a' & Hr' & (Hlo & Hhi & _)). rewrite Hr in Hr'. simplify_eq.
  pose proof (room i C (do_info _ _ _ (dv_disk _ _ _ Hok))). pose proof (bs_pos i C (do_info _ _ _ (dv_disk _ _ _ Hok))).
  unfold gf_fetch. rewrite bind_run, Hrun, bind_run.
  rewrite (get_download_buffer_run _ buf pool) by exact Hbuf. rewrite mret_run.
  rewrite sn_add by (unfold u64_ok; lia). cbn [safe_or_fail].
  set (b1 := set_download _ _ _).
  eexists _, _, (λ e, BRet _). split_and!; [done|done|reflexivity|].
  destruct (fetch_loop_run fuel blk i C (cell_value (gd_disk d)) (a + woff) (a + woff + wsz) buf offset (offset + size) b1 d)
    as (chunks & bs & k & E & [Hk _] & Hl & Hj & HF & Hlast); try done; try lia.
  - split; [apply Hok|done].
  - apply list_lookup_insert_eq. by eapply lookup_lt_Some.
  - replace (offset + size - offset) with size in Hj by lia. exists chunks, bs, k. rewrite E. split_and!; try done.
    + unfold b1, set_disks, set_download, set_pool. cbn. by rewrite list_insert_insert_eq.
    + by eapply with_disk_ok.
    + rewrite Hj. lens.
Qed.
End Backend.

(** ** Variables *)

Section Vars.
Context {D G : Type} `{!BlockIo D} `{!BlockIoSpec D} `{!Hasher} `{!UnstableSort} `{!ShowError} `{!ShowSafeError} `{!GblOps G}.
Context `{!ZbiContainer} `{!ZbiFiles G}.
Context (ready : nat → bool) (fuel : nat).
Implicit Types (b : GblFastboot D G).

Lemma hex_arg id args : u64_ok id → next_arg_u64 (fmt_hex0x id :: args) = (Ok (Some id), args).
Proof. intros Hid. unfold next_arg_u64. cbn [next_arg]. rewrite bool_decide_false by done. by rewrite hex_to_u64_hex0x. Qed.

Lemma text_args id ty :
  u64_ok id → is_utf8 ty = true → list_find (λ v, is_utf8 v = false) [fmt_hex0x id; ty] = None.
Proof.
  intros Hid Hty. apply list_find_None. repeat constructor; [|by rewrite Hty].
  assert (Hu : is_utf8 (fmt_hex0x id) = true); [|by rewrite Hu].
  apply is_utf8_spec. eexists. apply decode_ascii, fmt_hex0x_ascii. apply Hid.
Qed.

(** The number of a device in [getvar block-device:<id>:<type>] is not
    checked: a number behind the last device makes the bootloader panic, whatever
    the type, where the OEM command that selects the same device answers an error
    and changes nothing. *)
Theorem getvar_block_device_panics b id ty out res :
  u64_ok id → is_utf8 ty = true → ty ≠ [] → zlen (gf_disks b) ≤ id →
  gf_get_var b BLOCK_DEVICE [fmt_hex0x id; ty] out = IRet (Panic, out, b) ∧
  gf_oem ready fuel b (str "gbl-set-default-block " ++ fmt_hex0x id) res = IRet (fail_str (str "Out of range"), b).
Proof.
  intros Hid Hu Hne Hout.
  assert (Hd : gf_disks b !! Z.to_nat id = None) by (apply lookup_ge_None; lia).
  split.
  - unfold gf_get_var, get_var_internal. rewrite text_args by done.
    change (is_utf8 BLOCK_DEVICE) with true. cbn [negb].
    rewrite !bool_decide_false by done. rewrite bool_decide_true by done.
    unfold get_var_block_device. rewrite hex_arg by done. cbn [next_arg fst ok_or_str mbind outcome_bind].
    rewrite bool_decide_false by done. cbn [ok_or_str mbind outcome_bind]. by rewrite Hd.
  - unfold gf_oem. change (str "gbl-set-default-block ") with (str "gbl-set-default-block" ++ [32]).
    rewrite <- app_assoc. cbn [app]. rewrite split_on_app by by_compute.
    rewrite split_on_no_sep.
    2: { unfold fmt_hex0x. intros [Hin|Hin]%elem_of_app; [by revert Hin; by_compute|].
         apply fmt_hex_chars in Hin; unfold u64_ok in Hid; lia. }
    rewrite !bool_decide_false by done. rewrite bool_decide_true by done.
    rewrite hex_arg by done. cbn [fst ok_or_str mbind outcome_bind]. by rewrite Hd.
Qed.
End Vars.

(** ** Examples *)

Import RamBlockSpec.
#[local] Existing Instances StandardHasher MergeSort fuchsia_platform.
#[local] Instance ex_show : ShowError := λ _, [str "error"].
#[local] Instance ex_show_safe : ShowSafeError := λ _, [str "overflow"].

(** Two devices of four blocks of four bytes, each one partition. *)
Definition ex_bytes : bytes := [0; 1; 2; 3; 4; 5; 6; 7; 8; 9; 10; 11; 12; 13; 14; 15].
Definition ex_small (name : string) : GblDisk RamBlock.RamBlockIo :=
  mkGblDisk (cell (ram_disk ex_bytes 1000)) (cell (RawTable (str name ++ zeros (72 - zlen (str name))) 16)) (ram_info4 ex_bytes).

Lemma ex_small_ok name :
  is_ok (raw_name_to_str (str name ++ zeros (72 - zlen (str name)))) = true →
  device_ok (ram_info4 ex_bytes) ex_bytes (ex_small name).
Proof. intros Hn. split; [done|apply ram_disk_ok; by_compute|by split]. Qed.

(** A backend with the image [data] staged, which polls a task to its end at the
    third poll. *)
Definition ex_data : Buffer := mkBuffer 5000 [21; 22; 23; 24; 25; 26; 27; 28].
Definition ex_backend (sz : Z) : GblFastboot RamBlock.RamBlockIo unit :=
  set_download (Some ex_data) sz
    (gf_new tt [ex_small "boot"; ex_small "data"] (slice_new [task_new TNone; task_new TNone])
       [no_buffer; mkBuffer 7000 [0; 0; 0]] no_buffer).
Definition ex_ready (n : nat) : bool := Nat.eqb n 2.

Lemma ex_devices_ok : devices_ok (gf_disks (ex_backend 5)).
Proof. repeat constructor; eexists _, _; apply ex_small_ok; vm_compute; reflexivity. Qed.

Lemma ex_no_default : default_ok (gf_disks (ex_backend 5)) None.
Proof. by intros v ?. Qed.

Lemma ex_staged sz : 0 ≤ sz ≤ 8 → staged (ex_backend sz) ex_data sz.
Proof. intros Hs. split; [done|done|exact Hs|]. eexists. vm_compute. reflexivity. Qed.

(** Five bytes to the window of eight at the offset four of "data". *)
Lemma gbl_flash_exact_witness :
  ∃ b', gf_flash ex_ready 10 (ex_backend 5) (str "data//4/8") = IRet (Ok tt, b') ∧
        storage_of <$> gf_disks b' = [ex_bytes; [0; 1; 2; 3; 21; 22; 23; 24; 25; 9; 10; 11; 12; 13; 14; 15]].
Proof.
  destruct (gbl_flash_exact ex_ready 10 (ex_backend 5) (str "data//4/8") (Some (str "data")) 1 4 8 ex_data 5
    (ram_info4 ex_bytes) ex_bytes (ex_small "data")) as (p & lo & hi & pool & Hp & Hr & _ & _ & H).
  - vm_compute. reflexivity.
  - vm_compute. reflexivity.
  - exact ex_devices_ok.
  - exact ex_no_default.
  - reflexivity.
  - apply ex_staged. lia.
  - by left.
  - reflexivity.
  - reflexivity.
  - apply ex_small_ok. vm_compute. reflexivity.
  - reflexivity.
  - split; by_compute.
  - assert (Hp1 : gd_find_partition (ex_small "data") (Some (str "data")) =
      Ok (RawPartition (str "data" ++ zeros (72 - zlen (str "data"))) 16)) by (vm_compute; reflexivity).
    change (chars <$> Some (str "data")) with (Some (str "data")) in Hp. rewrite Hp1 in Hp. injection Hp as <-.
    injection Hr as <- <-. destruct H as (k & E & Hd). eexists. split; [exact E|].
    pose proof (dv_disk _ _ _ Hd) as [_ (_ & _ & HC) _]. cbn in HC.
    cbn [gf_disks set_pool set_download set_disks ex_backend gf_new]. change (Z.to_nat 1) with 1%nat.
    cbn [insert list_insert fmap list_fmap]. unfold storage_of at 2. cbn [with_disk gd_disk cell cell_value].
    rewrite HC. reflexivity.
Defined.


(** Eleven bytes through a buffer of eight. *)
Lemma gbl_fetch_exact_witness :
  ∃ k f u, gf_fetch ex_ready 20 (ex_backend 5) (str "boot") 3 11 =
      BInfo [str "Uploading "; fmt_dec 11; str " bytes..."] k ∧ k (inl tt) = BStart 11 f u ∧
    mjoin (fst (accept_all u)) = [3; 4; 5; 6; 7; 8; 9; 10; 11; 12; 13].
Proof.
  destruct (gbl_fetch_exact ex_ready 20 (ex_backend 5) (str "boot") (Some (str "boot")) 0 0 16 3 11 ex_data
    [no_buffer; mkBuffer 7000 [0; 0; 0]] (ram_info4 ex_bytes) ex_bytes (ex_small "boot"))
    as (p & lo & hi & f & u & inf & Hp & Hr & HE & chunks & bs & k & HA & _ & _ & Hj & _).
  - vm_compute. reflexivity.
  - exact ex_devices_ok.
  - exact ex_no_default.
  - reflexivity.
  - reflexivity.
  - apply ex_small_ok. vm_compute. reflexivity.
  - reflexivity.
  - split; reflexivity.
  - reflexivity.
  - split; by_compute.
  - lia.
  - lia.
  - lia.
  - lia.
  - assert (Hp1 : gd_find_partition (ex_small "boot") (Some (str "boot")) =
      Ok (RawPartition (str "boot" ++ zeros (72 - zlen (str "boot"))) 16)) by (vm_compute; reflexivity).
    change (chars <$> Some (str "boot")) with (Some (str "boot")) in Hp. rewrite Hp1 in Hp. injection Hp as <-.
    injection Hr as <- <-. eexists _, f, u. split; [exact HE|]. split; [reflexivity|]. rewrite HA. cbn [fst].
    rewrite Hj. vm_compute. reflexivity.
Defined.

#[local] Instance ex_zbi : ZbiContainer := {|
  ZBI_ALIGNMENT := 8;
  zbi_parses _ := false;
  zbi_new _ := Err [];
  zbi_next_payload _ := Err [];
  zbi_create_entry _ _ := Err [];
|}.
#[local] Instance ex_zbi_files : ZbiFiles unit := λ _, None.

Lemma getvar_block_device_panics_witness :
  gf_get_var (ex_backend 5) BLOCK_DEVICE [fmt_hex0x 2; TOTAL_BLOCKS] (zeros 60) = IRet (Panic, zeros 60, ex_backend 5).
Proof.
  apply (getvar_block_device_panics ex_ready 10 (ex_backend 5) 2 TOTAL_BLOCKS (zeros 60) []);
    [by_compute|reflexivity|discriminate|by_compute].
Defined.
