(* ===== verification/DtTable.v ===== *)
(** * libdttable: device tree tables

    Models src/gbl/libdttable/src/lib.rs. The C structures of a table come from
    generated bindings, so their layout is a parameter: their sizes and where
    their fields are. *)

From S2P Require Import Prelude SafeMath LibError.
Import SafeNum.

(** The bindings of [dt_table_header] and [dt_table_entry]: sizes, offsets of the
    32-bit big-endian fields, alignment, and the magic number. *)
Class DtTableLayout := {
  DT_TABLE_MAGIC : Z;
  dt_header_size : Z;
  dt_entry_len : Z;
  dt_align : Z;
  off_magic : Z;
  off_dt_entry_size : Z;
  off_dt_entry_count : Z;
  off_dt_entries_offset : Z;
  off_dt_size : Z;
  off_dt_offset : Z;
  off_id : Z;
  off_rev : Z;
  off_custom : Z;
}.
Section Table.
Context `{!DtTableLayout}.

(** A 32-bit field of a structure, as it is stored ([u32] of the host, which is
    little-endian) and in big-endian order. *)
Definition u32_at (s : bytes) (off : Z) : Z := le_val (slice s off 4).
Definition be32_at (s : bytes) (off : Z) : Z := be_val (slice s off 4).

(** gbl/libdttable/src/lib.rs:32-35, [DtTableHeader::magic]. *)
Definition dt_magic (h : bytes) : Z := be32_at h off_magic.
(** gbl/libdttable/src/lib.rs:37-40, [DtTableHeader::dt_entry_count]. *)
Definition dt_entry_count (h : bytes) : Z := be32_at h off_dt_entry_count.
(** gbl/libdttable/src/lib.rs:42-45, [DtTableHeader::dt_entry_size]. *)
Definition dt_entry_size (h : bytes) : Z := be32_at h off_dt_entry_size.
(** gbl/libdttable/src/lib.rs:47-50, [DtTableHeader::dt_entries_offset]. *)
Definition dt_entries_offset (h : bytes) : Z := be32_at h off_dt_entries_offset.

(** gbl/libdttable/src/lib.rs:59-62, [DtTableHeaderEntry::id]. *)
Definition dt_id (e : bytes) : Z := be32_at e off_id.
(** gbl/libdttable/src/lib.rs:64-67, [DtTableHeaderEntry::rev]. *)
Definition dt_rev (e : bytes) : Z := be32_at e off_rev.
(** gbl/libdttable/src/lib.rs:69-72, [DtTableHeaderEntry::dt_size]. *)
Definition dt_size (e : bytes) : Z := be32_at e off_dt_size.
(** gbl/libdttable/src/lib.rs:74-77, [DtTableHeaderEntry::dt_offset]. *)
Definition dt_offset (e : bytes) : Z := be32_at e off_dt_offset.

(** gbl/libdttable/src/lib.rs:80-89, [DtTableMetadata]. *)
Record DtTableMetadata := mkDtMetadata { md_id : Z; md_rev : Z; md_custom : list Z }.

(** gbl/libdttable/src/lib.rs:91-98, [DtTableEntry]. *)
Record DtTableEntry := mkDtEntry { de_dtb : bytes; de_metadata : DtTableMetadata }.

(** gbl/libdttable/src/lib.rs:100-105, [DtTableImage]: the whole buffer, the header and the
    entries. *)
Record DtTableImage := mkDtImage { dti_buffer : bytes; dti_header : bytes; dti_entries : list bytes }.

(** The structures of length [len] that make up [s]. *)
Fixpoint chunks (n : nat) (len : Z) (s : bytes) : list bytes :=
  match n with
  | O => []
  | S n => slice s 0 len :: chunks n len (drop (Z.to_nat len) s)
  end.

(** [Ref::new_from_prefix] of a header and [Ref::new_slice] of entries, of bytes at
    [addr], which have to be aligned; entries have to make up the bytes. *)
Definition new_header (addr : Z) (s : bytes) : option bytes :=
  if addr mod dt_align =? 0 then get_range s 0 dt_header_size else None.
Definition new_slice (addr : Z) (s : bytes) : option (list bytes) :=
  if (addr mod dt_align =? 0) && (zlen s mod dt_entry_len =? 0) then Some (chunks (Z.to_nat (zlen s / dt_entry_len)) dt_entry_len s)
  else None.

(** gbl/libdttable/src/lib.rs:128-151, [DtTableImage::from_bytes]: of a buffer at
    [addr]. *)
Definition from_bytes (addr : Z) (buffer : bytes) : result DtTableImage :=
  header ← ok_or (new_header addr buffer) (BufferTooSmall (Some dt_header_size));
  if negb (dt_magic header =? DT_TABLE_MAGIC) then Err BadMagic else
  let entries_offset := Val (dt_entries_offset header) in
  let entry_size := Val (dt_entry_size header) in
  let entries_count := Val (dt_entry_count header) in
  entries_start ← into_u64 entries_offset;
  entries_end ← into_u64 (entries_offset +! entry_size *! entries_count);
  entries_buffer ← ok_or (get_range buffer entries_start entries_end) (BufferTooSmall (Some entries_end));
  entries ← ok_or (new_slice (addr + entries_start) entries_buffer) InvalidInput;
  Ok (mkDtImage buffer header entries).

(** gbl/libdttable/src/lib.rs:153-156, [DtTableImage::entries_count]. *)
Definition entries_count (t : DtTableImage) : Z := dt_entry_count (dti_header t).

(** gbl/libdttable/src/lib.rs:163-180, [DtTableImage::nth_entry]. *)
Definition nth_entry (t : DtTableImage) (n : Z) : result DtTableEntry :=
  entry ← ok_or (dti_entries t !! Z.to_nat n) (BadIndex n);
  let dtb_offset := Val (dt_offset entry) in
  let dtb_size := Val (dt_size entry) in
  dtb_start ← into_u64 dtb_offset;
  dtb_end ← into_u64 (dtb_offset +! dtb_size);
  dtb_buffer ← ok_or (get_range (dti_buffer t) dtb_start dtb_end) (BufferTooSmall (Some dtb_end));
  Ok (mkDtEntry dtb_buffer
        (mkDtMetadata (dt_id entry) (dt_rev entry)
           ((λ k, u32_at entry (off_custom + 4 * k)) <$> [0; 1; 2; 3]))).

(** gbl/libdttable/src/lib.rs:107-111, [DtTableImageIterator]. *)
Record DtTableImageIterator := mkDtIter { it_table : DtTableImage; current_index : Z }.

(** gbl/libdttable/src/lib.rs:158-161, [DtTableImage::entries]. *)
Definition entries (t : DtTableImage) : DtTableImageIterator := mkDtIter t 0.

(** gbl/libdttable/src/lib.rs:116-124, [Iterator::next for DtTableImageIterator]. *)
Definition dt_next (it : DtTableImageIterator) : result (option (DtTableEntry * DtTableImageIterator)) :=
  if current_index it <? entries_count (it_table it) then
    e ← unwrap_res (nth_entry (it_table it) (current_index it));
    Ok (Some (e, mkDtIter (it_table it) (current_index it + 1)))
  else Ok None.
End Table.

(** ** Properties *)

(** All that an iterator yields, in at most [n] steps. *)
Fixpoint dt_collect `{!DtTableLayout} (n : nat) (it : DtTableImageIterator) : result (list DtTableEntry) :=
  match n with
  | O => Ok []
  | S n =>
      r ← dt_next it;
      match r with
      | None => Ok []
      | Some (e, it) => l ← dt_collect n it; Ok (e :: l)
      end
  end.

Section Properties.
Context `{!DtTableLayout}.

(** The entry of index [i] exists and its blob lies in the image. *)
Definition entry_ok (t : DtTableImage) (i : nat) : bool :=
  match dti_entries t !! i with
  | Some e => dt_offset e + dt_size e <=? zlen (dti_buffer t)
  | None => false
  end.
Definition entry_of (t : DtTableImage) (i : nat) : DtTableEntry :=
  let e := default [] (dti_entries t !! i) in
  mkDtEntry (slice (dti_buffer t) (dt_offset e) (dt_size e))
    (mkDtMetadata (dt_id e) (dt_rev e) ((λ k, u32_at e (off_custom + 4 * k)) <$> [0; 1; 2; 3])).

Lemma be32_bound s off : bytes_ok s → 0 ≤ be32_at s off < 2 ^ 32.
Proof.
  intros Hs. pose proof (be_val_bound (slice s off 4) (bytes_ok_slice s off 4 Hs)) as Hb.
  unfold be32_at. assert (Hl : zlen (slice s off 4) ≤ 4) by (unfold slice; rewrite length_take; lia).
  pose proof (Z.pow_le_mono_r 256 (zlen (slice s off 4)) 4 ltac:(lia) Hl). lia.
Qed.

Lemma nth_entry_cases t (i : nat) :
  Forall bytes_ok (dti_entries t) →
  nth_entry t (Z.of_nat i) =
    if entry_ok t i then Ok (entry_of t i)
    else Err (match dti_entries t !! i with
              | Some e => BufferTooSmall (Some (dt_offset e + dt_size e))
              | None => BadIndex (Z.of_nat i)
              end).
Proof.
  intros Hok. unfold nth_entry, entry_ok, entry_of. rewrite Nat2Z.id.
  destruct (dti_entries t !! i) as [e|] eqn:E; [|done]. cbn [ok_or mbind outcome_bind default].
  assert (He : bytes_ok e) by (by eapply Forall_lookup_1).
  pose proof (be32_bound e off_dt_offset He) as H1. pose proof (be32_bound e off_dt_size He) as H2.
  fold (dt_offset e) in H1. fold (dt_size e) in H2.
  rewrite into_u64_val, ok_bind, sn_add, into_u64_val, ok_bind by (unfold u64_ok; lia).
  destruct (Z.leb_spec (dt_offset e + dt_size e) (zlen (dti_buffer t))) as [Hle|Hgt].
  - rewrite get_range_Some by lia. cbn [ok_or mbind outcome_bind].
    by replace (dt_offset e + dt_size e - dt_offset e) with (dt_size e) by lia.
  - by rewrite get_range_None by lia.
Qed.

Lemma dt_collect_S n it :
  dt_collect (S n) it =
    (r ← dt_next it; match r with None => Ok [] | Some (e, it) => l ← dt_collect n it; Ok (e :: l) end).
Proof. done. Qed.

Lemma dt_collect_from t n (i : nat) :
  Forall bytes_ok (dti_entries t) → entries_count t = Z.of_nat (i + n) →
  dt_collect (S n) (mkDtIter t (Z.of_nat i)) =
    if forallb (entry_ok t) (seq i n) then Ok (entry_of t <$> seq i n) else Panic.
Proof.
  intros Hok. revert i. induction n as [|n IH]; intros i Hn; rewrite dt_collect_S; unfold dt_next;
    cbn [it_table current_index].
  - by rewrite (proj2 (Z.ltb_ge _ _)) by lia.
  - rewrite (proj2 (Z.ltb_lt _ _)) by lia. rewrite nth_entry_cases by done. cbn [seq forallb].
    destruct (entry_ok t i); [|done]. cbn [unwrap_res mbind outcome_bind andb].
    replace (Z.of_nat i + 1) with (Z.of_nat (S i)) by lia. rewrite (IH (S i)) by lia.
    by destruct (forallb _ _).
Qed.

Lemma chunks_ok n len s : bytes_ok s → Forall bytes_ok (chunks n len s).
Proof.
  revert s. induction n as [|n IH]; intros s Hs; cbn [chunks]; constructor; [by apply bytes_ok_slice|].
  apply IH. by apply Forall_drop.
Qed.

(** What an accepted table consists of. *)
Lemma from_bytes_inv addr buffer t :
  bytes_ok buffer → from_bytes addr buffer = Ok t →
  dti_buffer t = buffer ∧ get_range buffer 0 dt_header_size = Some (dti_header t) ∧
  dt_magic (dti_header t) = DT_TABLE_MAGIC ∧
  ∃ eb, get_range buffer (dt_entries_offset (dti_header t))
          (dt_entries_offset (dti_header t) + dt_entry_size (dti_header t) * dt_entry_count (dti_header t)) = Some eb ∧
        dti_entries t = chunks (Z.to_nat (zlen eb / dt_entry_len)) dt_entry_len eb.
Proof.
  unfold from_bytes. intros Hb (h & Hh%ok_or_inv & HP)%bind_Ok.
  unfold new_header in Hh. destruct (addr mod dt_align =? 0); [|done].
  destruct (Z.eqb_spec (dt_magic h) DT_TABLE_MAGIC); [|done]. cbn [negb] in HP.
  assert (Hok : bytes_ok h) by (apply get_range_inv in Hh as (_ & _ & ->); by apply bytes_ok_slice).
  pose proof (be32_bound h off_dt_entries_offset Hok) as H1. pose proof (be32_bound h off_dt_entry_size Hok) as H2.
  pose proof (be32_bound h off_dt_entry_count Hok) as H3.
  fold (dt_entries_offset h) in H1. fold (dt_entry_size h) in H2. fold (dt_entry_count h) in H3.
  rewrite into_u64_val, ok_bind, sn_mul, sn_add, into_u64_val, ok_bind in HP by (unfold u64_ok; nia).
  apply bind_Ok in HP as (eb & He%ok_or_inv & HP). apply bind_Ok in HP as (l & Hl%ok_or_inv & [= <-]). cbn.
  split_and!; [done|done|done|]. exists eb. split; [done|].
  unfold new_slice in Hl. destruct (_ && _); by simplify_eq/=.
Qed.

Lemma entries_ok addr buffer t :
  bytes_ok buffer → from_bytes addr buffer = Ok t → Forall bytes_ok (dti_entries t) ∧ 0 ≤ entries_count t.
Proof.
  intros Hb (_ & Hh & _ & eb & He & ->)%from_bytes_inv; [|done]. split.
  - apply chunks_ok. apply get_range_inv in He as (_ & _ & ->). by apply bytes_ok_slice.
  - unfold entries_count, dt_entry_count. apply get_range_inv in Hh as (_ & _ & ->). apply be32_bound. by apply bytes_ok_slice.
Qed.
End Properties.

(** The iterator over a table that was accepted yields its entries in order,
    each with the blob that its offset and size describe, and ends, exactly if
    all of them exist and their blobs lie in the image; otherwise it panics:
    neither the number of entries nor the position of the blobs is checked when
    the table is parsed. *)
Theorem dt_table_iteration `{!DtTableLayout} addr buffer t :
  bytes_ok buffer → from_bytes addr buffer = Ok t →
  let n := Z.to_nat (entries_count t) in
  dt_collect (S n) (entries t) =
    if forallb (entry_ok t) (seq 0 n) then Ok (entry_of t <$> seq 0 n) else Panic.
Proof.
  intros Hb Ht n. destruct (entries_ok addr buffer t Hb Ht) as [Hok Hc].
  apply (dt_collect_from t n 0 Hok). lia.
Qed.

(** The layout of the Android device tree table, and a table of one entry whose
    blob [size] says to have that many bytes; three follow. *)
Definition ex_layout : DtTableLayout := {|
  DT_TABLE_MAGIC := 0xd7b7ab1e;
  dt_header_size := 32;
  dt_entry_len := 32;
  dt_align := 4;
  off_magic := 0;
  off_dt_entry_size := 12;
  off_dt_entry_count := 16;
  off_dt_entries_offset := 20;
  off_dt_size := 0;
  off_dt_offset := 4;
  off_id := 8;
  off_rev := 12;
  off_custom := 16;
|}.
Definition ex_dt_table (size : Z) : bytes :=
  mjoin (be_bytes 4 <$> [0xd7b7ab1e; 67; 32; 32; 1; 32; 2048; 0; size; 64; 7; 1; 0; 0; 0; 0]) ++ [10; 11; 12].

#[local] Existing Instance ex_layout.
Lemma dt_table_iteration_witness :
  ∃ t1 t2, from_bytes 4096 (ex_dt_table 3) = Ok t1 ∧
           dt_collect 2 (entries t1) =
             Ok [mkDtEntry [10; 11; 12] (mkDtMetadata 7 1 [0; 0; 0; 0])] ∧
           from_bytes 4096 (ex_dt_table 4) = Ok t2 ∧
           dt_collect 2 (entries t2) = Panic.
Proof.
  destruct (from_bytes 4096 (ex_dt_table 3)) as [t1| |] eqn:E1;
    [|vm_compute in E1; discriminate E1..].
  destruct (from_bytes 4096 (ex_dt_table 4)) as [t2| |] eqn:E2;
    [|vm_compute in E2; discriminate E2..].
  pose proof (dt_table_iteration 4096 (ex_dt_table 3) t1 ltac:(by_compute) E1) as H1.
  pose proof (dt_table_iteration 4096 (ex_dt_table 4) t2 ltac:(by_compute) E2) as H2.
  vm_compute in E1. injection E1 as <-. vm_compute in E2. injection E2 as <-.
  eexists _, _. split; [reflexivity|]. split; [exact H1|]. split; [reflexivity|exact H2].
Defined.
