(* ===== verification/Fdt.v ===== *)
(** * libfdt: flattened device trees

    Models src/gbl/libfdt/src/lib.rs, which wraps the C libraries libfdt and
    libufdt. The C functions and the layout of the C header are parameters: a
    function gets the contents of the buffer it is called with, and gives its
    code and the new contents. *)

From S2P Require Import Prelude SafeMath LibError Text.
Import SafeNum.

(** The C libraries. [fdt_get_property] gives the value or the code;
    [fdt_setprop_placeholder] also gives the offset of the value, if it is not
    null. *)
Class LibFdt := {
  fdt_header_len : Z;
  fdt_header_align : Z;
  off_totalsize : Z;
  off_off_dt_strings : Z;
  off_size_dt_strings : Z;
  c_check_header : bytes → Z;
  c_strerror : Z → string;
  c_subnode_offset : bytes → Z → bytes → Z;
  c_add_subnode : bytes → Z → bytes → Z * bytes;
  c_get_property : bytes → Z → bytes → Z + bytes;
  c_setprop : bytes → Z → bytes → bytes → Z * bytes;
  c_setprop_placeholder : bytes → Z → bytes → Z → Z * bytes * option Z;
  c_del_node : bytes → Z → Z * bytes;
  c_move : bytes → bytes → Z * bytes;
  c_apply_multioverlay : bytes → list bytes → Z * bytes;
}.

Section Wrappers.
Context `{!LibFdt}.

(** gbl/libfdt/src/lib.rs:34-35, [FDT_HEADER_SIZE]. *)
Definition FDT_HEADER_SIZE : Z := fdt_header_len.
(** gbl/libfdt/src/lib.rs:36-36, [MAXIMUM_OVERLAYS_TO_APPLY]. *)
Definition MAXIMUM_OVERLAYS_TO_APPLY : Z := 16.
(** gbl/libfdt/src/lib.rs:37-37, [MAXIMUM_OVERLAYS_ERROR_MSG]. *)
Definition MAXIMUM_OVERLAYS_ERROR_MSG : string := "At most 16 overlays are supported to apply at a time".

(** gbl/libfdt/src/lib.rs:39-48, [map_result]. *)
Definition map_result (code : Z) : result Z :=
  if code <? 0 then Err (Other (Some (c_strerror code))) else Ok code.

(** gbl/libfdt/src/lib.rs:50-56, [map_result_libufdt]. *)
Definition map_result_libufdt (code : Z) : result Z :=
  if code <? 0 then Err (error_of_str "Failed to execute libufdt call") else Ok code.

(** gbl/libfdt/src/lib.rs:58-65, [fdt_check_header]. *)
Definition fdt_check_header (header : bytes) : result unit :=
  _ ← map_result (c_check_header header); Ok tt.

(** ** Headers *)

(** A big-endian 32-bit field of the header. *)
Definition fdt_field (h : bytes) (off : Z) : Z := be_val (slice h off 4).

(** gbl/libfdt/src/lib.rs:107-110, [FdtHeader::totalsize]. *)
Definition totalsize (h : bytes) : Z := fdt_field h off_totalsize.

(** gbl/libfdt/src/lib.rs:112-117, [FdtHeader::actual_size]. *)
Definition actual_size {E} (h : bytes) : outcome E Z :=
  unwrap (checked 32 (fdt_field h off_off_dt_strings + fdt_field h off_size_dt_strings)).

(** gbl/libfdt/src/lib.rs:119-122, [FdtHeader::set_totalsize]. *)
Definition set_totalsize (value : Z) (h : bytes) : bytes := splice h off_totalsize (be_bytes 4 value).

(** gbl/libfdt/src/lib.rs:124-133, [FdtHeader::from_bytes_ref]: of a buffer at [addr], which has
    to be aligned. *)
Definition from_bytes_ref (addr : Z) (buffer : bytes) : result bytes :=
  fdt_check_header buffer;;
  ok_or (if addr mod fdt_header_align =? 0 then get_range buffer 0 FDT_HEADER_SIZE else None)
        (BufferTooSmall (Some FDT_HEADER_SIZE)).

(** gbl/libfdt/src/lib.rs:135-144, [FdtHeader::from_bytes_mut]: an update of the header. *)
Definition from_bytes_mut (addr : Z) (f : bytes → bytes) (buffer : bytes) : result bytes :=
  h ← from_bytes_ref addr buffer; Ok (splice buffer 0 (f h)).

(** gbl/libfdt/src/lib.rs:67-73, [fdt_check_buffer]. *)
Definition fdt_check_buffer (addr : Z) (fdt : bytes) : result unit :=
  h ← from_bytes_ref addr fdt;
  if totalsize h <=? zlen fdt then Ok tt else Err InvalidInput.

(** gbl/libfdt/src/lib.rs:146-159, [FdtHeader::from_raw]: with the memory [mem] from the
    pointer on. *)
Definition from_raw (addr : Z) (mem : bytes) : result (bytes * bytes) :=
  header ← from_bytes_ref addr (slice mem 0 FDT_HEADER_SIZE);
  Ok (header, slice mem 0 (totalsize header)).

(** ** Trees *)

(** [name.len().try_into()?] of a name that is given to C. *)
Definition name_len (name : bytes) : result Z := try_int 31 (zlen name).

(** gbl/libfdt/src/lib.rs:88-99, [fdt_subnode_offset]. *)
Definition fdt_subnode_offset (fdt : bytes) (parent : Z) (name : bytes) : result Z :=
  _ ← name_len name; map_result (c_subnode_offset fdt parent name).

(** gbl/libfdt/src/lib.rs:75-86, [fdt_add_subnode]. *)
Definition fdt_add_subnode (parent : Z) (name : bytes) : ST bytes Error Z := λ fdt,
  match name_len name with
  | Ok _ => let '(code, fdt) := c_add_subnode fdt parent name in (map_result code, fdt)
  | Err e => (Err e, fdt)
  | Panic => (Panic, fdt)
  end.

(** gbl/libfdt/src/lib.rs:167-171, [Fdt::new]: the buffer that it wraps. *)
Definition fdt_new (addr : Z) (init : bytes) : result bytes :=
  fdt_check_buffer addr init;; Ok init.

(** gbl/libfdt/src/lib.rs:173-176, [Fdt::header_ref]. *)
Definition header_ref (addr : Z) (fdt : bytes) : result bytes := from_bytes_ref addr fdt.

(** gbl/libfdt/src/lib.rs:178-181, [Fdt::size]. *)
Definition fdt_size (addr : Z) (fdt : bytes) : result Z := h ← header_ref addr fdt; Ok (totalsize h).

(** The names of a path: empty ones are skipped. *)
Definition path_names (path : bytes) : list bytes := filter (λ n, n ≠ []) (split_on 47 path).

(** gbl/libfdt/src/lib.rs:209-219, [Fdt::find_node]: from the node [curr] on. *)
Fixpoint find_from (fdt : bytes) (names : list bytes) (curr : Z) : result Z :=
  match names with
  | [] => Ok curr
  | name :: names => curr ← fdt_subnode_offset fdt curr name; find_from fdt names curr
  end.
(** gbl/libfdt/src/lib.rs:209-219, [Fdt::find_node]. *)
Definition find_node (fdt : bytes) (path : bytes) : result Z := find_from fdt (path_names path) 0.

(** gbl/libfdt/src/lib.rs:183-207, [Fdt::get_property]. *)
Definition get_property (fdt : bytes) (path name : bytes) : result bytes :=
  node ← find_node fdt path;
  match c_get_property fdt node name with
  | inr v => Ok v
  | inl code => match map_result code with Err e => Err e | _ => Panic end
  end.

(** gbl/libfdt/src/lib.rs:359-372, [Fdt::find_or_add_node]: from the node [curr] on. *)
Fixpoint find_or_add_from (names : list bytes) (curr : Z) : ST bytes Error Z :=
  match names with
  | [] => mret curr
  | name :: names =>
      fdt ← gets id;
      curr ← match fdt_subnode_offset fdt curr name with
             | Ok v => mret v
             | Err _ => fdt_add_subnode curr name
             | Panic => lift Panic
             end;
      find_or_add_from names curr
  end.
(** gbl/libfdt/src/lib.rs:359-372, [Fdt::find_or_add_node]. *)
Definition find_or_add_node (path : bytes) : ST bytes Error Z := find_or_add_from (path_names path) 0.

(** gbl/libfdt/src/lib.rs:262-271, [Fdt::expand_to_buffer]. *)
Definition expand_to_buffer (addr : Z) : ST bytes Error unit :=
  fdt ← gets id;
  buffer_size ← lift (unwrap (checked 32 (zlen fdt)));
  fdt ← lift (from_bytes_mut addr (set_totalsize buffer_size) fdt);
  modify (λ _, fdt).

(** gbl/libfdt/src/lib.rs:252-260, [Fdt::shrink_to_fit]. *)
Definition shrink_to_fit (addr : Z) : ST bytes Error unit :=
  fdt ← gets id;
  h ← lift (header_ref addr fdt);
  actual ← lift (actual_size h);
  actual ← lift (unwrap (checked 32 actual));
  fdt ← lift (from_bytes_mut addr (set_totalsize actual) fdt);
  modify (λ _, fdt).

(** gbl/libfdt/src/lib.rs:224-229, [Fdt::new_mut]. *)
Definition fdt_new_mut (addr : Z) : ST bytes Error unit :=
  init ← gets id;
  lift (fdt_new addr init);;
  expand_to_buffer addr.

(** gbl/libfdt/src/lib.rs:231-245, [Fdt::new_from_init]: in the buffer at [addr], from the tree
    [init] at [init_addr]. *)
Definition fdt_new_from_init (addr init_addr : Z) (init : bytes) : ST bytes Error unit :=
  lift (fdt_check_buffer init_addr init);;
  fdt ← gets id;
  lift (ok_or (checked 31 (zlen fdt)) (Other None));;
  let '(code, fdt) := c_move init fdt in
  modify (λ _, fdt);;
  lift (map_result code);;
  lift (fdt_new addr fdt);;
  expand_to_buffer addr.

(** A C function that changes the tree. *)
Definition call_c (f : bytes → Z * bytes) : ST bytes Error unit := λ fdt,
  let '(code, fdt) := f fdt in (_ ← map_result code; Ok tt, fdt).

(** gbl/libfdt/src/lib.rs:273-281, [Fdt::delete_node]. *)
Definition delete_node (path : bytes) : ST bytes Error unit :=
  fdt ← gets id;
  node ← lift (find_node fdt path);
  call_c (λ fdt, c_del_node fdt node).

(** gbl/libfdt/src/lib.rs:283-297, [Fdt::set_property]. *)
Definition set_property (path name val : bytes) : ST bytes Error unit :=
  node ← find_or_add_node path;
  lift (ok_or (checked 31 (zlen val)) (Other None));;
  call_c (λ fdt, c_setprop fdt node name val).

(** gbl/libfdt/src/lib.rs:299-323, [Fdt::set_property_placeholder]: the offset of the value in the
    tree. *)
Definition set_property_placeholder (path name : bytes) (len : Z) : ST bytes Error Z :=
  node ← find_or_add_node path;
  lift (ok_or (checked 31 len) (Other None));;
  fdt ← gets id;
  let '(code, fdt, out) := c_setprop_placeholder fdt node name len in
  modify (λ _, fdt);;
  lift (map_result code);;
  lift (unwrap out).

(** gbl/libfdt/src/lib.rs:325-357, [Fdt::multioverlay_apply]. *)
Definition multioverlay_apply (addr : Z) (overlays : list bytes) : ST bytes Error unit :=
  if zlen overlays =? 0 then mret tt else
  if zlen overlays >? MAXIMUM_OVERLAYS_TO_APPLY then raise (error_of_str MAXIMUM_OVERLAYS_ERROR_MSG) else
  shrink_to_fit addr;;
  (λ fdt, let '(code, fdt) := c_apply_multioverlay fdt overlays in (map_result_libufdt code, fdt));;
  expand_to_buffer addr.
End Wrappers.
