(* ===== verification/Avb.v ===== *)
(** * libgbl: verified boot

    Models src/gbl/libgbl/src/gbl_avb/state.rs, gbl_avb/ops.rs and error.rs, and
    the Android verification of src/gbl/libgbl/src/android_boot/vboot.rs. The
    library libavb, which calls back into [GblAvbOps], and the platform are
    parameters. *)

From S2P Require Import Prelude SafeMath LibError Text Abr Block Disk Partition GblOps.
From S2P Require Import BootParams.
Import SafeNum.

(** ** States and errors *)

(** gbl/libgbl/src/gbl_avb/state.rs:19-32, [BootStateColor]. *)
Inductive BootStateColor := Green | Yellow | Orange | RedEio | Red.
#[export] Instance BootStateColor_eq_dec : EqDecision BootStateColor.
Proof. solve_decision. Defined.

(** gbl/libgbl/src/gbl_avb/state.rs:36-44, [Display::fmt for BootStateColor]. *)
Definition show_color (c : BootStateColor) : bytes :=
  match c with
  | Green => str "green" | Yellow => str "yellow" | Orange => str "orange"
  | RedEio => str "red_eio" | Red => str "red"
  end.

(** gbl/libgbl/src/gbl_avb/state.rs:47-56, [KeyValidationStatus]. *)
Inductive KeyValidationStatus := ValidKey | ValidCustomKey | InvalidKey.
#[export] Instance KeyValidationStatus_eq_dec : EqDecision KeyValidationStatus.
Proof. solve_decision. Defined.

(** [IoError] of libavb. *)
Inductive IoError :=
  | Oom | Io | NoSuchPartition | RangeOutsidePartition | NoSuchValue | InvalidValueSize
  | InsufficientSpace (n : Z) | IoNotImplemented.
Abbreviation IoResult := (outcome IoError).

(** The platform's part of AVB. [avb_handle_verification_result] gets the color,
    the digest and the six versions and patch levels. [preloaded_reads] are the
    partitions that the platform reads from memory in place of the disk; only
    the wrapper for a boot from memory has any. *)
Class AvbPlatform (G : Type) := {
  preloaded_reads : G → list (list Z * bytes);
  avb_read_is_device_unlocked : ST G IoError bool;
  avb_read_rollback_index : Z → ST G IoError Z;
  avb_write_rollback_index : Z → Z → ST G IoError unit;
  avb_read_persistent_value : bytes → ST (G * bytes) IoError Z;
  avb_write_persistent_value : bytes → bytes → ST G IoError unit;
  avb_erase_persistent_value : bytes → ST G IoError unit;
  avb_validate_vbmeta_public_key : bytes → option bytes → ST G IoError KeyValidationStatus;
  avb_cert_read_permanent_attributes : ST (G * bytes) IoError unit;
  avb_cert_read_permanent_attributes_hash : ST G IoError bytes;
  avb_handle_verification_result : BootStateColor → option bytes → list (option bytes) → ST G IoError unit;
}.

(** [SlotVerifyData] of libavb: the command line, and of every vbmeta image its
    partition and its properties; the property descriptors, the rollback indexes. *)
Record VbmetaData := mkVbmeta {
  vm_partition_name : bytes;
  vm_property : bytes → option bytes;
  vm_descriptors : option (list (bytes * bytes));
}.
Record SlotVerifyData := mkVerify {
  sv_cmdline : bytes;
  sv_vbmeta_data : list VbmetaData;
  sv_rollback_indexes : list Z;
}.

(** gbl/libgbl/src/gbl_avb/ops.rs:37-38, [AVB_DIGEST_KEY]. *)
Definition AVB_DIGEST_KEY : bytes := str "androidboot.vbmeta.digest".
(** gbl/libgbl/src/gbl_avb/ops.rs:40-41, [AVB_CERT_NUM_KEY_VERSIONS]. *)
Definition AVB_CERT_NUM_KEY_VERSIONS : nat := 2.
(** [SHA512_DIGEST_SIZE] of libavb. *)
Definition SHA512_DIGEST_SIZE : Z := 64.

(** gbl/libgbl/src/gbl_avb/ops.rs:43-63, [GblAvbOps]: with the devices and the platform it
    refers to. *)
Record GblAvbOps (D G : Type) := mkAvb {
  ao_devs : list (GblDisk D);
  ao_gbl : G;
  ao_slot : option SlotIndex;
  preloaded_partitions : list (bytes * bytes);
  key_versions : list (option (Z * Z));
  use_cert : bool;
  ao_key_status : option KeyValidationStatus;
}.
Arguments mkAvb {D G}.
Arguments ao_devs {D G}.
Arguments ao_gbl {D G}.
Arguments ao_slot {D G}.
Arguments preloaded_partitions {D G}.
Arguments key_versions {D G}.
Arguments use_cert {D G}.
Arguments ao_key_status {D G}.

Definition ao_set_devs {D G} v (a : GblAvbOps D G) : GblAvbOps D G :=
  mkAvb v (ao_gbl a) (ao_slot a) (preloaded_partitions a) (key_versions a) (use_cert a) (ao_key_status a).
Definition ao_set_gbl {D G} v (a : GblAvbOps D G) : GblAvbOps D G :=
  mkAvb (ao_devs a) v (ao_slot a) (preloaded_partitions a) (key_versions a) (use_cert a) (ao_key_status a).
Definition ao_set_versions {D G} v (a : GblAvbOps D G) : GblAvbOps D G :=
  mkAvb (ao_devs a) (ao_gbl a) (ao_slot a) (preloaded_partitions a) v (use_cert a) (ao_key_status a).
Definition ao_set_status {D G} v (a : GblAvbOps D G) : GblAvbOps D G :=
  mkAvb (ao_devs a) (ao_gbl a) (ao_slot a) (preloaded_partitions a) (key_versions a) (use_cert a) v.

(** libavb: the verification of the partitions with the suffix, and whether
    errors are allowed; and the validation of a key by the certificate
    extension. Both call the operations of [GblAvbOps]. *)
Class LibAvb (D G : Type) := {
  SlotVerifyError : Type;
  slot_verify : list bytes → option bytes → bool → GblAvbOps D G →
    (SlotVerifyData + (SlotVerifyError * option SlotVerifyData)) * GblAvbOps D G;
  cert_validate_vbmeta_public_key : bytes → option bytes → ST (GblAvbOps D G) IoError bool;
}.

(** gbl/libgbl/src/error.rs:97-109, [IntegrationError]: [TryFromIntError] and the descriptor
    error carry nothing that is used. *)
Inductive IntegrationError (V Z : Type) :=
  | AvbDescriptorError
  | AvbIoError (e : IoError)
  | AvbSlotVerifyError (e : V)
  | UnificationError (e : Error)
  | ZbiError (e : Z)
  | TryFromIntError.
Arguments AvbDescriptorError {V Z}.
Arguments AvbIoError {V Z}.
Arguments AvbSlotVerifyError {V Z}.
Arguments UnificationError {V Z}.
Arguments ZbiError {V Z}.
Arguments TryFromIntError {V Z}.

(** ** Callbacks *)

Section Callbacks.
Context {D G : Type} `{!BlockIo D} `{!AvbPlatform G} `{!LibAvb D G}.
Abbreviation Avb := (ST (GblAvbOps D G) IoError).

(** gbl/libgbl/src/gbl_avb/ops.rs:66-81, [GblAvbOps::new]. *)
Definition avb_new (devs : list (GblDisk D)) (g : G) (slot : option SlotIndex) (preloaded : list (bytes * bytes))
    (use_cert : bool) : GblAvbOps D G :=
  mkAvb devs g slot preloaded (replicate AVB_CERT_NUM_KEY_VERSIONS None) use_cert None.

(** gbl/libgbl/src/ops.rs:581-597, [GblOps::read_from_partition_sync for RambootOps]: and, for a platform without
    preloaded partitions, the default of the trait. *)
Definition ops_read_sync (g : G) (part : list Z) (addr off : Z) : ST (list (GblDisk D) * bytes) Error unit := λ '(devs, out),
  match list_find (λ p, fst p = part) (preloaded_reads g) with
  | Some (_, (_, data)) =>
      match (rest ← get_range data off (zlen data); get_range rest 0 (zlen out)) with
      | Some buf => (Ok tt, (devs, buf))
      | None => (Err OutOfRange, (devs, out))
      end
  | None => read_from_partition_sync part addr off (devs, out)
  end.

(** A method of the platform. *)
Definition on_gbl {A} (m : ST G IoError A) : Avb A := zoom ao_gbl ao_set_gbl m.

(** gbl/libgbl/src/gbl_avb/ops.rs:83-89, [GblAvbOps::partition_size]. *)
Definition avb_partition_size (partition : bytes) : Avb Z :=
  devs ← gets ao_devs;
  n ← lift (map_err (λ _, Io) (ops_partition_size devs (default [] (decode_utf8 partition))));
  lift (ok_or n NoSuchPartition).

(** gbl/libgbl/src/gbl_avb/ops.rs:182-185, [cstr_to_str]. *)
Definition cstr_to_str {E} (s : bytes) (err : E) : outcome E bytes := if is_utf8 s then Ok s else Err err.

(** [str::rsplit_once]. *)
Definition rsplit_once (c : Z) (s : bytes) : option (bytes * bytes) :=
  match reverse (split_on c s) with
  | last :: before => if bool_decide (before = []) then None else Some (join [c] (reverse before), last)
  | [] => None
  end.

(** gbl/libgbl/src/gbl_avb/ops.rs:187-202, [split_slotted]. *)
Definition split_slotted (partition : bytes) : result (bytes * SlotIndex) :=
  '(partition_name, suffix) ← ok_or (rsplit_once 95 partition) InvalidInput;
  if negb (zlen suffix =? 1) then Err InvalidInput else
  slot_char ← unwrap (head suffix);
  slot ← map_err (λ _, InvalidInput) (slot_of_char slot_char);
  Ok (partition_name, slot).

(** gbl/libgbl/src/gbl_avb/ops.rs:208-232, [AvbOps::read_from_partition for GblAvbOps]: into a buffer
    at [addr]. *)
Definition avb_read_from_partition (partition : bytes) (offset addr : Z) (buffer : bytes)
    : Avb (Z * bytes) :=
  part_str ← lift (cstr_to_str partition NoSuchPartition);
  size ← avb_partition_size part_str;
  let partition_size := Val size in
  read_off ← lift (if offset <? 0
                   then n ← unwrap (checked 63 (Z.abs offset)); Ok (partition_size -! from_int here TI64 n)
                   else Ok (from_int here TI64 offset));
  let read_sz := partition_size -! read_off in
  read_off ← lift (map_err (λ _, RangeOutsidePartition) (into_u64 read_off));
  read_sz ← lift (map_err (λ _, RangeOutsidePartition) (into_u64 read_sz));
  let read_sz := Z.min (zlen buffer) read_sz in
  a ← gets id;
  let '(r, (devs, data)) :=
    ops_read_sync (ao_gbl a) (default [] (decode_utf8 part_str)) addr read_off (ao_devs a, slice buffer 0 read_sz) in
  modify (ao_set_devs devs);;
  lift (map_err (λ e, match e with
                      | NotFound => NoSuchPartition
                      | ArithmeticOverflow _ => RangeOutsidePartition
                      | _ => Io
                      end) r);;
  mret (read_sz, splice buffer 0 data).

(** gbl/libgbl/src/gbl_avb/ops.rs:234-257, [AvbOps::get_preloaded_partition for GblAvbOps]. *)
Definition get_preloaded_partition (partition : bytes) : Avb bytes :=
  part_str ← lift (cstr_to_str partition IoNotImplemented);
  a ← gets id;
  partition_name ← lift (match ao_slot a with
                         | Some slot =>
                             '(partition_name, partition_slot) ← map_err (λ _, IoNotImplemented) (split_slotted part_str);
                             if bool_decide (partition_slot = slot) then Ok partition_name else Err IoNotImplemented
                         | None => Ok part_str
                         end);
  lift (ok_or (snd ∘ snd <$> list_find (λ p, fst p = partition_name) (preloaded_partitions a)) IoNotImplemented).

(** gbl/libgbl/src/gbl_avb/ops.rs:410-428, [fallback_not_implemented]. *)
Definition fallback_not_implemented {A} (value : A) (m : Avb A) : Avb A := λ a,
  match m a with
  | (Err IoNotImplemented, a) => (Ok value, a)
  | r => r
  end.

(** gbl/libgbl/src/gbl_avb/ops.rs:259-287, [AvbOps::validate_vbmeta_public_key for GblAvbOps]. *)
Definition validate_vbmeta_public_key (public_key : bytes) (metadata : option bytes) : Avb bool :=
  a ← gets id;
  status ← (if use_cert a then
              ok ← cert_validate_vbmeta_public_key public_key metadata;
              mret (if ok : bool then ValidKey else InvalidKey)
            else fallback_not_implemented ValidCustomKey
                   (on_gbl (avb_validate_vbmeta_public_key public_key metadata)));
  modify (ao_set_status (Some status));;
  mret (match status with ValidKey | ValidCustomKey => true | InvalidKey => false end).

(** gbl/libgbl/src/gbl_avb/ops.rs:289-295, [AvbOps::read_rollback_index for GblAvbOps]. *)
Definition read_rollback_index (loc : Z) : Avb Z := fallback_not_implemented 0 (on_gbl (avb_read_rollback_index loc)).
(** gbl/libgbl/src/gbl_avb/ops.rs:297-303, [AvbOps::write_rollback_index for GblAvbOps]. *)
Definition write_rollback_index (loc index : Z) : Avb unit :=
  fallback_not_implemented tt (on_gbl (avb_write_rollback_index loc index)).
(** gbl/libgbl/src/gbl_avb/ops.rs:305-311, [AvbOps::read_is_device_unlocked for GblAvbOps]. *)
Definition read_is_device_unlocked : Avb bool := fallback_not_implemented true (on_gbl avb_read_is_device_unlocked).

(** gbl/libgbl/src/gbl_avb/ops.rs:313-317, [AvbOps::get_unique_guid_for_partition for GblAvbOps]: the nil
    UUID. *)
Definition get_unique_guid_for_partition (partition : bytes) : Avb bytes :=
  part ← lift (cstr_to_str partition NoSuchPartition);
  avb_partition_size part;;
  mret (replicate 16 0).

(** gbl/libgbl/src/gbl_avb/ops.rs:319-327, [AvbOps::get_size_of_partition for GblAvbOps]. *)
Definition get_size_of_partition (partition : bytes) : Avb Z :=
  r ← attempt (get_preloaded_partition partition);
  match r with
  | inl img => mret (zlen img)
  | inr _ => part_str ← lift (cstr_to_str partition NoSuchPartition); avb_partition_size part_str
  end.

(** gbl/libgbl/src/gbl_avb/ops.rs:329-335, [AvbOps::read_persistent_value for GblAvbOps]. *)
Definition read_persistent_value (name value : bytes) : Avb (Z * bytes) := λ a,
  match avb_read_persistent_value name (ao_gbl a, value) with
  | (Ok n, (g, value)) => (Ok (n, value), ao_set_gbl g a)
  | (Err IoNotImplemented, (g, value)) => (Ok (0, value), ao_set_gbl g a)
  | (Err e, (g, _)) => (Err e, ao_set_gbl g a)
  | (Panic, (g, _)) => (Panic, ao_set_gbl g a)
  end.
(** gbl/libgbl/src/gbl_avb/ops.rs:337-343, [AvbOps::write_persistent_value for GblAvbOps]. *)
Definition write_persistent_value (name value : bytes) : Avb unit :=
  fallback_not_implemented tt (on_gbl (avb_write_persistent_value name value)).
(** gbl/libgbl/src/gbl_avb/ops.rs:345-351, [AvbOps::erase_persistent_value for GblAvbOps]. *)
Definition erase_persistent_value (name : bytes) : Avb unit :=
  fallback_not_implemented tt (on_gbl (avb_erase_persistent_value name)).

(** gbl/libgbl/src/gbl_avb/ops.rs:353-361, [AvbOps::validate_public_key_for_partition for GblAvbOps]. *)
Definition validate_public_key_for_partition (partition public_key : bytes) (metadata : option bytes) : Avb unit :=
  lift Panic.
(** gbl/libgbl/src/gbl_avb/ops.rs:363-368, [AvbOps::cert_ops for GblAvbOps]: whether the operations of the
    certificate extension are offered. *)
Definition cert_ops (a : GblAvbOps D G) : bool := use_cert a.
(** gbl/libgbl/src/gbl_avb/ops.rs:373-378, [CertOps::read_permanent_attributes for GblAvbOps]: into the
    caller's structure. *)
Definition read_permanent_attributes (attributes : bytes) : Avb bytes := λ a,
  match avb_cert_read_permanent_attributes (ao_gbl a, attributes) with
  | (Ok _, (g, v)) => (Ok v, ao_set_gbl g a)
  | (Err e, (g, _)) => (Err e, ao_set_gbl g a)
  | (Panic, (g, _)) => (Panic, ao_set_gbl g a)
  end.
(** gbl/libgbl/src/gbl_avb/ops.rs:380-382, [CertOps::read_permanent_attributes_hash for GblAvbOps]. *)
Definition read_permanent_attributes_hash : Avb bytes := on_gbl avb_cert_read_permanent_attributes_hash.
(** gbl/libgbl/src/gbl_avb/ops.rs:404-407, [CertOps::get_random for GblAvbOps]. *)
Definition get_random (buffer : bytes) : Avb bytes := lift Panic.

(** gbl/libgbl/src/gbl_avb/ops.rs:384-402, [CertOps::set_key_version for GblAvbOps]: of the array. *)
Fixpoint set_existing (loc version : Z) (l : list (option (Z * Z))) : option (list (option (Z * Z))) :=
  match l with
  | [] => None
  | Some (l0, v) :: l' =>
      if l0 =? loc then Some (Some (l0, Z.max v version) :: l') else cons (Some (l0, v)) <$> set_existing loc version l'
  | None :: l' => cons None <$> set_existing loc version l'
  end.
(** gbl/libgbl/src/gbl_avb/ops.rs:384-402, [CertOps::set_key_version for GblAvbOps]: the first empty place of the
    array. *)
Fixpoint set_empty (loc version : Z) (l : list (option (Z * Z))) : option (list (option (Z * Z))) :=
  match l with
  | [] => None
  | None :: l' => Some (Some (loc, version) :: l')
  | x :: l' => cons x <$> set_empty loc version l'
  end.
(** gbl/libgbl/src/gbl_avb/ops.rs:384-402, [CertOps::set_key_version for GblAvbOps]. *)
Definition set_key_version (loc version : Z) : Avb unit :=
  l ← gets key_versions;
  l ← lift (match set_existing loc version l with
            | Some l => Ok l
            | None => unwrap (set_empty loc version l)
            end);
  modify (ao_set_versions l).

(** ** Results *)

(** gbl/libgbl/src/gbl_avb/ops.rs:91-174, [GblAvbOps::handle_verification_result]: the last image of a name. *)
Fixpoint last_vbmeta (name : bytes) (l : list VbmetaData) (r : option VbmetaData) : option VbmetaData :=
  match l with
  | [] => r
  | d :: l =>
      let n := if is_utf8 (vm_partition_name d) then vm_partition_name d else [] in
      last_vbmeta name l (if bool_decide (n = name) then Some d else r)
  end.

(** gbl/libgbl/src/gbl_avb/ops.rs:91-174, [GblAvbOps::handle_verification_result]: the six properties that are
    reported. *)
Definition reported_properties (slot_verify : option SlotVerifyData) : IoResult (list (option bytes)) :=
  match slot_verify with
  | None => Ok (replicate 6 None)
  | Some v =>
      let find name := last_vbmeta (str name) (sv_vbmeta_data v) None in
      data ← ok_or (find "vbmeta"%string) NoSuchPartition;
      let prop name key := vm_property (default data (find name)) (str key) in
      Ok [prop "boot"%string "com.android.build.boot.os_version"%string;
          prop "boot"%string "com.android.build.boot.security_patch"%string;
          prop "vbmeta_system"%string "com.android.build.system.os_version"%string;
          prop "vbmeta_system"%string "com.android.build.system.security_patch"%string;
          prop "vbmeta_vendor"%string "com.android.build.vendor.os_version"%string;
          prop "vbmeta_vendor"%string "com.android.build.vendor.security_patch"%string]
  end.

(** gbl/libgbl/src/gbl_avb/ops.rs:91-174, [GblAvbOps::handle_verification_result]. *)
Definition handle_verification_result (slot_verify : option SlotVerifyData) (color : BootStateColor)
    (digest : option bytes) : Avb unit :=
  props ← lift (reported_properties slot_verify);
  digest_cstr ← lift (match digest with
                      | Some d =>
                          if zlen d + 1 <=? 2 * SHA512_DIGEST_SIZE + 1
                          then c ← ok_or (cstr_until_nul (d ++ [0])) InvalidValueSize; Ok (Some c)
                          else Err InvalidValueSize
                      | None => Ok None
                      end);
  on_gbl (avb_handle_verification_result color digest_cstr props).

(** gbl/libgbl/src/gbl_avb/ops.rs:176-179, [GblAvbOps::key_validation_status]. *)
Definition key_validation_status : Avb KeyValidationStatus :=
  s ← gets ao_key_status; lift (ok_or s IoNotImplemented).
End Callbacks.

(** ** Android *)

(** gbl/libgbl/src/android_boot/vboot.rs:29-32, [MAX_NUM_PARTITION]. *)
Definition MAX_NUM_PARTITION : Z := 16.

(** gbl/libgbl/src/android_boot/vboot.rs:37-41, [PartitionsToVerify]: names, and names with their
    data. *)
Record PartitionsToVerify := mkToVerify { tv_partitions : list bytes; tv_preloaded : list (bytes * bytes) }.
(** gbl/libgbl/src/android_boot/vboot.rs:77-79, [Default::default for PartitionsToVerify]. *)
Definition to_verify_default : PartitionsToVerify := mkToVerify [] [].

(** [ArrayVec::try_push] and [try_extend_from_slice] of [MAX_NUM_PARTITION] places. *)
Definition try_extend {A} (l k : list A) : option (list A) :=
  if zlen l + zlen k <=? MAX_NUM_PARTITION then Some (l ++ k) else None.

(** gbl/libgbl/src/android_boot/vboot.rs:59-65, [PartitionsToVerify::try_extend_preloaded]. *)
Definition try_extend_preloaded (more t : PartitionsToVerify) : result PartitionsToVerify :=
  let err := TooManyPartitions MAX_NUM_PARTITION in
  partitions ← ok_or (try_extend (tv_partitions t) (tv_partitions more)) err;
  preloaded ← ok_or (try_extend (tv_preloaded t) (tv_preloaded more)) err;
  Ok (mkToVerify partitions preloaded).

(** gbl/libgbl/src/android_boot/vboot.rs:51-57, [PartitionsToVerify::try_push_preloaded]. *)
Definition try_push_preloaded (name data : bytes) (t : PartitionsToVerify) : result PartitionsToVerify :=
  let err := TooManyPartitions MAX_NUM_PARTITION in
  partitions ← ok_or (try_extend (tv_partitions t) [name]) err;
  preloaded ← ok_or (try_extend (tv_preloaded t) [(name, data)]) err;
  Ok (mkToVerify partitions preloaded).

Section Android.
Context {D G ZE : Type} `{!BlockIo D} `{!AvbPlatform G} `{!LibAvb D G}.
Abbreviation VError := (IntegrationError SlotVerifyError ZE).
(** Verification works on the bootconfig, the devices and the platform. *)
Abbreviation V := (ST (BootConfigBuilder * (list (GblDisk D) * G)) VError).

Definition on_avb {A} (m : ST (GblAvbOps D G) IoError A) : ST (BootConfigBuilder * GblAvbOps D G) VError A := λ s,
  let '(r, a) := m (snd s) in (map_err AvbIoError r, (fst s, a)).
(** [write!] into the bootconfig, piece by piece. *)
Fixpoint write_pieces (pieces : list bytes) : ST (BootConfigBuilder * GblAvbOps D G) VError unit :=
  match pieces with
  | [] => mret tt
  | p :: pieces =>
      (λ s, let '(r, b) := bc_write_str p (fst s) in
            (map_err (λ _, UnificationError (BufferTooSmall None)) r, (b, snd s)));;
      write_pieces pieces
  end.

(** gbl/libgbl/src/android_boot/vboot.rs:82-197, [avb_verify_slot]: the entries of the command line go
    to the bootconfig; the value of the digest. [n] bounds their number. *)
Fixpoint write_entries (n : nat) (p : CommandlineParser) (digest : option bytes)
    : ST (BootConfigBuilder * GblAvbOps D G) VError (option bytes) :=
  match n with
  | O => mret digest
  | S n =>
      match next p with
      | (None, _) => mret digest
      | (Some entry, p) =>
          entry ← lift (map_err UnificationError entry);
          let digest := if bool_decide (utf8_bytes (key entry) = AVB_DIGEST_KEY)
                        then utf8_bytes <$> value entry else digest in
          write_pieces (match value entry with
                        | Some v => [utf8_bytes (key entry); str "="; utf8_bytes v; [10]]
                        | None => [utf8_bytes (key entry); [10]]
                        end);;
          write_entries n p digest
      end
  end.

(** gbl/libgbl/src/android_boot/vboot.rs:82-197, [avb_verify_slot]: color and data for a result of the
    verification. *)
Definition boot_state (unlocked : bool) (r : SlotVerifyData + (SlotVerifyError * option SlotVerifyData))
    : ST (GblAvbOps D G) IoError (BootStateColor * option SlotVerifyData) :=
  match r with
  | inl verify_data =>
      if unlocked then mret (Orange, Some verify_data) else
      s ← key_validation_status;
      mret (if bool_decide (s = ValidCustomKey) then Yellow else Green, Some verify_data)
  | inr (_, Some verify_data) => mret (if unlocked then (Orange, Some verify_data) else (Red, None))
  | inr (_, None) => mret (Red, None)
  end.

(** gbl/libgbl/src/android_boot/vboot.rs:82-197, [avb_verify_slot]: with the operations that it
    creates. *)
Definition verify_with (slot : SlotIndex) (partitions : PartitionsToVerify)
    : ST (BootConfigBuilder * GblAvbOps D G) VError unit :=
  unlocked ← on_avb read_is_device_unlocked;
  verify_result ← (λ s, let '(r, a) := slot_verify (tv_partitions partitions) (Some (slot_to_cstr slot)) unlocked (snd s) in
                        (Ok r, (fst s, a)));
  '(color, verify_data) ← on_avb (boot_state unlocked verify_result);
  digest ← match verify_data with
           | Some v =>
               cmdline ← lift (unwrap (decode_utf8 (sv_cmdline v)));
               write_entries (S (length cmdline)) (parser_new cmdline) None
           | None => mret None
           end;
  on_avb (handle_verification_result verify_data color digest);;
  match color with
  | Red => match verify_result with
           | inr (e, _) => raise (AvbSlotVerifyError e)
           | inl _ => lift Panic
           end
  | _ => write_pieces [str "androidboot.verifiedbootstate="; show_color color; [10]]
  end.

(** gbl/libgbl/src/android_boot/vboot.rs:82-197, [avb_verify_slot]. *)
Definition avb_verify_slot (slot : Z) (partitions : PartitionsToVerify) : V unit := λ s,
  let go slot :=
    let a := avb_new (fst (snd s)) (snd (snd s)) (Some slot) (tv_preloaded partitions) false in
    let '(r, (b, a)) := verify_with slot partitions (fst s, a) in (r, (b, (ao_devs a, ao_gbl a))) in
  if slot =? 0 then go SlotA
  else if slot =? 1 then go SlotB
  else (Err (UnificationError InvalidInput), s).
End Android.
