(* ===== verification/ImageBuffer.v ===== *)
(** * libgbl: image buffers

    Models src/gbl/libgbl/src/image_buffer.rs. The buffer of a live
    [ImageBuffer] is always present; its memory is an address and the bytes it
    holds, initialized or not. *)

From S2P Require Import Prelude LibError.

(** gbl/libgbl/src/image_buffer.rs:24-32, [ImageBuffer]. *)
Record ImageBuffer := mkImg { ib_addr : Z; ib_buffer : bytes; used_bytes : Z }.

(** gbl/libgbl/src/image_buffer.rs:64-67, [ImageBuffer::new]. *)
Definition image_new (addr : Z) (buffer : bytes) : ImageBuffer := mkImg addr buffer 0.
(** gbl/libgbl/src/image_buffer.rs:69-72, [ImageBuffer::capacity]. *)
Definition capacity (i : ImageBuffer) : Z := zlen (ib_buffer i).

(** gbl/libgbl/src/image_buffer.rs:74-91, [ImageBuffer::advance_used]. *)
Definition advance_used (len : Z) : ST ImageBuffer Error unit :=
  i ← gets id;
  match checked 64 (used_bytes i + len) with
  | None => raise (Other (Some "Used bytes overflow"%string))
  | Some new_len =>
      if capacity i <? new_len then raise (BufferTooSmall (Some new_len))
      else modify (λ i, mkImg (ib_addr i) (ib_buffer i) new_len)
  end.

(** gbl/libgbl/src/image_buffer.rs:93-102, [ImageBuffer::get_split]. *)
Definition get_split (i : ImageBuffer) : result (bytes * bytes) :=
  if used_bytes i <=? capacity i
  then Ok (slice (ib_buffer i) 0 (used_bytes i), slice (ib_buffer i) (used_bytes i) (capacity i - used_bytes i))
  else Panic.
(** gbl/libgbl/src/image_buffer.rs:115-119, [ImageBuffer::used]. *)
Definition used (i : ImageBuffer) : result bytes := p ← get_split i; Ok (fst p).
(** gbl/libgbl/src/image_buffer.rs:127-131, [ImageBuffer::tail]. *)
Definition tail_of (i : ImageBuffer) : result bytes := p ← get_split i; Ok (snd p).

(** gbl/libgbl/src/image_buffer.rs:104-113, [ImageBuffer::get_split_mut]: code that works in place on the used
    part, or on the tail, of the buffer. *)
Definition with_used {E A} (m : Z → ST bytes E A) : ST ImageBuffer E A := λ i,
  match used i with
  | Ok u => let '(r, u) := m (ib_addr i) u in (r, mkImg (ib_addr i) (splice (ib_buffer i) 0 u) (used_bytes i))
  | _ => (Panic, i)
  end.
Definition with_tail {E A} (m : Z → ST bytes E A) : ST ImageBuffer E A := λ i,
  match tail_of i with
  | Ok t => let '(r, t) := m (ib_addr i + used_bytes i) t in
            (r, mkImg (ib_addr i) (splice (ib_buffer i) (used_bytes i) t) (used_bytes i))
  | _ => (Panic, i)
  end.

(** gbl/libgbl/src/image_buffer.rs:147-149, [PartialEq::eq for ImageBuffer]. *)
Definition image_eqb (i j : ImageBuffer) : result bool :=
  a ← used i; b ← used j; Ok (bool_decide (a = b)).

(** ** The used part never exceeds the buffer *)

Definition image_ok (i : ImageBuffer) : Prop := 0 ≤ used_bytes i ≤ capacity i ∧ capacity i < 2 ^ 64.

Lemma image_new_ok addr b : zlen b < 2 ^ 64 → image_ok (image_new addr b).
Proof. unfold image_ok, capacity; simpl; lia. Qed.

Lemma advance_used_ok len i r i' :
  image_ok i → 0 ≤ len → advance_used len i = (r, i') →
  image_ok i' ∧ r ≠ Panic ∧ ib_buffer i' = ib_buffer i ∧
  (r = Ok tt ↔ used_bytes i + len ≤ capacity i) ∧
  used_bytes i' = if bool_decide (used_bytes i + len ≤ capacity i) then used_bytes i + len else used_bytes i.
Proof.
  intros [Hu Hc] Hl H. unfold image_ok. change (capacity i) with (zlen (ib_buffer i)) in *.
  unfold advance_used in H. cbv [mbind ST_bind gets id] in H.
  destruct (bool_decide_reflect (used_bytes i + len ≤ zlen (ib_buffer i))) as [Hle|Hle].
  - rewrite checked_Some in H by lia.
    rewrite (proj2 (Z.ltb_ge _ _)) in H by (unfold capacity; lia).
    injection H as <- <-. unfold capacity. simpl. naive_solver lia.
  - assert (r ≠ Panic ∧ r ≠ Ok tt ∧ i' = i) as (? & ? & ->).
    { destruct (decide (0 ≤ used_bytes i + len < 2 ^ 64));
        [rewrite checked_Some in H by lia; rewrite (proj2 (Z.ltb_lt _ _)) in H by (unfold capacity; lia)|rewrite checked_None in H by lia];
        injection H as <- <-; done. }
    naive_solver lia.
Qed.
