(* ===== verification/AvbProps.v ===== *)
(** * libgbl: what verified boot guarantees

    For every libavb and every platform: which verification results let an
    Android slot boot, what the platform is told, and what ends up in the
    bootconfig. *)

From S2P Require Import Prelude SafeMath LibError Text Abr Block Disk Partition GblOps.
From S2P Require Import BootParams BootParamsProps Avb.

(** ** Command lines become bootconfig lines *)

Lemma span_length f l : (length (span f l).2 ≤ length l)%nat.
Proof. induction l as [|c l IH]; simpl; [lia|]. destruct (f c); [|done]. destruct (span f l). simpl in *. lia. Qed.
Lemma span_nonempty f l : (span f l).1 ≠ [] → (length (span f l).2 < length l)%nat.
Proof.
  destruct l as [|c l]; simpl; [done|]. pose proof (span_length f l). destruct (f c); [|done].
  destruct (span f l). simpl in *. lia.
Qed.

(** Every entry consumes a part of the line, so one unit of fuel per character
    is enough. *)
Lemma next_consumes p r p' : next p = (Some r, p') → (length (remains p') < length (remains p))%nat.
Proof.
  unfold next, parse_key, skip_whitespaces, take_while.
  pose proof (span_length is_whitespace (remains p)) as Hw.
  destruct (span is_whitespace (remains p)) as [w q]. cbn [fst snd remains] in *.
  set (f := λ c, _). pose proof (span_nonempty f q) as Hk. destruct (span f q) as [k q1]. cbn [fst snd] in *.
  case_bool_decide; [done|]. specialize (Hk ltac:(done)). intros E.
  assert (∀ v p2, parse_value (mkParser q1) = (v, p2) → (length (remains p2) ≤ length q1)%nat) as Hv.
  { clear. intros v p2. unfold parse_value, peek, skip_all, skip, take_while. cbn [remains].
    destruct q1 as [|c q1]; simpl; [by intros [= <- <-]|]. destruct (c =? 61).
    - destruct q1 as [|d q1]; simpl; [by intros [= <- <-]; simpl; lia|].
      case_bool_decide.
      + pose proof (span_length (λ c0, negb (c0 =? 34)) q1). rewrite drop_0. destruct (span _ q1) as [a b]. simpl in *.
        case_bool_decide; intros [= <- <-]; cbn [remains]; rewrite length_drop; lia.
      + pose proof (span_length (λ c0, negb (is_whitespace c0)) (d :: q1)) as Hs.
        change (if negb (is_whitespace d) then _ else _) with (span (λ c0, negb (is_whitespace c0)) (d :: q1)).
        destruct (span _ (d :: q1)) as [a b]. intros [= <- <-]. simpl in *. lia.
    - destruct (is_whitespace c); intros [= <- <-]; cbn [remains]; [done|]. rewrite length_drop. simpl. lia. }
  destruct (parse_value _) as [v p2] eqn:Ev. specialize (Hv _ _ eq_refl).
  destruct v; injection E as <- <-; lia.
Qed.

Lemma parse_all_total n p : (length (remains p) < n)%nat → ∃ l, parse_all n p = Some l.
Proof.
  revert p. induction n as [|n IH]; intros p Hn; [lia|]. simpl.
  destruct (next p) as [[r|] p'] eqn:E; [|by eexists].
  apply next_consumes in E. destruct (IH p') as [l ->]; [lia|]. by eexists.
Qed.

(** The line of an entry, and the digest among the entries. *)
Definition entry_line (e : Entry) : bytes := utf8_bytes (show_entry e) ++ [10].
Definition entry_lines (es : list Entry) : bytes := mjoin (entry_line <$> es).
Definition digest_of (es : list Entry) (d : option bytes) : option bytes :=
  foldl (λ d e, if bool_decide (utf8_bytes (key e) = AVB_DIGEST_KEY) then utf8_bytes <$> value e else d) d es.

Section Lines.
Context {D G ZE : Type} `{!BlockIo D} `{!AvbPlatform G} `{!LibAvb D G}.

Lemma write_pieces_ok (pieces : list bytes) s b (a : GblAvbOps D G) :
  bc_ok s b → Forall bytes_ok pieces → zlen s + zlen (mjoin pieces) + BOOTCONFIG_TRAILER_SIZE ≤ zlen (bc_buffer b) →
  zlen (bc_buffer b) < 2 ^ 32 →
  ∃ b', write_pieces (ZE := ZE) pieces (b, a) = (Ok tt, (b', a)) ∧ bc_ok (s ++ mjoin pieces) b' ∧
        length (bc_buffer b') = length (bc_buffer b).
Proof.
  intros Hb Hp. revert s b Hb. induction Hp as [|p pieces Hp _ IH]; intros s b Hb Hfit Hlen.
  - exists b. simpl. rewrite app_nil_r. done.
  - cbn [mjoin list_join concat] in Hfit. rewrite length_app in Hfit.
    destruct (bc_write_str_ok s p b) as (b1 & E1 & Hb1 & Hl1); [done..|unfold mjoin, list_join in *; lia|done|].
    destruct (IH (s ++ p) b1) as (b2 & E2 & Hb2 & Hl2);
      [done|rewrite length_app, Hl1; unfold mjoin, list_join in *; lia|by rewrite Hl1|].
    exists b2. cbn [write_pieces]. rewrite bind_run. cbn [fst snd]. rewrite E1. cbn [map_err]. rewrite E2.
    split; [done|]. split; [|congruence]. by rewrite <- app_assoc in Hb2.
Qed.
End Lines.

Lemma span_forall (P : Z → Prop) f l : Forall P l → Forall P (span f l).1 ∧ Forall P (span f l).2.
Proof.
  induction 1 as [|c l Hc Hl [IH1 IH2]]; simpl; [done|]. destruct (f c); [|split; by constructor].
  destruct (span f l). simpl in *. split; [by constructor|done].
Qed.

(** Keys and values are made of characters of the line. *)
Lemma next_chars p e p' :
  chars_ok (remains p) → next p = (Some (Ok e), p') → chars_ok (show_entry e) ∧ chars_ok (remains p').
Proof.
  unfold chars_ok, next, parse_key, skip_whitespaces, take_while. set (P := λ c, _). intros Hp.
  destruct (span_forall P is_whitespace _ Hp) as [_ Hq].
  destruct (span is_whitespace (remains p)) as [w q]. cbn [fst snd remains] in *.
  set (f := λ c, _). destruct (span_forall P f q Hq) as [Hk Hq1]. destruct (span f q) as [k q1]. cbn [fst snd] in *.
  case_bool_decide; [done|].
  assert (∀ v p2, parse_value (mkParser q1) = (Ok v, p2) → Forall P (remains p2) ∧ Forall P (default [] v)) as Hv.
  { clear -Hq1. intros v p2. unfold parse_value, peek, skip_all, skip, take_while. cbn [remains].
    destruct Hq1 as [|c q1 Hc Hq1]; simpl; [by intros [= <- <-]|]. destruct (c =? 61).
    - destruct Hq1 as [|d q1 Hd Hq1]; simpl; [by intros [= <- <-]|]. case_bool_decide.
      + rewrite drop_0. destruct (span_forall P (λ c0, negb (c0 =? 34)) q1 Hq1) as [Ha Hb].
        destruct (span _ q1) as [a b]. simpl in *. case_bool_decide; intros [= <- <-]. cbn [remains].
        split; [by apply Forall_drop|done].
      + destruct (span_forall P (λ c0, negb (is_whitespace c0)) (d :: q1)) as [Ha Hb]; [by constructor|].
        change (if negb (is_whitespace d) then _ else _) with (span (λ c0, negb (is_whitespace c0)) (d :: q1)).
        destruct (span _ (d :: q1)) as [a b]. by intros [= <- <-].
    - destruct (is_whitespace c); [|done]. intros [= <- <-]. split; [by constructor|done]. }
  destruct (parse_value _) as [[v| |] p2] eqn:Ev; [|done..]. destruct (Hv _ _ eq_refl) as [H2 H3].
  intros [= <- <-]. split; [|done]. unfold show_entry. simpl. destruct v as [v|]; [|done].
  repeat (apply Forall_app; split); try done. by repeat constructor.
Qed.

(** The slots that Android verifies. *)
Definition android_slot (n : Z) : option SlotIndex :=
  if n =? 0 then Some SlotA else if n =? 1 then Some SlotB else None.

(** The boot policy of Android Verified Boot: which results of the verification
    of a locked or unlocked device boot with which data and color. *)
Inductive boot_allowed {E} : bool → SlotVerifyData + (E * option SlotVerifyData) → option KeyValidationStatus →
    SlotVerifyData → BootStateColor → Prop :=
| allowed_green v k : k ≠ ValidCustomKey → boot_allowed false (inl v) (Some k) v Green
| allowed_yellow v : boot_allowed false (inl v) (Some ValidCustomKey) v Yellow
| allowed_orange v k : boot_allowed true (inl v) k v Orange
| allowed_unverified e v k : boot_allowed true (inr (e, Some v)) k v Orange.

Section Policy.
Context {D G ZE : Type} `{!BlockIo D} `{!AvbPlatform G} `{!LibAvb D G}.
Abbreviation run n partitions b devs g :=
  (avb_verify_slot (ZE := ZE) n partitions (b, (devs, g)) :
     outcome (IntegrationError SlotVerifyError ZE) unit * (BootConfigBuilder * (list (GblDisk D) * G))).

Lemma write_entries_ok n p es d s b (a : GblAvbOps D G) :
  parse_all n p = Some (Ok <$> es) → chars_ok (remains p) →
  bc_ok s b → zlen s + zlen (entry_lines es) + BOOTCONFIG_TRAILER_SIZE ≤ zlen (bc_buffer b) →
  zlen (bc_buffer b) < 2 ^ 32 →
  ∃ b', write_entries (ZE := ZE) n p d (b, a) = (Ok (digest_of es d), (b', a)) ∧ bc_ok (s ++ entry_lines es) b' ∧
        length (bc_buffer b') = length (bc_buffer b).
Proof.
  revert p es d s b. induction n as [|n IH]; intros p es d s b Hp Hc Hb Hfit Hlen; [done|]. simpl in Hp.
  destruct (next p) as [[r|] p'] eqn:En; cycle 1.
  { injection Hp as Hp. destruct es; [|done]. exists b. simpl. rewrite En. by rewrite app_nil_r. }
  destruct (parse_all n p') as [l|] eqn:El; [|done]. injection Hp as Hp. destruct es as [|e es]; [done|].
  injection Hp as -> ->. destruct (next_chars _ _ _ Hc En) as [He Hp'].
  set (pieces := match value e with
                 | Some v => [utf8_bytes (key e); str "="; utf8_bytes v; [10]]
                 | None => [utf8_bytes (key e); [10]]
                 end).
  assert (Hpieces : mjoin pieces = entry_line e ∧ Forall bytes_ok pieces).
  { unfold pieces, entry_line, show_entry in *. destruct (value e) as [v|].
    - apply Forall_app in He as [Hk He]. apply Forall_app in He as [_ Hv]. split.
      + rewrite !utf8_bytes_app. unfold mjoin, list_join. simpl. by rewrite <- !app_assoc.
      + repeat (apply Forall_cons; split); try (by apply utf8_bytes_ok); by repeat constructor.
    - split; [unfold mjoin, list_join; simpl; done|].
      repeat (apply Forall_cons; split); try (by apply utf8_bytes_ok); by repeat constructor. }
  destruct Hpieces as [Ep Hpieces].
  unfold entry_lines in *. cbn [fmap list_fmap mjoin list_join concat] in *. rewrite length_app in Hfit.
  destruct (write_pieces_ok (ZE := ZE) pieces s b a) as (b1 & E1 & Hb1 & Hl1);
    [done..|rewrite Ep; unfold mjoin, list_join in *; lia|done|]. rewrite Ep in Hb1.
  set (d' := if bool_decide (utf8_bytes (key e) = AVB_DIGEST_KEY) then utf8_bytes <$> value e else d).
  destruct (IH p' es d' (s ++ entry_line e) b1) as (b2 & E2 & Hb2 & Hl2);
    [done..|rewrite length_app, Hl1; unfold mjoin, list_join in *; lia|by rewrite Hl1|].
  exists b2. cbn [write_entries]. rewrite En, bind_run. cbn [lift map_err].
  rewrite bind_run. fold pieces. rewrite E1. fold d'. rewrite E2.
  split; [done|]. split; [|congruence]. by rewrite <- app_assoc in Hb2.
Qed.

Lemma avb_verify_slot_run n slot partitions b devs g :
  android_slot n = Some slot →
  run n partitions b devs g =
    (let '(r, (b, a)) := verify_with slot partitions
        (b, avb_new devs g (Some slot) (tv_preloaded partitions) false) in (r, (b, (ao_devs a, ao_gbl a)))).
Proof.
  unfold android_slot, avb_verify_slot. destruct (n =? 0); [by intros [= <-]|]. destruct (n =? 1); [by intros [= <-]|done].
Qed.

Lemma boot_state_allowed unlocked r (a : GblAvbOps D G) v color :
  boot_allowed unlocked r (ao_key_status a) v color → boot_state unlocked r a = (Ok (color, Some v), a).
Proof.
  intros Ha. remember (ao_key_status a) as k eqn:Ek.
  destruct Ha as [v k Hk|v|v k|e v k]; unfold boot_state, key_validation_status; [| |done..];
    rewrite !bind_run; unfold gets at 1; rewrite <- Ek; [|done].
  unfold ok_or. by rewrite lift_run, bool_decide_false.
Qed.

Lemma handle_red (a : GblAvbOps D G) :
  handle_verification_result None Red None a =
    (let '(r, g) := avb_handle_verification_result Red None (replicate 6 None) (ao_gbl a) in (r, ao_set_gbl g a)).
Proof. done. Qed.

(** C15. A slot boots only if the policy allows it. A device that is locked, or
    for which libavb found no usable metadata, is refused with libavb's error
    after the platform was told that the state is red; the bootconfig is left
    alone. *)
Theorem avb_refuses_unverified n slot partitions b devs g unlocked a1 vr a2 :
  android_slot n = Some slot →
  read_is_device_unlocked (avb_new devs g (Some slot) (tv_preloaded partitions) false) = (Ok unlocked, a1) →
  slot_verify (tv_partitions partitions) (Some (slot_to_cstr slot)) unlocked a1 = (vr, a2) →
  ((run n partitions b devs g).1 = Ok tt → ∃ v color, boot_allowed unlocked vr (ao_key_status a2) v color) ∧
  (∀ e d, vr = inr (e, d) → unlocked = false ∨ d = None →
     run n partitions b devs g =
       (let '(r, g') := avb_handle_verification_result Red None (replicate 6 None) (ao_gbl a2) in
        (map_err AvbIoError r;; Err (AvbSlotVerifyError e), (b, (ao_devs a2, g'))))).
Proof.
  intros Hn Hu Hs. rewrite (avb_verify_slot_run _ _ _ _ _ _ Hn). unfold verify_with, on_avb. cbn [fst snd].
  rewrite bind_run. cbn [fst snd]. rewrite Hu. cbn [map_err]. rewrite bind_run. cbn [fst snd]. rewrite Hs.
  rewrite bind_run. cbn [fst snd]. split.
  - destruct vr as [v|[e [v|]]].
    + destruct unlocked; [intros _; eexists _, _; constructor|].
      unfold boot_state at 1, key_validation_status. rewrite !bind_run. unfold gets at 1.
      destruct (ao_key_status a2) as [k|]; [intros _|done].
      destruct (decide (k = ValidCustomKey)) as [->|]; eexists _, _; by constructor.
    + destruct unlocked; [intros _; eexists _, _; constructor|].
      unfold boot_state at 1. cbn [mret ST_ret map_err]. rewrite !bind_run. cbn [mret ST_ret fst snd].
      rewrite bind_run. cbn [fst snd]. rewrite handle_red.
      destruct (avb_handle_verification_result _ _ _ _) as [[] ?]; done.
    + unfold boot_state at 1. cbn [mret ST_ret map_err]. rewrite !bind_run. cbn [mret ST_ret fst snd].
      rewrite bind_run. cbn [fst snd]. rewrite handle_red.
      destruct (avb_handle_verification_result _ _ _ _) as [[] ?]; done.
  - intros e d -> Hd.
    assert (boot_state unlocked (inr (e, d)) a2 = (Ok (Red, None), a2)) as ->.
    { destruct d as [v|]; [|done]. by destruct Hd as [-> |]. }
    cbn [map_err]. rewrite bind_run. cbn [mret ST_ret fst snd].
    rewrite bind_run. cbn [fst snd]. rewrite handle_red.
    destruct (avb_handle_verification_result _ _ _ _) as [[] ?]; done.
Qed.

Lemma handle_accepted v color d props (a : GblAvbOps D G) :
  reported_properties (Some v) = Ok props →
  match d with Some d => zlen d ≤ 2 * SHA512_DIGEST_SIZE ∧ 0 ∉ d | None => True end →
  handle_verification_result (Some v) color d a =
    (let '(r, g) := avb_handle_verification_result color d props (ao_gbl a) in (r, ao_set_gbl g a)).
Proof.
  intros Hp Hd. unfold handle_verification_result. rewrite bind_run, lift_run, Hp, bind_run, lift_run.
  destruct d as [d|]; [|done]. destruct Hd as [Hl H0]. rewrite (proj2 (Z.leb_le _ _)) by lia.
  assert (cstr_until_nul (d ++ [0]) = Some d) as -> by
    (unfold cstr_until_nul; rewrite position_app by done; simpl; by rewrite slice_app_l).
  done.
Qed.

(** C16. When the policy allows a slot to boot, the platform is told the color,
    the digest and the versions of the verified data, and the bootconfig is
    extended by one line per entry of the verified command line and by the line
    with the color; its trailer stays right. *)
Theorem avb_allowed_boot n slot partitions b devs g unlocked a1 vr a2 v color t es props g' s :
  android_slot n = Some slot →
  read_is_device_unlocked (avb_new devs g (Some slot) (tv_preloaded partitions) false) = (Ok unlocked, a1) →
  slot_verify (tv_partitions partitions) (Some (slot_to_cstr slot)) unlocked a1 = (vr, a2) →
  boot_allowed unlocked vr (ao_key_status a2) v color →
  sv_cmdline v = utf8_bytes t → chars_ok t → parse_all (S (length t)) (parser_new t) = Some (Ok <$> es) →
  reported_properties (Some v) = Ok props →
  match digest_of es None with Some d => zlen d ≤ 2 * SHA512_DIGEST_SIZE ∧ 0 ∉ d | None => True end →
  avb_handle_verification_result color (digest_of es None) props (ao_gbl a2) = (Ok tt, g') →
  let text := entry_lines es ++ str "androidboot.verifiedbootstate=" ++ show_color color ++ [10] in
  bc_ok s b → zlen s + zlen text + BOOTCONFIG_TRAILER_SIZE ≤ zlen (bc_buffer b) < 2 ^ 32 →
  ∃ b', run n partitions b devs g = (Ok tt, (b', (ao_devs a2, g'))) ∧ bc_ok (s ++ text) b' ∧
        length (bc_buffer b') = length (bc_buffer b).
Proof.
  intros Hn Hu Hs Ha Hc Ht Hp Hprops Hd Hg text Hb Hfit. unfold text in *. rewrite length_app in Hfit.
  rewrite (avb_verify_slot_run _ _ _ _ _ _ Hn). unfold verify_with, on_avb.
  rewrite bind_run. cbn [fst snd]. rewrite Hu. cbn [map_err]. rewrite bind_run. cbn [fst snd]. rewrite Hs.
  rewrite bind_run. cbn [fst snd]. rewrite (boot_state_allowed _ _ _ _ _ Ha). cbn [map_err].
  destruct (write_entries_ok (S (length t)) (parser_new t) es None s b a2) as (b1 & E1 & Hb1 & Hl1); [done..|lia|lia|].
  rewrite bind_run, bind_run, lift_run, Hc, decode_utf8_bytes by done. cbn [unwrap]. rewrite E1.
  rewrite bind_run. cbn [fst snd]. rewrite (handle_accepted v color _ props) by done. rewrite Hg. cbn [map_err].
  set (pieces := [str "androidboot.verifiedbootstate="; show_color color; [10]]).
  destruct (write_pieces_ok (ZE := ZE) pieces (s ++ entry_lines es) b1 (ao_set_gbl g' a2)) as (b2 & E2 & Hb2 & Hl2).
  - done.
  - destruct color; by_compute.
  - change (mjoin pieces) with (str "androidboot.verifiedbootstate=" ++ show_color color ++ [10] ++ []).
    rewrite app_nil_r, length_app, Hl1. lia.
  - rewrite Hl1. lia.
  - exists b2. split; [|split; [|congruence]].
    + destruct Ha; rewrite E2; done.
    + rewrite <- app_assoc in Hb2. exact Hb2.
Qed.
End Policy.

(** ** Examples *)

Module AvbExample.
(** A platform that keeps a lock state and the results it is told. *)
Record Board := mkBoard { unlocked : bool; reports : list (BootStateColor * option bytes * list (option bytes)) }.
#[global] Instance board : AvbPlatform Board := {|
  preloaded_reads _ := [];
  avb_read_is_device_unlocked := gets unlocked;
  avb_read_rollback_index _ := raise IoNotImplemented;
  avb_write_rollback_index _ _ := raise IoNotImplemented;
  avb_read_persistent_value _ := raise IoNotImplemented;
  avb_write_persistent_value _ _ := raise IoNotImplemented;
  avb_erase_persistent_value _ := raise IoNotImplemented;
  avb_validate_vbmeta_public_key _ _ := mret ValidCustomKey;
  avb_cert_read_permanent_attributes := raise IoNotImplemented;
  avb_cert_read_permanent_attributes_hash := raise IoNotImplemented;
  avb_handle_verification_result c d p := modify (λ g, mkBoard (unlocked g) ((c, d, p) :: reports g));
|}.

Definition data : SlotVerifyData :=
  mkVerify (str "androidboot.vbmeta.digest=ab androidboot.veritymode=enforcing")
    [mkVbmeta (str "vbmeta") (λ k, if bool_decide (k = str "com.android.build.boot.os_version")
                                   then Some (str "15") else None) None] [].
Definition entries : list Entry :=
  [mkEntry (str "androidboot.vbmeta.digest") (Some (str "ab"));
   mkEntry (str "androidboot.veritymode") (Some (str "enforcing"))].

(** A verifier that asks for the key and then succeeds or fails. *)
Definition verifier (ok : bool) : LibAvb RamBlock.RamBlockIo Board := {|
  SlotVerifyError := unit;
  slot_verify _ _ _ a :=
    let '(_, a) := validate_vbmeta_public_key (LibAvb0 := {| SlotVerifyError := unit;
      slot_verify _ _ _ a := (inr (tt, None), a); cert_validate_vbmeta_public_key _ _ := mret true |}) [] None a in
    (if ok then inl data else inr (tt, Some data), a);
  cert_validate_vbmeta_public_key _ _ := mret true;
|}.
Definition parts : PartitionsToVerify := mkToVerify [str "boot"] [].
Definition conf : BootConfigBuilder := match bc_new (replicate 200 0) with Ok b => b | _ => mkBC 0 [] end.

Definition ops (slot : SlotIndex) : GblAvbOps RamBlock.RamBlockIo Board := avb_new [] (mkBoard false []) (Some slot) [] false.
Definition ops' (slot : SlotIndex) : GblAvbOps RamBlock.RamBlockIo Board := ao_set_status (Some ValidCustomKey) (ops slot).

Lemma conf_ok : bc_ok [] conf ∧ length (bc_buffer conf) = 200%nat.
Proof. destruct (bc_new_ok (replicate 200 0)) as (b & E & ?); [by_compute|]. unfold conf. by rewrite E. Qed.
End AvbExample.

Lemma avb_refuses_unverified_witness :
  avb_verify_slot (LibAvb0 := AvbExample.verifier false) (ZE := unit) 1 AvbExample.parts
    (AvbExample.conf, ([], AvbExample.mkBoard false [])) =
  (Err (AvbSlotVerifyError tt),
   (AvbExample.conf, ([], AvbExample.mkBoard false [(Red, None, replicate 6 None)]))).
Proof.
  refine (proj2 (avb_refuses_unverified (LibAvb0 := AvbExample.verifier false) 1 SlotB AvbExample.parts
    AvbExample.conf [] (AvbExample.mkBoard false []) false (AvbExample.ops SlotB) _ (AvbExample.ops' SlotB) _ _ _) tt (Some AvbExample.data) _ _);
    [reflexivity|reflexivity|reflexivity|reflexivity|by left].
Defined.

Lemma avb_allowed_boot_witness :
  ∃ b', avb_verify_slot (LibAvb0 := AvbExample.verifier true) (ZE := unit) 0 AvbExample.parts
      (AvbExample.conf, ([], AvbExample.mkBoard false [])) =
    (Ok tt, (b', ([], AvbExample.mkBoard false
       [(Yellow, Some (str "ab"), [Some (str "15"); None; None; None; None; None])]))) ∧
    bc_ok (str "androidboot.vbmeta.digest=ab" ++ [10] ++ str "androidboot.veritymode=enforcing" ++ [10] ++
           str "androidboot.verifiedbootstate=yellow" ++ [10]) b' ∧ length (bc_buffer b') = length (bc_buffer AvbExample.conf).
Proof.
  pose proof AvbExample.conf_ok as [Hb Hl].
  refine (avb_allowed_boot (LibAvb0 := AvbExample.verifier true) 0 SlotA AvbExample.parts AvbExample.conf []
    (AvbExample.mkBoard false []) false (AvbExample.ops SlotA) (inl AvbExample.data) (AvbExample.ops' SlotA) AvbExample.data Yellow (sv_cmdline AvbExample.data) AvbExample.entries
    [Some (str "15"); None; None; None; None; None] _ [] _ _ _ _ _ _ _ _ _ _ Hb _);
    try reflexivity.
  - constructor.
  - by_compute.
  - split; [by_compute|]. by_compute.
  - rewrite Hl. by_compute.
Defined.
