(* ===== verification/FuchsiaBoot.v ===== *)
(** * libgbl: loading and verifying Zircon

    Models src/gbl/libgbl/src/fuchsia_boot/vboot.rs and the loading and
    relocation of src/gbl/libgbl/src/fuchsia_boot/mod.rs. The ZBI library is a
    class whose operations work on the buffer that holds a container, as the
    containers of the source do; libavb and the platform are parameters. *)

From S2P Require Import Prelude SafeMath LibError Text Utils Abr Block Disk Partition GblOps.
From S2P Require Import Avb ImageBuffer.
Import SafeNum.

(** [ZbiHeader] of the ZBI library: 32 bytes, with the type, the length, the
    extra word and the flags first. *)
Record ZbiHeader := mkZbiHeader { zbi_type : Z; zbi_length : Z; zbi_extra : Z; zbi_flags : Z }.
Definition ZBI_HEADER_SIZE : Z := 32.
Definition decode_zbi_header (b : bytes) : ZbiHeader :=
  mkZbiHeader (le_val (slice b 0 4)) (le_val (slice b 4 4)) (le_val (slice b 8 4)) (le_val (slice b 12 4)).
Record ZbiItem := mkZbiItem { item_header : ZbiHeader; item_payload : bytes }.
Definition ZBI_FLAGS_CRC32 : Z := Z.shiftl 1 17.
Definition ZBI_TYPE_CMDLINE : Z := 0x4c444d43.
Definition ZBI_ALIGNMENT_USIZE : Z := 8.

(** The ZBI library. [zbi_new] and [zbi_parse] are told where the buffer is;
    the other operations get the buffer of a container. *)
Class ZbiLib (ZE : Type) := {
  zbi_new : Z → ST bytes ZE unit;
  zbi_parse : Z → bytes → outcome ZE unit;
  container_size : bytes → outcome ZE Z;
  zbi_iter : bytes → list ZbiItem;
  extend_items : list ZbiItem → ST bytes ZE unit;
  extend_unaligned : bytes → ST bytes ZE unit;
  zbi_extend : bytes → ST bytes ZE unit;
  create_entry_with_payload : Z → Z → Z → bytes → ST bytes ZE unit;
  get_bootable_kernel_item : bytes → outcome ZE ZbiItem;
  get_kernel_entry_and_reserved_memory_size : bytes → outcome ZE (Z * Z);
  get_buffer_size_for_kernel_relocation : bytes → outcome ZE Z;
  zbi_type_try_from : Z → outcome ZE Z;
}.

(** What Fuchsia uses of the platform besides AVB: a buffer for an image, the
    device's ZBI items, and the buffer of staged bootloader files. *)
Class FuchsiaPlatform (G : Type) := {
  get_image_buffer : bytes → Z → ST G Error ImageBuffer;
  zircon_add_device_zbi_items : ST (G * bytes) Error unit;
  get_zbi_bootloader_files_buffer : ST G Error (option (Z * bytes));
}.

(** gbl/libgbl/src/fuchsia_boot/mod.rs:29-31, [ZIRCON_KERNEL_ALIGN]. *)
Definition ZIRCON_KERNEL_ALIGN : Z := 64 * 1024.

Section Zircon.
Context {D G ZE : Type} `{!BlockIo D} `{!AvbPlatform G} `{!LibAvb D G} `{!ZbiLib ZE} `{!FuchsiaPlatform G}.
Abbreviation ZError := (IntegrationError SlotVerifyError ZE).
Abbreviation gbl_result := (outcome ZError).

(** The [From] conversions of [?]. *)
Definition zbi {A} (r : outcome ZE A) : gbl_result A := map_err ZbiError r.
Definition unify {A} (r : result A) : gbl_result A := map_err UnificationError r.

(** ** Relocation *)

(** gbl/libgbl/src/fuchsia_boot/mod.rs:67-72, [zbi_split_unused_buffer]: the offset of the unused part. *)
Definition zbi_split_unused_buffer (addr : Z) (b : bytes) : gbl_result Z :=
  zbi (zbi_parse addr b);;
  n ← zbi (container_size b);
  if n <=? zlen b then Ok n else Panic.

(** A container operation on a buffer. *)
Definition on_container {A} (m : ST bytes ZE A) : ST bytes ZError A := λ b, let '(r, b) := m b in (zbi r, b).

(** gbl/libgbl/src/fuchsia_boot/mod.rs:74-101, [relocate_kernel]: the kernel is at [kaddr], the destination at
    [addr]. *)
Definition relocate_kernel (kaddr : Z) (kernel : bytes) (addr : Z) : ST bytes ZError unit :=
  if negb (addr mod ZIRCON_KERNEL_ALIGN =? 0) then raise (UnificationError InvalidAlignment) else
  lift (zbi (zbi_parse kaddr kernel));;
  kernel_item ← lift (zbi (get_bootable_kernel_item kernel));
  let hdr := item_header kernel_item in
  on_container (zbi_new addr);;
  zbi_type ← lift (zbi (zbi_type_try_from (zbi_type hdr)));
  on_container (create_entry_with_payload zbi_type (zbi_extra hdr)
                  (Z.ldiff (zbi_flags hdr) ZBI_FLAGS_CRC32) (item_payload kernel_item));;
  dest ← gets id;
  '(_, reserved_memory_size) ← lift (zbi (get_kernel_entry_and_reserved_memory_size dest));
  n ← lift (zbi_split_unused_buffer addr dest);
  if zlen dest - n <? reserved_memory_size then raise (UnificationError (BufferTooSmall None)) else mret tt.

(** Code that works in place on the part of a buffer that starts at [off]. *)
Definition on_rest {E A} (off : Z) (m : ST bytes E A) : ST bytes E A := λ b,
  let '(r, t) := m (slice b off (zlen b - off)) in (r, splice b off t).

(** gbl/libgbl/src/fuchsia_boot/mod.rs:103-118, [relocate_to_tail]: of the buffer at [addr]; the offset at which
    the original ends and the relocated kernel starts. *)
Definition relocate_to_tail (addr : Z) : ST bytes ZError Z :=
  kernel ← gets id;
  lift (zbi (zbi_parse addr kernel));;
  reloc_size ← lift (zbi (get_buffer_size_for_kernel_relocation kernel));
  n ← lift (zbi_split_unused_buffer addr kernel);
  let original := slice kernel 0 n in
  '(skip, relocated) ← lift (unify (aligned_subslice (addr + n) (slice kernel n (zlen kernel - n))
                                      (Val ZIRCON_KERNEL_ALIGN)));
  off ← lift (unify (into_u64 (round_down here
                (from_int here TUsize (zlen relocated) -! from_int here TUsize reloc_size) (Val ZIRCON_KERNEL_ALIGN))));
  if zlen relocated <? off then lift Panic else
  let at_ := n + skip + off in
  on_rest at_ (relocate_kernel addr original (addr + at_));;
  mret at_.

(** ** Verification *)

(** gbl/libgbl/src/fuchsia_boot/vboot.rs:120-130, [copy_items_after_kernel]: into the container of items. *)
Definition copy_items_after_kernel (addr : Z) (zbi_kernel : bytes) : ST bytes ZError unit :=
  lift (zbi (zbi_parse addr zbi_kernel));;
  on_container (extend_items (tail (zbi_iter zbi_kernel))).

(** The container of items, and the AVB operations. *)
Abbreviation VS := (bytes * GblAvbOps D G)%type.
Definition on_items {A} (m : ST bytes ZError A) : ST VS ZError A := zoom fst (λ b s, (b, snd s)) m.
Definition on_ops {A} (m : ST (GblAvbOps D G) IoError A) : ST VS ZError A := λ s,
  let '(r, a) := m (snd s) in (map_err AvbIoError r, (fst s, a)).

(** gbl/libgbl/src/fuchsia_boot/vboot.rs:24-118, [zircon_verify_kernel]: the ZBI items of the properties. *)
Fixpoint extend_properties (props : list (bytes * bytes)) : ST VS ZError unit :=
  match props with
  | [] => mret tt
  | (k, v) :: props =>
      (if starts_with (str "zbi") k then on_items (on_container (extend_unaligned v)) else mret tt);;
      extend_properties props
  end.
(** gbl/libgbl/src/fuchsia_boot/vboot.rs:24-118, [zircon_verify_kernel]: the properties of every vbmeta image. *)
Fixpoint extend_vbmeta (l : list VbmetaData) : ST VS ZError unit :=
  match l with
  | [] => mret tt
  | d :: l =>
      props ← lift (ok_or (vm_descriptors d) AvbDescriptorError);
      extend_properties props;;
      extend_vbmeta l
  end.

(** gbl/libgbl/src/fuchsia_boot/vboot.rs:24-118, [zircon_verify_kernel]: a rollback index that differs is
    written. *)
Definition update_rollback_index (loc v : Z) : ST (GblAvbOps D G) IoError unit :=
  old ← read_rollback_index loc;
  if negb (old =? v) then write_rollback_index loc v else mret tt.
(** gbl/libgbl/src/fuchsia_boot/vboot.rs:24-118, [zircon_verify_kernel]: the rollback indexes of the vbmeta images. *)
Fixpoint update_rollback_indexes (loc : Z) (l : list Z) : ST (GblAvbOps D G) IoError unit :=
  match l with
  | [] => mret tt
  | v :: l =>
      (if 0 <? v then update_rollback_index loc v else mret tt);;
      update_rollback_indexes (loc + 1) l
  end.
(** gbl/libgbl/src/fuchsia_boot/vboot.rs:24-118, [zircon_verify_kernel]: the key versions of the certificates. *)
Fixpoint update_key_versions (l : list (option (Z * Z))) : ST (GblAvbOps D G) IoError unit :=
  match l with
  | [] => mret tt
  | Some (loc, v) :: l => update_rollback_index loc v;; update_key_versions l
  | None :: l => update_key_versions l
  end.

(** gbl/libgbl/src/fuchsia_boot/vboot.rs:24-118, [zircon_verify_kernel]: after the container and the kernel are
    prepared. *)
Definition verify_zircon_with (slot : option SlotIndex) (slot_booted_successfully : bool) : ST VS ZError unit :=
  unlocked ← on_ops read_is_device_unlocked;
  verify_res ← (λ s, let '(r, a) := slot_verify [str "zircon"] (slot_to_cstr <$> slot) unlocked (snd s) in
                     (Ok r, (fst s, a)));
  let go verified_success v :=
    extend_vbmeta (sv_vbmeta_data v);;
    if verified_success && slot_booted_successfully then
      on_ops (update_rollback_indexes 0 (sv_rollback_indexes v));;
      versions ← on_ops (gets key_versions);
      on_ops (update_key_versions versions)
    else mret tt in
  match verify_res with
  | inl v => go true v
  | inr (e, Some v) => if unlocked : bool then go false v else raise (AvbSlotVerifyError e)
  | inr (e, None) => if unlocked then mret tt else raise (AvbSlotVerifyError e)
  end.

(** The AVB operations live as long as the call. *)
Definition with_avb {A} (slot : option SlotIndex) (preloaded : list (bytes * bytes)) (use_cert : bool)
    (m : ST VS ZError A) : ST (bytes * (list (GblDisk D) * G)) ZError A := λ '(items, (devs, g)),
  let '(r, (items, a)) := m (items, avb_new devs g slot preloaded use_cert) in
  (r, (items, (ao_devs a, ao_gbl a))).

(** gbl/libgbl/src/fuchsia_boot/vboot.rs:24-118, [zircon_verify_kernel]: the kernel's buffer is at [addr]; the
    state is the container of items, the devices and the platform. *)
Definition zircon_verify_kernel (slot : option SlotIndex) (slot_booted_successfully : bool) (addr : Z)
    (zbi_kernel : bytes) : ST (bytes * (list (GblDisk D) * G)) ZError unit :=
  zoom fst (λ b s, (b, snd s)) (copy_items_after_kernel addr zbi_kernel);;
  n ← lift (zbi_split_unused_buffer addr zbi_kernel);
  with_avb slot [(zircon_part_name None, slice zbi_kernel 0 n)] true (verify_zircon_with slot slot_booted_successfully).

(** ** Loading *)

(** gbl/libgbl/src/ops.rs:206-210, [GblOps::get_zbi_bootloader_files_buffer_aligned]. *)
Definition get_zbi_bootloader_files_buffer_aligned : ST G Error (option (Z * bytes)) :=
  buffer ← get_zbi_bootloader_files_buffer;
  lift (match buffer with
        | None => Ok None
        | Some (addr, b) =>
            match aligned_subslice addr b (Val ZBI_ALIGNMENT_USIZE) with
            | Ok (off, v) => Ok (Some (addr + off, v))
            | Err _ => Ok None
            | Panic => Panic
            end
        end).

Abbreviation M := (ST (list (GblDisk D) * G) ZError).

(** [get_image_buffer(..).unwrap()]. *)
Definition image_buffer (name : bytes) (size : Z) : M ImageBuffer := λ s,
  let '(i, g) := get_image_buffer name size (snd s) in (unwrap_res i, (fst s, g)).

(** A read of a partition into a buffer at [addr], which the result holds. *)
Definition read_partition (p : list Z) (addr off : Z) (b : bytes) : M bytes := λ s,
  let '(r, (devs, b)) := read_from_partition_sync p addr off (fst s, b) in
  (unify (_ ← r; Ok b), (devs, snd s)).

(** The last steps work on the container of items in the first image. *)
Definition on_image {A} (m : Z → ST (bytes * (list (GblDisk D) * G)) ZError A) (i : ImageBuffer) : M (ImageBuffer * A) := λ s,
  match used i with
  | Ok b =>
      let '(r, (b, s)) := m (ib_addr i) (b, s) in
      (a ← r; Ok (mkImg (ib_addr i) (splice (ib_buffer i) 0 b) (used_bytes i), a), s)
  | _ => (Panic, s)
  end.
Definition items_only {A} (m : ST bytes ZE A) : ST (bytes * (list (GblDisk D) * G)) ZError A :=
  zoom fst (λ b s, (b, snd s)) (on_container m).

(** gbl/libgbl/src/fuchsia_boot/mod.rs:144-230, [zircon_load_verify]: the buffer for items, zeroed and used up. *)
Definition zero_image (i : ImageBuffer) : gbl_result ImageBuffer :=
  t ← unify (tail_of i);
  let i := mkImg (ib_addr i) (splice (ib_buffer i) (used_bytes i) (replicate (length t) 0)) (used_bytes i) in
  match advance_used (zlen t) i with
  | (Ok _, i) => Ok i
  | _ => Panic
  end.

(** gbl/libgbl/src/fuchsia_boot/mod.rs:144-230, [zircon_load_verify]: the kernel, of the length its header at
    [hdr_addr] says. *)
Definition load_kernel (hdr_addr : Z) (zircon_part : list Z) : M ImageBuffer :=
  header ← read_partition zircon_part hdr_addr 0 (replicate (Z.to_nat ZBI_HEADER_SIZE) 0);
  image_length ← lift (unify (into_u64
    (from_int here TUsize ZBI_HEADER_SIZE +! from_int here TU32 (zbi_length (decode_zbi_header header)))));
  kernel_img ← image_buffer (str "zbi_zircon") (128 * 1024 * 1024);
  kernel_uninit ← lift (ok_or (get_range (ib_buffer kernel_img) 0 image_length)
                         (UnificationError (BufferTooSmall (Some image_length))));
  kernel ← read_partition zircon_part (ib_addr kernel_img) 0 kernel_uninit;
  match advance_used image_length (mkImg (ib_addr kernel_img) (splice (ib_buffer kernel_img) 0 kernel) (used_bytes kernel_img)) with
  | (Ok _, i) => mret i
  | _ => lift Panic
  end.

(** gbl/libgbl/src/fuchsia_boot/mod.rs:144-230, [zircon_load_verify]: the items of the slot, of the device and of
    the staged bootloader files. *)
Definition append_items (slot : option SlotIndex) : ST (bytes * (list (GblDisk D) * G)) ZError unit :=
  match slot with
  | Some slot => items_only (create_entry_with_payload ZBI_TYPE_CMDLINE 0 0 (slot_cmd_line slot))
  | None => mret tt
  end;;
  (λ '(b, (devs, g)), let '(r, (g, b)) := zircon_add_device_zbi_items (g, b) in (unify r, (b, (devs, g))));;
  files ← (λ '(b, (devs, g)), let '(r, g) := get_zbi_bootloader_files_buffer_aligned g in (unify r, (b, (devs, g))));
  match files with
  | None => mret tt
  | Some (addr, v) =>
      match zbi_parse addr v with
      | Ok _ => items_only (zbi_extend v)
      | Err _ => mret tt
      | Panic => lift Panic
      end
  end.

(** gbl/libgbl/src/fuchsia_boot/mod.rs:144-230, [zircon_load_verify]. *)
Definition zircon_load_verify (hdr_addr : Z) (slot : option SlotIndex) (slot_booted_successfully : bool)
    : M (ImageBuffer * ImageBuffer) :=
  zbi_items_img ← image_buffer (str "zbi_items") (64 * 1024 * 1024);
  zbi_items_img ← lift (zero_image zbi_items_img);
  '(zbi_items_img, _) ← on_image (λ addr, items_only (zbi_new addr)) zbi_items_img;
  devs ← gets fst;
  zircon_part ← lift (unify (find_part_aliases devs (zircon_part_name_aliases slot)));
  kernel_img ← load_kernel hdr_addr zircon_part;
  load ← lift (unify (used kernel_img));
  '(zbi_items_img, _) ← on_image (λ _,
    zircon_verify_kernel slot slot_booted_successfully (ib_addr kernel_img) load;;
    append_items slot) zbi_items_img;
  mret (zbi_items_img, kernel_img).

(** gbl/libgbl/src/fuchsia_boot/mod.rs:232-250, [zircon_load_verify_abr]. *)
Definition zircon_load_verify_abr (abr_addr hdr_addr : Z) : M (ImageBuffer * ImageBuffer * SlotIndex) :=
  '(slot, successful) ← (λ s,
    let '(r, devs) := @get_boot_slot _ (GblAbrOps abr_addr) true (fst s) in (unify r, (devs, snd s)));
  '(zbi_items_img, kernel_img) ← zircon_load_verify hdr_addr (Some slot) successful;
  mret (zbi_items_img, kernel_img, slot).
End Zircon.

(** * libgbl: what Zircon's verification guarantees

    For every libavb and every ZBI library, and for platforms that store
    rollback indexes: which verification results let a kernel boot, and how they
    move the rollback indexes. *)

(** Platforms with a store of rollback indexes. *)
Class RollbackStore (G : Type) `{!AvbPlatform G} (idx : G → Z → Z) : Prop := {
  store_read g loc : avb_read_rollback_index loc g = (Ok (idx g loc), g);
  store_write g loc v : ∃ g', avb_write_rollback_index loc v g = (Ok tt, g') ∧
    ∀ l, idx g' l = if l =? loc then v else idx g l;
}.

(** The indexes after verified data were accepted for good: those of the vbmeta
    images that are set, then the key versions of the certificates. *)
Definition set_index (f : Z → Z) (p : Z * Z) : Z → Z := λ l, if l =? p.1 then p.2 else f l.
Fixpoint vbmeta_updates (loc : Z) (l : list Z) : list (Z * Z) :=
  match l with
  | [] => []
  | v :: l => (if 0 <? v then [(loc, v)] else []) ++ vbmeta_updates (loc + 1) l
  end.
Definition accepted_updates (rollback : list Z) (versions : list (option (Z * Z))) : list (Z * Z) :=
  vbmeta_updates 0 rollback ++ omap id versions.

Section Rollback.
Context {D G ZE : Type} `{!BlockIo D} `{!AvbPlatform G} `{!LibAvb D G} `{!ZbiLib ZE}.

Lemma ao_set_gbl_id (a : GblAvbOps D G) : ao_set_gbl (ao_gbl a) a = a.
Proof. by destruct a. Qed.

Context (idx : G → Z → Z) `{!RollbackStore G idx}.

(** [a'] is [a] with another state of the platform, in which the indexes are [f]. *)
Definition moved (a a' : GblAvbOps D G) (f : Z → Z) : Prop :=
  (∃ g, a' = ao_set_gbl g a) ∧ ∀ l, idx (ao_gbl a') l = f l.

Lemma update_one loc v a : ∃ a', update_rollback_index loc v a = (Ok tt, a') ∧ moved a a' (set_index (idx (ao_gbl a)) (loc, v)).
Proof.
  unfold update_rollback_index, read_rollback_index, write_rollback_index, fallback_not_implemented, on_gbl.
  rewrite bind_run. unfold zoom. rewrite store_read, ao_set_gbl_id.
  destruct (Z.eqb_spec (idx (ao_gbl a) loc) v) as [E|E]; cbn [negb].
  - exists a. split; [done|]. split; [exists (ao_gbl a); by rewrite ao_set_gbl_id|].
    intros l. unfold set_index. cbn [fst snd]. destruct (Z.eqb_spec l loc); congruence.
  - destruct (store_write (ao_gbl a) loc v) as (g' & -> & Hg). exists (ao_set_gbl g' a).
    split; [done|]. split; [by eexists|]. intros l. rewrite Hg. done.
Qed.

Lemma moved_refl a f : (∀ l, idx (ao_gbl a) l = f l) → moved a a f.
Proof. intros. split; [exists (ao_gbl a); by rewrite ao_set_gbl_id|done]. Qed.
Lemma moved_trans a b c f f' : moved a b f → moved b c f' → moved a c f'.
Proof. intros [[g ->] _] [[g' ->] H]. split; [by exists g'|done]. Qed.

Lemma set_indexes_ext l f f' : (∀ x, f x = f' x) → ∀ x, foldl set_index f l x = foldl set_index f' l x.
Proof.
  revert f f'. induction l as [|p l IH]; intros f f' H x; [done|]. simpl. apply IH.
  intros y. unfold set_index. by destruct (_ =? _).
Qed.

(** One update after the other. *)
Lemma moved_step a a1 a2 p us :
  moved a a1 (set_index (idx (ao_gbl a)) p) → moved a1 a2 (foldl set_index (idx (ao_gbl a1)) us) →
  moved a a2 (foldl set_index (idx (ao_gbl a)) (p :: us)).
Proof.
  intros H1 H2. pose proof (moved_trans _ _ _ _ _ H1 H2) as [Hg Hf]. split; [done|]. intros l. rewrite Hf. simpl.
  apply set_indexes_ext. apply H1.
Qed.

Lemma update_vbmeta l loc a :
  ∃ a', update_rollback_indexes loc l a = (Ok tt, a') ∧ moved a a' (foldl set_index (idx (ao_gbl a)) (vbmeta_updates loc l)).
Proof.
  revert loc a. induction l as [|v l IH]; intros loc a; [exists a; split; [done|by apply moved_refl]|].
  simpl. rewrite bind_run. destruct (0 <? v).
  - destruct (update_one loc v a) as (a1 & -> & H1). destruct (IH (loc + 1) a1) as (a2 & -> & H2).
    exists a2. split; [done|]. by apply (moved_step _ a1).
  - destruct (IH (loc + 1) a) as (a2 & E & H2). exists a2. done.
Qed.

Lemma update_versions l a :
  ∃ a', update_key_versions l a = (Ok tt, a') ∧ moved a a' (foldl set_index (idx (ao_gbl a)) (omap id l)).
Proof.
  revert a. induction l as [|[[loc v]|] l IH]; intros a; [exists a; split; [done|by apply moved_refl]| |apply IH].
  simpl. rewrite bind_run. destruct (update_one loc v a) as (a1 & -> & H1). destruct (IH a1) as (a2 & -> & H2).
  exists a2. split; [done|]. by apply (moved_step _ a1).
Qed.

(** The ZBI items do not touch the AVB operations. *)
Lemma extend_properties_ops props s : (extend_properties (D := D) (G := G) (ZE := ZE) props s).2.2 = s.2.
Proof.
  revert s. induction props as [|[k v] props IH]; intros s; [done|]. simpl. rewrite bind_run.
  destruct (starts_with _ k); [|apply IH]. unfold on_items, zoom.
  destruct (on_container _ _) as [[]]; [|done..]. by rewrite IH.
Qed.
Lemma extend_vbmeta_ops l s : (extend_vbmeta (D := D) (G := G) (ZE := ZE) l s).2.2 = s.2.
Proof.
  revert s. induction l as [|d l IH]; intros s; [done|]. simpl. rewrite bind_run, lift_run.
  destruct (vm_descriptors d) as [props|]; [|done]. simpl. rewrite bind_run.
  pose proof (extend_properties_ops props s) as H. destruct (extend_properties props s) as [[] s']; simpl in H; [|done..].
  by rewrite IH.
Qed.

(** What follows a verification, on the data it found. *)
Lemma accept_run (good : bool) v items a s' :
  (extend_vbmeta (ZE := ZE) (sv_vbmeta_data v);;
   if good then
     on_ops (update_rollback_indexes 0 (sv_rollback_indexes v));;
     versions ← on_ops (gets key_versions);
     on_ops (update_key_versions versions)
   else mret tt) (items, a) = (Ok tt, s') →
  ∀ l, idx (ao_gbl s'.2) l =
    (if good then foldl set_index (idx (ao_gbl a)) (accepted_updates (sv_rollback_indexes v) (key_versions a))
     else idx (ao_gbl a)) l.
Proof.
  rewrite bind_run. pose proof (extend_vbmeta_ops (sv_vbmeta_data v) (items, a)) as He.
  destruct (extend_vbmeta _ _) as [[[]| |] [items1 a1]]; [|done..]. simpl in He. subst a1.
  destruct good; [|by intros [= <-]]. unfold on_ops. rewrite bind_run. cbn [fst snd].
  destruct (update_vbmeta (sv_rollback_indexes v) 0 a) as (a2 & -> & [[g2 ->] H2]). cbn [map_err].
  rewrite bind_run. unfold gets. cbn [fst snd map_err].
  destruct (update_versions (key_versions (ao_set_gbl g2 a)) (ao_set_gbl g2 a)) as (a3 & -> & [_ H3]).
  intros [= <-] l. cbn [snd]. rewrite H3. unfold accepted_updates. rewrite foldl_app. by apply set_indexes_ext.
Qed.

(** C17. A Zircon kernel is accepted only if libavb verified it or the device is
    unlocked; a locked device refuses every other result with libavb's error.
    Rollback indexes move only for a verified kernel of a slot that booted
    successfully before, and then exactly to the verified values. *)
Theorem zircon_verification_policy slot booted addr kernel items items1 n devs g unlocked a1 vr a2 :
  copy_items_after_kernel (D := D) (G := G) addr kernel items = (Ok tt, items1) →
  zbi_split_unused_buffer (D := D) (G := G) addr kernel = Ok n →
  read_is_device_unlocked (avb_new devs g slot [(zircon_part_name None, slice kernel 0 n)] true) = (Ok unlocked, a1) →
  slot_verify [str "zircon"] (slot_to_cstr <$> slot) unlocked a1 = (vr, a2) →
  let run := zircon_verify_kernel slot booted addr kernel (items, (devs, g)) in
  (run.1 = Ok tt → unlocked = true ∨ ∃ v, vr = inl v) ∧
  (∀ e d, unlocked = false → vr = inr (e, d) →
     run = (Err (AvbSlotVerifyError e), (items1, (ao_devs a2, ao_gbl a2)))) ∧
  (run.1 = Ok tt → ∀ l, idx run.2.2.2 l =
     (match vr with
      | inl v => if booted : bool
                 then foldl set_index (idx (ao_gbl a2)) (accepted_updates (sv_rollback_indexes v) (key_versions a2))
                 else idx (ao_gbl a2)
      | inr _ => idx (ao_gbl a2)
      end) l).
Proof.
  intros Hc Hn Hu Hs run.
  assert (Hrun : run = (let '(r, (i, a)) := verify_zircon_with slot booted
      (items1, avb_new devs g slot [(zircon_part_name None, slice kernel 0 n)] true) in (r, (i, (ao_devs a, ao_gbl a))))).
  { unfold run, zircon_verify_kernel. rewrite bind_run. unfold zoom. cbn [fst snd]. rewrite Hc.
    by rewrite bind_run, lift_run, Hn. }
  clearbody run. unfold verify_zircon_with in Hrun.
  rewrite bind_run in Hrun. unfold on_ops at 1 in Hrun. cbn [fst snd] in Hrun. rewrite Hu in Hrun. cbn [map_err] in Hrun.
  rewrite bind_run in Hrun. cbn [fst snd] in Hrun. rewrite Hs in Hrun. subst run.
  destruct vr as [v|[e [v|]]].
  - split; [eauto|]. split; [done|]. cbn [andb].
    match goal with |- context [?m (items1, a2)] => pose proof (accept_run booted v items1 a2) as H; destruct (m _) as [r [i a3]] end.
    cbn [fst snd]. intros ->. specialize (H _ eq_refl). destruct booted; exact H.
  - destruct unlocked; [|split; [done|]; split; [|done]; by intros ? ? _ [= <- <-]].
    split; [by left|]. split; [done|]. cbn [andb].
    match goal with |- context [?m (items1, a2)] => pose proof (accept_run false v items1 a2) as H; destruct (m _) as [r [i a3]] end.
    cbn [fst snd]. intros ->. by specialize (H _ eq_refl).
  - destruct unlocked; [split; [by left|]; done|]. split; [done|]; split; [|done]. by intros ? ? _ [= <- <-].
Qed.
End Rollback.

(** ** Examples *)

Module ZirconExample.
(** A locked board that stores rollback indexes. *)
Record Board := mkBoard { stored : Z → Z }.
#[global] Instance board : AvbPlatform Board := {|
  preloaded_reads _ := [];
  avb_read_is_device_unlocked := mret false;
  avb_read_rollback_index loc := gets (λ g, stored g loc);
  avb_write_rollback_index loc v := modify (λ g, mkBoard (set_index (stored g) (loc, v)));
  avb_read_persistent_value _ := raise IoNotImplemented;
  avb_write_persistent_value _ _ := raise IoNotImplemented;
  avb_erase_persistent_value _ := raise IoNotImplemented;
  avb_validate_vbmeta_public_key _ _ := raise IoNotImplemented;
  avb_cert_read_permanent_attributes := raise IoNotImplemented;
  avb_cert_read_permanent_attributes_hash := raise IoNotImplemented;
  avb_handle_verification_result _ _ _ := mret tt;
|}.
#[global] Instance board_store : RollbackStore Board stored.
Proof. split; [done|]. intros g loc v. by eexists. Qed.

(** A verifier that finds two rollback indexes, and the version of a key at
    location 7. *)
Definition data : SlotVerifyData := mkVerify [] [mkVbmeta (str "vbmeta") (λ _, None) (Some [(str "zbi_x", [1])])] [3; 0].
#[global] Instance verifier : LibAvb RamBlock.RamBlockIo Board := {|
  SlotVerifyError := unit;
  slot_verify _ _ _ a := (inl data, ao_set_versions [Some (7, 42); None] a);
  cert_validate_vbmeta_public_key _ _ := mret true;
|}.

(** Containers that are lists of payload bytes. *)
#[global] Instance zbi_lib : ZbiLib unit := {|
  zbi_new _ := modify (λ _, []);
  zbi_parse _ _ := Ok tt;
  container_size b := Ok (zlen b);
  zbi_iter b := (λ x, mkZbiItem (mkZbiHeader 0 1 0 0) [x]) <$> b;
  extend_items l := modify (λ b, b ++ mjoin (item_payload <$> l));
  extend_unaligned v := modify (λ b, b ++ v);
  zbi_extend v := modify (λ b, b ++ v);
  create_entry_with_payload _ _ _ p := modify (λ b, b ++ p);
  get_bootable_kernel_item _ := Err tt;
  get_kernel_entry_and_reserved_memory_size _ := Err tt;
  get_buffer_size_for_kernel_relocation _ := Err tt;
  zbi_type_try_from t := Ok t;
|}.
Definition ops : GblAvbOps RamBlock.RamBlockIo Board :=
  avb_new [] (mkBoard (λ _, 1)) (Some SlotA) [(str "zircon", [9; 8; 7])] true.
End ZirconExample.

Lemma zircon_verification_policy_witness :
  let run := zircon_verify_kernel (D := RamBlock.RamBlockIo) (ZE := unit) (Some SlotA) true 0 [9; 8; 7]
    ([5], ([], ZirconExample.mkBoard (λ _, 1))) in
  run.1 = Ok tt ∧ run.2.1 = [5; 8; 7; 1] ∧
  ZirconExample.stored run.2.2.2 0 = 3 ∧ ZirconExample.stored run.2.2.2 1 = 1 ∧ ZirconExample.stored run.2.2.2 7 = 42.
Proof.
  intros run. assert (Hok : run.1 = Ok tt) by reflexivity.
  destruct (zircon_verification_policy (ZE := unit) ZirconExample.stored (Some SlotA) true 0 [9; 8; 7] [5] [5; 8; 7] 3 []
    (ZirconExample.mkBoard (λ _, 1)) false ZirconExample.ops (inl ZirconExample.data)
    (ao_set_versions [Some (7, 42); None] ZirconExample.ops)) as (_ & _ & H); try reflexivity.
  specialize (H Hok). split; [exact Hok|]. split; [reflexivity|].
  split; [exact (H 0)|]. split; [exact (H 1)|exact (H 7)].
Defined.
