(* ===== verification/DeviceTree.v ===== *)
(** * libgbl: device tree components

    Models src/gbl/libgbl/src/device_tree.rs and the alignments of
    src/gbl/libgbl/src/constants.rs. A buffer is an address and its contents; a
    component refers to bytes at an address. *)

From S2P Require Import Prelude SafeMath LibError Utils DtTable Fdt.
Import SafeNum.

(** gbl/libgbl/src/constants.rs:52-53, [FDT_ALIGNMENT]. *)
Definition FDT_ALIGNMENT : Z := 8.
(** gbl/libgbl/src/constants.rs:46-47, [KERNEL_ALIGNMENT]. *)
Definition KERNEL_ALIGNMENT : Z := 2 * 1024 * 1024.
(** gbl/libgbl/src/constants.rs:58-59, [PAGE_SIZE]. *)
Definition PAGE_SIZE : Z := 4 * 1024.

(** gbl/libgbl/src/device_tree.rs:24-27, [MAXIMUM_DEVICE_TREE_COMPONENTS]. *)
Definition MAXIMUM_DEVICE_TREE_COMPONENTS : Z := 256.
(** gbl/libgbl/src/device_tree.rs:28-30, [MAXIMUM_DEVICE_TREE_COMPONENTS_ERROR_MSG]. *)
Definition MAXIMUM_DEVICE_TREE_COMPONENTS_ERROR_MSG : string :=
  "At most 256 device components are supported to build the final one".

(** gbl/libgbl/src/device_tree.rs:32-43, [DeviceTreeComponentSource]. *)
Inductive DeviceTreeComponentSource := SBoot | SVendorBoot | SDtb | SDtbo.
#[export] Instance DeviceTreeComponentSource_eq_dec : EqDecision DeviceTreeComponentSource.
Proof. solve_decision. Defined.

(** gbl/libgbl/src/device_tree.rs:46-53, [Display::fmt for DeviceTreeComponentSource]. *)
Definition show_source (s : DeviceTreeComponentSource) : string :=
  match s with SBoot => "Boot" | SVendorBoot => "VendorBoot" | SDtb => "Dtb" | SDtbo => "Dtbo" end.

(** gbl/libgbl/src/device_tree.rs:56-67, [DeviceTreeComponent]. *)
Record DeviceTreeComponent := mkComponent {
  source : DeviceTreeComponentSource;
  metadata : option DtTableMetadata;
  dt_addr : Z;
  dt : bytes;
  is_selected : bool;
}.
(** gbl/libgbl/src/device_tree.rs:69-76, [DeviceTreeComponentsRegistry]: the array of overlays is only used
    to return them. *)
Record DeviceTreeComponentsRegistry := mkRegistry { components : list DeviceTreeComponent }.

(** gbl/libgbl/src/device_tree.rs:79-87, [DeviceTreeComponent::is_base_device_tree]. *)
Definition is_base_device_tree (c : DeviceTreeComponent) : bool :=
  match source c with SBoot | SVendorBoot | SDtb => true | SDtbo => false end.

(** gbl/libgbl/src/device_tree.rs:108-114, [DeviceTreeComponentsRegistry::new]. *)
Definition registry_new : DeviceTreeComponentsRegistry := mkRegistry [].

(** [ArrayVec::push] panics when the array is full. *)
Definition push (c : DeviceTreeComponent) : ST DeviceTreeComponentsRegistry Error unit :=
  r ← gets id;
  if zlen (components r) <? MAXIMUM_DEVICE_TREE_COMPONENTS then modify (λ r, mkRegistry (components r ++ [c]))
  else lift Panic.
Definition is_full (r : DeviceTreeComponentsRegistry) : bool :=
  zlen (components r) =? MAXIMUM_DEVICE_TREE_COMPONENTS.

(** [slice::split_at_mut_checked]. *)
Definition split_at_checked (n : Z) (b : bytes) : option (bytes * bytes) :=
  if n <=? zlen b then Some (slice b 0 n, slice b n (zlen b - n)) else None.

Section Registry.
Context `{!DtTableLayout} `{!LibFdt}.
Abbreviation Reg := (ST DeviceTreeComponentsRegistry Error).

(** gbl/libgbl/src/device_tree.rs:90-105, [try_dt_totalsize_from_unaligned_bytes_ref]: the buffer at [addr] is
    used for the header. *)
Definition try_dt_totalsize_from_unaligned_bytes_ref (header : bytes) (addr : Z) (buffer : bytes)
    : result Z * bytes :=
  match aligned_subslice addr buffer (Val FDT_ALIGNMENT) with
  | Ok (off, aligned_buffer) =>
      match get_range aligned_buffer 0 FDT_HEADER_SIZE, get_range header 0 FDT_HEADER_SIZE with
      | Some _, Some h =>
          (h ← from_bytes_ref (addr + off) h; Ok (totalsize h), splice buffer off h)
      | _, _ => (Err (BufferTooSmall (Some FDT_HEADER_SIZE)), buffer)
      end
  | Err e => (Err e, buffer)
  | Panic => (Panic, buffer)
  end.

(** gbl/libgbl/src/device_tree.rs:116-149, [DeviceTreeComponentsRegistry::append_from_dttable]: the place for the
    bytes of an entry; its address and what remains. *)
Definition cut_aligned (addr : Z) (buffer : bytes) (n : Z) (msg : string) : result (Z * (Z * bytes)) :=
  '(off, aligned_buffer) ← aligned_subslice addr buffer (Val FDT_ALIGNMENT);
  '(_, rest) ← ok_or (split_at_checked n aligned_buffer) (Other (Some msg));
  Ok (addr + off, (addr + off + n, rest)).

(** gbl/libgbl/src/device_tree.rs:116-149, [DeviceTreeComponentsRegistry::append_from_dttable]: the entries that
    are left, at most [n]. *)
Fixpoint append_entries (n : nat) (source : DeviceTreeComponentSource) (it : DtTableImageIterator)
    (remains : Z * bytes) : Reg (Z * bytes) :=
  match n with
  | O => mret remains
  | S n =>
      r ← lift (dt_next it);
      match r with
      | None => mret remains
      | Some (entry, it) =>
          '(addr, rest) ← lift (cut_aligned (fst remains) (snd remains) (zlen (de_dtb entry))
                                 "Provided buffer is too small to ensure dttable entry is aligned");
          push (mkComponent source (Some (de_metadata entry)) addr (de_dtb entry) false);;
          append_entries n source it rest
      end
  end.

(** gbl/libgbl/src/device_tree.rs:116-149, [DeviceTreeComponentsRegistry::append_from_dttable]: the buffer that
    remains, with its address. *)
Definition append_from_dttable (source : DeviceTreeComponentSource) (dttable : DtTableImage) (addr : Z)
    (buffer : bytes) : Reg (Z * bytes) :=
  r ← gets id;
  if MAXIMUM_DEVICE_TREE_COMPONENTS - zlen (components r) <? entries_count dttable
  then raise (Other (Some MAXIMUM_DEVICE_TREE_COMPONENTS_ERROR_MSG))
  else append_entries (S (Z.to_nat (entries_count dttable))) source (entries dttable) (addr, buffer).

(** gbl/libgbl/src/device_tree.rs:151-210, [DeviceTreeComponentsRegistry::append_from_multifdt_buffer]: the trees
    that are left. Every round adds one or ends the loop, so that [fuel] bounds
    the free places. *)
Fixpoint append_from_multifdt_buffer (fuel : nat) (source : DeviceTreeComponentSource) (data_remains : bytes)
    (addr : Z) (buffer : bytes) : Reg (Z * bytes) :=
  match fuel with
  | O => lift Panic
  | S fuel =>
      match try_dt_totalsize_from_unaligned_bytes_ref data_remains addr buffer with
      | (Err _, buffer) => mret (addr, buffer)
      | (Panic, _) => lift Panic
      | (Ok next_fdt_size, buffer) =>
          r ← gets id;
          if is_full r then raise (Other (Some MAXIMUM_DEVICE_TREE_COMPONENTS_ERROR_MSG)) else
          '(data_buffer, data_remains) ← lift (ok_or (split_at_checked next_fdt_size data_remains)
             (Other (Some "Multidt structure has a valid header but doesn't have a device tree payload"%string)));
          '(at_, rest) ← lift (cut_aligned addr buffer next_fdt_size
             "Provided buffer is too small to ensure multidt entry is aligned");
          lift (fdt_new at_ data_buffer);;
          push (mkComponent source None at_ data_buffer false);;
          append_from_multifdt_buffer fuel source data_remains (fst rest) (snd rest)
      end
  end.

(** gbl/libgbl/src/device_tree.rs:212-239, [DeviceTreeComponentsRegistry::append]: a tree at [fdt_addr]. *)
Definition append (source : DeviceTreeComponentSource) (fdt_addr : Z) (fdt : bytes) (addr : Z) (buffer : bytes)
    : Reg (Z * bytes) :=
  r ← gets id;
  if is_full r then raise (Other (Some MAXIMUM_DEVICE_TREE_COMPONENTS_ERROR_MSG)) else
  header ← lift (from_bytes_ref fdt_addr fdt);
  '(fdt_buffer, fdt_remains) ← lift (unwrap (split_at_checked (totalsize header) fdt));
  push (mkComponent source None fdt_addr fdt_buffer false);;
  append_from_multifdt_buffer (S (Z.to_nat MAXIMUM_DEVICE_TREE_COMPONENTS)) source fdt_remains addr buffer.

(** [base.selected = true] of the first base tree. *)
Fixpoint select_first (l : list DeviceTreeComponent) : option (list DeviceTreeComponent) :=
  match l with
  | [] => None
  | c :: l =>
      if is_base_device_tree c then Some (mkComponent (source c) (metadata c) (dt_addr c) (dt c) true :: l)
      else cons c <$> select_first l
  end.

(** gbl/libgbl/src/device_tree.rs:241-262, [DeviceTreeComponentsRegistry::autoselect]. *)
Definition autoselect : Reg unit :=
  r ← gets id;
  let base_device_tree_count := zlen (filter (λ c, is_base_device_tree c = true) (components r)) in
  if 1 <? base_device_tree_count then
    raise (Other (Some "Base device tree autoselection isn't supported if multiple device trees are provided"%string))
  else
  l ← lift (ok_or (select_first (components r)) (Other (Some "0 base device trees to autoselect from"%string)));
  modify (λ _, mkRegistry l).

(** gbl/libgbl/src/device_tree.rs:264-290, [DeviceTreeComponentsRegistry::selected]: the base tree with
    its address, and the overlays. *)
Definition selected (r : DeviceTreeComponentsRegistry) : result (Z * bytes * list bytes) :=
  let bases := filter (λ c, is_base_device_tree c && is_selected c = true) (components r) in
  if 1 <? zlen bases then Err (Other (Some "More than 1 base device tree is selected"%string)) else
  base ← ok_or (head bases) (Other (Some "0 base device trees are selected"%string));
  Ok (dt_addr base, dt base, dt <$> filter (λ c, negb (is_base_device_tree c) && is_selected c = true) (components r)).
End Registry.
