(* ===== verification/DeviceTreeProps.v ===== *)
(** * libgbl: properties of device tree components

    Components are placed one after the other, aligned and inside the buffer,
    with the bytes and in the order of their source; the selection returns
    exactly what was selected. *)

From S2P Require Import Prelude SafeMath LibError Utils DtTable Fdt DeviceTree.
Import SafeNum.

(** ** Placement *)

(** The next aligned address. *)
Definition align8 (a : Z) : Z := a + (- a) mod FDT_ALIGNMENT.

Lemma align8_bounds a : a ≤ align8 a < a + 8.
Proof. unfold align8, FDT_ALIGNMENT. pose proof (Z.mod_pos_bound (- a) 8). lia. Qed.
Lemma align8_mod a : align8 a mod 8 = 0.
Proof. unfold align8, FDT_ALIGNMENT. rewrite Z.add_mod_idemp_r, Z.add_opp_diag_r by lia. done. Qed.

(** Where trees that are stored one after the other from [a] on end up. *)
Fixpoint places (a : Z) (l : list bytes) : list Z :=
  match l with
  | [] => []
  | t :: l => align8 a :: places (align8 a + zlen t) l
  end.
Fixpoint places_end (a : Z) (l : list bytes) : Z :=
  match l with
  | [] => a
  | t :: l => places_end (align8 a + zlen t) l
  end.

Lemma places_end_ge a l : a ≤ places_end a l.
Proof. revert a. induction l as [|t l IH]; intros a; simpl; [lia|]. pose proof (align8_bounds a). specialize (IH (align8 a + zlen t)). lia. Qed.

Lemma length_places a l : length (places a l) = length l.
Proof. revert a. induction l as [|t l IH]; intros a; simpl; [done|]. by rewrite IH. Qed.

(** Places are aligned, in order, disjoint and in the buffer. *)
Lemma places_ok a l i p t :
  places a l !! i = Some p → l !! i = Some t →
  p mod 8 = 0 ∧ a ≤ p ∧ p + zlen t ≤ places_end a l ∧
  ∀ j p', (i < j)%nat → places a l !! j = Some p' → p + zlen t ≤ p'.
Proof.
  revert a i p t. induction l as [|t0 l IH]; intros a i p t Hp Ht; [done|].
  pose proof (align8_bounds a). destruct i as [|i]; simpl in Hp, Ht.
  - injection Hp as <-. injection Ht as <-. pose proof (places_end_ge (align8 a + zlen t0) l).
    split; [apply align8_mod|]. split; [lia|]. split; [done|]. intros [|j] p' Hj Hp'; [lia|]. simpl in Hp'.
    destruct (lookup_lt_is_Some_2 l j) as [t' Ht'].
    { apply lookup_lt_Some in Hp'. by rewrite length_places in Hp'. }
    destruct (IH _ _ _ _ Hp' Ht') as (_ & ? & _). done.
  - destruct (IH _ _ _ _ Hp Ht) as (? & ? & ? & Hj). split; [done|]. split; [lia|]. split; [done|].
    intros [|j] p' Hlt Hp'; [lia|]. apply (Hj j); [lia|done].
Qed.

Lemma aligned_subslice_8 addr b :
  0 ≤ addr → addr + 8 < 2 ^ 64 →
  aligned_subslice addr b (Val FDT_ALIGNMENT) =
    if align8 addr <=? addr + zlen b
    then Ok (align8 addr - addr, slice b (align8 addr - addr) (addr + zlen b - align8 addr))
    else Err (BufferTooSmall (Some (align8 addr - addr))).
Proof.
  intros. pose proof (align8_bounds addr) as Hb. unfold aligned_subslice. unfold FDT_ALIGNMENT at 1.
  pose proof (Z.mod_pos_bound (- addr) 8).
  rewrite from_int_u64, round_up_val, sn_sub by (unfold u64_ok; lia).
  fold (align8 addr). change (addr + (- addr) mod 8) with (align8 addr).
  rewrite into_u64_val, ok_bind by (unfold u64_ok; lia).
  destruct (Z.leb_spec (align8 addr) (addr + zlen b)).
  - rewrite get_range_Some by lia. cbn [ok_or mbind outcome_bind].
    by replace (zlen b - (align8 addr - addr)) with (addr + zlen b - align8 addr) by lia.
  - by rewrite get_range_None by lia.
Qed.

Lemma cut_aligned_run addr b n msg :
  0 ≤ addr → addr + 8 < 2 ^ 64 → 0 ≤ n →
  if align8 addr + n <=? addr + zlen b
  then ∃ rest, cut_aligned addr b n msg = Ok (align8 addr, (align8 addr + n, rest)) ∧
               zlen rest = addr + zlen b - (align8 addr + n)
  else ∃ e, cut_aligned addr b n msg = Err e.
Proof.
  intros. pose proof (align8_bounds addr). unfold cut_aligned. rewrite aligned_subslice_8 by lia.
  destruct (Z.leb_spec (align8 addr + n) (addr + zlen b)).
  - rewrite (proj2 (Z.leb_le _ _)) by lia. rewrite ok_bind. unfold split_at_checked.
    rewrite zlen_slice, (proj2 (Z.leb_le _ _)) by lia. cbn [ok_or mbind outcome_bind].
    replace (addr + (align8 addr - addr)) with (align8 addr) by lia. eexists. split; [done|].
    rewrite !zlen_slice by (rewrite ?zlen_slice; lia). lia.
  - destruct (align8 addr <=? addr + zlen b) eqn:E; [|by eexists]. rewrite ok_bind. unfold split_at_checked.
    rewrite zlen_slice, (proj2 (Z.leb_gt _ _)) by lia. by eexists.
Qed.

Section Append.
Context `{!DtTableLayout} `{!LibFdt}.

(** The components of the entries of a table, placed from [a] on. *)
Definition placed_entries (src : DeviceTreeComponentSource) (a : Z) (es : list DtTableEntry) : list DeviceTreeComponent :=
  zip_with (λ e p, mkComponent src (Some (de_metadata e)) p (de_dtb e) false) es (places a (de_dtb <$> es)).

Lemma push_ok c r :
  zlen (components r) < MAXIMUM_DEVICE_TREE_COMPONENTS → push c r = (Ok tt, mkRegistry (components r ++ [c])).
Proof. intros. unfold push. rewrite bind_run. unfold gets, id. by rewrite (proj2 (Z.ltb_lt _ _)). Qed.

Lemma append_entries_run n src it es addr b r :
  dt_collect n it = Ok es → zlen (components r) + zlen es ≤ MAXIMUM_DEVICE_TREE_COMPONENTS →
  0 ≤ addr → addr + zlen b + 8 < 2 ^ 64 →
  let end_ := places_end addr (de_dtb <$> es) in
  if end_ <=? addr + zlen b
  then ∃ rest, append_entries n src it (addr, b) r =
                 (Ok (end_, rest), mkRegistry (components r ++ placed_entries src addr es)) ∧
               zlen rest = addr + zlen b - end_
  else ∃ e k, append_entries n src it (addr, b) r =
                (Err e, mkRegistry (components r ++ take k (placed_entries src addr es))).
Proof.
  revert it es addr b r. induction n as [|n IH]; intros it es addr b r He Hcap Ha Hlen.
  { injection He as <-. simpl. rewrite (proj2 (Z.leb_le _ _)) by lia. exists b. rewrite app_nil_r.
    destruct r. simpl. split; [done|lia]. }
  rewrite dt_collect_S in He. cbn [append_entries]. rewrite bind_run, lift_run.
  destruct (dt_next it) as [[[e it']|]| |]; [| |done..]; cycle 1.
  { injection He as <-. simpl. rewrite (proj2 (Z.leb_le _ _)) by lia. exists b. rewrite app_nil_r.
    destruct r. simpl. split; [done|lia]. }
  cbn [mbind outcome_bind] in He. destruct (dt_collect n it') as [es'| |] eqn:E'; [|done..].
  injection He as <-. cbn [fmap list_fmap places_end fst snd length] in *.
  pose proof (cut_aligned_run addr b (zlen (de_dtb e))
    "Provided buffer is too small to ensure dttable entry is aligned" ltac:(lia) ltac:(lia) ltac:(lia)) as Hcut.
  pose proof (align8_bounds addr).
  pose proof (places_end_ge (align8 addr + zlen (de_dtb e)) (de_dtb <$> es')) as Hge.
  rewrite bind_run, lift_run.
  destruct (Z.leb_spec (align8 addr + zlen (de_dtb e)) (addr + zlen b)) as [Hfit|Hfit].
  - destruct Hcut as (rest & -> & Hrest). rewrite bind_run, push_ok by lia.
    set (c := mkComponent _ _ _ _ _).
    specialize (IH it' es' (align8 addr + zlen (de_dtb e)) rest (mkRegistry (components r ++ [c])) E').
    cbn [components] in IH. rewrite length_app in IH. simpl length in IH. cbv zeta in IH.
    specialize (IH ltac:(lia) ltac:(lia) ltac:(lia)).
    replace (align8 addr + zlen (de_dtb e) + zlen rest) with (addr + zlen b) in IH by lia.
    destruct (_ <=? _).
    + destruct IH as (rest' & -> & Hr'). exists rest'. rewrite <- app_assoc. split; [done|lia].
    + destruct IH as (err & k & ->). exists err, (S k). by rewrite <- app_assoc.
  - destruct Hcut as (err & ->). rewrite (proj2 (Z.leb_gt _ _)) by lia.
    exists err, 0%nat. rewrite take_0, app_nil_r. by destruct r.
Qed.
End Append.


(** ** Trees that are stored one after the other *)

Section Multi.
Context `{!DtTableLayout} `{!LibFdt}.

(** What is documented of libfdt: a header has a size, its alignment divides 8,
    and the check reads nothing behind it. *)
Definition fdt_documented : Prop :=
  fdt_header_align ≠ 0 ∧ 8 mod fdt_header_align = 0 ∧ 0 < FDT_HEADER_SIZE ∧
  ∀ b, FDT_HEADER_SIZE ≤ zlen b → c_check_header b = c_check_header (slice b 0 FDT_HEADER_SIZE).
Context (Hlib : fdt_documented).

(** A tree that libfdt accepts, with nothing behind it. *)
Definition fdt_tree (t : bytes) : Prop :=
  FDT_HEADER_SIZE ≤ zlen t ∧ 0 ≤ c_check_header t ∧ totalsize (slice t 0 FDT_HEADER_SIZE) = zlen t.
(** Bytes that do not start with a header. *)
Definition no_tree (t : bytes) : Prop :=
  zlen t < FDT_HEADER_SIZE ∨ c_check_header (slice t 0 FDT_HEADER_SIZE) < 0.

Lemma aligned_header a : a mod 8 = 0 → a mod fdt_header_align =? 0 = true.
Proof.
  intros H8. destruct Hlib as (Hne & Hd & _). apply Z.eqb_eq.
  apply Z.mod_divide; [done|]. apply (Z.divide_trans _ 8); by apply Z.mod_divide.
Qed.

Lemma from_bytes_ref_ok a t :
  a mod 8 = 0 → FDT_HEADER_SIZE ≤ zlen t → 0 ≤ c_check_header t →
  from_bytes_ref a t = Ok (slice t 0 FDT_HEADER_SIZE).
Proof.
  intros Ha Hl Hc. destruct Hlib as (_ & _ & Hhdr & _). unfold from_bytes_ref, fdt_check_header, map_result.
  rewrite (proj2 (Z.ltb_ge _ _)) by lia. rewrite ok_bind, ok_bind, aligned_header by done.
  rewrite get_range_Some by lia. by rewrite Z.sub_0_r.
Qed.

Lemma fdt_new_ok a t : a mod 8 = 0 → fdt_tree t → fdt_new a t = Ok t.
Proof.
  intros Ha (Hl & Hc & Ht). unfold fdt_new, fdt_check_buffer. rewrite from_bytes_ref_ok by done.
  rewrite ok_bind, Ht, Z.leb_refl. done.
Qed.

Lemma slice_header (t rest : bytes) :
  FDT_HEADER_SIZE ≤ zlen t → slice (t ++ rest) 0 FDT_HEADER_SIZE = slice t 0 FDT_HEADER_SIZE.
Proof. intros. unfold slice. simpl. rewrite !drop_0. rewrite take_app_le by lia. done. Qed.

(** The size of the next tree is found whenever its header fits into the
    buffer. *)
Lemma next_size_tree t rest addr b :
  fdt_tree t → 0 ≤ addr → addr + zlen b + 8 < 2 ^ 64 → align8 addr + zlen t ≤ addr + zlen b →
  ∃ b', try_dt_totalsize_from_unaligned_bytes_ref (t ++ rest) addr b = (Ok (zlen t), b') ∧ length b' = length b.
Proof.
  intros (Hl & Hc & Ht) Ha Hlen Hfit. pose proof (align8_bounds addr).
  destruct Hlib as (_ & _ & Hhdr & Hchk). rewrite Hchk in Hc by done.
  unfold try_dt_totalsize_from_unaligned_bytes_ref. rewrite aligned_subslice_8, (proj2 (Z.leb_le _ _)) by lia.
  rewrite (get_range_Some (slice b _ _)) by (rewrite ?zlen_slice; lia).
  rewrite (get_range_Some (t ++ rest)) by (rewrite ?length_app; lia).
  rewrite Z.sub_0_r, slice_header by done.
  assert (Hsl : zlen (slice t 0 FDT_HEADER_SIZE) = FDT_HEADER_SIZE) by (rewrite zlen_slice; lia).
  rewrite from_bytes_ref_ok; [|replace (addr + (align8 addr - addr)) with (align8 addr) by lia; apply align8_mod|lia|done].
  rewrite ok_bind. replace (slice (slice t 0 FDT_HEADER_SIZE) 0 FDT_HEADER_SIZE) with (slice t 0 FDT_HEADER_SIZE).
  - rewrite Ht. eexists. split; [done|]. apply length_splice; lia.
  - unfold slice. simpl. rewrite !drop_0, take_take. f_equal. lia.
Qed.

Lemma next_size_none tail_ addr b :
  no_tree tail_ → 0 ≤ addr → addr + zlen b + 8 < 2 ^ 64 →
  ∃ e b', try_dt_totalsize_from_unaligned_bytes_ref tail_ addr b = (Err e, b') ∧ length b' = length b.
Proof.
  intros Ht Ha Hlen. pose proof (align8_bounds addr). destruct Hlib as (_ & _ & Hhdr & _). unfold try_dt_totalsize_from_unaligned_bytes_ref.
  rewrite aligned_subslice_8 by lia. destruct (Z.leb_spec (align8 addr) (addr + zlen b)); [|by eexists _, _].
  destruct (get_range _ 0 FDT_HEADER_SIZE) as [x|] eqn:E1; [|by eexists _, _].
  destruct (get_range tail_ 0 FDT_HEADER_SIZE) as [h|] eqn:E2; [|by eexists _, _].
  apply get_range_inv in E1 as (_ & Hx & _). apply get_range_inv in E2 as (_ & Hy & ->).
  rewrite zlen_slice in Hx by lia. rewrite Z.sub_0_r.
  assert (Hsl : zlen (slice tail_ 0 FDT_HEADER_SIZE) = FDT_HEADER_SIZE) by (rewrite zlen_slice; lia).
  destruct Ht as [?|Ht]; [lia|]. unfold from_bytes_ref, fdt_check_header, map_result.
  rewrite (proj2 (Z.ltb_lt _ _)) by done. eexists _, _. split; [done|]. apply length_splice; lia.
Qed.

Definition placed_trees (src : DeviceTreeComponentSource) (a : Z) (ts : list bytes) : list DeviceTreeComponent :=
  zip_with (λ t p, mkComponent src None p t false) ts (places a ts).

Lemma multifdt_run fuel src ts tail_ addr b r :
  Forall fdt_tree ts → no_tree tail_ → zlen (components r) + zlen ts ≤ MAXIMUM_DEVICE_TREE_COMPONENTS →
  0 ≤ addr → addr + zlen b + 8 < 2 ^ 64 → places_end addr ts ≤ addr + zlen b → (length ts < fuel)%nat →
  ∃ rest, append_from_multifdt_buffer fuel src (mjoin ts ++ tail_) addr b r =
            (Ok (places_end addr ts, rest), mkRegistry (components r ++ placed_trees src addr ts)) ∧
          zlen rest = addr + zlen b - places_end addr ts.
Proof.
  intros Hts Htail. revert addr b r fuel. induction Hts as [|t ts Ht _ IH];
    intros addr b r [|fuel] Hcap Ha Hlen Hfit Hf; [lia| |simpl in Hf; lia|]; cbn [append_from_multifdt_buffer].
  - change (mjoin [] ++ tail_) with tail_.
    destruct (next_size_none tail_ addr b) as (e & b' & -> & Hb'); [done..|]. exists b'.
    simpl. rewrite app_nil_r. destruct r. split; [done|lia].
  - cbn [places_end] in *. pose proof (align8_bounds addr).
    pose proof (places_end_ge (align8 addr + zlen t) ts) as Hge.
    change (mjoin (t :: ts) ++ tail_) with ((t ++ mjoin ts) ++ tail_). rewrite <- app_assoc.
    destruct (next_size_tree t (mjoin ts ++ tail_) addr b) as (b' & -> & Hb'); [done|lia..|].
    cbn [length] in *. rewrite bind_run. unfold gets at 1, id, is_full. rewrite (proj2 (Z.eqb_neq _ _)) by lia.
    rewrite bind_run, lift_run. unfold split_at_checked at 1. rewrite length_app, (proj2 (Z.leb_le _ _)) by lia.
    cbn [ok_or]. rewrite slice_app_l by done.
    replace (slice (t ++ mjoin ts ++ tail_) (zlen t) (Z.of_nat (length t + length (mjoin ts ++ tail_)) - zlen t))
      with (mjoin ts ++ tail_) by (symmetry; list_ext).
    rewrite bind_run, lift_run.
    pose proof (cut_aligned_run addr b' (zlen t)
      "Provided buffer is too small to ensure multidt entry is aligned" ltac:(lia) ltac:(lia) ltac:(lia)) as Hcut.
    rewrite (proj2 (Z.leb_le _ _)) in Hcut by (rewrite Hb'; lia). destruct Hcut as (rest & -> & Hrest).
    rewrite bind_run, lift_run, fdt_new_ok by (done || apply align8_mod). rewrite bind_run, push_ok by lia.
    set (c := mkComponent _ _ _ _ _). cbn [fst snd].
    destruct (IH (align8 addr + zlen t) rest (mkRegistry (components r ++ [c])) fuel) as (rest' & -> & Hr');
      [cbn [components]; rewrite length_app; simpl; lia|lia..|].
    exists rest'. cbn [components]. rewrite <- app_assoc. split; [done|lia].
Qed.
End Multi.

(** C26. Appending a buffer of device trees that are stored one after the other
    adds all of them, in order: the first where it is, the others copied to
    8-byte aligned addresses of the given buffer; what follows them is ignored.
    The loop ends after as many rounds as there are trees. *)
Theorem fdt_append_exact `{!DtTableLayout, !LibFdt} src fdt_addr t ts tail_ addr b r :
  fdt_documented → fdt_addr mod 8 = 0 → Forall fdt_tree (t :: ts) → no_tree tail_ →
  zlen (components r) + zlen (t :: ts) ≤ MAXIMUM_DEVICE_TREE_COMPONENTS →
  0 ≤ addr → addr + zlen b + 8 < 2 ^ 64 → places_end addr ts ≤ addr + zlen b →
  ∃ rest, append src fdt_addr (t ++ mjoin ts ++ tail_) addr b r =
            (Ok (places_end addr ts, rest),
             mkRegistry (components r ++ mkComponent src None fdt_addr t false :: placed_trees src addr ts)) ∧
          zlen rest = addr + zlen b - places_end addr ts.
Proof.
  intros Hlib Hfa [Ht Hts]%Forall_cons Htail Hcap Ha Hlen Hfit. pose proof Hlib as (_ & _ & Hhdr & Hchk).
  pose proof Ht as (Hl & Hc & Hsz). cbn [length] in Hcap.
  unfold append. rewrite bind_run. unfold gets at 1, id, is_full. rewrite (proj2 (Z.eqb_neq _ _)) by lia.
  rewrite bind_run, lift_run, (from_bytes_ref_ok Hlib), slice_header, Hsz; [|done..|rewrite length_app; lia|].
  2: { rewrite Hchk, slice_header, <- Hchk by (rewrite ?length_app; done || lia). done. }
  rewrite bind_run, lift_run. unfold split_at_checked. rewrite length_app, (proj2 (Z.leb_le _ _)) by lia.
  cbn [unwrap]. rewrite slice_app_l by done.
  replace (slice (t ++ mjoin ts ++ tail_) (zlen t) (Z.of_nat (length t + length (mjoin ts ++ tail_)) - zlen t))
    with (mjoin ts ++ tail_) by (symmetry; list_ext).
  rewrite bind_run, push_ok by lia. set (c := mkComponent _ _ _ _ _).
  destruct (multifdt_run Hlib (S (Z.to_nat MAXIMUM_DEVICE_TREE_COMPONENTS)) src ts tail_ addr b
    (mkRegistry (components r ++ [c]))) as (rest & E & Hrest); try done.
  - cbn [components]. rewrite length_app. simpl. lia.
  - lia.
  - exists rest. rewrite E. cbn [components]. by rewrite <- app_assoc.
Qed.

(** ** Selection *)

Lemma select_first_app l c l' :
  Forall (λ x, is_base_device_tree x = false) l → is_base_device_tree c = true →
  select_first (l ++ c :: l') =
    Some (l ++ mkComponent (source c) (metadata c) (dt_addr c) (dt c) true :: l').
Proof. induction 1 as [|x l Hx _ IH]; intros Hc; simpl; [by rewrite Hc|]. rewrite Hx, IH by done. done. Qed.

Lemma dt_filter_none {A} (P : A → Prop) `{∀ x, Decision (P x)} l : Forall (λ x, ¬ P x) l → filter P l = [].
Proof. induction 1 as [|x l Hx _ IH]; [done|]. by rewrite filter_cons_False. Qed.

(** With one base device tree among the components, automatic selection
    selects it and nothing else, and the selection is that tree with the overlays
    that were selected before; with none or several it fails and changes
    nothing. *)
Theorem autoselect_exact r :
  (∀ l c l', components r = l ++ c :: l' → is_base_device_tree c = true →
     Forall (λ x, is_base_device_tree x = false) (l ++ l') →
     ∃ r', autoselect r = (Ok tt, r') ∧
       components r' = l ++ mkComponent (source c) (metadata c) (dt_addr c) (dt c) true :: l' ∧
       selected r' = Ok (dt_addr c, dt c, dt <$> filter (λ x, is_selected x = true) (l ++ l'))) ∧
  (length (filter (λ c, is_base_device_tree c = true) (components r)) ≠ 1%nat → ∃ e, autoselect r = (Err e, r)).
Proof.
  split.
  - intros l c l' E Hc [Hl Hl']%Forall_app. unfold autoselect. rewrite bind_run. unfold gets at 1, id. rewrite E.
    assert (Hf : ∀ k, Forall (λ x, is_base_device_tree x = false) k → filter (λ x, is_base_device_tree x = true) k = []).
    { intros k Hk. apply dt_filter_none. eapply Forall_impl; [exact Hk|]. by intros ? ->. }
    rewrite filter_app, filter_cons_True, !Hf by done.
    cbn [app length]. change (1 <? Z.of_nat 1) with false. cbv iota.
    rewrite bind_run, lift_run, select_first_app by done. eexists. split; [done|]. split; [done|].
    unfold selected. cbn [components]. set (c' := mkComponent _ _ _ _ _).
    assert (Hc' : is_base_device_tree c' = true) by done.
    assert (Hb : ∀ k, Forall (λ x, is_base_device_tree x = false) k →
      filter (λ x, is_base_device_tree x && is_selected x = true) k = []).
    { intros k Hk. apply dt_filter_none. eapply Forall_impl; [exact Hk|]. by intros ? ->. }
    rewrite filter_app, filter_cons_True, !Hb by (done || by rewrite Hc'). cbn [app length head ok_or mbind outcome_bind].
    do 3 f_equal. rewrite !filter_app, filter_cons_False by (rewrite Hc'; done).
    assert (Hs : ∀ k, Forall (λ x, is_base_device_tree x = false) k →
      filter (λ x, negb (is_base_device_tree x) && is_selected x = true) k = filter (λ x, is_selected x = true) k).
    { induction 1 as [|x k Hx _ IH]; [done|]. rewrite !filter_cons, IH, Hx. done. }
    by rewrite !Hs.
  - intros Hn. unfold autoselect. rewrite bind_run. unfold gets at 1, id.
    destruct (Z.ltb_spec 1 (zlen (filter (λ c, is_base_device_tree c = true) (components r)))); [by eexists|].
    assert (select_first (components r) = None) as Hnone.
    { assert (filter (λ c, is_base_device_tree c = true) (components r) = []) as Hf by (apply length_zero_iff_nil; lia).
      clear -Hf. induction (components r) as [|c l IH]; [done|]. simpl. rewrite filter_cons in Hf.
      destruct (is_base_device_tree c); [done|]. simpl in Hf. by rewrite IH. }
    rewrite bind_run, lift_run, Hnone. by eexists.
Qed.

(** ** Examples *)

(** The header of a flattened device tree: the magic number and the total size
    are its first words. *)
Definition ex_fdt : LibFdt := {|
  fdt_header_len := 40;
  fdt_header_align := 4;
  off_totalsize := 4;
  off_off_dt_strings := 12;
  off_size_dt_strings := 32;
  c_check_header b := if be_val (slice b 0 4) =? 0xd00dfeed then 0 else -9;
  c_strerror _ := "FDT_ERR_BADMAGIC";
  c_subnode_offset _ _ _ := -1;
  c_add_subnode b _ _ := (-1, b);
  c_get_property _ _ _ := inl (-1);
  c_setprop b _ _ _ := (-1, b);
  c_setprop_placeholder b _ _ _ := (-1, b, None);
  c_del_node b _ := (-1, b);
  c_move _ b := (-1, b);
  c_apply_multioverlay b _ := (-1, b);
|}.
Definition ex_tree (payload : bytes) : bytes :=
  be_bytes 4 0xd00dfeed ++ be_bytes 4 (40 + zlen payload) ++ replicate 32 0 ++ payload.
#[local] Existing Instance ex_layout.
#[local] Existing Instance ex_fdt.

Lemma ex_fdt_documented : fdt_documented.
Proof.
  unfold fdt_documented, FDT_HEADER_SIZE. simpl. split_and!; [done|done|done|]. intros b Hb.
  replace (slice (slice b 0 40) 0 4) with (slice b 0 4); [done|].
  unfold slice. simpl. rewrite !drop_0, take_take. f_equal.
Qed.
Lemma ex_tree_ok payload : zlen payload < 1000 → fdt_tree (ex_tree payload).
Proof.
  intros Hp. assert (Hl : zlen (ex_tree payload) = 40 + zlen payload) by
    (unfold ex_tree; rewrite !length_app, !length_be_bytes, length_replicate; lia).
  unfold fdt_tree, FDT_HEADER_SIZE. simpl fdt_header_len. split; [lia|]. split; [reflexivity|]. rewrite Hl.
  unfold totalsize, fdt_field. simpl off_totalsize.
  replace (slice (slice (ex_tree payload) 0 40) 4 4) with (be_bytes 4 (40 + zlen payload)).
  - apply be_val_bytes. change (256 ^ Z.of_nat 4) with (2 ^ 32). lia.
  - unfold ex_tree. pose proof (length_be_bytes 4 0xd00dfeed). pose proof (length_be_bytes 4 (40 + zlen payload)). list_ext.
Qed.

Lemma fdt_append_exact_witness :
  ∃ rest, append SBoot 0 (ex_tree [1] ++ mjoin [ex_tree [2; 3]; ex_tree []] ++ [0; 0]) 4097 (replicate 100 0) registry_new =
            (Ok (4192, rest),
             mkRegistry [mkComponent SBoot None 0 (ex_tree [1]) false;
                         mkComponent SBoot None 4104 (ex_tree [2; 3]) false;
                         mkComponent SBoot None 4152 (ex_tree []) false]) ∧ zlen rest = 5.
Proof.
  apply (fdt_append_exact SBoot 0 (ex_tree [1]) [ex_tree [2; 3]; ex_tree []] [0; 0] 4097 (replicate 100 0) registry_new);
    [exact ex_fdt_documented|done| |by left|by_compute..].
  repeat constructor; by apply ex_tree_ok.
Defined.

Definition ex_entry (b : bytes) : DtTableEntry := mkDtEntry b (mkDtMetadata 7 1 [0; 0; 0; 0]).
Definition ex_table : DtTableImage := match from_bytes 4096 (ex_dt_table 3) with Ok t => t | _ => mkDtImage [] [] [] end.
