(* ===== verification/Misc.v ===== *)
(** * libmisc and helpers of libgbl

    Models src/gbl/libmisc/src/lib.rs (the bootloader message of the misc
    partition) and, of src/gbl/libgbl/src, boot_mode.rs, boot_reason.rs,
    constants.rs, digest.rs and decompress.rs. The gzip and LZ4 decoders are
    parameters. *)

From S2P Require Import Prelude LibError Text.

(** ** The bootloader message *)

(** gbl/libmisc/src/lib.rs:31-41, [AndroidBootMode]. *)
Inductive AndroidBootMode := BNormal | BRecovery | BootloaderBootOnce.
#[export] Instance AndroidBootMode_eq_dec : EqDecision AndroidBootMode.
Proof. solve_decision. Defined.

(** gbl/libmisc/src/lib.rs:44-50, [Display::fmt for AndroidBootMode]. *)
Definition show_boot_mode (m : AndroidBootMode) : string :=
  match m with
  | BNormal => "AndroidBootMode::Normal"
  | BRecovery => "AndroidBootMode::Recovery"
  | BootloaderBootOnce => "AndroidBootMode::BootloaderBootOnce"
  end.

(** gbl/libmisc/src/lib.rs:53-54, [COMMAND_FIELD_OFFSET]. *)
Definition COMMAND_FIELD_OFFSET : Z := 0.
(** gbl/libmisc/src/lib.rs:56-57, [COMMAND_FIELD_SIZE]. *)
Definition COMMAND_FIELD_SIZE : Z := 32.

(** gbl/libmisc/src/lib.rs:59-71, [BootloaderMessage]. *)
Record BootloaderMessage := mkBCB {
  command : bytes;
  status : bytes;
  recovery : bytes;
  stage : bytes;
  reserved : bytes;
}.
(** gbl/libmisc/src/lib.rs:74-75, [BootloaderMessage::SIZE_BYTES]. *)
Definition BCB_SIZE_BYTES : Z := 2048.

(** gbl/libmisc/src/lib.rs:77-85, [BootloaderMessage::from_bytes_ref]. *)
Definition bcb_from_bytes (buffer : bytes) : result BootloaderMessage :=
  b ← ok_or (get_range buffer 0 BCB_SIZE_BYTES) (BufferTooSmall (Some BCB_SIZE_BYTES));
  Ok (mkBCB (slice b 0 32) (slice b 32 32) (slice b 64 768) (slice b 832 32) (slice b 864 1184)).

(** The bytes of the packed structure. *)
Definition bcb_bytes (m : BootloaderMessage) : bytes := command m ++ status m ++ recovery m ++ stage m ++ reserved m.

(** gbl/libmisc/src/lib.rs:87-100, [BootloaderMessage::boot_mode]. *)
Definition boot_mode (m : BootloaderMessage) : result AndroidBootMode :=
  c ← ok_or (cstr_until_nul (command m)) (Other (Some "Cannot read BCB command"%string));
  if negb (is_utf8 c) then Err InvalidInput else
  if bool_decide (c = []) then Ok BNormal
  else if bool_decide (c = str "boot-recovery") || bool_decide (c = str "boot-fastboot") then Ok BRecovery
  else if bool_decide (c = str "bootonce-bootloader") then Ok BootloaderBootOnce
  else Err (Other (Some "Wrong BCB command"%string)).

(** ** Modes, reasons, images, digests *)

(** gbl/libgbl/src/boot_mode.rs:151-165, [BootMode]. *)
Inductive BootMode := ModeNormal | ModeRecovery | ModeBootloader.

(** gbl/libgbl/src/boot_reason.rs:19-48, [KnownBootReason]. *)
Inductive KnownBootReason :=
  | Watchdog | KernelPanic | ReasonRecovery | ReasonBootloader | Cold | Hard | Warm | Shutdown | Reboot.

(** gbl/libgbl/src/boot_reason.rs:51-68, [Display::fmt for KnownBootReason]. *)
Definition show_reason (r : KnownBootReason) : string :=
  match r with
  | Watchdog => "watchdog" | KernelPanic => "kernel_panic"
  | ReasonRecovery => "recovery" | ReasonBootloader => "bootloader"
  | Cold => "cold" | Hard => "hard" | Warm => "warm"
  | Shutdown => "shutdown" | Reboot => "reboot"
  end.

(** gbl/libgbl/src/constants.rs:61-73, [ImageName]. *)
Inductive ImageName := ZbiZircon | ZbiItems | ImgBoot | ImgFdt.

(** gbl/libgbl/src/constants.rs:76-84, [ImageName::alignment]. *)
Definition image_alignment (i : ImageName) : Z :=
  match i with ZbiZircon => 64 * 1024 | ZbiItems => 4 * 1024 | ImgBoot => 2 * 1024 * 1024 | ImgFdt => 8 end.
(** gbl/libgbl/src/constants.rs:88-96, [Display::fmt for ImageName]. *)
Definition show_image_name (i : ImageName) : bytes :=
  match i with
  | ZbiZircon => str "zbi_zircon" | ZbiItems => str "zbi_items" | ImgBoot => str "boot" | ImgFdt => str "fdt"
  end.
(** gbl/libgbl/src/constants.rs:102-110, [TryFrom<&str>::try_from for ImageName]. *)
Definition image_name_try_from (value : bytes) : result ImageName :=
  if bool_decide (value = str "zbi_zircon") then Ok ZbiZircon
  else if bool_decide (value = str "zbi_items") then Ok ZbiItems
  else if bool_decide (value = str "boot") then Ok ImgBoot
  else if bool_decide (value = str "fdt") then Ok ImgFdt
  else Err InvalidInput.

(** gbl/libgbl/src/digest.rs:17-24, [Algorithm]. *)
Inductive Algorithm := SHA256 | SHA512.

(** ** Decompression *)

(** The decoders: [DeflateDecoder::decode_gzip] of zune_inflate, and
    [decompress_into] of lz4_flex, which writes into the buffer that it is given
    and says how much. *)
Class Decoders := {
  decode_gzip : bytes → option bytes;
  decompress_into : bytes → bytes → option Z * bytes;
}.

(** gbl/libgbl/src/decompress.rs:25-26, [LZ4_NEXT_BLOCK_FAILED_ERROR_MESSAGE]. *)
Definition LZ4_NEXT_BLOCK_FAILED_ERROR_MESSAGE : string := "Failed to handle next block of lz4-compressed kernel".

Definition has_prefix (p s : bytes) : bool := bool_decide (take (length p) s = p).
(** gbl/libgbl/src/decompress.rs:28-31, [is_gzip_compressed]. *)
Definition is_gzip_compressed (data : bytes) : bool := has_prefix [0x1f; 0x8b] data.
(** gbl/libgbl/src/decompress.rs:33-36, [is_lz4_compressed]. *)
Definition is_lz4_compressed (data : bytes) : bool := has_prefix [0x02; 0x21; 0x4c; 0x18] data.

(** [slice::split_at_checked]. *)
Definition split_checked (n : Z) (b : bytes) : option (bytes * bytes) :=
  if n <=? zlen b then Some (slice b 0 n, slice b n (zlen b - n)) else None.

(** gbl/libgbl/src/decompress.rs:53-75, [Iterator::next for LZ4BlocksIterator]: the state is the data that are
    left. *)
Definition lz4_next (data : bytes) : option (result bytes) * bytes :=
  if bool_decide (data = []) then (None, data) else
  match split_checked 4 data with
  | None => (Some (Err (Other (Some LZ4_NEXT_BLOCK_FAILED_ERROR_MESSAGE))), data)
  | Some (block_size, data) =>
      let block_size := le_val block_size in
      if block_size =? 0 then (None, data) else
      match split_checked block_size data with
      | None => (Some (Err (Other (Some LZ4_NEXT_BLOCK_FAILED_ERROR_MESSAGE))), data)
      | Some (block_content, data) => (Some (Ok block_content), data)
      end
  end.

Section Decompress.
Context `{!Decoders}.

(** gbl/libgbl/src/decompress.rs:78-96, [decompress_lz4]: from [out_pos] on. Every block takes a part of the
    data, whose length bounds [fuel]. *)
Fixpoint lz4_blocks (fuel : nat) (data : bytes) (out_pos : Z) : ST bytes Error Z :=
  match fuel with
  | O => lift Panic
  | S fuel =>
      match lz4_next data with
      | (None, _) => mret out_pos
      | (Some (Ok block), data) =>
          out ← gets id;
          rest ← lift (index_from out out_pos);
          let '(n, rest) := decompress_into block rest in
          modify (λ out, splice out out_pos rest);;
          n ← lift (ok_or n (Other (Some "Failed to decompress lz4 block"%string)));
          out_pos ← lift (arith 64 (out_pos + n));
          lz4_blocks fuel data out_pos
      | (Some (Err e), _) => raise e
      | (Some Panic, _) => lift Panic
      end
  end.
(** gbl/libgbl/src/decompress.rs:78-96, [decompress_lz4]. *)
Definition decompress_lz4 (content : bytes) : ST bytes Error Z := lz4_blocks (S (length content)) content 0.

(** [out.get_mut(..data.len())] filled with the data. *)
Definition copy_out (data : bytes) : ST bytes Error Z :=
  out ← gets id;
  lift (ok_or (get_range out 0 (zlen data)) (BufferTooSmall (Some (zlen data))));;
  modify (λ out, splice out 0 data);;
  mret (zlen data).

(** gbl/libgbl/src/decompress.rs:98-113, [decompress_gzip]. *)
Definition decompress_gzip (content : bytes) : ST bytes Error Z :=
  decompressed_data ← lift (ok_or (decode_gzip content) (Other (Some "Failed to decompress gzip data"%string)));
  copy_out decompressed_data.

(** gbl/libgbl/src/decompress.rs:115-145, [decompress_kernel]: into the buffer that is the state. *)
Definition decompress_kernel (kernel : bytes) : ST bytes Error Z :=
  if is_gzip_compressed kernel then decompress_gzip kernel
  else if is_lz4_compressed kernel then
    without_magic ← lift (index_from kernel 4);
    decompress_lz4 without_magic
  else copy_out kernel.
End Decompress.

(** ** Properties *)

(** A frame of blocks; it ends with the data or with an end marker. *)
Definition lz4_block (b : bytes) : bytes := le_bytes 4 (zlen b) ++ b.
Definition lz4_end (e : bytes) : Prop := e = [] ∨ ∃ junk, e = le_bytes 4 0 ++ junk.
Definition block_fits (b : bytes) : Prop := 0 < zlen b < 2 ^ 32.

Lemma split_checked_app a b : split_checked (zlen a) (a ++ b) = Some (a, b).
Proof.
  unfold split_checked. rewrite length_app, (proj2 (Z.leb_le _ _)) by lia. f_equal. f_equal; list_ext.
Qed.

Lemma splice_app_r (a b d : bytes) : length d = length b → splice (a ++ b) (zlen a) d = a ++ d.
Proof.
  intros Hd. unfold splice. rewrite Nat2Z.id, take_app_length, drop_ge by (rewrite length_app; lia). by rewrite app_nil_r.
Qed.

Lemma lz4_next_block b rest : block_fits b → lz4_next (lz4_block b ++ rest) = (Some (Ok b), rest).
Proof.
  intros Hb. unfold lz4_next, lz4_block, block_fits in *. rewrite bool_decide_false by by intros [=].
  rewrite <- app_assoc. pose proof (split_checked_app (le_bytes 4 (zlen b)) (b ++ rest)) as E.
  rewrite length_le_bytes in E. change (Z.of_nat 4) with 4 in E. rewrite E.
  rewrite le_val_bytes by (change (256 ^ Z.of_nat 4) with (2 ^ 32); lia).
  rewrite (proj2 (Z.eqb_neq _ _)) by lia. by rewrite split_checked_app.
Qed.

Lemma lz4_next_end e : lz4_end e → (lz4_next e).1 = None.
Proof.
  intros [-> |[junk ->]]; [done|]. unfold lz4_next. rewrite bool_decide_false by by intros [=].
  by rewrite (split_checked_app (le_bytes 4 0) junk : split_checked 4 _ = _).
Qed.

(** What is documented of the LZ4 decoder: a block that decodes to [p] is written
    to the start of a buffer that is large enough. *)
Definition lz4_documented `{!Decoders} (plain : bytes → option bytes) : Prop :=
  ∀ b p out, plain b = Some p → zlen p ≤ zlen out →
    ∃ rest, decompress_into b out = (Some (zlen p), p ++ rest) ∧ length (p ++ rest) = length out.

Lemma lz4_blocks_run `{!Decoders} plain bs ps e done_ out fuel :
  lz4_documented plain → Forall block_fits bs → Forall2 (λ b p, plain b = Some p) bs ps → lz4_end e →
  zlen (done_ ++ mjoin ps) ≤ zlen (done_ ++ out) < 2 ^ 64 → (length bs < fuel)%nat →
  ∃ rest, lz4_blocks fuel (mjoin (lz4_block <$> bs) ++ e) (zlen done_) (done_ ++ out) =
            (Ok (zlen (done_ ++ mjoin ps)), done_ ++ mjoin ps ++ rest) ∧
          length (mjoin ps ++ rest) = length out.
Proof.
  intros Hdoc Hbs Hps He. revert done_ out fuel Hbs.
  induction Hps as [|b p bs ps Hp _ IH]; intros done_ out [|fuel] Hbs Hfit Hf; [simpl in Hf; lia| |simpl in Hf; lia|].
  - exists out. cbn [lz4_blocks fmap list_fmap]. change (mjoin [] ++ e) with e.
    pose proof (lz4_next_end e He) as Hn. destruct (lz4_next e) as [n ?]. simpl in Hn. subst n.
    split; [|done]. change (mjoin []) with (@nil Z). by rewrite app_nil_r.
  - apply Forall_cons in Hbs as [Hb Hbs]. cbn [lz4_blocks fmap list_fmap].
    change (mjoin (lz4_block b :: (lz4_block <$> bs))) with (lz4_block b ++ mjoin (lz4_block <$> bs)).
    change (mjoin (p :: ps)) with (p ++ mjoin ps) in *. rewrite <- app_assoc, lz4_next_block by done.
    rewrite !length_app in Hfit. rewrite bind_run. unfold gets at 1, id. rewrite bind_run, lift_run.
    unfold index_from. rewrite index_range_ok by (rewrite ?length_app; lia).
    replace (slice (done_ ++ out) (zlen done_) (zlen (done_ ++ out) - zlen done_)) with out by (symmetry; list_ext).
    destruct (Hdoc b p out Hp ltac:(lia)) as (rest & -> & Hrest). rewrite bind_run. unfold modify at 1.
    rewrite splice_app_r, app_assoc by done.
    rewrite bind_run, lift_run. cbn [ok_or]. rewrite bind_run, lift_run, arith_ok by lia.
    replace (zlen done_ + zlen p) with (zlen (done_ ++ p)) by (rewrite length_app; lia).
    rewrite length_app in Hrest.
    destruct (IH (done_ ++ p) rest fuel) as (rest' & -> & Hr'); [done|rewrite !length_app; lia|simpl in Hf; lia|].
    exists rest'. rewrite <- !app_assoc. split; [done|]. rewrite !length_app in *. lia.
Qed.

(** An LZ4 kernel is decompressed exactly: the blocks of the frame, each
    decoded, one after the other at the start of the buffer, with their total
    size, if they fit; the loop ends. *)
Theorem decompress_lz4_exact `{!Decoders} plain bs ps e out :
  lz4_documented plain → Forall block_fits bs → Forall2 (λ b p, plain b = Some p) bs ps → lz4_end e →
  zlen (mjoin ps) ≤ zlen out < 2 ^ 64 →
  ∃ rest, decompress_kernel ([0x02; 0x21; 0x4c; 0x18] ++ mjoin (lz4_block <$> bs) ++ e) out =
            (Ok (zlen (mjoin ps)), mjoin ps ++ rest) ∧ length (mjoin ps ++ rest) = length out.
Proof.
  intros Hdoc Hbs Hps He Hfit. unfold decompress_kernel. cbn [is_gzip_compressed has_prefix].
  change (is_gzip_compressed _) with false. change (is_lz4_compressed _) with true. cbv iota.
  set (content := mjoin (lz4_block <$> bs) ++ e). rewrite bind_run, lift_run. unfold index_from.
  rewrite index_range_ok by (rewrite ?length_app; simpl; lia).
  unfold slice. rewrite take_ge by (rewrite length_drop; lia).
  change (drop (Z.to_nat 4) ([2; 33; 76; 24] ++ content)) with content.
  apply (lz4_blocks_run plain bs ps e [] out (S (length content)) Hdoc Hbs Hps He); [exact Hfit|].
  unfold content. rewrite length_app. clear. induction bs as [|b bs IH]; [simpl; lia|].
  change (mjoin (lz4_block <$> b :: bs)) with (lz4_block b ++ mjoin (lz4_block <$> bs)).
  rewrite length_app. unfold lz4_block at 1. rewrite length_app, length_le_bytes. simpl. lia.
Qed.

(** Blocks that are their own contents. *)
#[local] Instance stored : Decoders := {|
  decode_gzip _ := None;
  decompress_into b out := if zlen b <=? zlen out then (Some (zlen b), splice out 0 b) else (None, out);
|}.
Lemma decompress_lz4_exact_witness :
  ∃ rest, decompress_kernel ([0x02; 0x21; 0x4c; 0x18] ++ mjoin (lz4_block <$> [[1; 2]; [3]]) ++ [0; 0; 0; 0; 9]) (replicate 5 7) =
            (Ok 3, [1; 2; 3] ++ rest) ∧ length ([1; 2; 3] ++ rest) = 5%nat.
Proof.
  apply (decompress_lz4_exact Some [[1; 2]; [3]] [[1; 2]; [3]] [0; 0; 0; 0; 9] (replicate 5 7)).
  - intros b p out [= <-] Hl. exists (drop (length b) out). simpl. rewrite (proj2 (Z.leb_le _ _)) by done.
    split; [do 2 f_equal; list_ext|]. rewrite length_app, length_drop. lia.
  - repeat constructor; by_compute.
  - by repeat constructor.
  - right. by exists [9].
  - by_compute.
Defined.

(** The message that is written to the misc partition is read back. *)
Lemma bcb_roundtrip m rest :
  length (command m) = 32%nat → length (status m) = 32%nat → length (recovery m) = 768%nat →
  length (stage m) = 32%nat → length (reserved m) = 1184%nat →
  bcb_from_bytes (bcb_bytes m ++ rest) = Ok m.
Proof.
  intros H1 H2 H3 H4 H5. destruct m as [c s r g v]. unfold bcb_bytes, bcb_from_bytes. cbn [command status recovery stage reserved] in *.
  assert (Hl : zlen (c ++ s ++ r ++ g ++ v) = 2048) by (rewrite !length_app; lia).
  unfold BCB_SIZE_BYTES. rewrite get_range_Some by (rewrite ?(length_app _ rest); lia).
  cbn [ok_or mbind outcome_bind]. rewrite slice_app_l by lia. f_equal. f_equal; list_ext.
Qed.
