(* ===== verification/AndroidLoad.v ===== *)
(** * libgbl: loading Android images

    Models src/gbl/libgbl/src/android_boot/load.rs. The load buffer is bytes at
    an address; the slices that the code borrows from it are offsets and
    lengths, and what is written through them is written to the buffer. The boot
    image library, whose headers the code reads, the decoders, libavb and the
    platform are parameters. The contents of the load buffer after an error are
    not modelled; its owner does not read them. *)

From S2P Require Import Prelude SafeMath LibError Text Utils Abr Block Disk Partition.
From S2P Require Import GblOps.
From S2P Require Import BootParams Avb Misc DeviceTree.
Import SafeNum.

(** ** Boot image headers *)

(** The fields of the headers that are used, and the errors of parsing. Every
    version of a header extends the one before it. *)
Record boot_img_hdr_v0 := mkHdr0 {
  v0_kernel_size : Z; v0_ramdisk_size : Z; v0_second_size : Z; v0_page_size : Z; v0_cmdline : bytes }.
Record boot_img_hdr_v3 := mkHdr3 { v3_kernel_size : Z; v3_ramdisk_size : Z; v3_cmdline : bytes }.
Inductive BootImage :=
  | V0 (h : boot_img_hdr_v0)
  | V1 (h : boot_img_hdr_v0) (recovery_dtbo_offset recovery_dtbo_size : Z)
  | V2 (h : boot_img_hdr_v0) (recovery_dtbo_offset recovery_dtbo_size dtb_size : Z)
  | V3 (h : boot_img_hdr_v3)
  | V4 (h : boot_img_hdr_v3) (signature_size : Z).
Record vendor_boot_img_hdr_v3 := mkVendorHdr3 {
  vb_page_size : Z; vb_vendor_ramdisk_size : Z; vb_dtb_size : Z; vb_cmdline : bytes }.
Inductive VendorImageHeader :=
  | VendorV3 (h : vendor_boot_img_hdr_v3)
  | VendorV4 (h : vendor_boot_img_hdr_v3) (vendor_ramdisk_table_size bootconfig_size : Z).
Inductive ImageError := ImgBufferTooSmall | ImgBadMagic | ImgUnexpectedVersion | ImgOther.

(** The boot image library: parsing, and the sizes of the vendor headers. *)
Class BootImgLib := {
  boot_image_parse : bytes → outcome ImageError BootImage;
  vendor_image_parse : bytes → outcome ImageError VendorImageHeader;
  vendor_v3_len : Z;
  vendor_v4_len : Z;
}.

(** gbl/libbootimg/src/lib.rs:27-36, [From<ImageError> for Error]. *)
Definition error_of_image (e : ImageError) : Error :=
  match e with
  | ImgBufferTooSmall => BufferTooSmall None
  | ImgBadMagic => BadMagic
  | ImgUnexpectedVersion => UnsupportedVersion
  | ImgOther => Other None
  end.

(** gbl/libgbl/src/android_boot/mod.rs:49-52, [cstr_bytes_to_str]. *)
Definition cstr_bytes_to_str (data : bytes) : result bytes :=
  c ← ok_or (cstr_until_nul data) InvalidInput;
  if is_utf8 c then Ok c else Err InvalidInput.

(** ** Names *)

(** gbl/libgbl/src/android_boot/load.rs:45-52, [SlotSuffix::new]: the text of the suffix. *)
Definition slot_suffix_new (slot : Z) : result bytes :=
  let suffix := slot + 97 in
  if (97 <=? suffix) && (suffix <=? 122) then Ok [95; suffix]
  else Err (Other (Some "Invalid slot index"%string)).

(** gbl/libgbl/src/android_boot/load.rs:68-73, [slotted_part]: every name that is used fits. *)
Definition slotted_part (part : string) (slot : Z) : result bytes :=
  suffix ← slot_suffix_new slot;
  Ok (str part ++ suffix).

(** ** Ranges *)

(** [Range<usize>]. *)
Record Range := mkRange { r_start : Z; r_end : Z }.
(** [Range::len]. *)
Definition range_len (r : Range) : Z := Z.max 0 (r_end r - r_start r).

(** gbl/libgbl/src/android_boot/load.rs:75-84, [page_aligned_range]. *)
Definition page_aligned_range (start sz page_size : SafeNum) : result Range :=
  a ← into_u64 start;
  b ← into_u64 (round_up here (start +! sz) page_size);
  Ok (mkRange a b).

(** gbl/libgbl/src/android_boot/load.rs:86-104, [BootImageV2Info]. *)
Record BootImageV2Info := mkV2 {
  v2_cmdline : bytes;
  v2_page_size : Z;
  v2_kernel_range : Range;
  v2_ramdisk_range : Range;
  v2_dtb_range : Range;
  v2_dtb_sz : Z;
  v2_image_size : Z;
}.

(** gbl/libgbl/src/android_boot/load.rs:142-147, [BootImageV3Info]. *)
Record BootImageV3Info := mkV3 { v3_kernel_range : Range; v3_ramdisk_range : Range; v3_image_size : Z }.

(** gbl/libgbl/src/android_boot/load.rs:181-195, [VendorBootImageInfo]. *)
Record VendorBootImageInfo := mkVendor {
  vb_header_size : Z;
  vb_ramdisk_range : Range;
  vb_dtb_range : Range;
  vb_dtb_sz : Z;
  vb_bootconfig_range : Range;
  vb_image_size : Z;
}.

Section Headers.
Context `{!BootImgLib}.

(** gbl/libgbl/src/android_boot/load.rs:107-139, [BootImageV2Info::new]. *)
Definition boot_image_v2_info (buffer : bytes) : result BootImageV2Info :=
  header ← map_err error_of_image (boot_image_parse buffer);
  '(v0, off, sz, dtb_sz) ← match header with
                           | V3 _ | V4 _ _ => Err InvalidInput
                           | V0 h => Ok (h, None, 0, 0)
                           | V1 h off sz => Ok (h, Some off, sz, 0)
                           | V2 h off sz dtb => Ok (h, Some off, sz, dtb)
                           end;
  let page_size := Val (v0_page_size v0) in
  cmdline ← cstr_bytes_to_str (v0_cmdline v0);
  kernel_range ← page_aligned_range page_size (Val (v0_kernel_size v0)) page_size;
  ramdisk_range ← page_aligned_range (Val (r_end kernel_range)) (Val (v0_ramdisk_size v0)) page_size;
  second_range ← page_aligned_range (Val (r_end ramdisk_range)) (Val (v0_second_size v0)) page_size;
  let start := r_end second_range in
  let off := default start off in
  recovery_dtb_range ←
    (if start <=? off then page_aligned_range (Val off) (Val sz) page_size
     else if off =? 0 then page_aligned_range (Val start) (Val 0) page_size
     else Err (Other (Some "Unexpected recovery_dtbo_offset"%string)));
  dtb_range ← page_aligned_range (Val (r_end recovery_dtb_range)) (Val dtb_sz) page_size;
  Ok (mkV2 cmdline (v0_page_size v0) kernel_range ramdisk_range dtb_range dtb_sz (r_end dtb_range)).

(** gbl/libgbl/src/android_boot/load.rs:169-173, [BootImageV3Info::v3]: of a buffer that was parsed. *)
Definition v3_header (buffer : bytes) : result boot_img_hdr_v3 :=
  match boot_image_parse buffer with
  | Ok (V3 h) | Ok (V4 h _) => Ok h
  | _ => Panic
  end.

(** gbl/libgbl/src/android_boot/load.rs:150-167, [BootImageV3Info::new]. *)
Definition boot_image_v3_info (buffer : bytes) : result BootImageV3Info :=
  header ← map_err error_of_image (boot_image_parse buffer);
  '(v3, sz) ← match header with
              | V3 h => Ok (h, 0)
              | V4 h sz => Ok (h, sz)
              | _ => Err InvalidInput
              end;
  let page_size := Val PAGE_SIZE in
  kernel_range ← page_aligned_range page_size (Val (v3_kernel_size v3)) page_size;
  ramdisk_range ← page_aligned_range (Val (r_end kernel_range)) (Val (v3_ramdisk_size v3)) page_size;
  signature_range ← page_aligned_range (Val (r_end ramdisk_range)) (Val sz) page_size;
  Ok (mkV3 kernel_range ramdisk_range (r_end signature_range)).

(** gbl/libgbl/src/android_boot/load.rs:175-178, [BootImageV3Info::cmdline]. *)
Definition boot_image_v3_cmdline (buffer : bytes) : result bytes :=
  h ← v3_header buffer; cstr_bytes_to_str (v3_cmdline h).

(** gbl/libgbl/src/android_boot/load.rs:223-226, [VendorBootImageInfo::v3]. *)
Definition vendor_v3 (header : VendorImageHeader) : vendor_boot_img_hdr_v3 :=
  match header with VendorV3 h | VendorV4 h _ _ => h end.

(** gbl/libgbl/src/android_boot/load.rs:198-221, [VendorBootImageInfo::new]. *)
Definition vendor_boot_image_info (buffer : bytes) : result VendorBootImageInfo :=
  header ← map_err error_of_image (vendor_image_parse buffer);
  let v3 := vendor_v3 header in
  let page_size := Val (vb_page_size v3) in
  header_size ← into_u64 (round_up here
    (Val (match header with VendorV3 _ => vendor_v3_len | VendorV4 _ _ _ => vendor_v4_len end)) page_size);
  ramdisk_range ← page_aligned_range (Val header_size) (Val (vb_vendor_ramdisk_size v3)) page_size;
  let dtb_sz := vb_dtb_size v3 in
  dtb_range ← page_aligned_range (Val (r_end ramdisk_range)) (Val dtb_sz) page_size;
  let '(table_sz, bootconfig_sz) :=
    match header with VendorV4 _ table bootconfig => (table, bootconfig) | VendorV3 _ => (0, 0) end in
  table ← page_aligned_range (Val (r_end dtb_range)) (Val table_sz) page_size;
  bootconfig_end ← arith 64 (r_end table + bootconfig_sz);
  image_size ← into_u64 (round_up here (Val bootconfig_end) page_size);
  Ok (mkVendor header_size ramdisk_range dtb_range dtb_sz (mkRange (r_end table) bootconfig_end) image_size).

(** gbl/libgbl/src/android_boot/load.rs:228-231, [VendorBootImageInfo::cmdline]: of a buffer that was parsed. *)
Definition vendor_cmdline_of (buffer : bytes) : result bytes :=
  match vendor_image_parse buffer with
  | Ok header => cstr_bytes_to_str (vb_cmdline (vendor_v3 header))
  | _ => Panic
  end.
End Headers.

(** gbl/libgbl/src/android_boot/load.rs:234-252, [LoadedImages]: slices of the load buffer. *)
Record LoadedImages := mkImages {
  im_dtbo : Range;
  im_boot_cmdline : bytes;
  im_vendor_cmdline : bytes;
  im_dtb : Range;
  im_dtb_part : Range;
  im_kernel : Range;
  im_ramdisk : Range;
  im_unused : Range;
}.

(** gbl/libgbl/src/android_boot/load.rs:255-266, [Default::default for LoadedImages]. *)
Definition loaded_default : LoadedImages :=
  let e := mkRange 0 0 in mkImages e [] [] e e e e e.

(** ** Splitting buffers

    A slice of the load buffer is a range; [base] is the address of the load
    buffer. *)

(** gbl/libgbl/src/android_boot/load.rs:635-638, [split]. *)
Definition split_range (r : Range) (size : Z) : result (Range * Range) :=
  if size <=? range_len r then Ok (mkRange (r_start r) (r_start r + size), mkRange (r_start r + size) (r_end r))
  else Err (BufferTooSmall (Some size)).

(** gbl/libgbl/src/android_boot/load.rs:640-648, [aligned_tail_offset]. *)
Definition aligned_tail_offset (base : Z) (r : Range) (size align : Z) : result Z :=
  let off := from_int here TUsize (range_len r) -! from_int here TUsize size in
  o ← into_u64 off;
  if range_len r <? o then Panic else
  let rem := (base + r_start r + o) mod align in
  into_u64 (off -! from_int here TUsize rem).

(** gbl/libgbl/src/android_boot/load.rs:650-658, [split_aligned_tail]. *)
Definition split_aligned_tail (base : Z) (r : Range) (size align : Z) : result (Range * Range) :=
  off ← aligned_tail_offset base r size align;
  split_range r off.

(** gbl/libgbl/src/android_boot/load.rs:660-673, [split_chunks]: of the range; [split_at_mut] panics if a size is
    too large. *)
Fixpoint split_chunks (r : Range) (sizes : list Z) : result (list Range * Range) :=
  match sizes with
  | [] => Ok ([], r)
  | sz :: sizes =>
      '(chunk, remains) ← unwrap_res (split_range r sz);
      '(chunks, remains) ← split_chunks remains sizes;
      Ok (chunk :: chunks, remains)
  end.

(** The bytes of a range. *)
Definition at_range (l : bytes) (r : Range) : bytes := slice l (r_start r) (range_len r).
(** [copy_within], and [get] of a range; both panic here when the range is not in the buffer. *)
Definition copy_range (l : bytes) (src : Range) (dst : Z) : result bytes :=
  d ← index_range l (r_start src) (r_end src);
  if dst + zlen d <=? zlen l then Ok (splice l dst d) else Panic.

(** gbl/libgbl/src/android_boot/load.rs:717-720, [offset_range]. *)
Definition offset_range (r : Range) (off : Z) : result Range :=
  a ← arith 64 (r_start r + off); b ← arith 64 (r_end r + off); Ok (mkRange a b).

Section Relocate.
Context `{!Decoders}.

(** gbl/libgbl/src/android_boot/load.rs:699-715, [relocate_kernel]: into the range [dst] of the load buffer at
    [base]; the unused prefix, the relocated tail and the size of the kernel. *)
Definition relocate_kernel (base : Z) (load : bytes) (kernel : bytes) (dst : Range)
    : result (bytes * (Range * Range * Z)) :=
  let '(r, d) := decompress_kernel kernel (at_range load dst) in
  decompressed_size ← r;
  off ← aligned_tail_offset base dst decompressed_size KERNEL_ALIGNMENT;
  d ← copy_range d (mkRange 0 decompressed_size) off;
  '(prefix, tail) ← split_range dst off;
  Ok (splice load (r_start dst) d, (prefix, tail, decompressed_size)).
End Relocate.

(** ** Boot images of version 2 and lower *)

Section V2.
Context `{!Decoders} `{!BootImgLib}.

(** gbl/libgbl/src/android_boot/load.rs:330-415, [load_verify_v2_and_lower]: what follows the verification, on the
    load buffer at [base]: the boot image of [boot_size] bytes, then the
    bootconfig. The kernel and the device tree go to the tail, the ramdisk to the
    front, with the bootconfig behind it. *)
Definition arrange_v2 (base : Z) (load : bytes) (boot_size bootconfig_size : Z) : result (bytes * LoadedImages) :=
  let n := boot_size + bootconfig_size in
  boot_ex ← index_range load 0 n;
  boot_img ← unwrap_res (boot_image_v2_info boot_ex);
  let kernel_range := v2_kernel_range boot_img in
  kernel ← unwrap (get_range boot_ex (r_start kernel_range) (r_end kernel_range));
  '(load, (remains, _, kernel_sz)) ← relocate_kernel base load kernel (mkRange n (zlen load));
  let dtb_range := v2_dtb_range boot_img in
  '(_, dtb) ← split_aligned_tail base remains (range_len dtb_range) FDT_ALIGNMENT;
  dtb_bytes ← unwrap (get_range boot_ex (r_start dtb_range) (r_end dtb_range));
  let load := splice load (r_start dtb) dtb_bytes in
  let ramdisk_range := v2_ramdisk_range boot_img in
  boot_ex ← copy_range boot_ex ramdisk_range (r_start kernel_range);
  boot_ex ← copy_range boot_ex (mkRange boot_size n) (r_start kernel_range + range_len ramdisk_range);
  let load := splice load 0 boot_ex in
  let page_size := v2_page_size boot_img in
  let ramdisk_sz := range_len ramdisk_range + bootconfig_size in
  unused_sz ← arith 64 (r_start dtb - page_size - ramdisk_sz);
  dtb_padding ← arith 64 (range_len dtb - v2_dtb_sz boot_img);
  '(chunks, _) ← split_chunks (mkRange 0 (zlen load))
                   [page_size; ramdisk_sz; unused_sz; v2_dtb_sz boot_img; dtb_padding; kernel_sz];
  match chunks with
  | [hdr; ramdisk; unused; dtb; _; kernel] =>
      img ← unwrap_res (boot_image_v2_info (at_range load hdr));
      Ok (load, mkImages (mkRange 0 0) (v2_cmdline img) [] dtb (mkRange 0 0) kernel ramdisk unused)
  | _ => Panic
  end.
End V2.

(** ** Boot images of version 3 and 4 *)

Section V3.
Context `{!Decoders} `{!BootImgLib}.

(** gbl/libgbl/src/android_boot/load.rs:417-628, [load_verify_v3_and_v4]: what follows the verification, on the load
    buffer at [base]: the vendor boot image, the boot image, the init boot image
    if there is one, then the bootconfig. The kernel, the boot header and the
    device tree go to the tail, the generic ramdisk behind the vendor ramdisk,
    and the bootconfig behind both. *)
Definition arrange_v3 (base : Z) (load : bytes) (vendor_boot_info : VendorBootImageInfo)
    (boot_img_info : BootImageV3Info) (init_boot_info : option BootImageV3Info) (bootconfig_size : Z)
    : result (bytes * LoadedImages) :=
  let boot_off := vb_image_size vendor_boot_info in
  let init_boot_off := boot_off + v3_image_size boot_img_info in
  let bootconfig_off := init_boot_off + match init_boot_info with Some v => v3_image_size v | None => 0 end in
  vendor_boot ← index_range load 0 boot_off;
  boot ← index_range load boot_off init_boot_off;
  index_range (E := Error) load 0 (bootconfig_off + bootconfig_size);;
  kernel ← unwrap (get_range boot (r_start (v3_kernel_range boot_img_info)) (r_end (v3_kernel_range boot_img_info)));
  '(load, (remains, kernel, kernel_sz)) ←
    relocate_kernel base load kernel (mkRange (bootconfig_off + bootconfig_size) (zlen load));
  let kernel_buf_len := range_len kernel in
  '(remains, boot_hdr) ← split_aligned_tail base remains PAGE_SIZE 1;
  hdr ← index_range boot 0 PAGE_SIZE;
  (if negb (range_len boot_hdr =? zlen hdr) then Panic else Ok tt);;
  let load := splice load (r_start boot_hdr) hdr in
  let boot_hdr_sz := range_len boot_hdr in
  dtb ← unwrap (get_range vendor_boot (r_start (vb_dtb_range vendor_boot_info)) (r_end (vb_dtb_range vendor_boot_info)));
  '(_, dtb_reloc) ← split_aligned_tail base remains (zlen dtb) FDT_ALIGNMENT;
  let load := splice load (r_start dtb_reloc) dtb in
  let dtb_sz := vb_dtb_sz vendor_boot_info in
  dtb_pad ← arith 64 (range_len dtb_reloc - dtb_sz);
  generic_ramdisk_range ← match init_boot_info with
                          | Some v => offset_range (v3_ramdisk_range v) init_boot_off
                          | None => offset_range (v3_ramdisk_range boot_img_info) boot_off
                          end;
  let vendor_ramdisk_range := vb_ramdisk_range vendor_boot_info in
  bootconfig_range ← offset_range (mkRange 0 bootconfig_size) bootconfig_off;
  load ← copy_range load generic_ramdisk_range (r_end vendor_ramdisk_range);
  load ← copy_range load bootconfig_range (r_end vendor_ramdisk_range + range_len generic_ramdisk_range);
  let ramdisk_sz := range_len vendor_ramdisk_range + range_len generic_ramdisk_range + bootconfig_size in
  let vendor_hdr_sz := vb_header_size vendor_boot_info in
  unused_sz ← arith 64 (zlen load - vendor_hdr_sz - ramdisk_sz - boot_hdr_sz - dtb_sz - dtb_pad - kernel_buf_len);
  '(chunks, _) ← split_chunks (mkRange 0 (zlen load))
                   [vendor_hdr_sz; ramdisk_sz; unused_sz; dtb_sz; dtb_pad; boot_hdr_sz; kernel_sz];
  match chunks with
  | [vendor_hdr; ramdisk; unused; dtb; _; boot_hdr; kernel] =>
      boot_cmdline ← boot_image_v3_cmdline (at_range load boot_hdr);
      vendor_cmdline ← vendor_cmdline_of (at_range load vendor_hdr);
      Ok (load, mkImages (mkRange 0 0) boot_cmdline vendor_cmdline dtb (mkRange 0 0) kernel ramdisk unused)
  | _ => Panic
  end.
End V3.

(** ** Loading and verifying *)

(** What the Android boot flow uses of the platform besides AVB. A fixup writes
    into the buffer that it gets and says how much of it; the component registry
    and the device tree are changed in place. *)
Class AndroidPlatform (G : Type) := {
  fixup_bootconfig : bytes → ST (G * bytes) Error (option Z);
  get_custom_device_tree : ST G Error (option (Z * bytes));
  fixup_os_commandline : bytes → ST (G * bytes) Error (option Z);
  select_device_trees : ST (G * DeviceTreeComponentsRegistry) Error unit;
  fixup_device_tree : ST (G * bytes) Error unit;
}.

Section Load.
Context {D G ZE : Type} `{!BlockIo D} `{!AvbPlatform G} `{!LibAvb D G} `{!AndroidPlatform G}.
Context `{!Decoders} `{!BootImgLib} (BUILD_NUMBER : option bytes).
Abbreviation AError := (IntegrationError SlotVerifyError ZE).
Abbreviation M := (ST (list (GblDisk D) * G) AError).
(** The bootconfig is built beside the devices and the platform. *)
Abbreviation BC := (ST (BootConfigBuilder * (list (GblDisk D) * G)) AError).

Definition unify_err {A} (r : result A) : outcome AError A := map_err UnificationError r.

(** A read of a partition, from its start, into a range of the load buffer at
    [base]; the new contents of the load buffer. *)
Definition read_range (part : bytes) (base : Z) (load : bytes) (r : Range) : M bytes := λ s,
  let '(res, (devs, d)) := ops_read_sync (snd s) part (base + r_start r) 0 (fst s, at_range load r) in
  (unify_err (_ ← res; Ok (splice load (r_start r) d)), (devs, snd s)).

(** gbl/libgbl/src/android_boot/load.rs:675-697, [load_entire_part]: into the range [load_range]; the loaded range
    and the rest. *)
Definition load_entire_part (part : bytes) (base : Z) (load : bytes) (load_range : Range) : M (bytes * (Range * Range)) :=
  devs ← gets fst;
  size ← lift (unify_err (ops_partition_size devs part));
  match size with
  | Some sz =>
      '(out, remains) ← lift (unify_err (split_range load_range sz));
      load ← read_range part base load out;
      mret (load, (out, remains))
  | None => mret (load, (mkRange 0 0, load_range))
  end.

(** Operations of the builder. *)
Definition on_builder {A} (m : ST BootConfigBuilder Error A) : BC A := λ s,
  let '(r, b) := m (fst s) in (unify_err r, (b, snd s)).
Fixpoint write_all (pieces : list bytes) : ST BootConfigBuilder Error unit :=
  match pieces with
  | [] => mret tt
  | p :: pieces =>
      (λ b, let '(r, b) := bc_write_str p b in (map_err (λ _, Unsupported) r, b));;
      write_all pieces
  end.

(** gbl/libgbl/src/android_boot/load.rs:39-39, [DEFAULT_BUILD_ID]. *)
Definition DEFAULT_BUILD_ID : bytes := str "eng.build".

(** gbl/libgbl/src/android_boot/load.rs:269-328, [android_load_verify]: the lines that are added to the
    bootconfig. *)
Definition add_bootconfig (is_recovery : bool) (slot_suffix : bytes) : ST BootConfigBuilder Error unit :=
  (if negb is_recovery then bc_add (str "androidboot.force_normal_boot=1" ++ [10]) else mret tt);;
  write_all [str "androidboot.slot_suffix="; slot_suffix; [10]];;
  bc_add (str "androidboot.gbl.version=0" ++ [10]);;
  let build_number := match BUILD_NUMBER with
                      | Some n => if bool_decide (n = []) then DEFAULT_BUILD_ID else n
                      | None => DEFAULT_BUILD_ID
                      end in
  write_all [str "androidboot.gbl.build_number="; build_number; [10]].

(** [add_with] of a callback that uses the platform: called with the contents and
    the free part. *)
Definition add_with_platform (f : bytes → ST (G * bytes) Error Z) : BC unit := λ '(b, (devs, g)),
  match (n ← bc_remaining_capacity b;
         cur ← index_range (bc_buffer b) 0 (bc_size b);
         rest ← index_from (bc_buffer b) (bc_size b);
         free ← index_range rest 0 n;
         Ok (cur, free)) with
  | Ok (cur, free) =>
      let '(r, (g, free)) := f cur (g, free) in
      let '(r, b) := bc_add_with (λ _ _, (r, free)) b in
      (unify_err r, (b, (devs, g)))
  | Err e => (Err (UnificationError e), (b, (devs, g)))
  | Panic => (Panic, (b, (devs, g)))
  end.

(** gbl/libgbl/src/android_boot/load.rs:330-415, [load_verify_v2_and_lower]: the verification and the bootconfig,
    which the versions share. *)
Definition verify_and_configure (slot : Z) (to_verify : PartitionsToVerify)
    (add : ST BootConfigBuilder Error unit) : BC unit :=
  avb_verify_slot slot to_verify;;
  on_builder add;;
  add_with_platform (λ cur, n ← fixup_bootconfig cur; mret (default 0 n)).

(** Code that builds a bootconfig in a range of the load buffer; what it leaves
    there, and the size of the bootconfig. *)
Definition with_bootconfig (load : bytes) (r : Range) (m : BC unit) : M (bytes * Z) := λ s,
  match bc_new (at_range load r) with
  | Ok b =>
      let '(res, (b, s)) := m (b, s) in
      (res;; unify_err (c ← config_bytes b; Ok (splice load (r_start r) (bc_buffer b), zlen c)), s)
  | Err e => (Err (UnificationError e), s)
  | Panic => (Panic, s)
  end.

(** gbl/libgbl/src/android_boot/load.rs:330-415, [load_verify_v2_and_lower]: on the load buffer at [base]. *)
Definition load_verify_v2_and_lower (base slot : Z) (additional_partitions : PartitionsToVerify)
    (add : ST BootConfigBuilder Error unit) (load : bytes) : M (bytes * LoadedImages) :=
  boot_img ← lift (unify_err (unwrap_res (boot_image_v2_info load)));
  let boot_size := v2_image_size boot_img in
  boot_part ← lift (unify_err (slotted_part "boot" slot));
  '(boot, remains) ← lift (unify_err (split_range (mkRange 0 (zlen load)) boot_size));
  load ← read_range boot_part base load boot;
  '(load, bootconfig_size) ← with_bootconfig load remains (
    to_verify ← lift (unify_err (try_push_preloaded (str "boot") (at_range load boot) to_verify_default));
    to_verify ← lift (unify_err (try_extend_preloaded additional_partitions to_verify));
    verify_and_configure slot to_verify add);
  lift (unify_err (arrange_v2 base load boot_size bootconfig_size)).

(** gbl/libgbl/src/android_boot/load.rs:417-628, [load_verify_v3_and_v4]: the init boot image, if the boot image has
    no ramdisk. *)
Definition load_init_boot (base slot : Z) (boot_img_info : BootImageV3Info) (load : bytes) (remains : Range)
    : M (bytes * (Range * Range * option BootImageV3Info)) :=
  if 0 <? range_len (v3_ramdisk_range boot_img_info) then
    mret (load, (mkRange (r_start remains) (r_start remains), remains, None))
  else
    init_boot_part ← lift (unify_err (slotted_part "init_boot" slot));
    '(hdr, _) ← lift (unwrap_res (split_range remains PAGE_SIZE));
    load ← read_range init_boot_part base load hdr;
    init_boot_info ← lift (unify_err (boot_image_v3_info (at_range load remains)));
    '(out, remains) ← lift (unify_err (split_range remains (v3_image_size init_boot_info)));
    load ← read_range init_boot_part base load out;
    mret (load, (out, remains, Some init_boot_info)).

(** gbl/libgbl/src/android_boot/load.rs:417-628, [load_verify_v3_and_v4]: the partitions to verify. *)
Definition v3_to_verify (boot vendor_boot init_boot : bytes) (additional_partitions : PartitionsToVerify)
    : result PartitionsToVerify :=
  t ← try_push_preloaded (str "boot") boot to_verify_default;
  t ← try_push_preloaded (str "vendor_boot") vendor_boot t;
  t ← (if 0 <? zlen init_boot then try_push_preloaded (str "init_boot") init_boot t else Ok t);
  try_extend_preloaded additional_partitions t.

(** gbl/libgbl/src/android_boot/load.rs:417-628, [load_verify_v3_and_v4]: on the load buffer at [base]. *)
Definition load_verify_v3_and_v4 (base slot : Z) (additional_partitions : PartitionsToVerify)
    (add : ST BootConfigBuilder Error unit) (load : bytes) : M (bytes * LoadedImages) :=
  boot_part ← lift (unify_err (slotted_part "boot" slot));
  vendor_boot_part ← lift (unify_err (slotted_part "vendor_boot" slot));
  boot_img_info ← lift (unify_err (unwrap_res (boot_image_v3_info load)));
  let whole := mkRange 0 (zlen load) in
  '(hdr, _) ← lift (unwrap_res (split_range whole PAGE_SIZE));
  load ← read_range vendor_boot_part base load hdr;
  vendor_boot_info ← lift (unify_err (vendor_boot_image_info (at_range load hdr)));
  '(vendor_boot, remains) ← lift (unify_err (split_range whole (vb_image_size vendor_boot_info)));
  load ← read_range vendor_boot_part base load vendor_boot;
  '(boot, remains) ← lift (unify_err (split_range remains (v3_image_size boot_img_info)));
  load ← read_range boot_part base load boot;
  '(load, (init_boot, remains, init_boot_info)) ← load_init_boot base slot boot_img_info load remains;
  let vendor_boot_bytes := at_range load vendor_boot in
  '(load, bootconfig_size) ← with_bootconfig load remains (
    to_verify ← lift (unify_err (v3_to_verify (at_range load boot) vendor_boot_bytes (at_range load init_boot)
                                   additional_partitions));
    verify_and_configure slot to_verify add;;
    let bootconfig := vb_bootconfig_range vendor_boot_info in
    vendor_bootconfig ← lift (unwrap (get_range vendor_boot_bytes (r_start bootconfig) (r_end bootconfig)));
    on_builder (bc_add_with (λ _ out,
      match get_range out 0 (zlen vendor_bootconfig) with
      | None => (Err (BufferTooSmall (Some (zlen vendor_bootconfig))), out)
      | Some _ => (Ok (zlen vendor_bootconfig), splice out 0 vendor_bootconfig)
      end)));
  lift (unify_err (arrange_v3 base load vendor_boot_info boot_img_info init_boot_info bootconfig_size)).

(** Ranges of a buffer that starts at [off] of another. *)
Definition shift (off : Z) (r : Range) : Range := mkRange (off + r_start r) (off + r_end r).

(** gbl/libgbl/src/android_boot/load.rs:269-328, [android_load_verify]: the slotted partition [part] is loaded whole,
    and verified with the others if it is not empty. *)
Definition load_extra (part : string) (slot base : Z) (load : bytes) (r : Range) (partitions : PartitionsToVerify)
    : M (bytes * (Range * Range) * PartitionsToVerify) :=
  p ← lift (unify_err (slotted_part part slot));
  '(load, (out, remains)) ← load_entire_part p base load r;
  partitions ← lift (if 0 <? range_len out
                     then unify_err (try_push_preloaded (str part) (at_range load out) partitions) else Ok partitions);
  mret (load, (out, remains), partitions).

(** gbl/libgbl/src/android_boot/load.rs:269-328, [android_load_verify]: on the load buffer at [base]. *)
Definition android_load_verify (base slot : Z) (is_recovery : bool) (load : bytes) : M (bytes * LoadedImages) :=
  slot_suffix ← lift (unify_err (slot_suffix_new slot));
  '(load, (dtbo, remains), partitions) ←
    load_extra "dtbo" slot base load (mkRange 0 (zlen load)) to_verify_default;
  '(skip, _) ← lift (unify_err (aligned_subslice (base + r_start remains) (at_range load remains) (Val FDT_ALIGNMENT)));
  '(load, (dtb, remains), partitions) ←
    load_extra "dtb" slot base load (mkRange (r_start remains + skip) (r_end remains)) partitions;
  boot_part ← lift (unify_err (slotted_part "boot" slot));
  '(hdr, _) ← lift (unwrap_res (split_range remains PAGE_SIZE));
  load ← read_range boot_part base load hdr;
  header ← lift (unify_err (map_err error_of_image (boot_image_parse (at_range load remains))));
  let add := add_bootconfig is_recovery slot_suffix in
  let off := r_start remains in
  '(rest, res) ← match header with
                 | V3 _ | V4 _ _ => load_verify_v3_and_v4 (base + off) slot partitions add (at_range load remains)
                 | _ => load_verify_v2_and_lower (base + off) slot partitions add (at_range load remains)
                 end;
  mret (splice load off rest,
        mkImages dtbo (im_boot_cmdline res) (im_vendor_cmdline res) (shift off (im_dtb res)) dtb
          (shift off (im_kernel res)) (shift off (im_ramdisk res)) (shift off (im_unused res))).
End Load.
