(* ===== verification/AndroidLoadProps.v ===== *)
(** * libgbl: what loading Android images guarantees

    The ranges of a boot image follow each other, and the arrangement of the
    load buffer hands over exactly the kernel, the ramdisk with the bootconfig
    behind it, and the device tree, aligned as each of them needs it. *)

From S2P Require Import Prelude SafeMath LibError Text Utils Abr Block Disk Partition.
From S2P Require Import GblOps.
From S2P Require Import BootParams Avb Misc DeviceTree AndroidLoad.
Import SafeNum.

(** ** Ranges *)

Lemma round_up_zero v : ∃ e, round_up here (Val v) (Val 0) = Bad e.
Proof.
  unfold round_up, add, sub. cbn [arith_op]. unfold checked_add, checked_sub.
  destruct (checked 64 (v + 0)) as [a|]; [|by eexists]. cbn [arith_op ok_or_at].
  destruct (checked 64 (a - 1)) as [b|]; [|by eexists]. cbn [ok_or_at].
  unfold round_down, rem, sub. cbn [arith_op]. unfold checked_rem. cbn. by eexists.
Qed.

Lemma page_range_inv s z p r :
  u64_ok s → 0 ≤ z → u64_ok p → page_aligned_range (Val s) (Val z) (Val p) = Ok r →
  0 < p ∧ r_start r = s ∧ r_end r = s + z + (- (s + z)) mod p ∧ r_end r < 2 ^ 64.
Proof.
  intros Hs Hz Hp. unfold page_aligned_range. rewrite into_u64_val, ok_bind by done.
  destruct (decide (s + z < 2 ^ 64)) as [Hsz|Hsz]; cycle 1.
  { rewrite sn_add_over by (unfold u64_ok; lia). done. }
  unfold u64_ok in *. rewrite sn_add by (unfold u64_ok; lia).
  destruct (decide (p = 0)) as [->|Hp0]; [by destruct (round_up_zero (s + z)) as [e ->]|].
  destruct (decide (s + z + p < 2 ^ 64)) as [Hv|Hv]; cycle 1.
  { rewrite round_up_overflow by (unfold u64_ok; lia). done. }
  pose proof (Z.mod_pos_bound (- (s + z)) p ltac:(lia)).
  rewrite round_up_val, into_u64_val, ok_bind by (unfold u64_ok; lia).
  intros [= <-]. simpl. lia.
Qed.

(** Headers whose fields have their widths. *)
Definition hdr0_ok (h : boot_img_hdr_v0) : Prop :=
  u32_ok (v0_kernel_size h) ∧ u32_ok (v0_ramdisk_size h) ∧ u32_ok (v0_second_size h) ∧ u32_ok (v0_page_size h).
Definition boot_image_ok (i : BootImage) : Prop :=
  match i with
  | V0 h => hdr0_ok h
  | V1 h off sz => hdr0_ok h ∧ u64_ok off ∧ u32_ok sz
  | V2 h off sz dtb => hdr0_ok h ∧ u64_ok off ∧ u32_ok sz ∧ u32_ok dtb
  | V3 h => u32_ok (v3_kernel_size h) ∧ u32_ok (v3_ramdisk_size h)
  | V4 h sz => u32_ok (v3_kernel_size h) ∧ u32_ok (v3_ramdisk_size h) ∧ u32_ok sz
  end.

(** The parts of an image in order: a page for the header, the kernel, the
    ramdisk, and the device tree at the end. *)
Definition v2_info_ok (i : BootImageV2Info) : Prop :=
  0 < v2_page_size i ∧ r_start (v2_kernel_range i) = v2_page_size i ∧
  r_start (v2_kernel_range i) ≤ r_end (v2_kernel_range i) ∧
  r_start (v2_ramdisk_range i) = r_end (v2_kernel_range i) ∧
  r_start (v2_ramdisk_range i) ≤ r_end (v2_ramdisk_range i) ∧
  r_end (v2_ramdisk_range i) ≤ r_start (v2_dtb_range i) ∧
  0 ≤ v2_dtb_sz i ≤ r_end (v2_dtb_range i) - r_start (v2_dtb_range i) ∧
  v2_image_size i = r_end (v2_dtb_range i).


(** ** Splitting *)

Lemma split_range_ok a e n : 0 ≤ n ≤ e - a → split_range (mkRange a e) n = Ok (mkRange a (a + n), mkRange (a + n) e).
Proof. intros. unfold split_range, range_len. cbn. by rewrite (proj2 (Z.leb_le _ _)) by lia. Qed.

(** The start of the last [size] bytes, moved down to an aligned address. *)
Definition tail_start (base e size align : Z) : Z := e - size - (base + e - size) mod align.

Lemma tail_start_aligned base e size align : 0 < align → (base + tail_start base e size align) mod align = 0.
Proof.
  intros. unfold tail_start. replace (base + _) with (base + e - size - (base + e - size) mod align) by lia.
  rewrite Zminus_mod_idemp_r, Z.sub_diag. done.
Qed.
Lemma tail_start_le base e size align : 0 < align → tail_start base e size align ≤ e - size.
Proof. intros. unfold tail_start. pose proof (Z.mod_pos_bound (base + e - size) align). lia. Qed.

Lemma aligned_tail_ok base a e size align :
  0 ≤ a → e < 2 ^ 64 → 0 ≤ size → 0 < align < 2 ^ 64 → a ≤ tail_start base e size align →
  aligned_tail_offset base (mkRange a e) size align = Ok (tail_start base e size align - a).
Proof.
  intros Ha He Hs Hal Ht. pose proof (tail_start_le base e size align ltac:(lia)). unfold tail_start in *.
  pose proof (Z.mod_pos_bound (base + e - size) align ltac:(lia)).
  unfold aligned_tail_offset, range_len. cbn [r_start r_end]. rewrite Z.max_r by lia.
  rewrite !(from_int_u64 here TUsize (e - a)), !(from_int_u64 here TUsize size), sn_sub by (unfold u64_ok; lia).
  rewrite into_u64_val, ok_bind, (proj2 (Z.ltb_ge _ _)) by (unfold u64_ok; lia).
  replace (base + a + (e - a - size)) with (base + e - size) by lia.
  rewrite from_int_u64, sn_sub, into_u64_val by (unfold u64_ok; lia). f_equal. lia.
Qed.

Lemma split_aligned_tail_ok base a e size align :
  0 ≤ a → e < 2 ^ 64 → 0 ≤ size → 0 < align < 2 ^ 64 → a ≤ tail_start base e size align →
  let t := tail_start base e size align in
  split_aligned_tail base (mkRange a e) size align = Ok (mkRange a t, mkRange t e).
Proof.
  intros Ha He Hs Hal Ht t. pose proof (tail_start_le base e size align ltac:(lia)). unfold split_aligned_tail.
  rewrite aligned_tail_ok, ok_bind, split_range_ok by lia. fold t. by replace (a + (t - a)) with t by lia.
Qed.

Fixpoint chunks_from (a : Z) (sizes : list Z) : list Range :=
  match sizes with [] => [] | s :: sizes => mkRange a (a + s) :: chunks_from (a + s) sizes end.

Lemma split_chunks_ok a e sizes :
  Forall (λ s, 0 ≤ s) sizes → a + foldr Z.add 0 sizes ≤ e →
  split_chunks (mkRange a e) sizes = Ok (chunks_from a sizes, mkRange (a + foldr Z.add 0 sizes) e).
Proof.
  intros Hs. revert a. induction Hs as [|s sizes Hs Hss IH]; intros a Hle; simpl in *; [by rewrite Z.add_0_r|].
  assert (0 ≤ foldr Z.add 0 sizes) by (clear -Hss; induction Hss; simpl; lia).
  rewrite split_range_ok by lia. cbn [unwrap_res mbind outcome_bind]. rewrite IH by lia. cbn. do 3 f_equal. lia.
Qed.

(** The relocated kernel is at the end of the destination, up to the padding
    that its alignment asks for. *)
Lemma relocate_kernel_ok `{!Decoders} base load kernel n plain rest :
  decompress_kernel kernel (slice load n (zlen load - n)) = (Ok (zlen plain), plain ++ rest) →
  length (plain ++ rest) = length (slice load n (zlen load - n)) → 0 ≤ n → zlen load < 2 ^ 64 →
  let t := tail_start base (zlen load) (zlen plain) KERNEL_ALIGNMENT in
  n ≤ t →
  ∃ load', relocate_kernel base load kernel (mkRange n (zlen load)) =
             Ok (load', (mkRange n t, mkRange t (zlen load), zlen plain)) ∧
    length load' = length load ∧ slice load' t (zlen plain) = plain ∧ slice load' 0 n = slice load 0 n.
Proof.
  intros Hd Hl Hn Hlen t Ht. pose proof (tail_start_le base (zlen load) (zlen plain) KERNEL_ALIGNMENT ltac:(done)) as Hle.
  fold t in Hle. unfold relocate_kernel, at_range, range_len. cbn [r_start r_end]. rewrite Z.max_r by lia. rewrite Hd, ok_bind.
  rewrite aligned_tail_ok, ok_bind by (done || lia). fold t.
  assert (Hz : zlen (plain ++ rest) = zlen load - n) by (rewrite Hl, zlen_slice; lia).
  unfold copy_range. cbn [r_start r_end]. rewrite index_range_ok by (rewrite ?length_app in *; lia).
  rewrite Z.sub_0_r, slice_app_l, ok_bind by done. rewrite Hz, (proj2 (Z.leb_le _ _)) by lia.
  rewrite ok_bind, split_range_ok by lia. cbn [mbind outcome_bind].
  replace (n + (t - n)) with t by lia.
  set (d := splice (plain ++ rest) (t - n) plain).
  assert (Hdl : zlen d = zlen load - n) by (unfold d; rewrite length_splice by lia; done).
  eexists. split; [done|]. split; [by rewrite length_splice by lia|]. split.
  - rewrite slice_splice_in by lia. unfold d. rewrite slice_splice_same by lia. done.
  - by rewrite slice_splice_disj by lia.
Qed.

(** Moving a part of the image to the front, and what follows the image behind
    it. *)
Lemma move_forward (img bc : bytes) a rs re :
  0 ≤ a ≤ rs → rs ≤ re ≤ zlen img →
  ∃ b1 b2, copy_range (img ++ bc) (mkRange rs re) a = Ok b1 ∧
    copy_range b1 (mkRange (zlen img) (zlen img + zlen bc)) (a + (re - rs)) = Ok b2 ∧
    length b2 = length (img ++ bc) ∧ slice b2 0 a = slice img 0 a ∧
    slice b2 a (re - rs + zlen bc) = slice img rs (re - rs) ++ bc.
Proof.
  intros Ha Hr. unfold copy_range. cbn [r_start r_end].
  assert (Hn : zlen (img ++ bc) = zlen img + zlen bc) by (rewrite length_app; lia).
  rewrite index_range_ok by lia. rewrite ok_bind, (proj2 (Z.leb_le _ _)) by (rewrite zlen_slice; lia).
  set (b1 := splice _ _ _). eexists b1, _. split; [done|].
  assert (Hb1 : zlen b1 = zlen img + zlen bc) by (unfold b1; rewrite length_splice by (rewrite ?zlen_slice; lia); lia).
  rewrite index_range_ok by lia.
  assert (Hbc : slice b1 (zlen img) (zlen img + zlen bc - zlen img) = bc).
  { unfold b1. rewrite slice_splice_disj by (rewrite ?zlen_slice; lia). rewrite slice_app_r by done. apply slice_all. lia. }
  rewrite ok_bind, Hbc, (proj2 (Z.leb_le _ _)) by lia. split; [done|].
  assert (Hs : slice (img ++ bc) rs (re - rs) = slice img rs (re - rs)) by list_ext.
  split; [rewrite length_splice; lia|]. split.
  - rewrite slice_splice_disj by lia. unfold b1. rewrite slice_splice_disj by (rewrite ?zlen_slice; lia). list_ext.
  - rewrite <- slice_app_split by (rewrite ?length_splice; lia). f_equal.
    + rewrite slice_splice_disj by lia. unfold b1. rewrite slice_splice_same by (rewrite ?zlen_slice; lia). exact Hs.
    + rewrite slice_splice_same by lia. done.
Qed.

(** What the final buffer holds: the front, the device tree at [d], and what was
    at [k] behind it. *)
Lemma final_layout (l front dtb plain : bytes) d k :
  slice l k (zlen plain) = plain → zlen front ≤ d → d + zlen dtb ≤ k → k + zlen plain ≤ zlen l → 0 ≤ k →
  let l' := splice (splice l d dtb) 0 front in
  length l' = length l ∧ slice l' k (zlen plain) = plain ∧
  (∀ m, m ≤ zlen dtb → slice l' d m = slice dtb 0 m) ∧
  (∀ a m, 0 ≤ a → a + m ≤ zlen front → slice l' a m = slice front a m).
Proof.
  intros Hk H1 H2 H3 H4 l'. assert (Hl : length (splice l d dtb) = length l) by (apply length_splice; lia).
  split; [unfold l'; rewrite length_splice; lia|]. split; [|split].
  - unfold l'. rewrite slice_splice_disj by lia. rewrite slice_splice_disj by lia. done.
  - intros m Hm. unfold l'. rewrite slice_splice_disj by lia. rewrite slice_splice_in by lia. f_equal. lia.
  - intros a m Ha Hm. unfold l'. rewrite slice_splice_in by lia. f_equal. lia.
Qed.

Lemma at_range_slice l r a m : r_start r = a → r_end r - a = m → 0 ≤ m → at_range l r = slice l a m.
Proof. intros <- <- ?. unfold at_range, range_len. by rewrite Z.max_r by lia. Qed.

(** ** The arrangement of a boot image of version 2 or lower *)

Section V2Layout.
Context `{!Decoders, !BootImgLib} (base : Z) (img bc free : bytes) (info : BootImageV2Info) (plain rest : bytes).

(** A load buffer that holds an image, its bootconfig and a free part; the kernel
    decompresses to [plain]. *)
Definition v2_load : bytes := img ++ bc ++ free.
Definition v2_kernel_at : Z := tail_start base (zlen v2_load) (zlen plain) KERNEL_ALIGNMENT.
Definition v2_dtb_at : Z := tail_start base v2_kernel_at (range_len (v2_dtb_range info)) FDT_ALIGNMENT.
Definition v2_loaded : Prop :=
  boot_image_v2_info (img ++ bc) = Ok info ∧ v2_info_ok info ∧ v2_image_size info = zlen img ∧
  boot_image_v2_info (slice img 0 (v2_page_size info)) = Ok info ∧
  decompress_kernel (at_range img (v2_kernel_range info)) free = (Ok (zlen plain), plain ++ rest) ∧
  length (plain ++ rest) = length free ∧ zlen v2_load < 2 ^ 64 ∧
  zlen img + zlen bc ≤ v2_kernel_at ∧ zlen img + zlen bc ≤ v2_dtb_at.

(** The image with its ramdisk in front, followed by the bootconfig. *)
Definition v2_front (b : bytes) : Prop :=
  length b = length (img ++ bc) ∧ slice b 0 (v2_page_size info) = slice img 0 (v2_page_size info) ∧
  slice b (v2_page_size info) (range_len (v2_ramdisk_range info) + zlen bc) = at_range img (v2_ramdisk_range info) ++ bc.

Lemma arrange_v2_run :
  v2_loaded →
  let k := v2_kernel_at in let d := v2_dtb_at in
  let p := v2_page_size info in
  let r := p + (range_len (v2_ramdisk_range info) + zlen bc) in
  ∃ l b, length l = length v2_load ∧ slice l k (zlen plain) = plain ∧ v2_front b ∧
    arrange_v2 base v2_load (zlen img) (zlen bc) =
      (let load := splice (splice l d (at_range img (v2_dtb_range info))) 0 b in
       hdr ← unwrap_res (boot_image_v2_info (at_range load (mkRange 0 p)));
       Ok (load, mkImages (mkRange 0 0) (v2_cmdline hdr) [] (mkRange d (d + v2_dtb_sz info)) (mkRange 0 0)
                   (mkRange k (k + zlen plain)) (mkRange p r) (mkRange r d))).
Proof.
  intros (Hinfo & (Hp & Hks & Hke & Hrs & Hre & Hds & Hdsz & Hisz) & Hsize & Hhdr & Hdec & Hlen & Hl64 & Hk & Hd) k d p r.
  fold k in Hk. fold d in Hd. set (n := zlen img + zlen bc) in *. unfold v2_load in *. set (load := img ++ bc ++ free) in *.
  set (kr := v2_kernel_range info) in *. set (rr := v2_ramdisk_range info) in *. set (dr := v2_dtb_range info) in *.
  assert (Hload : zlen load = n + zlen free) by (unfold load, n; rewrite !length_app; lia).
  assert (Hdr : range_len dr = r_end dr - r_start dr) by (unfold range_len; lia).
  assert (Hrr : range_len rr = r_end rr - r_start rr) by (unfold range_len; lia).
  pose proof (tail_start_le base k (range_len dr) FDT_ALIGNMENT ltac:(done)) as Hdle.
  pose proof (tail_start_le base (zlen load) (zlen plain) KERNEL_ALIGNMENT ltac:(done)) as Hkle.
  change (tail_start base k _ _) with d in Hdle. change (tail_start base (zlen load) _ _) with k in Hkle.
  unfold arrange_v2. fold n. rewrite index_range_ok, ok_bind by (unfold n in *; lia).
  replace (slice load 0 (n - 0)) with (img ++ bc)
    by (unfold load; rewrite app_assoc; symmetry; apply slice_app_l; rewrite length_app; unfold n; lia).
  rewrite Hinfo. cbn [unwrap_res mbind outcome_bind]. fold kr rr dr p.
  assert (Hnimg : zlen (img ++ bc) = n) by (unfold n; rewrite length_app; lia).
  rewrite (get_range_Some _ (r_start kr)) by lia. cbn [unwrap mbind outcome_bind].
  replace (slice (img ++ bc) (r_start kr) (r_end kr - r_start kr)) with (at_range img kr)
    by (rewrite (at_range_slice img kr _ _ eq_refl eq_refl) by lia; list_ext).
  assert (Hfree : slice load n (zlen load - n) = free)
    by (unfold load, n; rewrite app_assoc, slice_app_r by (rewrite length_app; lia); apply slice_all; rewrite !length_app; lia).
  destruct (relocate_kernel_ok base load (at_range img kr) n plain rest) as (l & -> & Hl1 & Hk1 & Hf1);
    [by rewrite Hfree|by rewrite Hfree|lia|lia|exact Hk|]. cbn [mbind outcome_bind]. change (tail_start base (zlen load) _ _) with k.
  rewrite split_aligned_tail_ok by (exact Hd || done || lia). change (tail_start base k _ _) with d. cbn [mbind outcome_bind].
  rewrite get_range_Some by lia. cbn [unwrap mbind outcome_bind].
  replace (slice (img ++ bc) (r_start dr) (r_end dr - r_start dr)) with (at_range img dr)
    by (rewrite (at_range_slice img dr _ _ eq_refl eq_refl) by lia; list_ext).
  destruct (move_forward img bc (r_start kr) (r_start rr) (r_end rr)) as (b1 & b & E1 & E2 & Hb & Hh & Hr2); [lia..|].
  exists l, b. split; [done|]. split; [done|]. split.
  { unfold v2_front. fold rr. split; [done|]. rewrite <- Hks. split; [done|]. by rewrite (at_range_slice img rr _ _ eq_refl eq_refl), Hrr by lia. }
  assert (Err : mkRange (r_start rr) (r_end rr) = rr) by (by destruct rr). rewrite Err in E1. rewrite E1, ok_bind.
  rewrite Hrr. fold n in E2. rewrite E2, ok_bind.
  assert (Hdk : range_len (mkRange d k) = k - d) by (unfold range_len; cbn [r_start r_end]; lia).
  assert (Hdt : zlen (at_range img dr) = range_len dr) by (rewrite (at_range_slice img dr _ _ eq_refl eq_refl), zlen_slice; lia).
  cbn [r_start]. rewrite Hdk, (arith_ok _ (d - p - _)), ok_bind, arith_ok, ok_bind by lia.
  rewrite split_chunks_ok; [|repeat constructor; lia|simpl; rewrite !length_splice; rewrite ?length_splice; lia].
  cbn [mbind outcome_bind chunks_from]. rewrite !Z.add_0_l. unfold r. rewrite Hrr.
  destruct (unwrap_res _) as [hdr| |]; [|done..]. cbn [mbind outcome_bind].
  repeat f_equal; lia.
Qed.
End V2Layout.

(** C19. The load buffer that holds a verified boot image of version 2 or lower
    and its bootconfig is arranged exactly: the kernel, decompressed, at a 2 MiB
    aligned address at the end; the device tree, 8-byte aligned, before it; the
    ramdisk directly followed by the bootconfig behind the header; and an unused
    area between. *)
Theorem arrange_v2_exact `{!Decoders, !BootImgLib} base img bc free info plain rest :
  v2_loaded base img bc free info plain rest →
  ∃ load res, arrange_v2 base (img ++ bc ++ free) (zlen img) (zlen bc) = Ok (load, res) ∧
    length load = length (img ++ bc ++ free) ∧
    at_range load (im_kernel res) = plain ∧ (base + r_start (im_kernel res)) mod KERNEL_ALIGNMENT = 0 ∧
    at_range load (im_dtb res) = slice img (r_start (v2_dtb_range info)) (v2_dtb_sz info) ∧
    (base + r_start (im_dtb res)) mod FDT_ALIGNMENT = 0 ∧
    at_range load (im_ramdisk res) = at_range img (v2_ramdisk_range info) ++ bc ∧
    r_end (im_ramdisk res) = r_start (im_unused res) ∧ r_start (im_unused res) ≤ r_end (im_unused res) ∧
    r_end (im_unused res) = r_start (im_dtb res) ∧ r_end (im_dtb res) ≤ r_start (im_kernel res) ∧
    im_boot_cmdline res = v2_cmdline info.
Proof.
  intros Hld. destruct (arrange_v2_run base img bc free info plain rest Hld) as (l & b & Hl & Hpl & (Hb & Hh & Hr) & E).
  destruct Hld as (_ & (Hp & Hks & Hke & Hrs & Hre & Hds & Hdsz & Hisz) & Hsize & Hhdr & _ & _ & Hl64 & Hk & Hd).
  change (v2_load img bc free) with (img ++ bc ++ free) in *. rewrite E. clear E.
  set (k := v2_kernel_at _ _ _ _ _) in *. set (d := v2_dtb_at _ _ _ _ _ _) in *.
  assert (Hdr : range_len (v2_dtb_range info) = r_end (v2_dtb_range info) - r_start (v2_dtb_range info)) by (unfold range_len; lia).
  assert (Hrr : range_len (v2_ramdisk_range info) = r_end (v2_ramdisk_range info) - r_start (v2_ramdisk_range info))
    by (unfold range_len; lia).
  pose proof (tail_start_le base k (range_len (v2_dtb_range info)) FDT_ALIGNMENT ltac:(done)) as Hdle.
  pose proof (tail_start_le base (zlen (img ++ bc ++ free)) (zlen plain) KERNEL_ALIGNMENT ltac:(done)) as Hkle.
  change (tail_start base k _ _) with d in Hdle. change (tail_start base (zlen (img ++ bc ++ free)) _ _) with k in Hkle.
  set (dtb := at_range img (v2_dtb_range info)).
  assert (Edt : dtb = slice img (r_start (v2_dtb_range info)) (range_len (v2_dtb_range info))) by done.
  assert (Hdt : zlen dtb = range_len (v2_dtb_range info)) by (rewrite Edt, zlen_slice; lia).
  assert (Hbn : zlen b = zlen img + zlen bc) by (rewrite Hb, length_app; lia).
  destruct (final_layout l b dtb plain d k) as (Hl' & Hk' & Hd' & Hf'); [done|lia..|].
  cbv zeta. set (load := splice (splice l d dtb) 0 b) in *.
  rewrite (at_range_slice load (mkRange 0 (v2_page_size info)) 0 (v2_page_size info)) by (cbn [r_start r_end]; lia).
  rewrite Hf', Hh, Hhdr by lia. cbn [unwrap_res mbind outcome_bind].
  eexists load, _. split; [done|]. cbn [im_kernel im_dtb im_ramdisk im_unused im_boot_cmdline r_start r_end].
  split; [congruence|]. split; [rewrite (at_range_slice _ _ k (zlen plain)) by (cbn [r_start r_end]; lia); exact Hk'|].
  split; [by apply tail_start_aligned|].
  split; [rewrite (at_range_slice _ _ d (v2_dtb_sz info)), Hd', Edt, slice_slice by (cbn [r_start r_end]; lia); f_equal; lia|].
  split; [by apply tail_start_aligned|].
  split; [rewrite (at_range_slice _ _ _ _ eq_refl eq_refl) by (cbn [r_start r_end]; lia); cbn [r_start r_end]|lia || naive_solver lia].
  rewrite Hf' by lia. rewrite <- Hr. f_equal. lia.
Qed.

(** ** Example *)

Module V2Example.
#[export] Instance no_decoders : Decoders := {| decode_gzip _ := None; decompress_into _ out := (None, out) |}.
(** Images with pages of 8 bytes whose header says what they hold. *)
#[export] Instance small_images : BootImgLib := {|
  boot_image_parse b :=
    if zlen b <? 8 then Err ImgBufferTooSmall
    else Ok (V2 (mkHdr0 (nth 0 b 0) (nth 1 b 0) (nth 2 b 0) 8 (slice b 4 4)) 0 0 (nth 3 b 0));
  vendor_image_parse _ := Err ImgBadMagic;
  vendor_v3_len := 0;
  vendor_v4_len := 0;
|}.
Definition kernel : bytes := [20; 21; 22; 23; 24; 0; 0; 0].
Definition image : bytes := [5; 3; 0; 2; 99; 0; 0; 0] ++ kernel ++ [30; 31; 32; 0; 0; 0; 0; 0] ++ [40; 41; 0; 0; 0; 0; 0; 0].
Definition bootconfig : bytes := [50; 51; 52].
Definition free : bytes := replicate 40 7.
Definition info : BootImageV2Info :=
  mkV2 [99] 8 (mkRange 8 16) (mkRange 16 24) (mkRange 24 32) 2 32.
Definition base : Z := 2 * 1024 * 1024 - 64.
End V2Example.
Import V2Example.


Lemma arrange_v2_exact_witness :
  ∃ load res, arrange_v2 base (image ++ bootconfig ++ free) 32 3 = Ok (load, res) ∧
    at_range load (im_kernel res) = kernel ∧ r_start (im_kernel res) = 64 ∧
    at_range load (im_dtb res) = [40; 41] ∧
    at_range load (im_ramdisk res) = [30; 31; 32; 0; 0; 0; 0; 0; 50; 51; 52] ∧
    im_boot_cmdline res = [99].
Proof.
  assert (Hld : v2_loaded base image bootconfig free info kernel (replicate 32 7)) by
    (unfold v2_loaded, v2_info_ok; repeat split; by_compute || (vm_compute; reflexivity)).
  destruct (arrange_v2_exact base image bootconfig free info kernel (replicate 32 7) Hld)
    as (load & res & E & _ & Hk & _ & Hd & _ & Hr & _ & _ & _ & _ & Hc).
  exists load, res. split; [exact E|]. split; [exact Hk|]. split; [|by repeat split].
  vm_compute in E. by injection E as <- <-.
Defined.
