(* ===== verification/AndroidBoot.v ===== *)
(** * libgbl: the Android boot flow

    Models src/gbl/libgbl/src/android_boot/mod.rs: the device tree and the command
    line that the loaded images are booted with, the final layout of the load
    buffer, the decisions of [android_main], and the download buffers of fastboot.
    The bytes of device tree components are kept in the registry; that they are
    also copied to the unused part of the load buffer, which the final tree does
    not overlap, is left out.
    Fastboot itself is a parameter here: what it leaves in the devices, the
    platform and the load buffer, and its result (GblFastboot models it). *)

From S2P Require Import Prelude SafeMath LibError Text Utils Abr Slots Block Disk.
From S2P Require Import Partition GblOps.
From S2P Require Import BootParams Avb Misc DtTable Fdt DeviceTree AndroidLoad GblFastboot.
From S2P Require Import GblVars.
Import SafeNum.

(** gbl/libgbl/src/android_boot/mod.rs:46-47, [BOOTARGS_PROP]. *)
Definition BOOTARGS_PROP : bytes := str "bootargs".

(** gbl/libgbl/src/android_boot/mod.rs:54-191, [android_load_verify_fixup]: the end of the function. The kernel
    moves to the first aligned place behind the device tree of [fdt_len] bytes at
    [fdt_off]; ramdisk, device tree, kernel, unused. *)
Definition final_arrangement (base : Z) (load : bytes) (ramdisk : Range) (fdt_off fdt_len : Z) (kernel : Range)
    : result (bytes * (Range * Range * Range * Range)) :=
  let ramdisk_off := r_start ramdisk in
  let kernel_off := r_start kernel in
  let kernel_len := range_len kernel in
  kernel_new ← into_u64 (from_int here TUsize fdt_off +! from_int here TUsize fdt_len);
  index_from (E := Error) load kernel_new;;
  skip ← aligned_offset (base + kernel_new) (Val KERNEL_ALIGNMENT);
  kernel_new ← arith 64 (kernel_new + skip);
  load ← copy_range load (mkRange kernel_off (kernel_off + kernel_len)) kernel_new;
  a ← arith 64 (fdt_off - ramdisk_off);
  b ← arith 64 (kernel_new - fdt_off);
  '(chunks, unused) ← split_chunks (mkRange 0 (zlen load)) [ramdisk_off; a; b; kernel_len];
  match chunks with
  | [_; ramdisk_chunk; fdt; kernel] =>
      '(r, _) ← unwrap_res (split_range ramdisk_chunk (range_len ramdisk));
      Ok (load, (r, fdt, kernel, unused))
  | _ => Panic
  end.

Section Fixup.
Context {D G ZE : Type} `{!BlockIo D} `{!AvbPlatform G} `{!LibAvb D G} `{!AndroidPlatform G} `{!GblOps G}.
Context `{!Decoders} `{!BootImgLib} `{!DtTableLayout} `{!LibFdt} (BUILD_NUMBER : option bytes).
Abbreviation AError := (IntegrationError SlotVerifyError ZE).
Abbreviation M := (ST (list (GblDisk D) * G) AError).
Definition unified {A} (r : result A) : outcome AError A := map_err UnificationError r.

(** ** Device trees *)

(** A buffer with its address. *)
Abbreviation buffer := (Z * bytes)%type.
(** Registry operations; the rest of the buffer is returned. *)
Definition on_registry {A} (m : ST DeviceTreeComponentsRegistry Error A) : ST DeviceTreeComponentsRegistry AError A :=
  λ r, let '(x, r) := m r in (unified x, r).

(** gbl/libgbl/src/android_boot/mod.rs:54-191, [android_load_verify_fixup]: the components of the dtbo partition, of
    the boot images and of the dtb partition, if they are not empty. *)
Definition collect_components (dtbo dtb dtb_part : buffer) (remains : buffer)
    : ST DeviceTreeComponentsRegistry AError buffer :=
  remains ← (if 0 <? zlen (snd dtbo) then
               table ← lift (unified (DtTable.from_bytes (fst dtbo) (snd dtbo)));
               on_registry (append_from_dttable SDtbo table (fst remains) (snd remains))
             else mret remains);
  remains ← (if 0 <? zlen (snd dtb) then
               match from_bytes_ref (fst dtb) (snd dtb) with
               | Ok _ => on_registry (append SBoot (fst dtb) (snd dtb) (fst remains) (snd remains))
               | Panic => lift Panic
               | Err _ =>
                   match DtTable.from_bytes (fst dtb) (snd dtb) with
                   | Ok table => on_registry (append_from_dttable SBoot table (fst remains) (snd remains))
                   | Panic => lift Panic
                   | Err _ => raise (UnificationError (Other (Some
                       "Invalid or unrecognized device tree format in boot/vendor_boot"%string)))
                   end
               end
             else mret remains);
  if 0 <? zlen (snd dtb_part) then
    table ← lift (unified (DtTable.from_bytes (fst dtb_part) (snd dtb_part)));
    on_registry (append_from_dttable SDtb table (fst remains) (snd remains))
  else mret remains.

(** A call of the platform with a structure that it changes. *)
Definition call_platform {A X} (m : ST (G * X) Error A) (x : X) : M (A * X) := λ s,
  let '(r, (g, x)) := m (snd s, x) in (unified (a ← r; Ok (a, x)), (fst s, g)).

(** gbl/libgbl/src/android_boot/mod.rs:54-191, [android_load_verify_fixup]: the base tree with its address, the
    overlays, and the buffer that is left for the final tree. *)
Definition choose_device_tree (dtbo dtb dtb_part : buffer) (fdt_load : buffer) : M (buffer * list bytes * buffer) :=
  custom ← (λ s, let '(c, g) := get_custom_device_tree (snd s) in (unified c, (fst s, g)));
  match custom with
  | Some v => mret (v, [], fdt_load)
  | None =>
      let '(r, components) := collect_components dtbo dtb dtb_part fdt_load registry_new in
      remains ← lift r;
      '(_, components) ← call_platform select_device_trees components;
      '(base, overlays) ← lift (unified (selected components));
      mret (base, overlays, remains)
  end.

(** ** The command line *)

(** [add_with] of a callback that uses the platform: called with the command line
    and the free part of the buffer. *)
Definition add_with_fixup (b : CommandlineBuilder) : M CommandlineBuilder := λ '(devs, g),
  match (n ← arith (E := Error) 64 (cl_size b + COMMANDLINE_TRAILING_SIZE);
         cur ← index_range (cl_buffer b) 0 n;
         free ← index_from (cl_buffer b) n;
         let free := if negb (zlen free =? 0) then slice free 0 (zlen free - 1) else free in
         cur ← unwrap (cstr_with_nul cur);
         Ok (cur, free)) with
  | Ok (cur, free) =>
      let '(r, (g, free)) := fixup_os_commandline cur (g, free) in
      let '(r, b) := cl_add_with (λ _ _, (n ← r; Ok (default 0 n), free)) b in
      (unified (_ ← r; Ok b), (devs, g))
  | Err e => (Err (UnificationError e), (devs, g))
  | Panic => (Panic, (devs, g))
  end.

(** Operations of the tree in the buffer at [addr]. *)
Abbreviation F := (ST (bytes * (list (GblDisk D) * G)) AError).
Definition on_fdt {A} (m : ST bytes Error A) : F A := λ s, let '(r, b) := m (fst s) in (unified r, (b, snd s)).
Definition run_cl {A} (b : CommandlineBuilder) (m : ST CommandlineBuilder Error A) : result CommandlineBuilder :=
  let '(r, b) := m b in _ ← r; Ok b.

(** gbl/libgbl/src/android_boot/mod.rs:54-191, [android_load_verify_fixup]: the command line of the tree is followed
    by those of the images and of the platform. *)
Definition update_commandline (boot_cmdline vendor_cmdline : bytes) : F unit :=
  fdt ← gets fst;
  device_tree_commandline_length ← lift (
    match get_property fdt (str "chosen") BOOTARGS_PROP with
    | Ok val => c ← ok_or (cstr_until_nul val) (UnificationError InvalidInput); Ok (zlen c)
    | Err _ => Ok 0
    | Panic => Panic
    end);
  final_commandline_len ← lift (arith 64 (device_tree_commandline_length + zlen boot_cmdline + zlen vendor_cmdline + 1024));
  off ← on_fdt (set_property_placeholder (str "chosen") BOOTARGS_PROP final_commandline_len);
  fdt ← gets fst;
  buffer ← lift (index_range fdt off (off + final_commandline_len));
  b ← lift (unified (cl_new_from_prefix buffer));
  b ← lift (unified (run_cl b (cl_add boot_cmdline)));
  b ← lift (unified (run_cl b (cl_add vendor_cmdline)));
  b ← (λ s, let '(r, t) := add_with_fixup b (snd s) in (r, (fst s, t)));
  modify (λ s, (splice (fst s) off (cl_buffer b), snd s)).

(** gbl/libgbl/src/android_boot/mod.rs:54-191, [android_load_verify_fixup]: the final tree in the buffer at [addr],
    from the base tree; its length. *)
Definition build_fdt (addr : Z) (base : buffer) (overlays : list bytes) (ramdisk_addr ramdisk_end : Z)
    (boot_cmdline vendor_cmdline : bytes) : F Z :=
  on_fdt (fdt_new_from_init addr (fst base) (snd base));;
  on_fdt (set_property (str "chosen") (str "linux,initrd-start") (be_bytes 8 ramdisk_addr));;
  on_fdt (set_property (str "chosen") (str "linux,initrd-end") (be_bytes 8 ramdisk_end));;
  update_commandline boot_cmdline vendor_cmdline;;
  on_fdt (multioverlay_apply addr overlays);;
  on_fdt (shrink_to_fit addr);;
  (λ s, match call_platform fixup_device_tree (fst s) (snd s) with
        | (Ok (_, b), t) => (Ok tt, (b, t))
        | (Err e, t) => (Err e, (fst s, t))
        | (Panic, t) => (Panic, (fst s, t))
        end);;
  on_fdt (shrink_to_fit addr);;
  fdt ← gets fst;
  h ← lift (unified (header_ref addr fdt));
  lift (actual_size h).

(** ** Loading, verifying and fixing up *)

(** gbl/libgbl/src/android_boot/mod.rs:54-191, [android_load_verify_fixup]: on the load buffer at [base]; the new
    load buffer, and in it ramdisk, device tree, kernel, unused. *)
Definition android_load_verify_fixup (base slot : Z) (is_recovery : bool) (load : bytes)
    : M (bytes * (Range * Range * Range * Range)) :=
  '(load, images) ← android_load_verify BUILD_NUMBER base slot is_recovery load;
  let at_ r : buffer := (base + r_start r, at_range load r) in
  '(dt_base, overlays, (fdt_addr, fdt_load)) ←
    choose_device_tree (at_ (im_dtbo images)) (at_ (im_dtb images)) (at_ (im_dtb_part images)) (at_ (im_unused images));
  '(skip, fdt_load) ← lift (unified (aligned_subslice fdt_addr fdt_load (Val FDT_ALIGNMENT)));
  let fdt_addr := fdt_addr + skip in
  let ramdisk_addr := base + r_start (im_ramdisk images) in
  ramdisk_end ← lift (arith 64 (ramdisk_addr + range_len (im_ramdisk images)));
  '(fdt_len, fdt) ← (λ s,
    let '(r, (fdt, s)) := build_fdt fdt_addr dt_base overlays ramdisk_addr ramdisk_end
                            (im_boot_cmdline images) (im_vendor_cmdline images) (fdt_load, s) in
    (n ← r; Ok (n, fdt), s));
  let fdt_off := fdt_addr - base in
  lift (unified (final_arrangement base (splice load fdt_off fdt) (im_ramdisk images) fdt_off fdt_len (im_kernel images))).

(** ** The boot decision *)

(** gbl/libgbl/src/android_boot/mod.rs:302-398, [android_main]: the bootloader message is read into the start of the
    load buffer. *)
Definition read_bcb (base : Z) (load : bytes) : M (BootloaderMessage * bytes) :=
  bcb_buffer ← lift (ok_or (get_range load 0 BCB_SIZE_BYTES) (UnificationError (BufferTooSmall (Some BCB_SIZE_BYTES))));
  d ← (λ s, let '(r, (devs, d)) := read_from_partition_sync (str "misc") base 0 (fst s, bcb_buffer) in
            (unified (_ ← r; Ok d), (devs, snd s)));
  bcb ← lift (unified (bcb_from_bytes d));
  mret (bcb, splice load 0 d).

(** [Result::unwrap_or] of a platform call. *)
Definition or_default {A} (m : ST G Error A) (a : A) : M A := λ s,
  match m (snd s) with
  | (Ok x, g) => (Ok x, (fst s, g))
  | (Err _, g) => (Ok a, (fst s, g))
  | (Panic, g) => (Panic, (fst s, g))
  end.

(** gbl/libgbl/src/android_boot/mod.rs:302-398, [android_main]: the boot mode of the bootloader message, whose
    one-shot command is cleared ([cmd_addr] is the address of the zeros), the
    reboot reason, and whether to enter fastboot. *)
Definition boot_decision (cmd_addr : Z) (bcb : BootloaderMessage) : M (AndroidBootMode * RebootReason * bool) :=
  mode ← lift (match boot_mode bcb with Ok m => Ok m | Err _ => Ok BNormal | Panic => Panic end);
  (if bool_decide (mode = BootloaderBootOnce) then
     λ s, let '(r, (devs, _)) := write_to_partition_sync (str "misc") cmd_addr COMMAND_FIELD_OFFSET
                                   (fst s, replicate (Z.to_nat COMMAND_FIELD_SIZE) 0) in
          (unified r, (devs, snd s))
   else mret tt);;
  reason ← or_default get_reboot_reason RNormal;
  fastboot ← match reason, mode with
             | RBootloader, _ => mret true
             | _, BootloaderBootOnce => mret true
             | _, _ => or_default should_stop_in_fastboot false
             end;
  mret (mode, reason, fastboot).

(** The result of the boot flow: an image that fastboot loaded, or the ranges of
    the one that was loaded from disk. *)
Inductive Booted := FromFastboot (images : bytes * bytes * bytes * bytes) | FromDisk (images : Range * Range * Range * Range).

(** gbl/libgbl/src/android_boot/mod.rs:302-398, [android_main]: after fastboot. *)
Definition boot_after_fastboot (base : Z) (mode : AndroidBootMode) (reason : RebootReason) (result : GblFastbootResult)
    (load : bytes) : M (bytes * Booted) :=
  match loaded_image_info result with
  | Some _ =>
      images ← lift (r ← split_loaded_android result load; unwrap r);
      mret (load, FromFastboot images)
  | None =>
      slot_suffix ← (λ s, let '(r, s) := android_get_boot_slot true s in (unified r, s));
      if negb (default slot_suffix (last_set_active_slot result) =? slot_suffix) then
        modify (λ s, (fst s, platform_reboot (snd s)));;
        raise (UnificationError UnexpectedReturn)
      else
      slot_idx ← lift (unwrap (checked 64 (slot_suffix - 97)));
      slot_idx ← lift (unwrap (checked 8 slot_idx));
      let is_recovery := match reason, mode with RRecovery, _ => true | _, BRecovery => true | _, _ => false end in
      '(load, images) ← android_load_verify_fixup base slot_idx is_recovery load;
      mret (load, FromDisk images)
  end.

(** gbl/libgbl/src/android_boot/mod.rs:302-398, [android_main]. *)
Definition android_main (base cmd_addr : Z) (load : bytes)
    (run_fastboot : (list (GblDisk D) * G) * bytes → GblFastbootResult * ((list (GblDisk D) * G) * bytes))
    : M (bytes * Booted) :=
  '(bcb, load) ← read_bcb base load;
  '(mode, reason, fastboot) ← boot_decision cmd_addr bcb;
  '(result, load) ← (λ s,
    if fastboot : bool then let '(result, (s, load)) := run_fastboot (s, load) in (Ok (result, load), s)
    else (Ok (mkFbResult None None, load), s));
  boot_after_fastboot base mode reason result load.
End Fixup.

(** ** Download buffers *)

(** [slice::chunks_exact]: of the length [n]; panics if it is 0. *)
Fixpoint chunks_exact (fuel : nat) (n : Z) (l : bytes) : list bytes :=
  match fuel with
  | O => []
  | S fuel => if zlen l <? n then [] else slice l 0 n :: chunks_exact fuel n (drop (Z.to_nat n) l)
  end.

(** gbl/libgbl/src/android_boot/mod.rs:266-299, [GblFastbootEntry::run_n]: the download buffers of the [n]
    workers. *)
Definition download_buffers (n : Z) (download : bytes) : result (list bytes) :=
  let n := if n <? 1 then 1 else n in
  let size := zlen download / n in
  if size =? 0 then Panic else
  let chunks := chunks_exact (length download) size download in
  if n <? zlen chunks then Panic else
  Ok (chunks ++ replicate (Z.to_nat (n - zlen chunks)) []).
