(* ===== verification/AndroidBootProps.v ===== *)
(** * libgbl: properties of the Android boot flow

    The final layout of the load buffer, the boot decision, and the download
    buffers. *)

From S2P Require Import Prelude SafeMath LibError Text Utils Abr Slots Block Disk.
From S2P Require Import Partition GblOps.
From S2P Require Import BootParams Avb Misc DtTable Fdt DeviceTree AndroidLoad AndroidLoadProps.
From S2P Require Import GblFastboot GblVars AndroidBoot.
From S2P Require Import BlockSpec BlockRead BlockWrite GptProps GptSync.
From S2P Require Import PartitionProps GblOpsProps.
Import SafeNum.

(** ** The final layout *)

(** The next address that the kernel may start at. *)
Definition kernel_align (a : Z) : Z := a + (- a) mod KERNEL_ALIGNMENT.

Lemma kernel_align_mod a : kernel_align a mod KERNEL_ALIGNMENT = 0.
Proof. unfold kernel_align, KERNEL_ALIGNMENT. rewrite Z.add_mod_idemp_r, Z.add_opp_diag_r by lia. done. Qed.
Lemma kernel_align_least a b : a ≤ b → b mod KERNEL_ALIGNMENT = 0 → a ≤ kernel_align a ≤ b.
Proof.
  intros Hab Hb. unfold kernel_align. assert (0 < KERNEL_ALIGNMENT) as Hp by done.
  pose proof (Z.mod_pos_bound (- a) _ Hp). split; [lia|].
  apply Z.mod_divide in Hb as [q ->]; [|lia].
  pose proof (Z.div_mod (- a) KERNEL_ALIGNMENT ltac:(lia)) as Hd.
  assert (- q ≤ - a / KERNEL_ALIGNMENT); [|nia].
  apply Z.div_le_lower_bound; lia.
Qed.

(** Where the kernel goes, and what the layout looks like. *)
Definition final_layout_ok (base : Z) (load : bytes) (ramdisk : Range) (fdt_off fdt_len : Z) (kernel : Range)
    (load' : bytes) (r f k u : Range) : Prop :=
  length load' = length load ∧
  at_range load' r = at_range load ramdisk ∧ r_start r = r_start ramdisk ∧ r_end r ≤ r_start f ∧
  r_start f = fdt_off ∧ fdt_off + fdt_len ≤ r_end f ∧
  slice load' fdt_off fdt_len = slice load fdt_off fdt_len ∧
  r_end f = r_start k ∧ at_range load' k = at_range load kernel ∧ (base + r_start k) mod KERNEL_ALIGNMENT = 0 ∧
  r_start k ≤ r_start kernel ∧ r_end k = r_start u ∧ r_end u = zlen load.



(** ** Download buffers *)

Lemma chunks_exact_ok fuel n l :
  0 < n → (length l ≤ fuel)%nat →
  zlen (chunks_exact fuel n l) = zlen l / n ∧ Forall (λ c, zlen c = n) (chunks_exact fuel n l) ∧
  mjoin (chunks_exact fuel n l) = slice l 0 (zlen l / n * n).
Proof.
  intros Hn. revert l. induction fuel as [|fuel IH]; intros l Hl; cbn [chunks_exact].
  { destruct l; [|simpl in Hl; lia]. simpl. rewrite Z.div_0_l by lia. split_and!; [done|constructor|done]. }
  destruct (Z.ltb_spec (zlen l) n) as [Hlt|Hge].
  { rewrite Z.div_small by lia. split_and!; [done|constructor|]. by rewrite slice_empty by lia. }
  destruct (IH (drop (Z.to_nat n) l)) as (H1 & H2 & H3); [rewrite length_drop; lia|].
  rewrite length_drop in H1, H3. replace (Z.of_nat (length l - Z.to_nat n)) with (zlen l + -1 * n) in H1, H3 by lia.
  rewrite Z.div_add in H1, H3 by lia. cbn [length]. split_and!; [lia|constructor; [rewrite zlen_slice; lia|done]|].
  change (mjoin (?c :: ?cs)) with (c ++ mjoin cs). rewrite H3.
  assert (1 ≤ zlen l / n) by (apply Z.div_le_lower_bound; lia). pose proof (Z.mul_div_le (zlen l) n Hn).
  replace (zlen l / n * n) with (n + (zlen l / n + -1) * n) by lia.
  rewrite <- (slice_app_split l 0 n) by nia. f_equal; list_ext.
Qed.

(** With room for [n] bytes per worker and worker, the download buffer is split
    into one part of equal size for each of the [n] workers; with less than a
    byte per worker it panics. *)
Lemma download_buffers_exact n download :
  1 ≤ n →
  (n * n ≤ zlen download →
     ∃ bufs, download_buffers n download = Ok bufs ∧ zlen bufs = n ∧
       Forall (λ c, zlen c = zlen download / n) bufs ∧ mjoin bufs = slice download 0 (zlen download / n * n)) ∧
  (zlen download < n → download_buffers n download = Panic).
Proof.
  intros Hn. unfold download_buffers. rewrite (proj2 (Z.ltb_ge n 1)) by lia. split.
  - intros Hl. set (size := zlen download / n).
    assert (Hsz : n ≤ size) by (apply Z.div_le_lower_bound; lia).
    rewrite (proj2 (Z.eqb_neq size 0)) by lia.
    destruct (chunks_exact_ok (length download) size download) as (H1 & H2 & H3); [lia..|].
    assert (Hc : zlen download / size = n).
    { pose proof (Z.div_mod (zlen download) n ltac:(lia)). pose proof (Z.mod_pos_bound (zlen download) n ltac:(lia)).
      symmetry. apply (Z.div_unique_pos _ _ _ (zlen download mod n)); unfold size in *; lia. }
    rewrite H1, Hc, Z.ltb_irrefl, Z.sub_diag. simpl replicate. rewrite app_nil_r.
    eexists. split; [done|]. split; [lia|]. split; [done|]. rewrite H3, Hc. f_equal. lia.
  - intros Hl. by rewrite Z.div_small by lia.
Qed.

(** ** One-shot commands in the misc partition *)

Section OneShot.
Context {D G ZE : Type} `{!BlockIo D} `{!BlockIoSpec D} `{!AvbPlatform G} `{!LibAvb D G} `{!AndroidPlatform G} `{!GblOps G}.
Implicit Types (d : GblDisk D) (C : bytes).

(** The misc partition is the bytes from [lo] to [hi) of the device [d] at [idx],
    which answers and holds [C]; the buffers suit the device. *)
Record misc_at (devs : list (GblDisk D)) (i : BlockInfo) C (idx : Z) d (p : GblPartition) (lo hi base cmd_addr : Z) : Prop := {
  mi_unique : check_part_unique devs (str "misc") = Ok (idx, p);
  mi_dev : devs !! Z.to_nat idx = Some d;
  mi_find : gd_find_partition d (Some (str "misc")) = Ok p;
  mi_range : part_absolute_range p = Ok (lo, hi);
  mi_bounds : 0 ≤ lo ∧ lo + BCB_SIZE_BYTES ≤ hi ∧ hi ≤ zlen C;
  mi_calm : device_calm i C d;
  mi_buffer : buffer_ok i base BCB_SIZE_BYTES;
  mi_cmd : buffer_ok i cmd_addr COMMAND_FIELD_SIZE;
}.

(** A transfer leaves the partition where it is. *)
Lemma misc_moved devs i C idx d p lo hi base cmd_addr C' k :
  misc_at devs i C idx d p lo hi base cmd_addr → calm i C' k → zlen C' = zlen C →
  misc_at (<[Z.to_nat idx := with_disk d k]> devs) i C' idx (with_disk d k) p lo hi base cmd_addr.
Proof.
  intros [Hu Hd Hf Hr Hb Hc H1 H2] Hk Hl. split; try done.
  - by rewrite unique_with_disk.
  - apply list_lookup_insert_eq. by eapply lookup_lt_Some.
  - by rewrite Hl.
Qed.

Lemma misc_read devs i C idx d p lo hi base cmd_addr load g :
  misc_at devs i C idx d p lo hi base cmd_addr → BCB_SIZE_BYTES ≤ zlen load →
  ∃ k bcb load', read_bcb (ZE := ZE) base load (devs, g) = (Ok (bcb, load'), (<[Z.to_nat idx := with_disk d k]> devs, g)) ∧
    calm i C k ∧ bcb_from_bytes (slice C lo BCB_SIZE_BYTES) = Ok bcb.
Proof.
  intros [Hu Hd Hf Hr Hb Hc H1 H2] Hl. unfold read_bcb. rewrite bind_run, lift_run, get_range_Some by (unfold BCB_SIZE_BYTES in *; lia).
  cbn [ok_or]. rewrite Z.sub_0_r. set (out := slice load 0 BCB_SIZE_BYTES).
  assert (Hout : zlen out = BCB_SIZE_BYTES) by (unfold out; rewrite zlen_slice; unfold BCB_SIZE_BYTES in *; lia).
  rewrite bind_run. cbn [fst snd].
  unfold read_from_partition_sync, read_from_partition, read_unique_partition.
  rewrite bind_run. cbv [gets]. cbn [fst]. rewrite bind_run, lift_run, Hu. unfold on_dev. cbn [fst snd]. rewrite Hd.
  destruct (device_read_run i C d (Some (str "misc")) p lo hi out base 0) as (k & -> & Hk);
    rewrite ?Hout; try done; try (unfold BCB_SIZE_BYTES in *; lia).
  cbn [snd mbind outcome_bind]. rewrite Z.add_0_r.
  set (b := slice C lo BCB_SIZE_BYTES).
  assert (Hz : zlen b = BCB_SIZE_BYTES) by (unfold b; rewrite zlen_slice; unfold BCB_SIZE_BYTES in *; lia).
  unfold unified. cbn [map_err]. rewrite bind_run, lift_run.
  unfold bcb_from_bytes. rewrite get_range_Some by lia. cbn [ok_or mbind outcome_bind map_err mret ST_ret].
  by eexists _, _, _.
Qed.

(** The message after its command field was zeroed. *)
Lemma cleared_bcb C lo bcb bcb' :
  0 ≤ lo → lo + BCB_SIZE_BYTES ≤ zlen C → bcb_from_bytes (slice C lo BCB_SIZE_BYTES) = Ok bcb →
  bcb_from_bytes (slice (splice C lo (replicate (Z.to_nat COMMAND_FIELD_SIZE) 0)) lo BCB_SIZE_BYTES) = Ok bcb' →
  boot_mode bcb' = Ok BNormal ∧
  status bcb' = status bcb ∧ recovery bcb' = recovery bcb ∧ stage bcb' = stage bcb ∧ reserved bcb' = reserved bcb.
Proof.
  intros Hlo Hhi. unfold bcb_from_bytes, BCB_SIZE_BYTES, COMMAND_FIELD_SIZE in *.
  set (zeros := replicate (Z.to_nat 32) 0). assert (Hz : zlen zeros = 32) by done.
  set (C2 := splice C lo zeros). assert (HC2 : zlen C2 = zlen C) by (unfold C2; rewrite length_splice; lia).
  rewrite !get_range_Some by (rewrite ?zlen_slice; lia). cbn [ok_or mbind outcome_bind].
  intros [= <-] [= <-]. cbn [status recovery stage reserved]. rewrite Z.sub_0_r.
  assert (Hsame : ∀ a m, 32 ≤ a → 0 ≤ m → a + m ≤ 2048 →
    slice (slice (slice C2 lo 2048) 0 2048) a m = slice (slice (slice C lo 2048) 0 2048) a m).
  { intros a m ? ? ?. rewrite !slice_slice by lia. unfold C2. rewrite slice_splice_disj by lia. done. }
  split; [|rewrite !Hsame by lia; done].
  unfold boot_mode. cbn [command]. rewrite !slice_slice by lia. unfold C2.
  by rewrite !Z.add_0_r, slice_splice_same by lia.
Qed.

(** A one-shot command to stop in fastboot is obeyed once: it makes
    [android_main] enter fastboot and clears the command, so that the next boot
    reads no command from the bootloader message, whose other fields are as
    before. *)
Theorem bootonce_is_once devs i C idx d p lo hi base cmd_addr load load2 bcb g g1 reason :
  misc_at devs i C idx d p lo hi base cmd_addr → BCB_SIZE_BYTES ≤ zlen load → BCB_SIZE_BYTES ≤ zlen load2 →
  bcb_from_bytes (slice C lo BCB_SIZE_BYTES) = Ok bcb → boot_mode bcb = Ok BootloaderBootOnce →
  or_default (D := D) (ZE := ZE) get_reboot_reason RNormal (devs, g) = (Ok reason, (devs, g1)) →
  ∃ load1 s1 s2 bcb' load' s3,
    read_bcb (ZE := ZE) base load (devs, g) = (Ok (bcb, load1), s1) ∧
    boot_decision (ZE := ZE) cmd_addr bcb s1 = (Ok (BootloaderBootOnce, reason, true), s2) ∧
    read_bcb (ZE := ZE) base load2 s2 = (Ok (bcb', load'), s3) ∧
    boot_mode bcb' = Ok BNormal ∧
    status bcb' = status bcb ∧ recovery bcb' = recovery bcb ∧ stage bcb' = stage bcb ∧ reserved bcb' = reserved bcb.
Proof.
  intros Hm Hl Hl2 Hbcb Hmode Hreason.
  destruct (misc_read _ _ _ _ _ _ _ _ _ _ load g Hm Hl) as (k & bcb0 & load1 & E1 & Hk & Hb0).
  rewrite Hbcb in Hb0. injection Hb0 as <-.
  pose proof (misc_moved _ _ _ _ _ _ _ _ _ _ C k Hm Hk eq_refl) as Hm1.
  destruct Hm1 as [Hu Hd Hf Hr Hb Hc H1 H2] eqn:Em. clear Em.
  set (devs1 := <[Z.to_nat idx := with_disk d k]> devs) in *. set (d1 := with_disk d k) in *.
  set (zeros := replicate (Z.to_nat COMMAND_FIELD_SIZE) 0).
  assert (Hzl : zlen zeros = COMMAND_FIELD_SIZE) by done.
  destruct (device_write_run i C d1 (Some (str "misc")) p lo hi zeros cmd_addr 0) as (k2 & E2 & Hk2);
    rewrite ?Hzl; try done; try (unfold BCB_SIZE_BYTES, COMMAND_FIELD_SIZE in *; lia).
  rewrite Z.add_0_r in Hk2. set (C2 := splice C lo zeros) in *.
  assert (HC2 : zlen C2 = zlen C) by (unfold C2; rewrite length_splice; unfold BCB_SIZE_BYTES, COMMAND_FIELD_SIZE in *; lia).
  pose proof (misc_moved _ _ _ _ _ _ _ _ _ _ C2 k2 Hm1 Hk2 HC2) as Hm2.
  destruct (misc_read _ _ _ _ _ _ _ _ _ _ load2 g1 Hm2 Hl2) as (k3 & bcb' & load' & E3 & Hk3 & Hb3).
  assert (Hreason' : ∀ ds, or_default (D := D) (ZE := ZE) get_reboot_reason RNormal (ds, g) = (Ok reason, (ds, g1))).
  { intros ds. unfold or_default in *. cbn [fst snd] in *. destruct (get_reboot_reason g) as [[] ?]; simplify_eq/=; done. }
  eexists load1, _, (_, g1), bcb', load', _. split; [exact E1|]. split; [|split; [exact E3|]].
  - unfold boot_decision. rewrite Hmode, bind_run, lift_run, bool_decide_true by done. rewrite bind_run.
    unfold write_to_partition_sync, write_to_partition, write_unique_partition. cbn [fst snd].
    rewrite bind_run. cbv [gets]. cbn [fst]. rewrite bind_run, lift_run, Hu. unfold on_dev. cbn [fst snd]. rewrite Hd.
    fold zeros. change COMMAND_FIELD_OFFSET with 0. rewrite E2. cbn [unified map_err].
    rewrite bind_run, Hreason'. by destruct reason.
  - apply (cleared_bcb C lo bcb bcb'); [unfold BCB_SIZE_BYTES in *; lia..|done|done].
Qed.
End OneShot.

(** ** Example *)

Import RamBlockSpec.

Module OnceExample.
#[export] Instance verifier : LibAvb RamBlock.RamBlockIo unit := {|
  SlotVerifyError := unit;
  slot_verify _ _ _ a := (inr (tt, None), a);
  cert_validate_vbmeta_public_key _ _ := raise IoNotImplemented;
|}.
(** A disk that is one misc partition, with the command. *)
Definition contents : bytes := splice ex_blank 0 (str "bootonce-bootloader").
Definition device : GblDisk RamBlock.RamBlockIo :=
  mkGblDisk (cell (ex_disk contents)) (cell (RawTable ex_misc (70 * 512))) ex_info.
Definition message : BootloaderMessage :=
  mkBCB (str "bootonce-bootloader" ++ replicate 13 0) (replicate 32 0) (replicate 768 0) (replicate 32 0) (replicate 1184 0).

Lemma misc_ok :
  misc_at [device] ex_info contents 0 device (RawPartition ex_misc (70 * 512)) 0 (70 * 512) 4096 5000.
Proof.
  assert (Hk := ex_disk_ok contents ltac:(by_compute)). split; try reflexivity.
  - split_and!; by_compute.
  - split; [done|]. split; [exact Hk|]. reflexivity.
  - split; by_compute.
  - split; by_compute.
Qed.
End OnceExample.
Import OnceExample.

Lemma bootonce_is_once_witness :
  ∃ load1 s1 s2 bcb' load' s3,
    read_bcb (ZE := unit) 4096 (replicate 2048 0) ([device], tt) = (Ok (message, load1), s1) ∧
    boot_decision (ZE := unit) (GblOps0 := fuchsia_platform) 5000 message s1 = (Ok (BootloaderBootOnce, RNormal, true), s2) ∧
    read_bcb (ZE := unit) 4096 (replicate 2048 0) s2 = (Ok (bcb', load'), s3) ∧
    boot_mode bcb' = Ok BNormal ∧
    status bcb' = status message ∧ recovery bcb' = recovery message ∧ stage bcb' = stage message ∧
    reserved bcb' = reserved message.
Proof.
  apply (bootonce_is_once (ZE := unit) (GblOps0 := fuchsia_platform) [device] ex_info contents 0 device
    (RawPartition ex_misc (70 * 512)) 0 (70 * 512) 4096 5000 (replicate 2048 0) (replicate 2048 0) message tt tt RNormal).
  - exact misc_ok.
  - by_compute.
  - by_compute.
  - vm_compute. reflexivity.
  - vm_compute. reflexivity.
  - reflexivity.
Defined.
