(* ===== verification/Libc.v ===== *)
(** * libc: the C library functions the C parts of the bootloader link to

    Models src/gbl/libc/src: strtoul.rs, strchr.rs, strcmp.rs and the memory
    functions of lib.rs. A pointer to a C string is [None] when it is null, and
    otherwise the bytes before the terminating nul; a pointer into it that a
    function returns is an offset. The heap block that [gbl_malloc] gets from
    the global allocator is its address and its bytes. *)

From S2P Require Import Prelude SafeMath LibError Text.
Import SafeNum.

(** ** Numbers *)

(** [u8::is_ascii_whitespace]. *)
Definition is_ascii_whitespace (c : Z) : bool :=
  (c =? 32) || (c =? 9) || (c =? 10) || (c =? 12) || (c =? 13).

(** gbl/libc/src/strtoul.rs:21-102, [strtoul]: the loop over the leading whitespace; the
    number of bytes it skips. *)
Fixpoint skip_whitespace (l : bytes) : Z :=
  match l with
  | c :: l => if is_ascii_whitespace c then 1 + skip_whitespace l else 0
  | [] => 0
  end.

(** gbl/libc/src/strtoul.rs:21-102, [strtoul]: the sign. *)
Definition strtoul_sign (l : bytes) (pos : Z) : Z * bool :=
  match l !! Z.to_nat pos with
  | Some 43 => (pos + 1, false)
  | Some 45 => (pos + 1, true)
  | _ => (pos, false)
  end.

(** gbl/libc/src/strtoul.rs:21-102, [strtoul]: the hexadecimal prefix. The length of an
    empty string has no predecessor. *)
Definition hex_prefix (l : bytes) (pos base : Z) : result (Z * Z) :=
  if (base =? 16) || (base =? 0) then
    last ← arith 64 (zlen l - 1);
    if pos <? last then
      c ← unwrap (l !! Z.to_nat pos);
      x ← unwrap (l !! Z.to_nat (pos + 1));
      Ok (if (c =? 48) && ((x =? 120) || (x =? 88)) then (pos + 2, 16) else (pos, base))
    else Ok (pos, base)
  else Ok (pos, base).
(** gbl/libc/src/strtoul.rs:21-102, [strtoul]: the octal prefix. *)
Definition oct_prefix (l : bytes) (pos base : Z) : result (Z * Z) :=
  if ((base =? 8) || (base =? 0)) && (pos <? zlen l) then
    c ← unwrap (l !! Z.to_nat pos);
    Ok (if c =? 48 then (pos + 1, 8) else (pos, base))
  else Ok (pos, base).
(** gbl/libc/src/strtoul.rs:21-102, [strtoul]: the base. *)
Definition strtoul_prefix (l : bytes) (pos base : Z) : result (Z * Z) :=
  '(pos, base) ← hex_prefix l pos base;
  '(pos, base) ← oct_prefix l pos base;
  Ok (pos, if base =? 0 then 10 else base).

(** gbl/libc/src/strtoul.rs:21-102, [strtoul]: the value of a digit. *)
Definition digit_value (base symbol : Z) : option Z :=
  if ((48 <=? symbol) && (symbol <=? 55)) && (base =? 8) then Some (symbol - 48)
  else if ((48 <=? symbol) && (symbol <=? 57)) && ((base =? 10) || (base =? 16)) then Some (symbol - 48)
  else if ((97 <=? symbol) && (symbol <=? 102)) && (base =? 16) then Some (symbol - 97 + 10)
  else if ((65 <=? symbol) && (symbol <=? 70)) && (base =? 16) then Some (symbol - 65 + 10)
  else None.

(** gbl/libc/src/strtoul.rs:21-102, [strtoul]: the loop over the digits, from the byte at
    [pos]. *)
Fixpoint strtoul_digits (base : Z) (l : bytes) (pos : Z) (res : SafeNum) : Z * SafeNum :=
  match l with
  | [] => (pos, res)
  | symbol :: l =>
      match digit_value base symbol with
      | None => (pos, res)
      | Some value =>
          strtoul_digits base l (pos + 1)
            (add here (mul here res (from_int here TI32 base)) (from_int here TU8 value))
      end
  end.

(** gbl/libc/src/strtoul.rs:21-102, [strtoul]: the value and the position that is stored
    to [endptr]. *)
Definition strtoul (s : option bytes) (base : Z) : result (Z * Z) :=
  assert_that (bool_decide (is_Some s));;
  assert_that ((base =? 0) || (base =? 8) || (base =? 10) || (base =? 16));;
  l ← unwrap s;
  let '(pos, negative) := strtoul_sign l (skip_whitespace l) in
  '(pos, base) ← strtoul_prefix l pos base;
  let '(pos, res) := strtoul_digits base (drop (Z.to_nat pos) l) pos (Val 0) in
  Ok (match try_into here TU64 res with
      | Ok v => if negative then wrap 64 (- v) else v
      | _ => 2 ^ 64 - 1
      end, pos).

(** ** Strings and memory *)

(** gbl/libc/src/strchr.rs:21-38, [strchr]: an offset, [None] for the null pointer. *)
Definition strchr (ptr : option bytes) (ch : Z) : result (option Z) :=
  assert_that (bool_decide (is_Some ptr));;
  l ← unwrap ptr;
  Ok (position (Z.land ch 0xff) (l ++ [0])).

(** gbl/libc/src/strchr.rs:40-57, [strrchr]. *)
Definition strrchr (ptr : option bytes) (ch : Z) : result (option Z) :=
  assert_that (bool_decide (is_Some ptr));;
  l ← unwrap ptr;
  Ok ((λ i, zlen l - i) <$> position (Z.land ch 0xff) (reverse (l ++ [0]))).

(** [Ordering as c_int]. *)
Definition ordering (c : comparison) : Z := match c with Lt => -1 | Eq => 0 | Gt => 1 end.

(** [Ord::cmp] of byte slices: lexicographic. *)
Fixpoint cmp_bytes (a b : bytes) : comparison :=
  match a, b with
  | [], [] => Eq
  | [], _ => Lt
  | _, [] => Gt
  | x :: a, y :: b => match x ?= y with Eq => cmp_bytes a b | c => c end
  end.

(** gbl/libc/src/strcmp.rs:21-32, [strcmp]: [Ord] of two [CStr]. *)
Definition strcmp (s1 s2 : bytes) : Z := ordering (cmp_bytes s1 s2).

(** A [c_char] as a number: signed on some architectures, unsigned on others. *)
Definition c_char (is_signed : bool) (b : Z) : Z := if is_signed && (128 <=? b) then b - 256 else b.

(** gbl/libc/src/strcmp.rs:34-53, [strncmp]: the memory from [s1] and [s2]; to read
    behind its end is a panic here (and undefined in the code). *)
Fixpoint strncmp (is_signed : bool) (s1 s2 : bytes) (n : nat) : result Z :=
  match n with
  | O => Ok (ordering Eq)
  | S n =>
      match s1, s2 with
      | l :: s1, r :: s2 =>
          let cmp := c_char is_signed l ?= c_char is_signed r in
          if negb (bool_decide (cmp = Eq)) || (c_char is_signed l =? 0) then Ok (ordering cmp)
          else strncmp is_signed s1 s2 n
      | _, _ => Panic
      end
  end.

(** gbl/libc/src/lib.rs:179-199, [memchr]: the loop over the buffer; to read behind its
    end is a panic here (and undefined in the code). *)
Fixpoint memchr_loop (l : bytes) (target i : Z) (count : nat) : result (option Z) :=
  match count with
  | O => Ok None
  | S count =>
      match l with
      | c :: l => if c =? target then Ok (Some i) else memchr_loop l target (i + 1) count
      | [] => Panic
      end
  end.
(** gbl/libc/src/lib.rs:179-199, [memchr]. *)
Definition memchr (ptr : option bytes) (ch count : Z) : result (option Z) :=
  assert_that (bool_decide (is_Some ptr));;
  l ← unwrap ptr;
  memchr_loop l (Z.land ch 0xff) 0 (Z.to_nat count).

(** gbl/libc/src/lib.rs:201-213, [strnlen]. *)
Definition strnlen (s : option bytes) (maxlen : Z) : result Z :=
  p ← memchr s 0 maxlen;
  Ok (default maxlen p).

(** ** The heap *)

(** [core::alloc::Layout]. *)
Record Layout := mkLayout { l_size : Z; l_align : Z }.
Definition is_pow2 (a : Z) : bool := (0 <? a) && (a =? 2 ^ Z.log2 a).
(** [Layout::from_size_align]. *)
Definition layout (size align : Z) : option Layout :=
  if is_pow2 align && ((size + align - 1) / align * align <=? 2 ^ 63 - 1)
  then Some (mkLayout size align) else None.

(** What the global allocator hands out for a layout: the address of a block
    and its bytes, or nothing. *)
Definition Alloc := Layout → option (Z * bytes).

(** gbl/libc/src/lib.rs:62-120, [gbl_malloc]: the pointer, and the block of the
    allocator that it points into, with the size of the block and the pointer's
    offset in it stored in front of the pointer. *)
Definition gbl_malloc (alloc : Alloc) (request_size alignment : Z) : option (Z * (Z * bytes)) :=
  let into s := match try_into here TUsize s with Ok v => Some v | _ => None end in
  let num := from_int here TUsize in
  let prefix_size := 8 + 8 in
  pad ← into (add here (num alignment) (num prefix_size));
  size ← into (add here (num request_size) (num pad));
  lay ← layout size 1;
  '(ptr, mem) ← alloc lay;
  if ptr =? 0 then None else
  let ret_address := round_up here (add here (num ptr) (num prefix_size)) (num alignment) in
  let ret_offset := sub here ret_address (num ptr) in
  align_offset ← into (sub here ret_offset (num 8));
  size_offset ← into (sub here (num align_offset) (num 8));
  offset ← into ret_offset;
  Some (ptr + offset,
        (ptr, splice (splice mem size_offset (le_bytes 8 size)) align_offset (le_bytes 8 offset))).

(** gbl/libc/src/lib.rs:122-177, [gbl_free]: what it passes to the allocator, [None] for
    the null pointer. [mem] reads the memory of the program. *)
Definition gbl_free (mem : Z → Z → bytes) (ptr alignment : Z) : result (option (Z * Layout)) :=
  if ptr =? 0 then Ok None else
  let align_offset := 8 in
  let size_offset := align_offset + 8 in
  let offset := le_val (mem (ptr - align_offset) 8) in
  let size := le_val (mem (ptr - size_offset) 8) in
  lay ← unwrap (layout size alignment);
  Ok (Some (ptr - offset, lay)).
