(* ===== verification/LibcProps.v ===== *)
(** * libc: what the functions compute

    Numbers are read exactly, with saturation; the searches find the first and
    the last occurrence; the two comparisons agree for unsigned characters; a
    block of the heap is aligned, inside what the allocator gave, and found
    again when it is freed. *)

From stdpp Require Import sets.
From S2P Require Import Prelude SafeMath LibError Text Libc.
Import SafeNum.

(** ** Numbers *)

(** The number [a], if it is a [u64]. *)
Definition num (a : Z) : SafeNum := ok_or_at here (checked 64 a).

Lemma num_step a base v :
  0 ≤ a → 1 ≤ base < 2 ^ 31 → 0 ≤ v < 256 →
  add here (mul here (num a) (from_int here TI32 base)) (from_int here TU8 v) = num (a * base + v).
Proof.
  intros Ha Hb Hv. rewrite !from_int_u64 by (unfold u64_ok; lia).
  destruct (decide (a * base + v < 2 ^ 64)); [destruct (decide (a < 2 ^ 64))|].
  - unfold num. rewrite !checked_Some by lia. cbn [ok_or_at].
    rewrite sn_mul by (unfold u64_ok; nia). apply sn_add. unfold u64_ok. nia.
  - exfalso. nia.
  - unfold num. rewrite (checked_None 64 (a * base + v)) by lia.
    destruct (decide (a < 2 ^ 64)).
    + rewrite (checked_Some 64 a) by lia. cbn [ok_or_at].
      destruct (decide (a * base < 2 ^ 64)).
      * rewrite sn_mul by (unfold u64_ok; nia). apply sn_add_over. unfold u64_ok. lia.
      * unfold mul. cbn [arith_op]. unfold checked_mul. by rewrite checked_None by nia.
    + by rewrite (checked_None 64 a) by lia.
Qed.

Lemma digit_value_bound base c v : digit_value base c = Some v → 0 ≤ v < 16.
Proof. unfold digit_value. intros H. repeat case_match; simplify_eq; bools; lia. Qed.

Lemma digits_run base ds vs rest pos a :
  1 ≤ base < 2 ^ 31 → 0 ≤ a →
  Forall2 (λ c v, digit_value base c = Some v) ds vs →
  (∀ c, head rest = Some c → digit_value base c = None) →
  strtoul_digits base (ds ++ rest) pos (num a) =
    (pos + zlen ds, num (foldl (λ a d, a * base + d) a vs)).
Proof.
  intros Hb Ha Hds Hrest. revert pos a Ha. induction Hds as [|c v ds vs Hc _ IH]; intros pos a Ha.
  - simpl. rewrite Z.add_0_r. destruct rest as [|c rest]; [done|]. simpl. by rewrite (Hrest c).
  - pose proof (digit_value_bound _ _ _ Hc). simpl. rewrite Hc, num_step, IH by (lia || nia).
    f_equal. lia.
Qed.

(** The prefix of a number in the given base, in front of the text [l], and the
    base it selects. *)
Inductive prefix : Z → bytes → bytes → Z → Prop :=
| prefix_hex base x l : base = 0 ∨ base = 16 → x = 120 ∨ x = 88 → prefix base [48; x] l 16
| prefix_oct base l : base = 0 ∨ base = 8 →
    (∀ x, head l = Some x → base = 0 → x ≠ 120 ∧ x ≠ 88) → prefix base [48] l 8
| prefix_none_dec base l : base = 0 ∨ base = 10 → (base = 0 → head l ≠ Some 48) → prefix base [] l 10
| prefix_none_oct l : head l ≠ Some 48 → prefix 8 [] l 8
| prefix_none_hex l : (∀ x, take 2 l = [48; x] → x ≠ 120 ∧ x ≠ 88) → prefix 16 [] l 16.

(** The sign in front of the text [l]. *)
Inductive sign : bytes → bytes → bool → Prop :=
| sign_plus l : sign [43] l false
| sign_minus l : sign [45] l true
| sign_none l : (∀ c, head l = Some c → c ≠ 43 ∧ c ≠ 45) → sign [] l false.

Lemma skip_whitespace_run ws l :
  Forall (λ c, is_ascii_whitespace c = true) ws →
  (∀ c, head l = Some c → is_ascii_whitespace c = false) →
  skip_whitespace (ws ++ l) = zlen ws.
Proof.
  intros Hws Hl. induction Hws as [|c ws Hc _ IH].
  - destruct l as [|c l]; [done|]. simpl. by rewrite (Hl c).
  - simpl. rewrite Hc, IH. lia.
Qed.

Lemma sign_run ws sg l neg :
  sign sg l neg → strtoul_sign (ws ++ sg ++ l) (zlen ws) = (zlen ws + zlen sg, neg).
Proof.
  unfold strtoul_sign. rewrite Nat2Z.id. rewrite lookup_app_r, Nat.sub_diag by lia.
  intros H. inversion H as [| |? Hc]; subst; simpl; [done..|].
  rewrite Z.add_0_r. destruct l as [|c l]; [done|]. simpl.
  destruct (Hc c eq_refl). destruct c as [|p|p]; [done| |done].
  do 6 (destruct p as [p|p|]; try done).
Qed.

Lemma lookup_after (w t : bytes) i : i = zlen w → (w ++ t) !! Z.to_nat i = head t.
Proof. intros ->. rewrite lookup_app_r by lia. rewrite Nat2Z.id, Nat.sub_diag. by destruct t. Qed.
Lemma lookup_after_1 (w t : bytes) i : i = zlen w + 1 → (w ++ t) !! Z.to_nat i = t !! 1%nat.
Proof. intros ->. rewrite lookup_app_r by lia. f_equal. lia. Qed.

(** The prefixes are decided by the two bytes at the position. *)
Lemma hex_prefix_at w t base :
  0 < zlen (w ++ t) < 2 ^ 63 →
  hex_prefix (w ++ t) (zlen w) base =
    if (base =? 16) || (base =? 0) then
      match t with
      | c :: x :: _ =>
          Ok (if (c =? 48) && ((x =? 120) || (x =? 88)) then (zlen w + 2, 16) else (zlen w, base))
      | _ => Ok (zlen w, base)
      end
    else Ok (zlen w, base).
Proof.
  intros Hlen. unfold hex_prefix, arith. case_if; [|done].
  rewrite checked_Some by lia. cbn [unwrap]. rewrite ok_bind, length_app.
  rewrite (lookup_after w t (zlen w)), (lookup_after_1 w t (zlen w + 1)) by done.
  destruct t as [|c [|x t]]; simpl length; lia_bools; done.
Qed.
Lemma oct_prefix_at w t base :
  oct_prefix (w ++ t) (zlen w) base =
    if (base =? 8) || (base =? 0) then
      match t with
      | c :: _ => Ok (if c =? 48 then (zlen w + 1, 8) else (zlen w, base))
      | [] => Ok (zlen w, base)
      end
    else Ok (zlen w, base).
Proof.
  unfold oct_prefix. destruct ((base =? 8) || (base =? 0)); [|done].
  rewrite (lookup_after w t (zlen w)), length_app by done.
  destruct t as [|c t]; simpl length; lia_bools; done.
Qed.

Lemma prefix_run w pre l base base' :
  prefix base pre l base' → 0 < zlen (w ++ pre ++ l) < 2 ^ 63 →
  strtoul_prefix (w ++ pre ++ l) (zlen w) base = Ok (zlen w + zlen pre, base').
Proof.
  intros Hp Hlen. pose proof (hex_prefix_at w (pre ++ l) base Hlen) as Hh. unfold strtoul_prefix.
  inversion Hp as [b x k Hb Hx|b k Hb Hx|b k Hb Hx|k Hx|k Hx]; subst; cbn [app] in *.
  - assert (Ex : (x =? 120) || (x =? 88) = true) by (destruct Hx as [->| ->]; done).
    rewrite Ex in Hh. rewrite Hh. by destruct Hb as [->| ->].
  - assert (Hh' : hex_prefix (w ++ 48 :: l) (zlen w) base = Ok (zlen w, base)).
    { rewrite Hh. destruct Hb as [->| ->]; [|done]. destruct l as [|x l]; [done|].
      destruct (Hx x) as [? ?]; [done..|]. by rewrite !(proj2 (Z.eqb_neq x _)). }
    rewrite Hh', ok_bind, oct_prefix_at. by destruct Hb as [->| ->].
  - assert (Hc : ∀ c k, base = 0 → l = c :: k → (c =? 48) = false).
    { intros c k E ->. apply Z.eqb_neq. intros ->. by apply Hx. }
    assert (Hh' : hex_prefix (w ++ l) (zlen w) base = Ok (zlen w, base)).
    { rewrite Hh. destruct Hb as [->| ->]; [|done]. destruct l as [|c [|x l]]; [done..|].
      by rewrite (Hc c _ eq_refl eq_refl). }
    rewrite Hh', ok_bind, oct_prefix_at, Z.add_0_r. destruct Hb as [->| ->]; [|done].
    destruct l as [|c l]; [done|]. by rewrite (Hc c _ eq_refl eq_refl).
  - rewrite Hh. cbn [orb Z.eqb Pos.eqb]. rewrite ok_bind, oct_prefix_at, Z.add_0_r. cbn.
    destruct l as [|c l]; [done|]. rewrite (proj2 (Z.eqb_neq c 48)); [done|]. intros ->. by apply Hx.
  - assert (Hh' : hex_prefix (w ++ l) (zlen w) 16 = Ok (zlen w, 16)).
    { rewrite Hh. cbn. destruct l as [|c [|x l]]; [done..|].
      destruct (decide (c = 48)) as [->|]; [|by rewrite (proj2 (Z.eqb_neq c 48))].
      destruct (Hx x eq_refl). by rewrite !(proj2 (Z.eqb_neq x _)). }
    by rewrite Hh', ok_bind, oct_prefix_at, Z.add_0_r.
Qed.

(** What [strtoul] makes of the number [v] with a sign. *)
Definition strtoul_result (neg : bool) (v : Z) : Z :=
  if v <? 2 ^ 64 then if neg then (- v) mod 2 ^ 64 else v else 2 ^ 64 - 1.

(** [strtoul] on whitespace, a sign, a prefix of the base and the digits
    [ds] of the values [vs], followed by anything that is not a digit: the value
    is the number the digits denote, negated modulo 2^64 behind a minus sign and
    [ULONG_MAX] if it does not fit, and the end is behind the last digit. *)
Theorem strtoul_exact ws sg neg pre base base' ds vs rest :
  base ∈ [0; 8; 10; 16] →
  Forall (λ c, is_ascii_whitespace c = true) ws →
  (∀ c, head (sg ++ pre ++ ds ++ rest) = Some c → is_ascii_whitespace c = false) →
  sign sg (pre ++ ds ++ rest) neg →
  prefix base pre (ds ++ rest) base' →
  Forall2 (λ c v, digit_value base' c = Some v) ds vs →
  (∀ c, head rest = Some c → digit_value base' c = None) →
  0 < zlen (ws ++ sg ++ pre ++ ds ++ rest) < 2 ^ 63 →
  strtoul (Some (ws ++ sg ++ pre ++ ds ++ rest)) base =
    Ok (strtoul_result neg (digits_val base' vs), zlen (ws ++ sg ++ pre ++ ds)).
Proof.
  intros Hbase Hws Hnws Hsg Hpre Hds Hrest Hlen. unfold strtoul.
  rewrite bool_decide_true by done. cbn [assert_that unwrap]. rewrite !ok_bind.
  assert ((base =? 0) || (base =? 8) || (base =? 10) || (base =? 16) = true) as ->.
  { repeat (apply elem_of_cons in Hbase as [->|Hbase]; [done|]). by apply elem_of_nil in Hbase. }
  cbn [assert_that]. rewrite !ok_bind.
  rewrite (skip_whitespace_run ws), (sign_run ws sg _ neg) by done.
  replace (zlen ws + zlen sg) with (zlen (ws ++ sg)) by (rewrite length_app; lia).
  rewrite (app_assoc ws sg) in *. rewrite (prefix_run _ _ _ _ base'), ok_bind by done.
  replace (zlen (ws ++ sg) + zlen pre) with (zlen ((ws ++ sg) ++ pre)) by (rewrite !length_app; lia).
  rewrite (app_assoc (ws ++ sg) pre), Nat2Z.id, drop_app_length.
  assert (Hb' : 1 ≤ base' < 2 ^ 31) by (inversion Hpre; lia).
  change (Val 0) with (num 0). rewrite (digits_run base' ds vs) by done.
  fold (digits_val base' vs). rewrite <- !app_assoc, !length_app, !Nat2Z.inj_add.
  assert (Hv : 0 ≤ digits_val base' vs).
  { unfold digits_val. clear -Hds Hb'. cut (∀ a, 0 ≤ a → 0 ≤ foldl (λ a d, a * base' + d) a vs); [auto with lia|].
    induction Hds as [|c v ds vs Hc _ IH]; intros a Ha; [done|]. simpl. apply IH.
    pose proof (digit_value_bound _ _ _ Hc). nia. }
  unfold strtoul_result, num. destruct (_ <? 2 ^ 64) eqn:E; bools.
  - rewrite checked_Some by lia. simpl. unfold in_type, int_min, int_max. lia_bools. simpl.
    apply f_equal, f_equal2; [done|lia].
  - rewrite checked_None by lia. simpl. apply f_equal, f_equal2; [done|lia].
Qed.

(** [strtoul] of blank, minus, 0x1F and a trailing letter. *)
Lemma strtoul_exact_witness :
  strtoul (Some (str " -0x1Fg")) 0 = Ok (2 ^ 64 - 31, 6).
Proof.
  apply (strtoul_exact [32] [45] true [48; 120] 0 16 [49; 70] [1; 15] [103]).
  - set_solver.
  - repeat constructor.
  - intros c [= <-]. done.
  - constructor.
  - constructor; auto.
  - repeat constructor.
  - intros c [= <-]. done.
  - done.
Defined.

(** An empty string has no byte at index 0, nor a last index: in the bases that
    have a hexadecimal prefix it makes [strtoul] panic; the other bases give 0. *)
Theorem strtoul_empty base :
  base ∈ [0; 8; 10; 16] →
  strtoul (Some []) base = if bool_decide (base ∈ [0; 16]) then Panic else Ok (0, 0).
Proof.
  intros H. repeat (apply elem_of_cons in H as [->|H]; [by vm_compute|]). by apply elem_of_nil in H.
Qed.

(** ** Searches *)

Lemma position_spec c l i :
  position c l = Some i ↔ 0 ≤ i ∧ l !! Z.to_nat i = Some c ∧ c ∉ take (Z.to_nat i) l.
Proof.
  revert i. induction l as [|b l IH]; intros i; simpl; [naive_solver|].
  destruct (b =? c) eqn:E; bools.
  - subst b. split; [intros [= <-]; simpl; set_solver|]. intros (Hi & Hl & Hn).
    destruct (Z.to_nat i) as [|k] eqn:Ek; [f_equal; lia|]. simpl in Hn. set_solver.
  - rewrite fmap_Some. setoid_rewrite IH. split.
    + intros (j & (Hj & Hl & Hn) & ->). rewrite Z2Nat.inj_succ by lia. simpl. set_solver by lia.
    + intros (Hi & Hl & Hn). destruct (Z.to_nat i) as [|k] eqn:Ek; [simpl in *; congruence|].
      exists (i - 1). replace (Z.to_nat (i - 1)) with k by lia. simpl in *. set_solver by lia.
Qed.
Lemma position_None c l : position c l = None ↔ c ∉ l.
Proof.
  induction l as [|b l IH]; simpl; [set_solver|]. destruct (b =? c) eqn:E; bools; [set_solver|].
  rewrite fmap_None, IH. set_solver.
Qed.

(** [strchr] finds the first occurrence of the character in the string with its
    terminating nul. *)
Theorem strchr_first l ch i :
  strchr (Some l) ch = Ok (Some i) ↔
    0 ≤ i ∧ (l ++ [0]) !! Z.to_nat i = Some (Z.land ch 0xff) ∧ Z.land ch 0xff ∉ take (Z.to_nat i) (l ++ [0]).
Proof. unfold strchr. simpl. rewrite <- position_spec. split; [by intros [=]|by intros ->]. Qed.

Lemma memchr_loop_spec l c i n :
  (n ≤ length l)%nat ∨ c ∈ l →
  memchr_loop l c i n = Ok (Z.add i <$> position c (take n l)).
Proof.
  revert i n. induction l as [|b l IH]; intros i [|n] H; simpl in *; try done.
  - destruct H as [H|H]; [lia|by apply elem_of_nil in H].
  - destruct (b =? c) eqn:E; bools; [simpl; do 2 f_equal; lia|].
    rewrite IH by (destruct H as [H|H]; [left; lia|right; set_solver]).
    destruct (position c (take n l)); simpl; do 2 f_equal; lia.
Qed.

(** [strnlen] of a terminated string is its length, at most the bound; the
    memory behind the nul is not read. *)
Theorem strnlen_exact s after maxlen :
  0 ∉ s → 0 ≤ maxlen → strnlen (Some (s ++ 0 :: after)) maxlen = Ok (Z.min (zlen s) maxlen).
Proof.
  intros Hs Hm. unfold strnlen, memchr. simpl.
  rewrite memchr_loop_spec by (right; set_solver). simpl.
  destruct (decide (zlen s < maxlen)).
  - replace (position 0 _) with (Some (zlen s)); [simpl; f_equal; lia|].
    symmetry. apply position_spec. rewrite take_take, lookup_take_lt, lookup_app_r by lia.
    rewrite Nat2Z.id, Nat.min_l, Nat.sub_diag, take_app_length by lia. by split; [lia|].
  - replace (position 0 _) with (@None Z); [simpl; f_equal; lia|].
    symmetry. apply position_None. rewrite take_app_le by lia. intros H.
    apply elem_of_take in H as (k & Hk & _). apply Hs. by eapply list_elem_of_lookup_2.
Qed.

(** ** Comparisons *)

Lemma strncmp_run s1 s2 a1 a2 n :
  0 ∉ s1 → 0 ∉ s2 → bytes_ok s1 → bytes_ok s2 → (length s1 < n ∨ length s2 < n)%nat →
  strncmp false (s1 ++ 0 :: a1) (s2 ++ 0 :: a2) n = Ok (strcmp s1 s2).
Proof.
  unfold strcmp, c_char. intros H1 H2 Hb1. revert s2 n H2.
  induction Hb1 as [|x s1 Hx _ IH]; intros s2 [|n] H2 Hb2 Hn; simpl in *; try lia.
  - destruct Hb2 as [|y s2 Hy _]; [done|]. simpl. unfold u8_ok in Hy.
    assert (y ≠ 0) by set_solver. destruct y; try lia. done.
  - unfold u8_ok in Hx. assert (x ≠ 0) by set_solver.
    destruct Hb2 as [|y s2 Hy Hb2]; simpl.
    + destruct x; try lia. done.
    + unfold c_char. simpl. destruct (x ?= y) eqn:E; [|by vm_compute|by vm_compute].
      rewrite (proj2 (Z.eqb_neq x 0)) by done. simpl. apply IH; [set_solver..|done|].
      simpl in Hn. lia.
Qed.

(** For unsigned characters, comparing at most [n] characters of two C strings,
    one of which is shorter than [n], is comparing the strings; what follows the
    nul does not matter. *)
Theorem strncmp_strcmp s1 s2 after1 after2 n :
  0 ∉ s1 → 0 ∉ s2 → bytes_ok s1 → bytes_ok s2 → (length s1 < n ∨ length s2 < n)%nat →
  strncmp false (s1 ++ 0 :: after1) (s2 ++ 0 :: after2) n = Ok (strcmp s1 s2).
Proof. apply strncmp_run. Qed.

(** Where [c_char] is signed, [strncmp] orders the bytes from 128 before the
    others, and disagrees with [strcmp]. *)
Theorem strncmp_signed_disagrees :
  strcmp [0xe9] [0x61] = 1 ∧ strncmp true [0xe9; 0] [0x61; 0] 2 = Ok (-1).
Proof. done. Qed.

(** ** The heap *)

Lemma try_into_usize v : u64_ok v → try_into here TUsize (Val v) = Ok v.
Proof. intros. unfold try_into, in_type, int_min, int_max. unfold u64_ok in *. by lia_bools. Qed.

(** The smallest multiple of [a] that is at least [v]. *)
Definition ceil_to (v a : Z) : Z := (v + a - 1) / a * a.
Lemma ceil_to_bounds v a : 0 < a → v ≤ ceil_to v a < v + a ∧ ceil_to v a mod a = 0.
Proof.
  intros Ha. unfold ceil_to. split; [|apply Z.mod_mul; lia].
  pose proof (Z.div_mod (v + a - 1) a ltac:(lia)). pose proof (Z.mod_pos_bound (v + a - 1) a Ha). lia.
Qed.

Lemma round_up_ceil v a :
  0 ≤ v → 0 < a → v + a < 2 ^ 64 → round_up here (Val v) (Val a) = Val (ceil_to v a).
Proof.
  intros Hv Ha Hlt. unfold round_up, round_down.
  pose proof (ceil_to_bounds v a Ha) as [Hb _]. unfold ceil_to in *.
  pose proof (Z.div_mod (v + a - 1) a ltac:(lia)).
  rewrite sn_add, sn_sub, sn_rem by (unfold u64_ok; lia).
  rewrite sn_sub by (unfold u64_ok; pose proof (Z.mod_pos_bound (v + a - 1) a Ha); lia).
  f_equal. lia.
Qed.

(** What [gbl_malloc] leaves behind: the pointer and the block. *)
Lemma gbl_malloc_run (alloc : Alloc) req al ptr mem :
  0 ≤ req → 0 < al → req + al + 16 < 2 ^ 63 → 0 < ptr → ptr + req + al + 16 < 2 ^ 64 →
  alloc (mkLayout (req + al + 16) 1) = Some (ptr, mem) →
  let off := ceil_to (ptr + 16) al - ptr in
  gbl_malloc alloc req al =
    Some (ptr + off, (ptr, splice (splice mem (off - 16) (le_bytes 8 (req + al + 16))) (off - 8) (le_bytes 8 off))).
Proof.
  intros Hr Ha Hs Hp Hpe Hm off. pose proof (ceil_to_bounds (ptr + 16) al Ha) as [Hb _].
  unfold gbl_malloc. change (8 + 8) with 16. rewrite !(from_int_u64 here TUsize) by (unfold u64_ok; lia).
  rewrite sn_add, try_into_usize by (unfold u64_ok; lia). simpl mbind.
  rewrite (from_int_u64 here TUsize), sn_add, try_into_usize by (unfold u64_ok; lia). simpl mbind.
  replace (layout (req + (al + 16)) 1) with (Some (mkLayout (req + al + 16) 1)).
  2: { unfold layout. rewrite Z.div_1_r. simpl is_pow2. lia_bools. simpl. do 2 f_equal. lia. }
  cbn [mbind option_bind]. rewrite Hm. cbn [mbind option_bind]. lia_bools.
  rewrite (from_int_u64 here TUsize ptr), sn_add, round_up_ceil by (unfold u64_ok; lia).
  rewrite sn_sub by (unfold u64_ok; lia). fold off.
  rewrite sn_sub, !try_into_usize by (unfold u64_ok, off; lia). cbn [mbind option_bind].
  rewrite (from_int_u64 here TUsize), sn_sub, try_into_usize by (unfold u64_ok, off; lia).
  cbn [mbind option_bind]. replace (off - 8 - 8) with (off - 16) by lia.
  by replace (req + (al + 16)) with (req + al + 16) by lia.
Qed.

(** The memory of a program in which [mem] is at [ptr]. *)
Definition mem_at (ptr : Z) (mem : bytes) (a n : Z) : bytes := slice mem (a - ptr) n.

(** A block of [gbl_malloc] is a multiple of the alignment, lies with its
    [req] bytes inside the block of the allocator and behind the two numbers
    kept in front of it; and whatever the program writes into its bytes,
    [gbl_free] with a power of two as alignment gives the allocator the address
    and the size of its block back. *)
Theorem gbl_malloc_free (alloc : Alloc) req al ptr mem data :
  0 ≤ req → is_pow2 al = true → req + 2 * al + 16 < 2 ^ 63 → 0 < ptr → ptr + req + al + 16 < 2 ^ 64 →
  alloc (mkLayout (req + al + 16) 1) = Some (ptr, mem) → zlen mem = req + al + 16 → zlen data = req →
  ∃ p mem', gbl_malloc alloc req al = Some (p, (ptr, mem')) ∧
    p mod al = 0 ∧ ptr + 16 ≤ p ∧ p + req ≤ ptr + zlen mem' ∧ zlen mem' = zlen mem ∧
    gbl_free (mem_at ptr (splice mem' (p - ptr) data)) p al = Ok (Some (ptr, mkLayout (req + al + 16) al)).
Proof.
  intros Hr Hal Hs Hp Hpe Hm Hlen Hd.
  assert (Ha : 0 < al) by (unfold is_pow2 in Hal; bools; lia).
  pose proof (ceil_to_bounds (ptr + 16) al Ha) as [Hb Hmod].
  set (off := ceil_to (ptr + 16) al - ptr).
  set (size := req + al + 16) in *.
  set (mem' := splice (splice mem (off - 16) (le_bytes 8 size)) (off - 8) (le_bytes 8 off)).
  assert (L1 : zlen (splice mem (off - 16) (le_bytes 8 size)) = zlen mem).
  { rewrite length_splice; rewrite ?length_le_bytes; unfold off; lia. }
  assert (L2 : zlen mem' = zlen mem).
  { unfold mem'. rewrite length_splice; rewrite ?length_le_bytes; unfold off in *; lia. }
  exists (ptr + off), mem'. split; [apply gbl_malloc_run; unfold size in *; (done || lia)|].
  replace (ptr + off) with (ceil_to (ptr + 16) al) by (unfold off; lia).
  split; [done|]. split; [lia|]. split; [unfold size in *; lia|]. split; [done|].
  unfold gbl_free, mem_at. lia_bools. replace (ceil_to (ptr + 16) al - ptr) with off by done.
  replace (ceil_to (ptr + 16) al - 8 - ptr) with (off - 8) by (unfold off; lia).
  replace (ceil_to (ptr + 16) al - (8 + 8) - ptr) with (off - 16) by (unfold off; lia).
  assert (Ho : 16 ≤ off ∧ off + req ≤ zlen mem) by (unfold off, size in *; lia).
  rewrite !slice_splice_disj by lia. unfold mem'.
  rewrite slice_splice_same by (rewrite ?length_le_bytes; lia).
  rewrite slice_splice_disj by (rewrite ?length_le_bytes; lia).
  rewrite slice_splice_same by (rewrite ?length_le_bytes; lia).
  rewrite !le_val_bytes by (unfold off, size in *; lia).
  unfold layout. rewrite Hal. pose proof (ceil_to_bounds size al Ha) as [Hc _]. fold (ceil_to size al).
  unfold size in *. lia_bools. simpl. by replace (ceil_to (ptr + 16) al - off) with ptr by (unfold off; lia).
Qed.

(** A request for 3 bytes at an alignment of 8, in a block at 0x1001. *)
Lemma gbl_malloc_free_witness :
  ∃ p mem', gbl_malloc (λ l, Some (0x1001, replicate 27 0)) 3 8 = Some (p, (0x1001, mem')) ∧
    p mod 8 = 0 ∧ 0x1001 + 16 ≤ p ∧ p + 3 ≤ 0x1001 + zlen mem' ∧ zlen mem' = 27 ∧
    gbl_free (mem_at 0x1001 (splice mem' (p - 0x1001) [1; 2; 3])) p 8 = Ok (Some (0x1001, mkLayout 27 8)).
Proof. apply (gbl_malloc_free _ 3 8 0x1001 (replicate 27 0) [1; 2; 3]); by vm_compute. Defined.

(** With an alignment that is not a power of two the block is handed out, and
    freeing it panics. *)
Theorem gbl_free_odd_alignment_panics :
  gbl_malloc (λ l, Some (0x1001, replicate 22 0)) 3 3 = Some (0x1011, (0x1001,
    splice (splice (replicate 22 0) 0 (le_bytes 8 22)) 8 (le_bytes 8 16))) ∧
  gbl_free (mem_at 0x1001 (splice (splice (replicate 22 0) 0 (le_bytes 8 22)) 8 (le_bytes 8 16))) 0x1011 3 = Panic.
Proof. by vm_compute. Qed.
