(* ===== verification/AbrC.v ===== *)
(** * The C interface of libabr

    Models src/gbl/libabr/src/c_staticlib.rs and utils.rs: the callbacks of a C
    client as a storage of the slot library, and the functions it calls. A
    callback is a function on the client's context, which is the state; a
    function pointer, and every pointer argument, may be null. The results that
    are stored through a pointer are returned with the result code. *)

From S2P Require Import Prelude SafeMath LibError Abr AbrFormat AbrSpec AbrProps.

(** gbl/libabr/src/c_staticlib.rs:33-33, [ABR_RESULT_OK]. *)
Definition ABR_RESULT_OK : Z := 0.
(** gbl/libabr/src/c_staticlib.rs:34-34, [ABR_RESULT_ERR_IO]. *)
Definition ABR_RESULT_ERR_IO : Z := 1.
(** gbl/libabr/src/c_staticlib.rs:35-35, [ABR_RESULT_ERR_INVALID_DATA]. *)
Definition ABR_RESULT_ERR_INVALID_DATA : Z := 2.
(** gbl/libabr/src/c_staticlib.rs:36-36, [ABR_RESULT_ERR_UNSUPPORTED_VERSION]. *)
Definition ABR_RESULT_ERR_UNSUPPORTED_VERSION : Z := 3.

(** gbl/libabr/src/c_staticlib.rs:82-118, [AbrOps]: [D] is the client's context. A read
    gets the buffer, or the fields, it fills. *)
Record AbrOps (D : Type) := mkAbrOps {
  c_read_abr_metadata : option (bytes → D → (bool * bytes) * D);
  c_write_abr_metadata : option (bytes → D → bool * D);
  c_read_abr_metadata_custom :
    option (AbrSlotData * AbrSlotData * Z → D → (bool * (AbrSlotData * AbrSlotData * Z)) * D);
  c_write_abr_metadata_custom : option (AbrSlotData → AbrSlotData → Z → D → bool * D);
}.
Arguments mkAbrOps {D}.
Arguments c_read_abr_metadata {D}.
Arguments c_write_abr_metadata {D}.
Arguments c_read_abr_metadata_custom {D}.
Arguments c_write_abr_metadata_custom {D}.

(** The fields of the metadata that the custom callbacks see. *)
Definition with_fields (d : AbrData) (a b : AbrSlotData) (f : Z) : AbrData :=
  mkData (magic d) (version_major d) (version_minor d) (reserved d) a b f (reserved2 d) (crc32_field d).

Section Safe.
Context {D : Type} (ops : AbrOps D).

(** gbl/libabr/src/c_staticlib.rs:143-178, [Ops::read_abr_metadata for AbrOpsSafe]: the slot
    library reads into a zeroed buffer of [n] bytes. *)
Definition safe_read (n : Z) : ST D Error bytes := λ s,
  let out := replicate (Z.to_nat n) 0 in
  match c_read_abr_metadata ops, c_read_abr_metadata_custom ops with
  | Some f, _ =>
      match f out s with
      | ((false, _), s) => (Err (Other (Some "read_abr_metadata() failed"%string)), s)
      | ((true, b), s) => (Ok b, s)
      end
  | None, Some f =>
      let data := abr_default in
      match f (slot_a data, slot_b data, one_shot_flags data) s with
      | ((false, _), s) => (Err (Other (Some "read_abr_metadata_custom() failed"%string)), s)
      | ((true, (a, b, fl)), s) =>
          if zlen out <? ABR_DATA_SIZE then (Panic, s)
          else (Ok (splice out 0 (fst (serialize (with_fields data a b fl)))), s)
      end
  | None, None => (Err NotImplemented, s)
  end.

(** gbl/libabr/src/c_staticlib.rs:180-218, [Ops::write_abr_metadata for AbrOpsSafe]. *)
Definition safe_write (data : bytes) : ST D Error unit := λ s,
  match c_write_abr_metadata ops, c_write_abr_metadata_custom ops with
  | Some f, _ =>
      match f data s with
      | (false, s) => (Err (Other (Some "write_abr_metadata() failed"%string)), s)
      | (true, s) => (Ok tt, s)
      end
  | None, Some f =>
      match get_range data 0 ABR_DATA_SIZE with
      | None => (Err (BufferTooSmall (Some ABR_DATA_SIZE)), s)
      | Some abr_data =>
          match fst (deserialize abr_data) with
          | Ok d =>
              match f (slot_a d) (slot_b d) (one_shot_flags d) s with
              | (false, s) => (Err (Other (Some "read_abr_metadata_custom() failed"%string)), s)
              | (true, s) => (Ok tt, s)
              end
          | _ => (Panic, s)
          end
      end
  | None, None => (Err NotImplemented, s)
  end.

#[local] Instance AbrOpsSafe : Ops D :=
  {| read_abr_metadata := safe_read; write_abr_metadata := safe_write |}.
End Safe.

(** gbl/libabr/src/c_staticlib.rs:225-240, [unpack_result]: the result code and what is
    stored for the caller. *)
Definition unpack_result {T} (res : T + Error) : Z * option T :=
  match res with
  | inr e =>
      (match e with
       | BadMagic | BadChecksum | InvalidInput => ABR_RESULT_ERR_INVALID_DATA
       | UnsupportedVersion => ABR_RESULT_ERR_UNSUPPORTED_VERSION
       | _ => ABR_RESULT_ERR_IO
       end, None)
  | inl v => (ABR_RESULT_OK, Some v)
  end.

Section Api.
Context {D : Type}.
Abbreviation M := (ST D Error).

(** The dereference of a pointer that the caller must not pass as null. *)
Definition deref {A B} (p : option A) (k : A → M B) : M B :=
  match p with Some a => k a | None => lift Panic end.

(** The call of a library function and the conversion of its result. *)
Definition call {T} (ops : AbrOps D) (m : Ops D → M T) : M (Z * option T) :=
  r ← attempt (m (AbrOpsSafe ops)); mret (unpack_result r).

(** [AbrSlotIndex::try_into], or the result code for an invalid slot. *)
Definition with_slot {T} (slot_index : Z) (k : SlotIndex → M (Z * option T)) : M (Z * option T) :=
  match slot_of_uint slot_index with
  | Ok v => k v
  | _ => mret (ABR_RESULT_ERR_INVALID_DATA, None)
  end.

(** gbl/libabr/src/c_staticlib.rs:242-269, [AbrGetBootSlot]: the slot, and what is stored if
    [is_slot_marked_successful] is not null. *)
Definition AbrGetBootSlot (abr_ops : option (AbrOps D)) (update_metadata : bool)
    (is_slot_marked_successful : bool) : M (Z * option bool) :=
  deref abr_ops (λ ops,
  '(slot_index, successful) ← get_boot_slot (Ops0 := AbrOpsSafe ops) update_metadata;
  mret (slot_to_uint slot_index, if is_slot_marked_successful then Some successful else None)).

(** gbl/libabr/src/c_staticlib.rs:290-314, [AbrMarkSlotActive]. *)
Definition AbrMarkSlotActive (abr_ops : option (AbrOps D)) (slot_index : Z) : M Z :=
  fst <$> with_slot slot_index (λ i, deref abr_ops (λ ops, call ops (λ o, mark_slot_active (Ops0 := o) i))).

(** gbl/libabr/src/c_staticlib.rs:316-337, [AbrGetSlotLastMarkedActive]: [out_slot] tells if
    the pointer is not null. *)
Definition AbrGetSlotLastMarkedActive (abr_ops : option (AbrOps D)) (out_slot : bool) : M (Z * option Z) :=
  deref abr_ops (λ ops,
  if out_slot then
    '(code, v) ← call ops (λ o, get_slot_last_marked_active (Ops0 := o)); mret (code, slot_to_uint <$> v)
  else lift Panic).

(** gbl/libabr/src/c_staticlib.rs:339-363, [AbrMarkSlotUnbootable]. *)
Definition AbrMarkSlotUnbootable (abr_ops : option (AbrOps D)) (slot_index : Z) : M Z :=
  fst <$> with_slot slot_index (λ i, deref abr_ops (λ ops, call ops (λ o, mark_slot_unbootable (Ops0 := o) i))).

(** gbl/libabr/src/c_staticlib.rs:365-389, [AbrMarkSlotSuccessful]. *)
Definition AbrMarkSlotSuccessful (abr_ops : option (AbrOps D)) (slot_index : Z) : M Z :=
  fst <$> with_slot slot_index (λ i, deref abr_ops (λ ops, call ops (λ o, mark_slot_successful (Ops0 := o) i))).

(** gbl/libabr/src/c_staticlib.rs:391-406, [SlotInfo]. *)
Record CSlotInfo := mkCSlotInfo {
  ci_is_bootable : bool;
  ci_is_active : bool;
  ci_is_marked_successful : bool;
  ci_num_tries_remaining : Z;
}.

(** gbl/libabr/src/c_staticlib.rs:408-422, [From<AbrSlotInfo> for SlotInfo]. *)
Definition slot_info_from (val : SlotInfo) : CSlotInfo :=
  let is_marked_successful := match state val with Successful => true | _ => false end in
  let num_tries_remaining := match state val with Bootable v => v | _ => 0 end in
  mkCSlotInfo (is_marked_successful || (num_tries_remaining >? 0)) (is_active val)
    is_marked_successful num_tries_remaining.

(** gbl/libabr/src/c_staticlib.rs:424-451, [AbrGetSlotInfo]: [info] tells if the pointer is
    not null. *)
Definition AbrGetSlotInfo (abr_ops : option (AbrOps D)) (slot_index : Z) (info : bool) : M (Z * option CSlotInfo) :=
  with_slot slot_index (λ i, deref abr_ops (λ ops,
  if info then '(code, v) ← call ops (λ o, get_slot_info (Ops0 := o) i); mret (code, slot_info_from <$> v)
  else lift Panic)).

(** gbl/libabr/src/c_staticlib.rs:453-469, [AbrSetOneShotRecovery]. *)
Definition AbrSetOneShotRecovery (abr_ops : option (AbrOps D)) (enable : bool) : M Z :=
  fst <$> deref abr_ops (λ ops, call ops (λ o, set_one_shot_recovery (Ops0 := o) enable)).

(** gbl/libabr/src/c_staticlib.rs:471-487, [AbrSetOneShotBootloader]. *)
Definition AbrSetOneShotBootloader (abr_ops : option (AbrOps D)) (enable : bool) : M Z :=
  fst <$> deref abr_ops (λ ops, call ops (λ o, set_one_shot_bootloader (Ops0 := o) enable)).

(** gbl/libabr/src/c_staticlib.rs:489-510, [AbrGetAndClearOneShotFlags]: [flags] tells if the
    pointer is not null. *)
Definition AbrGetAndClearOneShotFlags (abr_ops : option (AbrOps D)) (flags : bool) : M (Z * option Z) :=
  deref abr_ops (λ ops, if flags then call ops (λ o, get_and_clear_one_shot_flag (Ops0 := o)) else lift Panic).

End Api.

(** gbl/libabr/src/c_staticlib.rs:277-288, [AbrGetSlotSuffix]. *)
Definition AbrGetSlotSuffix (slot_index : Z) : bytes :=
  match slot_of_uint slot_index with
  | Ok SlotA => str "_a" ++ [0]
  | Ok SlotB => str "_b" ++ [0]
  | Ok SlotR => str "_r" ++ [0]
  | _ => [0]
  end.

(** gbl/libabr/src/utils.rs:17-22, [AbrBigEndianToHost]: on a little-endian host. *)
Definition AbrBigEndianToHost (val : Z) : Z := be_val (le_bytes 4 val).
(** gbl/libabr/src/utils.rs:24-29, [AbrHostToBigEndian]: on a little-endian host. *)
Definition AbrHostToBigEndian (val : Z) : Z := le_val (be_bytes 4 val).
(** gbl/libabr/src/utils.rs:31-36, [AbrIsOneShotRecoveryBootSet]. *)
Definition AbrIsOneShotRecoveryBootSet (flags : Z) : bool := negb (Z.land flags ONE_SHOT_RECOVERY =? 0).
(** gbl/libabr/src/utils.rs:38-48, [AbrIsOneShotRecoveryBoot]. *)
Definition AbrIsOneShotRecoveryBoot (abr_data : option AbrData) : result bool :=
  d ← unwrap abr_data; Ok (AbrIsOneShotRecoveryBootSet (one_shot_flags d)).
(** gbl/libabr/src/utils.rs:50-55, [AbrIsOneShotBootloaderBootSet]. *)
Definition AbrIsOneShotBootloaderBootSet (flags : Z) : bool := negb (Z.land flags ONE_SHOT_BOOTLOADER =? 0).
(** gbl/libabr/src/utils.rs:57-67, [AbrIsOneShotBootloaderBoot]. *)
Definition AbrIsOneShotBootloaderBoot (abr_data : option AbrData) : result bool :=
  d ← unwrap abr_data; Ok (AbrIsOneShotBootloaderBootSet (one_shot_flags d)).
(** gbl/libabr/src/utils.rs:69-79, [AbrSetOneShotRecoveryBoot]. *)
Definition AbrSetOneShotRecoveryBoot (abr_data : option AbrData) (enable : bool) : result AbrData :=
  d ← unwrap abr_data; Ok (data_set_one_shot_recovery enable d).
(** gbl/libabr/src/utils.rs:81-91, [AbrSetOneShotBootloaderBoot]. *)
Definition AbrSetOneShotBootloaderBoot (abr_data : option AbrData) (enable : bool) : result AbrData :=
  d ← unwrap abr_data; Ok (data_set_one_shot_bootloader enable d).

(** * The C interface of libabr refines the slot machine

    A C client that keeps the slots and the one-shot flags in a format of its
    own, or the 32 bytes of the metadata, is a storage of the slot library; any
    sequence of calls of the C functions gives the result codes and the values
    of the abstract slot machine. *)

(** ** Two kinds of clients *)

(** Loading depends on the bytes that are read. *)
Lemma deserialize_read {D} `{!Ops D} (s s' : D) b :
  read_abr_metadata ABR_DATA_SIZE s = (Ok b, s') → length b = 32%nat →
  deserialize s = (fst (deserialize b), s').
Proof.
  intros Hr Hl. rewrite deserialize_array by done. unfold deserialize.
  erewrite bind_run_ok by exact Hr. st_pure. destruct (parse b); [|done..].
  rewrite index_range_ok by lia. st_pure. replace (28 - 0) with 28 by lia. by repeat case_if.
Qed.

Lemma load_metadata_read {D} `{!Ops D} (s : D) d :
  data_wf d → magic d = ABR_MAGIC → version_major d ≤ ABR_MAJOR_VERSION →
  read_abr_metadata ABR_DATA_SIZE s = (Ok (fst (serialize d)), s) →
  load_metadata s = (Ok (normalize_data (snd (serialize d)), snd (serialize d)), s).
Proof.
  intros Hd Hm Hv Hr. unfold load_metadata. rewrite bind_run, attempt_run.
  rewrite (deserialize_read s s _ Hr) by (by apply length_serialize).
  by rewrite abr_serialize_roundtrip.
Qed.

(** A client that implements the custom callbacks: [get] and [put] are the
    fields it keeps. *)
Record CustomClient {D} (ops : AbrOps D) (get : D → AbrSlotData * AbrSlotData * Z)
    (put : AbrSlotData * AbrSlotData * Z → D → D) : Prop := {
  cc_read : c_read_abr_metadata ops = None;
  cc_write : c_write_abr_metadata ops = None;
  cc_read_custom : ∃ r, c_read_abr_metadata_custom ops = Some r ∧
    ∀ x s, r x s = ((true, get s), s);
  cc_write_custom : ∃ w, c_write_abr_metadata_custom ops = Some w ∧
    ∀ a b f s, w a b f s = (true, put (a, b, f) s);
  cc_get_put x s : get (put x s) = x;
}.

(** The fields are bytes. *)
Definition fields_ok (x : AbrSlotData * AbrSlotData * Z) : Prop :=
  slot_wf (fst (fst x)) ∧ slot_wf (snd (fst x)) ∧ u8_ok (snd x).

Definition default_with (x : AbrSlotData * AbrSlotData * Z) : AbrData :=
  with_fields abr_default (fst (fst x)) (snd (fst x)) (snd x).

Lemma default_with_wf x : fields_ok x → data_wf (default_with x).
Proof. intros (? & ? & ?). destruct (di_wf _ default_inv). by split. Qed.

Section Custom.
Context {D : Type} (ops : AbrOps D) (get : D → AbrSlotData * AbrSlotData * Z)
  (put : AbrSlotData * AbrSlotData * Z → D → D) (client : CustomClient ops get put).
#[local] Instance CustomOps : Ops D := AbrOpsSafe ops.

Lemma custom_load s :
  fields_ok (get s) →
  let d := snd (serialize (default_with (get s))) in
  load_metadata s = (Ok (normalize_data d, d), s).
Proof.
  intros Hs d. apply load_metadata_read; [by apply default_with_wf|done..|].
  cbn [read_abr_metadata CustomOps AbrOpsSafe]. unfold safe_read.
  destruct client as [-> _ (r & -> & Hr) _ _]. rewrite Hr. destruct (get s) as [[a b] f] eqn:E.
  rewrite length_replicate. simpl. fold (default_with (a, b, f)). done.
Qed.

Lemma custom_save s d :
  data_inv d → save_metadata d s = (Ok tt, put (slot_a d, slot_b d, one_shot_flags d) s).
Proof.
  intros Hd. pose proof (length_serialize d (di_wf _ Hd)) as Hl.
  unfold save_metadata. cbn [write_abr_metadata CustomOps AbrOpsSafe]. unfold safe_write.
  destruct client as [_ -> _ (w & -> & Hw) _].
  unfold ABR_DATA_SIZE. rewrite get_range_Some, slice_all by lia.
  rewrite abr_serialize_roundtrip by apply Hd. simpl. by rewrite Hw.
Qed.

Lemma normalize_fields_inv x :
  fields_ok x → data_inv (normalize_data (snd (serialize (default_with x)))).
Proof.
  intros (Ha & Hb & Hf).
  assert (E : ∃ c, u32_ok c ∧ snd (serialize (default_with x)) = set_crc c (default_with x))
    by (eexists; split; [apply crc32_ok|reflexivity]).
  destruct E as (c & Hc & ->).
  apply (with_slots_inv (set_crc c abr_default)); auto using slot_normalize_norm, set_crc_inv, default_inv.
Qed.

#[program] Definition CustomStore : AbrStore D := {| store_ok s := fields_ok (get s) |}.
Next Obligation. intros s Hs. right. eexists _, _. split; [by apply custom_load|by apply normalize_fields_inv]. Qed.
Next Obligation.
  intros s d orig a b f Hs HL Hd. rewrite custom_save by done. eexists. split; [done|].
  destruct (di_wf _ Hd) as [_ _ _ _ Wa Wb Wf _ _]. pose proof (cc_get_put _ _ _ client) as Hg.
  assert (Hok : fields_ok (get (put (slot_a (with_slots d a b f), slot_b (with_slots d a b f),
    one_shot_flags (with_slots d a b f)) s))) by (by rewrite Hg).
  split; [done|]. erewrite view_load by (by apply custom_load). rewrite Hg. f_equal.
  unfold abs. simpl. destruct Hd as [_ _ _ Na Nb]. simpl in *. by rewrite !slot_normalize_id.
Qed.
Next Obligation.
  intros s d orig Hs HL Ho. rewrite (view_load _ _ _ _ HL). rewrite custom_load in HL by done.
  simplify_eq. by rewrite normalize_data_id by apply Ho.
Qed.
End Custom.

(** ** Sequences of C calls *)

(** The C functions that can change the metadata; a slot is the caller's number. *)
Inductive c_call :=
| CGetBootSlot (update : bool)
| CMarkSlotActive (i : Z)
| CMarkSlotUnbootable (i : Z)
| CMarkSlotSuccessful (i : Z)
| CSetOneShotRecovery (enable : bool)
| CSetOneShotBootloader (enable : bool)
| CGetAndClearOneShotFlags.

(** A call with pointers that are not null: what the function returns, and what
    it stores. *)
Definition run_c {D} (ops : AbrOps D) (c : c_call) : ST D Error (Z * option Z) :=
  match c with
  | CGetBootSlot u => '(i, g) ← AbrGetBootSlot (Some ops) u true; mret (i, Z.b2z <$> g)
  | CMarkSlotActive i => r ← AbrMarkSlotActive (Some ops) i; mret (r, None)
  | CMarkSlotUnbootable i => r ← AbrMarkSlotUnbootable (Some ops) i; mret (r, None)
  | CMarkSlotSuccessful i => r ← AbrMarkSlotSuccessful (Some ops) i; mret (r, None)
  | CSetOneShotRecovery e => r ← AbrSetOneShotRecovery (Some ops) e; mret (r, None)
  | CSetOneShotBootloader e => r ← AbrSetOneShotBootloader (Some ops) e; mret (r, None)
  | CGetAndClearOneShotFlags => AbrGetAndClearOneShotFlags (Some ops) true
  end.

(** The operation of the slot machine behind a call; [None] for a slot that does
    not exist. *)
Definition c_api (c : c_call) : option api :=
  let slot i := match slot_of_uint i with Ok v => Some v | _ => None end in
  match c with
  | CGetBootSlot u => Some (GetBootSlot u)
  | CMarkSlotActive i => MarkActive <$> slot i
  | CMarkSlotUnbootable i => MarkUnbootable <$> slot i
  | CMarkSlotSuccessful i => MarkSuccessful <$> slot i
  | CSetOneShotRecovery e => Some (SetRecovery e)
  | CSetOneShotBootloader e => Some (SetBootloader e)
  | CGetAndClearOneShotFlags => Some ClearFlags
  end.
Definition c_result (r : outcome Error ret) : Z * option Z :=
  match r with
  | Ok (RSlot i g) => (slot_to_uint i, Some (Z.b2z g))
  | Ok RUnit => (0, None)
  | Ok (RFlags f) => (0, Some f)
  | Ok (RBool b) => (0, Some (Z.b2z b))
  | Err e => (fst (unpack_result (T := unit) (inr e)), None)
  | Panic => (0, None)
  end.

Definition spec_c (c : c_call) (v : Spec) : (Z * option Z) * Spec :=
  match c_api c with
  | Some op => let '(r, v') := spec_api op v in (c_result r, v')
  | None => ((ABR_RESULT_ERR_INVALID_DATA, None), v)
  end.

Fixpoint run_c_trace {D} (ops : AbrOps D) (l : list c_call) (s : D) : list (outcome Error (Z * option Z)) * D :=
  match l with
  | [] => ([], s)
  | c :: l =>
      let '(r, s) := run_c ops c s in
      let '(rs, s) := run_c_trace ops l s in (r :: rs, s)
  end.
Fixpoint spec_c_trace (l : list c_call) (v : Spec) : list (outcome Error (Z * option Z)) * Spec :=
  match l with
  | [] => ([], v)
  | c :: l =>
      let '(r, v) := spec_c c v in
      let '(rs, v) := spec_c_trace l v in (Ok r :: rs, v)
  end.

(** The boot decision does not fail; the other calls may, but do not panic. *)
Definition c_expected (op : api) (r : outcome Error ret) : bool :=
  match op, r with
  | GetBootSlot _, Ok _ => true
  | GetBootSlot _, _ | _, Panic => false
  | _, _ => true
  end.
Lemma spec_expected op v : c_expected op (fst (spec_api op v)) = true.
Proof.
  destruct op as [u|i|i|i|e|e| |]; simpl; repeat case_match; simplify_eq/=; try done; by repeat case_match.
Qed.

(** A C function is the library function and the conversion of its result. *)
Lemma run_c_api {D} (ops : AbrOps D) c op s r s' :
  c_api c = Some op → run_api (Ops0 := AbrOpsSafe ops) op s = (r, s') → c_expected op r = true →
  run_c ops c s = (Ok (c_result r), s').
Proof.
  unfold c_api. intros Hop Hr Hx.
  destruct c as [u|i|i|i|e|e|]; cbn [run_c];
    unfold AbrGetBootSlot, AbrMarkSlotActive, AbrMarkSlotUnbootable, AbrMarkSlotSuccessful,
      AbrSetOneShotRecovery, AbrSetOneShotBootloader, AbrGetAndClearOneShotFlags, with_slot, deref, call;
    try (destruct (slot_of_uint i) as [j|e|]; [|done..]);
    cbn [fmap option_fmap option_map] in Hop; simplify_eq; cbn [run_api] in Hr; revert Hr;
    cbv [mbind ST_bind fmap ST_fmap attempt];
    match goal with |- context [match ?m ?s with _ => _ end] => destruct (m s) as [[x|e'|] s1] eqn:E end;
    try destruct x; intros [= <- <-]; done.
Qed.
Lemma run_c_invalid {D} (ops : AbrOps D) c (s : D) :
  c_api c = None → run_c ops c s = (Ok (ABR_RESULT_ERR_INVALID_DATA, None), s).
Proof.
  destruct c as [u|i|i|i|e|e|]; simpl; try done;
    unfold AbrMarkSlotActive, AbrMarkSlotUnbootable, AbrMarkSlotSuccessful, with_slot;
    by destruct (slot_of_uint i).
Qed.

Section Store.
Context {D : Type} (ops : AbrOps D).
#[local] Instance ClientOps : Ops D := AbrOpsSafe ops.
Context (store : AbrStore D).

Lemma run_c_step c (s : D) v :
  store_ok s → view s = Some v →
  ∃ s', run_c ops c s = (Ok (fst (spec_c c v)), s') ∧ store_ok s' ∧ view s' = Some (snd (spec_c c v)).
Proof.
  intros Hs Hv. unfold spec_c. destruct (c_api c) as [op|] eqn:E.
  - destruct (step_refines s v op Hs Hv) as (s' & Hr & Hs' & Hv').
    pose proof (spec_expected op v) as Hx. destruct (spec_api op v) as [r v']. simpl in *.
    exists s'. split; [|done]. by apply run_c_api with op.
  - exists s. split; [|done]. by apply run_c_invalid.
Qed.

Lemma run_c_sequence l (s : D) v :
  store_ok s → view s = Some v →
  ∃ s', run_c_trace ops l s = (fst (spec_c_trace l v), s') ∧ store_ok s' ∧ view s' = Some (snd (spec_c_trace l v)).
Proof.
  revert s v. induction l as [|c l IH]; intros s v Hs Hv; simpl; [by exists s|].
  destruct (run_c_step c s v Hs Hv) as (s1 & -> & Hs1 & Hv1).
  destruct (spec_c c v) as [r v1]. simpl in *.
  destruct (IH s1 v1 Hs1 Hv1) as (s2 & -> & ? & ?).
  destruct (spec_c_trace l v1) as [rs v2]. eauto.
Qed.
End Store.

(** The state of the slot machine that the fields of a client stand for. *)
Definition abs_fields (x : AbrSlotData * AbrSlotData * Z) : Spec :=
  mkSpec (abs_slot (slot_normalize (fst (fst x)))) (abs_slot (slot_normalize (snd (fst x)))) (snd x).


(** A client that keeps just the fields. *)
Definition field_ops : AbrOps (AbrSlotData * AbrSlotData * Z) :=
  mkAbrOps None None (Some (λ _ s, ((true, s), s))) (Some (λ a b f _, (true, (a, b, f)))).
