(* ===== verification/GblRun.v ===== *)
(** * libgbl: boot from memory, and the fastboot session loop

    Models [RambootOps] of src/gbl/libgbl/src/ops.rs, the wrapper that the
    platform gets when fastboot boots a staged image; with it, the boot command
    of GblVars runs the Android flow of AndroidBoot. Models the loops of
    src/gbl/libgbl/src/fastboot/mod.rs that serve the transports and finish the
    background tasks, and the packet that announces a fastboot device.

    The command loop and the loop that polls the tasks are joined: whenever the
    first one yields, the second one polls all tasks once. *)

From S2P Require Import Prelude SafeMath LibError Text Utils Abr Crc Block BlockSpec Disk Slots.
From S2P Require Import GptData GptBuild GptCodec Fastboot FastbootRun BootParams Partition.
From S2P Require Import GblOps GblOpsProps FastbootTasks GblFastboot GblVars GblFastbootProps.
From S2P Require Import DtTable Fdt Avb DeviceTree Misc AndroidLoad AndroidBoot.
Import SafeNum.

(** ** Boot from memory *)

(** gbl/libgbl/src/ops.rs:452-457, [RambootOps]. *)
Record RambootOps (G : Type) := mkRamboot { rb_ops : G; rb_partitions : list (list Z * bytes) }.
Arguments mkRamboot {G}.
Arguments rb_ops {G}.
Arguments rb_partitions {G}.

Section Ramboot.
Context {G : Type} `{!AvbPlatform G} `{!AndroidPlatform G} `{!GblOps G}.

(** A method that is passed on, without and with a buffer. *)
Definition pass {E A} (m : ST G E A) : ST (RambootOps G) E A :=
  zoom rb_ops (λ g r, mkRamboot g (rb_partitions r)) m.
Definition pass_buf {B E A} (m : ST (G * B) E A) : ST (RambootOps G * B) E A :=
  zoom (λ s, (rb_ops (fst s), snd s)) (λ t s, (mkRamboot (fst t) (rb_partitions (fst s)), snd t)) m.

(** gbl/libgbl/src/ops.rs:512-515, [GblOps::avb_write_rollback_index for RambootOps]: nothing is
    stored. *)
Definition rb_write_rollback_index (_ _ : Z) : ST (RambootOps G) IoError unit := mret tt.
(** gbl/libgbl/src/ops.rs:521-524, [GblOps::avb_write_persistent_value for RambootOps]. *)
Definition rb_write_persistent_value (_ _ : bytes) : ST (RambootOps G) IoError unit := mret tt.
(** gbl/libgbl/src/ops.rs:526-529, [GblOps::avb_erase_persistent_value for RambootOps]. *)
Definition rb_erase_persistent_value (_ : bytes) : ST (RambootOps G) IoError unit := mret tt.

#[export] Instance RambootAvb : AvbPlatform (RambootOps G) := {|
  preloaded_reads := rb_partitions;
  avb_read_is_device_unlocked := pass avb_read_is_device_unlocked;
  avb_read_rollback_index loc := pass (avb_read_rollback_index loc);
  avb_write_rollback_index := rb_write_rollback_index;
  avb_read_persistent_value name := pass_buf (avb_read_persistent_value name);
  avb_write_persistent_value := rb_write_persistent_value;
  avb_erase_persistent_value := rb_erase_persistent_value;
  avb_validate_vbmeta_public_key k m := pass (avb_validate_vbmeta_public_key k m);
  avb_cert_read_permanent_attributes := pass_buf avb_cert_read_permanent_attributes;
  avb_cert_read_permanent_attributes_hash := pass avb_cert_read_permanent_attributes_hash;
  avb_handle_verification_result c d v := pass (avb_handle_verification_result c d v);
|}.

#[export] Instance RambootAndroid : AndroidPlatform (RambootOps G) := {|
  fixup_bootconfig b := pass_buf (fixup_bootconfig b);
  get_custom_device_tree := pass get_custom_device_tree;
  fixup_os_commandline c := pass_buf (fixup_os_commandline c);
  select_device_trees := pass_buf select_device_trees;
  fixup_device_tree := pass_buf fixup_device_tree;
|}.

(** gbl/libgbl/src/ops.rs:635-638, [GblOps::get_current_slot for RambootOps]. *)
Definition rb_get_current_slot : ST (RambootOps G) Error Slot := raise Unsupported.
(** gbl/libgbl/src/ops.rs:640-643, [GblOps::get_next_slot for RambootOps]: must not be reached. *)
Definition rb_get_next_slot (_ : bool) : ST (RambootOps G) Error Slot := lift Panic.
(** gbl/libgbl/src/ops.rs:645-648, [GblOps::set_active_slot for RambootOps]. *)
Definition rb_set_active_slot (_ : Z) : ST (RambootOps G) Error unit := lift Panic.
(** gbl/libgbl/src/ops.rs:655-659, [GblOps::get_reboot_reason for RambootOps]. *)
Definition rb_get_reboot_reason : ST (RambootOps G) Error RebootReason := mret RNormal.
(** gbl/libgbl/src/ops.rs:661-669, [GblOps::fastboot_variable for RambootOps]. *)
Definition rb_fastboot_variable (_ : bytes) (_ : list bytes) : ST (RambootOps G * bytes) Error Z := lift Panic.
(** gbl/libgbl/src/ops.rs:671-677, [GblOps::fastboot_visit_all_variables for RambootOps]. *)
Definition rb_fastboot_visit_all_variables (r : RambootOps G) : list (list bytes * bytes) * result unit * RambootOps G :=
  ([], Panic, r).

#[export] Instance RambootGblOps : GblOps (RambootOps G) := {|
  should_stop_in_fastboot := pass should_stop_in_fastboot;
  platform_reboot r := mkRamboot (platform_reboot (rb_ops r)) (rb_partitions r);
  expected_os := pass expected_os;
  get_current_slot := rb_get_current_slot;
  get_next_slot := rb_get_next_slot;
  platform_set_active_slot := rb_set_active_slot;
  get_reboot_reason := rb_get_reboot_reason;
  fastboot_variable := rb_fastboot_variable;
  fastboot_visit_all_variables := rb_fastboot_visit_all_variables;
|}.
End Ramboot.

Section BootCommand.
Context {D G ZE : Type} `{!BlockIo D} `{!AvbPlatform G} `{!AndroidPlatform G} `{!GblOps G}.
Context `{!LibAvb D (RambootOps G)} `{!Decoders} `{!BootImgLib} `{!DtTableLayout} `{!LibFdt}.
(** The text of an error, and what a load that fails leaves in the load buffer. *)
Context (BUILD_NUMBER : option bytes) (show : IntegrationError SlotVerifyError ZE → list bytes)
  (stale : Buffer → Buffer).

(** gbl/libgbl/src/fastboot/mod.rs:780-800, [FastbootImplementation::boot for GblFastboot]: the call of
    [android_load_verify_fixup] on the wrapped platform. *)
Definition ramboot_load_verify_fixup (boot_part bootimg : bytes) (slot_idx : Z) (load : Buffer)
    (disks : list (GblDisk D)) (g : G)
    : outcome (list bytes) (Z * Z * (Z * Z) * (Z * Z)) * Buffer * list (GblDisk D) * G :=
  let '(r, (disks, rb)) :=
    android_load_verify_fixup (ZE := ZE) BUILD_NUMBER (buf_addr load) slot_idx false (buf_bytes load)
      (disks, mkRamboot g [(boot_part, bootimg)]) in
  let bounds r := (r_start r, range_len r) in
  match r with
  | Ok (bytes', (ramdisk, fdt, kernel, _)) =>
      (Ok (bounds ramdisk, bounds fdt, bounds kernel), mkBuffer (buf_addr load) bytes', disks, rb_ops rb)
  | Err e => (Err (show e), stale load, disks, rb_ops rb)
  | Panic => (Panic, stale load, disks, rb_ops rb)
  end.
End BootCommand.

(** ** The session loop *)

(** gbl/libgbl/src/fastboot/mod.rs:808-812, [GblUsbTransport]: the question has no errors, but can panic. *)
Class GblUsbTransport (U : Type) := {
  #[global] usb_transport :: Transport U;
  has_packet : ST U Error bool;
}.
(** gbl/libgbl/src/fastboot/mod.rs:814-822, [GblTcpStream]. *)
Class GblTcpStream (T : Type) := {
  #[global] gbl_tcp_stream :: TcpStream T;
  accept_new : ST T Error bool;
}.

(** The transports of a session that are present. *)
Record Sessions (L U T : Type) := mkSessions { s_local : option L; s_usb : option U; s_tcp : option T }.
Arguments mkSessions {L U T}.
Arguments s_local {L U T}.
Arguments s_usb {L U T}.
Arguments s_tcp {L U T}.

Section Run.
Context {D G L U T : Type} `{!BlockIo D} `{!GblOps G} `{!ShowError} `{!ShowSafeError}.
Context `{!LocalSession L} `{!GblUsbTransport U} `{!GblTcpStream T}.
Abbreviation Fb := (GblFastboot D G).
Context `{!FastbootImplementation Fb} (ready : nat → bool) (fuel : nat).
Abbreviation Loop := (ST (Sessions L U T * Fb) Error).
#[local] Existing Instance local_session_transport.

(** What a turn of the loop says: the loop ends ([inl true]), goes on ([inl
    false]), or the fuel of the turn does not suffice ([inr tt]). An error of a
    session is logged, and the loop goes on. *)
Definition turn := (bool + unit)%type.
Definition turn_of (r : outcome Error turn) : outcome Error turn :=
  match r with Err _ => Ok (inl false) | r => r end.

(** gbl/libgbl/src/fastboot/mod.rs:286-349, [GblFastboot::run]: the local session. *)
Definition local_turn : Loop turn := λ s,
  match s_local (fst s) with
  | None => (Ok (inl false), s)
  | Some l =>
      let '(r, (l, b)) := process_next_command fuel (l, snd s) in
      (turn_of r, (mkSessions (Some l) (s_usb (fst s)) (s_tcp (fst s)), b))
  end.
(** gbl/libgbl/src/fastboot/mod.rs:286-349, [GblFastboot::run]: USB. *)
Definition usb_turn : Loop turn := λ s,
  match s_usb (fst s) with
  | None => (Ok (inl false), s)
  | Some v =>
      let '(packet, v) := has_packet v in
      let put v := mkSessions (s_local (fst s)) (Some v) (s_tcp (fst s)) in
      match packet with
      | Ok true => let '(r, (v, b)) := process_next_command fuel (v, snd s) in (turn_of r, (put v, b))
      | Panic => (Panic, (put v, snd s))
      | _ => (Ok (inl false), (put v, snd s))
      end
  end.
(** gbl/libgbl/src/fastboot/mod.rs:286-349, [GblFastboot::run]: TCP. *)
Definition tcp_turn : Loop turn := λ s,
  match s_tcp (fst s) with
  | None => (Ok (inl false), s)
  | Some v =>
      let '(new, v) := accept_new v in
      let put v := mkSessions (s_local (fst s)) (s_usb (fst s)) (Some v) in
      match new with
      | Ok true =>
          let '(r, (v, b)) := run_tcp_session fuel (v, snd s) in
          (turn_of (ended ← r; Ok (if ended : bool then inl true else inr tt)), (put v, b))
      | Panic => (Panic, (put v, snd s))
      | _ => (Ok (inl false), (put v, snd s))
      end
  end.

(** The tasks are polled once; the number that is left. *)
Definition poll_round : Loop Z := λ s,
  match poll_tasks ready fuel (snd s) with
  | (Ok n, b) => (Ok n, (fst s, b))
  | (_, b) => (Panic, (fst s, b))
  end.

(** A turn, and what follows if the loop goes on. *)
Definition and_then (t : Loop turn) (k : Loop turn) : Loop turn :=
  r ← t; match r with inl false => k | r => mret r end.

(** gbl/libgbl/src/fastboot/mod.rs:286-349, [GblFastboot::run]: the command loop. *)
Fixpoint cmd_loop (n : nat) : Loop turn :=
  match n with
  | O => mret (inr tt)
  | S n => and_then local_turn (and_then usb_turn (and_then tcp_turn (poll_round;; cmd_loop n)))
  end.
(** gbl/libgbl/src/fastboot/mod.rs:286-349, [GblFastboot::run]: the tasks that are left when
    the command loop has ended. *)
Fixpoint task_loop (n : nat) : Loop turn :=
  match n with
  | O => mret (inr tt)
  | S n => left ← poll_round; if 0 <? left then task_loop n else mret (inl true)
  end.
(** gbl/libgbl/src/fastboot/mod.rs:286-349, [GblFastboot::run]. *)
Definition fb_run : Loop turn := λ s,
  match fst s with
  | mkSessions None None None => (Ok (inl true), s)
  | _ => (r ← cmd_loop fuel; match r with inl _ => task_loop fuel | r => mret r end) s
  end.

(** gbl/libgbl/src/fastboot/mod.rs:824-852, [run_gbl_fastboot]: with the tasks of the
    caller; the result, and what is left of the sessions and the backend. *)
Definition run_gbl_fastboot (gbl_ops : G) (disks : list (GblDisk D)) (pool : list Buffer)
    (tasks : PinFutSlice (Task D)) (sessions : Sessions L U T) (load_buffer : Buffer)
    : outcome Error (option GblFastbootResult) * (Sessions L U T * Fb) :=
  let '(r, s) := fb_run (sessions, gf_new gbl_ops disks tasks pool load_buffer) in
  (r ← r; Ok (match r with inl _ => Some (gf_result (snd s)) | inr _ => None end), s).

(** gbl/libgbl/src/fastboot/mod.rs:854-901, [run_gbl_fastboot_stack]: with [n] tasks on the
    stack. *)
Definition run_gbl_fastboot_stack (n : nat) (gbl_ops : G) (disks : list (GblDisk D)) (pool : list Buffer)
    (sessions : Sessions L U T) (load_buffer : Buffer)
    : outcome Error (option GblFastbootResult) * (Sessions L U T * Fb) :=
  run_gbl_fastboot gbl_ops disks pool (slice_new (replicate n (task_new TNone))) sessions load_buffer.
End Run.

(** ** Announcing the device *)

(** gbl/libgbl/src/fastboot/mod.rs:903-950, [fuchsia_fastboot_mdns_packet]: the packet of a
    device named fuchsia-4821-0b31-eaf8. *)
Definition mdns_template : bytes :=
  [0x00; 0x00; 0x84; 0x00; 0x00; 0x00; 0x00; 0x01; 0x00; 0x00; 0x00; 0x02; 0x09; 0x5f; 0x66;
   0x61; 0x73; 0x74; 0x62; 0x6f; 0x6f; 0x74; 0x04; 0x5f; 0x74; 0x63; 0x70; 0x05; 0x6c; 0x6f;
   0x63; 0x61; 0x6c; 0x00; 0x00; 0x0c; 0x80; 0x01; 0x00; 0x00; 0x00; 0x78; 0x00; 0x19; 0x16;
   0x66; 0x75; 0x63; 0x68; 0x73; 0x69; 0x61; 0x2d; 0x34; 0x38; 0x32; 0x31; 0x2d; 0x30; 0x62;
   0x33; 0x31; 0x2d; 0x65; 0x61; 0x66; 0x38; 0xc0; 0x0c; 0xc0; 0x2c; 0x00; 0x21; 0x80; 0x01;
   0x00; 0x00; 0x00; 0x78; 0x00; 0x1f; 0x00; 0x00; 0x00; 0x00; 0x15; 0xb2; 0x16; 0x66; 0x75;
   0x63; 0x68; 0x73; 0x69; 0x61; 0x2d; 0x34; 0x38; 0x32; 0x31; 0x2d; 0x30; 0x62; 0x33; 0x31;
   0x2d; 0x65; 0x61; 0x66; 0x38; 0xc0; 0x1b; 0xc0; 0x57; 0x00; 0x1c; 0x80; 0x01; 0x00; 0x00;
   0x00; 0x78; 0x00; 0x10; 0xfe; 0x80; 0x00; 0x00; 0x00; 0x00; 0x00; 0x00; 0x4a; 0x21; 0x0b;
   0xff; 0xfe; 0x31; 0xea; 0xf8].

(** [packet[off..][..data.len()].clone_from_slice(data)]. *)
Definition clone_at (packet : bytes) (off : Z) (data : bytes) : result bytes :=
  rest ← index_from packet off;
  index_range rest 0 (zlen data);;
  Ok (splice packet off data).

(** gbl/libgbl/src/fastboot/mod.rs:903-950, [fuchsia_fastboot_mdns_packet]. *)
Definition fuchsia_fastboot_mdns_packet (node_name ipv6_addr : bytes) : result bytes :=
  if negb (zlen node_name =? 22) then Err InvalidInput else
  packet ← clone_at mdns_template 45 node_name;
  packet ← clone_at packet 88 node_name;
  clone_at packet 124 ipv6_addr.

(** * libgbl: boot from memory and the end of a fastboot session

    A boot from memory reads its image from memory and stores nothing; fastboot
    does not end while a background task is unfinished; the announcement carries
    the name and the address of the device. *)

(** ** Boot from memory *)

Section Ramboot.
Context {D G ZE : Type} `{!BlockIo D} `{!AvbPlatform G} `{!LibAvb D (RambootOps G)} `{!AndroidPlatform G}.

(** A boot from memory reads the partition of the staged image from memory,
    whatever the disk holds, and reads no more than was staged; the devices are
    not touched. *)
Theorem ramboot_reads_staged (g : G) part image base load r devs :
  r_start r + range_len r ≤ zlen load → 0 ≤ r_start r →
  read_range (ZE := ZE) part base load r (devs, mkRamboot g [(part, image)]) =
    (if range_len r <=? zlen image
     then Ok (splice load (r_start r) (slice image 0 (range_len r)))
     else Err (UnificationError OutOfRange), (devs, mkRamboot g [(part, image)])).
Proof.
  intros Hr H0. assert (Hn : 0 ≤ range_len r) by (unfold range_len; lia).
  unfold read_range, ops_read_sync. cbn [fst snd preloaded_reads RambootAvb rb_partitions list_find].
  rewrite decide_True by done. cbn [fmap option_fmap option_map prod_map].
  rewrite (get_range_Some image 0 (zlen image)) by lia. cbn [mbind option_bind].
  rewrite (slice_all image) by lia. unfold at_range. rewrite zlen_slice by lia.
  destruct (range_len r <=? zlen image) eqn:E; bools.
  - rewrite get_range_Some by lia. by rewrite Z.sub_0_r.
  - unfold get_range. by lia_bools.
Qed.
End Ramboot.

(** ** The end of a session *)

Section Idle.
Context {F S E : Type} (poll : F → ST S E (bool * F)).

Lemma arith_inv w z n : arith (E := E) w z = Ok n → n = z.
Proof. unfold arith, checked. case_if; simpl; congruence. Qed.

(** The closure counts the futures that it does not remove. *)
Lemma poll_cb_count f s c fin f' s' c' :
  poll_cb poll f (s, c) = (Ok (fin, f'), (s', c')) → c' = c + if fin : bool then 0 else 1.
Proof.
  unfold poll_cb. rewrite bind_run. unfold zoom. cbn [fst snd].
  destruct (poll f s) as [[[x y]| |] t]; try done. cbv iota. rewrite bind_run. cbv [gets]. cbn [snd].
  rewrite bind_run, lift_run. destruct (arith 64 _) as [n| |] eqn:Ea; try done.
  apply arith_inv in Ea. rewrite bind_run. cbv [modify]. cbn [fst]. rewrite mret_run.
  intros H. by simplify_eq.
Qed.

(** Every future is counted or removed. *)
Lemma remove_loop_count n p s c u p' s' c' :
  remove_loop (poll_cb poll) n (p, (s, c)) = (Ok u, (p', (s', c'))) →
  pf_used p' - c' = pf_used p - c - Z.of_nat n.
Proof.
  revert p s c. induction n as [|n IH]; intros p s c; cbn [remove_loop].
  - rewrite mret_run. intros H. simplify_eq. lia.
  - rewrite bind_run. cbv [gets id]. rewrite bind_run, lift_run.
    destruct (unwrap (pf_arr p !! n)) as [f| |] eqn:Ef; try done.
    rewrite bind_run. unfold zoom. cbn [fst snd].
    destruct (poll_cb poll f (s, c)) as [[[fin f']| |] [t m]] eqn:Ecb; try done.
    apply poll_cb_count in Ecb. cbn [fst snd]. destruct fin.
    + rewrite !bind_run, lift_run. destruct (arith 64 (pf_used p - 1)) as [k| |] eqn:Ea; try done.
      apply arith_inv in Ea. rewrite bind_run, lift_run. destruct (swap _ _ _) as [arr| |]; try done.
      cbv [modify]. cbn [fst snd]. intros H. apply IH in H. cbn [pf_used] in H. lia.
    + rewrite bind_run. cbv [modify]. cbn [fst snd]. intros H. apply IH in H. cbn [pf_used] in H. lia.
Qed.

Lemma poll_all_none p s p' s' :
  poll_all poll (p, s) = (Ok 0, (p', s')) → pf_used p' ≤ 0.
Proof.
  rewrite poll_all_unfold.
  destruct (remove_loop _ _ _) as [[u| |] [q [t m]]] eqn:E1; try done. intros H. simplify_eq.
  apply remove_loop_count in E1. lia.
Qed.
Lemma poll_all_nonneg p s n p' s' : poll_all poll (p, s) = (Ok n, (p', s')) → n ≤ 0 → pf_used p' ≤ 0.
Proof.
  rewrite poll_all_unfold.
  destruct (remove_loop _ _ _) as [[u| |] [q [t m]]] eqn:E1; try done. intros H ?. simplify_eq.
  apply remove_loop_count in E1. lia.
Qed.
End Idle.

Section Session.
Context {D G L U T : Type} `{!BlockIo D} `{!GblOps G} `{!ShowError} `{!ShowSafeError}.
Context `{!LocalSession L} `{!GblUsbTransport U} `{!GblTcpStream T}.
Context `{!FastbootImplementation (GblFastboot D G)} (ready : nat → bool) (fuel : nat).

Lemma task_loop_idle n ss (b : GblFastboot D G) r ss' (b' : GblFastboot D G) :
  task_loop (L := L) (U := U) (T := T) ready fuel n (ss, b) = (Ok (inl r), (ss', b')) → pf_used (gf_tasks b') ≤ 0.
Proof.
  revert ss b. induction n as [|n IH]; intros ss b; cbn [task_loop]; [done|].
  rewrite bind_run. unfold poll_round, poll_tasks. cbn [fst snd].
  destruct (poll_all _ _) as [[k| |] [p b1]] eqn:E; try done.
  destruct (0 <? k) eqn:Ek; [apply IH|]. bools. rewrite mret_run. intros X. simplify_eq. cbn.
  by eapply poll_all_nonneg.
Qed.

(** C12. Fastboot returns to the boot flow only when no background task, a flash
    or an erase, is left unfinished, whatever the host sent and however the
    session ended. *)
Theorem fastboot_ends_idle n gbl_ops disks pool (sessions : Sessions L U T) load_buffer res ss (b : GblFastboot D G) :
  run_gbl_fastboot_stack ready fuel n gbl_ops disks pool sessions load_buffer = (Ok (Some res), (ss, b)) →
  pf_used (gf_tasks b) ≤ 0 ∧ res = gf_result b.
Proof.
  unfold run_gbl_fastboot_stack, run_gbl_fastboot.
  destruct (fb_run _ _ _) as [r s] eqn:E. destruct r as [[e|]| |]; try done. intros X. cbn in X. simplify_eq. split; [|done].
  unfold fb_run in E. cbn [fst] in E.
  assert (Hgo : ∀ s0, (r ← cmd_loop (L := L) (U := U) (T := T) ready fuel fuel;
      match r with inl _ => task_loop ready fuel fuel | r => mret r end) s0 = (Ok (inl e), (ss, b)) → pf_used (gf_tasks b) ≤ 0).
  { intros s0 X. rewrite bind_run in X. destruct (cmd_loop _ _ _ _) as [[[?|]| |] [ss1 b1]]; try done.
    by eapply task_loop_idle. }
  destruct sessions as [[l|] [u|] [t|]]; try by eapply Hgo.
  by simplify_eq.
Qed.
End Session.

(** ** Announcing the device *)

Lemma clone_at_mid (a b c d : bytes) off :
  off = zlen a → zlen b = zlen d → clone_at (a ++ b ++ c) off d = Ok (a ++ d ++ c).
Proof.
  intros -> Hb. unfold clone_at, index_from.
  rewrite index_range_ok, ok_bind by (rewrite ?length_app; lia).
  rewrite index_range_ok by (rewrite ?length_slice, ?length_app; lia).
  cbn. f_equal. unfold splice. rewrite Nat2Z.id, take_app_length, <- drop_drop, drop_app_length.
  replace (length d) with (length b) by lia. by rewrite drop_app_length.
Qed.

(** The announcement of a device carries its name, of 22 bytes, in both
    places, and its IPv6 address at the end; the rest of the packet is fixed. *)
Theorem mdns_packet_exact node_name ipv6_addr :
  zlen node_name = 22 → zlen ipv6_addr = 16 →
  fuchsia_fastboot_mdns_packet node_name ipv6_addr =
    Ok (slice mdns_template 0 45 ++ node_name ++ slice mdns_template 67 21 ++ node_name ++
        slice mdns_template 110 14 ++ ipv6_addr).
Proof.
  intros Hn Ha. unfold fuchsia_fastboot_mdns_packet. lia_bools. cbn [negb].
  set (t1 := slice mdns_template 0 45). set (t2 := slice mdns_template 45 22). set (t3 := slice mdns_template 67 21).
  set (t4 := slice mdns_template 88 22). set (t5 := slice mdns_template 110 14). set (t6 := slice mdns_template 124 16).
  replace mdns_template with (t1 ++ t2 ++ t3 ++ t4 ++ t5 ++ t6) by done.
  assert (L : zlen t1 = 45 ∧ zlen t2 = 22 ∧ zlen t3 = 21 ∧ zlen t4 = 22 ∧ zlen t5 = 14 ∧ zlen t6 = 16) by done.
  clearbody t1 t2 t3 t4 t5 t6. destruct_and!.
  rewrite clone_at_mid, ok_bind by lia.
  rewrite (app_assoc t1), (app_assoc (t1 ++ node_name)), clone_at_mid, ok_bind by (rewrite ?length_app; lia).
  rewrite <- (app_nil_r t6).
  rewrite (app_assoc ((t1 ++ node_name) ++ t3)), (app_assoc (((t1 ++ node_name) ++ t3) ++ node_name)).
  rewrite clone_at_mid by (rewrite ?length_app; lia). by rewrite app_nil_r, <- !app_assoc.
Qed.

(** ** A session *)

Import RamBlockSpec.

Module SessionExample.
#[local] Existing Instances StandardHasher MergeSort fuchsia_platform.
#[local] Instance show_e : ShowError := λ _, [str "error"].
#[local] Instance show_s : ShowSafeError := λ _, [str "overflow"].
#[local] Instance no_zbi : ZbiContainer := {|
  ZBI_ALIGNMENT := 8;
  zbi_parses _ := false;
  zbi_new _ := Err [];
  zbi_next_payload _ := Err [];
  zbi_create_entry _ _ := Err [];
|}.
#[local] Instance no_files : ZbiFiles unit := λ _, None.
#[local] Instance queue_usb : GblUsbTransport Queue := {| has_packet q := (Ok (bool_decide (inbox q ≠ [])), q) |}.
#[local] Instance no_local : LocalSession unit :=
  {| ls_update := raise Disconnected; process_outgoing_packet _ t := t |}.
#[local] Instance pipe_tcp : GblTcpStream Pipe := {| accept_new p := (Ok false, p) |}.
Definition no_boot (a b : bytes) (i : Z) (l : Buffer) (d : list (GblDisk RamBlock.RamBlockIo)) (g : unit)
    : outcome (list bytes) (Z * Z * (Z * Z) * (Z * Z)) * Buffer * list (GblDisk RamBlock.RamBlockIo) * unit :=
  (Err [], l, d, g).
#[local] Instance backend : FastbootImplementation (GblFastboot RamBlock.RamBlockIo unit) :=
  GblBackend ex_ready 20 0 no_boot.

(** A host on USB that flashes eight bytes in the background, and continues. *)
Definition host : Queue :=
  mkQueue [str "oem gbl-enable-async-task"; str "download:00000008"; [21; 22; 23; 24; 25; 26; 27; 28];
           str "flash:data"; str "continue"] [].
Definition session :=
  run_gbl_fastboot_stack ex_ready 20 2 tt [ex_small "boot"; ex_small "data"] [mkBuffer 7000 (replicate 16 0); no_buffer]
    (mkSessions None (Some host) None : Sessions unit Queue Pipe) no_buffer.

Lemma fastboot_ends_idle_witness :
  fst session = Ok (Some (mkFbResult None None)) ∧ pf_used (gf_tasks (snd (snd session))) ≤ 0.
Proof.
  assert (E : fst session = Ok (Some (mkFbResult None None))) by (vm_compute; reflexivity).
  split; [exact E|].
  apply (fastboot_ends_idle ex_ready 20 2 tt [ex_small "boot"; ex_small "data"] [mkBuffer 7000 (replicate 16 0); no_buffer]
    (mkSessions None (Some host) None : Sessions unit Queue Pipe) no_buffer (mkFbResult None None)
    (fst (snd session)) (snd (snd session))).
  rewrite <- E. unfold session. by destruct (run_gbl_fastboot_stack _ _ _ _ _ _ _ _) as [? [? ?]].
Defined.
End SessionExample.
