(* ===== verification/Efi.v ===== *)
(** * libefi: the firmware and its services

    Models src/gbl/libefi/src/lib.rs (system table, boot and runtime services,
    events), src/gbl/libefi/src/protocol.rs (protocols, the macro for calls) and
    the conversion of status codes of src/gbl/liberror/src/lib.rs. The firmware
    is a parameter: a table of functions on its state [W], each of which may be
    absent. A function returns its status, what it stored through the pointers
    it got, and the new state. A pointer is its address; null is 0. *)

From S2P Require Import Prelude SafeMath LibError Text.

(** ** Status codes *)

(** [EFI_ERR] of the C header: the highest bit of an [uintptr_t] marks an error. *)
Definition EFI_ERR (n : Z) : Z := 2 ^ 63 + n.
Definition EFI_STATUS_SUCCESS : Z := 0.
Definition EFI_STATUS_INVALID_PARAMETER : Z := EFI_ERR 2.
Definition EFI_STATUS_UNSUPPORTED : Z := EFI_ERR 3.
Definition EFI_STATUS_BUFFER_TOO_SMALL : Z := EFI_ERR 5.
Definition EFI_STATUS_NOT_READY : Z := EFI_ERR 6.
Definition EFI_STATUS_DEVICE_ERROR : Z := EFI_ERR 7.
Definition EFI_STATUS_OUT_OF_RESOURCES : Z := EFI_ERR 9.
Definition EFI_STATUS_NOT_FOUND : Z := EFI_ERR 14.
Definition EFI_STATUS_NOT_STARTED : Z := EFI_ERR 19.
Definition EFI_STATUS_ALREADY_STARTED : Z := EFI_ERR 20.

(** gbl/liberror/src/lib.rs:316-362, [efi_status_to_result]. *)
Definition efi_status_to_result (e : Z) : result unit :=
  if e =? EFI_STATUS_SUCCESS then Ok tt else
  Err (match e - EFI_ERR 0 with
       | 27 => BadChecksum | 21 => Aborted | 15 => AccessDenied | 20 => AlreadyStarted
       | 4 => BadBufferSize | 5 => BufferTooSmall None | 33 => CompromisedData
       | 104 => Disconnected | 106 => OperationProhibited | 105 => ConnectionReset
       | 7 => DeviceError | 31 => EndOfFile | 28 => EndOfMedia | 35 => HttpError
       | 22 => IcmpError | 25 => UnsupportedVersion | 32 => InvalidLanguage
       | 2 => InvalidInput | 34 => IpAddressConflict | 1 => LoadError | 13 => MediaChanged
       | 14 => NotFound | 6 => NotReady | 19 => NotStarted | 17 => NoMapping | 12 => NoMedia
       | 16 => NoResponse | 9 => OutOfResources | 24 => ProtocolError | 26 => SecurityViolation
       | 23 => TftpError | 18 => Timeout | 3 => Unsupported | 10 => VolumeCorrupted
       | 11 => VolumeFull | 8 => WriteProtected
       | _ => UnexpectedEfiError e
       end).

(** A function of the firmware; [A] is what it stores through its pointers. *)
Abbreviation efi_fn W A := (option (W → Z * A * W)).
(** A function pointer applied to its arguments. *)
Definition app_fn {X W A} (f : option (X → W → Z * A * W)) (x : X) : efi_fn W A := option_map (λ f, f x) f.

Section Call.
Context {W A : Type}.

(** gbl/libefi/src/protocol.rs:152-162, [efi_call]: the first variant. *)
Definition efi_call (method : efi_fn W A) : ST W Error A := λ w,
  match method with
  | None => (Err NotFound, w)
  | Some f => let '(st, a, w) := f w in (efi_status_to_result st;; Ok a, w)
  end.

(** gbl/libefi/src/protocol.rs:163-178, [efi_call]: the second variant, with the size
    that the function stores. *)
Definition efi_call_bufsize (size : A → Z) (method : efi_fn W A) : ST W Error A := λ w,
  match method with
  | None => (Err NotFound, w)
  | Some f =>
      let '(st, a, w) := f w in
      (if st =? EFI_STATUS_BUFFER_TOO_SMALL then Err (BufferTooSmall (Some (size a)))
       else efi_status_to_result st;; Ok a, w)
  end.
End Call.

(** ** Tables *)

(** [EfiGuid]. *)
Record EfiGuid := mkGuid { data1 : Z; data2 : Z; data3 : Z; data4 : list Z }.
#[export] Instance EfiGuid_eq_dec : EqDecision EfiGuid.
Proof. solve_decision. Defined.

(** [EfiConfigurationTable]. *)
Record EfiConfigurationTable := mkConfigTable { vendor_guid : EfiGuid; vendor_table : Z }.

(** [EfiBootService], with the functions that are used: a located array of
    handles is its address and its elements. *)
Record EfiBootService (W : Type) := mkBootService {
  fn_get_memory_map : option (bytes → W → Z * (bytes * (Z * Z * Z * Z)) * W);
  fn_allocate_pool : option (Z * Z → W → Z * Z * W);
  fn_free_pool : option (Z → W → Z * unit * W);
  fn_create_event : option (Z * Z * bool → W → Z * Z * W);
  fn_set_timer : option (Z * Z * Z → W → Z * unit * W);
  fn_close_event : option (Z → W → Z * unit * W);
  fn_check_event : option (Z → W → Z * unit * W);
  fn_exit_boot_services : option (Z * Z → W → Z * unit * W);
  fn_stall : option (Z → W → Z * unit * W);
  fn_open_protocol : option (Z * EfiGuid * Z → W → Z * Z * W);
  fn_close_protocol : option (Z * EfiGuid * Z → W → Z * unit * W);
  fn_locate_handle_buffer : option (EfiGuid → W → Z * (Z * list Z) * W);
}.
Arguments fn_get_memory_map {W}. Arguments fn_allocate_pool {W}. Arguments fn_free_pool {W}.
Arguments fn_create_event {W}. Arguments fn_set_timer {W}. Arguments fn_close_event {W}.
Arguments fn_check_event {W}. Arguments fn_exit_boot_services {W}. Arguments fn_stall {W}.
Arguments fn_open_protocol {W}. Arguments fn_close_protocol {W}. Arguments fn_locate_handle_buffer {W}.

(** [EfiRuntimeService]; a variable is its GUID and its name in UTF-16. A reset, of
    a type and with a status, does not return; it leaves the firmware in a last state. *)
Record EfiRuntimeService (W : Type) := mkRuntimeService {
  fn_get_variable : option (list Z * EfiGuid * bytes → W → Z * (bytes * Z) * W);
  fn_set_variable : option (list Z * EfiGuid * bytes → W → Z * unit * W);
  fn_reset_system : option (Z * Z → W → W);
}.
Arguments fn_get_variable {W}. Arguments fn_set_variable {W}. Arguments fn_reset_system {W}.

(** [EfiSystemTable]: null pointers are [None]. *)
Record EfiSystemTable (W : Type) := mkSystemTable {
  st_boot_services : option (EfiBootService W);
  st_runtime_services : option (EfiRuntimeService W);
  st_configuration_table : option (list EfiConfigurationTable);
}.
Arguments st_boot_services {W}. Arguments st_runtime_services {W}. Arguments st_configuration_table {W}.

(** gbl/libefi/src/lib.rs:94-99, [EfiEntry]. *)
Record EfiEntry (W : Type) := mkEntry { image_handle : Z; systab_ptr : option (EfiSystemTable W) }.
Arguments mkEntry {W}. Arguments image_handle {W}. Arguments systab_ptr {W}.

(** gbl/libefi/src/protocol.rs:40-46, [ProtocolInfo]: the structure of the interface is
    the type [T]; [interface_at] is the object that a pointer of the firmware
    points to, and nothing for the null pointer. *)
Class ProtocolInfo (T : Type) := { GUID : EfiGuid; interface_at : Z → option T }.

(** gbl/libefi/src/protocol.rs:48-56, [Protocol]. *)
Record Protocol (T : Type) := mkProtocol { pr_device : Z; pr_interface : option T }.
Arguments mkProtocol {T}. Arguments pr_device {T}. Arguments pr_interface {T}.

(** gbl/libefi/src/protocol.rs:78-82, [Protocol::interface]. *)
Definition interface {T} (p : Protocol T) : result T := ok_or (pr_interface p) InvalidInput.
(** A call of a function of the interface. *)
Definition call_interface {T W A} (p : Protocol T) (method : T → efi_fn W A) : ST W Error A :=
  i ← lift (interface p); efi_call (method i).
Definition call_interface_bufsize {T W A} (p : Protocol T) (size : A → Z) (method : T → efi_fn W A) : ST W Error A :=
  i ← lift (interface p); efi_call_bufsize size (method i).

(** [unwrap] of the result of a call. *)
Definition unwrap_st {S E E' A} (m : ST S E A) : ST S E' A := λ s, let '(r, s) := m s in (unwrap_res r, s).

(** A block with a local object, which is dropped at its end. *)
Definition with_drop {S E A} (drop : ST S Error unit) (m : ST S E A) : ST S E A := λ s,
  match m s with
  | (Panic, s) => (Panic, s)
  | (r, s) => match drop s with (Ok _, s) => (r, s) | (_, s) => (Panic, s) end
  end.

Section Services.
Context {W : Type} (entry : EfiEntry W).
Abbreviation M := (ST W Error).

(** gbl/libefi/src/lib.rs:109-116, [EfiEntry::system_table_checked]. *)
Definition system_table_checked : result (EfiSystemTable W) := ok_or (systab_ptr entry) Unsupported.
(** gbl/libefi/src/lib.rs:102-107, [EfiEntry::system_table]. *)
Definition system_table : result (EfiSystemTable W) := unwrap_res system_table_checked.
(** gbl/libefi/src/lib.rs:198-208, [SystemTable::boot_services_checked]. *)
Definition boot_services_checked (t : EfiSystemTable W) : result (EfiBootService W) :=
  ok_or (st_boot_services t) Unsupported.
(** gbl/libefi/src/lib.rs:191-196, [SystemTable::boot_services]: of the entry. *)
Definition boot_services : result (EfiBootService W) := t ← system_table; unwrap_res (boot_services_checked t).
(** gbl/libefi/src/lib.rs:217-224, [SystemTable::runtime_services_checked]. *)
Definition runtime_services_checked (t : EfiSystemTable W) : result (EfiRuntimeService W) :=
  ok_or (st_runtime_services t) Unsupported.
(** gbl/libefi/src/lib.rs:210-215, [SystemTable::runtime_services]: of the entry. *)
Definition runtime_services : result (EfiRuntimeService W) := t ← system_table; unwrap_res (runtime_services_checked t).
(** gbl/libefi/src/lib.rs:241-253, [SystemTable::configuration_table]: of the entry. *)
Definition configuration_table : result (option (list EfiConfigurationTable)) :=
  t ← system_table; Ok (st_configuration_table t).

(** gbl/libefi/src/lib.rs:264-277, [BootServices::allocate_pool]. *)
Definition allocate_pool (bs : EfiBootService W) (pool_type size : Z) : M Z :=
  efi_call (app_fn (fn_allocate_pool bs) (pool_type, size)).
(** gbl/libefi/src/lib.rs:279-283, [BootServices::free_pool]. *)
Definition free_pool (bs : EfiBootService W) (buf : Z) : M unit := efi_call (app_fn (fn_free_pool bs) buf).

(** gbl/libefi/src/lib.rs:285-304, [BootServices::open_protocol]. *)
Definition open_protocol (T : Type) `{!ProtocolInfo T} (bs : EfiBootService W) (handle : Z) : M (Protocol T) :=
  out_handle ← efi_call (app_fn (fn_open_protocol bs) (handle, GUID, image_handle entry));
  mret (mkProtocol handle (interface_at out_handle)).
(** gbl/libefi/src/lib.rs:306-319, [BootServices::close_protocol]. *)
Definition close_protocol (T : Type) `{!ProtocolInfo T} (bs : EfiBootService W) (handle : Z) : M unit :=
  efi_call (app_fn (fn_close_protocol bs) (handle, GUID, image_handle entry)).

(** gbl/libefi/src/lib.rs:876-881, [LocatedHandles]: the pointer and what it points to. *)
Record LocatedHandles := mkLocated { lh_ptr : Z; handles : list Z }.
(** gbl/libefi/src/lib.rs:321-341, [BootServices::locate_handle_buffer_by_protocol]. *)
Definition locate_handle_buffer_by_protocol (T : Type) `{!ProtocolInfo T} (bs : EfiBootService W) : M LocatedHandles :=
  '(ptr, l) ← efi_call (app_fn (fn_locate_handle_buffer bs) GUID);
  lift (assert_that (negb (ptr =? 0)));;
  mret (mkLocated ptr l).
(** gbl/libefi/src/lib.rs:901-907, [Drop::drop for LocatedHandles]. *)
Definition drop_handles (l : LocatedHandles) : M unit :=
  bs ← lift boot_services; unwrap_st (free_pool bs (lh_ptr l)).

(** gbl/libefi/src/lib.rs:343-353, [BootServices::find_first_and_open]: the handles are
    dropped before the protocol is opened. *)
Definition find_first_and_open (T : Type) `{!ProtocolInfo T} : M (Protocol T) :=
  bs ← lift boot_services;
  l ← locate_handle_buffer_by_protocol T bs;
  drop_handles l;;
  handle ← lift (ok_or (head (handles l)) NotFound);
  open_protocol T bs handle.

(** gbl/libefi/src/lib.rs:392-396, [BootServices::stall]. *)
Definition stall (bs : EfiBootService W) (micro : Z) : M unit := efi_call (app_fn (fn_stall bs) micro).

(** ** Events *)

(** gbl/libefi/src/lib.rs:602-616, [EventType]. *)
Inductive EventType :=
  | Timer | RunTime | NotifyWait | NotifySignal | SignalExitBootServices
  | SignalVirtualAddressChange | TimerNotifySignal.
(** The values of the enumeration. *)
Definition event_type (t : EventType) : Z :=
  match t with
  | Timer => 0x80000000 | RunTime => 0x40000000 | NotifyWait => 0x100 | NotifySignal => 0x200
  | SignalExitBootServices => 0x201 | SignalVirtualAddressChange => 0x60000202
  | TimerNotifySignal => Z.lor 0x80000000 0x200
  end.
(** gbl/libefi/src/lib.rs:618-628, [Tpl]. *)
Inductive Tpl := Application | Callback | Notify | HighLevel.
Definition tpl_value (t : Tpl) : Z :=
  match t with Application => 4 | Callback => 8 | Notify => 16 | HighLevel => 31 end.

(** gbl/libefi/src/lib.rs:660-670, [Event]: an unowned event is not closed. *)
Record Event := mkEvent { ev_owned : bool; efi_event : Z }.

(** gbl/libefi/src/lib.rs:398-421, [BootServices::create_event]. *)
Definition create_event (bs : EfiBootService W) (t : EventType) : M Event :=
  e ← efi_call (app_fn (fn_create_event bs) (event_type t, 0, false)); mret (mkEvent true e).
(** gbl/libefi/src/lib.rs:423-480, [BootServices::create_event_with_notification]: that a
    function was registered; it runs in the firmware. *)
Definition create_event_with_notification (bs : EfiBootService W) (t : EventType) (tpl : Tpl) : M Event :=
  e ← efi_call (app_fn (fn_create_event bs) (event_type t, tpl_value tpl, true)); mret (mkEvent true e).
(** gbl/libefi/src/lib.rs:482-486, [BootServices::close_event]. *)
Definition close_event (bs : EfiBootService W) (e : Event) : M unit := efi_call (app_fn (fn_close_event bs) (efi_event e)).
(** gbl/libefi/src/lib.rs:691-695, [Drop::drop for Event]. *)
Definition drop_event (e : Event) : M unit :=
  if ev_owned e then
    bs ← lift boot_services; unwrap_st (close_event bs e)
  else mret tt.
(** gbl/libefi/src/lib.rs:488-498, [BootServices::check_event]. *)
Definition check_event (bs : EfiBootService W) (e : Event) : M bool := λ w,
  let '(r, w) := efi_call (app_fn (fn_check_event bs) (efi_event e)) w in
  (match r with
   | Err NotReady => Ok false
   | Err e => Err e
   | Ok _ => Ok true
   | Panic => Panic
   end, w).

(** [TryFromIntError] of a number that does not fit 64 bits. *)
Definition try_u64 (z : Z) : result Z := ok_or (checked 64 z) overflow_error.
(** gbl/libefi/src/lib.rs:500-516, [BootServices::set_timer]: the time is in nanoseconds. *)
Definition set_timer (bs : EfiBootService W) (e : Event) (delay_type trigger_time : Z) : M unit :=
  t ← lift (try_u64 (trigger_time / 100));
  efi_call (app_fn (fn_set_timer bs) (efi_event e, delay_type, t)).

(** A block with a local event, which is dropped at its end. *)
Definition with_event {E A} (e : Event) (m : ST W E A) : ST W E A := with_drop (drop_event e) m.

(** ** Variables *)

(** gbl/libefi/src/lib.rs:526-548, [RuntimeServices::get_variable]: the size, and what is
    stored to [out]. *)
Definition get_variable (rt : EfiRuntimeService W) (guid : EfiGuid) (name : list Z) (out : bytes) : M (bytes * Z) :=
  efi_call_bufsize snd (app_fn (fn_get_variable rt) (encode_utf16 name ++ [0], guid, out)).
(** gbl/libefi/src/lib.rs:550-568, [RuntimeServices::set_variable]. *)
Definition set_variable (rt : EfiRuntimeService W) (guid : EfiGuid) (name : list Z) (data : bytes) : M unit :=
  efi_call (app_fn (fn_set_variable rt) (encode_utf16 name ++ [0], guid, data)).

(** gbl/libefi/src/lib.rs:570-594, [RuntimeServices::reset_system]: the last state of the firmware. *)
Definition reset_system (rt : EfiRuntimeService W) (reset_type reset_status : Z) : ST W Error unit :=
  f ← lift (unwrap (fn_reset_system rt)); modify (f (reset_type, reset_status)).
(** gbl/libefi/src/lib.rs:596-599, [RuntimeServices::cold_reset]. *)
Definition cold_reset (rt : EfiRuntimeService W) : ST W Error unit := reset_system rt 0 EFI_STATUS_SUCCESS.
End Services.
Arguments mkLocated lh_ptr handles : clear implicits.

(** ** Runs *)

Lemma gets_run {S E A} (f : S → A) (s : S) : (gets f : ST S E A) s = (Ok (f s), s).
Proof. done. Qed.
Lemma modify_run {S E} (f : S → S) (s : S) : (modify f : ST S E unit) s = (Ok tt, f s).
Proof. done. Qed.
