(* ===== verification/EfiMem.v ===== *)
(** * Memory maps of the firmware

    Models the memory map and the memory attributes table of
    src/gbl/libefi/src/lib.rs, the conversions of memory types of
    src/gbl/efi/src/utils.rs, the ZBI items that describe memory to Zircon of
    src/gbl/efi/src/fuchsia_boot.rs, and the e820 map for Linux of
    src/gbl/efi/src/android_boot.rs. The format of ZBI items and containers is
    that of a library and a parameter. *)

From S2P Require Import Prelude SafeMath LibError Utils Text Abr Block Disk Partition GblOps.
From S2P Require Import BootParams Avb Efi.
Import SafeNum.

(** ** Descriptors *)

(** [EfiMemoryDescriptor]. *)
Record EfiMemoryDescriptor := mkDesc {
  memory_type : Z; md_padding : Z; physical_start : Z; virtual_start : Z;
  number_of_pages : Z; md_attributes : Z;
}.
#[export] Instance EfiMemoryDescriptor_eq_dec : EqDecision EfiMemoryDescriptor.
Proof. solve_decision. Defined.

Definition DESC_SIZE : Z := 40.
Definition DESC_ALIGN : Z := 8.
Definition desc_bytes (d : EfiMemoryDescriptor) : bytes :=
  le_bytes 4 (memory_type d) ++ le_bytes 4 (md_padding d) ++ le_bytes 8 (physical_start d) ++
  le_bytes 8 (virtual_start d) ++ le_bytes 8 (number_of_pages d) ++ le_bytes 8 (md_attributes d).
Definition desc_of_bytes (b : bytes) : EfiMemoryDescriptor :=
  mkDesc (le_val (slice b 0 4)) (le_val (slice b 4 4)) (le_val (slice b 8 8)) (le_val (slice b 16 8))
    (le_val (slice b 24 8)) (le_val (slice b 32 8)).

(** [Ref::new_from_prefix] of [zerocopy] succeeds: the bytes are aligned and
    there are enough of them. *)
Definition ref_from_prefix (align size addr : Z) (b : bytes) : bool := (addr mod align =? 0) && (size <=? zlen b).
Definition desc_ref (addr : Z) (b : bytes) : option EfiMemoryDescriptor :=
  if ref_from_prefix DESC_ALIGN DESC_SIZE addr b then Some (desc_of_bytes b) else None.

(** ** The memory map *)

(** gbl/libefi/src/lib.rs:712-719, [EfiMemoryMap]: with the address of the buffer. *)
Record EfiMemoryMap := mkMap {
  mm_addr : Z; mm_buffer : bytes; map_key : Z; descriptor_size : Z; descriptor_version : Z;
}.

(** gbl/libefi/src/lib.rs:730-737, [Iterator::next for EfiMemoryMapIter]: the descriptor and the next offset. *)
Definition mm_next (m : EfiMemoryMap) (offset : Z) : result (option (EfiMemoryDescriptor * Z)) :=
  if zlen (mm_buffer m) <=? offset then Ok None else
  t ← index_from (mm_buffer m) offset;
  b ← index_range t 0 (descriptor_size m);
  next ← arith 64 (offset + descriptor_size m);
  d ← unwrap (desc_ref (mm_addr m + offset) b);
  Ok (Some (d, next)).

(** gbl/libefi/src/lib.rs:776-778, [IntoIterator::into_iter for &EfiMemoryMap]: all the iterator yields;
    it ends within one step per byte. *)
Fixpoint mm_from (fuel : nat) (m : EfiMemoryMap) (offset : Z) : result (list EfiMemoryDescriptor) :=
  match fuel with
  | 0%nat => Ok []
  | S fuel =>
      n ← mm_next m offset;
      match n with
      | None => Ok []
      | Some (d, offset) => l ← mm_from fuel m offset; Ok (d :: l)
      end
  end.
Definition mm_items (m : EfiMemoryMap) : result (list EfiMemoryDescriptor) := mm_from (S (length (mm_buffer m))) m 0.

(** gbl/libefi/src/lib.rs:766-769, [EfiMemoryMap::len]. *)
Definition mm_len (m : EfiMemoryMap) : result Z :=
  if descriptor_size m =? 0 then Panic else Ok (zlen (mm_buffer m) / descriptor_size m).

(** gbl/libefi/src/lib.rs:355-378, [BootServices::get_memory_map]: into a buffer at [addr]. *)
Definition get_memory_map {W} (bs : EfiBootService W) (addr : Z) (buf : bytes) : ST W Error EfiMemoryMap :=
  '(buf, (mmap_size, key, dsize, version)) ← efi_call (app_fn (fn_get_memory_map bs) buf);
  b ← lift (index_range buf 0 mmap_size);
  mret (mkMap addr b key dsize version).

(** ** The memory attributes table *)

(** gbl/libefi/src/lib.rs:128-130, [EFI_MEMORY_ATTRIBUTES_GUID]. *)
Definition EFI_MEMORY_ATTRIBUTES_GUID : EfiGuid :=
  mkGuid 0xdcfa911d 0x26eb 0x469f [0xa2; 0x20; 0x38; 0xb7; 0xdc; 0x46; 0x12; 0x20].

(** [EfiMemoryAttributesTableHeader]. *)
Record EmatHeader := mkEmatHeader { eh_version : Z; eh_number_of_entries : Z; eh_descriptor_size : Z; eh_reserved : Z }.
Definition EMAT_HEADER_SIZE : Z := 16.
Definition EMAT_HEADER_ALIGN : Z := 4.
Definition emat_header_bytes (h : EmatHeader) : bytes :=
  le_bytes 4 (eh_version h) ++ le_bytes 4 (eh_number_of_entries h) ++
  le_bytes 4 (eh_descriptor_size h) ++ le_bytes 4 (eh_reserved h).
Definition emat_header_of_bytes (b : bytes) : EmatHeader :=
  mkEmatHeader (le_val (slice b 0 4)) (le_val (slice b 4 4)) (le_val (slice b 8 4)) (le_val (slice b 12 4)).

(** gbl/libefi/src/lib.rs:781-786, [EfiMemoryAttributesTable]: with the address of the tail. *)
Record EfiMemoryAttributesTable := mkEmat { em_header : EmatHeader; em_addr : Z; em_tail : bytes }.

(** gbl/libefi/src/lib.rs:814-851, [EfiMemoryAttributesTable::new]: [mem] reads the memory. *)
Definition emat_new (mem : Z → Z → bytes) (t : EfiConfigurationTable) : result EfiMemoryAttributesTable :=
  if bool_decide (vendor_guid t ≠ EFI_MEMORY_ATTRIBUTES_GUID) then Err NotFound else
  let buf := vendor_table t in
  let header_bytes := mem buf EMAT_HEADER_SIZE in
  if negb (ref_from_prefix EMAT_HEADER_ALIGN EMAT_HEADER_SIZE buf header_bytes) then Err InvalidInput else
  let header := emat_header_of_bytes header_bytes in
  n ← arith 64 (eh_number_of_entries header * eh_descriptor_size header);
  Ok (mkEmat header (buf + EMAT_HEADER_SIZE) (mem (buf + EMAT_HEADER_SIZE) n)).

(** gbl/libefi/src/lib.rs:797-810, [Iterator::next for EfiMemoryAttributesTableIter]. *)
Definition emat_next (dsize addr : Z) (tail : bytes) : result (option (EfiMemoryDescriptor * bytes)) :=
  if zlen tail <? dsize then Ok None else
  d ← unwrap (desc_ref addr (slice tail 0 dsize));
  Ok (Some (d, slice tail dsize (zlen tail - dsize))).
(** gbl/libefi/src/lib.rs:858-862, [IntoIterator::into_iter for &EfiMemoryAttributesTable]: all the
    iterator yields. *)
Fixpoint emat_from (fuel : nat) (dsize addr : Z) (tail : bytes) : result (list EfiMemoryDescriptor) :=
  match fuel with
  | 0%nat => Ok []
  | S fuel =>
      n ← emat_next dsize addr tail;
      match n with
      | None => Ok []
      | Some (d, tail) => l ← emat_from fuel dsize (addr + dsize) tail; Ok (d :: l)
      end
  end.
Definition emat_items (t : EfiMemoryAttributesTable) : result (list EfiMemoryDescriptor) :=
  emat_from (S (length (em_tail t))) (eh_descriptor_size (em_header t)) (em_addr t) (em_tail t).

(** gbl/efi/src/utils.rs:153-169, [get_efi_mem_attr]: the first table with the GUID decides. *)
Fixpoint get_efi_mem_attr (mem : Z → Z → bytes) (tables : list EfiConfigurationTable)
    : result (option EfiMemoryAttributesTable) :=
  match tables with
  | [] => Ok None
  | t :: tables =>
      match emat_new mem t with
      | Err NotFound => get_efi_mem_attr mem tables
      | Err _ => Ok None
      | Ok e => Ok (Some e)
      | Panic => Panic
      end
  end.

(** ** Memory types *)

Definition EFI_MEMORY_TYPE_RESERVED : Z := 0.
Definition EFI_MEMORY_TYPE_LOADER_CODE : Z := 1.
Definition EFI_MEMORY_TYPE_LOADER_DATA : Z := 2.
Definition EFI_MEMORY_TYPE_BOOT_SERVICES_CODE : Z := 3.
Definition EFI_MEMORY_TYPE_BOOT_SERVICES_DATA : Z := 4.
Definition EFI_MEMORY_TYPE_RUNTIME_SERVICES_CODE : Z := 5.
Definition EFI_MEMORY_TYPE_RUNTIME_SERVICES_DATA : Z := 6.
Definition EFI_MEMORY_TYPE_CONVENTIONAL_MEMORY : Z := 7.
Definition EFI_MEMORY_TYPE_UNUSABLE_MEMORY : Z := 8.
Definition EFI_MEMORY_TYPE_ACPIRECLAIM_MEMORY : Z := 9.
Definition EFI_MEMORY_TYPE_ACPIMEMORY_NVS : Z := 10.
Definition EFI_MEMORY_TYPE_PERSISTENT_MEMORY : Z := 14.

(** gbl/libboot/src/x86.rs:72-73, [E820_ADDRESS_TYPE_RAM]. *)
Definition E820_ADDRESS_TYPE_RAM : Z := 1.
(** gbl/libboot/src/x86.rs:74-75, [E820_ADDRESS_TYPE_RESERVED]. *)
Definition E820_ADDRESS_TYPE_RESERVED : Z := 2.
(** gbl/libboot/src/x86.rs:76-77, [E820_ADDRESS_TYPE_ACPI]. *)
Definition E820_ADDRESS_TYPE_ACPI : Z := 3.
(** gbl/libboot/src/x86.rs:78-79, [E820_ADDRESS_TYPE_NVS]. *)
Definition E820_ADDRESS_TYPE_NVS : Z := 4.
(** gbl/libboot/src/x86.rs:80-81, [E820_ADDRESS_TYPE_UNUSABLE]. *)
Definition E820_ADDRESS_TYPE_UNUSABLE : Z := 5.
(** gbl/libboot/src/x86.rs:82-83, [E820_ADDRESS_TYPE_PMEM]. *)
Definition E820_ADDRESS_TYPE_PMEM : Z := 7.

(** gbl/efi/src/utils.rs:72-92, [efi_to_e820_mem_type]. *)
Definition efi_to_e820_mem_type (efi_mem_type : Z) : result Z :=
  match efi_mem_type with
  | 1 | 2 | 3 | 4 | 7 => Ok E820_ADDRESS_TYPE_RAM
  | 5 | 6 | 11 | 12 | 13 | 0 => Ok E820_ADDRESS_TYPE_RESERVED
  | 8 => Ok E820_ADDRESS_TYPE_UNUSABLE
  | 9 => Ok E820_ADDRESS_TYPE_ACPI
  | 10 => Ok E820_ADDRESS_TYPE_NVS
  | 14 => Ok E820_ADDRESS_TYPE_PMEM
  | _ => Panic
  end.

(** The ZBI format and containers: memory types, the bytes of a
    [zbi_mem_range_t] with address, length, type and the reserved field, the
    types of items; in a container's buffer the offset of the next payload, and
    the entry for the first bytes of that payload. *)
Class ZbiMem (ZE : Type) := {
  ZBI_MEM_TYPE_RAM : Z;
  ZBI_MEM_TYPE_RESERVED : Z;
  MEM_RANGE_SIZE : Z;
  MEM_RANGE_ALIGN : Z;
  mem_range_bytes : Z → Z → Z → Z → bytes;
  ZbiType_EfiMemoryAttributesTable : Z;
  ZbiType_MemConfig : Z;
  get_next_payload : bytes → outcome ZE Z;
  ZbiFlags_default : Z;
  create_entry : Z → Z → Z → Z → ST bytes ZE unit;
}.

(** gbl/efi/src/utils.rs:141-151, [efi_to_zbi_mem_range_type]. *)
Definition efi_to_zbi_mem_range_type {ZE} `{!ZbiMem ZE} (efi_mem_type : Z) : Z :=
  match efi_mem_type with
  | 1 | 2 | 3 | 4 | 7 => ZBI_MEM_TYPE_RAM
  | _ => ZBI_MEM_TYPE_RESERVED
  end.

(** ** Memory items for Zircon *)

(** gbl/efi/src/fuchsia_boot.rs:44-44, [PAGE_SIZE]. *)
Definition PAGE_SIZE : Z := 4096.
Definition EFI_MEMORY_ATTRIBUTE_EMA_RUNTIME : Z := 0x8000000000000000.
Definition is_runtime (d : EfiMemoryDescriptor) : bool :=
  negb (Z.land (md_attributes d) EFI_MEMORY_ATTRIBUTE_EMA_RUNTIME =? 0).

(** [skip_while] and [take_while] of an iterator. *)
Fixpoint skip_while {A} (p : A → bool) (l : list A) : list A :=
  match l with [] => [] | x :: l' => if p x then skip_while p l' else l end.
Fixpoint take_while {A} (p : A → bool) (l : list A) : list A :=
  match l with [] => [] | x :: l => if p x then x :: take_while p l else [] end.

Section Items.
Context {V ZE : Type} `{!ZbiMem ZE}.
Abbreviation gbl_error := (IntegrationError V ZE).
(** A payload at an address, and how much of it was written. *)
Abbreviation M := (ST (bytes * Z) gbl_error).
Context (addr : Z).

(** The next structure of the payload, as bytes that are written with [f] of
    what was there. *)
Definition emit (align size : Z) (f : bytes → outcome gbl_error bytes) : M unit := λ s,
  let '(b, off) := s in
  let rest := slice b off (zlen b - off) in
  if ref_from_prefix align size (addr + off) rest then
    match f (slice rest 0 size) with
    | Ok d => (Ok tt, (splice b off d, off + size))
    | Err e => (Err e, s)
    | Panic => (Panic, s)
    end
  else (Err (UnificationError (BufferTooSmall (Some size))), s).
Definition emit_desc (f : Z → EfiMemoryDescriptor) : M unit :=
  emit DESC_ALIGN DESC_SIZE (λ old, Ok (desc_bytes (f (md_padding (desc_of_bytes old))))).
(** The descriptor of a range that the table does not cover; the padding is left
    as it is. *)
Definition runtime_desc (ty start pages padding : Z) : EfiMemoryDescriptor :=
  mkDesc ty padding start 0 pages EFI_MEMORY_ATTRIBUTE_EMA_RUNTIME.

(** gbl/efi/src/fuchsia_boot.rs:147-248, [generate_efi_memory_attributes_table_item]: the loop over the
    items of the table in a region, of which [size] bytes from [base] are left. *)
Fixpoint emat_region (base size : Z) (items : list EfiMemoryDescriptor) : M (Z * Z) :=
  match items with
  | [] => mret (base, size)
  | i :: items =>
      if base <? physical_start i then
        emit_desc (runtime_desc (memory_type i) base ((physical_start i - base) / PAGE_SIZE));;
        size ← lift (arith 64 (size - (physical_start i - base)));
        emat_region (physical_start i) size items
      else
        emit_desc (λ _, i);;
        len ← lift (arith 64 (number_of_pages i * PAGE_SIZE));
        base ← lift (arith 64 (base + len));
        size ← lift (arith 64 (size - len));
        emat_region base size items
  end.

(** gbl/efi/src/fuchsia_boot.rs:147-248, [generate_efi_memory_attributes_table_item]: the items of
    the table that start in a region. The end of the region is computed for the first of them
    that does not start before it. *)
Definition items_in_region (base size : Z) (items : list EfiMemoryDescriptor) : result (list EfiMemoryDescriptor) :=
  match skip_while (λ i, physical_start i <? base) items with
  | [] => Ok []
  | l => end_ ← arith 64 (base + size); Ok (take_while (λ i, physical_start i <? end_) l)
  end.

(** gbl/efi/src/fuchsia_boot.rs:147-248, [generate_efi_memory_attributes_table_item]: the loop over
    the memory map. *)
Fixpoint emat_descs (table : EfiMemoryAttributesTable) (map : list EfiMemoryDescriptor) : M unit :=
  match map with
  | [] => mret tt
  | d :: map =>
      if negb (is_runtime d) then emat_descs table map else
      let base := physical_start d in
      size ← lift (map_err UnificationError (into_u64 (Val (number_of_pages d) *! Val PAGE_SIZE)));
      items ← lift (map_err UnificationError (emat_items table));
      items ← lift (map_err UnificationError (items_in_region base size items));
      '(base, size) ← emat_region base size items;
      (if size =? 0 then mret tt
       else emit_desc (runtime_desc (memory_type d) base (size / PAGE_SIZE)));;
      emat_descs table map
  end.

(** gbl/efi/src/fuchsia_boot.rs:147-248, [generate_efi_memory_attributes_table_item]: the payload of
    the item, and how much of it is used. *)
Definition emat_payload (map : EfiMemoryMap) (table : EfiMemoryAttributesTable) : ST bytes gbl_error Z := λ payload,
  if negb (ref_from_prefix EMAT_HEADER_ALIGN EMAT_HEADER_SIZE addr payload)
  then (Err (UnificationError BadBufferSize), payload) else
  match map_err UnificationError (mm_items map) with
  | Ok map =>
      let '(r, (payload, used_payload)) := emat_descs table map (payload, EMAT_HEADER_SIZE) in
      match (_ ← r; unwrap (checked 32 (used_payload / DESC_SIZE))) with
      | Ok n => (Ok used_payload, splice payload 0 (emat_header_bytes (mkEmatHeader 1 n DESC_SIZE 0)))
      | Err e => (Err e, payload)
      | Panic => (Panic, payload)
      end
  | Err e => (Err e, payload)
  | Panic => (Panic, payload)
  end.

(** gbl/efi/src/fuchsia_boot.rs:250-274, [generate_mem_config_item]: the loop over the memory map. *)
Fixpoint mem_config_descs (map : list EfiMemoryDescriptor) : M unit :=
  match map with
  | [] => mret tt
  | d :: map =>
      emit MEM_RANGE_ALIGN MEM_RANGE_SIZE (λ _,
        length ← arith 64 (number_of_pages d * PAGE_SIZE);
        Ok (mem_range_bytes (physical_start d) length (efi_to_zbi_mem_range_type (memory_type d)) 0));;
      mem_config_descs map
  end.
(** gbl/efi/src/fuchsia_boot.rs:250-274, [generate_mem_config_item]: the payload of the item, and how
    much of it is used. *)
Definition mem_config_payload (map : EfiMemoryMap) : ST bytes gbl_error Z := λ payload,
  match map_err UnificationError (mm_items map) with
  | Ok map =>
      let '(r, (payload, used_payload)) := mem_config_descs map (payload, 0) in (_ ← r; Ok used_payload, payload)
  | Err e => (Err e, payload)
  | Panic => (Panic, payload)
  end.
End Items.

Section Container.
Context {V ZE : Type} `{!ZbiMem ZE}.
Abbreviation gbl_error := (IntegrationError V ZE).

(** An operation of the container. *)
Definition on_zbi {A} (m : ST bytes ZE A) : ST bytes gbl_error A := λ c, let '(r, c) := m c in (map_err ZbiError r, c).
(** An item whose payload is written in place, in the container at [addr]. *)
Definition generate_item (addr ty : Z) (m : Z → ST bytes gbl_error Z) : ST bytes gbl_error unit :=
  c ← gets id;
  off ← lift (map_err ZbiError (get_next_payload c));
  used_payload ← zoom (λ c, slice c off (zlen c - off)) (λ p c, splice c off p) (m (addr + off));
  on_zbi (create_entry ty 0 ZbiFlags_default used_payload).

(** gbl/efi/src/fuchsia_boot.rs:147-248, [generate_efi_memory_attributes_table_item]. *)
Definition generate_efi_memory_attributes_table_item (addr : Z) (map : EfiMemoryMap)
    (table : EfiMemoryAttributesTable) : ST bytes gbl_error unit :=
  generate_item addr ZbiType_EfiMemoryAttributesTable (λ a, emat_payload a map table).
(** gbl/efi/src/fuchsia_boot.rs:250-274, [generate_mem_config_item]. *)
Definition generate_mem_config_item (addr : Z) (map : EfiMemoryMap) : ST bytes gbl_error unit :=
  generate_item addr ZbiType_MemConfig (λ a, mem_config_payload a map).
(** gbl/efi/src/fuchsia_boot.rs:126-145, [add_memory_items]. *)
Definition add_memory_items (addr : Z) (map : EfiMemoryMap) (table : EfiMemoryAttributesTable) : ST bytes gbl_error unit :=
  generate_efi_memory_attributes_table_item addr map table;;
  generate_mem_config_item addr map.
End Container.

(** ** The e820 map for Linux *)

(** [e820entry]. *)
Record e820entry := mkE820 { e820_addr : Z; e820_size : Z; e820_type : Z }.
#[export] Instance e820entry_eq_dec : EqDecision e820entry.
Proof. solve_decision. Defined.

(** gbl/efi/src/android_boot.rs:80-151, [efi_android_boot]: the loop over the memory map. *)
Fixpoint fill_e820 (idx : nat) (map : list EfiMemoryDescriptor) (entries : list e820entry) : result (list e820entry) :=
  match map with
  | [] => Ok entries
  | d :: map =>
      size ← arith 64 (number_of_pages d * 4096);
      ty ← efi_to_e820_mem_type (memory_type d);
      if (idx <? length entries)%nat
      then fill_e820 (S idx) map (<[idx := mkE820 (physical_start d) size ty]> entries)
      else Panic
  end.
(** gbl/efi/src/android_boot.rs:80-151, [efi_android_boot]: the callback that makes the e820 map; how
    many entries there are. *)
Definition e820_callback (map : EfiMemoryMap) (entries : list e820entry) : result (list e820entry * Z) :=
  n ← mm_len map;
  if zlen entries <? n then Err (MemoryMapCallbackError (-1)) else
  l ← mm_items map;
  entries ← fill_e820 0 l entries;
  n ← unwrap (checked 8 n);
  Ok (entries, n).
