(* ===== verification/EfiMemProps.v ===== *)
(** * Memory maps: the descriptions of memory are exact

    The iterators over the firmware's tables yield exactly the descriptors in
    them; the memory items for Zircon describe every runtime region without a
    gap, and the whole memory map; the e820 map for Linux is the memory map. *)

From S2P Require Import Prelude SafeMath LibError Utils Text Abr Block Disk Partition GblOps.
From S2P Require Import BootParams Avb Efi EfiMem.
Import SafeNum.

(** ** Descriptors and their bytes *)

Definition desc_ok (d : EfiMemoryDescriptor) : Prop :=
  u32_ok (memory_type d) ∧ u32_ok (md_padding d) ∧ u64_ok (physical_start d) ∧ u64_ok (virtual_start d) ∧
  u64_ok (number_of_pages d) ∧ u64_ok (md_attributes d).

Lemma length_desc_bytes d : length (desc_bytes d) = 40%nat.
Proof. unfold desc_bytes. by rewrite !length_app, !length_le_bytes. Qed.

Lemma zlen_descs ds : zlen (mjoin (desc_bytes <$> ds)) = DESC_SIZE * zlen ds.
Proof.
  induction ds as [|d ds IH]; [done|]. rewrite join_fmap_cons, length_app, length_desc_bytes.
  unfold DESC_SIZE in *. cbn [length]. lia.
Qed.

Lemma desc_roundtrip d r : desc_ok d → desc_of_bytes (desc_bytes d ++ r) = d.
Proof.
  intros (H1 & H2 & H3 & H4 & H5 & H6). destruct d as [a b c e f g]. unfold u32_ok, u64_ok in *. cbn in *.
  unfold desc_of_bytes, desc_bytes. cbn [memory_type md_padding physical_start virtual_start number_of_pages md_attributes].
  f_equal; match goal with |- le_val (slice ?l ?o ?n) = ?z =>
    let H := fresh in assert (H : slice l o n = le_bytes (Z.to_nat n) z);
      [|rewrite H; apply le_val_bytes;
        match goal with |- context [256 ^ ?k] => let v := eval vm_compute in (256 ^ k) in change (256 ^ k) with v end; lia] end;
    unfold slice; reflexivity.
Qed.

(** ** The iterators *)

(** A descriptor as it lies in a table: its bytes, and bytes of a newer version
    of the structure behind them. *)
Definition chunk_bytes (c : EfiMemoryDescriptor * bytes) : bytes := desc_bytes (fst c) ++ snd c.
Definition chunk_ok (dsize : Z) (c : EfiMemoryDescriptor * bytes) : Prop :=
  desc_ok (fst c) ∧ zlen (chunk_bytes c) = dsize.

Lemma chunk_size dsize c : chunk_ok dsize c → DESC_SIZE ≤ dsize.
Proof. intros [_ <-]. unfold chunk_bytes. rewrite length_app, length_desc_bytes. unfold DESC_SIZE. lia. Qed.

Lemma desc_ref_chunk addr dsize c r :
  chunk_ok dsize c → addr mod DESC_ALIGN = 0 → desc_ref addr (chunk_bytes c ++ r) = Some (fst c).
Proof.
  intros Hc Ha. pose proof (chunk_size _ _ Hc). destruct Hc as [Hd Hl]. unfold desc_ref, ref_from_prefix.
  rewrite (proj2 (Z.eqb_eq _ _)) by done. rewrite (proj2 (Z.leb_le _ _)) by (rewrite length_app; lia).
  cbn [andb]. unfold chunk_bytes. by rewrite <-app_assoc, desc_roundtrip.
Qed.
Lemma desc_ref_chunk_nil addr dsize c :
  chunk_ok dsize c → addr mod DESC_ALIGN = 0 → desc_ref addr (chunk_bytes c) = Some (fst c).
Proof. intros. rewrite <-(app_nil_r (chunk_bytes c)). by eapply desc_ref_chunk. Qed.

Lemma zlen_chunks dsize cs : Forall (chunk_ok dsize) cs → zlen (mjoin (chunk_bytes <$> cs)) = dsize * zlen cs.
Proof.
  induction 1 as [|c cs [_ Hc] _ IH]; [cbn; lia|]. rewrite join_fmap_cons, length_app. cbn [length]. lia.
Qed.

Lemma aligned_step a n : a mod DESC_ALIGN = 0 → n mod DESC_ALIGN = 0 → (a + n) mod DESC_ALIGN = 0.
Proof. unfold DESC_ALIGN. intros. rewrite Z.add_mod, H, H0 by done. done. Qed.

Lemma mm_next_chunk m pre dsize c rest :
  mm_buffer m = pre ++ chunk_bytes c ++ rest → descriptor_size m = dsize → chunk_ok dsize c →
  mm_addr m mod DESC_ALIGN = 0 → zlen pre mod DESC_ALIGN = 0 → zlen (mm_buffer m) < 2 ^ 64 →
  mm_next m (zlen pre) = Ok (Some (fst c, zlen pre + dsize)).
Proof.
  intros Hb Hs Hc Ha Hp Hm. pose proof (chunk_size _ _ Hc) as Hsz. unfold mm_next, DESC_SIZE in *.
  rewrite Hs. rewrite Hb in *. destruct Hc as [Hd Hl]. rewrite !length_app in Hm.
  rewrite (proj2 (Z.leb_gt _ _)) by (rewrite ?length_app; lia).
  unfold index_from. rewrite index_range_ok, ok_bind by (rewrite ?length_app; lia).
  rewrite slice_app_r by done. rewrite slice_all by (rewrite ?length_app; lia).
  rewrite index_range_ok, ok_bind by (rewrite ?length_app; lia).
  rewrite arith_ok, ok_bind by lia. rewrite Z.sub_0_r, slice_app_l by done.
  by rewrite (desc_ref_chunk_nil _ dsize) by (done || by apply aligned_step).
Qed.

Lemma mm_from_chunks m dsize fuel pre cs :
  mm_buffer m = pre ++ mjoin (chunk_bytes <$> cs) → descriptor_size m = dsize → Forall (chunk_ok dsize) cs →
  mm_addr m mod DESC_ALIGN = 0 → dsize mod DESC_ALIGN = 0 → zlen pre mod DESC_ALIGN = 0 →
  zlen (mm_buffer m) < 2 ^ 64 → (length cs < fuel)%nat →
  mm_from fuel m (zlen pre) = Ok (fst <$> cs).
Proof.
  intros Hb Hs Hcs Ha Hd Hp Hm Hf. revert fuel pre Hb Hp Hf.
  induction Hcs as [|c cs Hc Hcs IH]; intros [|fuel] pre Hb Hp Hf; try (cbn in Hf; lia); cbn [mm_from].
  - unfold mm_next. rewrite Hb. cbn. rewrite app_nil_r. by rewrite Z.leb_refl.
  - rewrite join_fmap_cons in Hb. erewrite mm_next_chunk by eauto. rewrite ok_bind. cbv beta iota.
    replace (zlen pre + dsize) with (zlen (pre ++ chunk_bytes c)) by (rewrite length_app; destruct Hc; lia).
    rewrite IH; [done|by rewrite <-app_assoc| |cbn in Hf; lia].
    rewrite length_app, Nat2Z.inj_add. apply aligned_step; [done|]. by destruct Hc as [_ ->].
Qed.

(** Any memory map that the firmware lays out with aligned descriptors, of the
    size that it says, is iterated completely and in order. *)
Lemma mm_items_exact m dsize cs :
  mm_buffer m = mjoin (chunk_bytes <$> cs) → descriptor_size m = dsize → Forall (chunk_ok dsize) cs →
  mm_addr m mod DESC_ALIGN = 0 → dsize mod DESC_ALIGN = 0 → zlen (mm_buffer m) < 2 ^ 64 → 0 < dsize →
  mm_items m = Ok (fst <$> cs) ∧ mm_len m = Ok (zlen cs).
Proof.
  intros Hb Hs Hcs Ha Hd Hm Hpos. pose proof (zlen_chunks _ _ Hcs) as Hl. split.
  - unfold mm_items. change 0 with (zlen ([] : bytes)). eapply mm_from_chunks; eauto; try done.
    rewrite Hb. nia.
  - unfold mm_len. rewrite Hs. rewrite (proj2 (Z.eqb_neq _ _)) by lia. rewrite Hb, Hl. f_equal.
    rewrite Z.mul_comm. apply Z.div_mul. lia.
Qed.

Lemma emat_from_chunks dsize fuel addr cs :
  Forall (chunk_ok dsize) cs → addr mod DESC_ALIGN = 0 → dsize mod DESC_ALIGN = 0 → 0 < dsize → (length cs < fuel)%nat →
  emat_from fuel dsize addr (mjoin (chunk_bytes <$> cs)) = Ok (fst <$> cs).
Proof.
  intros Hcs Ha Hd Hpos. revert fuel addr Ha.
  induction Hcs as [|c cs Hc Hcs IH]; intros [|fuel] addr Ha Hf; try (cbn in Hf; lia); cbn [emat_from].
  - unfold emat_next. cbn. by rewrite (proj2 (Z.ltb_lt _ _)) by lia.
  - rewrite join_fmap_cons. unfold emat_next. pose proof Hc as [_ Hl].
    rewrite (proj2 (Z.ltb_ge _ _)) by (rewrite length_app; lia).
    rewrite slice_app_l by done. rewrite (desc_ref_chunk_nil _ dsize) by done. cbn [unwrap]. rewrite !ok_bind. cbv beta iota.
    rewrite slice_app_r by done. rewrite slice_all by (rewrite length_app; lia).
    rewrite IH; [done|by apply aligned_step|cbn in Hf; lia].
Qed.

(** ** The memory attributes item *)

Definition desc_len (d : EfiMemoryDescriptor) : Z := number_of_pages d * PAGE_SIZE.
Definition desc_end (d : EfiMemoryDescriptor) : Z := physical_start d + desc_len d.
(** A descriptor without the padding, which is never set. *)
Definition unpad (d : EfiMemoryDescriptor) : EfiMemoryDescriptor :=
  mkDesc (memory_type d) 0 (physical_start d) (virtual_start d) (number_of_pages d) (md_attributes d).

(** What is written for the items in a region, and where the rest begins. *)
Fixpoint region_descs (base : Z) (items : list EfiMemoryDescriptor) : list EfiMemoryDescriptor * Z :=
  match items with
  | [] => ([], base)
  | i :: items =>
      if base <? physical_start i
      then let '(ds, e) := region_descs (physical_start i) items in
           (runtime_desc (memory_type i) base ((physical_start i - base) / PAGE_SIZE) 0 :: ds, e)
      else let '(ds, e) := region_descs (base + desc_len i) items in (unpad i :: ds, e)
  end.
(** What is written for a region of the memory map. *)
Definition region_spec (items : list EfiMemoryDescriptor) (d : EfiMemoryDescriptor) : list EfiMemoryDescriptor :=
  let '(ds, e) := region_descs (physical_start d)
    (take_while (λ i, physical_start i <? desc_end d) (skip_while (λ i, physical_start i <? physical_start d) items)) in
  ds ++ (if desc_end d - e =? 0 then [] else [runtime_desc (memory_type d) e ((desc_end d - e) / PAGE_SIZE) 0]).

(** Descriptors that lie end to end from [a] to [b]. *)
Fixpoint tiles (a : Z) (ds : list EfiMemoryDescriptor) (b : Z) : Prop :=
  match ds with
  | [] => a = b
  | d :: ds => physical_start d = a ∧ tiles (desc_end d) ds b
  end.
Lemma tiles_app a ds c es b : tiles a ds c → tiles c es b → tiles a (ds ++ es) b.
Proof. revert a. induction ds as [|d ds IH]; cbn; [by intros ? ->|naive_solver]. Qed.

(** A table whose items are page aligned, in order and do not overlap, from
    [lo] on. *)
Fixpoint items_from (lo : Z) (items : list EfiMemoryDescriptor) : Prop :=
  match items with
  | [] => True
  | i :: items =>
      lo ≤ physical_start i ∧ physical_start i mod PAGE_SIZE = 0 ∧ 0 ≤ number_of_pages i ∧ items_from (desc_end i) items
  end.
(** Items that start in the region of [d] end in it. *)
Definition items_inside (d : EfiMemoryDescriptor) (items : list EfiMemoryDescriptor) : Prop :=
  Forall (λ i, physical_start d ≤ physical_start i < desc_end d → desc_end i ≤ desc_end d) items.

Lemma items_from_weaken lo lo' items : lo' ≤ lo → items_from lo items → items_from lo' items.
Proof. destruct items; cbn; [done|]. intros. naive_solver lia. Qed.
Lemma items_from_skip lo b items :
  items_from lo items → items_from b (skip_while (λ i, physical_start i <? b) items).
Proof.
  revert lo. induction items as [|i items IH]; intros lo; cbn; [done|]. intros (H1 & H2 & H3 & H4).
  case_if; bools; [by eapply IH|]. cbn. auto.
Qed.
Lemma items_from_take b p items : items_from b items → items_from b (take_while p items).
Proof.
  revert b. induction items as [|i items IH]; intros b; cbn; [done|]. intros (H1 & H2 & H3 & H4).
  case_if; cbn; auto.
Qed.
Lemma skip_incl {A} p (l : list A) x : x ∈ skip_while p l → x ∈ l.
Proof.
  induction l as [|y l IH]; cbn; [done|]. case_if; [|done]. intros H. apply elem_of_cons. auto.
Qed.
Lemma take_while_ok {A} p (l : list A) x : x ∈ take_while p l → x ∈ l ∧ p x = true.
Proof.
  induction l as [|y l IH]; cbn; [by intros ?%elem_of_nil|]. case_if; [|by intros ?%elem_of_nil].
  intros [->|H]%elem_of_cons; [split; [left|done]|]. destruct (IH H). split; [by right|done].
Qed.

(** The items of a table that the loop over a region sees. *)
Definition region_items (items : list EfiMemoryDescriptor) (d : EfiMemoryDescriptor) : list EfiMemoryDescriptor :=
  take_while (λ i, physical_start i <? desc_end d) (skip_while (λ i, physical_start i <? physical_start d) items).

Lemma region_items_ok lo items d :
  items_from lo items → items_inside d items →
  items_from (physical_start d) (region_items items d) ∧
  Forall (λ i, desc_end i ≤ desc_end d ∧ physical_start i < desc_end d) (region_items items d).
Proof.
  intros Hi Hin. assert (H : items_from (physical_start d) (region_items items d)).
  { eapply items_from_take, items_from_skip, Hi. }
  split; [done|]. apply Forall_forall. intros i Hx.
  assert (Hge : physical_start d ≤ physical_start i).
  { clear -H Hx. revert H Hx. generalize (physical_start d). induction (region_items items d) as [|j l IH]; intros b; cbn.
    - by intros _ ?%elem_of_nil.
    - intros (H1 & H2 & H3 & H4) [->|Hx]%elem_of_cons; [done|]. pose proof (IH _ H4 Hx).
      unfold desc_end, desc_len, PAGE_SIZE in *. lia. }
  apply take_while_ok in Hx as [Hx Hlt]. apply skip_incl in Hx. bools.
  unfold items_inside in Hin. rewrite Forall_forall in Hin. specialize (Hin i Hx). split; [|done]. apply Hin. lia.
Qed.

Lemma region_descs_tiles base e items :
  items_from base items → base mod PAGE_SIZE = 0 → base ≤ e →
  Forall (λ i, desc_end i ≤ e ∧ physical_start i < e) items →
  let '(ds, b) := region_descs base items in tiles base ds b ∧ b ≤ e ∧ b mod PAGE_SIZE = 0.
Proof.
  revert base. induction items as [|i items IH]; intros base; cbn; [done|].
  intros (H1 & H2 & H3 & H4) Hb He [[Hi Hi'] Hall]%Forall_cons.
  assert (Hm : (physical_start i + desc_len i) mod PAGE_SIZE = 0).
  { unfold desc_len. by rewrite Z.mod_add by done. }
  case_if; bools.
  - specialize (IH (physical_start i)). destruct (region_descs _ _) as [ds b]. destruct IH as (? & ? & ?); try done; [|lia|].
    { eapply items_from_weaken; [|done]. unfold desc_end, desc_len, PAGE_SIZE. lia. }
    split; [|done]. cbn. split; [done|]. unfold desc_end, desc_len. cbn.
    replace ((physical_start i - base) / PAGE_SIZE * PAGE_SIZE) with (physical_start i - base);
      [by replace (base + (physical_start i - base)) with (physical_start i) by lia|].
    rewrite Z.mul_comm. apply Z_div_exact_full_2; [done|]. rewrite Zminus_mod, H2, Hb. done.
  - assert (physical_start i = base) as <- by lia. unfold desc_end in *.
    specialize (IH (physical_start i + desc_len i)). destruct (region_descs _ _) as [ds b]. destruct IH as (? & ? & ?); try done.
Qed.

(** What is written for a region covers it without a gap. *)
Lemma region_spec_tiles lo items d :
  items_from lo items → items_inside d items → physical_start d mod PAGE_SIZE = 0 → 0 ≤ number_of_pages d →
  tiles (physical_start d) (region_spec items d) (desc_end d).
Proof.
  intros Hi Hin Hm Hp. destruct (region_items_ok _ _ _ Hi Hin) as [H1 H2].
  pose proof (region_descs_tiles (physical_start d) (desc_end d) _ H1 Hm) as H. unfold region_spec. fold (region_items items d).
  destruct (region_descs _ _) as [ds e]. destruct H as (Ht & Hle & He); [unfold desc_end, desc_len, PAGE_SIZE; lia|done|].
  eapply tiles_app; [done|]. case_if; bools; cbn; [lia|]. split; [done|].
  unfold desc_end at 1, desc_len. cbn. rewrite (Z.mul_comm (_ / _)), <-Z_div_exact_full_2; [lia|done|].
  rewrite Zminus_mod, He. unfold desc_end, desc_len. rewrite Z.mod_add, Hm by done. done.
Qed.

Abbreviation runtime_regions map := (filter (λ d, is_runtime d = true) map).
Lemma parts_length items ds parts :
  Forall2 (λ d part, unpad <$> part = region_spec items d) ds parts →
  length (mjoin parts) = length (mjoin (region_spec items <$> ds)).
Proof.
  induction 1 as [|d p l ps Hx _ IH]; [done|]. rewrite join_fmap_cons.
  change (mjoin (p :: ps)) with (p ++ mjoin ps). rewrite !length_app, IH, <-Hx, length_fmap. done.
Qed.

Section Payload.
Context {V ZE : Type} `{!ZbiMem ZE} (addr : Z).
Abbreviation descs ds := (mjoin (desc_bytes <$> ds)).

(** The payload after [ds] were written to it. *)
Definition wrote (s : bytes * Z) (ds : list EfiMemoryDescriptor) : bytes * Z :=
  (splice (fst s) (snd s) (descs ds), snd s + DESC_SIZE * zlen ds).
(** A payload with room for [n] descriptors. *)
Definition room (s : bytes * Z) (n : Z) : Prop :=
  0 ≤ snd s ∧ (addr + snd s) mod DESC_ALIGN = 0 ∧ snd s + DESC_SIZE * n ≤ zlen (fst s).

Lemma wrote_nil s : wrote s [] = s.
Proof. destruct s. unfold wrote. cbn. by rewrite splice_nil, Z.add_0_r. Qed.
Lemma wrote_app s ds es : room s (zlen ds + zlen es) → wrote (wrote s ds) es = wrote s (ds ++ es).
Proof.
  intros (H1 & H2 & H3). destruct s as [b off]. unfold wrote. cbn in *.
  rewrite fmap_app, join_app, length_app. f_equal; [|lia].
  rewrite <-(zlen_descs ds). apply splice_splice_adj; rewrite ?zlen_descs; lia.
Qed.
Lemma wrote_cons s d ds n : zlen ds = n → room s (1 + n) → wrote (wrote s [d]) ds = wrote s (d :: ds).
Proof. intros <- H. exact (wrote_app s [d] ds H). Qed.
Lemma room_wrote s ds n : 0 ≤ n → room s (zlen ds + n) → room (wrote s ds) n.
Proof.
  intros Hn (H1 & H2 & H3). unfold room, wrote, DESC_SIZE, DESC_ALIGN in *. cbn [fst snd]. split; [lia|].
  split; [rewrite Z.add_assoc; replace (40 * zlen ds) with (5 * zlen ds * 8) by lia; by rewrite Z.mod_add|].
  rewrite length_splice; rewrite ?zlen_descs; unfold DESC_SIZE; lia.
Qed.

Lemma emit_desc_run s f :
  room s 1 → ∃ p, emit_desc (V := V) (ZE := ZE) addr f s = (Ok tt, wrote s [f p]).
Proof.
  intros (H1 & H2 & H3). destruct s as [b off]. cbn [fst snd] in *. eexists. unfold emit_desc, emit, ref_from_prefix.
  rewrite (proj2 (Z.eqb_eq _ _)) by done. unfold DESC_SIZE in *.
  rewrite (proj2 (Z.leb_le _ _)) by (rewrite zlen_slice; lia). cbn [andb]. unfold wrote. cbn [fst snd fmap list_fmap mjoin list_join].
  rewrite app_nil_r. reflexivity.
Qed.

Lemma emat_region_run e items base s :
  items_from base items → 0 ≤ base ≤ e → e < 2 ^ 64 → Forall (λ i, desc_end i ≤ e ∧ physical_start i < e) items →
  room s (zlen (fst (region_descs base items))) →
  ∃ ds, emat_region (V := V) (ZE := ZE) addr base (e - base) items s =
      (Ok (snd (region_descs base items), e - snd (region_descs base items)), wrote s ds) ∧
    unpad <$> ds = fst (region_descs base items).
Proof.
  intros Hi. revert base s Hi. induction items as [|i items IH]; intros base s; cbn [region_descs emat_region].
  - intros _ _ _ _ _. exists []. by rewrite wrote_nil.
  - intros (H1 & H2 & H3 & H4) Hb He [[Hi1 Hi2] Hall]%Forall_cons Hr. unfold desc_end, desc_len, PAGE_SIZE in Hi1.
    case_if; bools.
    + destruct (region_descs (physical_start i) items) as [ds b] eqn:E1. cbn [fst snd length] in *.
      rewrite Nat2Z.inj_succ, <-Z.add_1_l in Hr.
      destruct (emit_desc_run s (runtime_desc (memory_type i) base ((physical_start i - base) / PAGE_SIZE))) as [p Ep].
      { destruct Hr as (?&?&?). unfold room, DESC_SIZE in *. lia. }
      rewrite bind_run, Ep. rewrite bind_run. unfold lift. rewrite arith_ok by lia.
      destruct (IH (physical_start i) (wrote s [runtime_desc (memory_type i) base ((physical_start i - base) / PAGE_SIZE) p])) as (ds' & Er & Hd); try done; try lia.
      { eapply items_from_weaken; [|done]. unfold desc_end, desc_len, PAGE_SIZE. lia. }
      { rewrite E1. apply room_wrote; [lia|done]. }
      rewrite E1 in Er, Hd. cbn [fst snd] in *.
      replace (e - base - (physical_start i - base)) with (e - physical_start i) by lia. rewrite Er.
      eexists (_ :: ds'). split; [f_equal; eapply wrote_cons; [|done]; by rewrite <-Hd, length_fmap|].
      cbn. by rewrite Hd.
    + assert (physical_start i = base) by lia. destruct (region_descs (base + desc_len i) items) as [ds b] eqn:E1. cbn [fst snd length] in *.
      rewrite Nat2Z.inj_succ, <-Z.add_1_l in Hr.
      destruct (emit_desc_run s (λ _, i)) as [p Ep].
      { destruct Hr as (?&?&?). unfold room, DESC_SIZE in *. lia. }
      rewrite bind_run, Ep. do 3 (rewrite bind_run, lift_run, arith_ok by (unfold PAGE_SIZE; lia); cbv beta iota).
      destruct (IH (base + desc_len i) (wrote s [i])) as (ds' & Er & Hd); try done.
      { eapply items_from_weaken; [|done]. unfold desc_end. lia. }
      { unfold desc_len, PAGE_SIZE in *. lia. }
      { rewrite E1. apply room_wrote; [lia|done]. }
      rewrite E1 in Er, Hd. cbn [fst snd] in *. fold (desc_len i).
      replace (e - base - desc_len i) with (e - (base + desc_len i)) by lia. rewrite Er.
      eexists (_ :: ds'). split; [f_equal; eapply wrote_cons; [|done]; by rewrite <-Hd, length_fmap|].
      cbn. by rewrite Hd.
Qed.

(** A region of the memory map that a table fits. *)
Definition region_ok (items : list EfiMemoryDescriptor) (d : EfiMemoryDescriptor) : Prop :=
  0 ≤ physical_start d ∧ physical_start d mod PAGE_SIZE = 0 ∧ 0 ≤ number_of_pages d ∧ desc_end d < 2 ^ 64 ∧
  items_inside d items.

Lemma items_in_region_ok items d :
  region_ok items d → items_in_region (physical_start d) (desc_len d) items = Ok (region_items items d).
Proof.
  intros (H1 & H2 & H3 & H4 & _). unfold items_in_region, region_items. fold (desc_end d).
  destruct (skip_while _ items); [done|]. unfold desc_end, desc_len, PAGE_SIZE in *.
  rewrite arith_ok by lia. by rewrite ok_bind.
Qed.

Lemma emat_one_region t items d map s lo :
  emat_items t = Ok items → items_from lo items → is_runtime d = true → region_ok items d →
  room s (zlen (region_spec items d)) →
  ∃ ds, emat_descs (V := V) (ZE := ZE) addr t (d :: map) s = emat_descs addr t map (wrote s ds) ∧
        unpad <$> ds = region_spec items d.
Proof.
  intros Ht Hi Hrt Hok Hr. pose proof Hok as (H1 & H2 & H3 & H4 & H5).
  destruct (region_items_ok _ _ _ Hi H5) as [Hfrom Hin].
  cbn [emat_descs]. rewrite Hrt. cbn [negb].
  assert (Hlen : 0 ≤ desc_len d < 2 ^ 64) by (unfold desc_end, desc_len, PAGE_SIZE in *; lia).
  rewrite bind_run, lift_run. rewrite sn_mul, into_u64_val by done. cbn [map_err]. cbv iota beta.
  rewrite bind_run, lift_run, Ht. cbn [map_err]. rewrite bind_run, lift_run.
  change (number_of_pages d * PAGE_SIZE) with (desc_len d). rewrite items_in_region_ok by done. cbn [map_err].
  unfold region_spec in Hr |- *. fold (region_items items d) in Hr |- *.
  destruct (emat_region_run (desc_end d) (region_items items d) (physical_start d) s) as (ds & Er & Hd); try done.
  { unfold desc_end in *. lia. }
  { destruct (region_descs _ _) as [? ?]. cbn in *. destruct Hr as (?&?&Hr). rewrite length_app in Hr.
    unfold room, DESC_SIZE in *. lia. }
  replace (desc_end d - physical_start d) with (desc_len d) in Er by (unfold desc_end; lia).
  rewrite bind_run, Er. destruct (region_descs _ _) as [es e] eqn:Ere. cbn [fst snd] in *. cbv iota beta.
  case_if; bools.
  - exists ds. rewrite bind_run, mret_run. by rewrite app_nil_r.
  - rewrite length_app in Hr. cbn [length] in Hr.
    assert (Hl : length es = length ds) by (by rewrite <-Hd, length_fmap).
    destruct (emit_desc_run (wrote s ds) (runtime_desc (memory_type d) e ((desc_end d - e) / PAGE_SIZE))) as [p Ep].
    { apply room_wrote; [lia|]. rewrite Nat2Z.inj_add, Hl in Hr. exact Hr. }
    rewrite bind_run, Ep. exists (ds ++ [runtime_desc (memory_type d) e ((desc_end d - e) / PAGE_SIZE) p]).
    rewrite wrote_app; [split; [done|by rewrite fmap_app, Hd]|]. cbn [length]. rewrite <-Hl, <-Nat2Z.inj_add. exact Hr.
Qed.

Lemma emat_descs_run t items lo map s :
  emat_items t = Ok items → items_from lo items → Forall (region_ok items) (runtime_regions map) →
  room s (zlen (mjoin (region_spec items <$> runtime_regions map))) →
  ∃ parts, emat_descs (V := V) (ZE := ZE) addr t map s = (Ok tt, wrote s (mjoin parts)) ∧
           Forall2 (λ d part, unpad <$> part = region_spec items d) (runtime_regions map) parts.
Proof.
  intros Ht Hi. revert s. induction map as [|d map IH]; intros s Hok Hr.
  - exists []. cbn. rewrite wrote_nil. by split.
  - rewrite filter_cons in Hok, Hr |- *. case_decide as Hd.
    + rewrite Forall_cons in Hok. destruct Hok as [Hd' Hok]. rewrite join_fmap_cons, length_app in Hr.
      destruct (emat_one_region t items d map s lo Ht Hi Hd Hd') as (ds & E & Hds).
      { destruct Hr as (?&?&?). unfold room, DESC_SIZE in *. lia. }
      assert (Hl : zlen ds = zlen (region_spec items d)) by (by rewrite <-Hds, length_fmap).
      destruct (IH (wrote s ds)) as (parts & E' & Hp); [done| |].
      { apply room_wrote; [lia|]. rewrite Hl, <-Nat2Z.inj_add. exact Hr. }
      exists (ds :: parts). rewrite E, E'. split; [|by constructor]. f_equal. change (mjoin (ds :: parts)) with (ds ++ mjoin parts).
      apply wrote_app. rewrite Hl. rewrite Nat2Z.inj_add in Hr.
      by rewrite (parts_length _ _ _ Hp).
    + destruct (IH s Hok Hr) as (parts & E & Hp). exists parts. split; [|done]. cbn [emat_descs].
      by rewrite (proj1 (not_true_iff_false _) Hd).
Qed.
End Payload.

Lemma tiles_unpad a ds b : tiles a (unpad <$> ds) b ↔ tiles a ds b.
Proof. revert a. induction ds as [|d ds IH]; intros a; cbn; [done|]. by rewrite IH. Qed.

Lemma parts_spec_tile items lo ds parts :
  items_from lo items → Forall (region_ok items) ds →
  Forall2 (λ d part, unpad <$> part = region_spec items d) ds parts →
  Forall2 (λ d part, tiles (physical_start d) part (desc_end d) ∧ unpad <$> part = region_spec items d) ds parts.
Proof.
  intros Hi Hok Hp. induction Hp as [|d part ds parts Hd _ IH]; [done|].
  apply Forall_cons in Hok as [(H1 & H2 & H3 & H4 & H5) Hok]. constructor; [|auto]. split; [|done].
  rewrite <-tiles_unpad, Hd. by eapply region_spec_tiles.
Qed.

(** C22. The memory attributes item for Zircon: with a table that fits the memory map
    and room for the result, its payload is a header with the number of
    descriptors followed by the descriptors, and those of each runtime region of
    the memory map cover the region end to end. *)
Theorem emat_item_covers {V ZE} addr m t map items lo payload :
  mm_items m = Ok map → emat_items t = Ok items → items_from lo items → Forall (region_ok items) (runtime_regions map) →
  addr mod DESC_ALIGN = 0 → zlen payload < 2 ^ 32 →
  EMAT_HEADER_SIZE + DESC_SIZE * zlen (mjoin (region_spec items <$> runtime_regions map)) ≤ zlen payload →
  ∃ parts : list (list EfiMemoryDescriptor),
    let n := zlen (mjoin parts) in
    emat_payload (V := V) (ZE := ZE) addr m t payload =
      (Ok (EMAT_HEADER_SIZE + DESC_SIZE * n),
       splice (splice payload EMAT_HEADER_SIZE (mjoin (desc_bytes <$> mjoin parts))) 0
         (emat_header_bytes (mkEmatHeader 1 n DESC_SIZE 0))) ∧
    Forall2 (λ d part, tiles (physical_start d) part (desc_end d) ∧ unpad <$> part = region_spec items d)
      (runtime_regions map) parts.
Proof.
  intros Hm Ht Hi Hok Ha Hl Hr. unfold emat_payload, ref_from_prefix.
  assert (H4 : addr mod EMAT_HEADER_ALIGN = 0).
  { unfold EMAT_HEADER_ALIGN, DESC_ALIGN in *. rewrite (Z.div_mod addr 8), Ha by done.
    replace (8 * (addr / 8) + 0) with (2 * (addr / 8) * 4) by lia. by apply Z.mod_mul. }
  rewrite (proj2 (Z.eqb_eq _ _) H4). rewrite (proj2 (Z.leb_le _ _)) by (unfold DESC_SIZE, EMAT_HEADER_SIZE in *; lia).
  cbn [negb andb]. rewrite Hm. cbn [map_err].
  destruct (emat_descs_run (V := V) (ZE := ZE) addr t items lo map (payload, EMAT_HEADER_SIZE)) as (parts & E & Hp); try done.
  { unfold room. cbn [fst snd]. split_and!; [done| |done]. by apply aligned_step. }
  exists parts. rewrite E. unfold wrote. cbn [fst snd]. pose proof (parts_length _ _ _ Hp) as Hn.
  split; [|by eapply parts_spec_tile].
  rewrite ok_bind. unfold EMAT_HEADER_SIZE, DESC_SIZE in *.
  replace ((16 + 40 * zlen (mjoin parts)) / 40) with (zlen (mjoin parts)).
  - by rewrite checked_Some by lia.
  - symmetry. rewrite Z.mul_comm, Z.div_add, Z.add_0_l by done. done.
Qed.

(** ** The memory config item *)

(** The format of ranges: a fixed size, which keeps the alignment. *)
Class ZbiMemLaws (ZE : Type) `{!ZbiMem ZE} : Prop := {
  range_size a b c d : zlen (mem_range_bytes a b c d) = MEM_RANGE_SIZE;
  range_size_pos : 0 < MEM_RANGE_SIZE;
  range_size_aligned : MEM_RANGE_SIZE mod MEM_RANGE_ALIGN = 0;
  range_align_pos : 0 < MEM_RANGE_ALIGN;
}.

Section MemConfig.
Context {V ZE : Type} `{!ZbiMem ZE, !ZbiMemLaws ZE} (addr : Z).

Definition range_of (d : EfiMemoryDescriptor) : bytes :=
  mem_range_bytes (physical_start d) (desc_len d) (efi_to_zbi_mem_range_type (memory_type d)) 0.
Lemma zlen_ranges ds : zlen (mjoin (range_of <$> ds)) = MEM_RANGE_SIZE * zlen ds.
Proof.
  induction ds as [|d ds IH]; [cbn; lia|]. rewrite join_fmap_cons, length_app. unfold range_of at 1.
  pose proof (range_size (physical_start d) (desc_len d) (efi_to_zbi_mem_range_type (memory_type d)) 0). cbn [length]. lia.
Qed.

Lemma mem_config_descs_run map b off :
  Forall (λ d, u64_ok (desc_len d)) map → 0 ≤ off → (addr + off) mod MEM_RANGE_ALIGN = 0 →
  if bool_decide (off + MEM_RANGE_SIZE * zlen map ≤ zlen b)
  then mem_config_descs (V := V) addr map (b, off) =
         (Ok tt, (splice b off (mjoin (range_of <$> map)), off + MEM_RANGE_SIZE * zlen map))
  else off ≤ zlen b →
       ∃ s, mem_config_descs (V := V) addr map (b, off) = (Err (UnificationError (BufferTooSmall (Some MEM_RANGE_SIZE))), s).
Proof.
  pose proof range_size_pos as Hpos. revert b off. induction map as [|d map IH]; intros b off Hall Ho Ha; cbn [mem_config_descs].
  - case_bool_decide; [|cbn in *; lia]. rewrite mret_run. cbn. by rewrite splice_nil, Z.mul_0_r, Z.add_0_r.
  - apply Forall_cons in Hall as [Hd Hall]. rewrite bind_run. unfold emit, ref_from_prefix.
    rewrite (proj2 (Z.eqb_eq _ _) Ha). cbn [andb].
    destruct (Z.leb_spec MEM_RANGE_SIZE (zlen (slice b off (zlen b - off)))) as [Hr|Hr]; rewrite length_slice in Hr.
    + change (number_of_pages d * PAGE_SIZE) with (desc_len d). rewrite arith_ok, ok_bind by done. fold (range_of d).
      assert (Hlen : zlen (range_of d) = MEM_RANGE_SIZE) by apply range_size.
      specialize (IH (splice b off (range_of d)) (off + MEM_RANGE_SIZE) Hall).
      rewrite length_splice in IH by lia. cbn [length]. rewrite Nat2Z.inj_succ.
      replace (off + MEM_RANGE_SIZE * Z.succ (zlen map)) with (off + MEM_RANGE_SIZE + MEM_RANGE_SIZE * zlen map) by lia.
      assert (H0 : (addr + (off + MEM_RANGE_SIZE)) mod MEM_RANGE_ALIGN = 0).
      { pose proof range_align_pos. by rewrite Z.add_assoc, Z.add_mod, Ha, range_size_aligned by lia. }
      specialize (IH ltac:(lia) H0). case_bool_decide as Hroom.
      * rewrite IH, join_fmap_cons. do 2 f_equal. rewrite <-Hlen at 1. apply splice_splice_adj; rewrite ?zlen_ranges; lia.
      * intros _. apply IH. lia.
    + case_bool_decide as Hroom; [cbn [length] in Hroom; nia|]. intros _. by eexists.
Qed.

(** The memory config item for Zircon: one range per descriptor of the memory
    map, in order, with its address, its size in bytes and its type; if the
    payload is too small the item is refused. *)
Theorem mem_config_exact m map payload :
  mm_items m = Ok map → Forall (λ d, u64_ok (desc_len d)) map → addr mod MEM_RANGE_ALIGN = 0 →
  if bool_decide (MEM_RANGE_SIZE * zlen map ≤ zlen payload)
  then mem_config_payload (V := V) addr m payload =
         (Ok (MEM_RANGE_SIZE * zlen map), splice payload 0 (mjoin (range_of <$> map)))
  else ∃ p, mem_config_payload (V := V) addr m payload =
         (Err (UnificationError (BufferTooSmall (Some MEM_RANGE_SIZE))), p).
Proof.
  intros Hm Hall Ha. unfold mem_config_payload. rewrite Hm. cbn [map_err].
  pose proof (mem_config_descs_run map payload 0 Hall ltac:(lia)) as H. rewrite Z.add_0_r in H. specialize (H Ha).
  rewrite Z.add_0_l in H. case_bool_decide.
  - by rewrite H.
  - destruct H as [[p u] E]; [lia|]. rewrite E. by eexists.
Qed.
End MemConfig.

(** ** The e820 map *)

Definition e820_of (d : EfiMemoryDescriptor) (e : e820entry) : Prop :=
  e820_addr e = physical_start d ∧ e820_size e = desc_len d ∧ efi_to_e820_mem_type (memory_type d) = Ok (e820_type e).

(** The memory types of the UEFI specification up to persistent memory. *)
Lemma e820_type_known ty : 0 ≤ ty ≤ EFI_MEMORY_TYPE_PERSISTENT_MEMORY ↔ ∃ t, efi_to_e820_mem_type ty = Ok t.
Proof.
  unfold EFI_MEMORY_TYPE_PERSISTENT_MEMORY. split.
  - intros H. destruct ty as [|p|p]; [by eexists| |lia]. do 4 (destruct p as [p|p|]; try (by eexists)); lia.
  - intros [t H]. destruct ty as [|p|p]; [lia| |done]. do 4 (destruct p as [p|p|]; try (cbn in H; discriminate || lia)).
Qed.

Lemma fill_e820_run map idx entries :
  Forall (λ d, u64_ok (desc_len d) ∧ 0 ≤ memory_type d ≤ EFI_MEMORY_TYPE_PERSISTENT_MEMORY) map →
  (idx + length map ≤ length entries)%nat →
  ∃ es, fill_e820 idx map entries = Ok (take idx entries ++ es ++ drop (idx + length map) entries) ∧ Forall2 e820_of map es.
Proof.
  intros Hall. revert idx entries. induction Hall as [|d map [Hd Ht] _ IH]; intros idx entries Hl; cbn [fill_e820].
  - exists []. cbn. by rewrite Nat.add_0_r, take_drop.
  - cbn [length] in Hl. change (number_of_pages d * 4096) with (desc_len d). rewrite arith_ok, ok_bind by done.
    apply e820_type_known in Ht as [t Ht]. rewrite Ht, ok_bind. rewrite (proj2 (Nat.ltb_lt _ _)) by lia.
    destruct (IH (S idx) (<[idx:=mkE820 (physical_start d) (desc_len d) t]> entries)) as (es & E & Hes); [rewrite length_insert; lia|].
    exists (mkE820 (physical_start d) (desc_len d) t :: es). rewrite E. split; [|by constructor].
    f_equal. erewrite take_S_r by (apply list_lookup_insert_eq; lia). rewrite take_insert_ge, drop_insert_lt by lia.
    rewrite <-app_assoc. cbn. by rewrite Nat.add_succ_r.
Qed.

(** The e820 map that is given to Linux: more descriptors than entries are
    refused, otherwise the first entries are those of the memory map, in order,
    the others stay as they are, and the number of entries is returned. *)
Theorem e820_exact m map entries :
  mm_items m = Ok map → mm_len m = Ok (zlen map) → zlen entries < 256 →
  Forall (λ d, u64_ok (desc_len d) ∧ 0 ≤ memory_type d ≤ EFI_MEMORY_TYPE_PERSISTENT_MEMORY) map →
  if bool_decide (zlen entries < zlen map)
  then e820_callback m entries = Err (MemoryMapCallbackError (-1))
  else ∃ es, e820_callback m entries = Ok (es ++ drop (length map) entries, zlen map) ∧ Forall2 e820_of map es.
Proof.
  intros Hm Hl He Hall. unfold e820_callback. rewrite Hl, ok_bind. case_bool_decide.
  - by rewrite (proj2 (Z.ltb_lt _ _)).
  - rewrite (proj2 (Z.ltb_ge _ _)) by lia. rewrite Hm, ok_bind.
    destruct (fill_e820_run map 0 entries Hall) as (es & E & Hes); [lia|]. rewrite E, ok_bind.
    rewrite checked_Some by lia. by exists es.
Qed.

(** ** An example *)

Module MemExample.
(** Conventional memory and a runtime region of four pages; the firmware's
    descriptors have 48 bytes. The table says that the first page of the region
    is code and the third one data that must not be executed. *)
Definition conventional : EfiMemoryDescriptor := mkDesc 7 0 0x1000 0 15 0xf.
Definition runtime : EfiMemoryDescriptor := mkDesc 6 0 0x10000 0 4 0x800000000000000f.
Definition code : EfiMemoryDescriptor := mkDesc 5 0 0x10000 0 1 0x8000000000001000.
Definition data : EfiMemoryDescriptor := mkDesc 6 0 0x12000 0 1 0x8000000000004000.
Definition chunk (d : EfiMemoryDescriptor) : EfiMemoryDescriptor * bytes := (d, replicate 8 0).
Definition map : EfiMemoryMap := mkMap 0x8000 (mjoin (chunk_bytes <$> [chunk conventional; chunk runtime])) 7 48 1.
Definition table : EfiMemoryAttributesTable :=
  mkEmat (mkEmatHeader 1 2 48 0) 0x9010 (mjoin (chunk_bytes <$> [chunk code; chunk data])).
Definition payload : bytes := replicate 160 0xaa.

(** The witness of [emat_item_covers]. *)
Lemma emat_item_covers_witness :
  ∃ parts : list (list EfiMemoryDescriptor),
    fst (emat_payload (V := unit) (ZE := unit) 0x100 map table payload) = Ok (EMAT_HEADER_SIZE + DESC_SIZE * zlen (mjoin parts)) ∧
    Forall2 (λ d part, tiles (physical_start d) part (desc_end d) ∧ unpad <$> part = region_spec [code; data] d) [runtime] parts.
Proof.
  destruct (emat_item_covers (V := unit) (ZE := unit) 0x100 map table [conventional; runtime] [code; data] 0 payload)
    as (parts & E & Hp).
  - vm_compute. reflexivity.
  - vm_compute. reflexivity.
  - cbn. split_and!; try done; vm_compute; discriminate.
  - change (runtime_regions [conventional; runtime]) with [runtime]. constructor; [|constructor].
    unfold region_ok, items_inside. split_and!; try (by vm_compute).
    repeat constructor; vm_compute; intros; discriminate.
  - reflexivity.
  - vm_compute. reflexivity.
  - vm_compute. discriminate.
  - exists parts. rewrite E. split; [done|exact Hp].
Defined.

(** An item of the table behind a gap is not in the result: the memory that must
    not be executed is described without that attribute. *)
Theorem emat_gap_drops_item :
  ∃ p, emat_payload (V := unit) (ZE := unit) 0x100 map table payload = (Ok 136, p) ∧
       (unpad ∘ desc_of_bytes <$> [slice p 16 40; slice p 56 40; slice p 96 40]) =
         [code; runtime_desc 6 0x11000 1 0; runtime_desc 6 0x12000 2 0].
Proof. eexists. split; vm_compute; reflexivity. Qed.

(** Ranges of 24 bytes. *)
#[export] Instance ExampleZbi : ZbiMem unit := {
  ZBI_MEM_TYPE_RAM := 1; ZBI_MEM_TYPE_RESERVED := 3; MEM_RANGE_SIZE := 24; MEM_RANGE_ALIGN := 8;
  mem_range_bytes a b c d := le_bytes 8 a ++ le_bytes 8 b ++ le_bytes 4 c ++ le_bytes 4 d;
  ZbiType_EfiMemoryAttributesTable := 1; ZbiType_MemConfig := 2;
  get_next_payload c := Ok 0; ZbiFlags_default := 0; create_entry _ _ _ _ := mret tt;
}.
#[export] Instance ExampleLaws : ZbiMemLaws unit.
Proof. split; intros; done. Qed.

(** The witness of [mem_config_exact]. *)
Lemma mem_config_exact_witness :
  mem_config_payload (V := unit) (ZE := unit) 0x100 map (replicate 48 0) =
    (Ok 48, splice (replicate 48 0) 0 (mjoin (range_of (ZE := unit) <$> [conventional; runtime]))).
Proof.
  pose proof (mem_config_exact (V := unit) (ZE := unit) 0x100 map [conventional; runtime] (replicate 48 0)) as H.
  apply H; [vm_compute; reflexivity|repeat constructor; vm_compute; discriminate || reflexivity|reflexivity].
Defined.

(** The witness of [e820_exact]: two entries of three, of types RAM and reserved. *)
Lemma e820_exact_witness :
  ∃ es, e820_callback map (replicate 3 (mkE820 0 0 0)) = Ok (es ++ [mkE820 0 0 0], 2) ∧
        Forall2 e820_of [conventional; runtime] es.
Proof.
  pose proof (e820_exact map [conventional; runtime] (replicate 3 (mkE820 0 0 0))) as H.
  apply H; [vm_compute; reflexivity|vm_compute; reflexivity|reflexivity|
    repeat constructor; vm_compute; intros; discriminate || reflexivity].
Defined.

(** A memory map with a type that is not in the table, such as unaccepted
    memory, makes the boot panic after the firmware was left. *)
Theorem e820_unknown_type_panics ty entries :
  EFI_MEMORY_TYPE_PERSISTENT_MEMORY < ty < 2 ^ 32 → (1 ≤ length entries)%nat →
  e820_callback (mkMap 0 (desc_bytes (mkDesc ty 0 0 0 1 0)) 0 40 1) entries = Panic.
Proof.
  intros Ht He. set (m := mkMap _ _ _ _ _). set (d := mkDesc ty 0 0 0 1 0).
  destruct (mm_items_exact m 40 [(d, [])]) as [E1 E2]; try done.
  { constructor; [|constructor]. split; [|reflexivity]. unfold d, desc_ok, u32_ok, u64_ok, EFI_MEMORY_TYPE_PERSISTENT_MEMORY in *. cbn. lia. }
  unfold e820_callback. rewrite E2, E1, !ok_bind. cbn [length fmap list_fmap fst]. rewrite (proj2 (Z.ltb_ge _ _)) by lia.
  cbn [fill_e820]. destruct (efi_to_e820_mem_type (memory_type d)) as [t| |] eqn:Et; try done.
  - assert (∃ t, efi_to_e820_mem_type ty = Ok t) as X by eauto. apply e820_type_known in X. lia.
  - exfalso. revert Et. cbn. clear. unfold efi_to_e820_mem_type. repeat case_match; discriminate.
Qed.
End MemExample.
