(* ===== verification/EfiAlloc.v ===== *)
(** * libefi: the global allocator

    Models src/gbl/libefi/src/allocation.rs, and the entry to and the exit from
    the firmware's boot services of src/gbl/libefi/src/lib.rs. The state is the
    global allocator, the firmware, and the memory that both share. *)

From S2P Require Import Prelude SafeMath LibError Text Utils Abr Block Disk BootParams.
From S2P Require Import Partition GblOps Avb Libc Efi EfiMem.
Import SafeNum.

(** ** Memory *)

Definition Memory : Type := Z → Z.
Definition mem_read (m : Memory) (a n : Z) : bytes := m <$> seqZ a n.
Definition mem_write (m : Memory) (a : Z) (b : bytes) : Memory := λ x,
  if (a <=? x) && (x <? a + zlen b) then b !!! Z.to_nat (x - a) else m x.

(** ** State *)

(** gbl/libefi/src/allocation.rs:44-52, [EfiState]. *)
Inductive EfiState (W : Type) := Uninitialized | Initialized (entry : EfiEntry W) | Exited.
Arguments Uninitialized {W}. Arguments Initialized {W}. Arguments Exited {W}.

(** gbl/libefi/src/allocation.rs:27-42, [EfiAllocator]. *)
Record EfiAllocator (W : Type) := mkAllocator {
  al_state : EfiState W; al_runtime_services : option (EfiRuntimeService W);
}.
Arguments mkAllocator {W}. Arguments al_state {W}. Arguments al_runtime_services {W}.

Section Allocator.
Context {W : Type}.

(** gbl/libefi/src/allocation.rs:55-61, [EfiState::efi_entry]. *)
Definition efi_entry (s : EfiState W) : option (EfiEntry W) :=
  match s with Initialized entry => Some entry | _ => None end.
(** gbl/libefi/src/allocation.rs:143-146, [EfiAllocator::new]. *)
Definition allocator_new : EfiAllocator W := mkAllocator Uninitialized None.
(** gbl/libefi/src/allocation.rs:148-151, [EfiAllocator::get_efi_entry_and_rt]. *)
Definition get_efi_entry_and_rt (a : EfiAllocator W) : option (EfiEntry W) * option (EfiRuntimeService W) :=
  (efi_entry (al_state a), al_runtime_services a).

(** gbl/libefi/src/allocation.rs:106-126, [init_efi_global_alloc]. *)
Definition init_efi_global_alloc (entry : EfiEntry W) : ST (EfiAllocator W) Error unit := λ a,
  let rt := match (t ← system_table_checked entry; runtime_services_checked t) with Ok v => Some v | _ => None end in
  match al_state a with
  | Uninitialized => (Ok tt, mkAllocator (Initialized entry) rt)
  | s => (Err AlreadyStarted, mkAllocator s rt)
  end.
(** gbl/libefi/src/allocation.rs:128-140, [exit_efi_global_alloc]. *)
Definition exit_efi_global_alloc (a : EfiAllocator W) : EfiAllocator W := mkAllocator Exited (al_runtime_services a).
(** gbl/libefi/src/lib.rs:138-158, [initialize]. *)
Definition initialize (image_handle : Z) (systab_ptr : option (EfiSystemTable W)) : ST (EfiAllocator W) Error (EfiEntry W) :=
  init_efi_global_alloc (mkEntry image_handle systab_ptr);;
  mret (mkEntry image_handle systab_ptr).

(** gbl/libefi/src/lib.rs:380-390, [BootServices::exit_boot_services]. *)
Definition bs_exit_boot_services (entry : EfiEntry W) (bs : EfiBootService W) (map : EfiMemoryMap) : ST W Error unit :=
  efi_call (app_fn (fn_exit_boot_services bs) (image_handle entry, map_key map)).
(** gbl/libefi/src/lib.rs:159-180, [exit_boot_services]: the buffer for the memory map is at
    [addr]. *)
Definition exit_boot_services (entry : EfiEntry W) (addr : Z) (mmap_buffer : bytes) : ST (EfiAllocator W * W) Error EfiMemoryMap :=
  let on_w A (m : ST W Error A) : ST (EfiAllocator W * W) Error A := zoom snd (λ w s, (fst s, w)) m in
  '(off, aligned) ← lift (aligned_subslice addr mmap_buffer (Val DESC_ALIGN));
  bs ← lift (boot_services entry);
  res ← on_w _ (get_memory_map bs (addr + off) aligned);
  on_w _ (bs_exit_boot_services entry bs res);;
  modify (λ s, (exit_efi_global_alloc (fst s), snd s));;
  mret res.

(** ** Allocation *)

(** The global allocator, the firmware and the memory. *)
Record Machine := mkMachine { mc_allocator : EfiAllocator W; mc_firmware : W; mc_memory : Memory }.
Abbreviation M := (ST Machine Error).
Definition on_firmware {A} (m : ST W Error A) : M A :=
  zoom mc_firmware (λ w s, mkMachine (mc_allocator s) w (mc_memory s)) m.

(** gbl/libefi/src/allocation.rs:153-163, [EfiAllocator::allocate]: null if it fails. *)
Definition allocate (size : Z) : M Z :=
  a ← gets mc_allocator;
  match (entry ← ok_or (efi_entry (al_state a)) InvalidState; t ← system_table_checked entry; boot_services_checked t) with
  | Ok bs =>
      r ← attempt (on_firmware (allocate_pool bs EFI_MEMORY_TYPE_LOADER_DATA size));
      mret (match r with inl p => p | inr _ => 0 end)
  | Err _ => mret 0
  | Panic => lift Panic
  end.

(** gbl/libefi/src/allocation.rs:165-181, [EfiAllocator::deallocate]. *)
Definition deallocate (ptr : Z) : M unit :=
  a ← gets mc_allocator;
  match efi_entry (al_state a) with
  | Some entry =>
      match (t ← system_table_checked entry; boot_services_checked t) with
      | Ok bs => _ ← attempt (on_firmware (free_pool bs ptr)); mret tt
      | Err _ => mret tt
      | Panic => lift Panic
      end
  | None => mret tt
  end.

(** gbl/libefi/src/allocation.rs:184-185, [EFI_ALLOCATE_POOL_ALIGNMENT]. *)
Definition EFI_ALLOCATE_POOL_ALIGNMENT : Z := 8.

(** gbl/libefi/src/allocation.rs:188-227, [GlobalAlloc::alloc for EfiAllocator]: null if it fails. *)
Definition alloc (layout : Layout) : M Z :=
  let align := l_align layout in
  if align <=? EFI_ALLOCATE_POOL_ALIGNMENT then
    ptr ← allocate (l_size layout);
    lift (assert_that (ptr mod EFI_ALLOCATE_POOL_ALIGNMENT =? 0));;
    mret ptr
  else
    let extra_size := from_int here TUsize align +! from_int here TUsize 8 in
    let size := from_int here TUsize (l_size layout) +! extra_size in
    match try_into here TUsize size with
    | Ok size =>
        unaligned_ptr ← allocate size;
        if unaligned_ptr =? 0 then mret 0 else
        let offset := align - unaligned_ptr mod align in
        let ptr := unaligned_ptr + offset in
        modify (λ s, mkMachine (mc_allocator s) (mc_firmware s)
                       (mem_write (mc_memory s) (ptr + l_size layout) (le_bytes 8 offset)));;
        mret ptr
    | _ => mret 0
    end.

(** gbl/libefi/src/allocation.rs:229-251, [GlobalAlloc::dealloc for EfiAllocator]. *)
Definition dealloc (ptr : Z) (layout : Layout) : M unit :=
  if l_align layout <=? EFI_ALLOCATE_POOL_ALIGNMENT then deallocate ptr else
  m ← gets mc_memory;
  let offset := le_val (mem_read m (ptr + l_size layout) 8) in
  deallocate (ptr - offset).
End Allocator.
Arguments Machine : clear implicits. Arguments mkMachine {W}. Arguments mc_allocator {W}.
Arguments mc_firmware {W}. Arguments mc_memory {W}.

(** * The global allocator: blocks are aligned and given back

    What [alloc] hands out is aligned and lies in the block of the firmware's
    pool, [dealloc] gives that block back, and outside the life time of the boot
    services the allocator does not touch the firmware. *)

Import SafeNum.

(** ** Memory *)

Lemma mem_read_write m a b : mem_read (mem_write m a b) a (zlen b) = b.
Proof.
  apply list_eq. intros i. unfold mem_read. rewrite list_lookup_fmap.
  destruct (decide (i < length b)%nat) as [Hi|Hi].
  - rewrite lookup_seqZ_lt by lia. cbn. unfold mem_write. lia_bools. cbn [andb].
    replace (Z.to_nat (a + Z.of_nat i - a)) with i by lia.
    destruct (lookup_lt_is_Some_2 b i Hi) as [v Hv]. by rewrite (list_lookup_total_correct _ _ _ Hv), Hv.
  - rewrite lookup_seqZ_ge by lia. symmetry. apply lookup_ge_None. lia.
Qed.
Lemma mem_read_ext m m' a n : (∀ x, a ≤ x < a + n → m x = m' x) → mem_read m a n = mem_read m' a n.
Proof.
  intros H. unfold mem_read. apply list_fmap_ext. intros i x Hx. apply H. apply lookup_seqZ in Hx. lia.
Qed.
Lemma mem_write_out m a b x : ¬ (a ≤ x < a + zlen b) → mem_write m a b x = m x.
Proof. intros. unfold mem_write. destruct (a <=? x) eqn:E1, (x <? a + zlen b) eqn:E2; bools; cbn; try done; lia. Qed.

(** ** Blocks *)

Lemma pow2_divides a b : is_pow2 a = true → is_pow2 b = true → a ≤ b → b mod a = 0.
Proof.
  unfold is_pow2. intros Ha Hb Hle. bools. rewrite H2, H0. pose proof (Z.log2_nonneg a). pose proof (Z.log2_le_mono a b Hle).
  replace (Z.log2 b) with (Z.log2 b - Z.log2 a + Z.log2 a) by lia. rewrite Z.pow_add_r by lia. apply Z.mod_mul. lia.
Qed.
Lemma mod_divides x a b : 0 < a → 0 < b → x mod b = 0 → b mod a = 0 → x mod a = 0.
Proof.
  intros Ha Hb Hx Hba. apply Z.mod_divide in Hx as [k ->]; [|lia]. apply Z.mod_divide in Hba as [j ->]; [|lia].
  rewrite Z.mul_assoc. apply Z.mod_mul. lia.
Qed.

Section Alive.
Context {W : Type} (entry : EfiEntry W) (t : EfiSystemTable W) (bs : EfiBootService W).
Context (f : Z * Z → W → Z * Z * W) (g : Z → W → Z * unit * W).
Hypothesis Hsys : systab_ptr entry = Some t.
Hypothesis Hbs : st_boot_services t = Some bs.
Hypothesis Hf : fn_allocate_pool bs = Some f.
Hypothesis Hg : fn_free_pool bs = Some g.

Lemma allocate_run (s : Machine W) n p w' :
  al_state (mc_allocator s) = Initialized entry →
  f (EFI_MEMORY_TYPE_LOADER_DATA, n) (mc_firmware s) = (EFI_STATUS_SUCCESS, p, w') →
  allocate n s = (Ok p, mkMachine (mc_allocator s) w' (mc_memory s)).
Proof.
  intros Hs E. unfold allocate, on_firmware, zoom, allocate_pool, efi_call. rewrite bind_run, gets_run, Hs. cbn.
  unfold system_table_checked. rewrite Hsys. cbn. unfold boot_services_checked. rewrite Hbs. cbn.
  rewrite bind_run. unfold attempt. rewrite Hf. cbn. by rewrite E.
Qed.

Lemma deallocate_run (s : Machine W) p :
  al_state (mc_allocator s) = Initialized entry →
  deallocate p s = (Ok tt, mkMachine (mc_allocator s) (snd (g p (mc_firmware s))) (mc_memory s)).
Proof.
  intros Hs. unfold deallocate, on_firmware, zoom, free_pool, efi_call. rewrite bind_run, gets_run, Hs. cbn.
  unfold system_table_checked. rewrite Hsys. cbn. unfold boot_services_checked. rewrite Hbs. cbn.
  rewrite bind_run. unfold attempt. rewrite Hg. cbn. destruct (g p (mc_firmware s)) as [[st []] w]. cbn.
  unfold efi_status_to_result. case_if; done.
Qed.

(** What is asked of the pool for a layout. *)
Definition pool_size (l : Layout) : Z :=
  if l_align l <=? EFI_ALLOCATE_POOL_ALIGNMENT then l_size l else l_size l + l_align l + 8.

(** The memory behind a block that the program got keeps the offset. *)
Lemma offset_kept m m2 a off : 0 ≤ off < 2 ^ 64 →
  (∀ x, a ≤ x < a + 8 → m2 x = mem_write m a (le_bytes 8 off) x) → le_val (mem_read m2 a 8) = off.
Proof.
  intros Ho H. rewrite (mem_read_ext _ _ _ _ H). pose proof (mem_read_write m a (le_bytes 8 off)) as R. rewrite length_le_bytes in R. change (Z.of_nat 8) with 8 in R. rewrite R.
  by apply le_val_bytes.
Qed.

(** C23. For every layout, [alloc] returns a pointer that is a multiple of the
    alignment and whose bytes lie in the block of the pool, changes memory only
    in that block, and [dealloc] frees exactly that block, whatever the program
    did to its bytes and to memory outside the block. *)
Theorem efi_alloc_dealloc (s : Machine W) l p w' :
  al_state (mc_allocator s) = Initialized entry → is_pow2 (l_align l) = true →
  0 ≤ l_size l → l_size l + l_align l + 8 < 2 ^ 64 →
  f (EFI_MEMORY_TYPE_LOADER_DATA, pool_size l) (mc_firmware s) = (EFI_STATUS_SUCCESS, p, w') →
  0 < p → p mod EFI_ALLOCATE_POOL_ALIGNMENT = 0 →
  ∃ ptr m, alloc l s = (Ok ptr, mkMachine (mc_allocator s) w' m) ∧
    ptr mod l_align l = 0 ∧ p ≤ ptr ∧ ptr + l_size l ≤ p + pool_size l ∧
    (∀ x, ¬ (p ≤ x < p + pool_size l) → m x = mc_memory s x) ∧
    ∀ w2 m2, (∀ x, ptr + l_size l ≤ x < p + pool_size l → m2 x = m x) →
      dealloc ptr l (mkMachine (mc_allocator s) w2 m2) = (Ok tt, mkMachine (mc_allocator s) (snd (g p w2)) m2).
Proof.
  intros Hs Hal Hsz Hmax E Hp Hmod. assert (Ha : 0 < l_align l) by (unfold is_pow2 in Hal; bools; lia).
  unfold alloc, dealloc, pool_size in *. destruct (l_align l <=? EFI_ALLOCATE_POOL_ALIGNMENT) eqn:El; bools.
  - exists p, (mc_memory s). rewrite bind_run, (allocate_run s _ p w' Hs E). rewrite (proj2 (Z.eqb_eq _ _) Hmod).
    split; [done|]. split; [|split_and!; try done; try lia; intros; by apply deallocate_run].
    eapply mod_divides; [done| |exact Hmod|by apply pow2_divides]. done.
  - rewrite !from_int_u64 by (unfold u64_ok, EFI_ALLOCATE_POOL_ALIGNMENT in *; lia).
    rewrite !sn_add by (unfold u64_ok; lia). cbn [try_into]. unfold in_type.
    rewrite Z.add_assoc. replace (_ && _) with true by (symmetry; cbn; apply andb_true_iff; split; apply Z.leb_le; lia).
    rewrite bind_run, (allocate_run s _ p w' Hs E). rewrite (proj2 (Z.eqb_neq p 0)) by lia.
    pose proof (Z.mod_pos_bound p (l_align l) Ha). set (off := l_align l - p mod l_align l).
    rewrite bind_run. cbn [modify mc_allocator mc_firmware mc_memory]. do 2 eexists. split; [reflexivity|]. split_and!.
    + unfold off. pose proof (Z.div_mod p (l_align l) ltac:(lia)).
      replace (p + (l_align l - p mod l_align l)) with ((p / l_align l + 1) * l_align l) by lia. apply Z.mod_mul. lia.
    + lia.
    + lia.
    + intros x Hx. apply mem_write_out. rewrite length_le_bytes. unfold off in *. lia.
    + intros w2 m2 Hm2. rewrite bind_run. cbn [gets mc_memory]. rewrite deallocate_run by done. cbn [mc_firmware mc_allocator mc_memory].
      rewrite (offset_kept (mc_memory s) m2 (p + off + l_size l) off) by (try (intros; apply Hm2); unfold off in *; lia).
      by replace (p + off - off) with p by lia.
Qed.

(** [gbl_free] passes its alignment on to [dealloc] although [gbl_malloc] got its
    block, of [size] bytes at [p], with alignment 1. Beyond an alignment of 8
    the address that is freed is then taken from the memory behind the block: it
    can be any address up to [p]. *)
Theorem efi_free_mismatched_layout (s : Machine W) p size align q :
  al_state (mc_allocator s) = Initialized entry → EFI_ALLOCATE_POOL_ALIGNMENT < align → 0 ≤ p - q < 2 ^ 64 →
  ∃ m, (∀ x, x < p + size → m x = mc_memory s x) ∧
    dealloc p (mkLayout size align) (mkMachine (mc_allocator s) (mc_firmware s) m) =
      (Ok tt, mkMachine (mc_allocator s) (snd (g q (mc_firmware s))) m).
Proof.
  intros Hs Hal Hq. exists (mem_write (mc_memory s) (p + size) (le_bytes 8 (p - q))). split.
  - intros x Hx. apply mem_write_out. lia.
  - unfold dealloc. cbn [l_align l_size]. rewrite (proj2 (Z.leb_gt _ _)) by done. rewrite bind_run. cbn [gets mc_memory].
    rewrite (offset_kept (mc_memory s) _ _ (p - q)) by done. rewrite deallocate_run by done.
    by replace (p - (p - q)) with q by lia.
Qed.
End Alive.

(** Before the entry to and after the exit from the boot services the allocator
    hands out nothing and does not call the firmware. *)
Theorem efi_allocator_inactive {W} (s : Machine W) l p :
  efi_entry (al_state (mc_allocator s)) = None → alloc l s = (Ok 0, s) ∧ dealloc p l s = (Ok tt, s).
Proof.
  intros Hs.
  assert (Ha : ∀ n, allocate n s = (Ok 0, s)) by (intros n; unfold allocate; by rewrite bind_run, gets_run, Hs).
  assert (Hd : ∀ p, deallocate p s = (Ok tt, s)) by (intros q; unfold deallocate; by rewrite bind_run, gets_run, Hs).
  split.
  - unfold alloc. case_if; [by rewrite bind_run, Ha|]. destruct (try_into _ _ _); try done. by rewrite bind_run, Ha.
  - unfold dealloc. case_if; [apply Hd|]. by rewrite bind_run, gets_run, Hd.
Qed.

(** ** An example *)

Module AllocExample.
(** A pool that hands out memory upwards and records what is freed. *)
Definition pool_alloc (x : Z * Z) (w : Z * list Z) : Z * Z * (Z * list Z) :=
  (EFI_STATUS_SUCCESS, fst w, (fst w + (snd x + 7) / 8 * 8, snd w)).
Definition pool_free (p : Z) (w : Z * list Z) : Z * unit * (Z * list Z) := (EFI_STATUS_SUCCESS, tt, (fst w, p :: snd w)).
Definition services : EfiBootService (Z * list Z) :=
  mkBootService _ None (Some pool_alloc) (Some pool_free) None None None None None None None None None.
Definition table : EfiSystemTable (Z * list Z) := mkSystemTable _ (Some services) None None.
Definition entry : EfiEntry (Z * list Z) := mkEntry 1 (Some table).
Definition machine : Machine (Z * list Z) := mkMachine (mkAllocator (Initialized entry) None) (0x1008, []) (λ _, 0).

(** The witness of [efi_alloc_dealloc]: 100 bytes aligned to 64. *)
Lemma efi_alloc_dealloc_witness :
  ∃ ptr m, alloc (mkLayout 100 64) machine = (Ok ptr, mkMachine (mc_allocator machine) (0x10b8, []) m) ∧
    ptr mod 64 = 0 ∧ ptr + 100 ≤ 0x1008 + 172 ∧
    dealloc ptr (mkLayout 100 64) (mkMachine (mc_allocator machine) (0x10b8, []) (mem_write m ptr (replicate 100 7))) =
      (Ok tt, mkMachine (mc_allocator machine) (0x10b8, [0x1008]) (mem_write m ptr (replicate 100 7))).
Proof.
  destruct (efi_alloc_dealloc entry table services pool_alloc pool_free eq_refl eq_refl eq_refl eq_refl
              machine (mkLayout 100 64) 0x1008 (0x10b8, [])) as (ptr & m & E & Hm & _ & Hb & _ & Hd);
    [reflexivity..|cbn; lia|cbn; lia|reflexivity|lia|reflexivity|].
  exists ptr, m. split; [exact E|]. split; [exact Hm|]. split; [exact Hb|].
  apply (Hd (0x10b8, [])). intros x Hx. apply mem_write_out. cbn in *. lia.
Defined.

(** The witness of [efi_free_mismatched_layout]. *)
Lemma efi_free_mismatched_layout_witness :
  ∃ m, dealloc 0x1008 (mkLayout 100 64) (mkMachine (mc_allocator machine) (0x10b8, []) m) =
         (Ok tt, mkMachine (mc_allocator machine) (0x10b8, [0x10]) m).
Proof.
  destruct (efi_free_mismatched_layout entry table services pool_free eq_refl eq_refl eq_refl
              (mkMachine (mc_allocator machine) (0x10b8, []) (λ _, 0)) 0x1008 100 64 0x10) as (m & _ & E);
    [reflexivity|reflexivity|lia|]. exists m. exact E.
Defined.
End AllocExample.
