(* ===== verification/EfiProtocols.v ===== *)
(** * libefi: the protocols of the firmware that libgbl relies on

    Models src/gbl/libefi/src/protocol/gbl_efi_avb.rs,
    gbl_efi_image_loading.rs, gbl_efi_os_configuration.rs, dt_fixup.rs,
    gbl_efi_fastboot.rs, simple_text_input.rs, loaded_image.rs and riscv.rs.
    A function that writes to a buffer of its caller works on the state of the
    firmware and that buffer. *)

From S2P Require Import Prelude SafeMath LibError Text Efi.
Import SafeNum.

(** A call beside a buffer. *)
Definition beside {S X E A} (m : ST S E A) : ST (S * X) E A := zoom fst (λ w s, (w, snd s)) m.

(** ** Verified boot *)

(** [GblEfiAvbVerificationResult]: null pointers are [None]; the versions and
    patch levels of boot, system and vendor. *)
Record GblEfiAvbVerificationResult := mkVerificationResult {
  vr_color : Z; vr_digest : option bytes; vr_versions : list (option bytes);
}.

(** [GblEfiAvbProtocol]. *)
Record GblEfiAvbProtocol (W : Type) := mkAvbProtocol {
  fn_validate_vbmeta_public_key : option (bytes * option bytes → W → Z * Z * W);
  fn_read_is_device_unlocked : efi_fn W bool;
  fn_read_rollback_index : option (Z → W → Z * Z * W);
  fn_write_rollback_index : option (Z * Z → W → Z * unit * W);
  fn_read_persistent_value : option (bytes → W * bytes → Z * Z * (W * bytes));
  fn_write_persistent_value : option (bytes * option bytes → W → Z * unit * W);
  fn_handle_verification_result : option (GblEfiAvbVerificationResult → W → Z * unit * W);
}.
Arguments fn_validate_vbmeta_public_key {W}. Arguments fn_read_is_device_unlocked {W}.
Arguments fn_read_rollback_index {W}. Arguments fn_write_rollback_index {W}.
Arguments fn_read_persistent_value {W}. Arguments fn_write_persistent_value {W}.
Arguments fn_handle_verification_result {W}.

Module AvbProtocol.
Section Avb.
Context {W : Type} (p : Protocol (GblEfiAvbProtocol W)).
Abbreviation M := (ST W Error).

(** gbl/libefi/src/protocol/gbl_efi_avb.rs:38-66, [Protocol::validate_vbmeta_public_key]. *)
Definition validate_vbmeta_public_key (public_key : bytes) (public_key_metadata : option bytes) : M Z :=
  call_interface p (λ i, app_fn (fn_validate_vbmeta_public_key i) (public_key, public_key_metadata)).
(** gbl/libefi/src/protocol/gbl_efi_avb.rs:68-81, [Protocol::read_is_device_unlocked]. *)
Definition read_is_device_unlocked : M bool := call_interface p fn_read_is_device_unlocked.
(** gbl/libefi/src/protocol/gbl_efi_avb.rs:83-101, [Protocol::read_rollback_index]. *)
Definition read_rollback_index (index_location : Z) : M Z :=
  call_interface p (λ i, app_fn (fn_read_rollback_index i) index_location).
(** gbl/libefi/src/protocol/gbl_efi_avb.rs:103-118, [Protocol::write_rollback_index]. *)
Definition write_rollback_index (index_location rollback_index : Z) : M unit :=
  call_interface p (λ i, app_fn (fn_write_rollback_index i) (index_location, rollback_index)).
(** gbl/libefi/src/protocol/gbl_efi_avb.rs:120-148, [Protocol::read_persistent_value]: the size that the function
    stores. *)
Definition read_persistent_value (name : bytes) : ST (W * bytes) Error Z :=
  call_interface_bufsize p id (λ i, app_fn (fn_read_persistent_value i) name).
(** gbl/libefi/src/protocol/gbl_efi_avb.rs:150-174, [Protocol::write_persistent_value]. *)
Definition write_persistent_value (name : bytes) (value : option bytes) : M unit :=
  call_interface p (λ i, app_fn (fn_write_persistent_value i) (name, value)).
(** gbl/libefi/src/protocol/gbl_efi_avb.rs:176-192, [Protocol::handle_verification_result]. *)
Definition handle_verification_result (r : GblEfiAvbVerificationResult) : M unit :=
  call_interface p (λ i, app_fn (fn_handle_verification_result i) r).
End Avb.
End AvbProtocol.

(** ** Image buffers *)

Definition PARTITION_NAME_LEN_U16 : nat := 36.
(** [GblEfiImageInfo]. *)
Record GblEfiImageInfo := mkImageInfo { ImageType : list Z; ii_SizeBytes : Z }.
(** [GblEfiImageBuffer]. *)
Record GblEfiImageBuffer := mkGblBuffer { gb_Memory : Z; gb_SizeBytes : Z }.
(** [GblEfiImageLoadingProtocol]. *)
Record GblEfiImageLoadingProtocol (W : Type) := mkImageLoading {
  fn_get_buffer : option (GblEfiImageInfo → W → Z * GblEfiImageBuffer * W);
  fn_get_verify_partitions : option (unit → W * list (list Z) → Z * Z * (W * list (list Z)));
}.
Arguments fn_get_buffer {W}. Arguments fn_get_verify_partitions {W}.

(** gbl/libefi/src/protocol/gbl_efi_image_loading.rs:41-41, [MAX_ARRAY_SIZE]. *)
Definition MAX_ARRAY_SIZE : nat := 100.
(** gbl/libefi/src/protocol/gbl_efi_image_loading.rs:44-50, [EfiImageBuffer]: address and size, until it is taken. *)
Record EfiImageBuffer := mkEfiBuffer { eb_buffer : option (Z * Z) }.
(** gbl/libefi/src/protocol/gbl_efi_image_loading.rs:52-59, [EfiImageBufferInfo]. *)
Inductive EfiImageBufferInfo := Buffer (b : EfiImageBuffer) | AllocSize (n : Z).

(** The addresses of [RETURNED_BUFFERS]. *)
Abbreviation Returned := (ST (list Z) Error).

(** gbl/libefi/src/protocol/gbl_efi_image_loading.rs:80-114, [EfiImageBuffer::new]. *)
Definition efi_image_buffer_new (b : GblEfiImageBuffer) : Returned EfiImageBuffer :=
  if gb_Memory b =? 0 then raise InvalidInput else
  let addr := gb_Memory b in
  l ← gets id;
  if bool_decide (addr ∈ l) then raise AlreadyStarted else
  if (MAX_ARRAY_SIZE <=? length l)%nat then lift Panic else
  modify (λ l, l ++ [addr]);;
  mret (mkEfiBuffer (Some (addr, gb_SizeBytes b))).
(** gbl/libefi/src/protocol/gbl_efi_image_loading.rs:116-119, [EfiImageBuffer::take]: the memory, and what is left. *)
Definition efi_image_buffer_take (b : EfiImageBuffer) : result ((Z * Z) * EfiImageBuffer) :=
  v ← unwrap (eb_buffer b); Ok (v, mkEfiBuffer None).
(** gbl/libefi/src/protocol/gbl_efi_image_loading.rs:70-76, [EfiImageBufferInfo::take]: the rest of the buffer is dropped,
    which does nothing after it was taken. *)
Definition buffer_info_take (i : EfiImageBufferInfo) : result (option (Z * Z)) :=
  match i with
  | Buffer v => '(b, _) ← efi_image_buffer_take v; Ok (Some b)
  | AllocSize _ => Ok None
  end.

(** [ArrayVec::swap_remove]. *)
Definition array_swap_remove (i : nat) (l : list Z) : list Z :=
  match last l with
  | Some x => take (length l - 1) (<[i := x]> l)
  | None => l
  end.
(** gbl/libefi/src/protocol/gbl_efi_image_loading.rs:121-136, [EfiImageBuffer::release]. *)
Definition efi_image_buffer_release (address : Z) : Returned unit :=
  l ← gets id;
  match list_find (.= address) l with
  | Some (pos, _) => modify (array_swap_remove pos)
  | None => lift Panic
  end.
(** gbl/libefi/src/protocol/gbl_efi_image_loading.rs:140-149, [Drop::drop for EfiImageBuffer]. *)
Definition efi_image_buffer_drop (b : EfiImageBuffer) : Returned unit :=
  match eb_buffer b with None => mret tt | Some (addr, _) => efi_image_buffer_release addr end.

Module ImageLoading.
Section ImageLoading.
Context {W : Type} (p : Protocol (GblEfiImageLoadingProtocol W)).

(** gbl/libefi/src/protocol/gbl_efi_image_loading.rs:154-196, [Protocol::get_buffer]. *)
Definition get_buffer (info : GblEfiImageInfo) : ST (W * list Z) Error EfiImageBufferInfo :=
  gbl_buffer ← beside (call_interface_bufsize p (λ _, ii_SizeBytes info) (λ i, app_fn (fn_get_buffer i) info));
  if gb_SizeBytes gbl_buffer <? ii_SizeBytes info then raise (BufferTooSmall (Some (ii_SizeBytes info)))
  else if gb_Memory gbl_buffer =? 0 then mret (AllocSize (gb_SizeBytes gbl_buffer))
  else
    b ← zoom snd (λ l s, (fst s, l)) (efi_image_buffer_new gbl_buffer);
    mret (Buffer b).

(** gbl/libefi/src/protocol/gbl_efi_image_loading.rs:198-229, [Protocol::get_verify_partitions]. *)
Definition get_verify_partitions : ST (W * list (list Z)) Error Z :=
  call_interface_bufsize p id (λ i, app_fn (fn_get_verify_partitions i) tt).
End ImageLoading.
End ImageLoading.

(** ** OS configuration and device trees *)

(** [GblEfiDeviceTreeMetadata] and [GblEfiVerifiedDeviceTree]: the reserved field
    is zero. *)
Record GblEfiVerifiedDeviceTree := mkVerifiedDt {
  vd_source : Z; vd_id : Z; vd_rev : Z; vd_custom : list Z; vd_device_tree : Z; vd_selected : bool;
}.
(** [GblEfiOsConfigurationProtocol]. *)
Record GblEfiOsConfigurationProtocol (W : Type) := mkOsConfiguration {
  fn_fixup_kernel_commandline : option (bytes → W * bytes → Z * Z * (W * bytes));
  fn_fixup_bootconfig : option (bytes → W * bytes → Z * Z * (W * bytes));
  fn_select_device_trees : efi_fn (W * list GblEfiVerifiedDeviceTree) unit;
}.
Arguments fn_fixup_kernel_commandline {W}. Arguments fn_fixup_bootconfig {W}. Arguments fn_select_device_trees {W}.
(** [EfiDtFixupProtocol]: with the flags to apply fixups. *)
Record EfiDtFixupProtocol (W : Type) := mkDtFixup { fn_fixup : efi_fn (W * bytes) Z }.
Arguments fn_fixup {W}.

Module OsConfiguration.
Section OsConfiguration.
Context {W : Type} (p : Protocol (GblEfiOsConfigurationProtocol W)).

(** gbl/libefi/src/protocol/gbl_efi_os_configuration.rs:35-61, [Protocol::fixup_kernel_commandline]. *)
Definition fixup_kernel_commandline (commandline : bytes) : ST (W * bytes) Error unit :=
  s ← gets snd;
  if bool_decide (s = []) then raise InvalidInput else
  modify (λ s, (fst s, <[0%nat := 0]> (snd s)));;
  _ ← call_interface_bufsize p id (λ i, app_fn (fn_fixup_kernel_commandline i) commandline);
  mret tt.
(** gbl/libefi/src/protocol/gbl_efi_os_configuration.rs:63-89, [Protocol::fixup_bootconfig]. *)
Definition fixup_bootconfig (bootconfig : bytes) : ST (W * bytes) Error Z :=
  s ← gets snd;
  if bool_decide (s = []) then raise InvalidInput else
  call_interface_bufsize p id (λ i, app_fn (fn_fixup_bootconfig i) bootconfig).
(** gbl/libefi/src/protocol/gbl_efi_os_configuration.rs:91-108, [Protocol::select_device_trees]. *)
Definition select_device_trees : ST (W * list GblEfiVerifiedDeviceTree) Error unit :=
  call_interface p fn_select_device_trees.
End OsConfiguration.

(** gbl/libefi/src/protocol/dt_fixup.rs:34-55, [Protocol::fixup]. *)
Definition dt_fixup {W} (p : Protocol (EfiDtFixupProtocol W)) : ST (W * bytes) Error unit :=
  _ ← call_interface_bufsize p id fn_fixup; mret tt.
End OsConfiguration.

(** ** Fastboot *)

(** gbl/libefi/src/protocol/gbl_efi_fastboot.rs:33-36, [MAX_ARGS]. *)
Definition MAX_ARGS : nat := 16.
(** [GblEfiFastbootPolicy]. *)
Record GblEfiFastbootPolicy := mkPolicy { can_unlock : bool; has_critical_lock : bool; can_ram_boot : bool }.
(** [GblEfiFastbootProtocol]: [fn_get_var_all] tells what the callback is called with. *)
Record GblEfiFastbootProtocol (W : Type) := mkFastbootProtocol {
  fp_version : Z;
  fp_serial_number : bytes;
  fn_get_var : option (list bytes → W * bytes → Z * Z * (W * bytes));
  fn_get_var_all : efi_fn W (list (list bytes * bytes));
  fn_run_oem_function : option (bytes → W * bytes → Z * Z * (W * bytes));
  fn_get_policy : efi_fn W GblEfiFastbootPolicy;
  fn_set_lock : option (Z → W → Z * unit * W);
  fn_clear_lock : option (Z → W → Z * unit * W);
  fn_start_local_session : efi_fn W Z;
  fn_update_local_session : option (Z → W * bytes → Z * Z * (W * bytes));
  fn_close_local_session : option (Z → W → Z * unit * W);
  fn_get_partition_permissions : option (bytes → W → Z * Z * W);
  fn_wipe_user_data : efi_fn W unit;
  fn_should_stop_in_fastboot : option (W → bool * W);
}.
Arguments fp_version {W}. Arguments fp_serial_number {W}. Arguments fn_get_var {W}. Arguments fn_get_var_all {W}.
Arguments fn_run_oem_function {W}. Arguments fn_get_policy {W}. Arguments fn_set_lock {W}. Arguments fn_clear_lock {W}.
Arguments fn_start_local_session {W}. Arguments fn_update_local_session {W}. Arguments fn_close_local_session {W}.
Arguments fn_get_partition_permissions {W}. Arguments fn_wipe_user_data {W}. Arguments fn_should_stop_in_fastboot {W}.

Module FastbootProtocol.
Section Fastboot.
Context {W : Type} (p : Protocol (GblEfiFastbootProtocol W)).
Abbreviation M := (ST W Error).

(** gbl/libefi/src/protocol/gbl_efi_fastboot.rs:49-78, [Protocol::get_var]. *)
Definition get_var (var : bytes) (args : list bytes) : ST (W * bytes) Error Z :=
  if (MAX_ARGS <? 1 + length args)%nat then raise InvalidInput else
  call_interface_bufsize p id (λ i, app_fn (fn_get_var i) (var :: args)).
(** gbl/libefi/src/protocol/gbl_efi_fastboot.rs:80-136, [Protocol::get_var_all]: the calls of [cb], and how it ends. *)
Definition get_var_all (w : W) : list (list bytes * bytes) * result unit * W :=
  let limit c := if (MAX_ARGS <? length (fst c))%nat then ([str "<Number of arguments exceeds limit>"], []) else c in
  match interface p with
  | Ok i =>
      match fn_get_var_all i with
      | None => ([], Err NotFound, w)
      | Some f => let '(st, calls, w) := f w in (limit <$> calls, efi_status_to_result st, w)
      end
  | Err e => ([], Err e, w)
  | Panic => ([], Panic, w)
  end.
(** gbl/libefi/src/protocol/gbl_efi_fastboot.rs:138-162, [Protocol::run_oem_function]. *)
Definition run_oem_function (cmd : bytes) : ST (W * bytes) Error Z :=
  modify (λ s, (fst s, <[0%nat := 0]> (snd s)));;
  bufsize ← call_interface_bufsize p id (λ i, app_fn (fn_run_oem_function i) cmd);
  buffer ← gets snd;
  mret (Z.min bufsize (match list_find (.= 0) buffer with Some (n, _) => Z.of_nat n | None => zlen buffer end)).
(** gbl/libefi/src/protocol/gbl_efi_fastboot.rs:164-175, [Protocol::get_policy]. *)
Definition get_policy : M GblEfiFastbootPolicy := call_interface p fn_get_policy.
(** gbl/libefi/src/protocol/gbl_efi_fastboot.rs:177-184, [Protocol::set_lock]. *)
Definition set_lock (flags : Z) : M unit := call_interface p (λ i, app_fn (fn_set_lock i) flags).
(** gbl/libefi/src/protocol/gbl_efi_fastboot.rs:186-193, [Protocol::clear_lock]. *)
Definition clear_lock (flags : Z) : M unit := call_interface p (λ i, app_fn (fn_clear_lock i) flags).
(** gbl/libefi/src/protocol/gbl_efi_fastboot.rs:195-213, [Protocol::get_partition_permissions]. *)
Definition get_partition_permissions (part_name : bytes) : M Z :=
  call_interface p (λ i, app_fn (fn_get_partition_permissions i) part_name).
(** gbl/libefi/src/protocol/gbl_efi_fastboot.rs:215-224, [Protocol::start_local_session]. *)
Definition start_local_session : M Z := call_interface p fn_start_local_session.
(** gbl/libefi/src/protocol/gbl_efi_fastboot.rs:226-243, [Protocol::update_local_session]. *)
Definition update_local_session (ctx : Z) : ST (W * bytes) Error Z :=
  call_interface_bufsize p id (λ i, app_fn (fn_update_local_session i) ctx).
(** gbl/libefi/src/protocol/gbl_efi_fastboot.rs:245-252, [Protocol::close_local_session]. *)
Definition close_local_session (ctx : Z) : M unit := call_interface p (λ i, app_fn (fn_close_local_session i) ctx).
(** gbl/libefi/src/protocol/gbl_efi_fastboot.rs:254-261, [Protocol::wipe_user_data]. *)
Definition wipe_user_data : M unit := call_interface p fn_wipe_user_data.
(** gbl/libefi/src/protocol/gbl_efi_fastboot.rs:263-274, [Protocol::should_stop_in_fastboot]. *)
Definition proto_should_stop_in_fastboot (w : W) : bool * W :=
  match interface p with
  | Ok i => match fn_should_stop_in_fastboot i with Some f => f w | None => (false, w) end
  | _ => (false, w)
  end.
(** gbl/libefi/src/protocol/gbl_efi_fastboot.rs:276-281, [Protocol::serial_number]: an error of the encoding is
    [InvalidInput]. *)
Definition serial_number : result bytes :=
  i ← interface p;
  let s := fp_serial_number i in
  let null_idx := match list_find (.= 0) s with Some (n, _) => n | None => length s end in
  if is_utf8 (take null_idx s) then Ok (take null_idx s) else Err InvalidInput.
(** gbl/libefi/src/protocol/gbl_efi_fastboot.rs:283-286, [Protocol::version]. *)
Definition version : result Z := i ← interface p; Ok (fp_version i).
End Fastboot.
End FastbootProtocol.

(** ** Other protocols *)

(** [EfiInputKey]. *)
Record EfiInputKey := mkKey { scan_code : Z; unicode_char : Z }.
(** [EfiSimpleTextInputProtocol]. *)
Record EfiSimpleTextInputProtocol (W : Type) := mkTextInput {
  fn_ti_reset : option (bool → W → Z * unit * W);
  fn_read_key_stroke : efi_fn W EfiInputKey;
}.
Arguments fn_ti_reset {W}. Arguments fn_read_key_stroke {W}.
(** gbl/libefi/src/protocol/simple_text_input.rs:33-40, [Protocol::reset]. *)
Definition text_input_reset {W} (p : Protocol (EfiSimpleTextInputProtocol W)) (b : bool) : ST W Error unit :=
  call_interface p (λ i, app_fn (fn_ti_reset i) b).
(** gbl/libefi/src/protocol/simple_text_input.rs:42-58, [Protocol::read_key_stroke]. *)
Definition read_key_stroke {W} (p : Protocol (EfiSimpleTextInputProtocol W)) : ST W Error (option EfiInputKey) := λ w,
  let '(r, w) := call_interface p fn_read_key_stroke w in
  (match r with Ok key => Ok (Some key) | Err NotReady => Ok None | Err e => Err e | Panic => Panic end, w).

(** [EfiLoadedImageProtocol] and [EfiRiscvBootProtocol]. *)
Record EfiLoadedImageProtocol := mkLoadedImage { li_device_handle : Z }.
Record EfiRiscvBootProtocol (W : Type) := mkRiscv { rv_revision : Z; fn_get_boot_hartid : efi_fn W Z }.
Arguments rv_revision {W}. Arguments fn_get_boot_hartid {W}.
(** gbl/libefi/src/protocol/loaded_image.rs:33-36, [Protocol::device_handle]. *)
Definition device_handle (p : Protocol EfiLoadedImageProtocol) : result Z := i ← interface p; Ok (li_device_handle i).
(** gbl/libefi/src/protocol/riscv.rs:33-45, [Protocol::get_boot_hartid]. *)
Definition get_boot_hartid {W} (p : Protocol (EfiRiscvBootProtocol W)) : ST W Error Z := call_interface p fn_get_boot_hartid.
(** gbl/libefi/src/protocol/riscv.rs:47-50, [Protocol::revision]. *)
Definition revision {W} (p : Protocol (EfiRiscvBootProtocol W)) : result Z := i ← interface p; Ok (rv_revision i).
