(* ===== verification/EfiTimer.v ===== *)
(** * libefi: timers

    Models src/gbl/libefi/src/utils.rs, and [loop_with_timeout] and
    [wait_key_stroke] of src/gbl/efi/src/utils.rs. The loops poll the firmware's
    timer; they are given an amount of polls, and running out of it is the error
    [None] of the loops. *)

From S2P Require Import Prelude SafeMath LibError Text Async Efi EfiProtocols.

(** ** Polling with an amount of fuel *)

Abbreviation FST W A := (ST W (option Error) A).
Definition out_of_fuel {W A} : FST W A := raise None.
Definition fueled {W A} (m : ST W Error A) : FST W A := λ w, let '(r, w) := m w in (map_err Some r, w).
(** A caller that cannot tell the two kinds of errors apart: the firmware never
    ends the loop. *)
Definition completed {W A} (m : FST W A) : ST W Error A := λ w,
  let '(r, w) := m w in (match r with Ok a => Ok a | Err (Some e) => Err e | Err None | Panic => Panic end, w).

(** A closure that captures nothing. *)
Definition alone {W E A} (m : ST (W * unit) E A) : ST W E A := λ w, let '(r, (w, _)) := m (w, tt) in (r, w).

Definition EFI_TIMER_DELAY_TIMER_PERIODIC : Z := 1.
Definition EFI_TIMER_DELAY_TIMER_RELATIVE : Z := 2.

Section Timers.
Context {W : Type} (entry : EfiEntry W).
Abbreviation M := (ST W Error).

(** A timer event; if it cannot be started it is dropped. *)
Definition start_timer (delay_type timeout : Z) : M Event :=
  bs ← lift (boot_services entry);
  timer ← create_event bs Timer;
  r ← attempt (set_timer bs timer delay_type timeout);
  match r with
  | inl _ => mret timer
  | inr e => drop_event entry timer;; raise e
  end.

(** gbl/libefi/src/utils.rs:24-28, [Timeout]. *)
Record Timeout := mkTimeout { to_timer : Event }.
(** gbl/libefi/src/utils.rs:30-36, [Timeout::new]: the times are in nanoseconds. *)
Definition timeout_new (timeout : Z) : M Timeout :=
  t ← start_timer EFI_TIMER_DELAY_TIMER_RELATIVE timeout; mret (mkTimeout t).
(** gbl/libefi/src/utils.rs:38-41, [Timeout::check]. *)
Definition timeout_check (t : Timeout) : M bool :=
  bs ← lift (boot_services entry); check_event bs (to_timer t).
(** gbl/libefi/src/utils.rs:43-48, [Timeout::reset]. *)
Definition timeout_reset (t : Timeout) (timeout : Z) : M unit :=
  bs ← lift (boot_services entry); set_timer bs (to_timer t) EFI_TIMER_DELAY_TIMER_RELATIVE timeout.

(** gbl/libefi/src/utils.rs:79-83, [RecurringTimer]. *)
Record RecurringTimer := mkRecurring { rt_timer : Event }.
(** gbl/libefi/src/utils.rs:87-93, [RecurringTimer::new]. *)
Definition recurring_new (timeout : Z) : M RecurringTimer :=
  t ← start_timer EFI_TIMER_DELAY_TIMER_PERIODIC timeout; mret (mkRecurring t).
(** gbl/libefi/src/utils.rs:95-98, [RecurringTimer::check]. *)
Definition recurring_check (t : RecurringTimer) : M bool :=
  bs ← lift (boot_services entry); check_event bs (rt_timer t).
(** gbl/libefi/src/utils.rs:100-106, [RecurringTimer::wait]. *)
Fixpoint recurring_wait (fuel : nat) (t : RecurringTimer) : FST W unit :=
  match fuel with
  | 0%nat => out_of_fuel
  | S fuel => b ← fueled (recurring_check t); if b : bool then mret tt else recurring_wait fuel t
  end.

(** gbl/libefi/src/utils.rs:51-59, [wait]: the loop. *)
Fixpoint wait_loop (fuel : nat) (t : Timeout) : FST W unit :=
  match fuel with
  | 0%nat => out_of_fuel
  | S fuel => b ← fueled (timeout_check t); if b : bool then mret tt else wait_loop fuel t
  end.
(** gbl/libefi/src/utils.rs:51-59, [wait]. *)
Definition wait (fuel : nat) (duration : Z) : FST W unit :=
  t ← fueled (timeout_new duration); with_event entry (to_timer t) (wait_loop fuel t).

(** gbl/libefi/src/utils.rs:61-78, [with_timeout]: [select] polls the timer and then the future [fut], until one
    of them is ready. A future is polled with [fut], which is ready with [Some]. The
    timer is dropped when its future is ready, or at the end. *)
Fixpoint with_timeout_loop {A} (fuel : nat) (t : Timeout) (fut : M (option A)) : FST W (option A) :=
  match fuel with
  | 0%nat => out_of_fuel
  | S fuel =>
      timeout_res ← fueled (attempt (timeout_check t));
      match timeout_res with
      | inl false =>
          res ← fueled fut;
          match res with
          | Some a => fueled (drop_event entry (to_timer t));; mret (Some a)
          | None => with_timeout_loop fuel t fut
          end
      | inl true => fueled (drop_event entry (to_timer t));; fueled fut
      | inr e => fueled (drop_event entry (to_timer t));; _ ← fueled fut; raise (Some e)
      end
  end.
(** gbl/libefi/src/utils.rs:61-78, [with_timeout]. *)
Definition with_timeout {A} (fuel : nat) (fut : M (option A)) (timeout : Z) : FST W (option A) :=
  r ← fueled (attempt (timeout_new timeout));
  match r with
  | inl t => with_timeout_loop fuel t fut
  | inr e => _ ← fueled fut; raise (Some e)
  end.

(** gbl/efi/src/utils.rs:94-117, [loop_with_timeout]: the loop; the closure [f] works on the firmware and on what
    it captures. *)
Fixpoint timeout_loop {X R} (fuel : nat) (t : Timeout) (timeout_duration : Z) (f : ST (W * X) Error (R + bool))
    : FST (W * X) (option R) :=
  match fuel with
  | 0%nat => out_of_fuel
  | S fuel =>
      b ← fueled (beside (timeout_check t));
      if b : bool then mret None else
      r ← fueled f;
      match r with
      | inl v => mret (Some v)
      | inr true => fueled (beside (timeout_reset t timeout_duration));; timeout_loop fuel t timeout_duration f
      | inr false => timeout_loop fuel t timeout_duration f
      end
  end.
(** gbl/efi/src/utils.rs:94-117, [loop_with_timeout]. *)
Definition loop_with_timeout {X R} (fuel : nat) (timeout_duration : Z) (f : ST (W * X) Error (R + bool))
    : FST (W * X) (option R) :=
  t ← fueled (beside (timeout_new timeout_duration));
  with_drop (beside (drop_event entry (to_timer t))) (timeout_loop fuel t timeout_duration f).

(** gbl/efi/src/utils.rs:119-139, [wait_key_stroke]: an error of the keyboard ends the loop. *)
Definition wait_key_stroke `{!ProtocolInfo (EfiSimpleTextInputProtocol W)} (fuel : nat) (pred : EfiInputKey → bool)
    (timeout : Z) : FST W bool :=
  input ← fueled (find_first_and_open entry (EfiSimpleTextInputProtocol W));
  r ← alone (loop_with_timeout fuel timeout
        (r ← attempt (beside (read_key_stroke input));
         mret (match r with
               | inl (Some key) => if pred key then inl (inl true) else inr false
               | inl None => inr false
               | inr e => inl (inr e)
               end)));
  match r with
  | Some (inl b) => mret b
  | Some (inr e) => raise (Some e)
  | None => mret false
  end.
End Timers.
