(* ===== verification/EfiOps.v ===== *)
(** * efi: the platform operations on top of the firmware

    Models src/gbl/efi/src/ops.rs: the implementation of the platform interface
    of libgbl by protocols of the firmware, as instances of the classes that the
    boot flows are written against, with the lookups of src/gbl/efi/src/utils.rs.
    The state is the firmware with the global allocator and memory, the addresses
    of image buffers in use, and the fields of [Ops]; the disks are the devices
    of libgbl. *)

From S2P Require Import Prelude SafeMath LibError Text Utils Abr Slots Block Disk.
From S2P Require Import Partition GblOps.
From S2P Require Import BootParams Avb ImageBuffer FuchsiaBoot Misc DtTable Fdt DeviceTree.
From S2P Require Import AndroidLoad Libc.
From S2P Require Import Efi EfiMem EfiAlloc EfiProtocols EfiTimer.
Import SafeNum.

(** ** Protocols *)

(** Where the interfaces of the protocols are in memory. *)
Class Firmware (W : Type) := {
  avb_at : Z → option (GblEfiAvbProtocol W);
  image_loading_at : Z → option (GblEfiImageLoadingProtocol W);
  os_configuration_at : Z → option (GblEfiOsConfigurationProtocol W);
  dt_fixup_at : Z → option (EfiDtFixupProtocol W);
  fastboot_at : Z → option (GblEfiFastbootProtocol W);
  text_input_at : Z → option (EfiSimpleTextInputProtocol W);
}.

Section Infos.
Context {W : Type} `{!Firmware W}.
(** gbl/libefi/src/protocol/gbl_efi_avb.rs:29-34, [ProtocolInfo for GblAvbProtocol]. *)
#[export] Instance AvbInfo : ProtocolInfo (GblEfiAvbProtocol W) := {|
  GUID := mkGuid 0x6bc66b9a 0xd5c9 0x4c02 [0x9d; 0xa9; 0x50; 0xaf; 0x19; 0x8d; 0x91; 0x2c]; interface_at := avb_at |}.
(** gbl/libefi/src/protocol/gbl_efi_image_loading.rs:31-36, [ProtocolInfo for GblImageLoadingProtocol]. *)
#[export] Instance ImageLoadingInfo : ProtocolInfo (GblEfiImageLoadingProtocol W) := {|
  GUID := mkGuid 0xdb84b4fa 0x53bd 0x4436 [0x98; 0xa7; 0x4e; 0x02; 0x71; 0x42; 0x8b; 0xa8]; interface_at := image_loading_at |}.
(** gbl/libefi/src/protocol/gbl_efi_os_configuration.rs:26-31, [ProtocolInfo for GblOsConfigurationProtocol]. *)
#[export] Instance OsConfigurationInfo : ProtocolInfo (GblEfiOsConfigurationProtocol W) := {|
  GUID := mkGuid 0xdda0d135 0xaa5b 0x42ff [0x85; 0xac; 0xe3; 0xad; 0x6e; 0xfb; 0x46; 0x19]; interface_at := os_configuration_at |}.
(** gbl/libefi/src/protocol/dt_fixup.rs:25-30, [ProtocolInfo for DtFixupProtocol]. *)
#[export] Instance DtFixupInfo : ProtocolInfo (EfiDtFixupProtocol W) := {|
  GUID := mkGuid 0xe617d64c 0xfe08 0x46da [0xf4; 0xdc; 0xbb; 0xd5; 0x87; 0x0c; 0x73; 0x00]; interface_at := dt_fixup_at |}.
(** gbl/libefi/src/protocol/gbl_efi_fastboot.rs:38-43, [ProtocolInfo for GblFastbootProtocol]. *)
#[export] Instance FastbootInfo : ProtocolInfo (GblEfiFastbootProtocol W) := {|
  GUID := mkGuid 0xc67e48a0 0x5eb8 0x4127 [0xbe; 0x89; 0xdf; 0x2e; 0xd9; 0x3d; 0x8a; 0x9a]; interface_at := fastboot_at |}.
(** gbl/libefi/src/protocol/simple_text_input.rs:25-30, [ProtocolInfo for SimpleTextInputProtocol]. *)
#[export] Instance TextInputInfo : ProtocolInfo (EfiSimpleTextInputProtocol W) := {|
  GUID := mkGuid 0x387477c1 0x69c7 0x11d2 [0x8e; 0x39; 0x00; 0xa0; 0xc9; 0x69; 0x72; 0x3b]; interface_at := text_input_at |}.
End Infos.

(** ** Conversions *)

(** gbl/efi/src/ops.rs:71-80, [to_avb_validation_status_or_panic]. *)
Definition to_avb_validation_status_or_panic (status : Z) : IoResult KeyValidationStatus :=
  match status with 0 => Ok ValidKey | 1 => Ok ValidCustomKey | 2 => Ok InvalidKey | _ => Panic end.

(** gbl/efi/src/ops.rs:82-90, [avb_color_to_efi_color]. *)
Definition avb_color_to_efi_color (c : BootStateColor) : Z :=
  match c with Green => 0 | Yellow => 1 | Orange => 2 | RedEio => 3 | Red => 4 end.

(** gbl/efi/src/ops.rs:92-113, [dt_component_to_efi_dt]. *)
Definition dt_component_to_efi_dt (c : DeviceTreeComponent) : GblEfiVerifiedDeviceTree :=
  let m := default (mkDtMetadata 0 0 [0; 0; 0; 0]) (metadata c) in
  mkVerifiedDt (match source c with SBoot => 0 | SVendorBoot => 1 | SDtb => 3 | SDtbo => 2 end)
    (md_id m) (md_rev m) (md_custom m) (dt_addr c) (is_selected c).

(** gbl/efi/src/ops.rs:115-135, [efi_error_to_avb_error]. *)
Definition efi_error_to_avb_error (e : Error) : IoError :=
  match e with
  | OutOfResources => Oom
  | DeviceError => Io
  | NotFound => NoSuchValue
  | EndOfFile => RangeOutsidePartition
  | InvalidInput => InvalidValueSize
  | BufferTooSmall required => InsufficientSpace (default 0 required)
  | _ => IoNotImplemented
  end.

(** gbl/efi/src/ops.rs:703-713, [efi_to_gbl_boot_reason]. *)
Definition efi_to_gbl_boot_reason (reason : Z) : RebootReason :=
  match reason with 3 => RRecovery | 55 => RBootloader | 196 => RFastbootD | _ => RNormal end.
(** gbl/efi/src/ops.rs:715-725, [gbl_to_efi_boot_reason]. *)
Definition gbl_to_efi_boot_reason (r : RebootReason) : Z :=
  match r with RRecovery => 3 | RBootloader => 55 | RFastbootD => 196 | RNormal => 56 end.

(** ** The state *)

(** gbl/efi/src/ops.rs:154-159, [Ops]: with the machine, the addresses of [RETURNED_BUFFERS], and where the
    buffer of bootloader files is. *)
Record Ops (W : Type) := mkOps {
  op_entry : EfiEntry W;
  op_machine : Machine W;
  op_returned : list Z;
  zbi_bootloader_files_buffer : Z * bytes;
  op_os : option Os;
}.
Arguments mkOps {W}. Arguments op_entry {W}. Arguments op_machine {W}. Arguments op_returned {W}.
Arguments zbi_bootloader_files_buffer {W}. Arguments op_os {W}.

Definition set_machine {W} (m : Machine W) (o : Ops W) : Ops W :=
  mkOps (op_entry o) m (op_returned o) (zbi_bootloader_files_buffer o) (op_os o).
Definition set_returned {W} (l : list Z) (o : Ops W) : Ops W :=
  mkOps (op_entry o) (op_machine o) l (zbi_bootloader_files_buffer o) (op_os o).
Definition set_files {W} (v : Z * bytes) (o : Ops W) : Ops W :=
  mkOps (op_entry o) (op_machine o) (op_returned o) v (op_os o).
Definition firmware_of {W} (o : Ops W) : W := mc_firmware (op_machine o).
Definition set_firmware {W} (w : W) (o : Ops W) : Ops W :=
  set_machine (mkMachine (mc_allocator (op_machine o)) w (mc_memory (op_machine o))) o.

(** The error of a call, converted. *)
Definition errs {S E E' A} (f : E → E') (m : ST S E A) : ST S E' A := λ s, let '(r, s) := m s in (map_err f r, s).

Section Ops.
Context {W : Type} `{!Firmware W} `{!LibFdt}.

(** Code of libefi; and code that works on a structure of its caller, too. *)
Definition on_w {E A} (m : EfiEntry W → ST W E A) : ST (Ops W) E A :=
  entry ← gets op_entry; zoom firmware_of set_firmware (m entry).
Definition on_wx {X E A} (m : EfiEntry W → ST (W * X) E A) : ST (Ops W * X) E A :=
  entry ← gets (op_entry ∘ fst);
  zoom (λ s, (firmware_of (fst s), snd s)) (λ t s, (set_firmware (fst t) (fst s), snd t)) (m entry).

(** A protocol that may be missing. *)
Definition opened (T : Type) `{!ProtocolInfo T} {E} (entry : EfiEntry W) : ST W E (Protocol T + Error) := λ w,
  let '(r, w) := find_first_and_open entry T w in
  (match r with Ok p => Ok (inl p) | Err e => Ok (inr e) | Panic => Panic end, w).

(** gbl/efi/src/ops.rs:162-165, [Ops::new]. *)
Definition ops_new (entry : EfiEntry W) (os : option Os) (m : Machine W) (returned : list Z) : Ops W :=
  mkOps entry m returned (1, []) os.

(** ** The device tree of the firmware *)

(** gbl/efi/src/utils.rs:33-34, [EFI_DTB_TABLE_GUID]. *)
Definition EFI_DTB_TABLE_GUID : EfiGuid :=
  mkGuid 0xb1b621d5 0xf19c 0x41a5 [0x83; 0x0b; 0xd9; 0x15; 0x2c; 0x69; 0xaa; 0xe0].

(** gbl/efi/src/utils.rs:59-70, [get_efi_fdt]: where the tree is, its header and its bytes. *)
Definition get_efi_fdt {E} (entry : EfiEntry W) (m : Memory) : outcome E (option (Z * (bytes * bytes))) :=
  config_tables ← unwrap_res (configuration_table entry);
  match list_find (λ t, vendor_guid t = EFI_DTB_TABLE_GUID) (default [] config_tables) with
  | Some (_, table) =>
      let a := vendor_table table in
      let tree := from_raw a (mem_read m a (Z.max FDT_HEADER_SIZE (totalsize (mem_read m a FDT_HEADER_SIZE)))) in
      res_ok (p ← tree; Ok (a, p))
  | None => Ok None
  end.

(** gbl/efi/src/ops.rs:167-174, [Ops::get_efi_fdt_prop]. *)
Definition get_efi_fdt_prop {E} (path prop : bytes) : ST (Ops W) E (option bytes) :=
  o ← gets id;
  r ← lift (get_efi_fdt (op_entry o) (mc_memory (op_machine o)));
  match r with
  | None => mret None
  | Some (addr, (_, fdt_bytes)) => lift (res_ok (fdt ← fdt_new addr fdt_bytes; get_property fdt path prop))
  end.

(** gbl/efi/src/ops.rs:474-479, [GblOps::get_custom_device_tree for Ops]. *)
Definition efi_get_custom_device_tree : ST (Ops W) Error (option (Z * bytes)) :=
  o ← gets id;
  r ← lift (get_efi_fdt (op_entry o) (mc_memory (op_machine o)));
  mret ((λ x, (fst x, snd (snd x))) <$> r).

(** ** Image buffers *)

(** gbl/efi/src/ops.rs:137-152, [get_buffer_from_protocol]. *)
Definition get_buffer_from_protocol (image_name : bytes) (size : Z) : ST (Ops W) Error EfiImageBufferInfo :=
  let units := take PARTITION_NAME_LEN_U16 (encode_utf16 (default [] (decode_utf8 image_name))) in
  let image_type := units ++ replicate (PARTITION_NAME_LEN_U16 - length units) 0 in
  entry ← gets op_entry;
  zoom (λ o, (firmware_of o, op_returned o)) (λ s o, set_returned (snd s) (set_firmware (fst s) o))
    (p ← beside (find_first_and_open entry (GblEfiImageLoadingProtocol W));
     ImageLoading.get_buffer p (mkImageInfo image_type size)).

(** The buffer at an address. *)
Definition image_at (m : Memory) (ptr size : Z) : ImageBuffer := image_new ptr (mem_read m ptr size).

(** gbl/efi/src/ops.rs:176-199, [Ops::get_buffer_image_loading]. *)
Definition get_buffer_image_loading (image_name : bytes) (size : Z) : ST (Ops W) Error ImageBuffer :=
  info ← get_buffer_from_protocol image_name size;
  b ← lift (buffer_info_take info);
  '(ptr, n) ← lift (ok_or b InvalidState);
  m ← gets (mc_memory ∘ op_machine);
  mret (image_at m ptr n).

(** gbl/libgbl/src/constants.rs:55-56, [BOOTCMD_SIZE]. *)
Definition BOOTCMD_SIZE : Z := 16 * 1024.

(** gbl/efi/src/ops.rs:201-248, [Ops::allocate_image_buffer]. *)
Definition allocate_image_buffer (image_name : bytes) (size : Z) : ST (Machine W) Error ImageBuffer :=
  size ← lift (if bool_decide (image_name = str "ramdisk")
               then into_u64 (from_int here TUsize size +! from_int here TUsize BOOTCMD_SIZE) else Ok size);
  lift (assert_that (size <? 2 ^ 63 - 1));;
  let align := match image_name_try_from image_name with Ok i => image_alignment i | _ => 1 end in
  layout ← lift (ok_or (layout size align) InvalidAlignment);
  ptr ← alloc layout;
  if ptr =? 0 then lift Panic else
  m ← gets mc_memory;
  mret (image_at m ptr size).

(** gbl/efi/src/ops.rs:464-472, [GblOps::get_image_buffer for Ops]: the argument of [or] is evaluated first. *)
Definition efi_get_image_buffer (image_name : bytes) (size : Z) : ST (Ops W) Error ImageBuffer :=
  res ← attempt (get_buffer_image_loading image_name size);
  alt ← attempt (zoom op_machine set_machine (allocate_image_buffer image_name size));
  match res, alt with
  | inl v, _ => mret v
  | inr _, inl v => mret v
  | inr _, inr e => raise e
  end.

(** ** Fuchsia *)

(** gbl/efi/src/ops.rs:309-319, [GblOps::zircon_add_device_zbi_items for Ops]. *)
Definition efi_add_device_zbi_items {ZE} `{!ZbiLib ZE} : ST (Ops W * bytes) Error unit :=
  blob ← zoom fst (λ o s, (o, snd s)) (get_efi_fdt_prop (str "zircon") (str "zbi-blob"));
  match blob with
  | Some blob =>
      errs (λ _, error_of_str "Failed to append ZBI") (zoom snd (λ b s, (fst s, b)) (extend_unaligned blob))
  | None => mret tt
  end.

(** gbl/efi/src/ops.rs:321-328, [GblOps::get_zbi_bootloader_files_buffer for Ops]: the vector allocates when it is
    used for the first time. *)
Definition efi_get_zbi_bootloader_files_buffer : ST (Ops W) Error (option (Z * bytes)) :=
  let DEFAULT_SIZE := 4096 in
  v ← gets zbi_bootloader_files_buffer;
  if bool_decide (snd v = []) then
    ptr ← zoom op_machine set_machine (alloc (mkLayout DEFAULT_SIZE 1));
    if ptr =? 0 then lift Panic else
    let v := (ptr, replicate (Z.to_nat DEFAULT_SIZE) 0) in
    modify (set_files v);;
    mret (Some v)
  else mret (Some v).
End Ops.

(** ** Verified boot *)

Section Avb.
Context {W : Type} `{!Firmware W} `{!LibFdt}.
Abbreviation OpsIo := (ST (Ops W) IoError).

(** A call of the AVB protocol; [missing] without it. *)
Definition avb_call {A} (missing : IoResult A) (m : Protocol (GblEfiAvbProtocol W) → ST W Error A) : OpsIo A :=
  on_w (λ entry,
    r ← opened (GblEfiAvbProtocol W) entry;
    match r with
    | inl protocol => errs efi_error_to_avb_error (m protocol)
    | inr _ => lift missing
    end).
Abbreviation avb_optional m := (avb_call (Err IoNotImplemented) m).

(** gbl/efi/src/ops.rs:338-344, [GblOps::avb_read_is_device_unlocked for Ops]. *)
Definition efi_read_is_device_unlocked : OpsIo bool := avb_optional AvbProtocol.read_is_device_unlocked.
(** gbl/efi/src/ops.rs:346-354, [GblOps::avb_read_rollback_index for Ops]. *)
Definition efi_read_rollback_index (location : Z) : OpsIo Z :=
  avb_optional (λ p, AvbProtocol.read_rollback_index p location).
(** gbl/efi/src/ops.rs:356-368, [GblOps::avb_write_rollback_index for Ops]. *)
Definition efi_write_rollback_index (location index : Z) : OpsIo unit :=
  avb_optional (λ p, AvbProtocol.write_rollback_index p location index).
(** gbl/efi/src/ops.rs:370-378, [GblOps::avb_read_persistent_value for Ops]. *)
Definition efi_read_persistent_value (name : bytes) : ST (Ops W * bytes) IoError Z :=
  on_wx (λ entry,
    r ← beside (opened (GblEfiAvbProtocol W) entry);
    match r with
    | inl protocol => errs efi_error_to_avb_error (AvbProtocol.read_persistent_value protocol name)
    | inr _ => raise IoNotImplemented
    end).
(** gbl/efi/src/ops.rs:380-388, [GblOps::avb_write_persistent_value for Ops]. *)
Definition efi_write_persistent_value (name value : bytes) : OpsIo unit :=
  avb_optional (λ p, AvbProtocol.write_persistent_value p name (Some value)).
(** gbl/efi/src/ops.rs:390-398, [GblOps::avb_erase_persistent_value for Ops]. *)
Definition efi_erase_persistent_value (name : bytes) : OpsIo unit :=
  avb_optional (λ p, AvbProtocol.write_persistent_value p name None).
(** gbl/efi/src/ops.rs:400-413, [GblOps::avb_validate_vbmeta_public_key for Ops]. *)
Definition efi_validate_vbmeta_public_key (public_key : bytes) (public_key_metadata : option bytes) : OpsIo KeyValidationStatus :=
  status ← avb_optional (λ p, AvbProtocol.validate_vbmeta_public_key p public_key public_key_metadata);
  lift (to_avb_validation_status_or_panic status).
(** gbl/efi/src/ops.rs:415-425, [GblOps::avb_cert_read_permanent_attributes for Ops]: [clone_from_slice] panics when
    the lengths differ. *)
Definition efi_cert_read_permanent_attributes : ST (Ops W * bytes) IoError unit :=
  prop ← zoom fst (λ o s, (o, snd s)) (get_efi_fdt_prop (str "gbl") (str "avb-cert-permanent-attributes"));
  perm_attr ← lift (ok_or prop IoNotImplemented);
  attributes ← gets snd;
  lift (assert_that (zlen attributes =? zlen perm_attr));;
  modify (λ s, (fst s, perm_attr)).
(** [SHA256_DIGEST_SIZE] of libavb. *)
Definition SHA256_DIGEST_SIZE : Z := 32.
(** gbl/efi/src/ops.rs:427-433, [GblOps::avb_cert_read_permanent_attributes_hash for Ops]. *)
Definition efi_cert_read_permanent_attributes_hash : OpsIo bytes :=
  prop ← get_efi_fdt_prop (str "gbl") (str "avb-cert-permanent-attributes-hash");
  hash ← lift (ok_or prop IoNotImplemented);
  if zlen hash =? SHA256_DIGEST_SIZE then mret hash else raise Io.
(** gbl/efi/src/ops.rs:435-462, [GblOps::avb_handle_verification_result for Ops]. *)
Definition efi_handle_verification_result (color : BootStateColor) (digest : option bytes) (versions : list (option bytes))
    : OpsIo unit :=
  avb_call (Ok tt) (λ p, AvbProtocol.handle_verification_result p
                           (mkVerificationResult (avb_color_to_efi_color color) digest versions)).

#[export] Instance OpsAvb : AvbPlatform (Ops W) := {|
  preloaded_reads _ := [];
  avb_read_is_device_unlocked := efi_read_is_device_unlocked;
  avb_read_rollback_index := efi_read_rollback_index;
  avb_write_rollback_index := efi_write_rollback_index;
  avb_read_persistent_value := efi_read_persistent_value;
  avb_write_persistent_value := efi_write_persistent_value;
  avb_erase_persistent_value := efi_erase_persistent_value;
  avb_validate_vbmeta_public_key := efi_validate_vbmeta_public_key;
  avb_cert_read_permanent_attributes := efi_cert_read_permanent_attributes;
  avb_cert_read_permanent_attributes_hash := efi_cert_read_permanent_attributes_hash;
  avb_handle_verification_result := efi_handle_verification_result;
|}.

#[export] Instance OpsFuchsia {ZE} `{!ZbiLib ZE} : FuchsiaPlatform (Ops W) := {|
  get_image_buffer := efi_get_image_buffer;
  zircon_add_device_zbi_items := efi_add_device_zbi_items;
  get_zbi_bootloader_files_buffer := efi_get_zbi_bootloader_files_buffer;
|}.
End Avb.

(** ** Android *)

Section Android.
Context {W : Type} `{!Firmware W} `{!LibFdt} `{!DtTableLayout}.
Abbreviation Fix X := (ST (Ops W * X) Error).

(** A call of a protocol that is optional; [missing] if there is none. *)
Definition optional_call {T X A} `{!ProtocolInfo T} (missing : ST (W * X) Error A) (m : Protocol T → ST (W * X) Error A)
    : Fix X A :=
  on_wx (λ entry,
    r ← beside (opened T entry);
    match r with
    | inl protocol => m protocol
    | inr NotFound => missing
    | inr e => raise e
    end).

(** gbl/efi/src/ops.rs:481-500, [GblOps::fixup_os_commandline for Ops]: the length of the new text. *)
Definition efi_fixup_os_commandline (commandline : bytes) : Fix bytes (option Z) :=
  optional_call (mret None) (λ protocol,
    OsConfiguration.fixup_kernel_commandline protocol commandline;;
    fixup_buffer ← gets snd;
    s ← lift (cstr_bytes_to_str fixup_buffer);
    mret (Some (zlen s))).
(** gbl/efi/src/ops.rs:502-521, [GblOps::fixup_bootconfig for Ops]: the length of the new bootconfig. *)
Definition efi_fixup_bootconfig (bootconfig : bytes) : Fix bytes (option Z) :=
  optional_call (mret None) (λ protocol,
    fixup_size ← OsConfiguration.fixup_bootconfig protocol bootconfig;
    fixup_buffer ← gets snd;
    lift (assert_that (fixup_size <=? zlen fixup_buffer));;
    mret (Some fixup_size)).
(** gbl/efi/src/ops.rs:523-531, [GblOps::fixup_device_tree for Ops]. *)
Definition efi_fixup_device_tree : Fix bytes unit := optional_call (mret tt) OsConfiguration.dt_fixup.

(** [component.selected = ...]. *)
Definition set_selected (c : DeviceTreeComponent) (b : bool) : DeviceTreeComponent :=
  mkComponent (source c) (metadata c) (dt_addr c) (dt c) b.
(** gbl/efi/src/ops.rs:533-577, [GblOps::select_device_trees for Ops]: the protocol changes the array that it gets,
    and only the selection is taken from it. *)
Definition efi_select_device_trees : Fix DeviceTreeComponentsRegistry unit :=
  optional_call (zoom snd (λ r s, (fst s, r)) autoselect) (λ protocol,
    r ← gets snd;
    let uefi_components := dt_component_to_efi_dt <$> components r in
    uefi_components ← zoom (λ s, (fst s, uefi_components)) (λ t s, (fst t, snd s))
                        (OsConfiguration.select_device_trees protocol;; gets snd);
    modify (λ s, (fst s, mkRegistry (zip_with (λ c u, set_selected c (vd_selected u)) (components r) uefi_components
                                     ++ drop (length uefi_components) (components r))))).

#[export] Instance OpsAndroid : AndroidPlatform (Ops W) := {|
  fixup_bootconfig := efi_fixup_bootconfig;
  get_custom_device_tree := efi_get_custom_device_tree;
  fixup_os_commandline := efi_fixup_os_commandline;
  select_device_trees := efi_select_device_trees;
  fixup_device_tree := efi_fixup_device_tree;
|}.

(** ** Boot decisions and fastboot *)

(** How often a loop may look at a timer. *)
Context (polls : nat).

(** gbl/efi/src/ops.rs:268-289, [GblOps::should_stop_in_fastboot for Ops]. *)
Definition efi_should_stop_in_fastboot : ST (Ops W) Error bool :=
  prop ← get_efi_fdt_prop (str "gbl") (str "stop-in-fastboot");
  match prop with
  | Some v => mret (default 0 (head v) =? 1)
  | None =>
      let backspace key := (unicode_char key =? 0x08) || ((unicode_char key =? 0) && (scan_code key =? 0x08)) in
      errs (λ _, error_of_str "wait for key stroke error")
        (on_w (λ entry, completed (wait_key_stroke entry polls backspace (2 * 10 ^ 9))))
  end.
(** gbl/efi/src/ops.rs:291-294, [GblOps::reboot for Ops]: the state in which the call does not return. *)
Definition efi_reboot (o : Ops W) : Ops W :=
  snd (on_w (λ entry, rt ← lift (runtime_services entry); cold_reset rt) o).
(** gbl/efi/src/ops.rs:305-307, [GblOps::expected_os for Ops]. *)
Definition efi_expected_os : ST (Ops W) Error (option Os) := gets op_os.
(** gbl/efi/src/ops.rs:579-590, [GblOps::fastboot_variable for Ops]. *)
Definition efi_fastboot_variable (name : bytes) (args : list bytes) : Fix bytes Z :=
  on_wx (λ entry,
    p ← beside (find_first_and_open entry (GblEfiFastbootProtocol W));
    FastbootProtocol.get_var p name args).
(** gbl/efi/src/ops.rs:592-603, [GblOps::fastboot_visit_all_variables for Ops]. *)
Definition efi_fastboot_visit_all_variables (o : Ops W) : list (list bytes * bytes) * result unit * Ops W :=
  match on_w (E := Error) (opened (GblEfiFastbootProtocol W)) o with
  | (Ok (inl v), o) => let '(calls, r, w) := FastbootProtocol.get_var_all v (firmware_of o) in (calls, r, set_firmware w o)
  | (Ok (inr NotFound), o) => ([], Ok tt, o)
  | (Ok (inr e), o) => ([], Err e, o)
  | (Err e, o) => ([], Err e, o)
  | (Panic, o) => ([], Panic, o)
  end.

(** gbl/efi/src/ops.rs:619-625, [GblOps::get_current_slot for Ops]. *)
Definition efi_get_current_slot : ST (Ops W) Error Slot := raise Unsupported.
(** gbl/efi/src/ops.rs:627-631, [GblOps::get_next_slot for Ops]. *)
Definition efi_get_next_slot (_ : bool) : ST (Ops W) Error Slot := raise Unsupported.
(** gbl/efi/src/ops.rs:633-637, [GblOps::set_active_slot for Ops]. *)
Definition efi_set_active_slot (_ : Z) : ST (Ops W) Error unit := raise Unsupported.
(** gbl/efi/src/ops.rs:645-649, [GblOps::get_reboot_reason for Ops]. *)
Definition efi_get_reboot_reason : ST (Ops W) Error RebootReason := raise Unsupported.

#[export] Instance OpsGblOps : GblOps (Ops W) := {|
  should_stop_in_fastboot := efi_should_stop_in_fastboot;
  platform_reboot := efi_reboot;
  expected_os := efi_expected_os;
  get_current_slot := efi_get_current_slot;
  get_next_slot := efi_get_next_slot;
  platform_set_active_slot := efi_set_active_slot;
  get_reboot_reason := efi_get_reboot_reason;
  fastboot_variable := efi_fastboot_variable;
  fastboot_visit_all_variables := efi_fastboot_visit_all_variables;
|}.
End Android.
