(* ===== verification/EfiOpsProps.v ===== *)
(** * The platform operations of the EFI application

    What verified boot decides from the answers of the firmware's AVB protocol,
    and what holds of the buffers that images are loaded to. *)

From S2P Require Import Prelude SafeMath LibError Text Utils Abr Slots Block Disk.
From S2P Require Import Partition GblOps.
From S2P Require Import BootParams Avb ImageBuffer FuchsiaBoot Misc DtTable Fdt DeviceTree.
From S2P Require Import AndroidLoad Libc.
From S2P Require Import Efi EfiMem EfiAlloc EfiProtocols EfiTimer EfiOps.
Import SafeNum.

(** ** Answers of the AVB protocol *)

(** The codes that [efi_error_to_avb_error] does not tell apart. *)
Definition unmapped (st : Z) : Prop :=
  st ≠ EFI_STATUS_SUCCESS ∧
  st ∉ [EFI_STATUS_OUT_OF_RESOURCES; EFI_STATUS_DEVICE_ERROR; EFI_STATUS_NOT_FOUND; EFI_ERR 31;
        EFI_STATUS_INVALID_PARAMETER; EFI_STATUS_BUFFER_TOO_SMALL].
#[export] Instance unmapped_dec st : Decision (unmapped st).
Proof. apply _. Defined.

Lemma status_ok st : efi_status_to_result st = Ok tt ↔ st = EFI_STATUS_SUCCESS.
Proof. unfold efi_status_to_result. destruct (st =? EFI_STATUS_SUCCESS) eqn:E; bools; naive_solver. Qed.

Lemma status_unmapped st e :
  efi_status_to_result st = Err e → efi_error_to_avb_error e = IoNotImplemented ↔ unmapped st.
Proof.
  unfold efi_status_to_result, unmapped. destruct (st =? EFI_STATUS_SUCCESS) eqn:E; [done|]. bools. intros [= <-].
  cbv [EFI_STATUS_OUT_OF_RESOURCES EFI_STATUS_DEVICE_ERROR EFI_STATUS_NOT_FOUND EFI_STATUS_INVALID_PARAMETER
       EFI_STATUS_BUFFER_TOO_SMALL EFI_ERR]. rewrite !not_elem_of_cons.
  destruct (st - (2 ^ 63 + 0)) as [|p|p] eqn:Hp.
  1,3: cbn; split; [intros _; repeat split; try done; try lia; apply not_elem_of_nil|done].
  do 7 (try destruct p as [p|p|]); cbn; split; try done; intros H;
    solve [exfalso; destruct_and!; lia|repeat split; try done; try lia; apply not_elem_of_nil].
Qed.

Section Answers.
Context {D W : Type} `{!BlockIo D} `{!Firmware W} {fdt : LibFdt} `{!LibAvb D (Ops W)}.
Implicit Types a : GblAvbOps D (Ops W).
Abbreviation AvbInterface := (GblEfiAvbProtocol W).

Lemma avb_call_run {A} missing (m : Protocol AvbInterface → ST W Error A) (o : Ops W) rp w1 :
  find_first_and_open (op_entry o) AvbInterface (firmware_of o) = (rp, w1) →
  fst (avb_call missing m o) =
    match rp with
    | Ok p => map_err efi_error_to_avb_error (fst (m p w1))
    | Err _ => missing
    | Panic => Panic
    end.
Proof.
  intros H. unfold avb_call, on_w. rewrite bind_run, gets_run. unfold zoom. rewrite bind_run. unfold opened. rewrite H.
  destruct rp as [p|e|]; cbn; try done. unfold errs. by destruct (m p w1).
Qed.

Lemma fallback_run {A} (v : A) (m : ST (Ops W) IoError A) a :
  fst (fallback_not_implemented v (on_gbl m) a) =
    match fst (m (ao_gbl a)) with Err IoNotImplemented => Ok v | r => r end.
Proof.
  unfold fallback_not_implemented, on_gbl, zoom. destruct (m (ao_gbl a)) as [[x|[]|] o]; done.
Qed.

(** What the firmware answers to a call of the AVB protocol: the protocol is there,
    it has the function, and it returns this status and value. *)
Definition answers {A} (rp : result (Protocol AvbInterface)) (w1 : W) (fn : AvbInterface → efi_fn W A) (st : Z) (v : A) : Prop :=
  ∃ p i f w2, rp = Ok p ∧ pr_interface p = Some i ∧ fn i = Some f ∧ f w1 = (st, v, w2).

Lemma answers_ok {A} p w1 (fn : AvbInterface → efi_fn W A) st v :
  answers (Ok p) w1 fn st v ↔
    match pr_interface p with
    | Some i => match fn i with Some f => fst (f w1) = (st, v) | None => False end
    | None => False
    end.
Proof.
  unfold answers. split.
  - by intros (p' & i & f & w2 & [= <-] & -> & -> & ->).
  - destruct (pr_interface p) as [i|] eqn:Hi; [|done]. destruct (fn i) as [f|] eqn:Hf; [|done].
    destruct (f w1) as [[? ?] w2] eqn:Hw. intros [= -> ->]. by eexists p, i, f, w2.
Qed.
Lemma answers_none {A} rp w1 (fn : AvbInterface → efi_fn W A) st v :
  answers rp w1 fn st v → ∃ p, rp = Ok p.
Proof. intros (p & _ & _ & _ & -> & _). eauto. Qed.

(** The result of a call that falls back to [v] when it is not implemented. *)
Lemma fallback_verdict {A} (v : A) fn a rp w1 x :
  find_first_and_open (op_entry (ao_gbl a)) AvbInterface (firmware_of (ao_gbl a)) = (rp, w1) →
  fst (fallback_not_implemented v (on_gbl (avb_call (Err IoNotImplemented) (λ p, call_interface p fn))) a) = Ok x ↔
    answers rp w1 fn EFI_STATUS_SUCCESS x ∨
    (x = v ∧ ((∃ e, rp = Err e) ∨ ∃ st y, answers rp w1 fn st y ∧ unmapped st)).
Proof.
  intros H. rewrite fallback_run, (avb_call_run _ _ _ _ _ H).
  pose proof (λ st y, answers_none rp w1 fn st y) as Hn. destruct rp as [p|e|]; [clear Hn|cbn; naive_solver..].
  setoid_rewrite answers_ok. unfold call_interface. rewrite bind_run, lift_run. unfold interface.
  destruct (pr_interface p) as [i|]; cbn; [|naive_solver].
  unfold efi_call. destruct (fn i) as [f|]; cbn; [|naive_solver].
  destruct (f w1) as [[st y] w2]. cbn. destruct (efi_status_to_result st) as [[]|e|] eqn:Hst; cbn.
  - apply status_ok in Hst as ->. unfold unmapped. naive_solver.
  - pose proof (status_unmapped _ _ Hst) as Hu.
    assert (st ≠ EFI_STATUS_SUCCESS) by (intros ->; by rewrite (proj2 (status_ok _) eq_refl) in Hst).
    destruct (efi_error_to_avb_error e); naive_solver.
  - unfold efi_status_to_result in Hst. by destruct (_ =? _).
Qed.

(** C18. Verified boot takes the device for locked exactly if the firmware's AVB
    protocol says so, and for unlocked if the protocol says so, if it cannot be
    opened, and also if the question fails with a status that is none of six
    (out of resources, device error, not found, end of file, invalid parameter,
    buffer too small): access denied, security violation, timeout and not ready
    count as "unlocked". *)
Theorem efi_unlock_verdict a rp w1 :
  find_first_and_open (op_entry (ao_gbl a)) AvbInterface (firmware_of (ao_gbl a)) = (rp, w1) →
  (fst (Avb.read_is_device_unlocked a) = Ok false ↔ answers rp w1 fn_read_is_device_unlocked EFI_STATUS_SUCCESS false) ∧
  (fst (Avb.read_is_device_unlocked a) = Ok true ↔
     answers rp w1 fn_read_is_device_unlocked EFI_STATUS_SUCCESS true ∨
     (∃ e, rp = Err e) ∨
     ∃ st b, answers rp w1 fn_read_is_device_unlocked st b ∧ unmapped st).
Proof.
  intros H. pose proof (λ x, fallback_verdict true fn_read_is_device_unlocked a rp w1 x H) as V.
  split; (etransitivity; [apply V|]); naive_solver.
Qed.
End Answers.

(** ** Image buffers *)

Section ImageBuffers.
Context {W : Type} `{!Firmware W} {fdt : LibFdt}.
Implicit Types o : Ops W.

Lemma length_mem_read m p n : zlen (mem_read m p n) = Z.max 0 n.
Proof. unfold mem_read. rewrite length_fmap, length_seqZ. lia. Qed.

Lemma get_buffer_spec (p : Protocol (GblEfiImageLoadingProtocol W)) info w l r w' l' :
  ImageLoading.get_buffer p info (w, l) = (r, (w', l')) →
  match r with
  | Ok (Buffer b) => ∃ addr n, b = mkEfiBuffer (Some (addr, n)) ∧ addr ≠ 0 ∧ ii_SizeBytes info ≤ n ∧ addr ∉ l ∧
                       (length l < MAX_ARRAY_SIZE)%nat ∧ l' = l ++ [addr]
  | Ok (AllocSize _) | Err _ => l' = l
  | Panic => True
  end.
Proof.
  unfold ImageLoading.get_buffer. rewrite bind_run. unfold beside at 1, zoom at 1. cbn [fst snd].
  destruct (call_interface_bufsize _ _ _ w) as [[gb|e|] w1]; [|by intros [= <- <- <-]..].
  destruct (gb_SizeBytes gb <? ii_SizeBytes info) eqn:E; [by intros [= <- <- <-]|].
  destruct (gb_Memory gb =? 0) eqn:E0; [by intros [= <- <- <-]|]. bools.
  rewrite bind_run. unfold zoom, efi_image_buffer_new. cbn [fst snd]. rewrite (proj2 (Z.eqb_neq _ _)) by done.
  rewrite bind_run, gets_run. cbv beta iota delta [id]. case_bool_decide; [by intros [= <- <- <-]|].
  destruct (MAX_ARRAY_SIZE <=? length l)%nat eqn:El; cbn; [by intros [= <- <- <-]|]. apply Nat.leb_gt in El. cbn. intros [= <- <- <-]. eauto 10.
Qed.

Lemma get_buffer_image_loading_spec name size o r o' :
  get_buffer_image_loading name size o = (r, o') →
  match r with
  | Ok b => size ≤ capacity b ∧ used_bytes b = 0 ∧ ib_addr b ≠ 0 ∧ ib_addr b ∉ op_returned o ∧
            (length (op_returned o) < MAX_ARRAY_SIZE)%nat ∧ op_returned o' = op_returned o ++ [ib_addr b]
  | Err _ => op_returned o' = op_returned o
  | Panic => True
  end.
Proof.
  unfold get_buffer_image_loading, get_buffer_from_protocol. rewrite !bind_run, gets_run. unfold zoom at 1.
  rewrite bind_run. unfold beside, zoom. cbn [fst snd].
  destruct (find_first_and_open _ _ _) as [[p|e|] w1]; cbn [fst snd]; [|by intros [= <- <-]..].
  destruct (ImageLoading.get_buffer _ _ _) as [r' [w2 l2]] eqn:E. apply get_buffer_spec in E.
  destruct r' as [[b|n]|e|]; cbn; [|by intros [= <- <-]..].
  destruct E as (addr & n & -> & ? & Hn & ? & ? & ->). cbn in *. intros [= <- <-]. unfold image_at, image_new, capacity. cbn.
  rewrite length_mem_read. split_and!; try done. lia.
Qed.

Lemma alloc_aligned l (s s' : Machine W) p : is_pow2 (l_align l) = true → alloc l s = (Ok p, s') → p mod l_align l = 0.
Proof.
  intros Hl. assert (0 < l_align l) by (unfold is_pow2 in Hl; bools; lia). unfold alloc.
  destruct (l_align l <=? EFI_ALLOCATE_POOL_ALIGNMENT) eqn:E; bools.
  - rewrite bind_run. destruct (allocate _ s) as [[q|e|] s1]; try done. rewrite bind_run, lift_run. unfold assert_that.
    destruct (_ =? _) eqn:E8; bools; [|done]. intros [= <- <-].
    eapply mod_divides; [done| |exact E8|by apply pow2_divides]. done.
  - destruct (try_into _ _ _) as [n|e|]; [|intros [= <- <-]; by rewrite Z.mod_0_l by lia..].
    rewrite bind_run. destruct (allocate _ s) as [[q|e|] s1]; try done.
    destruct (q =? 0) eqn:Eq; [intros [= <- <-]; by rewrite Z.mod_0_l by lia|]. rewrite bind_run, modify_run. intros [= <- <-].
    pose proof (Z.div_mod q (l_align l) ltac:(lia)).
    replace (q + (l_align l - q mod l_align l)) with ((q / l_align l + 1) * l_align l) by lia. apply Z.mod_mul. lia.
Qed.

(** The alignment that an image asks for. *)
Definition wanted_alignment (name : bytes) : Z :=
  match image_name_try_from name with Ok i => image_alignment i | _ => 1 end.
Lemma wanted_pow2 name : is_pow2 (wanted_alignment name) = true.
Proof. unfold wanted_alignment. by destruct (image_name_try_from name) as [[]|e|]. Qed.

Lemma allocate_image_buffer_spec name size (s s' : Machine W) b :
  0 < size < 2 ^ 64 → allocate_image_buffer name size s = (Ok b, s') →
  size ≤ capacity b ∧ used_bytes b = 0 ∧ ib_addr b ≠ 0 ∧ ib_addr b mod wanted_alignment name = 0.
Proof.
  intros Hs. unfold allocate_image_buffer. rewrite bind_run, lift_run.
  assert (Hsize : ∀ n, (if bool_decide (name = str "ramdisk")
      then into_u64 (from_int here TUsize size +! from_int here TUsize BOOTCMD_SIZE) else Ok size) = Ok n → size ≤ n).
  { intros n. case_bool_decide; [|intros [= <-]; lia]. rewrite !from_int_u64 by (unfold u64_ok, BOOTCMD_SIZE; lia).
    destruct (decide (size + BOOTCMD_SIZE < 2 ^ 64)).
    - rewrite sn_add, into_u64_val by (unfold u64_ok, BOOTCMD_SIZE in *; lia). intros [= <-]. unfold BOOTCMD_SIZE. lia.
    - rewrite sn_add_over, into_u64_bad by (unfold u64_ok, BOOTCMD_SIZE in *; lia). done. }
  destruct (if bool_decide _ then _ else _) as [n|e|]; try done. specialize (Hsize n eq_refl).
  rewrite bind_run, lift_run. unfold assert_that. destruct (_ <? _); [|done]. rewrite bind_run, lift_run.
  change (match image_name_try_from name with Ok i => image_alignment i | _ => 1 end) with (wanted_alignment name).
  unfold layout. destruct (_ && _); [|done]. cbn [ok_or]. rewrite bind_run.
  destruct (alloc _ s) as [[p|e|] s1] eqn:Ea; [|done..].
  apply alloc_aligned in Ea; [|apply wanted_pow2]. destruct (p =? 0) eqn:Ep; bools; [done|].
  rewrite bind_run, gets_run. intros [= <- <-]. unfold image_at, image_new, capacity. cbn. rewrite length_mem_read.
  split_and!; try done. lia.
Qed.

(** C24. A buffer for an image has room for what was asked for and is empty. It is one of
    the platform's, at an address that was not handed out before and is recorded
    as handed out; or memory of the allocator with the alignment that the image
    needs, and the record is unchanged. The record never has an address twice
    and never exceeds its array. *)
Theorem efi_image_buffer_fresh name size o b o' :
  NoDup (op_returned o) → (length (op_returned o) ≤ MAX_ARRAY_SIZE)%nat → 0 < size < 2 ^ 64 →
  efi_get_image_buffer name size o = (Ok b, o') →
  size ≤ capacity b ∧ used_bytes b = 0 ∧ ib_addr b ≠ 0 ∧
  NoDup (op_returned o') ∧ (length (op_returned o') ≤ MAX_ARRAY_SIZE)%nat ∧
  ((ib_addr b ∉ op_returned o ∧ op_returned o' = op_returned o ++ [ib_addr b]) ∨
   (ib_addr b mod wanted_alignment name = 0 ∧ op_returned o' = op_returned o)).
Proof.
  intros Hnd Hlen Hsz. unfold efi_get_image_buffer. rewrite !bind_run, !attempt_run.
  destruct (get_buffer_image_loading name size o) as [r1 o1] eqn:E1. apply get_buffer_image_loading_spec in E1.
  destruct r1 as [b1|e1|]; [| |done]; rewrite bind_run, attempt_run; unfold zoom;
    destruct (allocate_image_buffer name size (op_machine o1)) as [[b2|e2|] m2] eqn:E2; try done.
  1,2: intros [= <- <-]; destruct E1 as (? & ? & ? & ? & ? & E1); cbn; rewrite E1;
       rewrite NoDup_app, length_app; cbn; split_and!; auto; try lia; [by intros x Hx ->%list_elem_of_singleton|apply NoDup_singleton].
  apply allocate_image_buffer_spec in E2 as (? & ? & ? & ?); [|done]. intros [= <- <-]. cbn. rewrite E1. auto 10.
Qed.

(** The memory of the allocator is reserved even if the platform provides the
    buffer: when the pool is exhausted, or after the exit from the boot services,
    asking for a buffer that the platform has panics. *)
Theorem efi_image_buffer_needs_pool name size o b o1 :
  0 < size < 2 ^ 62 → get_buffer_image_loading name size o = (Ok b, o1) →
  efi_entry (al_state (mc_allocator (op_machine o1))) = None →
  fst (efi_get_image_buffer name size o) = Panic.
Proof.
  intros Hsz E1 Hnone. unfold efi_get_image_buffer. rewrite bind_run, attempt_run, E1. rewrite bind_run, attempt_run. unfold zoom.
  unfold allocate_image_buffer. rewrite bind_run, lift_run.
  assert (∃ n, (if bool_decide (name = str "ramdisk")
      then into_u64 (from_int here TUsize size +! from_int here TUsize BOOTCMD_SIZE) else Ok size) = Ok n ∧
      0 < n < 2 ^ 62 + BOOTCMD_SIZE) as (n & -> & Hn).
  { unfold BOOTCMD_SIZE. case_bool_decide; [|exists size; split; [done|lia]]. rewrite !from_int_u64 by (unfold u64_ok; lia).
    rewrite sn_add, into_u64_val by (unfold u64_ok; lia). eexists. split; [done|lia]. }
  rewrite bind_run, lift_run. unfold assert_that, BOOTCMD_SIZE in *. rewrite (proj2 (Z.ltb_lt _ _)) by lia.
  rewrite bind_run, lift_run. change (match image_name_try_from name with Ok i => image_alignment i | _ => 1 end) with (wanted_alignment name).
  assert (∃ l, layout n (wanted_alignment name) = Some l) as [l ->].
  { unfold layout. pose proof (wanted_pow2 name) as ->. assert (wanted_alignment name ≤ 2 ^ 21).
    { unfold wanted_alignment. by destruct (image_name_try_from name) as [[]|e|]. }
    assert (0 < wanted_alignment name) by (pose proof (wanted_pow2 name); unfold is_pow2 in *; bools; lia).
    pose proof (Z.mul_div_le (n + wanted_alignment name - 1) (wanted_alignment name)).
    rewrite (proj2 (Z.leb_le _ _)) by lia. eexists. done. }
  cbn [ok_or]. rewrite bind_run. by rewrite (proj1 (efi_allocator_inactive _ l 0 Hnone)).
Qed.
End ImageBuffers.

(** ** An example *)

Module OpsExample.
(** A firmware with the AVB protocol at 100 and the image loading protocol at
    200; its state is the status that the AVB protocol returns and the end of
    the pool. *)
Definition State : Type := Z * Z.
Definition avb : GblEfiAvbProtocol State :=
  mkAvbProtocol _ None (Some (λ w, (fst w, false, w))) None None None None None.
Definition image_loading : GblEfiImageLoadingProtocol State :=
  mkImageLoading _ (Some (λ info w, (EFI_STATUS_SUCCESS, mkGblBuffer 0x4000 (ii_SizeBytes info), w))) None.
#[local] Instance firmware : Firmware State := {|
  avb_at a := if a =? 100 then Some avb else None;
  image_loading_at a := if a =? 200 then Some image_loading else None;
  os_configuration_at _ := None; dt_fixup_at _ := None; fastboot_at _ := None; text_input_at _ := None;
|}.
#[local] Instance no_fdt : LibFdt := {|
  fdt_header_len := 40; fdt_header_align := 4; off_totalsize := 4; off_off_dt_strings := 12; off_size_dt_strings := 32;
  c_check_header _ := -9; c_strerror _ := "FDT_ERR_BADMAGIC"%string; c_subnode_offset _ _ _ := -1;
  c_add_subnode b _ _ := (-1, b); c_get_property _ _ _ := inl (-1); c_setprop b _ _ _ := (-1, b);
  c_setprop_placeholder b _ _ _ := (-1, b, None); c_del_node b _ := (-1, b); c_move _ b := (-1, b);
  c_apply_multioverlay b _ := (-1, b);
|}.

Definition services : EfiBootService State :=
  mkBootService _ None (Some (λ x w, (EFI_STATUS_SUCCESS, snd w, (fst w, snd w + (snd x + 7) / 8 * 8))))
    (Some (λ _ w, (EFI_STATUS_SUCCESS, tt, w))) None None None None None None
    (Some (λ x w, (EFI_STATUS_SUCCESS, if data1 (snd (fst x)) =? 0x6bc66b9a then 100 else 200, w))) None
    (Some (λ _ w, (EFI_STATUS_SUCCESS, (8, [7]), w))).
Definition entry : EfiEntry State := mkEntry 1 (Some (mkSystemTable _ (Some services) None None)).
Definition ops (st : Z) (s : EfiState State) : Ops State :=
  ops_new entry None (mkMachine (mkAllocator s None) (st, 0x1000) (λ _, 0)) [].
Definition verifier (st : Z) : GblAvbOps unit (Ops State) := mkAvb [] (ops st (Initialized entry)) None [] [] false None.

(** The witness of [efi_unlock_verdict]: access to the lock state is denied, and the
    device counts as unlocked. *)
Lemma efi_unlock_verdict_witness :
  fst (Avb.read_is_device_unlocked (verifier (EFI_ERR 15))) = Ok true ∧
  fst (Avb.read_is_device_unlocked (verifier EFI_STATUS_SUCCESS)) = Ok false.
Proof.
  split.
  - apply (efi_unlock_verdict (verifier (EFI_ERR 15)) (Ok (mkProtocol 7 (Some avb))) (EFI_ERR 15, 0x1000) ltac:(by vm_compute)).
    right. right. exists (EFI_ERR 15), false. split; [|by apply (bool_decide_unpack (unmapped (EFI_ERR 15))); vm_compute].
    by eexists _, avb, _, _.
  - apply (efi_unlock_verdict (verifier EFI_STATUS_SUCCESS) (Ok (mkProtocol 7 (Some avb))) (EFI_STATUS_SUCCESS, 0x1000) ltac:(by vm_compute)).
    by eexists _, avb, _, _.
Defined.

Definition first := efi_get_image_buffer (str "boot") 16 (ops 0 (Initialized entry)).
(** The second request gets the platform's buffer no more, but memory at a multiple
    of 2 MiB. *)
Definition second := efi_get_image_buffer (str "boot") 16 (snd first).
Definition addr_of (r : result ImageBuffer) : Z := match r with Ok b => ib_addr b | _ => 0 end.

(** The witness of [efi_image_buffer_fresh]: both requests. *)
Lemma efi_image_buffer_fresh_witness :
  addr_of (fst first) = 0x4000 ∧ addr_of (fst second) = 0x400000 ∧
  NoDup (op_returned (snd first)) ∧ op_returned (snd second) = op_returned (snd first).
Proof.
  split; [by vm_compute|]. split; [by vm_compute|].
  assert (E : first = (Ok (image_new 0x4000 (replicate 16 0)), snd first))
    by (rewrite (surjective_pairing first) at 1; f_equal; by vm_compute).
  assert (E2 : second = (Ok (image_new 0x400000 (replicate 16 0)), snd second))
    by (rewrite (surjective_pairing second) at 1; f_equal; by vm_compute).
  pose proof (efi_image_buffer_fresh (str "boot") 16 (ops 0 (Initialized entry)) _ (snd first)
                NoDup_nil_2 ltac:(cbn; lia) ltac:(lia) E) as (_ & _ & _ & Hnd & Hl & _).
  split; [exact Hnd|].
  destruct (efi_image_buffer_fresh (str "boot") 16 (snd first) _ (snd second) Hnd Hl ltac:(lia) E2)
    as (_ & _ & _ & _ & _ & [[Hx Hy]|[_ Hy]]); [by vm_compute in Hy|exact Hy].
Defined.

(** The witness of [efi_image_buffer_needs_pool]. *)
Lemma efi_image_buffer_needs_pool_witness : fst (efi_get_image_buffer (str "boot") 16 (ops 0 Exited)) = Panic.
Proof.
  assert (E : get_buffer_image_loading (str "boot") 16 (ops 0 Exited) =
              (Ok (image_new 0x4000 (replicate 16 0)), set_returned [0x4000] (ops 0 Exited))) by by vm_compute.
  apply (efi_image_buffer_needs_pool (str "boot") 16 (ops 0 Exited) _ _ ltac:(lia) E). reflexivity.
Defined.
End OpsExample.
