(* ===== verification/EfiBlocks.v ===== *)
(** * libefi and efi: block devices

    Models src/gbl/libefi/src/protocol/block_io.rs and block_io2.rs and
    src/gbl/efi/src/efi_blocks.rs: the two protocols for block devices of the
    firmware as one device of libstorage. A transfer of the second protocol runs
    in the firmware after the call that starts it: it owns the buffer and the
    token until its event is signaled. *)

From S2P Require Import Prelude SafeMath LibError Utils Text Block BlockAlgo Disk Partition Gpt.
From S2P Require Import Async Efi EfiProtocols EfiTimer.
Import SafeNum.

(** [EfiBlockIoMedia], with the fields that are used. *)
Record EfiBlockIoMedia := mkMedia {
  media_id : Z; logical_partition : bool; media_block_size : Z; io_align : Z; last_block : Z;
}.

(** [EfiBlockIoProtocol]: the media structure is memory of the firmware; a transfer
    gets media, block and the address of the buffer. *)
Record EfiBlockIoProtocol (W : Type) := mkBlockIo {
  bio_media : option (W → EfiBlockIoMedia);
  fn_bio_reset : option (bool → W → Z * unit * W);
  fn_read_blocks : option (Z * Z * Z → W * bytes → Z * unit * (W * bytes));
  fn_write_blocks : option (Z * Z * Z → W * bytes → Z * unit * (W * bytes));
  fn_flush_blocks : efi_fn W unit;
}.
Arguments bio_media {W}. Arguments fn_bio_reset {W}. Arguments fn_read_blocks {W}. Arguments fn_write_blocks {W}.
Arguments fn_flush_blocks {W}.

(** [EfiBlockIo2Protocol]: a transfer also gets the event of its token, and the
    contents of the buffer it takes over. *)
Record EfiBlockIo2Protocol (W : Type) := mkBlockIo2 {
  bio2_media : option (W → EfiBlockIoMedia);
  fn_bio2_reset : option (bool → W → Z * unit * W);
  fn_read_blocks_ex : option (Z * Z * Z * Z * bytes → W → Z * unit * W);
  fn_write_blocks_ex : option (Z * Z * Z * Z * bytes → W → Z * unit * W);
  fn_flush_blocks_ex : option (Z → W → Z * unit * W);
}.
Arguments bio2_media {W}. Arguments fn_bio2_reset {W}. Arguments fn_read_blocks_ex {W}.
Arguments fn_write_blocks_ex {W}. Arguments fn_flush_blocks_ex {W}.

(** What the memory that was handed over with an event holds: the buffer, and the
    status of the token. *)
Class Transfers (W : Type) := { transfer_buffer : W → Z → bytes; transaction_status : W → Z → Z }.

(** ** EFI_BLOCK_IO_PROTOCOL *)

Module BlockIoProtocol.
Section BlockIo.
Context {W : Type} (p : Protocol (EfiBlockIoProtocol W)).

(** gbl/libefi/src/protocol/block_io.rs:95-100, [Protocol::media]. *)
Definition media : ST W Error EfiBlockIoMedia :=
  i ← lift (interface p); m ← lift (ok_or (bio_media i) InvalidInput); gets m.
(** gbl/libefi/src/protocol/block_io.rs:35-56, [Protocol::read_blocks]: to a buffer at [addr]. *)
Definition read_blocks (lba addr : Z) : ST (W * bytes) Error unit :=
  i ← lift (interface p);
  match fn_read_blocks i with
  | None => raise NotFound
  | Some f => m ← beside media; efi_call (Some (f (media_id m, lba, addr)))
  end.
(** gbl/libefi/src/protocol/block_io.rs:58-75, [Protocol::write_blocks]. *)
Definition write_blocks (lba addr : Z) : ST (W * bytes) Error unit :=
  i ← lift (interface p);
  match fn_write_blocks i with
  | None => raise NotFound
  | Some f => m ← beside media; efi_call (Some (f (media_id m, lba, addr)))
  end.
(** gbl/libefi/src/protocol/block_io.rs:77-84, [Protocol::flush_blocks]. *)
Definition flush_blocks : ST W Error unit := call_interface p fn_flush_blocks.
(** gbl/libefi/src/protocol/block_io.rs:86-93, [Protocol::reset]. *)
Definition reset (extended_verification : bool) : ST W Error unit :=
  call_interface p (λ i, app_fn (fn_bio_reset i) extended_verification).
End BlockIo.
End BlockIoProtocol.

(** ** EFI_BLOCK_IO2_PROTOCOL *)

Module BlockIo2Protocol.
Section BlockIo2.
Context {W : Type} `{!Transfers W} (entry : EfiEntry W) (p : Protocol (EfiBlockIo2Protocol W)).

(** gbl/libefi/src/protocol/block_io2.rs:148-153, [Protocol::media]. *)
Definition media : ST W Error EfiBlockIoMedia :=
  i ← lift (interface p); m ← lift (ok_or (bio2_media i) InvalidInput); gets m.
(** gbl/libefi/src/protocol/block_io2.rs:140-146, [Protocol::reset]. *)
Definition reset (extended_verification : bool) : ST W Error unit :=
  call_interface p (λ i, app_fn (fn_bio2_reset i) extended_verification).

(** gbl/libefi/src/protocol/block_io2.rs:41-56, [Protocol::wait_io_completion]: with at most [fuel] looks at
    the event. *)
Fixpoint wait_io_completion (fuel : nat) (event : Event) : FST W unit :=
  match fuel with
  | 0%nat => out_of_fuel
  | S fuel =>
      bs ← fueled (lift (boot_services entry));
      r ← fueled (attempt (check_event bs event));
      match r with
      | inr e => fueled (unwrap_st (reset true));; raise (Some e)
      | inl true => mret tt
      | inl false => wait_io_completion fuel event
      end
  end.

(** The program while the firmware owns its buffer. *)
Definition handed_over {E A} (event : Event) (m : ST (W * bytes) E A) : ST (W * bytes) E A := λ s,
  let '(r, s) := m s in (r, (fst s, transfer_buffer (fst s) (efi_event event))).

(** What the three operations have in common: an event, the call that starts the
    operation, the wait, and the status of the token; the event is dropped at
    every end. *)
Definition transfer (fuel : nat) (start : Event → ST (W * bytes) Error unit) : FST (W * bytes) unit :=
  bs ← fueled (lift (boot_services entry));
  event ← fueled (beside (create_event_with_notification bs NotifyWait Callback));
  with_drop (beside (drop_event entry event))
    (fueled (start event);;
     handed_over event (beside (wait_io_completion fuel event));;
     w ← gets fst;
     fueled (lift (efi_status_to_result (transaction_status w (efi_event event))))).

(** The call with the media, block and buffer. *)
Definition start_io (fn : EfiBlockIo2Protocol W → option (Z * Z * Z * Z * bytes → W → Z * unit * W))
    (lba addr : Z) (event : Event) : ST (W * bytes) Error unit :=
  i ← lift (interface p);
  match fn i with
  | None => raise NotFound
  | Some f =>
      m ← beside media;
      b ← gets snd;
      handed_over event (beside (efi_call (Some (f (media_id m, lba, efi_event event, addr, b)))))
  end.

(** gbl/libefi/src/protocol/block_io2.rs:58-96, [Protocol::read_blocks_ex]: to a buffer at [addr]. *)
Definition read_blocks_ex (fuel : nat) (lba addr : Z) : FST (W * bytes) unit :=
  transfer fuel (start_io fn_read_blocks_ex lba addr).
(** gbl/libefi/src/protocol/block_io2.rs:98-122, [Protocol::write_blocks_ex]. *)
Definition write_blocks_ex (fuel : nat) (lba addr : Z) : FST (W * bytes) unit :=
  transfer fuel (start_io fn_write_blocks_ex lba addr).
(** gbl/libefi/src/protocol/block_io2.rs:124-138, [Protocol::flush_blocks_ex]: there is no buffer. *)
Definition flush_blocks_ex (fuel : nat) : FST W unit := λ w,
  let '(r, s) := transfer fuel (λ event, beside (call_interface p (λ i, app_fn (fn_flush_blocks_ex i) (efi_event event))))
                   (w, []) in (r, fst s).
End BlockIo2.
End BlockIo2Protocol.

(** ** The device *)

(** gbl/efi/src/efi_blocks.rs:28-33, [EfiBlockDeviceIo]. *)
Inductive EfiBlockDeviceIo (W : Type) :=
  | Sync (v : Protocol (EfiBlockIoProtocol W))
  | Async (v : Protocol (EfiBlockIo2Protocol W)).
Arguments Sync {W}. Arguments Async {W}.

Section Device.
Context {W : Type} `{!Transfers W}.

(** gbl/efi/src/efi_blocks.rs:36-42, [EfiBlockDeviceIo::media]. *)
Definition io_media (io : EfiBlockDeviceIo W) : ST W Error EfiBlockIoMedia :=
  unwrap_st (match io with Sync v => BlockIoProtocol.media v | Async v => BlockIo2Protocol.media v end).

(** gbl/efi/src/efi_blocks.rs:44-51, [EfiBlockDeviceIo::info]. *)
Definition media_info (media : EfiBlockIoMedia) : BlockInfo :=
  mkInfo (media_block_size media) (wrap 64 (last_block media + 1)) (Z.max 1 (io_align media)).

(** A device: with what it works on, and how often a wait may look at its event. *)
Record EfiBlockDevice := mkBlockDevice {
  bd_io : EfiBlockDeviceIo W; bd_entry : EfiEntry W; bd_polls : nat; bd_firmware : W;
}.
Definition on_device {A} (m : EfiBlockDeviceIo W → EfiEntry W → nat → ST (W * bytes) Error A)
    : ST (EfiBlockDevice * bytes) Error A := λ '(d, b),
  let '(r, (w, b)) := m (bd_io d) (bd_entry d) (bd_polls d) (bd_firmware d, b) in
  (r, (mkBlockDevice (bd_io d) (bd_entry d) (bd_polls d) w, b)).
(** [.or(Err(Error::BlockIoError))]. *)
Definition or_block_io_error {S A} (m : ST S Error A) : ST S Error A := λ s,
  let '(r, s) := m s in (map_err (λ _, BlockIoError) r, s).

(** gbl/efi/src/efi_blocks.rs:59-61, [BlockIo::info for EfiBlockDeviceIo]: the media structure was there when the
    device was found. *)
Definition bd_info (d : EfiBlockDevice) : BlockInfo :=
  match io_media (bd_io d) (bd_firmware d) with
  | (Ok m, _) => media_info m
  | _ => mkInfo 0 0 1
  end.
(** gbl/efi/src/efi_blocks.rs:63-73, [BlockIo::read_blocks for EfiBlockDeviceIo]. *)
Definition bd_read_blocks (blk_offset addr : Z) : ST (EfiBlockDevice * bytes) Error unit :=
  or_block_io_error (on_device (λ io entry polls,
    match io with
    | Sync v => BlockIoProtocol.read_blocks v blk_offset addr
    | Async v => completed (BlockIo2Protocol.read_blocks_ex entry v polls blk_offset addr)
    end)).
(** gbl/efi/src/efi_blocks.rs:75-81, [BlockIo::write_blocks for EfiBlockDeviceIo]. *)
Definition bd_write_blocks (blk_offset addr : Z) : ST (EfiBlockDevice * bytes) Error unit :=
  or_block_io_error (on_device (λ io entry polls,
    match io with
    | Sync v => BlockIoProtocol.write_blocks v blk_offset addr
    | Async v => completed (BlockIo2Protocol.write_blocks_ex entry v polls blk_offset addr)
    end)).

#[export] Instance EfiBlockIo : BlockIo EfiBlockDevice := {|
  info := bd_info; Block.read_blocks := bd_read_blocks; Block.write_blocks := bd_write_blocks |}.

(** ** Finding devices *)

(** gbl/efi/src/efi_blocks.rs:84-84, [MAX_GPT_ENTRIES]. *)
Definition MAX_GPT_ENTRIES : Z := 128.

Context `{!ProtocolInfo (EfiBlockIoProtocol W)} `{!ProtocolInfo (EfiBlockIo2Protocol W)} (entry : EfiEntry W).

(** gbl/efi/src/efi_blocks.rs:89-117, [find_block_devices]: one handle; logical partitions are skipped. *)
Definition open_block_device (bs : EfiBootService W) (handle : Z) : ST W Error (option (EfiBlockDeviceIo W)) :=
  r ← attempt (open_protocol entry (EfiBlockIo2Protocol W) bs handle);
  blk_io ← match r with
           | inl v => mret (Async v)
           | inr _ => v ← open_protocol entry (EfiBlockIoProtocol W) bs handle; mret (Sync v)
           end;
  media ← io_media blk_io;
  mret (if logical_partition media then None else Some blk_io).
(** gbl/efi/src/efi_blocks.rs:89-117, [find_block_devices]: the handles that are left. *)
Fixpoint open_block_devices (bs : EfiBootService W) (handles : list Z) : ST W Error (list (EfiBlockDeviceIo W)) :=
  match handles with
  | [] => mret []
  | handle :: handles =>
      d ← open_block_device bs handle;
      l ← open_block_devices bs handles;
      mret (option_list d ++ l)
  end.
(** gbl/efi/src/efi_blocks.rs:89-117, [find_block_devices]: the devices; each gets a scratch buffer and the place
    for a partition table that is then read. *)
Definition find_block_devices : ST W Error (list (EfiBlockDeviceIo W)) :=
  bs ← lift (boot_services entry);
  l ← locate_handle_buffer_by_protocol (EfiBlockIoProtocol W) bs;
  with_drop (drop_handles entry l)
    (_ ← lift (gpt_buffer_size MAX_GPT_ENTRIES);
     open_block_devices bs (handles l)).
End Device.
Arguments EfiBlockDevice : clear implicits. Arguments mkBlockDevice {W}. Arguments bd_io {W}. Arguments bd_entry {W}.
Arguments bd_polls {W}. Arguments bd_firmware {W}.
