(* ===== verification/EfiBlocksProps.v ===== *)
(** * Block devices of the firmware keep the contract of libstorage

    What the UEFI specification promises of both block protocols, and that on
    top of it the device of efi_blocks.rs is a block device in the sense of
    [BlockIoSpec]: the theorems on disks, partitions and partition tables hold
    for disks of the firmware, with either protocol. *)

From S2P Require Import Prelude SafeMath LibError Utils Text Block BlockAlgo BlockSpec.
From S2P Require Import Async Efi EfiProtocols EfiTimer EfiBlocks.
Import SafeNum.

(** ** What the firmware promises *)

(** An event is signaled after at most [n] looks, in a state that satisfies [Q]. *)
Fixpoint signaled {W} (n : nat) (check : Z → W → Z * unit * W) (e : Z) (Q : W → Prop) (w : W) : Prop :=
  match n with
  | 0%nat => False
  | S n =>
      let '(st, _, w') := check e w in
      (st = EFI_STATUS_SUCCESS ∧ Q w') ∨ (st = EFI_STATUS_NOT_READY ∧ signaled n check e Q w')
  end.

Section Contract.
Context {W : Type} `{!Transfers W}.
(** Of a device: what it holds, whether it is about to fail, and its geometry. *)
Context (held : W → bytes) (calm ok : W → Prop) (media : W → EfiBlockIoMedia).

Definition geometry (w : W) : BlockInfo := media_info (media w).
(** Nothing that concerns the device happens. *)
Definition idle (w w' : W) : Prop :=
  ok w' ∧ geometry w' = geometry w ∧ held w' = held w ∧ (calm w ↔ calm w').

(** A request for whole blocks in range, with an aligned buffer. *)
Definition request_ok (w : W) (blk addr : Z) (b : bytes) : Prop :=
  addr mod alignment (geometry w) = 0 ∧ u64_ok addr ∧ zlen b mod block_size (geometry w) = 0 ∧ 0 ≤ blk ∧
  blk * block_size (geometry w) + zlen b ≤ zlen (held w).

(** A read that ended with a status and what the buffer holds then. *)
Definition read_done (w : W) (blk : Z) (b : bytes) (st : Z) (w' : W) (b' : bytes) : Prop :=
  ok w' ∧ geometry w' = geometry w ∧ held w' = held w ∧
  (st = EFI_STATUS_SUCCESS → (calm w → calm w') ∧ b' = slice (held w) (blk * block_size (geometry w)) (zlen b)) ∧
  (st ≠ EFI_STATUS_SUCCESS → ¬ calm w ∧ length b' = length b).
(** A write that ended. *)
Definition write_done (w : W) (blk : Z) (b : bytes) (st : Z) (w' : W) (b' : bytes) : Prop :=
  let off := blk * block_size (geometry w) in
  ok w' ∧ geometry w' = geometry w ∧ b' = b ∧
  (st = EFI_STATUS_SUCCESS → (calm w → calm w') ∧ held w' = splice (held w) off b) ∧
  (st ≠ EFI_STATUS_SUCCESS → ¬ calm w ∧ same_outside off (off + zlen b) (held w) (held w')).

(** A function of EFI_BLOCK_IO_PROTOCOL. *)
Definition sync_fn (done : W → Z → bytes → Z → W → bytes → Prop) (f : Z * Z * Z → W * bytes → Z * unit * (W * bytes)) : Prop :=
  ∀ w blk addr b, ok w → request_ok w blk addr b →
    let '(st, _, (w', b')) := f (media_id (media w), blk, addr) (w, b) in done w blk b st w' b'.

(** A function of EFI_BLOCK_IO2_PROTOCOL: it fails at once, or the event is
    signaled after at most [n] looks, with the status in the token. *)
Definition async_fn (n : nat) (check : Z → W → Z * unit * W) (done : W → Z → bytes → Z → W → bytes → Prop)
    (f : Z * Z * Z * Z * bytes → W → Z * unit * W) : Prop :=
  ∀ w e blk addr b, ok w → request_ok w blk addr b →
    let '(st, _, w') := f (media_id (media w), blk, e, addr, b) w in
    if st =? EFI_STATUS_SUCCESS
    then signaled n check e (λ w'', done w blk b (transaction_status w'' e) w'' (transfer_buffer w'' e)) w'
    else done w blk b st w' (transfer_buffer w' e).
End Contract.

(** What a firmware promises of its block devices. *)
Class BlockFirmware (W : Type) `{!Transfers W} := {
  held : EfiBlockDeviceIo W → W → bytes;
  calm : EfiBlockDeviceIo W → W → Prop;
  usable : EfiBlockDeviceIo W → EfiEntry W → nat → W → Prop;
  media_of : EfiBlockDeviceIo W → W → EfiBlockIoMedia;
  usable_geometry : ∀ io entry n w, usable io entry n w → info_ok (geometry (media_of io) w) (held io w);
  sync_contract : ∀ v entry n w, usable (Sync v) entry n w →
    ∃ i rd wr, pr_interface v = Some i ∧ bio_media i = Some (media_of (Sync v)) ∧
      fn_read_blocks i = Some rd ∧ fn_write_blocks i = Some wr ∧
      let ok := usable (Sync v) entry n in
      sync_fn (held (Sync v)) ok (media_of (Sync v))
        (read_done (held (Sync v)) (calm (Sync v)) ok (media_of (Sync v))) rd ∧
      sync_fn (held (Sync v)) ok (media_of (Sync v))
        (write_done (held (Sync v)) (calm (Sync v)) ok (media_of (Sync v))) wr;
  async_contract : ∀ v entry n w, usable (Async v) entry n w →
    ∃ i rd wr bs create check close, pr_interface v = Some i ∧ bio2_media i = Some (media_of (Async v)) ∧
      fn_read_blocks_ex i = Some rd ∧ fn_write_blocks_ex i = Some wr ∧
      boot_services entry = Ok bs ∧ fn_create_event bs = Some create ∧ fn_check_event bs = Some check ∧
      fn_close_event bs = Some close ∧
      let ok := usable (Async v) entry n in
      let idle := idle (held (Async v)) (calm (Async v)) ok (media_of (Async v)) in
      (∀ x w, ok w → ∃ e w', create x w = (EFI_STATUS_SUCCESS, e, w') ∧ idle w w') ∧
      (∀ e w, ok w → ∃ w', close e w = (EFI_STATUS_SUCCESS, tt, w') ∧ idle w w') ∧
      async_fn (held (Async v)) ok (media_of (Async v)) n check
        (read_done (held (Async v)) (calm (Async v)) ok (media_of (Async v))) rd ∧
      async_fn (held (Async v)) ok (media_of (Async v)) n check
        (write_done (held (Async v)) (calm (Async v)) ok (media_of (Async v))) wr;
}.

(** ** Runs *)

Lemma status_cases st :
  (st = EFI_STATUS_SUCCESS ∧ efi_status_to_result st = Ok tt) ∨
  (st ≠ EFI_STATUS_SUCCESS ∧ ∃ e, efi_status_to_result st = Err e).
Proof. unfold efi_status_to_result. destruct (st =? EFI_STATUS_SUCCESS) eqn:E; bools; eauto. Qed.

Section Runs.
Context {W : Type} `{!Transfers W}.

Lemma sync_read_run v i mf rd lba addr (w : W) b :
  pr_interface v = Some i → bio_media i = Some mf → fn_read_blocks i = Some rd →
  BlockIoProtocol.read_blocks v lba addr (w, b) =
    let '(st, _, s) := rd (media_id (mf w), lba, addr) (w, b) in (efi_status_to_result st, s).
Proof.
  intros Hi Hm Hf. unfold BlockIoProtocol.read_blocks, BlockIoProtocol.media, interface. rewrite bind_run, lift_run, Hi. cbn.
  rewrite Hf, bind_run. unfold beside, zoom. rewrite !bind_run, !lift_run. cbn [ok_or fst snd]. rewrite bind_run, lift_run, Hm. cbn.
  destruct (rd _ _) as [[st []] s]. by destruct (status_cases st) as [[_ ->]|[_ [e ->]]].
Qed.
Lemma sync_write_run v i mf wr lba addr (w : W) b :
  pr_interface v = Some i → bio_media i = Some mf → fn_write_blocks i = Some wr →
  BlockIoProtocol.write_blocks v lba addr (w, b) =
    let '(st, _, s) := wr (media_id (mf w), lba, addr) (w, b) in (efi_status_to_result st, s).
Proof.
  intros Hi Hm Hf. unfold BlockIoProtocol.write_blocks, BlockIoProtocol.media, interface. rewrite bind_run, lift_run, Hi. cbn.
  rewrite Hf, bind_run. unfold beside, zoom. rewrite !bind_run, !lift_run. cbn [ok_or fst snd]. rewrite bind_run, lift_run, Hm. cbn.
  destruct (wr _ _) as [[st []] s]. by destruct (status_cases st) as [[_ ->]|[_ [e ->]]].
Qed.

Lemma fueled_run {S A} (m : ST S Error A) s : fueled m s = (map_err Some (fst (m s)), snd (m s)).
Proof. unfold fueled. by destruct (m s). Qed.

Context (entry : EfiEntry W) (v : Protocol (EfiBlockIo2Protocol W)) (bs : EfiBootService W).
Context (check : Z → W → Z * unit * W).
Hypothesis Hbs : boot_services entry = Ok bs.
Hypothesis Hcheck : fn_check_event bs = Some check.

Lemma wait_run n e Q w :
  signaled n check (efi_event e) Q w →
  ∃ w', BlockIo2Protocol.wait_io_completion entry v n e w = (Ok tt, w') ∧ Q w'.
Proof.
  revert w. induction n as [|n IH]; intros w; [done|]. cbn [signaled BlockIo2Protocol.wait_io_completion].
  rewrite bind_run, fueled_run, lift_run, Hbs. cbn [map_err fst snd]. rewrite bind_run, fueled_run, attempt_run.
  unfold check_event, efi_call. rewrite Hcheck. cbn.
  destruct (check (efi_event e) w) as [[st []] w'] eqn:Ec. intros [[-> HQ]|[-> Hs]]; cbn.
  - eauto.
  - apply (IH _ Hs).
Qed.

Section Transfer.
Context (hd : W → bytes) (calm ok : W → Prop) (mf : W → EfiBlockIoMedia) (i : EfiBlockIo2Protocol W).
Context (create : Z * Z * bool → W → Z * Z * W) (close : Z → W → Z * unit * W).
Abbreviation idle := (idle hd calm ok mf).
Hypothesis Hi : pr_interface v = Some i.
Hypothesis Hm : bio2_media i = Some mf.
Hypothesis Hcreate : fn_create_event bs = Some create.
Hypothesis Hclose : fn_close_event bs = Some close.
Hypothesis create_ok : ∀ x w, ok w → ∃ e w', create x w = (EFI_STATUS_SUCCESS, e, w') ∧ idle w w'.
Hypothesis close_ok : ∀ e w, ok w → ∃ w', close e w = (EFI_STATUS_SUCCESS, tt, w') ∧ idle w w'.

Lemma create_run t tpl w (b : bytes) e w' :
  create (event_type t, tpl_value tpl, true) w = (EFI_STATUS_SUCCESS, e, w') →
  beside (create_event_with_notification bs t tpl) (w, b) = (Ok (mkEvent true e), (w', b)).
Proof.
  intros E. unfold beside, zoom, create_event_with_notification. rewrite bind_run. unfold efi_call. rewrite Hcreate. cbn.
  by rewrite E.
Qed.

Lemma drop_run e w (b : bytes) : ok w →
  ∃ w', beside (drop_event entry (mkEvent true e)) (w, b) = (Ok tt, (w', b)) ∧ idle w w'.
Proof.
  intros Hw. destruct (close_ok e w Hw) as (w' & E & Hid). exists w'. split; [|done].
  unfold beside, zoom, drop_event. cbn [fst snd ev_owned]. rewrite bind_run, lift_run, Hbs. unfold unwrap_st, close_event, efi_call.
  rewrite Hclose. cbn. by rewrite E.
Qed.

Lemma start_run fn f lba addr e w b :
  fn i = Some f →
  BlockIo2Protocol.start_io v fn lba addr e (w, b) =
    let '(st, _, w') := f (media_id (mf w), lba, efi_event e, addr, b) w in
    (efi_status_to_result st, (w', transfer_buffer w' (efi_event e))).
Proof.
  intros Hf. unfold BlockIo2Protocol.start_io, BlockIo2Protocol.media, interface. rewrite bind_run, lift_run, Hi. cbn [ok_or].
  rewrite Hf, bind_run. unfold beside at 1, zoom at 1. rewrite !bind_run, !lift_run. cbn [ok_or fst snd].
  rewrite bind_run, lift_run, Hm. cbn. unfold BlockIo2Protocol.handed_over, beside, zoom.
  rewrite bind_run, gets_run. cbn. destruct (f _ w) as [[st []] w']. by destruct (status_cases st) as [[_ ->]|[_ [x ->]]].
Qed.

(** A transfer: between the creation and the closing of its event the function
    is done with the status that is returned. *)
Lemma transfer_run n done fn f lba addr w b :
  fn i = Some f → async_fn hd ok mf n check done f →
  (∀ w lba b st w' b', done w lba b st w' b' → ok w') →
  ok w → request_ok hd mf w lba addr b →
  ∃ w1 st w2 w3 b', idle w w1 ∧ done w1 lba b st w2 b' ∧ idle w2 w3 ∧
    completed (BlockIo2Protocol.transfer entry v n (BlockIo2Protocol.start_io v fn lba addr)) (w, b) =
      (efi_status_to_result st, (w3, b')).
Proof.
  intros Hf Hasync Hdone Hw Hreq. destruct (create_ok (event_type NotifyWait, tpl_value Callback, true) w Hw) as (e & w1 & Ec & Hid).
  assert (Hreq1 : ok w1 ∧ request_ok hd mf w1 lba addr b).
  { destruct Hid as (? & Hg & Hh & _). unfold request_ok in *. by rewrite Hg, Hh. }
  destruct Hreq1 as [Hw1 Hreq1]. pose proof (Hasync w1 e lba addr b Hw1 Hreq1) as Ha.
  unfold completed, BlockIo2Protocol.transfer. rewrite bind_run, fueled_run, lift_run, Hbs. cbn [fst snd map_err].
  rewrite bind_run, fueled_run, (create_run _ _ _ _ _ _ Ec). cbn [fst snd map_err].
  unfold with_drop. rewrite bind_run, fueled_run, (start_run fn f) by done.
  destruct (f _ w1) as [[st []] w2] eqn:Ef. destruct (status_cases st) as [[-> Hst]|[Hne [x Hst]]]; rewrite Hst; cbn [fst snd map_err].
  - cbn in Ha. destruct (wait_run n (mkEvent true e) _ _ Ha) as (w4 & Ewait & Hd). cbn [efi_event] in Hd.
    rewrite bind_run. unfold BlockIo2Protocol.handed_over, beside at 1, zoom at 1. cbn [fst snd]. rewrite Ewait. cbn [fst snd].
    rewrite bind_run, gets_run, fueled_run, lift_run. cbn [fst snd efi_event].
    destruct (drop_run e w4 (transfer_buffer w4 e) (Hdone _ _ _ _ _ _ Hd)) as (w5 & -> & Hid5).
    exists w1, (transaction_status w4 e), w4, w5, (transfer_buffer w4 e). split_and!; try done.
    by destruct (status_cases (transaction_status w4 e)) as [[_ ->]|[_ [y ->]]].
  - rewrite (proj2 (Z.eqb_neq _ _)) in Ha by done. cbn [efi_event].
    destruct (drop_run e w2 (transfer_buffer w2 e) (Hdone _ _ _ _ _ _ Ha)) as (w5 & -> & Hid5).
    exists w1, st, w2, w5, (transfer_buffer w2 e). split_and!; try done. by rewrite Hst.
Qed.
End Transfer.
End Runs.

(** ** The device keeps the contract of libstorage *)

Section Device.
Context {W : Type} `{!Transfers W} `{!BlockFirmware W}.
Implicit Types d : EfiBlockDevice W.

Definition bd_ok d : Prop := usable (bd_io d) (bd_entry d) (bd_polls d) (bd_firmware d).
Definition bd_content d : bytes := held (bd_io d) (bd_firmware d).
Definition bd_quiet d : Prop := calm (bd_io d) (bd_firmware d).
(** The device after a call. *)
Definition bd_with d (w : W) : EfiBlockDevice W := mkBlockDevice (bd_io d) (bd_entry d) (bd_polls d) w.

Lemma bd_info_geometry d : bd_ok d → bd_info d = geometry (media_of (bd_io d)) (bd_firmware d).
Proof.
  unfold bd_ok, bd_info, geometry, io_media, unwrap_st. intros H. destruct (bd_io d) as [v|v].
  - destruct (sync_contract _ _ _ _ H) as (i & rd & wr & Hi & Hm & _).
    unfold BlockIoProtocol.media, interface. rewrite bind_run, lift_run, Hi. cbn [ok_or]. by rewrite bind_run, lift_run, Hm.
  - destruct (async_contract _ _ _ _ H) as (i & rd & wr & bs & cr & ch & cl & Hi & Hm & _).
    unfold BlockIo2Protocol.media, interface. rewrite bind_run, lift_run, Hi. cbn [ok_or]. by rewrite bind_run, lift_run, Hm.
Qed.

Abbreviation dev_idle d := (idle (held (bd_io d)) (calm (bd_io d)) (usable (bd_io d) (bd_entry d) (bd_polls d)) (media_of (bd_io d))).
Abbreviation dev_done done d :=
  (done (held (bd_io d)) (calm (bd_io d)) (usable (bd_io d) (bd_entry d) (bd_polls d)) (media_of (bd_io d))).

(** A read or write of either protocol is a transfer between idle steps. *)
Lemma bd_read_run d blk addr b :
  bd_ok d → request_ok (held (bd_io d)) (media_of (bd_io d)) (bd_firmware d) blk addr b →
  ∃ w1 st w2 w3 b', dev_idle d (bd_firmware d) w1 ∧ dev_done read_done d w1 blk b st w2 b' ∧ dev_idle d w2 w3 ∧
    bd_read_blocks blk addr (d, b) = (map_err (λ _, BlockIoError) (efi_status_to_result st), (bd_with d w3, b')).
Proof.
  intros Hd Hr. unfold bd_read_blocks, or_block_io_error, on_device, bd_with, bd_ok in *. destruct (bd_io d) as [v|v].
  - destruct (sync_contract _ _ _ _ Hd) as (i & rd & wr & Hi & Hm & Hrd & _ & Hlaw & _).
    specialize (Hlaw _ _ _ _ Hd Hr). rewrite (sync_read_run v i _ _ _ _ _ _ Hi Hm Hrd).
    destruct (rd _ _) as [[st []] [w' b']]. exists (bd_firmware d), st, w', w', b'. split_and!; try done. by destruct Hlaw.
  - destruct (async_contract _ _ _ _ Hd) as (i & rd & wr & bs & cr & ch & cl & Hi & Hm & Hrd & _ & Hbs & Hcr & Hch & Hcl & Hcreate & Hclose & Hlaw & _).
    destruct (transfer_run _ v bs ch Hbs Hch _ _ _ _ i cr cl Hi Hm Hcr Hcl Hcreate Hclose _ _ _ rd _ _ _ _ Hrd Hlaw ltac:(by intros * []) Hd Hr)
      as (w1 & st & w2 & w3 & b' & ? & ? & ? & E).
    exists w1, st, w2, w3, b'. split_and!; try done. unfold BlockIo2Protocol.read_blocks_ex. by rewrite E.
Qed.
Lemma bd_write_run d blk addr b :
  bd_ok d → request_ok (held (bd_io d)) (media_of (bd_io d)) (bd_firmware d) blk addr b →
  ∃ w1 st w2 w3 b', dev_idle d (bd_firmware d) w1 ∧ dev_done write_done d w1 blk b st w2 b' ∧ dev_idle d w2 w3 ∧
    bd_write_blocks blk addr (d, b) = (map_err (λ _, BlockIoError) (efi_status_to_result st), (bd_with d w3, b')).
Proof.
  intros Hd Hr. unfold bd_write_blocks, or_block_io_error, on_device, bd_with, bd_ok in *. destruct (bd_io d) as [v|v].
  - destruct (sync_contract _ _ _ _ Hd) as (i & rd & wr & Hi & Hm & _ & Hwr & _ & Hlaw).
    specialize (Hlaw _ _ _ _ Hd Hr). rewrite (sync_write_run v i _ _ _ _ _ _ Hi Hm Hwr).
    destruct (wr _ _) as [[st []] [w' b']]. exists (bd_firmware d), st, w', w', b'. split_and!; try done. by destruct Hlaw.
  - destruct (async_contract _ _ _ _ Hd) as (i & rd & wr & bs & cr & ch & cl & Hi & Hm & _ & Hwr & Hbs & Hcr & Hch & Hcl & Hcreate & Hclose & _ & Hlaw).
    destruct (transfer_run _ v bs ch Hbs Hch _ _ _ _ i cr cl Hi Hm Hcr Hcl Hcreate Hclose _ _ _ wr _ _ _ _ Hwr Hlaw ltac:(by intros * []) Hd Hr)
      as (w1 & st & w2 & w3 & b' & ? & ? & ? & E).
    exists w1, st, w2, w3, b'. split_and!; try done. unfold BlockIo2Protocol.write_blocks_ex. by rewrite E.
Qed.

Lemma bd_read_law d b blk addr :
  bd_ok d → addr mod alignment (bd_info d) = 0 → u64_ok addr → zlen b mod block_size (bd_info d) = 0 → 0 ≤ blk →
  blk * block_size (bd_info d) + zlen b ≤ zlen (bd_content d) →
  wp (bd_read_blocks blk addr) (d, b)
    (λ _ s, bd_ok (fst s) ∧ bd_info (fst s) = bd_info d ∧ bd_content (fst s) = bd_content d ∧
            (bd_quiet d → bd_quiet (fst s)) ∧ snd s = slice (bd_content d) (blk * block_size (bd_info d)) (zlen b))
    (λ _ s, bd_ok (fst s) ∧ bd_info (fst s) = bd_info d ∧ bd_content (fst s) = bd_content d ∧
            ¬ bd_quiet d ∧ length (snd s) = length b).
Proof.
  intros Hd. rewrite (bd_info_geometry d Hd). intros Ha Hu Hz Hb Hle.
  destruct (bd_read_run d blk addr b Hd) as (w1 & st & w2 & w3 & b' & (? & Hg1 & Hh1 & Hc1) & (? & Hg2 & Hh2 & Hok & Herr) & (Hu3 & Hg3 & Hh3 & Hc3) & E); [done|].
  assert (Hi : bd_info (bd_with d w3) = geometry (media_of (bd_io d)) (bd_firmware d))
    by (rewrite (bd_info_geometry (bd_with d w3)) by exact Hu3; cbn; congruence).
  assert (Hc : bd_content (bd_with d w3) = bd_content d) by (unfold bd_content; cbn; congruence).
  unfold wp. rewrite E. destruct (status_cases st) as [[-> ->]|[Hne [e ->]]]; cbn [map_err fst snd].
  - destruct (Hok eq_refl) as [Hq Hb']. rewrite Hg1, Hh1 in Hb'. split_and!; try done. unfold bd_quiet. cbn. intros. apply Hc3, Hq, Hc1. done.
  - destruct (Herr Hne) as [Hq Hl]. split_and!; try done. unfold bd_quiet. by rewrite Hc1.
Qed.

Lemma bd_write_law d b blk addr :
  bd_ok d → addr mod alignment (bd_info d) = 0 → u64_ok addr → zlen b mod block_size (bd_info d) = 0 → 0 ≤ blk →
  blk * block_size (bd_info d) + zlen b ≤ zlen (bd_content d) →
  let off := blk * block_size (bd_info d) in
  wp (bd_write_blocks blk addr) (d, b)
    (λ _ s, bd_ok (fst s) ∧ bd_info (fst s) = bd_info d ∧ bd_content (fst s) = splice (bd_content d) off b ∧
            (bd_quiet d → bd_quiet (fst s)) ∧ snd s = b)
    (λ _ s, bd_ok (fst s) ∧ bd_info (fst s) = bd_info d ∧
            same_outside off (off + zlen b) (bd_content d) (bd_content (fst s)) ∧ ¬ bd_quiet d ∧ snd s = b).
Proof.
  intros Hd. rewrite (bd_info_geometry d Hd). intros Ha Hu Hz Hb Hle off.
  destruct (bd_write_run d blk addr b Hd) as (w1 & st & w2 & w3 & b' & (? & Hg1 & Hh1 & Hc1) & (? & Hg2 & -> & Hok & Herr) & (Hu3 & Hg3 & Hh3 & Hc3) & E); [done|].
  assert (Hi : bd_info (bd_with d w3) = geometry (media_of (bd_io d)) (bd_firmware d))
    by (rewrite (bd_info_geometry (bd_with d w3)) by exact Hu3; cbn; congruence).
  unfold wp. rewrite E. destruct (status_cases st) as [[-> ->]|[Hne [e ->]]]; cbn [map_err fst snd].
  - destruct (Hok eq_refl) as [Hq Hb']. rewrite Hg1, Hh1 in Hb'.
    split_and!; try done; [unfold bd_content; cbn; rewrite Hh3; exact Hb'|]. unfold bd_quiet. cbn. intros. apply Hc3, Hq, Hc1. done.
  - destruct (Herr Hne) as [Hq Hs]. rewrite Hg1, Hh1 in Hs. split_and!; try done.
    + unfold bd_content. cbn. by rewrite Hh3.
    + unfold bd_quiet. by rewrite Hc1.
Qed.

(** C10. A firmware that keeps the UEFI specification gives block devices that keep the
    contract of libstorage, with the blocking and with the event-driven protocol:
    a read of whole blocks returns exactly the bytes of the medium, a write
    changes exactly these bytes, both fail only on a device that is about to
    fail, and the program waits until the firmware gives its buffer back. *)
Theorem efi_block_io_contract d b blk addr :
  bd_ok d → addr mod alignment (bd_info d) = 0 → u64_ok addr → zlen b mod block_size (bd_info d) = 0 → 0 ≤ blk →
  blk * block_size (bd_info d) + zlen b ≤ zlen (bd_content d) →
  let off := blk * block_size (bd_info d) in
  wp (bd_read_blocks blk addr) (d, b)
    (λ _ s, bd_ok (fst s) ∧ bd_info (fst s) = bd_info d ∧ bd_content (fst s) = bd_content d ∧
            (bd_quiet d → bd_quiet (fst s)) ∧ snd s = slice (bd_content d) off (zlen b))
    (λ _ s, bd_ok (fst s) ∧ bd_info (fst s) = bd_info d ∧ bd_content (fst s) = bd_content d ∧
            ¬ bd_quiet d ∧ length (snd s) = length b) ∧
  wp (bd_write_blocks blk addr) (d, b)
    (λ _ s, bd_ok (fst s) ∧ bd_info (fst s) = bd_info d ∧ bd_content (fst s) = splice (bd_content d) off b ∧
            (bd_quiet d → bd_quiet (fst s)) ∧ snd s = b)
    (λ _ s, bd_ok (fst s) ∧ bd_info (fst s) = bd_info d ∧
            same_outside off (off + zlen b) (bd_content d) (bd_content (fst s)) ∧ ¬ bd_quiet d ∧ snd s = b).
Proof. intros. split; [by apply bd_read_law|by apply bd_write_law]. Qed.

#[export] Instance EfiBlockIoSpec : BlockIoSpec (EfiBlockDevice W).
Proof.
  refine {| content := bd_content; quiet := bd_quiet; dev_ok := bd_ok; read_law := bd_read_law; write_law := bd_write_law |}.
  intros d Hd. cbn [info EfiBlockIo]. rewrite (bd_info_geometry d Hd). by eapply usable_geometry.
Defined.
End Device.

(** ** An example *)

Module BlocksExample.
(** A medium of two blocks of four bytes. A transfer is finished at the second look
    at its event. *)
Record State := mkState { st_medium : bytes; st_busy : bool; st_buffer : bytes }.
#[local] Instance transfers : Transfers State := {| transfer_buffer w _ := st_buffer w; transaction_status _ _ := EFI_STATUS_SUCCESS |}.
Definition medium : EfiBlockIoMedia := mkMedia 3 false 4 0 1.
Definition read_ex (x : Z * Z * Z * Z * bytes) (w : State) : Z * unit * State :=
  let '(_, lba, _, _, b) := x in (EFI_STATUS_SUCCESS, tt, mkState (st_medium w) true (slice (st_medium w) (lba * 4) (zlen b))).
Definition write_ex (x : Z * Z * Z * Z * bytes) (w : State) : Z * unit * State :=
  let '(_, lba, _, _, b) := x in (EFI_STATUS_SUCCESS, tt, mkState (splice (st_medium w) (lba * 4) b) true b).
Definition interface : EfiBlockIo2Protocol State := mkBlockIo2 _ (Some (λ _, medium)) None (Some read_ex) (Some write_ex) None.
Definition look (_ : Z) (w : State) : Z * unit * State :=
  (if st_busy w then EFI_STATUS_NOT_READY else EFI_STATUS_SUCCESS, tt, mkState (st_medium w) false (st_buffer w)).
Definition services : EfiBootService State :=
  mkBootService _ None None None (Some (λ _ w, (EFI_STATUS_SUCCESS, 9, w))) None (Some (λ _ w, (EFI_STATUS_SUCCESS, tt, w)))
    (Some look) None None None None None.
Definition entry : EfiEntry State := mkEntry 1 (Some (mkSystemTable _ (Some services) None None)).
Definition protocol : Protocol (EfiBlockIo2Protocol State) := mkProtocol 7 (Some interface).

#[local] Instance block_firmware : BlockFirmware State.
Proof.
  refine {| held _ := st_medium; calm _ _ := True; media_of _ _ := medium;
            usable io e n w := io = Async protocol ∧ e = entry ∧ n = 2%nat ∧ zlen (st_medium w) = 8 |}.
  - intros io e n w (-> & -> & -> & Hl). unfold geometry. change (media_info medium) with (mkInfo 4 2 1).
    split; cbn [block_size num_blocks alignment]; rewrite ?Hl; lia.
  - intros v e n w (? & _). done.
  - intros v e n w ([= ->] & -> & -> & Hl).
    exists interface, read_ex, write_ex, services, (λ _ w, (EFI_STATUS_SUCCESS, 9, w)), look, (λ _ w, (EFI_STATUS_SUCCESS, tt, w)).
    cbv zeta. split_and!; try done.
    + intros x w' H. by exists 9, w'.
    + intros e w' H. by exists w'.
    + intros w' e blk addr b (_ & _ & _ & Hw) Hr. cbn. right. split; [done|]. left. by split_and!.
    + intros w' e blk addr b (_ & _ & _ & Hw) (_ & _ & _ & Hb & Hle). cbn in *. right. split; [done|]. left.
      split; [done|]. split_and!; try done; cbn. rewrite length_splice by lia. done.
Defined.

Definition device : EfiBlockDevice State :=
  mkBlockDevice (Async protocol) entry 2 (mkState [1; 2; 3; 4; 5; 6; 7; 8] false []).

(** The witness of [efi_block_io_contract]: the second block. *)
Lemma efi_block_io_contract_witness :
  wp (bd_read_blocks 1 4096) (device, [0; 0; 0; 0]) (λ _ s, snd s = [5; 6; 7; 8]) (λ _ _, False) ∧
  wp (bd_write_blocks 1 4096) (device, [9; 9; 9; 9]) (λ _ s, bd_content (fst s) = [1; 2; 3; 4; 9; 9; 9; 9]) (λ _ _, False).
Proof.
  assert (Hok : bd_ok device) by (split_and!; reflexivity).
  assert (Hu : u64_ok 4096) by (unfold u64_ok; lia). split.
  - destruct (efi_block_io_contract device [0; 0; 0; 0] 1 4096 Hok eq_refl Hu eq_refl ltac:(lia) ltac:(by vm_compute)) as [H _].
    eapply wp_mono; [exact H|by intros [] s (_ & _ & _ & _ & ->)|]. intros e s (_ & _ & _ & Hq & _). by apply Hq.
  - destruct (efi_block_io_contract device [9; 9; 9; 9] 1 4096 Hok eq_refl Hu eq_refl ltac:(lia) ltac:(by vm_compute)) as [_ H].
    eapply wp_mono; [exact H|by intros [] s (_ & _ & -> & _)|]. intros e s (_ & _ & _ & Hq & _). by apply Hq.
Defined.
End BlocksExample.
