(* ===== verification/EfiFastboot.v ===== *)
(** * efi: the transports of fastboot

    Models src/gbl/libefi/src/protocol/gbl_efi_fastboot_usb.rs,
    src/gbl/libefi/src/local_session.rs and the USB part of
    src/gbl/efi/src/fastboot.rs: the transport over the USB protocol of the
    firmware with its buffer for a packet that was polled before it is asked
    for, the local session, and the container of background tasks. *)

From S2P Require Import Prelude SafeMath LibError Text Fastboot Async GblRun.
From S2P Require Import Efi EfiProtocols EfiTimer.

(** ** GBL_EFI_FASTBOOT_USB_PROTOCOL *)

(** [GblEfiFastbootUsbProtocol]: receive and send get and store a size. *)
Record GblEfiFastbootUsbProtocol (W : Type) := mkUsbProtocol {
  fn_usb_interface_start : efi_fn W Z;
  fn_usb_interface_stop : efi_fn W unit;
  fn_usb_receive : efi_fn (W * bytes) Z;
  fn_usb_send : option (bytes → W → Z * Z * W);
  usb_send_event : Z;
}.
Arguments fn_usb_interface_start {W}. Arguments fn_usb_interface_stop {W}. Arguments fn_usb_receive {W}.
Arguments fn_usb_send {W}. Arguments usb_send_event {W}.

Section Usb.
Context {W : Type} (entry : EfiEntry W) (p : Protocol (GblEfiFastbootUsbProtocol W)).
Abbreviation M := (ST W Error).

(** gbl/libefi/src/protocol/gbl_efi_fastboot_usb.rs:39-55, [Protocol::fastboot_usb_interface_start]: the maximal size
    of a packet. *)
Definition fastboot_usb_interface_start : M Z := call_interface p fn_usb_interface_start.
(** gbl/libefi/src/protocol/gbl_efi_fastboot_usb.rs:57-64, [Protocol::fastboot_usb_interface_stop]. *)
Definition fastboot_usb_interface_stop : M unit := call_interface p fn_usb_interface_stop.
(** gbl/libefi/src/protocol/gbl_efi_fastboot_usb.rs:66-85, [Protocol::fastboot_usb_receive]. *)
Definition fastboot_usb_receive : ST (W * bytes) Error Z := call_interface_bufsize p id fn_usb_receive.
(** gbl/libefi/src/protocol/gbl_efi_fastboot_usb.rs:87-106, [Protocol::fastboot_usb_send]. *)
Definition fastboot_usb_send (data : bytes) : M Z :=
  call_interface_bufsize p id (λ i, app_fn (fn_usb_send i) data).
(** gbl/libefi/src/protocol/gbl_efi_fastboot_usb.rs:108-111, [Protocol::wait_for_send_completion]. *)
Definition wait_for_send_completion : result Event := i ← interface p; Ok (mkEvent false (usb_send_event i)).

(** gbl/libefi/src/protocol/gbl_efi_fastboot_usb.rs:113-122, [Protocol::receive_packet]: with at most [fuel]
    attempts. *)
Fixpoint usb_receive_packet (fuel : nat) : FST (W * bytes) Z :=
  match fuel with
  | 0%nat => out_of_fuel
  | S fuel =>
      r ← fueled (attempt fastboot_usb_receive);
      match r with
      | inl out_size => mret out_size
      | inr NotReady => usb_receive_packet fuel
      | inr e => raise (Some e)
      end
  end.
(** gbl/libefi/src/protocol/gbl_efi_fastboot_usb.rs:124-131, [Protocol::wait_send]: a poll of the future; its result
    is a value. *)
Definition wait_send : M (option (unit + Error)) :=
  bs ← lift (boot_services entry);
  r ← attempt (event ← lift wait_for_send_completion; check_event bs event);
  mret (match r with inl true => Some (inl tt) | inl false => None | inr e => Some (inr e) end).
(** gbl/libefi/src/protocol/gbl_efi_fastboot_usb.rs:133-137, [Protocol::send_packet]. *)
Definition usb_send_packet (fuel : nat) (data : bytes) (timeout : Z) : FST W unit :=
  _ ← fueled (fastboot_usb_send data);
  r ← with_timeout entry fuel wait_send timeout;
  match r with
  | None => raise (Some LibError.Timeout)
  | Some (inl _) => mret tt
  | Some (inr e) => raise (Some e)
  end.
End Usb.

(** ** The transport *)

(** gbl/efi/src/fastboot.rs:42-42, [DEFAULT_TIMEOUT]: in nanoseconds. *)
Definition DEFAULT_TIMEOUT : Z := 5 * 10 ^ 9.

(** gbl/efi/src/fastboot.rs:96-106, [UsbTransport]: with the firmware, and how often a wait may poll it. *)
Record UsbTransport (W : Type) := mkUsb {
  max_packet_size : Z;
  ut_protocol : Protocol (GblEfiFastbootUsbProtocol W);
  io_yield_counter : YieldCounter;
  prefetched : bytes * Z;
  ut_entry : EfiEntry W; ut_polls : nat; ut_firmware : W;
}.
Arguments mkUsb {W}. Arguments max_packet_size {W}. Arguments ut_protocol {W}. Arguments io_yield_counter {W}.
Arguments prefetched {W}. Arguments ut_entry {W}. Arguments ut_polls {W}. Arguments ut_firmware {W}.

Section Transport.
Context {W : Type}.
Implicit Types t : UsbTransport W.

Definition ut_set_firmware (w : W) t : UsbTransport W :=
  mkUsb (max_packet_size t) (ut_protocol t) (io_yield_counter t) (prefetched t) (ut_entry t) (ut_polls t) w.
Definition ut_set_prefetched (v : bytes * Z) t : UsbTransport W :=
  mkUsb (max_packet_size t) (ut_protocol t) (io_yield_counter t) v (ut_entry t) (ut_polls t) (ut_firmware t).
(** [io_yield_counter.increment(n).await]: the yields change nothing here. *)
Definition count_io (n : Z) t : UsbTransport W :=
  let c := io_yield_counter t in
  let current := Z.max 0 (current c - n) in
  mkUsb (max_packet_size t) (ut_protocol t)
    (mkYieldCounter (threshold c) (if current =? 0 then threshold c else current))
    (prefetched t) (ut_entry t) (ut_polls t) (ut_firmware t).

(** gbl/efi/src/fastboot.rs:109-116, [UsbTransport::new]. *)
Definition usb_transport_new (entry : EfiEntry W) (polls : nat) (w : W) (max_packet_size : Z)
    (protocol : Protocol (GblEfiFastbootUsbProtocol W)) : UsbTransport W :=
  mkUsb max_packet_size protocol (yield_counter_new (1024 * 1024)) (zeros max_packet_size, 0) entry polls w.

(** gbl/efi/src/fastboot.rs:118-134, [UsbTransport::poll_next_packet]. *)
Definition poll_next_packet : ST (UsbTransport W) Error bool := λ t,
  let '(pkt, len) := prefetched t in
  if len =? 0 then
    let '(r, (w, pkt)) := fastboot_usb_receive (ut_protocol t) (ut_firmware t, pkt) in
    let t := ut_set_firmware w t in
    match r with
    | Ok out_size => (Ok true, ut_set_prefetched (pkt, out_size) t)
    | Err NotReady => (Ok false, ut_set_prefetched (pkt, len) t)
    | Err e => (Err e, ut_set_prefetched (pkt, len) t)
    | Panic => (Panic, ut_set_prefetched (pkt, len) t)
    end
  else (Ok true, t).

(** gbl/efi/src/fastboot.rs:138-153, [Transport::receive_packet for UsbTransport]. *)
Definition usb_receive : ST (UsbTransport W * bytes) Error Z :=
  '(t, out) ← gets id;
  let '(pkt, len) := prefetched t in
  len ← (if 0 <? len then
           if zlen out <? len then raise (BufferTooSmall (Some len)) else
           src ← lift (ok_or (get_range pkt 0 len) (error_of_str "Invalid USB read size"));
           modify (λ _, (ut_set_prefetched (pkt, 0) t, splice out 0 src));;
           mret len
         else
           zoom (λ s, (ut_firmware (fst s), snd s)) (λ v s, (ut_set_firmware (fst v) (fst s), snd v))
             (completed (usb_receive_packet (ut_protocol t) (ut_polls t))));
  modify (λ s, (count_io len (fst s), snd s));;
  mret len.

(** gbl/efi/src/fastboot.rs:155-167, [Transport::send_packet for UsbTransport]: the rest [curr] of the packet, in at
    most [fuel] pieces. *)
Fixpoint usb_send_loop (fuel : nat) (curr : bytes) : ST (UsbTransport W) Error unit :=
  if bool_decide (curr = []) then mret tt else
  match fuel with
  | 0%nat => lift Panic
  | S fuel =>
      t ← gets id;
      let to_send := Z.min (zlen curr) (max_packet_size t) in
      zoom ut_firmware ut_set_firmware
        (completed (usb_send_packet (ut_entry t) (ut_protocol t) (ut_polls t) (slice curr 0 to_send) DEFAULT_TIMEOUT));;
      modify (count_io to_send);;
      usb_send_loop fuel (slice curr to_send (zlen curr - to_send))
  end.
(** gbl/efi/src/fastboot.rs:155-167, [Transport::send_packet for UsbTransport]. *)
Definition usb_send (packet : bytes) : ST (UsbTransport W) Error unit := usb_send_loop (length packet) packet.

#[export] Instance UsbTransportTransport : Transport (UsbTransport W) := {|
  Fastboot.receive_packet := usb_receive; Fastboot.send_packet := usb_send |}.

(** gbl/efi/src/fastboot.rs:171-176, [GblUsbTransport::has_packet for UsbTransport]. *)
Definition usb_has_packet : ST (UsbTransport W) Error bool := λ t,
  let '(r, t) := poll_next_packet t in (match r with Err _ => Ok false | r => r end, t).
#[export] Instance UsbTransportGbl : GblUsbTransport (UsbTransport W) := {| has_packet := usb_has_packet |}.

(** gbl/efi/src/fastboot.rs:179-187, [init_usb]. *)
Definition init_usb `{!ProtocolInfo (GblEfiFastbootUsbProtocol W)} (entry : EfiEntry W) (polls : nat)
    : ST W Error (UsbTransport W) :=
  protocol ← find_first_and_open entry (GblEfiFastbootUsbProtocol W);
  r ← attempt (fastboot_usb_interface_stop protocol);
  match r with
  | inr NotStarted | inl _ =>
      n ← fastboot_usb_interface_start protocol;
      w ← gets id;
      mret (usb_transport_new entry polls w n protocol)
  | inr e => raise e
  end.
End Transport.

(** ** The local session *)

(** gbl/libefi/src/local_session.rs:27-32, [LocalFastbootSession]: with the firmware. *)
Record LocalFastbootSession (W : Type) := mkLocal {
  lf_timer : RecurringTimer;
  lf_protocol : Protocol (GblEfiFastbootProtocol W);
  lf_context : Z;
  lf_entry : EfiEntry W; lf_polls : nat; lf_firmware : W;
}.
Arguments mkLocal {W}. Arguments lf_timer {W}. Arguments lf_protocol {W}. Arguments lf_context {W}.
Arguments lf_entry {W}. Arguments lf_polls {W}. Arguments lf_firmware {W}.

Section Local.
Context {W : Type}.

(** gbl/libefi/src/local_session.rs:35-44, [LocalFastbootSession::start]: the timer is dropped if the session does
    not start. *)
Definition local_session_start `{!ProtocolInfo (GblEfiFastbootProtocol W)} (entry : EfiEntry W) (polls : nat) (timeout : Z)
    : ST W Error (LocalFastbootSession W) :=
  timer ← recurring_new entry timeout;
  r ← attempt (protocol ← find_first_and_open entry (GblEfiFastbootProtocol W);
               context ← FastbootProtocol.start_local_session protocol;
               mret (protocol, context));
  match r with
  | inl (protocol, context) => w ← gets id; mret (mkLocal timer protocol context entry polls w)
  | inr e => drop_event entry (rt_timer timer);; raise e
  end.

Definition lf_set_firmware (w : W) (l : LocalFastbootSession W) : LocalFastbootSession W :=
  mkLocal (lf_timer l) (lf_protocol l) (lf_context l) (lf_entry l) (lf_polls l) w.
(** gbl/libefi/src/local_session.rs:48-52, [LocalSession::update for LocalFastbootSession]. *)
Definition local_session_update : ST (LocalFastbootSession W * bytes) Error Z :=
  l ← gets fst;
  zoom (λ s, (lf_firmware (fst s), snd s)) (λ v s, (lf_set_firmware (fst v) (fst s), snd v))
    (beside (completed (recurring_wait (lf_entry l) (lf_polls l) (lf_timer l)));;
     FastbootProtocol.update_local_session (lf_protocol l) (lf_context l)).
(** The default of [LocalSession::process_outgoing_packet] drops the packet. *)
#[export] Instance LocalSessionEfi : LocalSession (LocalFastbootSession W) := {|
  ls_update := local_session_update; process_outgoing_packet _ l := l |}.
(** gbl/libefi/src/local_session.rs:56-58, [Drop::drop for LocalFastbootSession]: and of its timer. *)
Definition local_session_drop : ST (LocalFastbootSession W) Error unit :=
  l ← gets id;
  zoom lf_firmware lf_set_firmware
    (_ ← attempt (FastbootProtocol.close_local_session (lf_protocol l) (lf_context l));
     drop_event (lf_entry l) (rt_timer (lf_timer l))).
End Local.

(** ** Background tasks *)

Section Tasks.
Context {F S E : Type}.

(** gbl/efi/src/fastboot.rs:194-196, [PinFutContainer::add_with for VecPinFut]. *)
Definition vec_add_with (f : F) (l : list F) : list F := l ++ [f].

(** [Vec::swap_remove]. *)
Definition vec_swap_remove (i : nat) (l : list F) : list F :=
  match last l with
  | Some x => take (length l - 1) (<[i := x]> l)
  | None => l
  end.
(** gbl/efi/src/fastboot.rs:198-205, [PinFutContainer::for_each_remove_if for VecPinFut]: the indices below [n], from
    the last one. *)
Fixpoint vec_remove_loop (cb : F → ST S E (bool * F)) (n : nat) : ST (list F * S) E unit :=
  match n with
  | 0%nat => mret tt
  | Datatypes.S idx =>
      l ← gets fst;
      f ← lift (unwrap (l !! idx));
      '(remove, f) ← zoom snd (λ t s, (fst s, t)) (cb f);
      modify (λ s, (let l := <[idx := f]> (fst s) in if remove : bool then vec_swap_remove idx l else l, snd s));;
      vec_remove_loop cb idx
  end.
(** gbl/efi/src/fastboot.rs:198-205, [PinFutContainer::for_each_remove_if for VecPinFut]. *)
Definition vec_for_each_remove_if (cb : F → ST S E (bool * F)) : ST (list F * S) E unit :=
  l ← gets fst; vec_remove_loop cb (length l).
End Tasks.
