(* ===== verification/EfiFastbootProps.v ===== *)
(** * Fastboot over USB: packets are neither lost nor changed

    On a USB protocol that delivers packets in order, polling for a packet and
    receiving it can be interleaved in any way; what is sent goes out in pieces
    that fit a packet. *)

From S2P Require Import Prelude SafeMath LibError Text Fastboot FastbootTasks Async GblRun.
From S2P Require Import Efi EfiProtocols EfiTimer EfiFastboot.

(** ** Receiving *)

(** What the firmware promises: [incoming] are the packets that wait; a call of
    the receive function takes the first of them, if it fits. *)
Class UsbQueue {W : Type} (incoming : W → list bytes) (rcv : W * bytes → Z * Z * (W * bytes)) : Prop := {
  rcv_empty : ∀ w b, incoming w = [] →
    ∃ n w', rcv (w, b) = (EFI_STATUS_NOT_READY, n, (w', b)) ∧ incoming w' = [];
  rcv_packet : ∀ w b p l, incoming w = p :: l → zlen p ≤ zlen b →
    ∃ w', rcv (w, b) = (EFI_STATUS_SUCCESS, zlen p, (w', splice b 0 p)) ∧ incoming w' = l;
}.

Section Receive.
Context {W : Type} {incoming : W → list bytes} {rcv : W * bytes → Z * Z * (W * bytes)} `{!UsbQueue incoming rcv}.
Implicit Types t : UsbTransport W.

(** The buffer of the transport has the size of a packet, and the host sends no
    empty and no larger packets. *)
Record usb_ok t : Prop := {
  uk_fn : ∃ i, pr_interface (ut_protocol t) = Some i ∧ fn_usb_receive i = Some rcv;
  uk_buffer : zlen (fst (prefetched t)) = max_packet_size t;
  uk_len : 0 ≤ snd (prefetched t) ≤ max_packet_size t;
  uk_packets : Forall (λ p, 0 < zlen p ≤ max_packet_size t) (incoming (ut_firmware t));
  uk_polls : (0 < ut_polls t)%nat;
}.
(** The packets that were not received yet. *)
Definition pending t : list bytes :=
  (if 0 <? snd (prefetched t) then [slice (fst (prefetched t)) 0 (snd (prefetched t))] else []) ++ incoming (ut_firmware t).

Lemma receive_call t s : usb_ok t →
  fastboot_usb_receive (ut_protocol t) s =
    let '(st, n, s') := rcv s in
    (if st =? EFI_STATUS_BUFFER_TOO_SMALL then Err (BufferTooSmall (Some n)) else efi_status_to_result st;; Ok n, s').
Proof.
  intros [(i & Hi & Hf) _ _ _ _]. unfold fastboot_usb_receive, call_interface_bufsize, interface.
  rewrite bind_run, lift_run, Hi. cbn. by rewrite Hf.
Qed.

Lemma poll_next_spec t :
  usb_ok t →
  ∃ t', poll_next_packet t = (Ok (negb (bool_decide (pending t = []))), t') ∧ usb_ok t' ∧ pending t' = pending t.
Proof.
  intros Hok. pose proof Hok as [Hfn Hb Hl Hp Hn]. unfold poll_next_packet, pending. destruct (prefetched t) as [pkt len] eqn:Epf. cbn [fst snd] in *.
  destruct (len =? 0) eqn:E0; bools.
  - subst len. rewrite (receive_call t) by done. cbn [Z.ltb Z.compare app].
    destruct (incoming (ut_firmware t)) as [|p l] eqn:Ein.
    + destruct (rcv_empty _ pkt Ein) as (n & w' & -> & Ein'). cbn. eexists. split; [done|]. split; [|cbn; by rewrite Ein'].
      split; cbn; try done. by rewrite Ein'.
    + apply Forall_cons in Hp as [Hp0 Hp]. destruct (rcv_packet _ pkt p l Ein ltac:(lia)) as (w' & -> & Ein'). cbn. eexists. split; [done|].
      split; [split; cbn; try done; rewrite ?length_splice by lia; rewrite ?Ein'; lia || done|].
      cbn. rewrite (proj2 (Z.ltb_lt 0 _)) by lia. by rewrite slice_splice_eq, Ein' by lia.
  - exists t. split; [|split; [done|by rewrite Epf]]. rewrite (proj2 (Z.ltb_lt 0 _)) by lia. by rewrite bool_decide_eq_false_2.
Qed.

Lemma usb_receive_spec t out p l :
  usb_ok t → pending t = p :: l → zlen p ≤ zlen out →
  ∃ t', usb_receive (t, out) = (Ok (zlen p), (t', splice out 0 p)) ∧ usb_ok t' ∧ pending t' = l.
Proof.
  intros Hok Hpend Hout. pose proof Hok as [Hfn Hb Hl Hp Hn]. unfold usb_receive. rewrite bind_run, gets_run. cbn [id].
  unfold pending in *. destruct (prefetched t) as [pkt len] eqn:Epf. cbn [fst snd] in *.
  destruct (0 <? len) eqn:E0; bools; cbn [app] in Hpend.
  - injection Hpend as <- Hin. rewrite zlen_slice in * by lia. rewrite (proj2 (Z.ltb_ge _ _)) by lia.
    rewrite !bind_run, lift_run, get_range_Some by lia. cbn [ok_or]. rewrite !bind_run, !modify_run, !mret_run. cbn [fst snd].
    rewrite Z.sub_0_r. eexists. split; [done|]. split; [split; cbn; try done; lia|]. by cbn.
  - assert (len = 0) as -> by lia. rewrite bind_run. unfold zoom, completed. cbn [fst snd].
    destruct (ut_polls t) as [|n] eqn:Ep; [lia|]. cbn [usb_receive_packet]. rewrite bind_run. unfold fueled at 1.
    rewrite attempt_run, (receive_call t) by done. rewrite Hpend in Hp. apply Forall_cons in Hp as [Hp0 Hp].
    destruct (rcv_packet _ out p l Hpend Hout) as (w' & -> & Ein'). cbn. eexists. split; [done|]. cbn. rewrite ?Epf. cbn. rewrite Ein'.
    split; [|done]. split; cbn; rewrite ?Epf, ?Ep; cbn; rewrite ?Ein'; done || lia.
Qed.

(** C34. Polling says whether packets are there and takes none away, and receiving
    returns the first packet that was not received, whether it was polled before or not:
    over any sequence of both, no packet is lost, duplicated or reordered. *)
Theorem usb_packets_in_order t :
  usb_ok t →
  (∃ t', usb_has_packet t = (Ok (negb (bool_decide (pending t = []))), t') ∧ usb_ok t' ∧ pending t' = pending t) ∧
  (∀ out p l, pending t = p :: l → zlen p ≤ zlen out →
     ∃ t', usb_receive (t, out) = (Ok (zlen p), (t', splice out 0 p)) ∧ usb_ok t' ∧ pending t' = l).
Proof.
  intros Hok. split; [|intros; by eapply usb_receive_spec].
  destruct (poll_next_spec t Hok) as (t' & E & ? & ?). exists t'. unfold usb_has_packet. by rewrite E.
Qed.
End Receive.

(** ** Sending *)

Section Send.
Context {W : Type} (outgoing : W → list bytes).

(** A computation that sends nothing. *)
Definition silent {E A} (m : ST W E A) : Prop := ∀ w, outgoing (snd (m w)) = outgoing w.

Lemma silent_bind {E A B} (m : ST W E A) (f : A → ST W E B) : silent m → (∀ a, silent (f a)) → silent (m ≫= f).
Proof. intros Hm Hf w. rewrite bind_run. specialize (Hm w). destruct (m w) as [[a|e|] w']; cbn in *; [|done..]. by rewrite Hf. Qed.
Lemma silent_lift {E A} (r : outcome E A) : silent (lift r).
Proof. done. Qed.
Lemma silent_attempt {E A} (m : ST W E A) : silent m → silent (attempt m).
Proof. intros Hm w. rewrite attempt_run. specialize (Hm w). by destruct (m w) as [[a|e|] w']. Qed.
Lemma silent_fueled {A} (m : ST W Error A) : silent m → silent (fueled m).
Proof. intros Hm w. unfold fueled. specialize (Hm w). by destruct (m w). Qed.
Lemma silent_unwrap {E A} (m : ST W E A) : silent m → silent (unwrap_st (E' := E) m).
Proof. intros Hm w. unfold unwrap_st. specialize (Hm w). by destruct (m w). Qed.
Lemma silent_call {A} (f : efi_fn W A) : (∀ g w, f = Some g → outgoing (snd (g w)) = outgoing w) → silent (efi_call f).
Proof.
  intros Hf w. unfold efi_call. destruct f as [g|]; [|done]. specialize (Hf g w eq_refl). by destruct (g w) as [[st a] w'].
Qed.

(** The services for events send nothing. *)
Record quiet_events (bs : EfiBootService W) : Prop := {
  qe_create : ∀ x, silent (efi_call (app_fn (fn_create_event bs) x));
  qe_timer : ∀ x, silent (efi_call (app_fn (fn_set_timer bs) x));
  qe_close : ∀ x, silent (efi_call (app_fn (fn_close_event bs) x));
  qe_check : ∀ x, silent (efi_call (app_fn (fn_check_event bs) x));
}.

Context (entry : EfiEntry W) (Hev : ∀ bs, boot_services entry = Ok bs → quiet_events bs).

Lemma silent_services {A} (f : EfiBootService W → ST W Error A) :
  (∀ bs, quiet_events bs → silent (f bs)) → silent (lift (boot_services entry) ≫= f).
Proof.
  intros Hf w. rewrite bind_run, lift_run. destruct (boot_services entry) as [bs|e|] eqn:E1; try done. apply Hf, Hev. done.
Qed.
Lemma silent_drop e : silent (drop_event entry e).
Proof.
  unfold drop_event. destruct (ev_owned e); [|done]. apply silent_services. intros bs Hb.
  apply silent_unwrap, Hb.
Qed.
Lemma silent_check bs e : quiet_events bs → silent (check_event bs e).
Proof. intros Hb w. unfold check_event. pose proof (qe_check _ Hb (efi_event e) w) as H. by destruct (efi_call _ w) as [[[]|[]|] w']. Qed.
Lemma silent_timeout_new n : silent (timeout_new entry n).
Proof.
  unfold timeout_new, start_timer. apply silent_bind; [|done]. apply silent_services. intros bs Hb.
  apply silent_bind; [apply silent_bind; [apply Hb|done]|]. intros e. apply silent_bind; [apply silent_attempt|].
  - unfold set_timer. apply silent_bind; [apply silent_lift|]. intros x. apply Hb.
  - intros [[]|e']; [done|]. apply silent_bind; [apply silent_drop|done].
Qed.
Lemma silent_timeout_check t : silent (timeout_check entry t).
Proof. apply silent_services. intros bs Hb. by apply silent_check. Qed.
Lemma silent_wait_send p : silent (wait_send entry p).
Proof.
  apply silent_services. intros bs Hb. apply silent_bind; [|done]. apply silent_attempt, silent_bind; [done|].
  intros e. by apply silent_check.
Qed.
Lemma silent_with_timeout {A} fuel (fut : ST W Error (option A)) n : silent fut → silent (with_timeout entry fuel fut n).
Proof.
  intros Hf. assert (Hl : ∀ t, silent (with_timeout_loop entry fuel t fut)).
  { intros t. induction fuel as [|fuel IH]; [done|]. cbn [with_timeout_loop].
    apply silent_bind; [apply silent_fueled, silent_attempt, silent_timeout_check|]. intros [[]|e].
    - apply silent_bind; [apply silent_fueled, silent_drop|intros; by apply silent_fueled].
    - apply silent_bind; [by apply silent_fueled|]. intros [a|]; [|done]. apply silent_bind; [apply silent_fueled, silent_drop|done].
    - apply silent_bind; [apply silent_fueled, silent_drop|]. intros. apply silent_bind; [by apply silent_fueled|done]. }
  apply silent_bind; [apply silent_fueled, silent_attempt, silent_timeout_new|]. intros [t|e]; [done|].
  apply silent_bind; [by apply silent_fueled|done].
Qed.

(** The function that sends: it takes the packet or fails. *)
Context (p : Protocol (GblEfiFastbootUsbProtocol W)) (i : GblEfiFastbootUsbProtocol W) (snd_fn : bytes → W → Z * Z * W).
Hypothesis Hi : pr_interface p = Some i.
Hypothesis Hsnd : fn_usb_send i = Some snd_fn.
Hypothesis send_law : ∀ data w,
  let '(st, _, w') := snd_fn data w in outgoing w' = outgoing w ++ (if st =? EFI_STATUS_SUCCESS then [data] else []).

Lemma usb_send_packet_out fuel data n w :
  let '(r, w') := completed (usb_send_packet entry p fuel data n) w in
  ∃ l, outgoing w' = outgoing w ++ l ∧ (l = [data] ∨ (l = [] ∧ r ≠ Ok tt)).
Proof.
  unfold completed, usb_send_packet. rewrite bind_run. unfold fueled at 1.
  unfold fastboot_usb_send, call_interface_bufsize, interface. rewrite bind_run, lift_run, Hi. cbn [ok_or]. unfold efi_call_bufsize.
  rewrite Hsnd. cbn [app_fn option_map]. pose proof (send_law data w) as Hs. destruct (snd_fn data w) as [[st k] w1].
  destruct (st =? EFI_STATUS_SUCCESS) eqn:E; bools.
  - subst st. cbn [map_err]. change (EFI_STATUS_SUCCESS =? EFI_STATUS_BUFFER_TOO_SMALL) with false. cbn [map_err].
    change (efi_status_to_result EFI_STATUS_SUCCESS;; Ok k) with (Ok k : result Z). cbn [map_err]. rewrite bind_run.
    pose proof (silent_with_timeout fuel (wait_send entry p) n (silent_wait_send p) w1) as Ht.
    destruct (with_timeout _ _ _ _ w1) as [[[[[]|x]|]|[e|]|] w2]; cbn in Ht |- *; exists [data]; (split; [congruence|by left]).
  - rewrite app_nil_r in Hs. unfold efi_status_to_result. rewrite (proj2 (Z.eqb_neq st EFI_STATUS_SUCCESS)) by done.
    destruct (st =? EFI_STATUS_BUFFER_TOO_SMALL); cbn; exists []; rewrite app_nil_r; by split; [|right].
Qed.

Lemma usb_send_loop_out fuel curr (t : UsbTransport W) :
  ut_protocol t = p → ut_entry t = entry → 0 < max_packet_size t → (length curr ≤ fuel)%nat →
  let '(r, t') := usb_send_loop fuel curr t in
  ∃ l, outgoing (ut_firmware t') = outgoing (ut_firmware t) ++ l ∧ Forall (λ x, 0 < zlen x ≤ max_packet_size t) l ∧
    mjoin l `prefix_of` curr ∧ (r = Ok tt → mjoin l = curr).
Proof.
  revert curr t. induction fuel as [|fuel IH]; intros curr t Hp He Hmax Hlen; cbn [usb_send_loop].
  { assert (curr = []) as -> by (by apply nil_length_inv; lia). exists []. by rewrite app_nil_r. }
  case_bool_decide as Hc; [subst curr; exists []; by rewrite app_nil_r|]. assert (0 < zlen curr) by (destruct curr; [done|cbn; lia]).
  rewrite bind_run, gets_run. cbn [id]. set (n := Z.min (zlen curr) (max_packet_size t)). rewrite bind_run. unfold zoom. rewrite Hp, He.
  pose proof (usb_send_packet_out (ut_polls t) (slice curr 0 n) DEFAULT_TIMEOUT (ut_firmware t)) as Hout.
  assert (Hn : zlen (slice curr 0 n) = n) by (apply zlen_slice; lia).
  assert (Hcurr : curr = slice curr 0 n ++ slice curr n (zlen curr - n)).
  { pose proof (slice_app_split curr 0 n (zlen curr - n) ltac:(lia) ltac:(lia) ltac:(lia) ltac:(lia)) as Hs.
    rewrite (slice_all curr (n + _)) in Hs by lia. symmetry. exact Hs. }
  destruct (completed _ _) as [r w1]. destruct Hout as (l1 & Hl1 & Hcase).
  assert (Hone : Forall (λ x, 0 < zlen x ≤ max_packet_size t) l1 ∧ mjoin l1 `prefix_of` curr).
  { destruct Hcase as [->|[-> _]]; [|split; [done|apply prefix_nil]]. cbn. rewrite app_nil_r.
    split; [constructor; [|done]; lia|]. rewrite Hcurr at 2. by eexists. }
  destruct r as [[]|e|]; [|exists l1; by destruct Hone..]. destruct Hcase as [->|[_ Hr]]; [|done].
  rewrite bind_run, modify_run. set (t1 := count_io n (ut_set_firmware w1 t)).
  specialize (IH (slice curr n (zlen curr - n)) t1 Hp He Hmax ltac:(apply Nat2Z.inj_le; rewrite zlen_slice; lia)).
  destruct (usb_send_loop _ _ _) as [r t']. destruct IH as (l & Hl & Hfa & Hpre & Hok). exists (slice curr 0 n :: l).
  change (mjoin (slice curr 0 n :: l)) with (slice curr 0 n ++ mjoin l). rewrite Hl. cbn [ut_firmware t1 count_io ut_set_firmware]. rewrite Hl1, <-app_assoc. split; [done|]. split; [constructor; [lia|done]|]. split.
  - rewrite Hcurr at 2. by apply prefix_app.
  - intros Hr. rewrite Hcurr at 2. by rewrite (Hok Hr).
Qed.

(** A packet goes out in pieces that are not empty and fit a packet of the
    interface; their concatenation is the packet when the transport reports
    success, and a prefix of it however the transport fails. *)
Theorem usb_send_exact packet (t : UsbTransport W) :
  ut_protocol t = p → ut_entry t = entry → 0 < max_packet_size t →
  let '(r, t') := usb_send packet t in
  ∃ l, outgoing (ut_firmware t') = outgoing (ut_firmware t) ++ l ∧ Forall (λ x, 0 < zlen x ≤ max_packet_size t) l ∧
    mjoin l `prefix_of` packet ∧ (r = Ok tt → mjoin l = packet).
Proof. intros. by apply usb_send_loop_out. Qed.
End Send.

(** ** Background tasks *)

Section Tasks.
Context {F S : Type} (cb : F → ST S Error (bool * F)).

(** The tasks of the preallocated container. *)
Definition same_tasks (p : PinFutSlice F) (l : list F) : Prop :=
  pf_used p = zlen l ∧ take (length l) (pf_arr p) = l ∧ (length l ≤ length (pf_arr p))%nat ∧ zlen l < 2 ^ 64.

Lemma same_tasks_lookup p l i : same_tasks p l → (i < length l)%nat → pf_arr p !! i = l !! i.
Proof. intros (_ & Hl & _) Hi. rewrite <-Hl. by rewrite lookup_take_lt. Qed.

Lemma same_tasks_insert p l i f :
  same_tasks p l → (i < length l)%nat → same_tasks (mkSlice (<[i := f]> (pf_arr p)) (pf_used p)) (<[i := f]> l).
Proof.
  intros (Hu & Hl & Hle & Hm) Hi. split_and!; cbn; rewrite ?length_insert; [done| |done..].
  by rewrite take_insert_lt, Hl by done.
Qed.

Lemma length_vec_swap_remove (l : list F) i : length (vec_swap_remove i l) = (length l - 1)%nat.
Proof.
  unfold vec_swap_remove. destruct (last l) eqn:E; [rewrite length_take, length_insert; lia|]. by apply last_None in E as ->.
Qed.

Lemma same_tasks_remove p l i :
  same_tasks p l → (i < length l)%nat →
  ∃ arr, swap (E := Error) (pf_arr p) i (length l - 1) = Ok arr ∧
    same_tasks (mkSlice arr (pf_used p - 1)) (vec_swap_remove i l).
Proof.
  intros Hs Hi. pose proof Hs as (Hu & Hl & Hle & Hm).
  destruct (lookup_lt_is_Some_2 l i Hi) as [x Hx]. destruct (lookup_lt_is_Some_2 l (length l - 1) ltac:(lia)) as [y Hy].
  unfold swap. rewrite !(same_tasks_lookup p l) by (done || lia). rewrite Hx, Hy. cbn. eexists. split; [done|].
  unfold vec_swap_remove. rewrite last_lookup. replace (Init.Nat.pred (length l)) with (length l - 1)%nat by lia. rewrite Hy.
  assert (Hlen : length (take (length l - 1) (<[i:=y]> l)) = (length l - 1)%nat) by (rewrite length_take, length_insert; lia).
  split_and!; cbn; rewrite ?Hlen, ?length_insert; [lia| |lia..].
  apply list_eq. intros k. destruct (decide (k < length l - 1)%nat) as [Hk|Hk].
  - rewrite !lookup_take_lt by done. destruct (decide (k = i)) as [->|Hne].
    + by rewrite !list_lookup_insert_eq by (rewrite ?length_insert; lia).
    + rewrite !list_lookup_insert_ne by lia. by apply (same_tasks_lookup p l); [|lia].
  - by rewrite !lookup_take_ge by lia.
Qed.

Lemma remove_loop_same n p l s :
  same_tasks p l → (n ≤ length l)%nat →
  let '(r1, (p', s1)) := remove_loop cb n (p, s) in
  let '(r2, (l', s2)) := vec_remove_loop cb n (l, s) in
  r1 = r2 ∧ s1 = s2 ∧ same_tasks p' l'.
Proof.
  revert p l s. induction n as [|n IH]; intros p l s Hs Hn; [done|]. cbn [remove_loop vec_remove_loop].
  destruct (lookup_lt_is_Some_2 l n ltac:(lia)) as [f Hf].
  rewrite !bind_run, !gets_run. cbn [id fst snd]. rewrite !bind_run, !lift_run. rewrite (same_tasks_lookup p l) by (done || lia).
  rewrite Hf. cbn [unwrap]. rewrite !bind_run. unfold zoom. cbn [fst snd].
  destruct (cb f s) as [[[[] f']|e|] s'] eqn:Ec; cbn; [| |done..].
  - pose proof (same_tasks_insert p l n f' Hs ltac:(lia)) as Hs'.
    destruct (same_tasks_remove _ _ n Hs' ltac:(rewrite length_insert; lia)) as (arr & Hswap & Hs'').
    cbn [pf_arr pf_used] in *. rewrite length_insert in Hswap. destruct Hs as (Hu & _ & _ & Hm).
    rewrite !bind_run, lift_run, arith_ok by lia. rewrite bind_run, lift_run, Hu.
    replace (Z.to_nat (zlen l - 1)) with (length l - 1)%nat by lia. rewrite Hswap, !modify_run. cbn [fst snd].
    apply IH; [by rewrite <-Hu|]. rewrite length_vec_swap_remove, length_insert. lia.
  - apply IH; cbn [fst]; [apply same_tasks_insert; [done|lia]|rewrite length_insert; lia].
Qed.

(** The container of the EFI application, a vector, and the preallocated container
    of libgbl visit the same tasks in the same order and keep the same ones. *)
Theorem vec_tasks_equivalent p l s :
  same_tasks p l →
  let '(r1, (p', s1)) := for_each_remove_if cb (p, s) in
  let '(r2, (l', s2)) := vec_for_each_remove_if cb (l, s) in
  r1 = r2 ∧ s1 = s2 ∧ same_tasks p' l'.
Proof.
  intros Hs. unfold for_each_remove_if, vec_for_each_remove_if. rewrite !bind_run, !gets_run. cbn [fst].
  pose proof Hs as (-> & _). rewrite Nat2Z.id. by apply remove_loop_same.
Qed.
End Tasks.

(** ** An example *)

Module UsbExample.
(** A host with a queue of packets; what is sent is recorded, and an event is
    signaled at once. *)
Record State := mkState { st_in : list bytes; st_out : list bytes }.
Definition receive (s : State * bytes) : Z * Z * (State * bytes) :=
  match st_in (fst s) with
  | [] => (EFI_STATUS_NOT_READY, 0, s)
  | p :: l =>
      if zlen p <=? zlen (snd s) then (EFI_STATUS_SUCCESS, zlen p, (mkState l (st_out (fst s)), splice (snd s) 0 p))
      else (EFI_STATUS_BUFFER_TOO_SMALL, zlen p, s)
  end.
Definition send (data : bytes) (w : State) : Z * Z * State := (EFI_STATUS_SUCCESS, zlen data, mkState (st_in w) (st_out w ++ [data])).
Definition usb : GblEfiFastbootUsbProtocol State := mkUsbProtocol _ None None (Some receive) (Some send) 5.
(** The timer has the number 4 and does not expire. *)
Definition check (e : Z) (w : State) : Z * unit * State := (if e =? 4 then EFI_STATUS_NOT_READY else EFI_STATUS_SUCCESS, tt, w).
Definition services : EfiBootService State :=
  mkBootService _ None None None (Some (λ _ w, (EFI_STATUS_SUCCESS, 4, w))) (Some (λ _ w, (EFI_STATUS_SUCCESS, tt, w)))
    (Some (λ _ w, (EFI_STATUS_SUCCESS, tt, w))) (Some check) None None None None None.
Definition entry : EfiEntry State := mkEntry 1 (Some (mkSystemTable _ (Some services) None None)).
Definition transport : UsbTransport State :=
  usb_transport_new entry 3 (mkState [str "getvar:a"; str "reboot"] []) 8 (mkProtocol 7 (Some usb)).

#[local] Instance queue : UsbQueue st_in receive.
Proof.
  split.
  - intros w b H. exists 0, w. unfold receive. cbn. by rewrite H.
  - intros w b p l H Hle. unfold receive. cbn. rewrite H, (proj2 (Z.leb_le _ _)) by done. eauto.
Qed.
Lemma transport_ok : usb_ok (incoming := st_in) (rcv := receive) transport.
Proof. split; [by exists usb|by vm_compute|cbn; lia| |cbn; lia]. repeat constructor; cbn; lia. Qed.

(** The witness of [usb_packets_in_order]: the first packet, after a poll. *)
Lemma usb_packets_in_order_witness :
  ∃ t, fst (usb_has_packet transport) = Ok true ∧
    fst (usb_receive (snd (usb_has_packet transport), zeros 64)) = Ok 8 ∧ pending (incoming := st_in) t = [str "reboot"].
Proof.
  destruct (usb_packets_in_order _ transport_ok) as [(t1 & E & Hok & Hp) _].
  destruct (usb_packets_in_order _ Hok) as [_ H].
  destruct (H (zeros 64) (str "getvar:a") [str "reboot"]) as (t2 & E2 & _ & Hp2); [by rewrite Hp|by vm_compute|].
  exists t2. rewrite E. cbn [fst snd]. rewrite E2. by split_and!.
Defined.

(** The witness of [usb_send_exact]: eleven bytes in two packets. *)
Lemma usb_send_exact_witness :
  fst (usb_send (str "OKAY1234567") transport) = Ok tt ∧
  ∃ l, st_out (ut_firmware (snd (usb_send (str "OKAY1234567") transport))) = l ∧ mjoin l = str "OKAY1234567".
Proof.
  assert (Hr : fst (usb_send (str "OKAY1234567") transport) = Ok tt) by by vm_compute. split; [exact Hr|].
  assert (Hq : ∀ bs, boot_services entry = Ok bs → quiet_events st_out bs) by (intros bs [= <-]; by split).
  pose proof (usb_send_exact st_out entry Hq (mkProtocol 7 (Some usb)) usb send eq_refl eq_refl (λ _ _, eq_refl)
                (str "OKAY1234567") transport eq_refl eq_refl ltac:(by vm_compute)) as H.
  destruct (usb_send _ transport) as [r t']. destruct H as (l & Hl & _ & _ & Hj). exists l. split; [exact Hl|apply Hj, Hr].
Defined.

(** The witness of [vec_tasks_equivalent]: the tasks with an even number are done. *)
Lemma vec_tasks_equivalent_witness :
  let cb (f : Z) : ST (list Z) Error (bool * Z) := λ s, (Ok (Z.even f, f), s ++ [f]) in
  snd (vec_for_each_remove_if cb ([1; 2; 3; 4; 5], [])) = ([1; 5; 3], [5; 4; 3; 2; 1]) ∧
  same_tasks (fst (snd (for_each_remove_if cb (mkSlice [1; 2; 3; 4; 5; 0] 5, [])))) [1; 5; 3].
Proof.
  intros cb. pose proof (vec_tasks_equivalent cb (mkSlice [1; 2; 3; 4; 5; 0] 5) [1; 2; 3; 4; 5] [] ltac:(split_and!; (reflexivity || (cbn; lia)))) as H.
  assert (E : snd (vec_for_each_remove_if cb ([1; 2; 3; 4; 5], [])) = ([1; 5; 3], [5; 4; 3; 2; 1])) by by vm_compute.
  split; [exact E|]. destruct (for_each_remove_if _ _) as [r1 [p' s1]], (vec_for_each_remove_if _ _) as [r2 [l' s2]].
  injection E as -> _. apply H.
Defined.
End UsbExample.
