(* ===== verification/LibBoot.v ===== *)
(** * libboot: handing the machine over to the kernel

    Models src/gbl/libboot/src/x86.rs (the memory of a Linux kernel on x86), what
    riscv64.rs and aarch64.rs compute before the jump, and
    [efi_android_boot] of src/gbl/efi/src/android_boot.rs. A boot ends with the
    address that is jumped to and the arguments in registers; the jump itself is
    assembly. The layout of the C structure [boot_params] is a parameter. *)

From S2P Require Import Prelude SafeMath LibError Text Utils Abr Block Disk BootParams.
From S2P Require Import Partition GblOps Fdt Avb ImageBuffer FuchsiaBoot Libc Efi EfiMem.
From S2P Require Import EfiAlloc EfiProtocols EfiOpsProps.
Import SafeNum.

(** The end of a boot. *)
Record Jump := mkJump { j_entry : Z; j_args : list Z }.

(** Offsets of the fields of [boot_params], also of those of the [setup_header] in it,
    and the entries of the e820 map as bytes. *)
Class BootParamDefs := {
  boot_params_size : Z; boot_params_align : Z;
  off_hdr : Z; hdr_size : Z;
  off_setup_sects : Z; off_boot_flag : Z; off_header : Z; off_version : Z; off_type_of_loader : Z; off_loadflags : Z;
  off_ramdisk_image : Z; off_ramdisk_size : Z; off_cmd_line_ptr : Z; off_cmdline_size : Z;
  off_e820_entries : Z; off_e820_map : Z; e820_max : nat;
  e820_bytes : e820entry → bytes; e820_of_bytes : bytes → e820entry; e820_entry_size : Z;
}.

(** gbl/libboot/src/x86.rs:55-56, [SECTOR_SIZE]. *)
Definition SECTOR_SIZE : Z := 512.
(** gbl/libboot/src/x86.rs:57-58, [BOOT_SETUP_LOAD_SIZE]. *)
Definition BOOT_SETUP_LOAD_SIZE : Z := 0x8000.
(** gbl/libboot/src/x86.rs:59-60, [LOAD_ADDR_HIGH]. *)
Definition LOAD_ADDR_HIGH : Z := 0x100000.
(** gbl/libboot/src/x86.rs:61-62, [LOAD_FLAG_LOADED_HIGH]. *)
Definition LOAD_FLAG_LOADED_HIGH : Z := 1.
(** gbl/libboot/src/x86.rs:64-68, [ENTRY_POINT_OFFSET]. *)
Definition ENTRY_POINT_OFFSET : Z := 0x200.

Section X86.
Context `{!BootParamDefs}.

(** A field of the structure. *)
Definition bp_field (p : bytes) (off n : Z) : Z := le_val (slice p off n).
Definition bp_set (off : Z) (n : nat) (v : Z) (p : bytes) : bytes := splice p off (le_bytes n v).

(** gbl/libboot/src/x86.rs:90-97, [BootParams::from_bytes_ref]: of a buffer at [addr]. *)
Definition bp_from_bytes_ref (addr : Z) (buffer : bytes) : result bytes :=
  ok_or (if addr mod boot_params_align =? 0 then get_range buffer 0 boot_params_size else None)
    (BufferTooSmall (Some boot_params_size)).
(** gbl/libboot/src/x86.rs:113-116, [BootParams::setup_header_ref]. *)
Definition setup_header_ref (p : bytes) : bytes := slice p off_hdr hdr_size.

(** gbl/libboot/src/x86.rs:118-135, [BootParams::check]. *)
Definition bp_check (p : bytes) : result unit :=
  if negb ((bp_field p off_boot_flag 2 =? 0xAA55) && bool_decide (slice p off_header 4 = str "HdrS")) then Err BadMagic
  else if negb ((0x0206 <=? bp_field p off_version 2) &&
                negb (Z.land (bp_field p off_loadflags 1) LOAD_FLAG_LOADED_HIGH =? 0)) then Err UnsupportedVersion
  else Ok tt.
(** gbl/libboot/src/x86.rs:137-143, [BootParams::setup_sects]. *)
Definition setup_sects (p : bytes) : Z := let v := bp_field p off_setup_sects 1 in if v =? 0 then 4 else v.
(** gbl/libboot/src/x86.rs:145-151, [BootParams::kernel_off]. *)
Definition kernel_off (p : bytes) : Z := (1 + setup_sects p) * SECTOR_SIZE.
(** gbl/libboot/src/x86.rs:153-156, [BootParams::e820_map]: the entries, and the structure with others. *)
Definition e820_map (p : bytes) : list e820entry :=
  (λ k, e820_of_bytes (slice p (off_e820_map + Z.of_nat k * e820_entry_size) e820_entry_size)) <$> seq 0 e820_max.
Definition set_e820_map (es : list e820entry) (p : bytes) : bytes := splice p off_e820_map (mjoin (e820_bytes <$> es)).

(** A change of the structure at an address of memory. *)
Definition with_params (low : Z) (f : bytes → bytes) : ST Memory Error unit :=
  modify (λ m, mem_write m low (f (mem_read m low boot_params_size))).

(** gbl/libboot/src/x86.rs:159-278, [boot_linux_bzimage]: the kernel is at [kaddr], the ramdisk at [raddr]. *)
Definition boot_linux_bzimage (kaddr : Z) (kernel : bytes) (raddr : Z) (ramdisk cmdline : bytes)
    (mmap_cb : list e820entry → result (list e820entry * Z)) (low_mem_addr : Z) : ST Memory Error Jump :=
  bootparam ← lift (bp_from_bytes_ref kaddr kernel);
  lift (bp_check bootparam);;
  lift (assert_that (low_mem_addr <=? 0x90000));;
  let cmdline_start := low_mem_addr + BOOT_SETUP_LOAD_SIZE in
  lift (assert_that (cmdline_start + zlen cmdline <=? 0x0A0000));;
  let boot_sector_size := kernel_off bootparam in
  protected ← lift (index_from kernel boot_sector_size);
  modify (λ m, mem_write m LOAD_ADDR_HIGH protected);;
  modify (λ m, mem_write m low_mem_addr (replicate (Z.to_nat BOOT_SETUP_LOAD_SIZE) 0));;
  lift (if low_mem_addr mod boot_params_align =? 0 then Ok tt else Err (BufferTooSmall (Some boot_params_size)));;
  with_params low_mem_addr (λ p, splice p off_hdr (setup_header_ref bootparam));;
  modify (λ m, mem_write m cmdline_start cmdline);;
  ptr ← lift (unwrap (checked 32 cmdline_start));
  with_params low_mem_addr (bp_set off_cmd_line_ptr 4 ptr);;
  n ← lift (unwrap (checked 32 (zlen cmdline)));
  with_params low_mem_addr (bp_set off_cmdline_size 4 n);;
  a ← lift (try_int 32 raddr);
  with_params low_mem_addr (bp_set off_ramdisk_image 4 a);;
  n ← lift (try_int 32 (zlen ramdisk));
  with_params low_mem_addr (bp_set off_ramdisk_size 4 n);;
  with_params low_mem_addr (bp_set off_type_of_loader 1 0xff);;
  m ← gets id;
  '(es, num_entries) ← lift (mmap_cb (e820_map (mem_read m low_mem_addr boot_params_size)));
  with_params low_mem_addr (set_e820_map es);;
  with_params low_mem_addr (bp_set off_e820_entries 1 num_entries);;
  mret (mkJump (LOAD_ADDR_HIGH + ENTRY_POINT_OFFSET) [low_mem_addr]).
End X86.

(** ** Zircon and the other architectures *)

Section Zircon.
Context {ZE : Type} `{!ZbiLib ZE}.

(** gbl/libboot/src/x86.rs:318-332, [zbi_boot]: and the address that [jump_zircon_el2_or_lower] computes, of the
    kernel at [kaddr]. *)
Definition zbi_entry {E} (kaddr : Z) (kernel : bytes) : outcome E Z :=
  unwrap_res (zbi_parse (ZE := ZE) kaddr kernel);;
  '(entry, _) ← unwrap_res (get_kernel_entry_and_reserved_memory_size (ZE := ZE) kernel);
  entry ← unwrap (checked 64 entry);
  unwrap (checked 64 (kaddr + entry)).
(** gbl/libboot/src/x86.rs:318-332, [zbi_boot]. *)
Definition zbi_boot (kaddr : Z) (kernel : bytes) (data_addr : Z) : result Jump :=
  addr ← zbi_entry kaddr kernel; Ok (mkJump addr [data_addr]).
End Zircon.

(** gbl/libboot/src/riscv64.rs:19-39, [jump_linux]. *)
Definition jump_linux (kaddr boot_hart_id fdt_addr : Z) : Jump := mkJump kaddr [boot_hart_id; fdt_addr].

(** gbl/libboot/src/aarch64.rs:22-30, [ExceptionLevel]. *)
Inductive ExceptionLevel := EL0 | EL1 | EL2 | EL3.
#[export] Instance ExceptionLevel_eq_dec : EqDecision ExceptionLevel.
Proof. solve_decision. Defined.
(** gbl/libboot/src/aarch64.rs:32-50, [current_el]: from the value of the register CurrentEL. *)
Definition current_el (el : Z) : result ExceptionLevel :=
  match Z.land (Z.shiftr el 2) 3 with
  | 0 => Ok EL0 | 1 => Ok EL1 | 2 => Ok EL2 | 3 => Ok EL3 | _ => Panic
  end.
(** gbl/libboot/src/aarch64.rs:98-117, [jump_linux_el2_or_lower]: the ranges whose cache is flushed, and the jump. *)
Definition jump_linux_el2_or_lower (el : Z) (kernel ramdisk fdt : Z * bytes) : result (list (Z * Z) * Jump) :=
  level ← current_el el;
  assert_that (negb (bool_decide (level = EL3)));;
  Ok ((λ b, (fst b, zlen (snd b))) <$> [kernel; ramdisk; fdt], mkJump (fst kernel) [fst fdt; 0; 0; 0]).
(** gbl/libboot/src/aarch64.rs:119-135, [jump_zircon_el2_or_lower]. *)
Definition jump_zircon_el2_or_lower {ZE} `{!ZbiLib ZE} (el : Z) (kernel zbi_item : Z * bytes) : result (list (Z * Z) * Jump) :=
  level ← current_el el;
  assert_that (negb (bool_decide (level = EL3)));;
  addr ← zbi_entry (ZE := ZE) (fst kernel) (snd kernel);
  Ok ((λ b, (fst b, zlen (snd b))) <$> [kernel; zbi_item], mkJump addr [fst zbi_item; 0; 0; 0]).

(** ** Android *)

Section EfiAndroid.
Context `{!BootParamDefs} `{!LibFdt} {W : Type} (entry : EfiEntry W).

(** The buffer for the memory map is memory that is handed over: beside the machine. *)
Definition on_exit {A} (m : ST (EfiAllocator W * W) Error A) : ST (Machine W) Error A :=
  zoom (λ s, (mc_allocator s, mc_firmware s)) (λ t s, mkMachine (fst t) (snd t) (mc_memory s)) m.

(** gbl/efi/src/android_boot.rs:80-151, [efi_android_boot]: on x86; the command line is a property of the device
    tree. *)
Definition efi_android_boot_x86 (kernel ramdisk fdt remains : Z * bytes) : ST (Machine W) Error Jump :=
  tree ← lift (fdt_new (fst fdt) (snd fdt));
  efi_mmap ← on_exit (exit_boot_services entry (fst remains) (snd remains));
  cmdline ← lift (unwrap_res (get_property tree (str "chosen") (str "bootargs")));
  zoom mc_memory (λ m s, mkMachine (mc_allocator s) (mc_firmware s) m)
    (boot_linux_bzimage (fst kernel) (snd kernel) (fst ramdisk) (snd ramdisk) cmdline (e820_callback efi_mmap) 0x90000).
(** gbl/efi/src/android_boot.rs:80-151, [efi_android_boot]: on aarch64, at the exception level [el]. *)
Definition efi_android_boot_aarch64 (el : Z) (kernel ramdisk fdt remains : Z * bytes)
    : ST (Machine W) Error (list (Z * Z) * Jump) :=
  _ ← on_exit (exit_boot_services entry (fst remains) (snd remains));
  lift (jump_linux_el2_or_lower el kernel ramdisk fdt).
(** gbl/efi/src/android_boot.rs:80-151, [efi_android_boot]: on riscv64. *)
Definition efi_android_boot_riscv64 `{!ProtocolInfo (EfiRiscvBootProtocol W)} (kernel fdt remains : Z * bytes)
    : ST (Machine W) Error Jump :=
  boot_hart_id ← on_firmware (p ← find_first_and_open entry (EfiRiscvBootProtocol W); get_boot_hartid p);
  _ ← on_exit (exit_boot_services entry (fst remains) (snd remains));
  mret (jump_linux (fst kernel) boot_hart_id (fst fdt)).
End EfiAndroid.

(** * Booting Linux on x86: what the kernel finds in memory *)

(** The C structure: its fields are in the order of the Linux boot protocol and fit
    the part of memory that is reserved for them. *)
Class BootParamLaws `{!BootParamDefs} : Prop := {
  bl_order : 0 ≤ off_e820_entries ∧ off_e820_entries + 1 ≤ off_hdr ∧ off_hdr ≤ off_setup_sects ∧
    off_setup_sects + 1 ≤ off_boot_flag ∧ off_boot_flag + 2 ≤ off_header ∧ off_header + 4 ≤ off_version ∧
    off_version + 2 ≤ off_type_of_loader ∧ off_type_of_loader + 1 ≤ off_loadflags ∧
    off_loadflags + 1 ≤ off_ramdisk_image ∧ off_ramdisk_image + 4 ≤ off_ramdisk_size ∧
    off_ramdisk_size + 4 ≤ off_cmd_line_ptr ∧ off_cmd_line_ptr + 4 ≤ off_cmdline_size ∧
    off_cmdline_size + 4 ≤ off_hdr + hdr_size ∧ off_hdr + hdr_size ≤ off_e820_map ∧
    off_e820_map + Z.of_nat e820_max * e820_entry_size ≤ boot_params_size ∧ boot_params_size ≤ BOOT_SETUP_LOAD_SIZE;
  bl_entry_size : 0 < e820_entry_size;
  bl_entry_bytes : ∀ e, zlen (e820_bytes e) = e820_entry_size;
}.

(** ** Memory *)

Lemma mem_read_write_disj m a b a' n :
  a + zlen b ≤ a' ∨ a' + n ≤ a → mem_read (mem_write m a b) a' n = mem_read m a' n.
Proof. intros. apply mem_read_ext. intros x Hx. apply mem_write_out. lia. Qed.

Lemma mem_read_write_prefix m a b n : 0 ≤ n ≤ zlen b → mem_read (mem_write m a b) a n = slice b 0 n.
Proof.
  intros Hn. apply list_eq. intros i. unfold mem_read. rewrite list_lookup_fmap, lookup_slice.
  destruct (decide (i < Z.to_nat n)%nat); cbn [Nat.add Z.to_nat].
  - rewrite lookup_seqZ_lt by lia. cbn. unfold mem_write. rewrite (proj2 (Z.leb_le _ _)), (proj2 (Z.ltb_lt _ _)) by lia. cbn.
    replace (Z.to_nat (a + Z.of_nat i - a)) with i by lia. destruct (lookup_lt_is_Some_2 b i ltac:(lia)) as [x Hx].
    change (Z.to_nat 0 + i)%nat with i. by rewrite (list_lookup_total_correct _ _ _ Hx), Hx.
  - by rewrite lookup_seqZ_ge by lia.
Qed.

Section Boot.
Context {defs : BootParamDefs} {laws : BootParamLaws}.
Implicit Types m : Memory.

(** The memory map that the callback gets: the structure was zeroed. *)
Definition zero_entries : list e820entry :=
  replicate e820_max (e820_of_bytes (replicate (Z.to_nat e820_entry_size) 0)).

Lemma map_size_nonneg : 0 ≤ Z.of_nat e820_max * e820_entry_size.
Proof. pose proof bl_entry_size. nia. Qed.

Lemma with_params_run low f m p :
  mem_read m low boot_params_size = p → zlen (f p) = boot_params_size →
  ∃ m', with_params low f m = (Ok tt, m') ∧ mem_read m' low boot_params_size = f p ∧
    ∀ x, ¬ (low ≤ x < low + boot_params_size) → m' x = m x.
Proof.
  intros <- Hl. eexists. split; [done|]. split.
  - pose proof (mem_read_write m low (f (mem_read m low boot_params_size))) as H. by rewrite Hl in H.
  - intros x Hx. apply mem_write_out. by rewrite Hl.
Qed.

(** The structure that the kernel finds: its own header with five fields changed, and
    the memory map; zeroes elsewhere. *)
Definition final_params (p : bytes) (ptr len raddr rlen : Z) (es : list e820entry) (n : Z) : bytes :=
  bp_set off_e820_entries 1 n (set_e820_map es
    (bp_set off_type_of_loader 1 0xff (bp_set off_ramdisk_size 4 rlen (bp_set off_ramdisk_image 4 raddr
    (bp_set off_cmdline_size 4 len (bp_set off_cmd_line_ptr 4 ptr
    (splice (replicate (Z.to_nat boot_params_size) 0) off_hdr (setup_header_ref p)))))))).

Lemma length_bp_set off n v p :
  0 ≤ off → off + Z.of_nat n ≤ zlen p → zlen (bp_set off n v p) = zlen p.
Proof. intros. unfold bp_set. rewrite length_splice; rewrite ?length_le_bytes; lia. Qed.
Lemma length_e820 es : zlen (mjoin (e820_bytes <$> es)) = zlen es * e820_entry_size.
Proof.
  induction es as [|e es IH]; [done|]. rewrite join_fmap_cons, length_app, Nat2Z.inj_add, IH, bl_entry_bytes. cbn [length]. lia.
Qed.
Lemma e820_map_zero q : slice q off_e820_map (Z.of_nat e820_max * e820_entry_size) =
    replicate (Z.to_nat (Z.of_nat e820_max * e820_entry_size)) 0 → e820_map q = zero_entries.
Proof.
  intros Hq. unfold e820_map, zero_entries. pose proof bl_entry_size. pose proof bl_order.
  apply list_eq. intros i. rewrite list_lookup_fmap. destruct (decide (i < e820_max)%nat) as [Hi|Hi].
  - rewrite lookup_seq_lt, lookup_replicate_2 by done. cbn. do 2 f_equal.
    assert (Z.of_nat i * e820_entry_size + e820_entry_size ≤ Z.of_nat e820_max * e820_entry_size) by nia.
    pose proof (slice_slice q off_e820_map (Z.of_nat e820_max * e820_entry_size) (Z.of_nat i * e820_entry_size) e820_entry_size) as Hs.
    rewrite <-Hs by nia. rewrite Hq. unfold slice. by rewrite drop_replicate, take_replicate; f_equal; lia.
  - rewrite lookup_seq_ge by lia. symmetry. apply lookup_replicate_None. lia.
Qed.

(** Memory after the kernel and the command line were copied, with the structure [p]. *)
Record loaded (m0 : Memory) (low : Z) (cmdline prot : bytes) (m : Memory) (p : bytes) : Prop := {
  ld_params : mem_read m low boot_params_size = p;
  ld_cmdline : mem_read m (low + BOOT_SETUP_LOAD_SIZE) (zlen cmdline) = cmdline;
  ld_kernel : mem_read m LOAD_ADDR_HIGH (zlen prot) = prot;
  ld_outside : ∀ x, ¬ (low ≤ x < low + BOOT_SETUP_LOAD_SIZE + zlen cmdline) →
    ¬ (LOAD_ADDR_HIGH ≤ x < LOAD_ADDR_HIGH + zlen prot) → m x = m0 x;
}.

Section Steps.
Context (m0 : Memory) (low : Z) (cmdline prot : bytes).
Hypothesis Hlow : 0 ≤ low ∧ low + BOOT_SETUP_LOAD_SIZE + zlen cmdline ≤ 0xA0000.

Lemma params_step f m p :
  loaded m0 low cmdline prot m p → zlen (f p) = boot_params_size →
  ∃ m', with_params low f m = (Ok tt, m') ∧ loaded m0 low cmdline prot m' (f p).
Proof.
  intros [Hp Hc Hk Ho] Hl. destruct (with_params_run low f m p Hp Hl) as (m' & E & Hp' & Ho'). exists m'. split; [done|].
  pose proof bl_order. unfold BOOT_SETUP_LOAD_SIZE, LOAD_ADDR_HIGH in *. split; [done| | |].
  - rewrite <-Hc at 2. apply mem_read_ext. intros x Hx. apply Ho'. lia.
  - rewrite <-Hk at 2. apply mem_read_ext. intros x Hx. apply Ho'. lia.
  - intros x H1 H2. unfold BOOT_SETUP_LOAD_SIZE, LOAD_ADDR_HIGH in *. rewrite Ho' by (pose proof (Zle_0_nat (length cmdline)); lia). by apply Ho.
Qed.

(** The steps that come before the fields are set. *)
Lemma copied_loaded (p : bytes) :
  zlen p = boot_params_size →
  let m1 := mem_write (mem_write m0 LOAD_ADDR_HIGH prot) low (replicate (Z.to_nat BOOT_SETUP_LOAD_SIZE) 0) in
  ∃ m2, with_params low (λ q, splice q off_hdr (setup_header_ref p)) m1 = (Ok tt, m2) ∧
    loaded m0 low cmdline prot (mem_write m2 (low + BOOT_SETUP_LOAD_SIZE) cmdline)
      (splice (replicate (Z.to_nat boot_params_size) 0) off_hdr (setup_header_ref p)).
Proof.
  intros Hp m1. pose proof bl_order as Hb. pose proof map_size_nonneg. set (z := replicate (Z.to_nat BOOT_SETUP_LOAD_SIZE) 0) in *.
  assert (Hz : zlen z = BOOT_SETUP_LOAD_SIZE) by (unfold z; rewrite length_replicate; done).
  assert (Hm1 : mem_read m1 low boot_params_size = replicate (Z.to_nat boot_params_size) 0).
  { unfold m1. rewrite mem_read_write_prefix by lia. unfold z, slice. rewrite drop_replicate, take_replicate. f_equal. unfold BOOT_SETUP_LOAD_SIZE in *. lia. }
  assert (Hh : zlen (setup_header_ref p) = hdr_size) by (apply zlen_slice; lia).
  destruct (with_params_run low (λ q, splice q off_hdr (setup_header_ref p)) m1 _ Hm1) as (m2 & E & Hp2 & Ho2).
  { rewrite length_splice; rewrite ?length_replicate, ?Hh; lia. }
  exists m2. split; [done|]. split; unfold BOOT_SETUP_LOAD_SIZE, LOAD_ADDR_HIGH in *.
  - rewrite mem_read_write_disj by lia. done.
  - apply mem_read_write.
  - rewrite mem_read_write_disj by lia. rewrite <-(mem_read_write m0 0x100000 prot) at 2. apply mem_read_ext. intros x Hx.
    rewrite Ho2 by lia. unfold m1. apply mem_write_out. lia.
  - intros x H1 H2. unfold BOOT_SETUP_LOAD_SIZE, LOAD_ADDR_HIGH in *. rewrite mem_write_out by lia. rewrite Ho2 by (pose proof (Zle_0_nat (length cmdline)); lia).
    unfold m1. rewrite !mem_write_out by (pose proof (Zle_0_nat (length cmdline)); lia). done.
Qed.

(** A step that sets a field. *)
Lemma field_step off k v m q :
  loaded m0 low cmdline prot m q → zlen q = boot_params_size → 0 ≤ off → off + Z.of_nat k ≤ boot_params_size →
  ∃ m', with_params low (bp_set off k v) m = (Ok tt, m') ∧ loaded m0 low cmdline prot m' (bp_set off k v q) ∧
    zlen (bp_set off k v q) = boot_params_size.
Proof.
  intros L Hq Ho Hk. assert (Hl : zlen (bp_set off k v q) = boot_params_size) by (rewrite length_bp_set; lia).
  destruct (params_step (bp_set off k v) m q L Hl) as (m' & E & L'). eauto.
Qed.
End Steps.

(** Fields before the memory map do not change it. *)
Lemma map_bp_set off k v q :
  zlen q = boot_params_size → 0 ≤ off → off + Z.of_nat k ≤ off_e820_map →
  slice (bp_set off k v q) off_e820_map (Z.of_nat e820_max * e820_entry_size) =
  slice q off_e820_map (Z.of_nat e820_max * e820_entry_size).
Proof.
  intros. pose proof bl_order. pose proof map_size_nonneg.
  unfold bp_set. apply slice_splice_disj; rewrite ?length_le_bytes; lia.
Qed.

(** The structure with only the header of the kernel. *)
Lemma header_only p :
  zlen p = boot_params_size →
  let q := splice (replicate (Z.to_nat boot_params_size) 0) off_hdr (setup_header_ref p) in
  zlen q = boot_params_size ∧
  slice q off_e820_map (Z.of_nat e820_max * e820_entry_size) = replicate (Z.to_nat (Z.of_nat e820_max * e820_entry_size)) 0.
Proof.
  intros Hp q. pose proof bl_order. pose proof map_size_nonneg. unfold q, setup_header_ref.
  assert (Hh : zlen (slice p off_hdr hdr_size) = hdr_size) by (apply zlen_slice; lia).
  assert (Hr : zlen (replicate (Z.to_nat boot_params_size) 0) = boot_params_size) by (rewrite length_replicate; lia).
  split; [rewrite length_splice; lia|]. rewrite slice_splice_disj by lia.
  unfold slice. rewrite drop_replicate, take_replicate. f_equal. lia.
Qed.

Lemma final_run m0 kaddr kernel raddr ramdisk cmdline cb low p es n :
  bp_from_bytes_ref kaddr kernel = Ok p → bp_check p = Ok tt → kernel_off p ≤ zlen kernel → 0 ≤ kernel_off p →
  0 ≤ low ≤ 0x90000 → low mod boot_params_align = 0 → low + BOOT_SETUP_LOAD_SIZE + zlen cmdline ≤ 0xA0000 →
  0 ≤ raddr < 2 ^ 32 → zlen ramdisk < 2 ^ 32 →
  cb zero_entries = Ok (es, n) → length es = e820_max →
  ∃ m, boot_linux_bzimage kaddr kernel raddr ramdisk cmdline cb low m0 = (Ok (mkJump 0x100200 [low]), m) ∧
    loaded m0 low cmdline (slice kernel (kernel_off p) (zlen kernel - kernel_off p)) m
      (final_params p (low + BOOT_SETUP_LOAD_SIZE) (zlen cmdline) raddr (zlen ramdisk) es n).
Proof.
  intros Hp Hck Hko Hko0 Hl Hal Hc Hr Hrl Hcb Hes. pose proof bl_order as Hb. pose proof map_size_nonneg as Hms.
  assert (Hplen : zlen p = boot_params_size).
  { unfold bp_from_bytes_ref in Hp. apply ok_or_inv in Hp. destruct (_ =? _); [|done]. apply get_range_inv in Hp as (? & ? & ->).
    rewrite zlen_slice; lia. }
  unfold boot_linux_bzimage. rewrite bind_run, lift_run, Hp. rewrite bind_run, lift_run, Hck.
  rewrite bind_run, lift_run. unfold assert_that at 1. rewrite (proj2 (Z.leb_le low _)) by lia.
  rewrite bind_run, lift_run. unfold assert_that. rewrite (proj2 (Z.leb_le _ 0x0A0000)) by lia.
  rewrite bind_run, lift_run. unfold index_from. rewrite index_range_ok by lia.
  set (prot := slice kernel (kernel_off p) (zlen kernel - kernel_off p)). do 2 rewrite bind_run, modify_run.
  rewrite bind_run, lift_run, Hal. cbn [Z.eqb].
  destruct (copied_loaded m0 low cmdline prot ltac:(lia) p Hplen) as (m2 & E2 & L).
  rewrite bind_run, E2, bind_run, modify_run. rewrite bind_run, lift_run, checked_Some by (unfold BOOT_SETUP_LOAD_SIZE in *; lia). cbn [unwrap].
  set (q0 := splice _ off_hdr _) in L.
  assert (Hq0 : zlen q0 = boot_params_size ∧ slice q0 off_e820_map (Z.of_nat e820_max * e820_entry_size) =
                  replicate (Z.to_nat (Z.of_nat e820_max * e820_entry_size)) 0) by (by apply header_only).
  destruct Hq0 as [Hq0 Hz0].
  destruct (field_step m0 low cmdline prot ltac:(lia) off_cmd_line_ptr 4 (low + BOOT_SETUP_LOAD_SIZE) _ _ L Hq0) as (m3 & E3 & L3 & Hq3); [lia..|].
  rewrite bind_run, E3. rewrite bind_run, lift_run, checked_Some by lia. cbn [unwrap].
  destruct (field_step m0 low cmdline prot ltac:(lia) off_cmdline_size 4 (zlen cmdline) _ _ L3 Hq3) as (m4 & E4 & L4 & Hq4); [lia..|].
  rewrite bind_run, E4. rewrite bind_run, lift_run. unfold try_int at 1. rewrite checked_Some by lia. cbn [ok_or].
  destruct (field_step m0 low cmdline prot ltac:(lia) off_ramdisk_image 4 raddr _ _ L4 Hq4) as (m5 & E5 & L5 & Hq5); [lia..|].
  rewrite bind_run, E5. rewrite bind_run, lift_run. unfold try_int. rewrite checked_Some by lia. cbn [ok_or].
  destruct (field_step m0 low cmdline prot ltac:(lia) off_ramdisk_size 4 (zlen ramdisk) _ _ L5 Hq5) as (m6 & E6 & L6 & Hq6); [lia..|].
  rewrite bind_run, E6.
  destruct (field_step m0 low cmdline prot ltac:(lia) off_type_of_loader 1 255 _ _ L6 Hq6) as (m7 & E7 & L7 & Hq7); [lia..|].
  rewrite bind_run, E7. rewrite bind_run, gets_run. cbn [id]. rewrite (ld_params _ _ _ _ _ _ L7).
  rewrite bind_run, lift_run, e820_map_zero, Hcb by (rewrite !map_bp_set by (done || lia); done).
  destruct (params_step m0 low cmdline prot ltac:(lia) (set_e820_map es) m7 _ L7) as (m8 & E8 & L8).
  { unfold set_e820_map. rewrite length_splice; rewrite ?length_e820, ?Hes; lia. }
  rewrite bind_run, E8.
  destruct (field_step m0 low cmdline prot ltac:(lia) off_e820_entries 1 n _ _ L8) as (m9 & E9 & L9 & _); [|lia..|].
  { unfold set_e820_map. rewrite length_splice; rewrite ?length_e820, ?Hes; lia. }
  rewrite bind_run, E9, mret_run. exists m9. split; [done|exact L9].
Qed.

(** ** The fields of the structure *)

Abbreviation whole q := (zlen q = boot_params_size).
Lemma whole_set off k v q : whole q → 0 ≤ off → off + Z.of_nat k ≤ boot_params_size → whole (bp_set off k v q).
Proof. intros. rewrite length_bp_set; lia. Qed.
Lemma whole_map es q : length es = e820_max → whole q → whole (set_e820_map es q).
Proof.
  intros Hes Hq. pose proof bl_order. pose proof map_size_nonneg.
  unfold set_e820_map. rewrite length_splice; rewrite ?length_e820, ?Hes; lia.
Qed.
Lemma other_set off k v q a n :
  whole q → 0 ≤ off → off + Z.of_nat k ≤ boot_params_size → 0 ≤ a → a + n ≤ off ∨ off + Z.of_nat k ≤ a →
  slice (bp_set off k v q) a n = slice q a n.
Proof. intros. unfold bp_set. apply slice_splice_disj; rewrite ?length_le_bytes; lia. Qed.
Lemma other_map es q a n :
  length es = e820_max → whole q → 0 ≤ a → a + n ≤ off_e820_map → slice (set_e820_map es q) a n = slice q a n.
Proof.
  intros Hes ? ? ?. pose proof bl_order. pose proof map_size_nonneg.
  unfold set_e820_map. apply slice_splice_disj; rewrite ?length_e820, ?Hes; lia.
Qed.
Lemma field_set off k v q :
  whole q → 0 ≤ off → off + Z.of_nat k ≤ boot_params_size → 0 ≤ v < 256 ^ Z.of_nat k →
  bp_field (bp_set off k v q) off (Z.of_nat k) = v.
Proof.
  intros. unfold bp_field, bp_set. rewrite slice_splice_same; rewrite ?length_le_bytes; [|lia..]. by apply le_val_bytes.
Qed.

(** Structures keep their size, and reads go past the changes of other fields. *)
Ltac whole_tac := repeat first [assumption|apply whole_set; [|lia|lia]|apply whole_map; [assumption|]].
Ltac past := repeat first [rewrite other_set by (whole_tac; lia)|rewrite other_map by (whole_tac; lia)].

Lemma final_fields p ptr len raddr rlen es n :
  whole p → length es = e820_max → 0 ≤ ptr < 2 ^ 32 → 0 ≤ len < 2 ^ 32 → 0 ≤ raddr < 2 ^ 32 → 0 ≤ rlen < 2 ^ 32 → 0 ≤ n < 256 →
  let q := final_params p ptr len raddr rlen es n in
  bp_field q off_cmd_line_ptr 4 = ptr ∧ bp_field q off_cmdline_size 4 = len ∧
  bp_field q off_ramdisk_image 4 = raddr ∧ bp_field q off_ramdisk_size 4 = rlen ∧
  bp_field q off_type_of_loader 1 = 0xff ∧ bp_field q off_e820_entries 1 = n ∧
  slice q off_e820_map (Z.of_nat e820_max * e820_entry_size) = mjoin (e820_bytes <$> es) ∧
  slice q off_setup_sects (off_type_of_loader - off_setup_sects) = slice p off_setup_sects (off_type_of_loader - off_setup_sects) ∧
  bp_field q off_loadflags 1 = bp_field p off_loadflags 1.
Proof.
  intros Hp Hes Hptr Hlen Hra Hrl Hn q. pose proof bl_order as Hb. pose proof map_size_nonneg as Hms.
  destruct (header_only p Hp) as [Hq0 _]. unfold q, final_params. set (q0 := splice _ off_hdr _) in *.
  assert (Hhdr : ∀ a k, off_hdr ≤ a → 0 ≤ k → a + k ≤ off_hdr + hdr_size → slice q0 a k = slice p a k).
  { intros a k H1 H2 H3. assert (Hh : zlen (setup_header_ref p) = hdr_size) by (apply zlen_slice; lia).
    unfold q0. rewrite slice_splice_in by (rewrite ?length_replicate; lia). unfold setup_header_ref. rewrite slice_slice by lia.
    f_equal. lia. }
  split_and!; unfold bp_field; past; rewrite ?Hhdr by lia; try done.
  1-6: first [apply (field_set _ 4 _ _)|apply (field_set _ 1 _ _)]; [whole_tac|lia..].
  unfold set_e820_map. rewrite slice_splice_same; rewrite ?length_e820, ?Hes; [done|lia..|].
  match goal with |- _ ≤ zlen ?x => assert (whole x) by whole_tac end. lia.
Qed.

(** The Linux boot protocol: the real-mode part of a kernel is the boot sector and the
    setup sectors, four if the header says zero. *)
Definition real_mode_size (p : bytes) : Z :=
  let n := bp_field p off_setup_sects 1 in 512 + 512 * (if n =? 0 then 4 else n).
Lemma kernel_off_size p : kernel_off p = real_mode_size p.
Proof. unfold kernel_off, setup_sects, real_mode_size, SECTOR_SIZE. case_if; lia. Qed.

(** C21. A bzImage that passes the checks is started at its 64-bit entry, with memory as
    the Linux boot protocol asks for: the protected-mode kernel at 1 MiB, the
    command line behind the setup area, and a zeroed setup area with the header of
    the kernel, in which the command line, the ramdisk, the loader and the memory map
    are entered. Nothing else of memory changes; in particular not the I/O hole
    between 640 KiB and 1 MiB. *)
Theorem bzimage_memory_exact m0 kaddr kernel raddr ramdisk cmdline cb low p es n :
  bp_from_bytes_ref kaddr kernel = Ok p → bp_check p = Ok tt → bytes_ok p → real_mode_size p ≤ zlen kernel →
  0 ≤ low ≤ 0x90000 → low mod boot_params_align = 0 → low + BOOT_SETUP_LOAD_SIZE + zlen cmdline ≤ 0xA0000 →
  0 ≤ raddr < 2 ^ 32 → zlen ramdisk < 2 ^ 32 →
  cb zero_entries = Ok (es, n) → length es = e820_max → 0 ≤ n < 256 →
  ∃ m, boot_linux_bzimage kaddr kernel raddr ramdisk cmdline cb low m0 = (Ok (mkJump 0x100200 [low]), m) ∧
    let q := mem_read m low boot_params_size in
    let prot := slice kernel (real_mode_size p) (zlen kernel - real_mode_size p) in
    mem_read m 0x100000 (zlen prot) = prot ∧
    mem_read m (low + 0x8000) (zlen cmdline) = cmdline ∧
    bp_field q off_cmd_line_ptr 4 = low + 0x8000 ∧ bp_field q off_cmdline_size 4 = zlen cmdline ∧
    bp_field q off_ramdisk_image 4 = raddr ∧ bp_field q off_ramdisk_size 4 = zlen ramdisk ∧
    bp_field q off_type_of_loader 1 = 0xff ∧ bp_field q off_e820_entries 1 = n ∧
    slice q off_e820_map (Z.of_nat e820_max * e820_entry_size) = mjoin (e820_bytes <$> es) ∧
    slice q off_setup_sects (off_type_of_loader - off_setup_sects) = slice p off_setup_sects (off_type_of_loader - off_setup_sects) ∧
    bp_field q off_loadflags 1 = bp_field p off_loadflags 1 ∧
    (∀ x, ¬ (low ≤ x < low + 0x8000 + zlen cmdline) → ¬ (0x100000 ≤ x < 0x100000 + zlen prot) → m x = m0 x).
Proof.
  rewrite <-kernel_off_size. intros Hp Hck Hbytes Hko Hl Hal Hc Hr Hrl Hcb Hes Hn. pose proof bl_order as Hb. pose proof map_size_nonneg as Hms.
  assert (Hplen : whole p).
  { unfold bp_from_bytes_ref in Hp. apply ok_or_inv in Hp. destruct (_ =? _); [|done]. apply get_range_inv in Hp as (? & ? & ->).
    rewrite zlen_slice; lia. }
  assert (0 ≤ kernel_off p).
  { unfold kernel_off, setup_sects, SECTOR_SIZE, bp_field. pose proof (le_val_bound _ (bytes_ok_slice p off_setup_sects 1 Hbytes)). case_if; lia. }
  destruct (final_run m0 kaddr kernel raddr ramdisk cmdline cb low p es n) as (m & E & [Hq Hcmd Hk Ho]); [done..|].
  exists m. split; [exact E|]. cbv zeta. rewrite Hq.
  destruct (final_fields p (low + BOOT_SETUP_LOAD_SIZE) (zlen cmdline) raddr (zlen ramdisk) es n)
    as (? & ? & ? & ? & ? & ? & ? & ? & ?); try done; unfold BOOT_SETUP_LOAD_SIZE in *; try lia.
Qed.
End Boot.

(** ** An example *)

Module BootExample.
(** The layout of Linux 5.11. *)
#[local] Instance linux : BootParamDefs := {|
  boot_params_size := 4096; boot_params_align := 1; off_hdr := 0x1f1; hdr_size := 119;
  off_setup_sects := 0x1f1; off_boot_flag := 0x1fe; off_header := 0x202; off_version := 0x206; off_type_of_loader := 0x210;
  off_loadflags := 0x211; off_ramdisk_image := 0x218; off_ramdisk_size := 0x21c; off_cmd_line_ptr := 0x228;
  off_cmdline_size := 0x238; off_e820_entries := 0x1e8; off_e820_map := 0x2d0; e820_max := 128;
  e820_bytes e := le_bytes 8 (e820_addr e) ++ le_bytes 8 (e820_size e) ++ le_bytes 4 (e820_type e);
  e820_of_bytes b := mkE820 (le_val (slice b 0 8)) (le_val (slice b 8 8)) (le_val (slice b 16 4)); e820_entry_size := 20;
|}.
#[local] Instance linux_laws : BootParamLaws.
Proof. split; [cbn; unfold BOOT_SETUP_LOAD_SIZE; lia|cbn; lia|]. by intros e. Qed.

(** A kernel of two sectors of setup and eight bytes of code. *)
Definition header : bytes :=
  [3] ++ replicate 12 0 ++ [0x55; 0xaa] ++ replicate 2 0 ++ str "HdrS" ++ [0x0c; 2] ++ replicate 9 0 ++ [1].
Definition code : bytes := [0xeb; 0xfe; 1; 2; 3; 4; 5; 6].
Definition kernel : bytes := replicate 0x1f1 0 ++ header ++ replicate (2048 - 0x1f1 - length header) 0 ++ code ++ replicate 4096 0.
Definition params : bytes := slice kernel 0 4096.
Definition one_entry (l : list e820entry) : result (list e820entry * Z) := Ok (<[0%nat := mkE820 0 0x9fc00 1]> l, 1).

(** The witness of [bzimage_memory_exact]. *)
Lemma bzimage_memory_exact_witness :
  ∃ m, fst (boot_linux_bzimage 0x2000000 kernel 0x3000000 [7; 7] (str "quiet") one_entry 0x90000 (λ _, 0)) =
         Ok (mkJump 0x100200 [0x90000]) ∧
    mem_read m 0x98000 5 = str "quiet" ∧ mem_read m 0x100000 8 = code ∧ m 0xa0000 = 0.
Proof.
  assert (Hp : bp_from_bytes_ref 0x2000000 kernel = Ok params) by by vm_compute.
  assert (Hb : bytes_ok params) by by_compute.
  destruct (bzimage_memory_exact (λ _, 0) 0x2000000 kernel 0x3000000 [7; 7] (str "quiet") one_entry 0x90000 params
              (<[0%nat := mkE820 0 0x9fc00 1]> zero_entries) 1 Hp)
    as (m & E & Hk & Hc & _ & _ & _ & _ & _ & _ & _ & _ & _ & Ho);
    [by vm_compute|exact Hb|by vm_compute|lia|done|by vm_compute|lia|by vm_compute|reflexivity|by vm_compute|lia|].
  exists m. split; [by rewrite E|]. split; [exact Hc|]. split.
  - assert (Hs : slice (slice kernel 2048 (zlen kernel - 2048)) 0 8 = code) by by vm_compute.
    rewrite <-Hs. replace 2048 with (real_mode_size params) by by vm_compute. rewrite <-Hk.
    unfold mem_read, slice. by vm_compute.
  - apply Ho; [|lia]. change (zlen (str "quiet")) with 5. lia.
Defined.
End BootExample.
