(* ===== verification/EfiAb.v ===== *)
(** * libefi: A/B slots of the firmware

    Models src/gbl/libefi/src/protocol/gbl_efi_ab_slot.rs and
    src/gbl/libefi/src/ab_slots.rs: the slot manager on top of the slot protocol
    of the firmware. The queries of the manager call the firmware, too: all
    operations work on the manager and the state of the firmware. *)

From S2P Require Import Prelude SafeMath LibError Text Slots Efi EfiProtocols.

(** ** GBL_EFI_AB_SLOT_PROTOCOL *)

(** [GblEfiSlotInfo]. *)
Record GblEfiSlotInfo := mkSlotInfo {
  si_suffix : Z; si_unbootable_reason : Z; si_priority : Z; si_tries : Z; si_successful : Z;
}.
(** [GblEfiSlotMetadataBlock]. *)
Record GblEfiSlotMetadataBlock := mkSlotBlock {
  unbootable_metadata : Z; max_retries : Z; slot_count : Z; merge_status : Z;
}.
(** [GblEfiABSlotProtocol]: the boot reason is a number, a size and the subreason. *)
Record GblEfiABSlotProtocol (W : Type) := mkSlotProtocol {
  sp_version : Z;
  fn_load_boot_data : efi_fn W GblEfiSlotMetadataBlock;
  fn_get_slot_info : option (Z → W → Z * GblEfiSlotInfo * W);
  fn_get_current_slot : efi_fn W GblEfiSlotInfo;
  fn_get_next_slot : option (bool → W → Z * GblEfiSlotInfo * W);
  fn_set_active_slot : option (Z → W → Z * unit * W);
  fn_set_slot_unbootable : option (Z * Z → W → Z * unit * W);
  fn_reinitialize : efi_fn W unit;
  fn_get_boot_reason : option (bytes → W → Z * (Z * Z * bytes) * W);
  fn_set_boot_reason : option (Z * bytes → W → Z * unit * W);
  fn_flush : efi_fn W unit;
}.
Arguments sp_version {W}. Arguments fn_load_boot_data {W}. Arguments fn_get_slot_info {W}. Arguments fn_get_current_slot {W}.
Arguments fn_get_next_slot {W}. Arguments fn_set_active_slot {W}. Arguments fn_set_slot_unbootable {W}.
Arguments fn_reinitialize {W}. Arguments fn_get_boot_reason {W}. Arguments fn_set_boot_reason {W}. Arguments fn_flush {W}.

(** gbl/libefi/src/protocol/gbl_efi_ab_slot.rs:41-49, [from_efi_unbootable_reason]. *)
Definition from_efi_unbootable_reason (reason : Z) : UnbootableReason :=
  match reason with 1 => NoMoreTries | 2 => SystemUpdate | 3 => UserRequested | 4 => VerificationFailure | _ => Unknown end.
(** gbl/libefi/src/protocol/gbl_efi_ab_slot.rs:60-74, [TryFrom<GblSlot> for libgbl::slots::Slot]. *)
Definition slot_try_from (info : GblEfiSlotInfo) : result Slot :=
  suffix ← suffix_of_u32 (si_suffix info);
  Ok (mkSlotOf suffix (si_priority info)
        (if negb (si_successful info =? 0) then BSuccessful
         else if 0 <? si_tries info then BRetriable (si_tries info)
         else BUnbootable (from_efi_unbootable_reason (si_unbootable_reason info)))).

Module SlotProtocol.
Section SlotProtocol.
Context {W : Type} (p : Protocol (GblEfiABSlotProtocol W)).
Abbreviation M := (ST W Error).

(** gbl/libefi/src/protocol/gbl_efi_ab_slot.rs:77-87, [Protocol::load_boot_data]. *)
Definition load_boot_data : M GblEfiSlotMetadataBlock := call_interface p fn_load_boot_data.
(** gbl/libefi/src/protocol/gbl_efi_ab_slot.rs:89-99, [Protocol::get_slot_info]. *)
Definition get_slot_info (idx : Z) : M GblEfiSlotInfo := call_interface p (λ i, app_fn (fn_get_slot_info i) idx).
(** gbl/libefi/src/protocol/gbl_efi_ab_slot.rs:101-111, [Protocol::get_current_slot]. *)
Definition get_current_slot : M GblEfiSlotInfo := call_interface p fn_get_current_slot.
(** gbl/libefi/src/protocol/gbl_efi_ab_slot.rs:113-130, [Protocol::get_next_slot]. *)
Definition get_next_slot (mark_boot_attempt : bool) : M GblEfiSlotInfo :=
  call_interface p (λ i, app_fn (fn_get_next_slot i) mark_boot_attempt).
(** gbl/libefi/src/protocol/gbl_efi_ab_slot.rs:132-139, [Protocol::set_active_slot]. *)
Definition set_active_slot (idx : Z) : M unit := call_interface p (λ i, app_fn (fn_set_active_slot i) idx).
(** gbl/libefi/src/protocol/gbl_efi_ab_slot.rs:141-149, [Protocol::set_slot_unbootable]. *)
Definition set_slot_unbootable (idx reason : Z) : M unit :=
  reason ← lift (ok_or (checked 32 reason) InvalidInput);
  call_interface p (λ i, app_fn (fn_set_slot_unbootable i) (idx, reason)).
(** gbl/libefi/src/protocol/gbl_efi_ab_slot.rs:151-158, [Protocol::reinitialize]. *)
Definition reinitialize : M unit := call_interface p fn_reinitialize.
(** gbl/libefi/src/protocol/gbl_efi_ab_slot.rs:160-184, [Protocol::get_boot_reason]: the reason and the size of the
    subreason. *)
Definition get_boot_reason (subreason : bytes) : M (Z * Z) :=
  '(reason, size, _) ← call_interface_bufsize p (snd ∘ fst) (λ i, app_fn (fn_get_boot_reason i) subreason);
  mret (reason, size).
(** gbl/libefi/src/protocol/gbl_efi_ab_slot.rs:186-202, [Protocol::set_boot_reason]. *)
Definition set_boot_reason (reason : Z) (subreason : bytes) : M unit :=
  call_interface p (λ i, app_fn (fn_set_boot_reason i) (reason, subreason)).
(** gbl/libefi/src/protocol/gbl_efi_ab_slot.rs:204-211, [Protocol::flush]. *)
Definition flush : M unit := call_interface p fn_flush.
(** gbl/libefi/src/protocol/gbl_efi_ab_slot.rs:213-216, [Protocol::version]. *)
Definition version : result Z := i ← interface p; Ok (sp_version i).
End SlotProtocol.
End SlotProtocol.

(** ** The manager *)

Definition REASON_EMPTY : Z := 0.
Definition REASON_RECOVERY : Z := 3.
Definition REASON_BOOTLOADER : Z := 55.
(** gbl/libefi/src/ab_slots.rs:33-33, [SUBREASON_BUF_LEN]. *)
Definition SUBREASON_BUF_LEN : nat := 64.

(** gbl/libefi/src/ab_slots.rs:35-40, [ABManager]: with the firmware. *)
Record ABManager (W : Type) := mkAB {
  ab_protocol : Protocol (GblEfiABSlotProtocol W);
  ab_boot_token : option BootToken;
  last_set_active_idx : option Z;
  ab_firmware : W;
}.
Arguments mkAB {W}. Arguments ab_protocol {W}. Arguments ab_boot_token {W}. Arguments last_set_active_idx {W}. Arguments ab_firmware {W}.

Section Manager.
Context {W : Type}.
Abbreviation M := (ST (ABManager W) Error).

(** A call of the protocol. *)
Definition on_protocol {A} (m : Protocol (GblEfiABSlotProtocol W) → ST W Error A) : M A :=
  p ← gets ab_protocol;
  zoom ab_firmware (λ w s, mkAB (ab_protocol s) (ab_boot_token s) (last_set_active_idx s) w) (m p).
(** [.or(Err(e))]. *)
Definition or_else {S A} (e : Error) (m : ST S Error A) : ST S Error A := λ s,
  let '(r, s) := m s in (map_err (λ _, e) r, s).

(** gbl/libefi/src/ab_slots.rs:50-54, [SlotGet::get_slot_by_number for ABManager]. *)
Definition get_slot_by_number (number : Z) : M Slot :=
  idx ← lift (ok_or (checked 8 number) (BadIndex number));
  info ← or_else (BadIndex number) (on_protocol (λ p, SlotProtocol.get_slot_info p idx));
  lift (slot_try_from info).

(** gbl/libefi/src/ab_slots.rs:75-83, [Manager::get_slot_last_set_active for ABManager]. *)
Definition ab_get_slot_last_set_active : M Slot :=
  s ← gets id;
  match last_set_active_idx s with
  | Some idx => get_slot_by_number idx
  | None => info ← on_protocol SlotProtocol.get_current_slot; lift (slot_try_from info)
  end.

(** gbl/libefi/src/ab_slots.rs:58-69, [Manager::get_boot_target for ABManager]. *)
Definition ab_get_boot_target : M BootTarget :=
  slot ← ab_get_slot_last_set_active;
  '(reason, _) ← on_protocol (λ p, SlotProtocol.get_boot_reason p (replicate SUBREASON_BUF_LEN 0));
  mret (if reason =? REASON_RECOVERY then Recovery (Slotted slot) else NormalBoot slot).

(** gbl/libefi/src/ab_slots.rs:85-87, [Manager::mark_boot_attempt for ABManager]. *)
Definition ab_mark_boot_attempt : M BootToken :=
  s ← gets id;
  modify (λ s, mkAB (ab_protocol s) None (last_set_active_idx s) (ab_firmware s));;
  lift (ok_or (ab_boot_token s) OperationProhibited).

(** [self.slots_iter().position(|s| s.suffix == slot_suffix)]: from the slot [count] on; the iterator ends at the
    first number without a slot, and there are no numbers above 255. *)
Fixpoint position_from (fuel : nat) (slot_suffix : Suffix) (count : Z) : M (option Z) :=
  match fuel with
  | 0%nat => mret None
  | S fuel =>
      r ← attempt (get_slot_by_number count);
      match r with
      | inl s => if suffix s =? slot_suffix then mret (Some count) else position_from fuel slot_suffix (count + 1)
      | inr _ => mret None
      end
  end.
Definition position (slot_suffix : Suffix) : M (option Z) := position_from 257 slot_suffix 0.
(** The index of a slot. *)
Definition slot_index (slot_suffix : Suffix) : M Z :=
  i ← position slot_suffix;
  i ← lift (ok_or i InvalidInput);
  lift (ok_or (checked 8 i) (Other None)).

(** gbl/libefi/src/ab_slots.rs:89-102, [Manager::set_active_slot for ABManager]. *)
Definition ab_set_active_slot (slot_suffix : Suffix) : M unit :=
  idx ← slot_index slot_suffix;
  or_else (Other None) (on_protocol (λ p, SlotProtocol.set_active_slot p idx));;
  modify (λ s, mkAB (ab_protocol s) (ab_boot_token s) (Some idx) (ab_firmware s)).
(** gbl/libefi/src/ab_slots.rs:104-114, [Manager::set_slot_unbootable for ABManager]. *)
Definition ab_set_slot_unbootable (slot_suffix : Suffix) (reason : UnbootableReason) : M unit :=
  idx ← slot_index slot_suffix;
  on_protocol (λ p, SlotProtocol.set_slot_unbootable p idx (reason_to_u8 reason)).
(** gbl/libefi/src/ab_slots.rs:116-118, [Manager::get_max_retries for ABManager]. *)
Definition ab_get_max_retries : M Tries := b ← on_protocol SlotProtocol.load_boot_data; mret (max_retries b).

(** gbl/libefi/src/ab_slots.rs:120-129, [Manager::get_oneshot_status for ABManager]. *)
Definition ab_get_oneshot_status : M (option OneShot) :=
  r ← attempt (on_protocol (λ p, SlotProtocol.get_boot_reason p (replicate SUBREASON_BUF_LEN 0)));
  mret (match r with
        | inl (reason, _) => if reason =? REASON_BOOTLOADER then Some OBootloader else None
        | inr _ => None
        end).
(** gbl/libefi/src/ab_slots.rs:131-140, [Manager::set_oneshot_status for ABManager]. *)
Definition ab_set_oneshot_status (os : OneShot) : M unit :=
  match os with
  | OBootloader => or_else (Other None) (on_protocol (λ p, SlotProtocol.set_boot_reason p REASON_BOOTLOADER []))
  | _ => raise OperationProhibited
  end.
(** gbl/libefi/src/ab_slots.rs:142-150, [Manager::clear_oneshot_status for ABManager]. *)
Definition ab_clear_oneshot_status : M unit :=
  r ← attempt (on_protocol (λ p, SlotProtocol.get_boot_reason p (replicate SUBREASON_BUF_LEN 0)));
  match r with
  | inl (reason, _) =>
      if reason =? REASON_BOOTLOADER
      then _ ← attempt (on_protocol (λ p, SlotProtocol.set_boot_reason p REASON_EMPTY [])); mret tt
      else mret tt
  | inr _ => mret tt
  end.
(** gbl/libefi/src/ab_slots.rs:152-156, [Manager::write_back for ABManager]: an error panics. *)
Definition ab_write_back : M unit := unwrap_st (on_protocol SlotProtocol.flush).
End Manager.

(** * The slot manager of the EFI application acts on the slot it is asked for *)

(** What the firmware promises of its slots: [table] are the slots, at most 256 with
    characters as suffixes, and [active] is the number of the active one. Queries
    change nothing; activation keeps the suffixes. *)
Class SlotFirmware {W : Type} (table : W → list GblEfiSlotInfo) (active : W → Z) (i : GblEfiABSlotProtocol W) := {
  get_info : Z → W → Z * GblEfiSlotInfo * W;
  set_active : Z → W → Z * unit * W;
  get_info_at : fn_get_slot_info i = Some get_info;
  set_active_at : fn_set_active_slot i = Some set_active;
  table_small : ∀ w, (length (table w) ≤ 256)%nat;
  table_chars : ∀ w, Forall (λ s, is_char (si_suffix s) = true) (table w);
  get_info_law : ∀ idx w, 0 ≤ idx →
    match table w !! Z.to_nat idx with
    | Some s => get_info idx w = (EFI_STATUS_SUCCESS, s, w)
    | None => ∃ s, get_info idx w = (EFI_STATUS_INVALID_PARAMETER, s, w)
    end;
  set_active_law : ∀ idx w, 0 ≤ idx < zlen (table w) →
    ∃ w', set_active idx w = (EFI_STATUS_SUCCESS, tt, w') ∧ active w' = idx ∧ si_suffix <$> table w' = si_suffix <$> table w;
}.

Section Manager.
Context {W : Type} (table : W → list GblEfiSlotInfo) (active : W → Z) (i : GblEfiABSlotProtocol W) `{!SlotFirmware table active i}.
Implicit Types s : ABManager W.

(** The slot that an entry of the table describes. *)
Definition slot_of (info : GblEfiSlotInfo) : Slot :=
  mkSlotOf (si_suffix info) (si_priority info)
    (if negb (si_successful info =? 0) then BSuccessful
     else if 0 <? si_tries info then BRetriable (si_tries info)
     else BUnbootable (from_efi_unbootable_reason (si_unbootable_reason info))).

Lemma slot_try_from_ok info : is_char (si_suffix info) = true → slot_try_from info = Ok (slot_of info).
Proof. intros H. unfold slot_try_from, suffix_of_u32. by rewrite H. Qed.

Lemma get_slot_run s n :
  pr_interface (ab_protocol s) = Some i → 0 ≤ n →
  get_slot_by_number n s = (match table (ab_firmware s) !! Z.to_nat n with Some e => Ok (slot_of e) | None => Err (BadIndex n) end, s).
Proof.
  intros Hi Hn. unfold get_slot_by_number. rewrite bind_run, lift_run. pose proof (table_small (ab_firmware s)) as Hsmall.
  destruct (decide (n < 256)) as [Hlt|Hge].
  - rewrite checked_Some by lia. cbn [ok_or]. rewrite bind_run. unfold or_else, on_protocol. rewrite bind_run, gets_run.
    unfold zoom, SlotProtocol.get_slot_info, call_interface, interface. rewrite bind_run, lift_run, Hi. cbn [ok_or]. unfold efi_call.
    rewrite get_info_at. cbn [app_fn option_map]. pose proof (get_info_law n (ab_firmware s) Hn) as Hlaw.
    destruct (table (ab_firmware s) !! Z.to_nat n) as [e|] eqn:He.
    + rewrite Hlaw. cbn. rewrite lift_run, slot_try_from_ok; [by destruct s|].
      eapply (Forall_lookup_1 _ _ _ _ (table_chars _) He).
    + destruct Hlaw as [e ->]. cbn. by destruct s.
  - rewrite checked_None by lia. cbn. rewrite lookup_ge_None_2 by lia. done.
Qed.

Lemma position_run s x fuel k :
  pr_interface (ab_protocol s) = Some i → (length (table (ab_firmware s)) < fuel + k)%nat →
  position_from fuel x (Z.of_nat k) s =
    (Ok ((λ p, Z.of_nat k + Z.of_nat (fst p)) <$> list_find (λ e, si_suffix e = x) (drop k (table (ab_firmware s)))), s).
Proof.
  intros Hi. revert k. induction fuel as [|fuel IH]; intros k Hf; cbn [position_from].
  { by rewrite drop_ge by lia. }
  rewrite bind_run, attempt_run, get_slot_run, Nat2Z.id by (done || lia).
  destruct (table (ab_firmware s) !! k) as [e|] eqn:He.
  - rewrite (drop_S _ _ _ He). cbn [list_find suffix slot_of]. destruct (si_suffix e =? x) eqn:Ex; bools.
    + rewrite decide_True by done. cbn. by rewrite Z.add_0_r.
    + rewrite decide_False by done. replace (Z.of_nat k + 1) with (Z.of_nat (S k)) by lia. rewrite IH by lia.
      do 2 f_equal. destruct (list_find _ _) as [[j e']|]; [|done]. cbn. f_equal. lia.
  - apply lookup_ge_None in He. by rewrite drop_ge by lia.
Qed.

(** Activating a slot by its suffix: the firmware activates the first slot with
    that suffix, and the manager answers with that slot from then on; a suffix
    that no slot has is refused and changes nothing. The index of a slot always
    fits a byte. *)
Theorem ab_set_active_exact s x :
  pr_interface (ab_protocol s) = Some i →
  match list_find (λ e, si_suffix e = x) (table (ab_firmware s)) with
  | Some (idx, _) =>
      ∃ s' e, ab_set_active_slot x s = (Ok tt, s') ∧ active (ab_firmware s') = Z.of_nat idx ∧
        table (ab_firmware s') !! idx = Some e ∧ suffix (slot_of e) = x ∧
        ab_get_slot_last_set_active s' = (Ok (slot_of e), s')
  | None => ab_set_active_slot x s = (Err InvalidInput, s)
  end.
Proof.
  intros Hi. unfold ab_set_active_slot, slot_index, position. pose proof (table_small (ab_firmware s)) as Hsm.
  assert (Hpos : ∀ y, position_from 257 y 0 s = _) by (intros y; apply (position_run s y 257 0 Hi); lia).
  destruct (list_find _ _) as [[idx e0]|] eqn:Ef; rewrite !bind_run, Hpos, drop_0, Ef; [|done]. cbn [fmap option_fmap option_map fst].
  apply list_find_Some in Ef as (Hl & Hx & _). pose proof (lookup_lt_Some _ _ _ Hl) as Hlt.
  rewrite bind_run, lift_run. cbn [ok_or]. rewrite lift_run, checked_Some by lia. cbn [ok_or].
  destruct (set_active_law (Z.of_nat idx) (ab_firmware s)) as (w' & Ew & Hact & Hsuf); [lia|].
  rewrite bind_run. unfold or_else, on_protocol. rewrite bind_run, gets_run. unfold zoom, SlotProtocol.set_active_slot, call_interface, interface.
  rewrite bind_run, lift_run, Hi. cbn [ok_or]. unfold efi_call. rewrite set_active_at. cbn [app_fn option_map]. rewrite !Z.add_0_l, Ew. cbn.
  assert (Hs : (si_suffix <$> table w') !! idx = Some x) by (rewrite Hsuf, list_lookup_fmap, Hl; cbn; by rewrite Hx).
  rewrite list_lookup_fmap in Hs. destruct (table w' !! idx) as [e|] eqn:He; [|done]. injection Hs as Hs.
  eexists _, e. split; [done|]. split; [done|]. split; [done|]. split; [done|].
  unfold ab_get_slot_last_set_active. rewrite bind_run, gets_run. cbn [id last_set_active_idx]. rewrite get_slot_run by (done || lia).
  cbn [ab_firmware]. by rewrite Nat2Z.id, He.
Qed.
End Manager.

(** ** An example *)

Module AbExample.
(** Two slots; activation gives the slot the highest priority. *)
Record State := mkState { st_a : Z; st_b : Z; st_active : Z }.
Definition table (w : State) : list GblEfiSlotInfo := [mkSlotInfo 97 0 (st_a w) 3 0; mkSlotInfo 98 0 (st_b w) 0 1].
Definition info (idx : Z) (w : State) : Z * GblEfiSlotInfo * State :=
  match table w !! Z.to_nat idx with
  | Some s => (EFI_STATUS_SUCCESS, s, w)
  | None => (EFI_STATUS_INVALID_PARAMETER, mkSlotInfo 0 0 0 0 0, w)
  end.
Definition activate (idx : Z) (w : State) : Z * unit * State :=
  (EFI_STATUS_SUCCESS, tt, if idx =? 0 then mkState 15 14 0 else mkState 14 15 idx).
Definition slots : GblEfiABSlotProtocol State :=
  mkSlotProtocol _ 0x10000 None (Some info) None None (Some activate) None None None None None.
#[local] Instance slot_firmware : SlotFirmware table st_active slots.
Proof.
  refine {| get_info := info; set_active := activate |}; try done.
  - intros w. cbn. lia.
  - intros w. by repeat constructor.
  - intros idx w H. unfold info. destruct (table w !! Z.to_nat idx) eqn:E; [done|]. eauto.
  - intros idx w H. eexists. split; [done|]. destruct (idx =? 0) eqn:E; bools; by subst.
Defined.
Definition manager : ABManager State := mkAB (mkProtocol 7 (Some slots)) (Some Token) None (mkState 15 14 0).

(** The witness of [ab_set_active_exact]: slot b. *)
Lemma ab_set_active_exact_witness :
  fst (ab_set_active_slot 98 manager) = Ok tt ∧
  fst (ab_get_slot_last_set_active (snd (ab_set_active_slot 98 manager))) = Ok (mkSlotOf 98 15 BSuccessful).
Proof.
  pose proof (ab_set_active_exact table st_active slots manager 98 eq_refl) as (s & e & E & Ha & He & _ & Hs).
  rewrite E. cbn [fst snd]. split; [done|]. rewrite Hs. cbn [fst].
  assert (Hw : ab_firmware s = mkState 14 15 1) by (injection E as <-; reflexivity). rewrite Hw in He. by injection He as <-.
Defined.
End AbExample.
