(* ===== verification/EfiNet.v ===== *)
(** * efi: the network

    Models src/gbl/libefi/src/protocol/simple_network.rs,
    src/gbl/libefi/src/protocol/device_path.rs, src/gbl/efi/src/net.rs with its
    errors (src/gbl/efi/src/error.rs), the TCP part of
    src/gbl/efi/src/fastboot.rs and the containers of src/gbl/smoltcp: the
    network device with its pool of frames, the choice of the device, and the
    socket with its timeouts.

    smoltcp is a parameter. What it does with a device in one poll is a program
    of receptions and transmissions ([NetProg]), which runs on the model of the
    device; its sockets are the operations of the class [Smoltcp]. The
    number that the timer's notification increments is part of the firmware's
    state (class [NetClock]), since the firmware runs the notification. *)

From stdpp Require Import gmap.
From S2P Require Import Prelude SafeMath LibError Text Abr Block Disk BootParams Avb Async Libc.
From S2P Require Import Fastboot GblRun.
From S2P Require Import Efi EfiMem EfiAlloc EfiProtocols EfiTimer EfiFastboot.

(** ** EFI_SIMPLE_NETWORK_PROTOCOL *)

(** [EfiSimpleNetworkMode]: the address of the device. *)
Record EfiSimpleNetworkMode := mkNetMode { current_address : bytes }.
(** A frame that is handed over: size of its header, address, contents, and the
    addresses and protocol of a header that the firmware is to write. *)
Record TxFrame := mkTxFrame {
  tx_header_size : Z; tx_buf : Z; tx_data : bytes; tx_src : bytes; tx_dest : bytes; tx_protocol : Z;
}.
(** What [Receive] stores through its optional pointers, beside the frame: size of
    the header, size of the frame, addresses and protocol. *)
Record RxInfo := mkRxInfo {
  rx_header_size : option Z; rx_buf_size : option Z; rx_src : option bytes; rx_dest : option bytes; rx_protocol : option Z;
}.

(** [EfiSimpleNetworkProtocol]. A variable behind an optional pointer is passed as its
    value before the call, and returned as its value after it. *)
Record EfiSimpleNetworkProtocol (W : Type) := mkSnp {
  fn_snp_start : efi_fn W unit;
  fn_snp_stop : efi_fn W unit;
  fn_snp_initialize : option (Z * Z → W → Z * unit * W);
  fn_snp_reset : option (bool → W → Z * unit * W);
  fn_snp_shutdown : efi_fn W unit;
  fn_snp_receive_filters : option (Z * Z * bool * list bytes → W → Z * unit * W);
  fn_snp_get_status : option (option Z * option Z → W → Z * (option Z * option Z) * W);
  fn_snp_transmit : option (TxFrame → W → Z * unit * W);
  fn_snp_receive : option (RxInfo → W * bytes → Z * RxInfo * (W * bytes));
  snp_mode : option EfiSimpleNetworkMode;
}.
Arguments fn_snp_start {W}. Arguments fn_snp_stop {W}. Arguments fn_snp_initialize {W}. Arguments fn_snp_reset {W}.
Arguments fn_snp_shutdown {W}. Arguments fn_snp_receive_filters {W}. Arguments fn_snp_get_status {W}.
Arguments fn_snp_transmit {W}. Arguments fn_snp_receive {W}. Arguments snp_mode {W}.

Definition EFI_SIMPLE_NETWORK_RECEIVE_UNICAST : Z := 0x01.
Definition EFI_SIMPLE_NETWORK_RECEIVE_PROMISCUOUS : Z := 0x08.
Definition EFI_SIMPLE_NETWORK_RECEIVE_PROMISCUOUS_MULTICAST : Z := 0x10.

Module SimpleNetwork.
Section Snp.
Context {W : Type} (p : Protocol (EfiSimpleNetworkProtocol W)).
Abbreviation M := (ST W Error).

(** gbl/libefi/src/protocol/simple_network.rs:39-46, [Protocol::start]. *)
Definition start : M unit := call_interface p fn_snp_start.
(** gbl/libefi/src/protocol/simple_network.rs:48-52, [Protocol::stop]. *)
Definition stop : M unit := call_interface p fn_snp_stop.
(** gbl/libefi/src/protocol/simple_network.rs:54-65, [Protocol::initialize]. *)
Definition snp_initialize (extra_rx_buf_size extra_tx_buf_size : Z) : M unit :=
  call_interface p (λ i, app_fn (fn_snp_initialize i) (extra_rx_buf_size, extra_tx_buf_size)).
(** gbl/libefi/src/protocol/simple_network.rs:67-71, [Protocol::reset]. *)
Definition reset (extended_verification : bool) : M unit :=
  call_interface p (λ i, app_fn (fn_snp_reset i) extended_verification).
(** gbl/libefi/src/protocol/simple_network.rs:73-77, [Protocol::shutdown]. *)
Definition shutdown : M unit := call_interface p fn_snp_shutdown.
(** gbl/libefi/src/protocol/simple_network.rs:79-103, [Protocol::receive_filters]. *)
Definition receive_filters (enable disable : Z) (reset_mcast_filter : bool) (mcast_filter : list bytes) : M unit :=
  call_interface p (λ i, app_fn (fn_snp_receive_filters i) (enable, disable, reset_mcast_filter, mcast_filter)).
(** gbl/libefi/src/protocol/simple_network.rs:105-124, [Protocol::get_status]. *)
Definition get_status (interrupt_status recycle_buffer : option Z) : M (option Z * option Z) :=
  call_interface p (λ i, app_fn (fn_snp_get_status i) (interrupt_status, recycle_buffer)).
(** gbl/libefi/src/protocol/simple_network.rs:126-161, [Protocol::transmit]: the buffer is not null. *)
Definition transmit (f : TxFrame) : M unit :=
  lift (assert_that (negb (tx_buf f =? 0)));;
  call_interface p (λ i, app_fn (fn_snp_transmit i) f).
(** gbl/libefi/src/protocol/simple_network.rs:163-189, [Protocol::receive]. *)
Definition receive (info : RxInfo) : ST (W * bytes) Error RxInfo :=
  call_interface p (λ i, app_fn (fn_snp_receive i) info).
(** gbl/libefi/src/protocol/simple_network.rs:191-195, [Protocol::mode]. *)
Definition mode : result EfiSimpleNetworkMode := i ← interface p; ok_or (snp_mode i) NotFound.
(** gbl/libefi/src/protocol/simple_network.rs:197-207, [Protocol::set_promiscuous_mode]. *)
Definition set_promiscuous_mode : M unit :=
  receive_filters (Z.lor (Z.lor EFI_SIMPLE_NETWORK_RECEIVE_UNICAST EFI_SIMPLE_NETWORK_RECEIVE_PROMISCUOUS)
                     EFI_SIMPLE_NETWORK_RECEIVE_PROMISCUOUS_MULTICAST) 0 false [].
End Snp.
End SimpleNetwork.

(** ** Device paths *)

(** [EfiDevicePathProtocol]: where the path is. *)
Record EfiDevicePathProtocol := mkDevicePath { dp_ptr : Z }.
(** [EfiDevicePathToTextProtocol]: a text is its address and the memory there. *)
Record EfiDevicePathToTextProtocol (W : Type) := mkPathToText {
  fn_convert_device_path_to_text : option (Z * bool * bool → W → (Z * list Z) * W);
}.
Arguments fn_convert_device_path_to_text {W}.

(** gbl/libefi/src/protocol/device_path.rs:61-66, [DevicePathText]: the text with its address. *)
Record DevicePathText := mkPathText { dt_text : option (Z * list Z) }.

(** The units in front of the terminator. *)
Fixpoint until_nul (l : list Z) : list Z :=
  match l with [] => [] | c :: l => if c =? 0 then [] else c :: until_nul l end.

Section Paths.
Context {W : Type} (entry : EfiEntry W).
Abbreviation M := (ST W Error).

(** gbl/libefi/src/protocol/device_path.rs:69-84, [DevicePathText::new]. *)
Definition device_path_text_new (text : Z * list Z) : DevicePathText :=
  if fst text =? 0 then mkPathText None else mkPathText (Some (fst text, until_nul (snd text))).
(** gbl/libefi/src/protocol/device_path.rs:86-89, [DevicePathText::text]. *)
Definition path_text (t : DevicePathText) : option (list Z) := snd <$> dt_text t.
(** gbl/libefi/src/protocol/device_path.rs:107-115, [Drop::drop for DevicePathText]. *)
Definition drop_path_text (t : DevicePathText) : M unit :=
  match dt_text t with
  | Some (ptr, _) => bs ← lift (boot_services entry); unwrap_st (free_pool bs ptr)
  | None => mret tt
  end.
(** gbl/libefi/src/protocol/device_path.rs:44-58, [Protocol::convert_device_path_to_text]. *)
Definition convert_device_path_to_text (p : Protocol (EfiDevicePathToTextProtocol W))
    (device_path : Protocol EfiDevicePathProtocol) (display_only allow_shortcuts : bool) : M DevicePathText :=
  i ← lift (interface p);
  f ← lift (ok_or (fn_convert_device_path_to_text i) NotFound);
  let ptr := match pr_interface device_path with Some d => dp_ptr d | None => 0 end in
  (λ w, let '(res, w) := f (ptr, display_only, allow_shortcuts) w in (Ok (device_path_text_new res), w)) : M DevicePathText.

Context `{!ProtocolInfo EfiDevicePathProtocol} `{!ProtocolInfo (EfiDevicePathToTextProtocol W)}.

(** gbl/efi/src/utils.rs:36-45, [get_device_path]. *)
Definition get_device_path (handle : Z) : M DevicePathText :=
  bs ← lift (boot_services entry);
  path ← open_protocol entry EfiDevicePathProtocol bs handle;
  path_to_text ← find_first_and_open entry (EfiDevicePathToTextProtocol W);
  convert_device_path_to_text path_to_text path false false.
(** gbl/efi/src/utils.rs:47-57, [loaded_image_path]. *)
Definition loaded_image_path `{!ProtocolInfo EfiLoadedImageProtocol} : M DevicePathText :=
  bs ← lift (boot_services entry);
  p ← open_protocol entry EfiLoadedImageProtocol bs (image_handle entry);
  h ← lift (device_handle p);
  get_device_path h.

(** [Ord::cmp] of slices. *)
Fixpoint slice_cmp (l r : list Z) : comparison :=
  match l, r with
  | [], [] => Eq
  | [], _ => Lt
  | _, [] => Gt
  | a :: l, b :: r => match a ?= b with Eq => slice_cmp l r | c => c end
  end.

(** gbl/efi/src/net.rs:271-291, [find_net_device]: the handles that are left, and the best one so far; the path that loses a
    comparison is dropped. *)
Fixpoint min_by_path (handles : list Z) (best : option (Z * DevicePathText * list Z))
    : M (option (Z * DevicePathText * list Z)) :=
  match handles with
  | [] => mret best
  | handle :: handles =>
      r ← attempt (get_device_path handle);
      match r with
      | inr _ => min_by_path handles best
      | inl path =>
          match path_text path with
          | None => min_by_path handles best
          | Some text =>
              match best with
              | None => min_by_path handles (Some (handle, path, text))
              | Some (h0, path0, text0) =>
                  match slice_cmp text0 text with
                  | Gt => drop_path_text path0;; min_by_path handles (Some (handle, path, text))
                  | _ => drop_path_text path;; min_by_path handles best
                  end
              end
          end
      end
  end.
(** gbl/efi/src/net.rs:271-291, [find_net_device]. *)
Definition find_net_device `{!ProtocolInfo (EfiSimpleNetworkProtocol W)} : M Z :=
  bs ← lift (boot_services entry);
  l ← locate_handle_buffer_by_protocol (EfiSimpleNetworkProtocol W) bs;
  with_drop (drop_handles entry l)
    (best ← min_by_path (handles l) None;
     match best with
     | Some (h, path, _) => drop_path_text path;; mret h
     | None => raise NotFound
     end).
End Paths.

(** ** The network device *)

(** gbl/efi/src/net.rs:48-49, [ETHERNET_FRAME_SIZE]. *)
Definition ETHERNET_FRAME_SIZE : Z := 1536.
(** gbl/efi/src/net.rs:50-51, [NETWORK_TIMESTAMP_UPDATE_PERIOD]: in nanoseconds. *)
Definition NETWORK_TIMESTAMP_UPDATE_PERIOD : Z := 50 * 10 ^ 6.
(** gbl/efi/src/net.rs:52-53, [SOCKET_TX_RX_BUFFER]. *)
Definition SOCKET_TX_RX_BUFFER : Z := 256 * 1024.

(** gbl/efi/src/net.rs:55-68, [reset_simple_network]. *)
Definition reset_simple_network {W} (snp : Protocol (EfiSimpleNetworkProtocol W)) : ST W Error unit :=
  r ← attempt (SimpleNetwork.shutdown snp);
  match r with
  | inr e => if bool_decide (e = NotStarted) then mret tt else raise e
  | inl _ => mret tt
  end;;
  r ← attempt (SimpleNetwork.start snp);
  match r with
  | inr e => if bool_decide (e = AlreadyStarted) then mret tt else raise e
  | inl _ => mret tt
  end;;
  SimpleNetwork.snp_initialize snp 0 0;;
  SimpleNetwork.reset snp true.

(** gbl/efi/src/net.rs:70-77, [EfiNetworkDevice]: with the machine that it works on. The frame for receptions is
    at [rx_addr]; the frames for transmissions are in the memory of the machine. *)
Record EfiNetworkDevice (W : Type) := mkNetDevice {
  nd_protocol : Protocol (EfiSimpleNetworkProtocol W);
  rx_addr : Z; rx_frame : bytes;
  tx_frames : list Z; tx_frame_curr : Z;
  nd_entry : EfiEntry W; nd_machine : Machine W;
}.
Arguments mkNetDevice {W}. Arguments nd_protocol {W}. Arguments rx_addr {W}. Arguments rx_frame {W}.
Arguments tx_frames {W}. Arguments tx_frame_curr {W}. Arguments nd_entry {W}. Arguments nd_machine {W}.

Definition frame_layout : Layout := mkLayout ETHERNET_FRAME_SIZE 1.

Section NetDevice.
Context {W : Type}.
Implicit Types d : EfiNetworkDevice W.
Abbreviation Dev := (ST (EfiNetworkDevice W) Error).

Definition nd_set_machine (m : Machine W) d : EfiNetworkDevice W :=
  mkNetDevice (nd_protocol d) (rx_addr d) (rx_frame d) (tx_frames d) (tx_frame_curr d) (nd_entry d) m.
Definition nd_firmware d : W := mc_firmware (nd_machine d).
Definition nd_memory d : Memory := mc_memory (nd_machine d).
Definition nd_set_firmware (w : W) d : EfiNetworkDevice W :=
  nd_set_machine (mkMachine (mc_allocator (nd_machine d)) w (nd_memory d)) d.
Definition nd_set_memory (m : Memory) d : EfiNetworkDevice W :=
  nd_set_machine (mkMachine (mc_allocator (nd_machine d)) (nd_firmware d) m) d.
Definition nd_set_curr (n : Z) d : EfiNetworkDevice W :=
  mkNetDevice (nd_protocol d) (rx_addr d) (rx_frame d) (tx_frames d) n (nd_entry d) (nd_machine d).
Definition nd_set_rx (b : bytes) d : EfiNetworkDevice W :=
  mkNetDevice (nd_protocol d) (rx_addr d) b (tx_frames d) (tx_frame_curr d) (nd_entry d) (nd_machine d).
(** A call of the firmware. *)
Definition on_net {E A} (m : ST W E A) : ST (EfiNetworkDevice W) E A := zoom nd_firmware nd_set_firmware m.

(** [Box::new([0u8; ETHERNET_FRAME_SIZE])]: a failed allocation does not return. *)
Definition box_frame : ST (Machine W) Error Z :=
  ptr ← alloc frame_layout;
  if ptr =? 0 then lift Panic else
  modify (λ m, mkMachine (mc_allocator m) (mc_firmware m) (mem_write (mc_memory m) ptr (zeros ETHERNET_FRAME_SIZE)));;
  mret ptr.
Fixpoint box_frames (n : nat) : ST (Machine W) Error (list Z) :=
  match n with
  | 0%nat => mret []
  | S n => p ← box_frame; l ← box_frames n; mret (p :: l)
  end.
(** gbl/efi/src/net.rs:80-97, [EfiNetworkDevice::new]: the machine is what the device works on. *)
Definition network_device_new (protocol : Protocol (EfiSimpleNetworkProtocol W)) (extra_tx_frames : nat)
    (entry : EfiEntry W) : ST (Machine W) Error (EfiNetworkDevice W) :=
  rx ← box_frame;
  frames ← box_frames (extra_tx_frames + 1);
  m ← gets id;
  mret (mkNetDevice protocol rx (zeros ETHERNET_FRAME_SIZE) frames 0 entry m).

Fixpoint drop_frames (l : list Z) : ST (Machine W) Error unit :=
  match l with
  | [] => mret tt
  | p :: l => dealloc p frame_layout;; drop_frames l
  end.
(** gbl/efi/src/net.rs:101-117, [Drop::drop for EfiNetworkDevice]: then the frame for receptions is dropped. *)
Definition drop_network_device : Dev unit :=
  d ← gets id;
  r ← attempt (on_net (SimpleNetwork.shutdown (nd_protocol d)));
  match r with
  | inr e => if bool_decide (e = NotStarted) then mret tt else lift Panic
  | inl _ => mret tt
  end;;
  zoom nd_machine nd_set_machine (drop_frames (tx_frames d);; dealloc (rx_addr d) frame_layout).

(** gbl/efi/src/net.rs:131-137, [Device::capabilities for EfiNetworkDevice]: the maximal size of a transmission. *)
Definition max_transmission_unit : Z := 65535.

(** gbl/efi/src/net.rs:139-157, [Device::receive for EfiNetworkDevice]: the frame of the token. *)
Definition dev_receive : Dev (option bytes) := λ d,
  let info := mkRxInfo None (Some (zlen (rx_frame d))) None None None in
  let '(r, (w, frame)) := SimpleNetwork.receive (nd_protocol d) info (nd_firmware d, rx_frame d) in
  let d := nd_set_rx frame (nd_set_firmware w d) in
  match r with
  | Ok out =>
      let recv_size := default (zlen frame) (rx_buf_size out) in
      if 0 <? recv_size then (f ← index_range frame 0 recv_size; Ok (Some f), d) else (Ok None, d)
  | Err _ => (Ok None, d)
  | Panic => (Panic, d)
  end.

(** gbl/efi/src/net.rs:190-205, [TxToken::try_get_buffer]: a frame that was not used yet. *)
Definition next_frame (frames : list Z) : ST (W * Z) Error (option Z) :=
  curr ← gets snd;
  if curr <? zlen frames then
    modify (λ s, (fst s, curr + 1));;
    frame ← lift (unwrap (frames !! Z.to_nat curr));
    mret (Some frame)
  else mret None.
(** gbl/efi/src/net.rs:190-205, [TxToken::try_get_buffer]: on the firmware and the next index into the frames. *)
Definition try_get_buffer (snp : Protocol (EfiSimpleNetworkProtocol W)) (frames : list Z) : ST (W * Z) Error (option Z) :=
  r ← attempt (beside (SimpleNetwork.get_status snp (Some 0) (Some 0)));
  match r with
  | inl (_, Some ptr) => if bool_decide (ptr ∈ frames) then mret (Some ptr) else next_frame frames
  | _ => next_frame frames
  end.

(** What a closure leaves of a buffer: its length does not change. *)
Definition overwrite (old new : bytes) : bytes := take (length old) (new ++ drop (length new) old).

(** gbl/efi/src/net.rs:209-268, [TxToken::consume]: a frame is filled by the closure and handed over. *)
Definition send_frame {R} (send_buffer len : Z) (f : bytes → R * bytes) : Dev R :=
  d ← gets id;
  if (send_buffer =? 0) || (ETHERNET_FRAME_SIZE <? len) then lift Panic else
  let buf := mem_read (nd_memory d) send_buffer len in
  let '(result, filled) := f buf in
  let data := overwrite buf filled in
  modify (nd_set_memory (mem_write (nd_memory d) send_buffer data));;
  _ ← attempt (on_net (SimpleNetwork.transmit (nd_protocol d) (mkTxFrame 0 send_buffer data (zeros 32) (zeros 32) 0)));
  mret result.

(** gbl/efi/src/net.rs:209-268, [TxToken::consume]: with at most [fuel] attempts to get a frame, each of at most [polls]
    looks. *)
Fixpoint tx_consume {R} (polls fuel : nat) (len : Z) (f : bytes → R * bytes) : FST (EfiNetworkDevice W) R :=
  match fuel with
  | 0%nat => out_of_fuel
  | S fuel =>
      d ← gets id;
      r ← attempt (zoom (λ d, (nd_firmware d, tx_frame_curr d)) (λ s d, nd_set_curr (snd s) (nd_set_firmware (fst s) d))
            (loop_with_timeout (nd_entry d) polls (5 * 10 ^ 9)
               (b ← try_get_buffer (nd_protocol d) (tx_frames d);
                mret (match b with Some b => inl b | None => inr false end))));
      match r with
      | inl (Some send_buffer) => fueled (send_frame send_buffer len f)
      | inl None =>
          fueled (unwrap_st (on_net (reset_simple_network (nd_protocol d))));;
          modify (nd_set_curr 0);;
          tx_consume polls fuel len f
      | inr None => out_of_fuel
      | inr (Some _) => tx_consume polls fuel len f
      end
  end.
End NetDevice.

(** What smoltcp does with a device: it asks for a frame that was received, it
    sends one that it fills, and it ends with a result. *)
Inductive NetProg (N : Type) : Type :=
  | NDone (n : N)
  | NReceive (k : option bytes → NetProg N)
  | NSend (R : Type) (len : Z) (f : bytes → R * bytes) (k : R → NetProg N).
Arguments NDone {N}. Arguments NReceive {N}. Arguments NSend {N}.

Section RunProg.
Context {W N : Type}.
(** A program on the device. *)
Fixpoint run_prog (polls fuel : nat) (g : NetProg N) : FST (EfiNetworkDevice W) N :=
  match g with
  | NDone n => mret n
  | NReceive k => r ← fueled dev_receive; run_prog polls fuel (k r)
  | NSend R len f k => r ← tx_consume polls fuel len f; run_prog polls fuel (k r)
  end.
End RunProg.

(** ** The socket *)

(** smoltcp: states of a TCP socket, and the errors. *)
Module Tcp.
Inductive State :=
  | Closed | Listen | SynSent | SynReceived | Established | FinWait1 | FinWait2 | CloseWait | Closing | LastAck | TimeWait.
#[global] Instance State_eq_dec : EqDecision State.
Proof. solve_decision. Defined.
Inductive RecvError := RInvalidState | RFinished.
Inductive SendError := SInvalidState.
Inductive ListenError := LInvalidState | LUnaddressable.
End Tcp.

(** gbl/efi/src/error.rs:18-23, [recv_to_unified]. *)
Definition recv_to_unified (e : Tcp.RecvError) : Error :=
  match e with Tcp.RInvalidState => InvalidState | Tcp.RFinished => Finished end.
(** gbl/efi/src/error.rs:25-29, [send_to_unified]. *)
Definition send_to_unified (e : Tcp.SendError) : Error := match e with Tcp.SInvalidState => InvalidState end.
(** gbl/efi/src/error.rs:31-36, [listen_to_unified]. *)
Definition listen_to_unified (e : Tcp.ListenError) : Error :=
  match e with Tcp.LInvalidState => InvalidState | Tcp.LUnaddressable => Unaddressable end.

(** smoltcp: [N] is the interface with the TCP and the UDP socket. Times are in
    milliseconds. *)
Class Smoltcp (N : Type) := {
  net_new : forall (mac ip6 : bytes) (prefix_len mtu tcp_buffer udp_buffer : Z), N;
  net_poll : Z → N → NetProg N;
  tcp_abort : N → N;
  tcp_listen : Z → N → outcome Tcp.ListenError unit * N;
  tcp_state : N → Tcp.State;
  tcp_is_active : N → bool;
  tcp_is_open : N → bool;
  tcp_can_recv : N → bool;
  tcp_can_send : N → bool;
  tcp_recv_slice : ST (N * bytes) Tcp.RecvError Z;
  tcp_send_slice : bytes → ST N Tcp.SendError Z;
  tcp_send_queue : N → Z;
  tcp_remote_endpoint : N → option (bytes * Z);
  udp_is_open : N → bool;
  udp_bind : Z → N → N;
  udp_can_send : N → bool;
  udp_send_slice : bytes → bytes * Z → N → N;
}.
(** The number that the notification of the timer increments. *)
Class NetClock (W : Type) := { clock_load : W → Z; clock_swap : Z → W → W }.

(** gbl/efi/src/net.rs:555-638, [EfiGblNetworkInternal::create_socket]: the notification. *)
Definition notify_fn (timestamp : Z) : Z := wrap 64 (timestamp + NETWORK_TIMESTAMP_UPDATE_PERIOD / 10 ^ 6).

(** [Duration], in nanoseconds. *)
Definition from_millis (ms : Z) : Z := ms * 10 ^ 6.
Definition as_millis (d : Z) : Z := d / 10 ^ 6.
Definition Duration_MAX : Z := (2 ^ 64 - 1) * 10 ^ 9 + 999999999.

(** gbl/efi/src/net.rs:314-325, [EfiTcpSocket]: with how often a wait may poll. *)
Record EfiTcpSocket (W N : Type) := mkTcpSocket {
  efi_net_dev : EfiNetworkDevice W;
  ts_net : N;
  ts_yield_counter : YieldCounter;
  last_listen_timestamp : option Z;
  time_update_event : Event;
  fuchsia_fastboot_mdns : bytes;
  ts_polls : nat;
}.
Arguments mkTcpSocket {W N}. Arguments efi_net_dev {W N}. Arguments ts_net {W N}. Arguments ts_yield_counter {W N}.
Arguments last_listen_timestamp {W N}. Arguments time_update_event {W N}. Arguments fuchsia_fastboot_mdns {W N}.
Arguments ts_polls {W N}.

(** gbl/efi/src/net.rs:489-492, [to_smoltcp_instant]. *)
Definition to_smoltcp_instant {E} (ts : Z) : outcome E Z := assert_that (ts <? 2 ^ 63);; Ok ts.

Section Socket.
Context {W N : Type} `{!Smoltcp N} `{!NetClock W}.
Implicit Types s : EfiTcpSocket W N.
Abbreviation Sock := (ST (EfiTcpSocket W N) Error).
Abbreviation FSock A := (FST (EfiTcpSocket W N) A).

Definition ts_set_net (n : N) s : EfiTcpSocket W N :=
  mkTcpSocket (efi_net_dev s) n (ts_yield_counter s) (last_listen_timestamp s) (time_update_event s) (fuchsia_fastboot_mdns s) (ts_polls s).
Definition ts_set_dev (d : EfiNetworkDevice W) s : EfiTcpSocket W N :=
  mkTcpSocket d (ts_net s) (ts_yield_counter s) (last_listen_timestamp s) (time_update_event s) (fuchsia_fastboot_mdns s) (ts_polls s).
Definition ts_set_counter (c : YieldCounter) s : EfiTcpSocket W N :=
  mkTcpSocket (efi_net_dev s) (ts_net s) c (last_listen_timestamp s) (time_update_event s) (fuchsia_fastboot_mdns s) (ts_polls s).
Definition ts_set_listen (t : option Z) s : EfiTcpSocket W N :=
  mkTcpSocket (efi_net_dev s) (ts_net s) (ts_yield_counter s) t (time_update_event s) (fuchsia_fastboot_mdns s) (ts_polls s).
Definition on_dev {E A} (m : ST (EfiNetworkDevice W) E A) : ST (EfiTcpSocket W N) E A := zoom efi_net_dev ts_set_dev m.
Definition on_sock {E A} (m : ST W E A) : ST (EfiTcpSocket W N) E A := on_dev (on_net m).
(** [io_yield_counter.increment(n).await]: the yields change nothing here. *)
Definition ts_count_io (n : Z) s : EfiTcpSocket W N :=
  let c := ts_yield_counter s in
  let current := Z.max 0 (current c - n) in
  ts_set_counter (mkYieldCounter (threshold c) (if current =? 0 then threshold c else current)) s.
Definition ts_entry s : EfiEntry W := nd_entry (efi_net_dev s).

(** gbl/efi/src/net.rs:449-457, [EfiTcpSocket::timestamp]. *)
Definition ts_timestamp (base_in_millis : Z) s : Z :=
  let curr := clock_load (nd_firmware (efi_net_dev s)) in
  from_millis (if curr <? base_in_millis then 2 ^ 64 - 1 - (base_in_millis - curr) else curr - base_in_millis).
(** gbl/efi/src/net.rs:459-462, [EfiTcpSocket::instant]. *)
Definition ts_instant {E} s : outcome E Z := to_smoltcp_instant (wrap 64 (as_millis (ts_timestamp 0 s))).

(** gbl/efi/src/net.rs:328-334, [EfiTcpSocket::listen]. *)
Definition ts_listen (port : Z) : Sock unit :=
  modify (λ s, ts_set_net (tcp_abort (ts_net s)) s);;
  zoom ts_net ts_set_net (λ n, let '(r, n) := tcp_listen port n in (map_err listen_to_unified r, n));;
  modify (λ s, ts_set_listen (Some (wrap 64 (as_millis (ts_timestamp 0 s)))) s).
(** gbl/efi/src/net.rs:336-339, [EfiTcpSocket::is_listening_or_handshaking]. *)
Definition is_listening_or_handshaking s : bool :=
  match tcp_state (ts_net s) with Tcp.Listen | Tcp.SynReceived => true | _ => false end.
(** gbl/efi/src/net.rs:341-345, [EfiTcpSocket::time_since_last_listen]. *)
Definition time_since_last_listen s : Z :=
  match last_listen_timestamp s with Some v => ts_timestamp v s | None => Duration_MAX end.
(** gbl/efi/src/net.rs:347-350, [EfiTcpSocket::poll]. *)
Definition ts_poll : FSock unit :=
  s ← gets id;
  t ← lift (ts_instant s);
  n ← on_dev (run_prog (ts_polls s) (ts_polls s) (net_poll t (ts_net s)));
  modify (ts_set_net n).
(** gbl/efi/src/net.rs:352-356, [EfiTcpSocket::check_active]. *)
Definition check_active : FSock bool := ts_poll;; gets (λ s, tcp_is_active (ts_net s)).
(** gbl/efi/src/net.rs:365-368, [EfiTcpSocket::is_closed]. *)
Definition is_closed s : bool :=
  negb (tcp_is_open (ts_net s)) || bool_decide (tcp_state (ts_net s) = Tcp.CloseWait).
(** gbl/efi/src/net.rs:370-373, [EfiTcpSocket::set_io_yield_threshold]. *)
Definition set_io_yield_threshold (threshold : Z) s : EfiTcpSocket W N := ts_set_counter (yield_counter_new threshold) s.

(** A timer on the firmware of the socket. *)
Definition ts_timeout_new (timeout : Z) : Sock Timeout := s ← gets id; on_sock (timeout_new (ts_entry s) timeout).
Definition ts_timeout_check (t : Timeout) : Sock bool := s ← gets id; on_sock (timeout_check (ts_entry s) t).
Definition ts_timeout_reset (t : Timeout) (timeout : Z) : Sock unit := s ← gets id; on_sock (timeout_reset (ts_entry s) t timeout).
Definition ts_timeout_drop (t : Timeout) : Sock unit := s ← gets id; on_sock (drop_event (ts_entry s) (to_timer t)).
(** The timer is started again after progress. *)
Definition ts_progress (timer : Timeout) (timeout : Z) (has_progress : bool) : Sock unit :=
  if has_progress then ts_timeout_reset timer timeout else mret tt.

(** gbl/efi/src/net.rs:375-403, [EfiTcpSocket::receive_exact]: what the socket has, to the rest of the buffer from [off];
    its size. *)
Definition receive_some (off : Z) : ST (EfiTcpSocket W N * bytes) Error Z :=
  '(s, out) ← gets id;
  if tcp_can_recv (ts_net s) then
    recv_size ←
      zoom (λ t, (ts_net (fst t), slice (snd t) off (zlen (snd t) - off)))
           (λ r t, (ts_set_net (fst r) (fst t), splice (snd t) off (snd r)))
           (λ r, let '(x, r) := tcp_recv_slice r in (map_err recv_to_unified x, r));
    (if zlen out - off <? recv_size then raise (BadIndex recv_size) else mret tt);;
    modify (λ t, (ts_count_io recv_size (fst t), snd t));;
    mret recv_size
  else mret 0.
(** gbl/efi/src/net.rs:375-403, [EfiTcpSocket::receive_exact]: the bytes from [off] are missing; with at most [fuel] polls. *)
Fixpoint receive_loop (fuel : nat) (timer : Timeout) (timeout off : Z) : FST (EfiTcpSocket W N * bytes) unit :=
  out ← gets snd;
  if zlen out <=? off then mret tt else
  match fuel with
  | 0%nat => out_of_fuel
  | S fuel =>
      beside ts_poll;;
      closed ← gets (is_closed ∘ fst);
      if closed : bool then raise (Some Disconnected) else
      expired ← fueled (beside (ts_timeout_check timer));
      if expired : bool then raise (Some LibError.Timeout) else
      recv_size ← fueled (receive_some off);
      fueled (beside (ts_progress timer timeout (0 <? recv_size)));;
      receive_loop fuel timer timeout (off + recv_size)
  end.
(** gbl/efi/src/net.rs:375-403, [EfiTcpSocket::receive_exact]. *)
Definition receive_exact (fuel : nat) (timeout : Z) : FST (EfiTcpSocket W N * bytes) unit :=
  timer ← fueled (beside (ts_timeout_new timeout));
  with_drop (beside (ts_timeout_drop timer)) (receive_loop fuel timer timeout 0).

(** gbl/efi/src/net.rs:405-442, [EfiTcpSocket::send_exact]: what the socket has room for; the rest of the data, and whether
    anything was queued. *)
Definition send_some (curr : bytes) : Sock (bytes * bool) :=
  s ← gets id;
  if tcp_can_send (ts_net s) && negb (bool_decide (curr = [])) then
    sent ← zoom ts_net ts_set_net (λ n, let '(x, n) := tcp_send_slice curr n in (map_err send_to_unified x, n));
    rest ← lift (ok_or (get_range curr sent (zlen curr)) (BadIndex sent));
    modify (ts_count_io sent);;
    mret (rest, 0 <? sent)
  else mret (curr, false).
(** gbl/efi/src/net.rs:405-442, [EfiTcpSocket::send_exact]: the loop; with at most [fuel] polls. *)
Fixpoint send_loop (fuel : nat) (timer : Timeout) (timeout : Z) (curr : bytes) (last_send_queue : Z) : FSock unit :=
  match fuel with
  | 0%nat => out_of_fuel
  | S fuel =>
      ts_poll;;
      s ← gets id;
      if bool_decide (curr = []) && (tcp_send_queue (ts_net s) =? 0) then mret tt else
      if is_closed s then raise (Some Disconnected) else
      expired ← fueled (ts_timeout_check timer);
      if expired : bool then raise (Some LibError.Timeout) else
      queue ← gets (tcp_send_queue ∘ ts_net);
      '(curr, queued) ← fueled (send_some curr);
      fueled (ts_progress timer timeout (negb (queue =? last_send_queue) || queued));;
      send_loop fuel timer timeout curr queue
  end.
(** gbl/efi/src/net.rs:405-442, [EfiTcpSocket::send_exact]. *)
Definition send_exact (fuel : nat) (data : bytes) (timeout : Z) : FSock unit :=
  timer ← fueled (ts_timeout_new timeout);
  with_drop (ts_timeout_drop timer)
    (queue ← gets (tcp_send_queue ∘ ts_net); send_loop fuel timer timeout data queue).

Definition MDNS_PORT : Z := 5353.
Definition IP6_BROADCAST_ADDR : bytes := [0xFF; 0x02; 0; 0; 0; 0; 0; 0; 0; 0; 0; 0; 0; 0; 0; 0xFB].
(** gbl/efi/src/net.rs:464-486, [EfiTcpSocket::broadcast_fuchsia_fastboot_mdns]. *)
Definition broadcast_fuchsia_fastboot_mdns s : EfiTcpSocket W N :=
  let n := ts_net s in
  let n := if udp_is_open n then n else udp_bind MDNS_PORT n in
  let n := if udp_can_send n then udp_send_slice (fuchsia_fastboot_mdns s) (IP6_BROADCAST_ADDR, MDNS_PORT) n else n in
  ts_set_net n s.

(** ** The transport of fastboot *)

(** gbl/efi/src/fastboot.rs:43-43, [FASTBOOT_TCP_PORT]. *)
Definition FASTBOOT_TCP_PORT : Z := 5554.

(** gbl/efi/src/fastboot.rs:56-59, [TcpStream::read_exact for EfiFastbootTcpTransport]. *)
Definition efi_read_exact : ST (EfiTcpSocket W N * bytes) Error unit :=
  polls ← gets (ts_polls ∘ fst); completed (receive_exact polls DEFAULT_TIMEOUT).
(** gbl/efi/src/fastboot.rs:61-64, [TcpStream::write_exact for EfiFastbootTcpTransport]. *)
Definition efi_write_exact (data : bytes) : Sock unit :=
  polls ← gets ts_polls; completed (send_exact polls data DEFAULT_TIMEOUT).
(** gbl/efi/src/fastboot.rs:68-93, [GblTcpStream::accept_new for EfiFastbootTcpTransport]: [check_active] is not called in the
    first condition while the socket does not listen. *)
Definition efi_accept_new : FSock bool :=
  ts_poll;;
  listening ← gets is_listening_or_handshaking;
  stale ← (if negb listening then mret true else
           active ← check_active;
           if active : bool then mret false else
           gets (λ s, DEFAULT_TIMEOUT <? time_since_last_listen s));
  if stale : bool then
    _ ← fueled (attempt (ts_listen FASTBOOT_TCP_PORT));
    modify broadcast_fuchsia_fastboot_mdns;;
    mret false
  else
    active ← check_active;
    if active : bool then
      modify (set_io_yield_threshold (1024 * 1024));;
      remote ← gets (tcp_remote_endpoint ∘ ts_net);
      _ ← lift (unwrap remote);
      mret true
    else mret false.

#[export] Instance EfiTcpStream : TcpStream (EfiTcpSocket W N) := {|
  read_exact := efi_read_exact; write_exact := efi_write_exact |}.
#[export] Instance EfiGblTcpStream : GblTcpStream (EfiTcpSocket W N) := {| accept_new := completed efi_accept_new |}.
End Socket.

(** ** Start of the network *)

(** The containers that smoltcp gets instead of those of the crate heapless. *)
Module Heapless.
Section Containers.
Context {T V : Type} (capacity : nat).
(** gbl/smoltcp/heapless.rs:45-53, [Vec::push]: the item is given back if there is no room. *)
Definition push (item : T) : ST (list T) T unit := λ v,
  if (length v <? capacity)%nat then (Ok tt, v ++ [item]) else (Err item, v).
(** gbl/smoltcp/heapless.rs:92-97, [LinearMap::insert]: the old value; a full map refuses also a key that it has. *)
Definition insert (key : Z) (value : V) : ST (gmap Z V) (Z * V) (option V) := λ m,
  if (size m <? capacity)%nat then (Ok (m !! key), <[key := value]> m) else (Err (key, value), m).
End Containers.
End Heapless.

(** gbl/efi/src/net.rs:293-312, [ll_mac_ip6_addr_from_efi_mac]: the first six bytes of the address, and the link local
    address that belongs to it. *)
Definition ll_mac_ip6_addr_from_efi_mac (mac : bytes) : result (bytes * bytes) :=
  m ← index_range mac 0 6;
  match m with
  | [m0; m1; m2; m3; m4; m5] =>
      Ok (m, [0xfe; 0x80; 0; 0; 0; 0; 0; 0; Z.lxor m0 2; m1; m2; 0xff; 0xfe; m3; m4; m5])
  | _ => Panic
  end.

(** [{:02x}]. *)
Definition fmt_hex02 (z : Z) : bytes := replicate (2 - length (fmt_hex z)) 48 ++ fmt_hex z.
(** gbl/efi/src/net.rs:555-638, [EfiGblNetworkInternal::create_socket]: the name of the node. *)
Definition fuchsia_node_name (mac : bytes) : bytes :=
  let h i := fmt_hex02 (nth i mac 0) in
  str "fuchsia-" ++ h 0%nat ++ h 1%nat ++ str "-" ++ h 2%nat ++ h 3%nat ++ str "-" ++ h 4%nat ++ h 5%nat.

Section Start.
Context {W N : Type} `{!Smoltcp N} `{!NetClock W}.
Context `{!ProtocolInfo (EfiSimpleNetworkProtocol W)} `{!ProtocolInfo EfiDevicePathProtocol}.
Context `{!ProtocolInfo (EfiDevicePathToTextProtocol W)}.
Context (entry : EfiEntry W).

(** gbl/efi/src/net.rs:518-553, [EfiGblNetworkInternal::new]: the device; the buffers of the sockets are smoltcp's. *)
Definition network_internal_new : ST (Machine W) Error (EfiNetworkDevice W) :=
  snp ← on_firmware
    (snp_dev ← find_net_device entry;
     bs ← lift (boot_services entry);
     snp ← open_protocol entry (EfiSimpleNetworkProtocol W) bs snp_dev;
     reset_simple_network snp;;
     _ ← attempt (SimpleNetwork.set_promiscuous_mode snp);
     mret snp);
  network_device_new snp 7 entry.

(** gbl/efi/src/net.rs:555-638, [EfiGblNetworkInternal::create_socket]: the timer that counts the time. *)
Definition time_update_timer : ST W Error Event :=
  modify (clock_swap 0);;
  bs ← lift (boot_services entry);
  event ← create_event_with_notification bs TimerNotifySignal Callback;
  r ← attempt (set_timer bs event EFI_TIMER_DELAY_TIMER_PERIODIC NETWORK_TIMESTAMP_UPDATE_PERIOD);
  match r with
  | inl _ => mret event
  | inr e => drop_event entry event;; raise e
  end.
(** gbl/efi/src/net.rs:555-638, [EfiGblNetworkInternal::create_socket]: the timer is dropped if the rest fails. *)
Definition create_socket (polls : nat) : ST (EfiNetworkDevice W) Error (EfiTcpSocket W N) :=
  event ← on_net time_update_timer;
  d ← gets id;
  let rest : result (bytes * bytes * bytes) :=
    mode ← SimpleNetwork.mode (nd_protocol d);
    '(ll_mac, ll_ip6_addr) ← ll_mac_ip6_addr_from_efi_mac (current_address mode);
    mdns ← fuchsia_fastboot_mdns_packet (fuchsia_node_name ll_mac) ll_ip6_addr;
    Ok (ll_mac, ll_ip6_addr, mdns) in
  match rest with
  | Ok (ll_mac, ll_ip6_addr, mdns) =>
      let n := net_new ll_mac ll_ip6_addr 64 max_transmission_unit SOCKET_TX_RX_BUFFER ETHERNET_FRAME_SIZE in
      mret (mkTcpSocket d n (yield_counter_new (2 ^ 64 - 1)) None event mdns polls)
  | Err e => on_net (drop_event entry event);; raise e
  | Panic => lift Panic
  end.

(** gbl/efi/src/net.rs:652-667, [EfiGblNetwork::init]: an existing network is dropped first. The network stays, also if
    there is no socket. *)
Definition network_init (polls : nat) : ST (option (EfiNetworkDevice W) * Machine W) Error (EfiTcpSocket W N) :=
  old ← gets fst;
  match old with
  | Some d =>
      zoom (λ s, nd_set_machine (snd s) d) (λ d s, (None, nd_machine d)) drop_network_device
  | None => mret tt
  end;;
  d ← zoom snd (λ m s, (None, m)) network_internal_new;
  zoom (λ s, nd_set_machine (snd s) d) (λ d s, (Some d, nd_machine d)) (create_socket polls).
End Start.
