(* ===== verification/EfiNetProps.v ===== *)
(** * The network: frames stay intact and streams are exact

    On a firmware that keeps the UEFI specification of the simple network
    protocol, whatever smoltcp does with the device, a frame that the firmware
    holds is not touched, and a frame can always be sent. A socket of smoltcp
    that delivers a stream is read and written exactly. *)

From stdpp Require Import gmap.
From S2P Require Import Prelude SafeMath LibError Text Abr Block Disk BootParams Avb Async Libc.
From S2P Require Import Fastboot GblRun.
From S2P Require Import Efi EfiMem EfiAlloc EfiProtocols EfiTimer EfiFastboot EfiNet.

(** ** Weakest preconditions of the combinators *)

Section WpEfi.
Context {S : Type}.

Lemma wp_fueled {A} (m : ST S Error A) s Q (X : option Error → S → Prop) :
  wp m s Q (λ e, X (Some e)) → wp (fueled m) s Q X.
Proof. unfold wp, fueled. by destruct (m s) as [[] ?]. Qed.
Lemma wp_unwrap_st {E E' A} (m : ST S E A) s (Q : A → S → Prop) (X : E' → S → Prop) :
  wp m s Q (λ _ _, False) → wp (unwrap_st m) s Q X.
Proof. unfold wp, unwrap_st. by destruct (m s) as [[] ?]. Qed.
Lemma wp_with_drop {E A} (d : ST S Error unit) (m : ST S E A) s (Q : A → S → Prop) X :
  wp m s (λ a t, wp d t (λ _, Q a) (λ _ _, False)) (λ e t, wp d t (λ _, X e) (λ _ _, False)) → wp (with_drop d m) s Q X.
Proof. unfold wp, with_drop. destruct (m s) as [[] t]; try done; by destruct (d t) as [[] ?]. Qed.
Lemma wp_beside {Y E A} (m : ST S E A) (s : S * Y) (Q : A → S * Y → Prop) X :
  wp m (fst s) (λ a t, Q a (t, snd s)) (λ e t, X e (t, snd s)) → wp (beside m) s Q X.
Proof. intros H. apply wp_zoom, H. Qed.
Lemma wp_completed {A} (m : FST S A) s (Q : A → S → Prop) (X : Error → S → Prop) :
  wp m s Q (λ e t, match e with Some e => X e t | None => False end) → wp (completed m) s Q X.
Proof. unfold wp, completed. by destruct (m s) as [[|[]|] ?]. Qed.
End WpEfi.

(** ** What the firmware promises *)

Section Calm.
Context {W : Type} (opened : W → gset Z) (left : W → Z → nat).
(** Timers go on, and no event was created or closed. *)
Definition calm (w w' : W) : Prop := opened w' = opened w ∧ ∀ e, e ∈ opened w → (left w' e ≤ left w e)%nat.
#[export] Instance calm_preorder : PreOrder calm.
Proof.
  split; [done|]. intros w1 w2 w3 [H1 H1'] [H2 H2']. split; [congruence|]. intros e He.
  specialize (H1' e He). rewrite <-H1 in He. specialize (H2' e He). lia.
Qed.
(** The event [e] was created. *)
Definition created (e : Z) (w w' : W) : Prop :=
  e ∉ opened w ∧ opened w' = {[e]} ∪ opened w ∧ ∀ e', e' ∈ opened w → (left w' e' ≤ left w e')%nat.
(** The event [e] was closed. *)
Definition closed (e : Z) (w w' : W) : Prop :=
  opened w' = opened w ∖ {[e]} ∧ ∀ e', e' ∈ opened w' → (left w' e' ≤ left w e')%nat.

Lemma created_calm e w w1 w2 : created e w w1 → calm w1 w2 → created e w w2.
Proof.
  intros (H1 & H2 & H3) [H4 H5]. split_and!; [done|congruence|]. intros e' He'. specialize (H3 e' He').
  specialize (H5 e'). rewrite H2 in H5. set_solver by lia.
Qed.
Lemma created_closed e w w1 w2 : created e w w1 → closed e w1 w2 → calm w w2.
Proof.
  intros (H1 & H2 & H3) [H4 H5]. rewrite H2 in H4. assert (opened w2 = opened w) as Ho by set_solver. split; [done|].
  intros e' He'. specialize (H3 e' He'). specialize (H5 e'). rewrite Ho in H5. specialize (H5 He'). lia.
Qed.
End Calm.

(** [held] are the frames that the firmware holds, with the bytes that were handed over.
    [opened] are the events, and [left] is how often a timer is found not to have
    expired: at least once and at most [limit] times after it was set. Frames
    are given back by [GetStatus] and [Shutdown]; [GetStatus] may also return what is
    [foreign], a buffer of another user of the network, or null. *)
Class NetFirmware {W : Type} (entry : EfiEntry W) (i : EfiSimpleNetworkProtocol W) (held : W → gmap Z bytes)
    (foreign : Z → Prop) (opened : W → gset Z) (left : W → Z → nat) (limit : nat) := {
  nf_services : EfiBootService W;
  nf_boot_services : boot_services entry = Ok nf_services;
  nf_create : ∀ x w, wp (efi_call (app_fn (fn_create_event nf_services) x)) w
    (λ e w', held w' ⊆ held w ∧ created opened left e w w') (λ _ _, False);
  nf_set : ∀ e k t w, e ∈ opened w → wp (efi_call (app_fn (fn_set_timer nf_services) (e, k, t))) w
    (λ _ w', held w' ⊆ held w ∧ opened w' = opened w ∧ (1 ≤ left w' e ≤ limit)%nat ∧
             ∀ e', e' ∈ opened w → e' ≠ e → (left w' e' ≤ left w e')%nat) (λ _ _, False);
  nf_check : ∀ e w, e ∈ opened w → wp (efi_call (app_fn (fn_check_event nf_services) e)) w
    (λ _ w', held w' ⊆ held w ∧ calm opened left w w' ∧ left w e = 0%nat)
    (λ err w', held w' ⊆ held w ∧ calm opened left w w' ∧ err = NotReady ∧ (left w' e < left w e)%nat);
  nf_close : ∀ e w, e ∈ opened w → wp (efi_call (app_fn (fn_close_event nf_services) e)) w
    (λ _ w', held w' ⊆ held w ∧ closed opened left e w w') (λ _ _, False);
  nf_status : ∀ w, wp (efi_call (app_fn (fn_snp_get_status i) (Some 0, Some 0))) w
    (λ a w', held w' ⊆ held w ∧ calm opened left w w' ∧
             ∀ p, snd a = Some p → held w' !! p = None ∧ (p ∈ dom (held w) ∨ foreign p))
    (λ _ w', held w' ⊆ held w ∧ calm opened left w w');
  nf_transmit : ∀ f w, wp (efi_call (app_fn (fn_snp_transmit i) f)) w
    (λ _ w', held w' ⊆ <[tx_buf f := tx_data f]> (held w) ∧ calm opened left w w')
    (λ _ w', held w' ⊆ <[tx_buf f := tx_data f]> (held w) ∧ calm opened left w w');
  nf_receive : ∀ info w b, wp (efi_call (app_fn (fn_snp_receive i) info)) (w, b)
    (λ out s, held (fst s) ⊆ held w ∧ calm opened left w (fst s) ∧ length (snd s) = length b ∧
              ∀ n, rx_buf_size out = Some n → n ≤ zlen b)
    (λ _ s, held (fst s) ⊆ held w ∧ calm opened left w (fst s) ∧ length (snd s) = length b);
  nf_shutdown : ∀ w, wp (efi_call (fn_snp_shutdown i)) w
    (λ _ w', held w' = ∅ ∧ calm opened left w w') (λ e w', e = NotStarted ∧ held w' = ∅ ∧ calm opened left w w');
  nf_start : ∀ w, wp (efi_call (fn_snp_start i)) w
    (λ _ w', held w' ⊆ held w ∧ calm opened left w w') (λ e w', e = AlreadyStarted ∧ held w' ⊆ held w ∧ calm opened left w w');
  nf_initialize : ∀ x w, wp (efi_call (app_fn (fn_snp_initialize i) x)) w
    (λ _ w', held w' ⊆ held w ∧ calm opened left w w') (λ _ _, False);
  nf_reset : ∀ x w, wp (efi_call (app_fn (fn_snp_reset i) x)) w
    (λ _ w', held w' ⊆ held w ∧ calm opened left w w') (λ _ _, False);
}.

(** ** The pool of frames *)

(** The frames are the program's and lie apart from each other; those that the firmware holds were taken
    from the pool, and their bytes are the ones that were handed over. *)
Record frames_ok (foreign : Z → Prop) (frames : list Z) (curr : Z) (m : Memory) (h : gmap Z bytes) : Prop := {
  fk_some : frames ≠ [];
  fk_nonnull : 0 ∉ frames;
  fk_own : ∀ a, a ∈ frames → ¬ foreign a;
  fk_apart : ∀ j k a b, frames !! j = Some a → frames !! k = Some b → j ≠ k →
    a + ETHERNET_FRAME_SIZE ≤ b ∨ b + ETHERNET_FRAME_SIZE ≤ a;
  fk_curr : 0 ≤ curr ≤ zlen frames;
  fk_held : ∀ b data, h !! b = Some data →
    (∃ k, frames !! k = Some b ∧ Z.of_nat k < curr) ∧ zlen data ≤ ETHERNET_FRAME_SIZE ∧ mem_read m b (zlen data) = data;
}.

Section Frames.
Context {foreign : Z → Prop}.

Lemma frames_ok_sub frames curr m h h' : frames_ok foreign frames curr m h → h' ⊆ h → frames_ok foreign frames curr m h'.
Proof. intros [] Hs. split; try done. intros b data Hb. eauto using lookup_weaken. Qed.
Lemma frames_ok_curr frames curr curr' m h :
  frames_ok foreign frames curr m h → curr ≤ curr' ≤ zlen frames → frames_ok foreign frames curr' m h.
Proof.
  intros [] Hc. split; try done; [lia|]. intros b data Hb. destruct (fk_held0 b data Hb) as ((k & Hk & ?) & ? & ?).
  split; [|done]. exists k. split; [done|lia].
Qed.
Lemma frames_ok_empty frames curr curr' m h : frames_ok foreign frames curr m h → 0 ≤ curr' ≤ zlen frames → frames_ok foreign frames curr' m ∅.
Proof. intros [] Hc. split; try done. Qed.

Lemma frames_ok_send frames curr m h h' k b data :
  frames_ok foreign frames curr m h → frames !! k = Some b → Z.of_nat k < curr → zlen data ≤ ETHERNET_FRAME_SIZE →
  h !! b = None → h' ⊆ <[b := data]> h → frames_ok foreign frames curr (mem_write m b data) h'.
Proof.
  intros Hok Hk Hkc Hd Hb Hs. apply frames_ok_sub with (2 := Hs). pose proof Hok as []. split; try done.
  intros b' data' Hb'. destruct (decide (b' = b)) as [->|Hne].
  - rewrite lookup_insert_eq in Hb'. injection Hb' as <-. split; [eauto|]. split; [done|]. apply mem_read_write.
  - rewrite lookup_insert_ne in Hb' by done. destruct (fk_held0 _ _ Hb') as ((j & Hj & ?) & Hd' & Hr).
    split; [eauto|]. split; [done|]. rewrite <-Hr at 2. apply mem_read_ext. intros x Hx. apply mem_write_out.
    destruct (fk_apart0 j k b' b Hj Hk); [intros ->; congruence| |]; lia.
Qed.
End Frames.

(** ** The device *)

Section Device.
Context {W : Type} {entry : EfiEntry W} {i : EfiSimpleNetworkProtocol W} {held : W → gmap Z bytes}.
Context {foreign : Z → Prop} {opened : W → gset Z} {left : W → Z → nat} {limit : nat}.
Context `{!NetFirmware entry i held foreign opened left limit}.
Implicit Types d : EfiNetworkDevice W.
#[local] Notation calm := (calm opened left).
#[local] Notation frames_ok := (frames_ok foreign).
#[local] Notation "w ≼ w'" := (held w' ⊆ held w ∧ calm w w') (at level 70).

(** The device works on that firmware, and its frames are intact. *)
Record net_ok d : Prop := {
  nk_entry : nd_entry d = entry;
  nk_interface : pr_interface (nd_protocol d) = Some i;
  nk_rx : zlen (rx_frame d) = ETHERNET_FRAME_SIZE;
  nk_frames : frames_ok (tx_frames d) (tx_frame_curr d) (nd_memory d) (held (nd_firmware d));
}.

Lemma quiet_trans w1 w2 w3 : w1 ≼ w2 → w2 ≼ w3 → w1 ≼ w3.
Proof. intros [] []. split; by etrans. Qed.

Lemma wp_call {A S} (p : Protocol (EfiSimpleNetworkProtocol W)) (f : EfiSimpleNetworkProtocol W → efi_fn S A) s Q X :
  pr_interface p = Some i → wp (efi_call (f i)) s Q X → wp (call_interface p f) s Q X.
Proof. intros Hp H. unfold call_interface, interface. apply wp_bind, wp_lift. by rewrite Hp. Qed.
Lemma wp_boot {A} (f : EfiBootService W → ST W Error A) s Q X :
  wp (f nf_services) s Q X → wp (bs ← lift (boot_services entry); f bs) s Q X.
Proof. intros H. apply wp_bind, wp_lift. by rewrite nf_boot_services. Qed.

Definition timer_event (t : Timeout) : Z := efi_event (to_timer t).
Definition timer_owned (t : Timeout) : Prop := ev_owned (to_timer t) = true.

Lemma wp_timer_drop t w (Q : unit → W → Prop) X :
  timer_owned t → timer_event t ∈ opened w → (∀ w', held w' ⊆ held w → closed opened left (timer_event t) w w' → Q tt w') →
  wp (drop_event entry (to_timer t)) w Q X.
Proof.
  intros Ho He H. unfold drop_event. rewrite Ho. apply wp_boot, wp_unwrap_st. eapply wp_mono; [by apply nf_close| |done].
  intros [] w' []. auto.
Qed.
Lemma wp_timer_set t k time w (Q : unit → W → Prop) X :
  timer_event t ∈ opened w → 0 ≤ time < 2 ^ 64 →
  (∀ w', held w' ⊆ held w → opened w' = opened w → (1 ≤ left w' (timer_event t) ≤ limit)%nat →
     (∀ e, e ∈ opened w → e ≠ timer_event t → (left w' e ≤ left w e)%nat) → Q tt w') →
  wp (set_timer nf_services (to_timer t) k time) w Q X.
Proof.
  intros He Ht H. unfold set_timer. apply wp_bind. eapply wp_lift_ok.
  { unfold try_u64. rewrite checked_Some; [done|]. split; [apply Z.div_pos; lia|]. apply Z.div_lt_upper_bound; lia. }
  eapply wp_mono; [by apply nf_set| |done]. intros [] w' (? & ? & ? & ?). auto.
Qed.
Lemma wp_timeout_new time w (Q : Timeout → W → Prop) X :
  0 ≤ time < 2 ^ 64 →
  (∀ t w', timer_owned t → held w' ⊆ held w → created opened left (timer_event t) w w' →
     (1 ≤ left w' (timer_event t) ≤ limit)%nat → Q t w') → wp (timeout_new entry time) w Q X.
Proof.
  intros Ht H. unfold timeout_new, start_timer. apply wp_bind, wp_boot, wp_bind. unfold create_event. apply wp_bind.
  eapply wp_mono; [apply nf_create| |done]. intros e w1 (H1 & H2 & H3 & H4). apply wp_ret, wp_bind, wp_attempt.
  apply (wp_timer_set (mkTimeout (mkEvent true e))); [cbn; set_solver|done|]. intros w2 H5 H6 H7 H8. cbn in H8. apply wp_ret, wp_ret, H; [done|by etrans| |done].
  split_and!; [done|cbn; congruence|]. intros e' He'. specialize (H4 e' He'). specialize (H8 e'). rewrite H3 in H8. set_solver by lia.
Qed.
Lemma wp_timeout_check t w (Q : bool → W → Prop) X :
  timer_event t ∈ opened w →
  (∀ w', w ≼ w' → left w (timer_event t) = 0%nat → Q true w') →
  (∀ w', w ≼ w' → (left w' (timer_event t) < left w (timer_event t))%nat → Q false w') →
  wp (timeout_check entry t) w Q X.
Proof.
  intros He Ht Hf. unfold timeout_check. apply wp_boot. unfold check_event, wp.
  pose proof (nf_check _ w He) as Hc. unfold wp, timer_event in Hc. destruct (efi_call _ w) as [[[]|e|] w'].
  - destruct Hc as (H1 & H2 & H3). by apply Ht.
  - destruct Hc as (H1 & H2 & -> & H3). by apply Hf.
  - done.
Qed.

(** An error that is as good as success. *)
Lemma wp_tolerate {A} (m : ST W Error unit) (k : ST W Error A) e0 w Q X :
  wp m w (λ _ w', wp k w' Q X) (λ e w', e = e0 ∧ wp k w' Q X) →
  wp (r ← attempt m; match r with inr e => if bool_decide (e = e0) then mret tt else raise e | inl _ => mret tt end;; k) w Q X.
Proof.
  intros H. apply wp_bind, wp_attempt. eapply wp_mono; [exact H| |].
  - intros a w' H'. by apply wp_bind, wp_ret.
  - intros e w' [-> H']. rewrite bool_decide_eq_true_2 by done. by apply wp_bind, wp_ret.
Qed.
Lemma wp_reset p w (Q : unit → W → Prop) X :
  pr_interface p = Some i → (∀ w', held w' = ∅ → calm w w' → Q tt w') → wp (reset_simple_network p) w Q X.
Proof.
  intros Hp H. unfold reset_simple_network.
  assert (Hrest : ∀ w1, held w1 = ∅ → calm w w1 →
    wp (r ← attempt (SimpleNetwork.start p);
        match r with inr e => if bool_decide (e = AlreadyStarted) then mret tt else raise e | inl _ => mret tt end;;
        SimpleNetwork.snp_initialize p 0 0;; SimpleNetwork.reset p true) w1 Q X).
  2: { apply wp_tolerate, wp_call; [done|]. eapply wp_mono; [apply nf_shutdown|intros ? w1 []; auto|]. intros e w1 (-> & ? & ?). auto. }
  intros w1 H1 Hc1. apply wp_tolerate, wp_call; [done|].
  assert (Hrest : ∀ w2, w1 ≼ w2 → wp (SimpleNetwork.snp_initialize p 0 0;; SimpleNetwork.reset p true) w2 Q X).
  2: { eapply wp_mono; [apply nf_start|intros ? w2; auto|]. intros e w2 (-> & ? & ?). auto. }
  intros w2 H2. apply wp_bind, wp_call; [done|]. eapply wp_mono; [apply nf_initialize| |done]. intros ? w3 H3.
  apply wp_call; [done|]. eapply wp_mono; [apply nf_reset| |done]. intros [] w4 H4.
  destruct (quiet_trans _ _ _ (quiet_trans _ _ _ H2 H3) H4) as [Hs Hc]. rewrite H1 in Hs.
  apply H; [apply (anti_symm (⊆)); [done|apply map_empty_subseteq]|by etrans].
Qed.

(** ** Sending a frame *)

Lemma wp_try_get_buffer p frames curr m w Q X :
  pr_interface p = Some i → frames_ok frames curr m (held w) →
  (∀ w' curr' k b, frames_ok frames curr' m (held w') → frames !! k = Some b → Z.of_nat k < curr' →
     held w' !! b = None → calm w w' → Q (Some b) (w', curr')) →
  (∀ w', frames_ok frames curr m (held w') → curr = zlen frames → calm w w' → Q None (w', curr)) →
  wp (try_get_buffer p frames) (w, curr) Q X.
Proof.
  intros Hp Hok Hsome Hnone. unfold try_get_buffer.
  assert (Hnext : ∀ w', w ≼ w' → wp (next_frame frames) (w', curr) Q X).
  { intros w' [Hs Ht]. apply frames_ok_sub with (2 := Hs) in Hok as Hok'. pose proof (fk_curr _ _ _ _ _ Hok) as Hc.
    unfold next_frame. apply wp_bind, wp_gets. cbn [snd]. destruct (curr <? zlen frames) eqn:E; bools; [|apply wp_ret, Hnone; [done|lia|done]].
    apply wp_bind, wp_modify, wp_bind. cbn [fst].
    destruct (lookup_lt_is_Some_2 frames (Z.to_nat curr)) as [b Hb]; [lia|]. rewrite Hb. apply wp_lift, wp_ret.
    eapply Hsome; [apply frames_ok_curr with (1 := Hok'); lia|done|lia| |done].
    destruct (held w' !! b) as [data|] eqn:E'; [|done]. destruct (fk_held _ _ _ _ _ Hok' _ _ E') as ((k & Hk & ?) & _).
    destruct (fk_apart _ _ _ _ _ Hok' _ _ _ _ Hk Hb) as [?|?]; [lia| |]; unfold ETHERNET_FRAME_SIZE in *; lia. }
  apply wp_bind, wp_attempt, wp_beside. cbn [fst]. apply wp_call; [done|]. eapply wp_mono; [apply nf_status| |].
  - intros [st [b|]] w' (Hs & Ht & Hb); [|auto]. case_bool_decide as Hin; [|auto].
    apply frames_ok_sub with (2 := Hs) in Hok as Hok'.
    destruct (Hb b eq_refl) as [Hn [Hd|Hf]]; [|by destruct (fk_own _ _ _ _ _ Hok b)].
    apply elem_of_dom in Hd as [data Hd]. destruct (fk_held _ _ _ _ _ Hok _ _ Hd) as ((k & Hk & ?) & _). by eapply Hsome.
  - intros e w' Hs. auto.
Qed.

(** The search for a frame: it fails only if the pool is empty, or if the timer had
    expired before. *)
Lemma wp_frame_loop p frames m t polls w curr (Q : option Z → W * Z → Prop) X :
  pr_interface p = Some i → frames_ok frames curr m (held w) → timer_event t ∈ opened w → (left w (timer_event t) < polls)%nat →
  (∀ w' curr' k b, frames_ok frames curr' m (held w') → frames !! k = Some b → Z.of_nat k < curr' →
     held w' !! b = None → calm w w' → Q (Some b) (w', curr')) →
  (∀ w', frames_ok frames curr m (held w') → left w (timer_event t) = 0%nat ∨ curr = zlen frames → calm w w' → Q None (w', curr)) →
  wp (timeout_loop entry polls t (5 * 10 ^ 9)
        (b ← try_get_buffer p frames; mret (match b with Some b => inl b | None => inr false end))) (w, curr) Q X.
Proof.
  intros Hp. revert w. induction polls as [|polls IH]; intros w Hok Ho Hpolls Hsome Hnone; [lia|].
  cbn [timeout_loop]. apply wp_bind, wp_fueled, wp_beside. cbn [fst snd]. apply wp_timeout_check; [done| |].
  { intros w1 [Hs Hc] Hz. apply wp_ret, Hnone; [by eapply frames_ok_sub|by left|done]. }
  intros w1 [Hs Hc] Hlt. apply frames_ok_sub with (2 := Hs) in Hok as Hok1.
  apply wp_bind, wp_fueled, wp_bind. eapply wp_try_get_buffer; [done|exact Hok1| |].
  - intros w2 curr' k b Hok2 Hk Hkc Hb Hc2. apply wp_ret, wp_ret. eapply Hsome; try done. by etrans.
  - intros w2 Hok2 Hfull Hc2. apply wp_ret. assert (Hc' : calm w w2) by (by etrans). destruct Hc2 as [Ho2 Hl2]. destruct Hc as [Ho1 _].
    apply IH; [done|congruence|rewrite <-Ho1 in Ho; specialize (Hl2 _ Ho); lia| |].
    + intros w3 curr' k b H3 Hk Hkc Hb Hc3. eapply Hsome; try done. by etrans.
    + intros w3 H3 _ Hc3. apply Hnone; [done|by right|by etrans].
Qed.
Lemma wp_find_frame p frames m polls w curr (Q : option Z → W * Z → Prop) X :
  pr_interface p = Some i → frames_ok frames curr m (held w) → (limit < polls)%nat →
  (∀ w' curr' k b, frames_ok frames curr' m (held w') → frames !! k = Some b → Z.of_nat k < curr' →
     held w' !! b = None → calm w w' → Q (Some b) (w', curr')) →
  (∀ w', frames_ok frames curr m (held w') → curr = zlen frames → calm w w' → Q None (w', curr)) →
  wp (loop_with_timeout entry polls (5 * 10 ^ 9)
        (b ← try_get_buffer p frames; mret (match b with Some b => inl b | None => inr false end))) (w, curr) Q X.
Proof.
  intros Hp Hok Hpolls Hsome Hnone. unfold loop_with_timeout. apply wp_bind, wp_fueled, wp_beside. cbn [fst snd].
  apply wp_timeout_new; [lia|]. intros t w1 Hown Hs Hcr Ht. apply wp_with_drop. apply frames_ok_sub with (2 := Hs) in Hok as Hok1.
  assert (Ho : timer_event t ∈ opened w1) by (destruct Hcr as (_ & -> & _); set_solver).
  assert (Hend : ∀ w2 (R : unit → W * Z → Prop) c, calm w1 w2 →
    (∀ w3, held w3 ⊆ held w2 → calm w w3 → R tt (w3, c)) →
    wp (beside (drop_event entry (to_timer t))) (w2, c) R (λ _ _, False)).
  { intros w2 R c Hc HR. apply wp_beside, wp_timer_drop; [done|cbn [fst]; by destruct Hc as [-> _]|]. cbn [fst snd]. intros w3 Hs3 Hcl.
    apply HR; [done|]. eapply created_closed; [|exact Hcl]. by eapply created_calm. }
  eapply wp_frame_loop; [done|exact Hok1|done|lia| |].
  - intros w2 curr' k b Hok2 Hk Hkc Hb Hc. apply Hend; [done|]. intros w3 Hs3 Hc3.
    eapply Hsome; [by eapply frames_ok_sub|done|done|by eapply lookup_weaken_None|done].
  - intros w2 Hok2 [Hz|Hfull] Hc; [lia|]. apply Hend; [done|]. intros w3 Hs3 Hc3.
    apply Hnone; [by eapply frames_ok_sub|done|done].
Qed.

Lemma zlen_overwrite old new : zlen (overwrite old new) = zlen old.
Proof. unfold overwrite. by lens. Qed.

(** A frame that the firmware does not hold. *)
Definition free_frame d (b : Z) : Prop :=
  (∃ k, tx_frames d !! k = Some b ∧ Z.of_nat k < tx_frame_curr d) ∧ held (nd_firmware d) !! b = None.
(** What the operations keep. *)
Definition net_step d d' : Prop := net_ok d' ∧ tx_frames d' = tx_frames d ∧ calm (nd_firmware d) (nd_firmware d').
Lemma net_step_trans d1 d2 d3 : net_step d1 d2 → net_step d2 d3 → net_step d1 d3.
Proof. intros (_ & H1 & H1') (H2 & H3 & H3'). split_and!; [done|congruence|by etrans]. Qed.

Lemma wp_send_frame {R} d b len (f : bytes → R * bytes) Q X :
  net_ok d → free_frame d b → 0 ≤ len ≤ ETHERNET_FRAME_SIZE →
  (∀ d' buf, net_step d d' → zlen buf = len → Q (fst (f buf)) d') →
  wp (send_frame b len f) d Q X.
Proof.
  intros Hok [(k & Hk & Hkc) Hb] Hlen HQ. pose proof Hok as [He Hi Hrx Hf]. unfold send_frame. apply wp_bind, wp_gets.
  assert (b ≠ 0). { intros ->. apply (fk_nonnull _ _ _ _ _ Hf). by eapply list_elem_of_lookup_2. }
  rewrite (proj2 (Z.eqb_neq _ _)), (proj2 (Z.ltb_ge _ _)) by (done || lia). cbn [orb id].
  set (buf := mem_read _ _ _). assert (Hbuf : zlen buf = len) by (unfold buf, mem_read; rewrite length_fmap, length_seqZ; lia).
  destruct (f buf) as [r filled] eqn:Ef. pose proof (zlen_overwrite buf filled) as Hd. set (data := overwrite _ _) in *. apply wp_bind, wp_modify, wp_bind, wp_attempt, wp_zoom.
  unfold SimpleNetwork.transmit. apply wp_bind, wp_lift. cbn [assert_that tx_buf]. rewrite (proj2 (Z.eqb_neq _ _)) by done.
  cbn [negb assert_that].
  assert (Hend : ∀ w', held w' ⊆ <[b := data]> (held (nd_firmware d)) → calm (nd_firmware d) w' →
    wp (mret r) (nd_set_firmware w' (nd_set_memory (mem_write (nd_memory d) b data) d)) Q X).
  { intros w' Hs Hc. apply wp_ret. replace r with (fst (f buf)) by (by rewrite Ef). apply HQ; [|done]. split_and!; [|done|done]. split; try done.
    cbn. eapply frames_ok_send; try done. lia. }
  apply wp_call; [done|]. eapply wp_mono; [apply nf_transmit| |]; intros a w' [Hs Hc]; by apply Hend.
Qed.

(** An attempt sends the frame, or finds no frame in the pool and resets the network. *)
Lemma wp_tx_attempt {R} polls fuel len (f : bytes → R * bytes) d Q X :
  net_ok d → (limit < polls)%nat → 0 ≤ len ≤ ETHERNET_FRAME_SIZE →
  (∀ d' buf, net_step d d' → zlen buf = len → Q (fst (f buf)) d') →
  (tx_frame_curr d = zlen (tx_frames d) →
     ∀ d', net_step d d' → tx_frame_curr d' = 0 → wp (tx_consume polls fuel len f) d' Q X) →
  wp (tx_consume polls (S fuel) len f) d Q X.
Proof.
  intros Hok Hpolls Hlen HQ Hagain. pose proof Hok as [He Hi Hrx Hf]. cbn [tx_consume]. apply wp_bind, wp_gets, wp_bind, wp_attempt, wp_zoom.
  cbn [id]. rewrite He. eapply wp_find_frame; [done|exact Hf|done| |].
  - intros w' curr' k b Hok' Hk Hkc Hb Hc. cbn [fst snd]. apply wp_fueled. apply wp_send_frame; [by split|split; [by exists k|done]|done|].
    intros d' buf (Hd' & Ht & Hc') Hlen'. apply HQ; [|done]. split_and!; [done|done|by etrans].
  - intros w' Hok' Hfull Hc. cbn [fst snd]. apply wp_bind, wp_fueled, wp_unwrap_st, wp_zoom, wp_reset; [done|]. intros w2 Hw2 Hc2.
    apply wp_bind, wp_modify, Hagain; try done. split_and!; [|done|by etrans]. split; try done. cbn. rewrite Hw2. eapply frames_ok_empty; [exact Hok'|].
    cbn. lia.
Qed.
Lemma wp_tx_consume {R} polls fuel len (f : bytes → R * bytes) d Q X :
  net_ok d → (limit < polls)%nat → (2 ≤ fuel)%nat → 0 ≤ len ≤ ETHERNET_FRAME_SIZE →
  (∀ d' buf, net_step d d' → zlen buf = len → Q (fst (f buf)) d') →
  wp (tx_consume polls fuel len f) d Q X.
Proof.
  intros Hok Hpolls Hfuel Hlen HQ. destruct fuel as [|[|fuel]]; [lia|lia|]. apply wp_tx_attempt; try done.
  intros _ d' Hs Hc. pose proof Hs as (Hok' & _). apply wp_tx_attempt; try done.
  - intros d2 buf H2 Hlen2. apply HQ; [by eapply net_step_trans|done].
  - intros Hfull. destruct (fk_some _ _ _ _ _ (nk_frames _ Hok')). apply length_zero_iff_nil. rewrite Hc in Hfull. lia.
Qed.

Lemma wp_dev_receive d Q X : net_ok d → (∀ r d', net_step d d' → Q r d') → wp dev_receive d Q X.
Proof.
  intros Hok HQ. pose proof Hok as [He Hi Hrx Hf]. unfold dev_receive, wp.
  pose proof (wp_call (nd_protocol d) (λ i, app_fn (fn_snp_receive i) (mkRxInfo None (Some (zlen (rx_frame d))) None None None))
    (nd_firmware d, rx_frame d) _ _ Hi (nf_receive _ _ _)) as Hr. unfold wp in Hr. cbn [fst snd] in Hr. unfold SimpleNetwork.receive.
  assert (Hok' : ∀ w b, held w ⊆ held (nd_firmware d) → calm (nd_firmware d) w → length b = length (rx_frame d) →
    net_step d (nd_set_rx b (nd_set_firmware w d))).
  { intros w b Hs Hc Hb. split_and!; [|done|done]. split; cbn; try done; [by rewrite Hb|]. by eapply frames_ok_sub. }
  destruct (call_interface _ _ _) as [[out|e|] [w b]]; cbn [fst snd] in *; [|by apply HQ, Hok'; apply Hr|done].
  destruct Hr as (Hs & Hc & Hb & Hn). case_if; bools; [|by apply HQ, Hok'].
  set (n := default _ _) in *. assert (Hnb : n ≤ zlen b).
  { unfold n. destruct (rx_buf_size out) as [n0|] eqn:En; cbn; [|lia]. specialize (Hn n0 eq_refl). lia. }
  unfold index_range, get_range. rewrite (proj2 (Z.leb_le 0 n)), (proj2 (Z.leb_le n (zlen b))) by lia. cbn. by apply HQ, Hok'.
Qed.

(** ** Programs of smoltcp *)

(** All frames of the program fit, and all its results satisfy [Q]. *)
Fixpoint prog_post {N} (g : NetProg N) (Q : N → Prop) : Prop :=
  match g with
  | NDone n => Q n
  | NReceive k => ∀ r, prog_post (k r) Q
  | NSend R len f k => 0 ≤ len ≤ ETHERNET_FRAME_SIZE ∧ ∀ buf, zlen buf = len → prog_post (k (fst (f buf))) Q
  end.

Lemma wp_run_prog {N} polls fuel (g : NetProg N) (P : N → Prop) d Q X :
  net_ok d → (limit < polls)%nat → (2 ≤ fuel)%nat → prog_post g P →
  (∀ n d', P n → net_step d d' → Q n d') → wp (run_prog polls fuel g) d Q X.
Proof.
  intros Hok Hpolls Hfuel Hg HQ. revert d Hok HQ. induction g as [n|k IH|R len f k IH]; intros d Hok HQ; cbn [run_prog prog_post] in *.
  - apply wp_ret. by apply HQ.
  - apply wp_bind, wp_fueled, wp_dev_receive; [done|]. intros r d' Hs. apply IH; [done|apply Hs|].
    intros n d2 Hn H2. apply HQ; [done|by eapply net_step_trans].
  - destruct Hg as [Hlen Hg]. apply wp_bind, wp_tx_consume; try done. intros d' buf Hs Hbuf. apply IH; [by apply Hg|apply Hs|].
    intros n d2 Hn H2. apply HQ; [done|by eapply net_step_trans].
Qed.


(** ** The socket *)

(** What smoltcp promises of the TCP socket: [stream] are the bytes that arrived, of
    which the first [rpos] were read, and [queued] are the bytes that were given
    to the socket, of which the last [tcp_send_queue] were not yet acknowledged. A poll
    brings further bytes and takes none away. *)
Class TcpContract (N : Type) `{!Smoltcp N} (stream : N → bytes) (rpos : N → Z) (queued : N → bytes) : Prop := {
  tc_pos : ∀ n, 0 ≤ rpos n ≤ zlen (stream n);
  tc_queue : ∀ n, 0 ≤ tcp_send_queue n;
  tc_poll : ∀ t n, prog_post (net_poll t n) (λ n', stream n `prefix_of` stream n' ∧ rpos n' = rpos n ∧ queued n' = queued n ∧
                                      tcp_send_queue n' ≤ tcp_send_queue n);
  tc_recv : ∀ n b, tcp_can_recv n = true → b ≠ [] →
    ∃ k n', tcp_recv_slice (n, b) = (Ok k, (n', splice b 0 (slice (stream n) (rpos n) k))) ∧ 0 < k ≤ zlen b ∧
      rpos n + k ≤ zlen (stream n) ∧ stream n' = stream n ∧ rpos n' = rpos n + k ∧ queued n' = queued n;
  tc_send : ∀ n data, tcp_can_send n = true → data ≠ [] →
    ∃ k n', tcp_send_slice data n = (Ok k, n') ∧ 0 < k ≤ zlen data ∧ queued n' = queued n ++ slice data 0 k ∧
      stream n' = stream n ∧ rpos n' = rpos n ∧ tcp_send_queue n' = tcp_send_queue n + k;
}.

Context {N : Type} `{!Smoltcp N} `{!NetClock W} {stream : N → bytes} {rpos : N → Z} {queued : N → bytes}.
Context `{!TcpContract N stream rpos queued} (clock_small : ∀ w, 0 ≤ clock_load w < 2 ^ 63).
Implicit Types s : EfiTcpSocket W N.

Definition ts_firmware s : W := nd_firmware (efi_net_dev s).
Record sock_ok s : Prop := {
  sk_dev : net_ok (efi_net_dev s);
  sk_limit : (limit < ts_polls s)%nat;
  sk_polls : (2 ≤ ts_polls s)%nat;
}.
(** The socket is the same, and works on. *)
Definition sock_step s s' : Prop := sock_ok s' ∧ ts_net s' = ts_net s ∧ calm (ts_firmware s) (ts_firmware s').

Lemma wp_ts_poll s (P : N → Prop) Q X :
  sock_ok s → (∀ t, prog_post (net_poll t (ts_net s)) P) →
  (∀ s', P (ts_net s') → sock_ok s' → calm (ts_firmware s) (ts_firmware s') → Q tt s') → wp ts_poll s Q X.
Proof.
  intros [Hd Hl Hp] HP HQ. unfold ts_poll. apply wp_bind, wp_gets, wp_bind. cbn [id]. eapply wp_lift_ok.
  { unfold ts_instant, ts_timestamp, to_smoltcp_instant, as_millis, from_millis. pose proof (clock_small (nd_firmware (efi_net_dev s))) as Hc.
    rewrite (proj2 (Z.ltb_ge _ 0)), Z.div_mul, Z.sub_0_r by lia. unfold wrap. rewrite Z.mod_small by lia.
    by rewrite (proj2 (Z.ltb_lt _ _)) by lia. }
  apply wp_bind, wp_zoom. eapply wp_run_prog; [done|done|done|apply HP|]. intros n d' Hn (Hok & _ & Hc).
  apply wp_modify, HQ; [done|by split|done].
Qed.

Lemma sock_ok_firmware s w' :
  sock_ok s → held w' ⊆ held (ts_firmware s) → sock_ok (ts_set_dev (nd_set_firmware w' (efi_net_dev s)) s).
Proof. intros [[] Hl Hp] Hs. split; [|done|done]. split; cbn; try done. by eapply frames_ok_sub. Qed.
Lemma sock_step_firmware s w' :
  sock_ok s → ts_firmware s ≼ w' → sock_step s (ts_set_dev (nd_set_firmware w' (efi_net_dev s)) s).
Proof. intros Hok [Hs Hc]. split_and!; [by apply sock_ok_firmware|done|done]. Qed.

Lemma wp_ts_check t s Q X :
  sock_ok s → timer_event t ∈ opened (ts_firmware s) →
  (∀ s', sock_step s s' → left (ts_firmware s) (timer_event t) = 0%nat → Q true s') →
  (∀ s', sock_step s s' → (left (ts_firmware s') (timer_event t) < left (ts_firmware s) (timer_event t))%nat → Q false s') →
  wp (ts_timeout_check t) s Q X.
Proof.
  intros Hok He Ht Hf. unfold ts_timeout_check, ts_entry. apply wp_bind, wp_gets, wp_zoom, wp_zoom. cbn [id].
  rewrite (nk_entry _ (sk_dev _ Hok)). apply wp_timeout_check; [done| |].
  - intros w' Hw Hz. apply Ht; [by apply sock_step_firmware|done].
  - intros w' Hw Hlt. apply Hf; [by apply sock_step_firmware|done].
Qed.
Lemma wp_ts_progress t timeout (b : bool) s Q X :
  sock_ok s → timer_event t ∈ opened (ts_firmware s) → 0 ≤ timeout < 2 ^ 64 →
  (∀ s', sock_ok s' → ts_net s' = ts_net s → opened (ts_firmware s') = opened (ts_firmware s) →
     (if b then left (ts_firmware s') (timer_event t) ≤ limit else s' = s)%nat → Q tt s') →
  wp (ts_progress t timeout b) s Q X.
Proof.
  intros Hok He Ht HQ. unfold ts_progress. destruct b; [|by apply wp_ret, HQ].
  unfold ts_timeout_reset, ts_entry, timeout_reset. apply wp_bind, wp_gets, wp_zoom, wp_zoom. cbn [id].
  rewrite (nk_entry _ (sk_dev _ Hok)). apply wp_boot, wp_timer_set; [done|done|]. intros w' Hs Ho Hl Hl'.
  apply HQ; [by apply sock_ok_firmware|done|done|apply Hl].
Qed.
Lemma wp_ts_new timeout s Q X :
  sock_ok s → 0 ≤ timeout < 2 ^ 64 →
  (∀ t s', sock_ok s' → ts_net s' = ts_net s → timer_owned t → timer_event t ∈ opened (ts_firmware s') →
     (left (ts_firmware s') (timer_event t) ≤ limit)%nat → Q t s') →
  wp (ts_timeout_new timeout) s Q X.
Proof.
  intros Hok Ht HQ. unfold ts_timeout_new, ts_entry. apply wp_bind, wp_gets, wp_zoom, wp_zoom. cbn [id].
  rewrite (nk_entry _ (sk_dev _ Hok)). apply wp_timeout_new; [done|]. intros t w' Hown Hs (_ & Ho & _) Hl.
  apply HQ; [by apply sock_ok_firmware|done|done|cbn; rewrite Ho; set_solver|apply Hl].
Qed.
Lemma wp_ts_drop t s Q X :
  sock_ok s → timer_owned t → timer_event t ∈ opened (ts_firmware s) →
  (∀ s', sock_ok s' → ts_net s' = ts_net s → Q tt s') → wp (ts_timeout_drop t) s Q X.
Proof.
  intros Hok Ho He HQ. unfold ts_timeout_drop, ts_entry. apply wp_bind, wp_gets, wp_zoom, wp_zoom. cbn [id].
  rewrite (nk_entry _ (sk_dev _ Hok)). apply wp_timer_drop; [done|done|]. intros w' Hs _. apply HQ; [by apply sock_ok_firmware|done].
Qed.

(** ** Receiving *)

(** The first [off] bytes of the buffer are those of the stream from the first one that was not
    read when the call began. *)
Record received (n0 : N) (out0 : bytes) (off : Z) s (out : bytes) : Prop := {
  rc_ok : sock_ok s;
  rc_stream : stream n0 `prefix_of` stream (ts_net s);
  rc_pos : rpos (ts_net s) = rpos n0 + off;
  rc_queued : queued (ts_net s) = queued n0;
  rc_off : 0 ≤ off ≤ zlen out0;
  rc_out : out = splice out0 0 (slice (stream (ts_net s)) (rpos n0) off);
}.

Lemma slice_prefix (l k : bytes) off n : l `prefix_of` k → 0 ≤ off → off + n ≤ zlen l → slice k off n = slice l off n.
Proof. intros [x ->] H1 H2. list_ext. Qed.

Lemma splice_rest (l c : bytes) off :
  0 ≤ off → off + zlen c ≤ zlen l → splice l off (splice (slice l off (zlen l - off)) 0 c) = splice l off c.
Proof. intros H1 H2. list_ext. Qed.

Lemma received_poll n0 out0 off s s' out :
  received n0 out0 off s out → sock_ok s' →
  stream (ts_net s) `prefix_of` stream (ts_net s') → rpos (ts_net s') = rpos (ts_net s) → queued (ts_net s') = queued (ts_net s) →
  received n0 out0 off s' out.
Proof.
  intros [H1 H2 H3 H4 H5 H6] Hok Hp Hr Hq. pose proof (tc_pos n0). pose proof (tc_pos (ts_net s)).
  split; [done|by etrans|lia|congruence|done|]. rewrite H6. f_equal. symmetry. apply slice_prefix; [done|lia|lia].
Qed.
Lemma received_zlen n0 out0 off s out : received n0 out0 off s out → zlen out = zlen out0.
Proof.
  intros [H1 H2 H3 H4 H5 ->]. pose proof (tc_pos n0). pose proof (tc_pos (ts_net s)).
  rewrite length_splice; [done|lia|]. rewrite zlen_slice by lia. lia.
Qed.

(** A step of the loop reads what is there, if anything is. *)
Lemma wp_receive_some n0 out0 off s out Q X :
  received n0 out0 off s out → off < zlen out0 →
  (∀ k s' out', received n0 out0 (off + k) s' out' → 0 ≤ k → ts_firmware s' = ts_firmware s → Q k (s', out')) →
  wp (receive_some off) (s, out) Q X.
Proof.
  intros Hr Hoff HQ. pose proof (received_zlen _ _ _ _ _ Hr) as Hl. pose proof Hr as [H1 H2 H3 H4 H5 H6].
  pose proof (tc_pos n0) as Hp0. unfold receive_some. apply wp_bind, wp_gets. cbn [id].
  destruct (tcp_can_recv (ts_net s)) eqn:Ec; [|apply wp_ret, HQ; [by rewrite Z.add_0_r|lia|done]].
  assert (Hb : zlen (slice out off (zlen out - off)) = zlen out - off) by (apply zlen_slice; lia).
  destruct (tc_recv (ts_net s) (slice out off (zlen out - off)) Ec) as (k & n' & E & Hk & Hkl & Hs & Hp & Hq).
  { intros E. rewrite E in Hb. cbn in Hb. lia. }
  apply wp_bind, wp_zoom. unfold wp. cbn [fst snd]. rewrite E. cbn [map_err]. rewrite (proj2 (Z.ltb_ge _ _)) by lia.
  rewrite bind_run, mret_run, bind_run, modify_run, mret_run. cbn [fst snd]. apply HQ; [|lia|done].
  split; cbn; [by destruct H1|by rewrite Hs|lia|congruence|lia|]. rewrite Hs, H3, H6.
  pose proof (tc_pos (ts_net s)). set (st := stream (ts_net s)) in *.
  assert (Ha : zlen (slice st (rpos n0) off) = off) by (apply zlen_slice; lia).
  assert (Hc : zlen (slice st (rpos n0 + off) k) = k) by (apply zlen_slice; lia).
  rewrite <-H6, splice_rest, H6 by lia. rewrite <-(slice_app_split st (rpos n0) off k) by lia.
  rewrite <-splice_splice_adj by lia. by rewrite Z.add_0_l, Ha.
Qed.

Definition stopped (e : option Error) : Prop := e = Some Disconnected ∨ e = Some LibError.Timeout.

Lemma wp_receive_loop n0 out0 timer timeout fuel off s out :
  received n0 out0 off s out → timer_event timer ∈ opened (ts_firmware s) → 0 ≤ timeout < 2 ^ 64 →
  Z.of_nat (left (ts_firmware s) (timer_event timer)) + (Z.of_nat limit + 1) * (zlen out0 - off) < Z.of_nat fuel →
  wp (receive_loop fuel timer timeout off) (s, out)
    (λ _ t, received n0 out0 (zlen out0) (fst t) (snd t) ∧ timer_event timer ∈ opened (ts_firmware (fst t)))
    (λ e t, stopped e ∧ (∃ k, received n0 out0 k (fst t) (snd t)) ∧ timer_event timer ∈ opened (ts_firmware (fst t))).
Proof.
  intros Hr He Ht. revert off s out Hr He. induction fuel as [|fuel IH]; intros off s out Hr He Hm.
  all: pose proof (received_zlen _ _ _ _ _ Hr) as Hl; pose proof (rc_off _ _ _ _ _ Hr) as Ho.
  all: cbn [receive_loop]; apply wp_bind, wp_gets; cbn [snd].
  all: destruct (zlen out <=? off) eqn:E; bools; [apply wp_ret; cbn; replace (zlen out0) with off by lia; done|].
  { assert (0 < (Z.of_nat limit + 1) * (zlen out0 - off)) by (apply Z.mul_pos_pos; lia). lia. }
  apply wp_bind, wp_beside. cbn [fst snd]. eapply wp_ts_poll; [apply Hr|intros t; apply tc_poll|].
  intros s1 (Hst & Hrp & Hq & _) Hok1 [Ho1 Hl1]. pose proof (received_poll _ _ _ _ _ _ Hr Hok1 Hst Hrp Hq) as Hr1. specialize (Hl1 _ He). rewrite <-Ho1 in He.
  apply wp_bind, wp_gets. cbn [compose fst]. destruct (is_closed s1); [apply wp_raise; cbn; split_and!; [by left|eauto|done]|].
  apply wp_bind, wp_fueled, wp_beside. cbn [fst snd]. apply wp_ts_check; [done|done| |].
  { intros s2 (Hok2 & Hn2 & [Ho2 _]) _. apply wp_raise. cbn. split_and!; [by right| |by rewrite Ho2].
    exists off. eapply received_poll; [exact Hr1|done|by rewrite Hn2..]. }
  intros s2 (Hok2 & Hn2 & [Ho2 _]) Hlt. rewrite <-Ho2 in He.
  assert (Hr2 : received n0 out0 off s2 out) by (eapply received_poll; [exact Hr1|done|by rewrite Hn2..]).
  apply wp_bind, wp_fueled. eapply wp_receive_some; [exact Hr2|lia|]. intros k s3 out3 Hr3 Hk Hf3.
  apply wp_bind, wp_fueled, wp_beside. cbn [fst snd]. apply wp_ts_progress; [apply Hr3|by rewrite Hf3|done|].
  intros s4 Hok4 Hn4 Ho4 Hl4. rewrite Hf3 in Ho4. apply IH; [eapply received_poll; [exact Hr3|done|by rewrite Hn4..]|by rewrite Ho4|].
  destruct (0 <? k) eqn:Ek; bools.
  { assert ((Z.of_nat limit + 1) * 1 ≤ (Z.of_nat limit + 1) * k) by (apply Z.mul_le_mono_nonneg_l; lia). lia. }
  replace k with 0 in * by lia. rewrite Hl4, Hf3. lia.
Qed.


(** ** Sending *)

(** The bytes that are left, [curr], are what was not queued of [data]. *)
Record partly_sent (n0 : N) (data curr : bytes) s : Prop := {
  ps_ok : sock_ok s;
  ps_queued : ∃ x, data = x ++ curr ∧ queued (ts_net s) = queued n0 ++ x;
}.
Lemma partly_sent_step n0 data curr s s' :
  partly_sent n0 data curr s → sock_ok s' → queued (ts_net s') = queued (ts_net s) → partly_sent n0 data curr s'.
Proof. intros [_ (x & -> & Hx)] Hok Hq. split; [done|]. exists x. split; [done|congruence]. Qed.

Lemma wp_send_some n0 data curr s Q X :
  partly_sent n0 data curr s →
  (∀ rest k s', partly_sent n0 data rest s' → ts_firmware s' = ts_firmware s → 0 ≤ k → zlen rest = zlen curr - k →
     tcp_send_queue (ts_net s') = tcp_send_queue (ts_net s) + k → Q (rest, 0 <? k) s') →
  wp (send_some curr) s Q X.
Proof.
  intros Hs HQ. pose proof Hs as [H1 (x & Hx & Hq)]. unfold send_some. apply wp_bind, wp_gets. cbn [id].
  assert (Hnone : Q (curr, false) s) by (apply (HQ curr 0); [done|done|lia..]).
  destruct (tcp_can_send (ts_net s)) eqn:Ec; cbn [andb]; [|by apply wp_ret].
  case_bool_decide as Hc; cbn [negb]; [by apply wp_ret|].
  destruct (tc_send (ts_net s) curr Ec Hc) as (k & n' & E & Hk & Hq' & Hst & Hp & Hsq). apply wp_bind, wp_zoom. unfold wp. rewrite E. cbn [map_err].
  unfold get_range. rewrite (proj2 (Z.leb_le 0 k)), (proj2 (Z.leb_le k _)), (proj2 (Z.leb_le (zlen curr) _)) by lia. cbn [andb ok_or].
  rewrite bind_run, lift_run, bind_run, modify_run, mret_run.
  assert (Hsplit : slice curr 0 k ++ slice curr k (zlen curr - k) = curr).
  { rewrite <-(Z.add_0_l k) at 2. rewrite slice_app_split by lia. apply slice_all. lia. }
  apply HQ; [|done|lia|apply zlen_slice; lia|done]. split; cbn; [by destruct H1|]. exists (x ++ slice curr 0 k).
  by rewrite Hq', Hq, <-!app_assoc, Hsplit.
Qed.

(** What may still happen before the loop ends or the timer decides. *)
Definition send_potential (curr : bytes) (last_queue queue : Z) : Z :=
  3 * zlen curr + queue + (if queue =? last_queue then 0 else 1).

Lemma send_potential_step curr rest last_queue q q1 k :
  zlen rest = zlen curr - k → 0 ≤ k → q1 ≤ q →
  send_potential rest q1 (q1 + k) ≤ send_potential curr last_queue q - (if negb (q1 =? last_queue) || (0 <? k) then 1 else 0).
Proof.
  intros Hr Hk Hq. unfold send_potential. rewrite Hr.
  destruct (q1 + k =? q1) eqn:E1, (q =? last_queue) eqn:E2, (q1 =? last_queue) eqn:E3, (0 <? k) eqn:E4; bools; cbn; lia.
Qed.

Lemma wp_send_loop n0 data timer timeout fuel curr last_queue s :
  partly_sent n0 data curr s → timer_event timer ∈ opened (ts_firmware s) → 0 ≤ timeout < 2 ^ 64 →
  Z.of_nat (left (ts_firmware s) (timer_event timer)) +
    (Z.of_nat limit + 1) * send_potential curr last_queue (tcp_send_queue (ts_net s)) < Z.of_nat fuel →
  wp (send_loop fuel timer timeout curr last_queue) s
    (λ _ s', partly_sent n0 data [] s' ∧ tcp_send_queue (ts_net s') = 0 ∧ timer_event timer ∈ opened (ts_firmware s'))
    (λ e s', stopped e ∧ (∃ rest, partly_sent n0 data rest s') ∧ timer_event timer ∈ opened (ts_firmware s')).
Proof.
  intros Hs He Ht. revert curr last_queue s Hs He. induction fuel as [|fuel IH]; intros curr lq s Hs He Hm; cbn [send_loop].
  { pose proof (tc_queue (ts_net s)). assert (0 ≤ send_potential curr lq (tcp_send_queue (ts_net s))) by (unfold send_potential; case_if; lia). nia. }
  apply wp_bind. eapply wp_ts_poll; [apply Hs|intros t; apply tc_poll|]. intros s1 (_ & _ & Hq & Hsq) Hok1 [Ho1 Hl1].
  pose proof (partly_sent_step _ _ _ _ _ Hs Hok1 Hq) as Hs1. specialize (Hl1 _ He). rewrite <-Ho1 in He.
  apply wp_bind, wp_gets. cbn [id]. destruct (bool_decide (curr = []) && _) eqn:E.
  { apply andb_true_iff in E as [E1%bool_decide_eq_true E2%Z.eqb_eq]. subst curr. by apply wp_ret. }
  destruct (is_closed s1); [apply wp_raise; split_and!; [by left|eauto|done]|].
  apply wp_bind, wp_fueled, wp_ts_check; [done|done| |].
  { intros s2 (Hok2 & Hn2 & [Ho2 _]) _. apply wp_raise. split_and!; [by right| |by rewrite Ho2].
    exists curr. eapply partly_sent_step; [exact Hs1|done|by rewrite Hn2]. }
  intros s2 (Hok2 & Hn2 & [Ho2 _]) Hlt. rewrite <-Ho2 in He.
  assert (Hs2 : partly_sent n0 data curr s2) by (eapply partly_sent_step; [exact Hs1|done|by rewrite Hn2]).
  apply wp_bind, wp_gets. cbn [compose]. apply wp_bind, wp_fueled. eapply wp_send_some; [exact Hs2|].
  intros rest k s3 Hs3 Hf3 Hk Hrest Hsq3. apply wp_bind, wp_fueled, wp_ts_progress; [apply Hs3|by rewrite Hf3|done|].
  intros s4 Hok4 Hn4 Ho4 Hl4. rewrite Hf3 in Ho4. apply IH; [eapply partly_sent_step; [exact Hs3|done|by rewrite Hn4]|by rewrite Ho4|].
  rewrite Hn4, Hsq3, Hn2 in *. pose proof (send_potential_step curr rest lq _ _ k Hrest Hk Hsq) as Hpot.
  set (p' := send_potential rest _ _) in *. set (p := send_potential curr _ _) in *.
  destruct (negb _ || _).
  - assert ((Z.of_nat limit + 1) * p' ≤ (Z.of_nat limit + 1) * (p - 1)) by (apply Z.mul_le_mono_nonneg_l; lia). lia.
  - assert ((Z.of_nat limit + 1) * p' ≤ (Z.of_nat limit + 1) * p) by (apply Z.mul_le_mono_nonneg_l; lia). rewrite Hl4, Hf3. lia.
Qed.

(** [send_exact] returns within a bounded number of polls, without a panic: if it
    succeeds, exactly the data was queued, once and in order, and all of it was
    acknowledged; if the connection is closed or nothing moves before the timeout, a prefix
    of the data was queued. *)
Theorem tcp_send_exact fuel timeout data s :
  sock_ok s → 0 ≤ timeout < 2 ^ 64 →
  (Z.of_nat limit + 1) * (3 * zlen data + tcp_send_queue (ts_net s) + 1) ≤ Z.of_nat fuel →
  wp (send_exact fuel data timeout) s
    (λ _ s', sock_ok s' ∧ queued (ts_net s') = queued (ts_net s) ++ data ∧ tcp_send_queue (ts_net s') = 0)
    (λ e s', stopped e ∧ sock_ok s' ∧ ∃ x, x `prefix_of` data ∧ queued (ts_net s') = queued (ts_net s) ++ x).
Proof.
  intros Hok Ht Hfuel. unfold send_exact. apply wp_bind, wp_fueled, wp_ts_new; [done|done|].
  intros t s1 Hok1 Hn1 Hown He Hl. apply wp_with_drop, wp_bind, wp_gets. cbn [compose].
  assert (Hs : partly_sent (ts_net s) data data s1) by (split; [done|exists []; by rewrite app_nil_r, Hn1]).
  eapply wp_mono; [apply (wp_send_loop (ts_net s) data); [exact Hs|done|done|]| |].
  - unfold send_potential. rewrite Z.eqb_refl, Hn1. lia.
  - intros _ s2 ([Hok2 (x & Hx & Hq)] & Hz & He2). apply wp_ts_drop; [done|done|done|]. intros s3 Hok3 ->.
    rewrite app_nil_r in Hx. by subst x.
  - intros e s2 (He' & (rest & [Hok2 (x & Hx & Hq)]) & He2). apply wp_ts_drop; [done|done|done|]. intros s3 Hok3 ->.
    split_and!; [done|done|]. exists x. split; [by exists rest|done].
Qed.

(** ** Limits *)

(** A frame that is larger than a buffer is not refused: the device announces
    transmissions of up to 65535 bytes, and panics on one of more than 1536. *)
Theorem large_frame_panics {R} polls fuel len (f : bytes → R * bytes) d :
  net_ok d → (limit < polls)%nat → (0 < fuel)%nat → tx_frame_curr d < zlen (tx_frames d) → ETHERNET_FRAME_SIZE < len →
  fst (tx_consume polls fuel len f d) = Panic.
Proof.
  intros Hok Hpolls Hfuel Hcurr Hlen. destruct fuel as [|fuel]; [lia|]. pose proof Hok as [He Hi Hrx Hf]. cbn [tx_consume].
  rewrite bind_run, gets_run, bind_run, attempt_run. cbn [id]. rewrite He. unfold zoom.
  edestruct (wp_run_ok (loop_with_timeout entry polls (5 * 10 ^ 9)
     (b ← try_get_buffer (nd_protocol d) (tx_frames d); mret (match b with Some b => inl b | None => inr false end)))
     (nd_firmware d, tx_frame_curr d) (λ r _, is_Some r)) as (r & [w c] & -> & [b ->]).
  { eapply wp_find_frame; [done|exact Hf|done|eauto|]. intros w' _ Hfull. lia. }
  unfold fueled, send_frame. rewrite bind_run, gets_run, (proj2 (Z.ltb_lt _ len)), orb_true_r by done. done.
Qed.
End Device.

(** The time since [base], in milliseconds: a count that went past the end of the
    integers is one millisecond short. *)
Theorem timestamp_elapsed {W N} `{!NetClock W} (s : EfiTcpSocket W N) base t :
  u64_ok base → u64_ok t → clock_load (nd_firmware (efi_net_dev s)) = wrap 64 (base + t) →
  ts_timestamp base s = from_millis (if base + t <? 2 ^ 64 then t else t - 1).
Proof.
  unfold u64_ok. intros Hb Ht Hc. unfold ts_timestamp. rewrite Hc. unfold wrap. f_equal. destruct (base + t <? 2 ^ 64) eqn:E; bools.
  - rewrite Z.mod_small by lia. rewrite (proj2 (Z.ltb_ge _ _)) by lia. lia.
  - replace (base + t) with (base + t - 2 ^ 64 + 1 * 2 ^ 64) by lia. rewrite Z.mod_add, Z.mod_small by lia.
    rewrite (proj2 (Z.ltb_lt _ _)) by lia. lia.
Qed.

(** A connection that is established when [accept_new] looks is not accepted: it is
    aborted, and the socket listens again. *)
Theorem accept_new_aborts_established {W N} `{!Smoltcp N} `{!NetClock W} (s s1 : EfiTcpSocket W N) n :
  ts_poll s = (Ok tt, s1) → tcp_state (ts_net s1) = Tcp.Established →
  tcp_listen FASTBOOT_TCP_PORT (tcp_abort (ts_net s1)) = (Ok tt, n) →
  ∃ s2, efi_accept_new s = (Ok false, s2) ∧ ts_net s2 = ts_net (broadcast_fuchsia_fastboot_mdns (ts_set_net n s1)).
Proof.
  intros Hp Hs Hl. unfold efi_accept_new. rewrite bind_run, Hp, bind_run, gets_run. unfold is_listening_or_handshaking. rewrite Hs. cbn [negb].
  rewrite bind_run, mret_run, bind_run. unfold fueled. rewrite attempt_run. unfold ts_listen.
  rewrite bind_run, modify_run, bind_run. unfold zoom. cbn [ts_net ts_set_net]. rewrite Hl. cbn. by eexists.
Qed.

(** ** An example *)

Module NetExample.
(** A firmware: frames are given back one by one, a timer expires when it is looked at
    for the fourth time, and every reception finds the same frame of two bytes. *)
Record Fw := mkFw { fw_held : gmap Z bytes; fw_timers : gmap Z nat }.
Definition ok {A} (a : A) (w : Fw) : Z * A * Fw := (EFI_STATUS_SUCCESS, a, w).
Definition create (_ : Z * Z * bool) (w : Fw) : Z * Z * Fw :=
  let e := fresh (dom (fw_timers w)) in ok e (mkFw (fw_held w) (<[e := 0%nat]> (fw_timers w))).
Definition set (x : Z * Z * Z) (w : Fw) : Z * unit * Fw :=
  ok tt (mkFw (fw_held w) (<[fst (fst x) := 3%nat]> (fw_timers w))).
Definition check (e : Z) (w : Fw) : Z * unit * Fw :=
  match fw_timers w !! e with
  | Some (S n) => (EFI_STATUS_NOT_READY, tt, mkFw (fw_held w) (<[e := n]> (fw_timers w)))
  | _ => ok tt w
  end.
Definition close (e : Z) (w : Fw) : Z * unit * Fw := ok tt (mkFw (fw_held w) (delete e (fw_timers w))).
Definition services : EfiBootService Fw :=
  mkBootService _ None None None (Some create) (Some set) (Some close) (Some check) None None None None None.
Definition the_entry : EfiEntry Fw := mkEntry 1 (Some (mkSystemTable _ (Some services) None None)).
Definition status (_ : option Z * option Z) (w : Fw) : Z * (option Z * option Z) * Fw :=
  match fw_held w !! 0x1000 with
  | Some _ => ok (Some 0, Some 0x1000) (mkFw (delete 0x1000 (fw_held w)) (fw_timers w))
  | None => ok (Some 0, Some 0) (mkFw (delete 0 (fw_held w)) (fw_timers w))
  end.
Definition transmit (f : TxFrame) (w : Fw) : Z * unit * Fw := ok tt (mkFw (<[tx_buf f := tx_data f]> (fw_held w)) (fw_timers w)).
Definition receive (_ : RxInfo) (s : Fw * bytes) : Z * RxInfo * (Fw * bytes) :=
  if 2 <=? zlen (snd s) then (EFI_STATUS_SUCCESS, mkRxInfo None (Some 2) None None None, (fst s, splice (snd s) 0 [104; 105]))
  else (EFI_STATUS_BUFFER_TOO_SMALL, mkRxInfo None (Some 2) None None None, s).
Definition stop (w : Fw) : Z * unit * Fw := ok tt (mkFw ∅ (fw_timers w)).
Definition snp : EfiSimpleNetworkProtocol Fw :=
  mkSnp _ (Some (ok tt)) None (Some (λ _, ok tt)) (Some (λ _, ok tt)) (Some stop) None (Some status) (Some transmit) (Some receive) None.
Definition opened (w : Fw) : gset Z := dom (fw_timers w).
Definition left (w : Fw) (e : Z) : nat := default 0%nat (fw_timers w !! e).

Lemma calm_same h w : calm opened left w (mkFw h (fw_timers w)).
Proof. done. Qed.
#[local] Instance net_firmware : NetFirmware the_entry snp fw_held (λ p, p = 0) opened left 3.
Proof.
  refine {| nf_services := services |}; [done|..]; intros; unfold wp, efi_call, app_fn; cbn.
  - split; [done|]. unfold created, opened, left. cbn. rewrite dom_insert_L. split_and!; [apply is_fresh|done|].
    intros e' He'. by rewrite lookup_insert_ne by (intros <-; by apply (is_fresh (dom (fw_timers w)))).
  - unfold opened, left in *. cbn. rewrite lookup_insert_eq, dom_insert_L. split_and!; [done|set_solver|cbn; lia|cbn; lia|].
    intros e' _ Hne. by rewrite lookup_insert_ne.
  - unfold check. unfold opened in H. apply elem_of_dom in H as [[|n] Hn]; rewrite Hn; cbn; unfold left; cbn.
    + by rewrite Hn.
    + split; [done|]. rewrite Hn, lookup_insert_eq. cbn. split; [|split; [done|lia]]. unfold calm, opened, left. cbn. rewrite dom_insert_L.
      split; [apply elem_of_dom_2 in Hn; set_solver|]. intros e' _. destruct (decide (e' = e)) as [->|?]; [rewrite Hn, lookup_insert_eq; cbn; lia|].
      by rewrite lookup_insert_ne.
  - split; [done|]. unfold closed, opened, left. cbn. rewrite dom_delete_L. split; [done|]. intros e' He'. rewrite lookup_delete_ne; [done|set_solver].
  - unfold status. destruct (fw_held w !! 0x1000) as [d|] eqn:E; cbn.
    + split; [apply delete_subseteq|]. split; [done|]. intros p [= <-]. rewrite lookup_delete_eq. split; [done|]. left. by eapply elem_of_dom_2.
    + split; [apply delete_subseteq|]. split; [done|]. intros p [= <-]. rewrite lookup_delete_eq. by split; [|right].
  - done.
  - unfold receive. cbn. case_if; bools; cbn; [|done]. split_and!; [done|done|apply length_splice; cbn; lia|]. intros n [= <-]. done.
  - done.
  - done.
  - done.
  - done.
Defined.

(** A device with two frames. *)
Definition machine : Machine Fw := mkMachine allocator_new (mkFw ∅ ∅) (λ _, 0).
Definition device : EfiNetworkDevice Fw :=
  mkNetDevice (mkProtocol 5 (Some snp)) 0x8000 (zeros ETHERNET_FRAME_SIZE) [0x1000; 0x2000] 0 the_entry machine.
Lemma device_ok : net_ok (entry := the_entry) (i := snp) (held := fw_held) (foreign := λ p, p = 0) device.
Proof.
  split; [done|done|vm_compute; reflexivity|]. split; cbn; [done|by_compute|set_solver| |lia|].
  - intros [|[|j]] [|[|k]] a b Ha Hb Hne; try done; injection Ha as <-; injection Hb as <-; unfold ETHERNET_FRAME_SIZE; lia.
  - intros b data Hb. by rewrite lookup_empty in Hb.
Qed.

(** Three frames are sent, from a pool of two. *)
Definition send (x : Z) (k : NetProg Z) : NetProg Z := NSend unit 2 (λ _, (tt, [x; x + 1])) (λ _, k).
Definition prog : NetProg Z := send 10 (send 20 (NReceive (λ r, send 30 (NDone (zlen (default [] r)))))).

(** A socket: each poll sends a frame and brings two bytes. *)
Record Conn := mkConn { c_read : bytes; c_unread : bytes; c_sent : bytes; c_unacked : bytes }.
Definition arrive (r : option bytes) (n : Conn) : Conn := mkConn (c_read n) (c_unread n ++ default [] r) (c_sent n) [].
Definition recv_slice : ST (Conn * bytes) Tcp.RecvError Z := λ '(n, b),
  let k := Z.min (zlen b) (zlen (c_unread n)) in
  (Ok k, (mkConn (c_read n ++ slice (c_unread n) 0 k) (slice (c_unread n) k (zlen (c_unread n) - k)) (c_sent n) (c_unacked n),
          splice b 0 (slice (c_read n ++ c_unread n) (zlen (c_read n)) k))).
Definition send_slice (data : bytes) : ST Conn Tcp.SendError Z := λ n,
  (Ok (zlen data), mkConn (c_read n) (c_unread n) (c_sent n ++ data) (c_unacked n ++ data)).
#[local] Instance smoltcp : Smoltcp Conn := {|
  net_new _ _ _ _ _ _ := mkConn [] [] [] [];
  net_poll _ n := NSend unit 2 (λ _, (tt, [1; 2])) (λ _, NReceive (λ r, NDone (arrive r n)));
  tcp_abort n := n; tcp_listen _ n := (Ok tt, n); tcp_state _ := Tcp.Established;
  tcp_is_active _ := true; tcp_is_open _ := true;
  tcp_can_recv n := negb (bool_decide (c_unread n = [])); tcp_can_send _ := true;
  tcp_recv_slice := recv_slice; tcp_send_slice := send_slice; tcp_send_queue n := zlen (c_unacked n);
  tcp_remote_endpoint _ := None; udp_is_open _ := false; udp_bind _ n := n; udp_can_send _ := false; udp_send_slice _ _ n := n;
|}.
#[local] Instance clock : NetClock Fw := {| clock_load _ := 50; clock_swap _ w := w |}.
Lemma clock_small (w : Fw) : 0 ≤ clock_load w < 2 ^ 63.
Proof. cbn. lia. Qed.
#[local] Instance tcp_contract : TcpContract Conn (λ n, c_read n ++ c_unread n) (λ n, zlen (c_read n)) c_sent.
Proof.
  split.
  - intros n. rewrite length_app. lia.
  - intros n. cbn. lia.
  - intros t n. cbn. split; [unfold ETHERNET_FRAME_SIZE; lia|]. intros _ _ r. split_and!; [|done|done|lia].
    cbn. rewrite app_assoc. by exists (default [] r).
  - intros n b Hr Hb. cbn in Hr. apply negb_true_iff, bool_decide_eq_false in Hr. eexists _, _. split; [done|]. cbn.
    assert (0 < zlen b) by (destruct b; [done|cbn; lia]). assert (0 < zlen (c_unread n)) by (destruct (c_unread n); [done|cbn; lia]).
    set (k := Z.min _ _). assert (Hk : 0 < k ≤ zlen b ∧ k ≤ zlen (c_unread n)) by lia.
    split_and!; [lia|lia|rewrite length_app; lia| |rewrite length_app, length_slice; lia|done].
    rewrite <-app_assoc. f_equal. rewrite <-(Z.add_0_l k) at 2. rewrite slice_app_split by lia. apply slice_all. lia.
  - intros n data _ Hd. eexists _, _. split; [done|]. cbn. assert (0 < zlen data) by (destruct data; [done|cbn; lia]).
    split_and!; [lia|lia|by rewrite slice_all|done|done|rewrite length_app; lia].
Qed.
Definition socket : EfiTcpSocket Fw Conn :=
  mkTcpSocket device (mkConn [] [] [] []) (yield_counter_new 100) None (mkEvent true 9) [] 4.
Lemma socket_ok : sock_ok (entry := the_entry) (i := snp) (held := fw_held) (foreign := λ p, p = 0) (limit := 3) socket.
Proof. split; [apply device_ok|cbn; lia..]. Qed.


(** The witness of [tcp_send_exact]. *)
Lemma tcp_send_exact_witness :
  ∃ s, send_exact 28 [7; 8] DEFAULT_TIMEOUT socket = (Ok tt, s) ∧ c_sent (ts_net s) = [7; 8].
Proof.
  pose proof (tcp_send_exact (limit := 3) (Smoltcp0 := smoltcp) (stream := λ n, c_read n ++ c_unread n) (rpos := λ n, zlen (c_read n)) (queued := c_sent)
    clock_small 28 DEFAULT_TIMEOUT [7; 8] socket socket_ok ltac:(unfold DEFAULT_TIMEOUT; lia) ltac:(vm_compute; discriminate)) as H.
  assert (E : fst (send_exact 28 [7; 8] DEFAULT_TIMEOUT socket) = Ok tt) by (vm_compute; reflexivity).
  unfold wp in H. destruct (send_exact _ _ _ _) as [[[]|e|] s]; cbn in E; try discriminate. exists s. split; [done|]. apply H.
Defined.
End NetExample.
