(* ===== verification/EfiApp.v ===== *)
(** * efi: the application

    Models the decisions of src/gbl/efi/src/lib.rs, src/gbl/efi/src/fuchsia_boot.rs
    (but for the memory items, which are in EfiMem), the loading part of
    src/gbl/efi/src/android_boot.rs and the platform buffers of
    src/gbl/efi/src/utils.rs: which system is booted, in which memory, and how the
    flows of libgbl run on the platform operations of EfiOps. A fastboot
    session is a parameter of the flows, as it is of libgbl's. *)

From S2P Require Import Prelude SafeMath LibError Text Utils Abr Slots Block Disk GptData.
From S2P Require Import Partition GblOps.
From S2P Require Import BootParams Avb ImageBuffer FuchsiaBoot Misc DtTable Fdt DeviceTree.
From S2P Require Import AndroidLoad Fastboot GblFastboot GblVars AndroidBoot Libc.
From S2P Require Import Efi EfiMem EfiAlloc EfiProtocols EfiTimer EfiOps LibBoot.

(** ** The system to boot *)

Section Target.
Context {D : Type} `{!BlockIo D}.

(** gbl/efi/src/fuchsia_boot.rs:45-64, [is_fuchsia_gpt]: the names of each partition. *)
Definition fuchsia_partitions : list (list (list Z)) :=
  [[str "zircon_a"; str "zircon-a"]; [str "zircon_b"; str "zircon-b"]; [str "zircon_r"; str "zircon-r"];
   [str "vbmeta_a"]; [str "vbmeta_b"]; [str "vbmeta_r"]; [str "misc"; str "durable_boot"]].
(** gbl/efi/src/fuchsia_boot.rs:45-64, [is_fuchsia_gpt]: one of the names is that of a unique partition. *)
Fixpoint any_unique (disks : list (GblDisk D)) (names : list (list Z)) : result bool :=
  match names with
  | [] => Ok false
  | v :: names =>
      r ← res_ok (check_part_unique disks v);
      match r with Some _ => Ok true | None => any_unique disks names end
  end.
Fixpoint all_unique (disks : list (GblDisk D)) (partitions : list (list (list Z))) : result bool :=
  match partitions with
  | [] => Ok true
  | p :: partitions => b ← any_unique disks p; if b : bool then all_unique disks partitions else Ok false
  end.
(** gbl/efi/src/fuchsia_boot.rs:45-64, [is_fuchsia_gpt]. *)
Definition is_fuchsia_gpt (disks : list (GblDisk D)) : result unit :=
  b ← all_unique disks fuchsia_partitions; if b : bool then Ok tt else Err NotFound.

(** gbl/libefi/src/lib.rs:124-126, [GBL_EFI_VENDOR_GUID]. *)
Definition GBL_EFI_VENDOR_GUID : EfiGuid :=
  mkGuid 0x5a6d92f3 0xa2d0 0x4083 [0x91; 0xa1; 0xa5; 0x0f; 0x6c; 0x3d; 0x98; 0x30].
(** gbl/libefi/src/lib.rs:132-136, [GBL_EFI_OS_BOOT_TARGET_VARNAME]. *)
Definition GBL_EFI_OS_BOOT_TARGET_VARNAME : list Z := str "gbl_os_boot_fuchsia".

(** gbl/efi/src/lib.rs:67-70, [TargetOs]. *)
Inductive TargetOs := TAndroid | TFuchsia.
#[export] Instance TargetOs_eq_dec : EqDecision TargetOs.
Proof. solve_decision. Defined.

(** gbl/efi/src/lib.rs:70-92, [get_target_os]. *)
Definition get_target_os {W} (entry : EfiEntry W) (disks : list (GblDisk D)) : ST W Error TargetOs :=
  rt ← lift (runtime_services entry);
  r ← attempt (get_variable rt GBL_EFI_VENDOR_GUID GBL_EFI_OS_BOOT_TARGET_VARNAME (zeros 1));
  match r with
  | inl _ => mret TFuchsia
  | inr _ => r ← lift (res_ok (is_fuchsia_gpt disks)); mret (match r with Some _ => TFuchsia | None => TAndroid end)
  end.
End Target.

(** ** Memory for the system *)

(** gbl/efi/src/utils.rs:171-177, [BufferInfo]: a static buffer is its address and its size. *)
Inductive BufferInfo := BStatic (addr size : Z) | BAlloc (size : Z).

Section Buffers.
Context {W : Type} `{!Firmware W} `{!LibFdt}.

Definition zero_memory (addr size : Z) (o : Ops W) : Ops W :=
  let m := op_machine o in
  set_machine (mkMachine (mc_allocator m) (mc_firmware m) (mem_write (mc_memory m) addr (zeros size))) o.

(** gbl/efi/src/utils.rs:179-206, [get_platform_buffer_info]. *)
Definition get_platform_buffer_info (image_type : bytes) (default_aloc_size : Z) : ST (Ops W) Error BufferInfo :=
  r ← attempt (get_buffer_from_protocol image_type 0);
  match r with
  | inl (Buffer b) =>
      '((addr, size), _) ← lift (efi_image_buffer_take b);
      modify (zero_memory addr size);;
      mret (BStatic addr size)
  | inl (AllocSize sz) => mret (if sz =? 0 then BAlloc default_aloc_size else BAlloc sz)
  | inr _ => mret (BAlloc default_aloc_size)
  end.

(** A buffer of zeros: where it is and its bytes. A failed allocation does not return. *)
Definition materialize (i : BufferInfo) : ST (Ops W) Error (Z * bytes) :=
  match i with
  | BStatic addr size => mret (addr, zeros size)
  | BAlloc size =>
      lift (assert_that (size <? 2 ^ 63));;
      ptr ← zoom op_machine set_machine (alloc (mkLayout size 1));
      if ptr =? 0 then lift Panic else
      modify (zero_memory ptr size);;
      mret (ptr, zeros size)
  end.

Definition SZ_MB : Z := 1024 * 1024.

(** gbl/efi/src/android_boot.rs:29-78, [efi_android_load]: the buffers for downloads of a fastboot session, two of equal size. *)
Definition download_chunks (buffer : Z * bytes) : result (list (Z * bytes)) :=
  let n := zlen (snd buffer) / 2 in
  if n =? 0 then Panic else
  Ok (imap (λ i b, (fst buffer + Z.of_nat i * n, b)) (chunks_exact (length (snd buffer)) n (snd buffer))).
(** gbl/efi/src/android_boot.rs:29-78, [efi_android_load]: the memory for downloads, whose place is asked for once. *)
Definition fastboot_buffers (fastboot_type : bytes) (info : option BufferInfo) : ST (Ops W) Error (BufferInfo * list (Z * bytes)) :=
  i ← (match info with Some i => mret i | None => get_platform_buffer_info fastboot_type (512 * SZ_MB) end);
  buffer ← materialize i;
  chunks ← lift (download_chunks buffer);
  mret (i, chunks).
End Buffers.

(** ** The flows *)

Section Flows.
Context {D W ZE : Type} `{!BlockIo D} `{!Firmware W} `{!DtTableLayout} `{!Decoders} `{!BootImgLib} `{!LibFdt} `{!ZbiLib ZE}.
Context `{!LibAvb D (Ops W)} (polls : nat).
Abbreviation State := (list (GblDisk D) * Ops W)%type.
Abbreviation M := (ST State (IntegrationError SlotVerifyError ZE)).
#[local] Existing Instance OpsGblOps.

(** Code of the platform. *)
Definition on_ops {A} (m : ST (Ops W) Error A) : M A := λ s,
  let '(r, o) := m (snd s) in (map_err UnificationError r, (fst s, o)).

(** gbl/efi/src/android_boot.rs:29-78, [efi_android_load]: the name of the image type is a constant of the generated
    bindings; the load buffer and what [android_main] returns. *)
Definition efi_android_load (BUILD_NUMBER : option bytes) (os_load_type : bytes) (cmd_addr : Z)
    (run_fastboot : State * bytes → GblFastbootResult * (State * bytes)) : M (Z * bytes * Booted) :=
  info ← on_ops (get_platform_buffer_info os_load_type (256 * SZ_MB));
  '(base, load) ← on_ops (materialize info);
  '(load, booted) ← android_main (G := Ops W) (GblOps0 := OpsGblOps polls) BUILD_NUMBER base cmd_addr load run_fastboot;
  mret (base, load, booted).

(** gbl/efi/src/fuchsia_boot.rs:66-78, [efi_fuchsia_load]: the kernel and its items. *)
Definition efi_fuchsia_load (abr_addr hdr_addr : Z) (fastboot : ST State Error unit) : M (ImageBuffer * ImageBuffer) :=
  enter ← (λ s, let '(r, s) := zircon_check_enter_fastboot (G := Ops W) (GblOps0 := OpsGblOps polls) abr_addr s in (map_err UnificationError r, s));
  (if enter : bool then λ s, let '(r, s) := fastboot s in (map_err UnificationError r, s) else mret tt);;
  '(zbi_items_buffer, kernel_buffer, _) ← zircon_load_verify_abr abr_addr hdr_addr;
  mret (kernel_buffer, zbi_items_buffer).

(** What is ready to be started. *)
Inductive Loaded := LoadedFuchsia (kernel zbi_items : ImageBuffer) | LoadedAndroid (base : Z) (load : bytes) (images : Booted).

(** gbl/efi/src/lib.rs:94-119, [app_main]: with the devices, up to the exit from the boot services. *)
Definition app_main_load (entry : EfiEntry W) (BUILD_NUMBER : option bytes) (os_load_type : bytes) (cmd_addr abr_addr hdr_addr : Z)
    (run_fastboot : State * bytes → GblFastbootResult * (State * bytes)) (fastboot : ST State Error unit)
    : ST (list (GblDisk D) * Machine W) (IntegrationError SlotVerifyError ZE) Loaded := λ '(disks, m),
  let '(t, m) := on_firmware (get_target_os entry disks) m in
  let with_ops os (f : M Loaded) :=
    let '(r, (disks, o)) := f (disks, ops_new entry (Some os) m []) in (r, (disks, op_machine o)) in
  match t with
  | Ok TFuchsia =>
      with_ops Fuchsia ('(kernel, zbi_items) ← efi_fuchsia_load abr_addr hdr_addr fastboot; mret (LoadedFuchsia kernel zbi_items))
  | Ok TAndroid =>
      with_ops Android ('(base, load, images) ← efi_android_load BUILD_NUMBER os_load_type cmd_addr run_fastboot;
                        mret (LoadedAndroid base load images))
  | Err e => (Err (UnificationError e), (disks, m))
  | Panic => (Panic, (disks, m))
  end.
End Flows.

(** ** The start of Zircon *)

Section Zircon.
Context {V W ZE : Type} `{!ZbiLib ZE} `{!ZbiMem ZE} (entry : EfiEntry W).
Abbreviation Boot := (ST (Machine W) (IntegrationError V ZE)).

(** [exit_boot_services(..).unwrap()]. *)
Definition exit_or_panic (addr : Z) (buffer : bytes) : Boot EfiMemoryMap :=
  unwrap_st (on_exit (exit_boot_services entry addr buffer)).

(** gbl/efi/src/fuchsia_boot.rs:80-124, [efi_fuchsia_boot]: on x86; the memory map is stored to the stack, at [map_addr].
    The jump, and the items that the kernel gets. *)
Definition efi_fuchsia_boot_x86 (map_addr : Z) (kernel_buffer zbi_items : ImageBuffer) : Boot (Jump * bytes) :=
  items ← lift (unwrap_res (used zbi_items));
  let items_addr := ib_addr zbi_items in
  lift (map_err ZbiError (zbi_parse items_addr items));;
  m ← gets mc_memory;
  tables ← lift (unwrap_res (configuration_table entry));
  table ← lift (unwrap_res (get_efi_mem_attr (mem_read m) (default [] tables)));
  table ← lift (ok_or table (UnificationError InvalidInput));
  efi_memory_map ← exit_or_panic map_addr (zeros (32 * 1024 / 2));
  items ← lift (match add_memory_items items_addr efi_memory_map table items with
                | (Ok _, items) => Ok items
                | (Err e, _) => Err e
                | (Panic, _) => Panic
                end);
  kernel ← lift (unwrap_res (used kernel_buffer));
  jump ← lift (map_err UnificationError (zbi_boot (ZE := ZE) (ib_addr kernel_buffer) kernel items_addr));
  mret (jump, items).
(** gbl/efi/src/fuchsia_boot.rs:80-124, [efi_fuchsia_boot]: on aarch64, at the exception level [el]; the memory map is stored
    behind the items and not used. *)
Definition efi_fuchsia_boot_aarch64 (el : Z) (kernel_buffer zbi_items : ImageBuffer) : Boot (list (Z * Z) * Jump) :=
  items ← lift (unwrap_res (used zbi_items));
  lift (map_err ZbiError (zbi_parse (ib_addr zbi_items) items));;
  item_size ← lift (map_err ZbiError (container_size items));
  remains ← lift (index_from items item_size);
  _ ← exit_or_panic (ib_addr zbi_items + item_size) remains;
  kernel ← lift (unwrap_res (used kernel_buffer));
  lift (map_err UnificationError (jump_zircon_el2_or_lower (ZE := ZE) el (ib_addr kernel_buffer, kernel) (ib_addr zbi_items, items))).
(** gbl/efi/src/fuchsia_boot.rs:80-124, [efi_fuchsia_boot]: on riscv64. *)
Definition efi_fuchsia_boot_riscv64 (zbi_items : ImageBuffer) : Boot Jump := lift Panic.
End Zircon.

(** * Which system is booted *)

Section Decision.
Context {D : Type} `{!BlockIo D}.
Implicit Types disks : list (GblDisk D).

(** A partition with one of the names, on one device only. *)
Definition has_unique disks (names : list (list Z)) : Prop := Exists (λ v, ∃ p, check_part_unique disks v = Ok p) names.

Lemma any_unique_spec disks names :
  (∀ v, check_part_unique disks v ≠ Panic) → ∃ b : bool, any_unique disks names = Ok b ∧ (b = true ↔ has_unique disks names).
Proof.
  intros Hp. induction names as [|v names (b & IH & Hb)]; cbn.
  - exists false. split; [done|]. split; [done|]. intros H. by apply Exists_nil in H.
  - unfold has_unique in *. destruct (check_part_unique disks v) as [p|e|] eqn:E; cbn; [|rewrite IH|by destruct (Hp v)].
    + exists true. split; [done|]. rewrite Exists_cons. split; [|done]. left. eauto.
    + exists b. split; [done|]. rewrite Hb, Exists_cons. split; [by right|]. intros [[p ?]|?]; [congruence|done].
Qed.
Lemma all_unique_spec disks partitions :
  (∀ v, check_part_unique disks v ≠ Panic) →
  ∃ b : bool, all_unique disks partitions = Ok b ∧ (b = true ↔ Forall (has_unique disks) partitions).
Proof.
  intros Hp. induction partitions as [|p partitions (b & IH & Hb)]; cbn; [by exists true|].
  destruct (any_unique_spec disks p Hp) as (c & -> & Hc). cbn. destruct c.
  - rewrite IH. exists b. split; [done|]. rewrite Hb, Forall_cons. naive_solver.
  - exists false. split; [done|]. rewrite Forall_cons. naive_solver.
Qed.

(** Without the variable, the partitions decide. *)
Lemma target_from_partitions {W} (entry : EfiEntry W) disks rt w e w' :
  runtime_services entry = Ok rt → (∀ v, check_part_unique disks v ≠ Panic) →
  get_variable rt GBL_EFI_VENDOR_GUID GBL_EFI_OS_BOOT_TARGET_VARNAME (zeros 1) w = (Err e, w') →
  ∃ t, get_target_os entry disks w = (Ok t, w') ∧ (t = TFuchsia ↔ Forall (has_unique disks) fuchsia_partitions).
Proof.
  intros Hrt Hp Hv. unfold get_target_os. rewrite bind_run, lift_run, Hrt, bind_run, attempt_run, Hv, bind_run, lift_run.
  unfold is_fuchsia_gpt. destruct (all_unique_spec disks fuchsia_partitions Hp) as (b & -> & Hb).
  destruct b; cbn; eexists; (split; [done|]); naive_solver.
Qed.

(** A device is booted as Fuchsia if the variable of the boot target can be read to a
    buffer of one byte, or if each partition of Fuchsia is there, under one of its
    names and on one device only; otherwise it is booted as Android. *)
Theorem target_os_decision {W} (entry : EfiEntry W) disks rt w r w' :
  runtime_services entry = Ok rt → (∀ v, check_part_unique disks v ≠ Panic) →
  get_variable rt GBL_EFI_VENDOR_GUID GBL_EFI_OS_BOOT_TARGET_VARNAME (zeros 1) w = (r, w') → r ≠ Panic →
  ∃ t, get_target_os entry disks w = (Ok t, w') ∧
    (t = TFuchsia ↔ (∃ v, r = Ok v) ∨ Forall (has_unique disks) fuchsia_partitions).
Proof.
  intros Hrt Hp Hv Hr. destruct r as [v|e|]; [| |done].
  - exists TFuchsia. split; [|naive_solver]. unfold get_target_os. by rewrite bind_run, lift_run, Hrt, bind_run, attempt_run, Hv.
  - destruct (target_from_partitions entry disks rt w e w' Hrt Hp Hv) as (t & Ht & Hiff). exists t. naive_solver.
Qed.

(** A variable that is there but longer than a byte does not count: the layout of the
    partitions decides. *)
Theorem long_variable_ignored {W} (entry : EfiEntry W) disks rt f w n w' :
  runtime_services entry = Ok rt → (∀ v, check_part_unique disks v ≠ Panic) → fn_get_variable rt = Some f →
  f (encode_utf16 GBL_EFI_OS_BOOT_TARGET_VARNAME ++ [0], GBL_EFI_VENDOR_GUID, zeros 1) w = (EFI_STATUS_BUFFER_TOO_SMALL, n, w') →
  ∃ t, get_target_os entry disks w = (Ok t, w') ∧ (t = TFuchsia ↔ Forall (has_unique disks) fuchsia_partitions).
Proof.
  intros Hrt Hp Hf Hv. eapply target_from_partitions; [done|done|]. unfold get_variable, efi_call_bufsize. rewrite Hf.
  cbn [app_fn option_map]. by rewrite Hv.
Qed.
End Decision.
